(* ===== verification/_CoqProject ===== *)
-Q . S2P
Prelude.v
IntervalTree.v
IntervalTreeFacts.v
IntervalTreeAlloc.v
IntervalTreeProps.v
DeviceResources.v
ResourceManager.v
ResourceManagerFacts.v
ResourceManagerGrants.v
ResourceManagerProps.v
RateLimiter.v
RateLimiterProps.v
VsockTxBuf.v
VsockConn.v
VsockConnFacts.v
VsockPort.v
VsockMuxer.v
VsockDemo.v
VsockConnProps.v
VsockMuxerFacts.v
VsockMuxerInv.v
VsockMuxerOps.v
VsockPortProps.v
VsockMuxerProps.v
Effects.v
InterruptManager.v
MmioData.v
MmioTransport.v
MmioFacts.v
MmioTotal.v
MmioDemo.v
MmioProps.v
IoManager.v
IoManagerProps.v
SafePath.v
SafePathFacts.v
SafePathProps.v
PciPath.v
PciPathProps.v
PcieTopology.v
DeviceDrivers.v
DeviceDriversFacts.v
DeviceManager.v
DeviceManagerFacts.v
DeviceDemo.v
PcieTopologyProps.v
VfioProps.v
DeviceManagerProps.v
Bits.v
PciBus.v
PciConfig.v
PciMsi.v
KvmIrq.v
PciRoot.v
PciConfigFacts.v
PciConfigBuild.v
PciBars.v
PciConfigProps.v
PciRootProps.v
MsixFacts.v
MsixProps.v
PciCommonConfig.v
VirtioPci.v
VirtioPciLocks.v
VirtioPciProps.v
VirtioPciTotal.v
VirtioPciIoevents.v
VirtioPciDemo.v
AddressSpace.v
AddressSpaceProps.v
AddressSpaceMgr.v
AddressSpaceMgrFacts.v
VirtioDeviceInfo.v
VirtioMem.v
MemFactory.v
AddressSpaceMgrProps.v
VirtioMemFacts.v
VirtioMemSpec.v
VirtioMemDevice.v
VirtioMemProps.v
