(* ===== verification/Prelude.v ===== *)
(** * kata-containers: a verification development

    Kata Containers runs containers inside light-weight virtual machines.  Its
    Rust code has a virtual machine monitor (src/dragonball), the agent that
    runs in the guest (src/agent), the containerd shim (src/runtime-rs) and the
    libraries they share (src/libs).  This development models parts of them
    whose correctness isolates one guest, device, connection or file tree from
    another, and proves what they promise.

    ** The program and its model

    - Resources.  A device asks the monitor for interrupts, ports, memory
      ranges and memory slots.  The pools they come from are interval trees.
      [IntervalTree] models dbs_allocator/src/interval_tree.rs and lib.rs: an
      AVL tree of inclusive ranges ([tree], [IntervalTree]) whose nodes are
      free, allocated or carry a value.  [DeviceResources] models
      dbs_device/src/resources.rs, [ResourceManager] models
      dragonball/src/resource_manager.rs: a record of six pools, one definition
      per allocate and free operation, and [allocate_device_resources] with its
      release of what was granted before a failure.
    - Rate limits.  [RateLimiter] models dbs_utils/src/rate_limiter.rs: token
      buckets with a one-time burst and the limiter with its timer.
    - Vsock.  A guest talks to host processes over vsock packets.
      [VsockTxBuf] models the ring buffer of a connection (csm/txbuf.rs) and the
      stream trait (backend/mod.rs); [VsockConn] the packet header (packet.rs)
      and the connection state machine (csm/connection.rs, csm/mod.rs);
      [VsockPort] the parser of the connect requests of host processes;
      [VsockMuxer] the multiplexer of connections with its RX and kill queues
      (muxer/muxer_impl.rs, muxer_rxq.rs, muxer_killq.rs).  All of these are
      under src/dragonball/dbs_virtio_devices/src/vsock.
    - The MMIO transport.  A guest configures a virtio device through registers.
      [InterruptManager] models dbs_interrupt/src/manager.rs; [MmioData] the
      queues and the device trait, [MmioTransport] the register file, the device
      status machine, activation and reset (mmio/mmio_state.rs, mmio_v2.rs and
      dragonball.rs of dbs_virtio_devices).
    - PCI.  All of it is under src/dragonball/dbs_pci/src, except the interrupts.
      [PciBus] models bus.rs: the address pools and slots of a bus; [PciConfig]
      models configuration.rs: the configuration space of a device with its base
      address registers (BARs) and capabilities; [PciMsi] models msi.rs and
      msix.rs; [PciRoot] models root_device.rs, root_bus.rs and pci_address.rs: the
      two ways of the guest to a configuration space, and the host bridge.
      [KvmIrq] models dbs_interrupt/src/kvm and notifier.rs: the groups of
      interrupts that the interrupt manager drives, over the routes and event
      files of KVM.
    - The virtio PCI transport.  [PciCommonConfig] models pci_common_config.rs,
      [VirtioPci] models virtio_pci.rs: the construction of a device with its
      capabilities and BARs, the accesses of the guest to BAR 0 and to the
      configuration space, activation and reset.  [VirtioPciLocks] models the
      locks that each of these accesses takes, in their order, and threads that
      interleave them.
    - The IO manager.  [IoManager] models dbs_device/src/device_manager.rs, which
      leads each access of the guest to the device of its address range, and the
      transactions of dragonball/src/device_manager/mod.rs that change it.
    - Guest memory.  [AddressSpace] models dbs_address_space (region.rs,
      memory/mod.rs, layout.rs, address_space.rs, numa.rs): regions, the layout
      they must fit and the address space that holds them.  [AddressSpaceMgr]
      models dragonball/src/address_space_manager.rs: the memory of a machine is
      laid out around the MMIO hole, mapped, given to KVM and taken from the
      pools of the resource manager.
    - Virtio-mem.  Memory is plugged into a running guest block by block.
      [VirtioDeviceInfo] models the common part of virtio devices (device.rs of
      dbs_virtio_devices) and the interfaces of guest memory and queues,
      [VirtioMem] models mem.rs: the configuration, the bitmap of plugged blocks,
      the requests of the guest, new sizes from the host, construction,
      resources and activation.  [MemFactory] models the factory that gets it
      memory (MemoryRegionFactory of dragonball/src/device_manager/
      mem_dev_mgr.rs).  [VirtioMemSpec] has the abstract device: a configuration
      and a set of blocks.
    - Files.  [SafePath] models src/libs/safe-path: resolving, joining and
      creating paths below a root directory, on a small model of a file system
      with directories, files and symbolic links; [walk] is the kernel's
      resolution of a path, which fails on missing names, on files on the way and
      on too many links.
    - Devices of a sandbox.  The shim plugs devices into the machine through its
      device manager (src/runtime-rs/crates/hypervisor/src/device).  [PciPath]
      models pci_path.rs and the parser of the agent (agent/src/pci.rs);
      [PcieTopology] the slots of the root bus and the ports (topology.rs);
      [DeviceDrivers] the drivers with their attach counters (driver/*.rs,
      util.rs); [DeviceManager] the manager with its index pools
      (device_manager.rs).  The hypervisors are the class [Hypervisor]; of them
      only [HypervisorFrame] is assumed, and [Recorded] keeps the answers of any
      of them.

    A file with the suffix Facts (or Alloc, Grants, Inv, Ops, Total, Build, Bars,
    Spec, Device) holds the lemmas about a model, [Bits] those on bits;
    [VirtioPciTotal] and [VirtioPciIoevents] end with a property each.  A file
    with the suffix Props has the properties of a component, each with a witness
    that evaluates it at a concrete input; those of the smaller components open
    with the lemmas.  The Demo files have the concrete streams, devices and
    hypervisors of the witnesses; [VirtioPciDemo] has the witnesses of the virtio
    PCI transport as well.  [Effects] is the monad of the stateful code from the
    MMIO transport on, with its rules for partial ([wp]) and total ([twp])
    correctness.

    ** Conventions

    Code that can panic is a function into [outcome]; [Result] is [result]; a
    method that changes its object, may fail and may panic is in the monad
    [eff].  Machine integers are numbers of [Z] with the checked, wrapping and
    saturating operations of this file, so that a theorem that a function
    returns also says that no addition in it overflows.  Shared mutable
    structures of the code are records passed and returned.  What the code asks
    the system (clock readings, random bytes, whether [epoll_ctl] succeeded,
    what a stream answers) is an argument; traits are type classes
    ([VsockStream], [VsockBackend], [VirtioDevice], [InterruptSourceGroup],
    [Hypervisor], [Device], [PciDevice], [PciCapability], [KvmIrqOps]) and what
    the code relies on are laws of the class or named hypotheses.  So are the
    host and the crates below guest memory: [MemFiles] and [VmmHost] (memory
    files, mmap, madvise, KVM; [VmmHostLaws]), [GuestMemoryOps] (vm-memory),
    [MemHost], [GuestMem] and [VirtQueue] ([MemHostLaws], [GuestMemLaws],
    [VirtQueueLaws]).  Iteration order of hash maps and the unstable sorts are
    parameters with the property that they permute, and the latter that they
    sort ([UnstableSortLaws]).  Overflow checks and debug assertions are those
    of a debug build: they panic.

    ** What the theorems show

    - The interval tree keeps its order, its balance and its cached maxima, so
      lookups agree with the list of its ranges; an allocation is free, aligned
      and within the constraint, one is found whenever there is one, freeing it
      restores the state, and adjacent free ranges are merged.
    - The resource manager never hands out a resource twice, grants a request
      list whole or not at all, and gets everything back when a device is freed
      that has no range at the very top of the ports or of memory.  All this is for
      requests without groups of memory slots.  Three theorems record where it
      ends: freeing a group of memory slots, rolling back at the top of the port
      range, and the reserved window.
    - A token bucket hands out at most its burst, its budget and the refill of
      the time elapsed, as long as the refill does not overflow; a refusal costs
      nothing.
    - A vsock connection delivers to the host exactly what the guest sent, in
      order, except that one that is kept alive drops packets that do not fit its
      buffer; it never sends the guest more than its credit, and a closed
      direction stays closed.  The ring buffer refines a queue of bytes.
    - The muxer never strands pending data, its tables stay within their bounds,
      its loops terminate, a packet affects only its own connection, local
      ports are fresh, and connect requests round-trip.  Two theorems record
      requests and resets that it loses.
    - The MMIO transport follows the status machine of the virtio
      specification, no sequence of guest accesses makes it panic unless the
      device has message interrupts without vectors, the configuration of an
      active device cannot be changed, and a failed device does nothing.
    - A configuration space keeps its read-only bits whatever the guest
      writes, if its 64-bit BARs have at least 16 bytes
      ([small_wide_bar_leaks] has one that does not); as built it answers
      the sizing protocol with the sizes of the BARs, and its capability
      list leads to every capability.  Ports and memory window reach the
      same registers, an access changes only the device it names, and the
      accesses to the host bridge that panic are exactly known.
    - The messages that KVM delivers for the vectors of a device are those of its
      MSI-X table, masks included.
    - A driver finds exactly the structures that a virtio PCI device serves and is
      served by them; the accesses that panic are exactly known; the ioevents
      follow the activation of the device until an activation fails half way,
      after which it never becomes active again, as long as the guest does not
      move the BAR ([bar_move_strands_ioevents]).  Accesses that stay away from
      writes of the common configuration never deadlock; those that do not, can.
    - The IO manager finds exactly the device whose range holds an address, and
      a failed registration in a transaction changes nothing.
    - Creating the address space of a machine returns, except for memory
      that ends exactly at the last address, and on success its regions do
      not overlap, avoid the MMIO hole, hold exactly the configured memory
      and have their addresses and KVM slots taken in the resource manager.
      An address is in at most one region, lookups answer for that region,
      and an insertion succeeds exactly when the region fits and overlaps
      nothing.  Theorems record where this ends: memory that reaches the
      last address, two insertions at once, empty regions, and a refused
      region that stays in KVM.
    - Each request to a virtio-mem device is a step of the abstract device,
      or of an unknown type and ignored; the plugged blocks stay in the
      usable part whatever guest and host do, the memory that is requested
      can be plugged, an event is handled to its end, and the outcomes of a
      new size are exactly known.  A failed request to unplug everything is
      the exception to the accounting.
    - A path resolved by safe-path is what the kernel resolves after chroot
      wherever the kernel gets through, and a walk that takes missing names for
      directories elsewhere; it stays below the root, and creation below the root
      succeeds on a file system that does not change.
    - The device manager of the shim gives every drive a guest path of its
      own, its attach counters agree with what the hypervisor has answered,
      and a failed attachment gives the index back.  Root bus slots are
      never shared, and the agent reads the PCI paths the shim prints.
      Theorems record where this ends: network devices that release drive
      indexes, devices with two users, with two functions, and ports that
      are never returned.

    ** Bounds and fuel

    Loops that are not structural have fuel: [gcd_fuel] (logarithmic, from the
    Fibonacci bound of the Euclidean algorithm), [recv_fuel] (the queue and
    three per connection, the measure [load] of [VsockMuxerInv]),
    [sweep_killq] (one level per connection and two, the measure [to_expire] of
    [VsockMuxerOps]), [port_loop] (one more than the ports in use),
    [process_requests] (one more than the chains the queue still has).  Each is
    proved sufficient; running out of fuel is [Panic], so that a theorem that a
    function returns covers it.  The loop of [drive_letters] has the bound 30 of
    the code.

    ** Not modelled

    Threads, KVM, epoll, mmap and other system calls, logging and metrics;
    assembling vsock packets from virtio descriptors in guest memory; the
    virtio devices other than vsock and virtio-mem (block, net, fs, balloon,
    vhost), whose work is to move descriptors to files, sockets and other
    processes, and devices passed through with VFIO; hybrid guest memory
    (dbs_address_space/src/memory/raw_region.rs, hybrid.rs), raw pointers behind
    the traits of vm-memory; the configured virtio-mem devices around the
    memory factory; of the agent all but its PCI addresses; the container
    services, the hypervisor drivers behind the trait [Hypervisor] and the tools.
    Work that threads of the address space manager do, touching pages, has no
    effect in the model but the ranges they are given.  The virtio PCI
    properties on sequences of accesses leave out writes to the header of the
    configuration space, by which a guest moves the BARs; those are in
    [PciConfigProps].  A packet is a value here, while its header stays in guest
    memory in the code. *)
From stdpp Require Export base tactics numbers list option gmap strings.
From Stdlib Require Export ZArith Lia Bool.

#[global] Open Scope Z_scope.

(** ** Outcomes

    Rust code that can panic (an explicit [panic!], an [unwrap] on [None], an
    [unreachable!], an integer overflow in an unchecked operator) is a
    function into [outcome]. *)
Inductive outcome (A : Type) : Type :=
| Ret (a : A)
| Panic.
Arguments Ret {A} a.
Arguments Panic {A}.

#[global] Instance outcome_ret : MRet outcome := fun A a => Ret a.
#[global] Instance outcome_bind : MBind outcome := fun A B f m =>
  match m with
  | Ret a => f a
  | Panic => Panic
  end.
#[global] Instance outcome_fmap : FMap outcome := fun A B f m =>
  match m with
  | Ret a => Ret (f a)
  | Panic => Panic
  end.

(** [Result<T, E>]. *)
Inductive result (E A : Type) : Type :=
| Ok (a : A)
| Err (e : E).
Arguments Ok {E A} a.
Arguments Err {E A} e.

#[global] Instance result_ret E : MRet (result E) := fun A a => Ok a.
#[global] Instance result_bind E : MBind (result E) := fun A B f m =>
  match m with
  | Ok a => f a
  | Err e => Err e
  end.

(** [Option::unwrap] and [Option::expect]. *)
Definition unwrap {A} (o : option A) : outcome A :=
  match o with
  | Some a => Ret a
  | None => Panic
  end.

(** ** Machine integers

    An unsigned integer of width [w] is a [Z] in [0, 2^w).  The unchecked
    operators panic on overflow (the semantics with overflow checks); a
    theorem that shows a function returns therefore also shows that no
    operator in it wraps around. *)
Definition u8_max : Z := 2 ^ 8 - 1.
Definition u16_max : Z := 2 ^ 16 - 1.
Definition u32_max : Z := 2 ^ 32 - 1.
Definition u64_max : Z := 2 ^ 64 - 1.

Definition in_u8 (x : Z) : Prop := 0 <= x <= u8_max.
Definition in_u16 (x : Z) : Prop := 0 <= x <= u16_max.
Definition in_u32 (x : Z) : Prop := 0 <= x <= u32_max.
Definition in_u64 (x : Z) : Prop := 0 <= x <= u64_max.

(** [a + b], [a - b], [a * b] with overflow checks at a type of maximum [mx]. *)
Definition uadd (mx a b : Z) : outcome Z := if a + b <=? mx then Ret (a + b) else Panic.
Definition usub (a b : Z) : outcome Z := if b <=? a then Ret (a - b) else Panic.
Definition umul (mx a b : Z) : outcome Z := if a * b <=? mx then Ret (a * b) else Panic.

(** [a.checked_add(b)], [a.checked_sub(b)]. *)
Definition checked_add (mx a b : Z) : option Z := if a + b <=? mx then Some (a + b) else None.
Definition checked_sub (a b : Z) : option Z := if b <=? a then Some (a - b) else None.
Definition saturating_sub (a b : Z) : Z := if b <=? a then a - b else 0.

(** [a.wrapping_add(b)], [a.wrapping_sub(b)] at a type of maximum [mx]; [as]
    casts to a narrower type. *)
Definition wrapping_add (mx a b : Z) : Z := (a + b) mod (mx + 1).
Definition wrapping_sub (mx a b : Z) : Z := (a - b) mod (mx + 1).
Definition as_u8 (x : Z) : Z := x mod 2 ^ 8.
Definition as_u16 (x : Z) : Z := x mod 2 ^ 16.
Definition as_u32 (x : Z) : Z := x mod 2 ^ 32.

(** [!a] at a type of maximum [mx]. *)
Definition unot (mx a : Z) : Z := Z.lxor a mx.

(** *** Little-endian bytes *)

(** The [n] low bytes of a value, and the value of a byte string. *)
Fixpoint le_write (n : nat) (v : Z) : list Z :=
  match n with O => [] | S n' => v mod 256 :: le_write n' (v / 256) end.
Fixpoint le_read (data : list Z) : Z :=
  match data with [] => 0 | b :: data' => b + 256 * le_read data' end.

(** ** Tactics *)

(** Case analysis on the boolean comparisons of the goal, with the
    comparisons turned into their propositions. *)
Ltac zcase :=
  match goal with
  | |- context [?a <? ?b] => destruct (Z.ltb_spec a b)
  | |- context [?a <=? ?b] => destruct (Z.leb_spec a b)
  | |- context [?a =? ?b] => destruct (Z.eqb_spec a b)
  end.

(** The same on a comparison that a hypothesis branches on. *)
Ltac zcase_in H :=
  match type of H with
  | context [?a <? ?b] => destruct (Z.ltb_spec a b)
  | context [?a <=? ?b] => destruct (Z.leb_spec a b)
  | context [?a =? ?b] => destruct (Z.eqb_spec a b)
  end.

(** Every boolean comparison that is a hypothesis becomes a proposition. *)
Ltac zbool :=
  repeat match goal with
  | H : (_ <? _) = true |- _ => apply Z.ltb_lt in H
  | H : (_ <? _) = false |- _ => apply Z.ltb_ge in H
  | H : (_ <=? _) = true |- _ => apply Z.leb_le in H
  | H : (_ <=? _) = false |- _ => apply Z.leb_gt in H
  | H : (_ =? _) = true |- _ => apply Z.eqb_eq in H
  | H : (_ =? _) = false |- _ => apply Z.eqb_neq in H
  | H : _ && _ = true |- _ => apply andb_true_iff in H as [? ?]
  | H : _ || _ = false |- _ => apply orb_false_iff in H as [? ?]
  end.

(** Unfold the integer bounds and close an arithmetic goal. *)
Ltac ulia :=
  unfold in_u8, in_u16, in_u32, in_u64, u8_max, u16_max, u32_max, u64_max in *; lia.

(** Inversion of [x ← c; k = Ret b] hypotheses. *)
Lemma outcome_bind_Ret {A B} (c : outcome A) (k : A -> outcome B) b :
  (c ≫= k) = Ret b <-> exists a, c = Ret a /\ k a = Ret b.
Proof. destruct c; simpl; split; intros H; naive_solver. Qed.

Ltac inv_ret :=
  repeat match goal with
  | H : (_ ≫= _) = Ret _ |- _ =>
      apply outcome_bind_Ret in H as (? & ? & H)
  | H : Ret _ = Ret _ |- _ => injection H; clear H; intros; subst
  | H : mret _ = Ret _ |- _ => unfold mret, outcome_ret in H
  | H : Panic = Ret _ |- _ => discriminate H
  end.

(** ** Shared lemmas *)

Lemma uadd_Ret mx a b : a + b <= mx -> uadd mx a b = Ret (a + b).
Proof. unfold uadd. intros. by zcase; [|lia]. Qed.

Lemma umul_Ret mx a b : a * b <= mx -> umul mx a b = Ret (a * b).
Proof. unfold umul. intros. by zcase; [|lia]. Qed.

Lemma usub_Ret a b : b <= a -> usub a b = Ret (a - b).
Proof. unfold usub. intros. by zcase; [|lia]. Qed.

(** *** Powers of two and alignment *)

Lemma land_pred_pow2 a : 0 < a -> Z.land a (a - 1) = 0 -> a = 2 ^ Z.log2 a.
Proof.
  intros Ha Hl. pose proof (Z.log2_spec a Ha) as [Hlo Hhi].
  pose proof (Z.log2_nonneg a). destruct (Z.eq_dec a (2 ^ Z.log2 a)) as [|Hne]; [done|].
  assert (Z.log2 (a - 1) = Z.log2 a) as E by (apply Z.log2_unique; lia).
  assert (Z.testbit (Z.land a (a - 1)) (Z.log2 a) = true) as Hb; [|by rewrite Hl, Z.bits_0 in Hb].
  assert (0 < 2 ^ Z.log2 a) by (apply Z.pow_pos_nonneg; lia).
  rewrite Z.land_spec, Z.bit_log2 by lia. rewrite <- E at 1. by rewrite Z.bit_log2 by lia.
Qed.

Lemma pow2_land_pred k : 0 <= k -> Z.land (2 ^ k) (2 ^ k - 1) = 0.
Proof.
  intros Hk. rewrite Z.sub_1_r, <- Z.ones_equiv, Z.land_ones by done. apply Z.mod_same. lia.
Qed.

(** Bits at and above the width of a bounded number are clear. *)
Lemma testbit_high x w i : 0 <= x < 2 ^ w -> w <= i -> Z.testbit x i = false.
Proof.
  intros Hx Hi. destruct (Z.eq_dec x 0) as [->|]; [apply Z.bits_0|].
  apply Z.bits_above_log2; [lia|]. apply Z.lt_le_trans with w; [|done].
  apply Z.log2_lt_pow2; lia.
Qed.

(** Clearing the low [k] bits of a 64-bit value rounds it down to a multiple of [2^k]. *)
Lemma land_unot_align k v :
  0 <= k -> in_u64 v -> Z.land v (unot u64_max (2 ^ k - 1)) = 2 ^ k * (v / 2 ^ k).
Proof.
  intros Hk Hv. unfold unot, u64_max. rewrite !Z.sub_1_r, <- !Z.ones_equiv.
  rewrite Z.mul_comm, <- Z.shiftr_div_pow2, <- Z.shiftl_mul_pow2 by done.
  apply Z.bits_inj'. intros i Hi. rewrite Z.land_spec, Z.lxor_spec, Z.shiftl_spec by done.
  rewrite !Z.testbit_ones_nonneg by lia. destruct (Z.ltb_spec i k).
  - rewrite (Z.testbit_neg_r _ (i - k)) by lia. destruct (Z.ltb_spec i 64); cbn; [by rewrite andb_false_r|].
    rewrite (testbit_high v 64) by ulia. done.
  - rewrite Z.shiftr_spec by lia. replace (i - k + k) with i by lia.
    destruct (Z.ltb_spec i 64); cbn; [by rewrite andb_true_r|].
    rewrite (testbit_high v 64) by ulia. done.
Qed.

Create HintDb kata discriminated.
Create Rewrite HintDb kata_rw.
#[export] Hint Rewrite uadd_Ret usub_Ret using ulia : kata_rw.
