(* ===== verification/IntervalTree.v ===== *)
(** * The interval tree of [dbs_allocator]

    Model of src/dragonball/dbs_allocator/src/lib.rs ([Constraint]) and
    interval_tree.rs ([Range], [NodeState], [Node], [IntervalTree]): an AVL
    tree of pairwise disjoint closed ranges, each free, allocated or allocated
    with a value, with the cached height and maximum key the code stores.
    [Option<Node<T>>] is [tree T] ([None] is [Leaf]); a function the code
    defines on [Node] and calls on every [Some] child is one recursion on
    [tree].  References to nodes ([Option<&Node>]) are the node itself. *)
From S2P Require Import Prelude.

(** ** lib.rs: allocation constraints *)

Inductive AllocError := InvalidBoundary (mn mx : Z).

Inductive AllocPolicy := PolicyDefault | FirstMatch.

Record Constraint := mkConstraint {
  c_size : Z;
  c_min : Z;
  c_max : Z;
  c_align : Z;
  c_policy : AllocPolicy;
}.

Definition Constraint_new (size : Z) : Constraint :=
  {| c_size := size; c_min := 0; c_max := u64_max; c_align := 1; c_policy := PolicyDefault |}.

Definition with_min (c : Constraint) (mn : Z) : Constraint :=
  mkConstraint (c_size c) mn (c_max c) (c_align c) (c_policy c).

Definition with_max (c : Constraint) (mx : Z) : Constraint :=
  mkConstraint (c_size c) (c_min c) mx (c_align c) (c_policy c).

Definition with_align (c : Constraint) (a : Z) : Constraint :=
  mkConstraint (c_size c) (c_min c) (c_max c) a (c_policy c).

Definition with_policy (c : Constraint) (p : AllocPolicy) : Constraint :=
  mkConstraint (c_size c) (c_min c) (c_max c) (c_align c) p.

Definition validate (c : Constraint) : result AllocError unit :=
  if c_max c <? c_min c then Err (InvalidBoundary (c_min c) (c_max c)) else Ok tt.

(** ** Ranges *)

Record Range := mkRange { r_min : Z; r_max : Z }.

#[global] Instance Range_eq_dec : EqDecision Range.
Proof. solve_decision. Defined.

Definition Range_new (mn mx : Z) : outcome Range :=
  if (mx <? mn) || ((mn =? 0) && (mx =? u64_max)) then Panic
  else Ret (mkRange mn mx).

Definition Range_with_size (base size : Z) : outcome Range :=
  umax ← unwrap (checked_add u64_max size base);
  if (umax <? base) || ((base =? 0) && (umax =? u64_max)) then Panic
  else Ret (mkRange base umax).

Definition Range_new_point (v : Z) : Range := mkRange v v.

Definition Range_len (r : Range) : outcome Z :=
  d ← usub (r_max r) (r_min r); uadd u64_max d 1.

Definition Range_intersect (a b : Range) : bool :=
  Z.max (r_min a) (r_min b) <=? Z.min (r_max a) (r_max b).

Definition Range_contain (a b : Range) : bool :=
  (r_min a <=? r_min b) && (r_max b <=? r_max a).

Definition Range_align_to (r : Range) (align : Z) : outcome (option Range) :=
  if (align =? 0) || (align =? 1) then Ret (Some r)
  else if negb (Z.land align (align - 1) =? 0) then Ret None
  else match checked_add u64_max (r_min r) (align - 1) with
       | Some v =>
           let mn := Z.land v (unot u64_max (align - 1)) in
           if mn <=? r_max r then Some <$> Range_new mn (r_max r) else Ret None
       | None => Ret None
       end.

(** [impl Ord for Range]. *)
Definition Range_cmp (a b : Range) : comparison :=
  match r_min a ?= r_min b with
  | Eq => r_max a ?= r_max b
  | res => res
  end.

(** ** Nodes *)

Inductive NodeState (T : Type) : Type :=
| Free
| Allocated
| Valued (x : T).
Arguments Free {T}.
Arguments Allocated {T}.
Arguments Valued {T} x.

Definition is_free {T} (s : NodeState T) : bool :=
  match s with Free => true | _ => false end.

(** [From<NodeState<T>> for Option<T>]. *)
Definition state_value {T} (s : NodeState T) : option T :=
  match s with
  | Free | Allocated => None
  | Valued x => Some x
  end.

Inductive tree (T : Type) : Type :=
| Leaf
| Node (key : Range) (data : NodeState T) (left right : tree T) (height max_key : Z).
Arguments Leaf {T}.
Arguments Node {T} key data left right height max_key.

Definition InnerNode_new {T} (key : Range) (data : NodeState T) : tree T :=
  Node key data Leaf Leaf 1 (r_max key).

Definition Node_new {T} (key : Range) (data : option T) : tree T :=
  InnerNode_new key (match data with Some t => Valued t | None => Free end).

Definition height {T} (n : tree T) : Z :=
  match n with Leaf => 0 | Node _ _ _ _ h _ => h end.

Definition max_key {T} (n : tree T) : Z :=
  match n with Leaf => 0 | Node _ _ _ _ _ m => m end.

Fixpoint search {T} (n : tree T) (key : Range) : option (tree T) :=
  match n with
  | Leaf => None
  | Node k _ l r _ _ =>
      match Range_cmp k key with
      | Eq => Some n
      | Lt => search r key
      | Gt => search l key
      end
  end.

Fixpoint search_superset {T} (n : tree T) (key : Range) : option (tree T) :=
  match n with
  | Leaf => None
  | Node k _ l r _ _ =>
      if Range_contain k key then Some n
      else if r_max key <? r_min k then search_superset l key
      else if r_max k <? r_min key then search_superset r key
      else None
  end.

(** [search_superset_mut] and a write [f] of the value through the reference
    it returns. *)
Fixpoint search_superset_mut {T} (n : tree T) (key : Range) (f : T -> T) : tree T :=
  match n with
  | Leaf => Leaf
  | Node k d l r h m =>
      if Range_contain k key then
        Node k (match d with Valued x => Valued (f x) | _ => d end) l r h m
      else if r_max key <? r_min k then Node k d (search_superset_mut l key f) r h m
      else if r_max k <? r_min key then Node k d l (search_superset_mut r key f) h m
      else n
  end.

(** ** Rebalancing *)

Definition update_cached_info {T} (n : tree T) : tree T :=
  match n with
  | Leaf => Leaf
  | Node k d l r _ _ =>
      Node k d l r (Z.max (height l) (height r) + 1)
        (Z.max (max_key l) (Z.max (max_key r) (r_max k)))
  end.

Definition rotate_left {T} (n : tree T) : outcome (tree T) :=
  match n with
  | Node k d l (Node k' d' l' r' h' m') h m =>
      let self := update_cached_info (Node k d l l' h m) in
      Ret (update_cached_info (Node k' d' self r' h' m'))
  | _ => Panic
  end.

Definition rotate_right {T} (n : tree T) : outcome (tree T) :=
  match n with
  | Node k d (Node k' d' l' r' h' m') r h m =>
      let self := update_cached_info (Node k d r' r h m) in
      Ret (update_cached_info (Node k' d' l' self h' m'))
  | _ => Panic
  end.

Definition rotate_left_successor {T} (n : tree T) : outcome (tree T) :=
  match n with
  | Node k d (Node _ _ ll lr _ _ as left) r h m =>
      if height ll <? height lr then
        rotated ← rotate_left left;
        rotate_right (update_cached_info (Node k d rotated r h m))
      else rotate_right (Node k d left r h m)
  | _ => Panic
  end.

Definition rotate_right_successor {T} (n : tree T) : outcome (tree T) :=
  match n with
  | Node k d l (Node _ _ rl rr _ _ as right) h m =>
      if height rr <? height rl then
        rotated ← rotate_right right;
        rotate_left (update_cached_info (Node k d l rotated h m))
      else rotate_left (Node k d l right h m)
  | _ => Panic
  end.

Definition rotate {T} (n : tree T) : outcome (tree T) :=
  match n with
  | Leaf => Panic
  | Node _ _ l r _ _ =>
      let diff := height l - height r in
      if (-1 <=? diff) && (diff <=? 1) then Ret n
      else if diff =? 2 then rotate_left_successor n
      else if diff =? -2 then rotate_right_successor n
      else Panic
  end.

Definition updated_node {T} (n : tree T) : outcome (tree T) := rotate (update_cached_info n).

(** ** Tree operations *)

Fixpoint node_insert {T} (n : tree T) (key : Range) (data : option T) : outcome (tree T) :=
  match n with
  | Leaf => Ret (Node_new key data)
  | Node k d l r h m =>
      match Range_cmp k key with
      | Eq => Panic
      | Lt =>
          if Range_intersect k key then Panic
          else r' ← node_insert r key data; updated_node (Node k d l r' h m)
      | Gt =>
          if Range_intersect k key then Panic
          else l' ← node_insert l key data; updated_node (Node k d l' r h m)
      end
  end.

(** [Node::update]: the old value and the updated subtree. *)
Fixpoint node_update {T} (n : tree T) (key : Range) (data : NodeState T)
    : outcome (option T * tree T) :=
  match n with
  | Leaf => Ret (None, Leaf)
  | Node k d l r h m =>
      match Range_cmp k key with
      | Eq =>
          match d, data with
          | Free, Free | Free, Valued _
          | Allocated, Free | Allocated, Allocated
          | Valued _, Free | Valued _, Allocated => Panic
          | _, _ => Ret (state_value d, Node k data l r h m)
          end
      | Lt => '(o, r') ← node_update r key data; Ret (o, Node k d l r' h m)
      | Gt => '(o, l') ← node_update l key data; Ret (o, Node k d l' r h m)
      end
  end.

(** The minimal node (its children taken out) and the remaining subtree. *)
Fixpoint get_new_root {T} (n : tree T) : outcome (tree T * tree T) :=
  match n with
  | Leaf => Panic
  | Node k d Leaf r h m => Ret (Node k d Leaf Leaf h m, r)
  | Node k d l r h m =>
      '(min_node, l') ← get_new_root l;
      n' ← updated_node (Node k d l' r h m);
      Ret (min_node, n')
  end.

Definition combine_subtrees {T} (l r : tree T) : outcome (tree T) :=
  '(new_root, remaining) ← get_new_root r;
  match new_root with
  | Node k d _ _ h m => updated_node (Node k d l remaining h m)
  | Leaf => Panic
  end.

Definition delete_root {T} (l r : tree T) : outcome (tree T) :=
  match l, r with
  | Leaf, Leaf => Ret Leaf
  | _, Leaf => Ret l
  | Leaf, _ => Ret r
  | _, _ => combine_subtrees l r
  end.

Fixpoint node_delete {T} (n : tree T) (key : Range) : outcome (option T * tree T) :=
  match n with
  | Leaf => Ret (None, Leaf)
  | Node k d l r h m =>
      match Range_cmp k key with
      | Eq => root ← delete_root l r; Ret (state_value d, root)
      | Lt =>
          match r with
          | Leaf => Ret (None, n)
          | _ =>
              '(data, r') ← node_delete r key;
              n' ← updated_node (Node k d l r' h m);
              Ret (data, n')
          end
      | Gt =>
          match l with
          | Leaf => Ret (None, n)
          | _ =>
              '(data, l') ← node_delete l key;
              n' ← updated_node (Node k d l' r h m);
              Ret (data, n')
          end
      end
  end.

(** ** Allocation *)

Definition check_constraint {T} (key : Range) (data : NodeState T) (c : Constraint)
    : outcome bool :=
  if is_free data then
    let mn := Z.max (r_min key) (c_min c) in
    let mx := Z.min (r_max key) (c_max c) in
    if mn <=? mx then
      k ← Range_new mn mx;
      if (c_align c =? 0) || (c_align c =? 1) then
        n ← Range_len k; Ret (c_size c <=? n)
      else
        a ← Range_align_to k (c_align c);
        match a with
        | None => Ret false
        | Some aligned_key => n ← Range_len aligned_key; Ret (c_size c <=? n)
        end
    else Ret false
  else Ret false.

Fixpoint first_match {T} (n : tree T) (c : Constraint) : outcome (option (tree T)) :=
  match n with
  | Leaf => Ret None
  | Node k d l r _ _ =>
      candidate ← first_match l c;
      match candidate with
      | Some _ => Ret candidate
      | None =>
          ok ← check_constraint k d c;
          if ok : bool then Ret (Some n) else first_match r c
      end
  end.

Definition find_candidate {T} (n : tree T) (c : Constraint) : outcome (option (tree T)) :=
  match c_policy c with
  | FirstMatch => first_match n c
  | PolicyDefault => first_match n c
  end.

(** ** [IntervalTree]: the public operations *)

Record IntervalTree (T : Type) := mkIntervalTree { root : tree T }.
Arguments mkIntervalTree {T} root.
Arguments root {T} i.

Definition it_new {T} : IntervalTree T := mkIntervalTree Leaf.

Definition it_is_empty {T} (t : IntervalTree T) : bool :=
  match root t with Leaf => true | _ => false end.

Definition node_key_data {T} (n : tree T) : option (Range * NodeState T) :=
  match n with Leaf => None | Node k d _ _ _ _ => Some (k, d) end.

Definition it_get {T} (t : IntervalTree T) (key : Range) : option (NodeState T) :=
  n ← search (root t) key; kd ← node_key_data n; Some kd.2.

Definition it_get_superset {T} (t : IntervalTree T) (key : Range)
    : option (Range * NodeState T) :=
  n ← search_superset (root t) key; node_key_data n.

Definition it_get_by_id {T} (t : IntervalTree T) (id : Z) : option T :=
  n ← search_superset (root t) (Range_new_point id);
  kd ← node_key_data n; state_value kd.2.

(** [get_superset_mut] and [get_by_id_mut]: what the reference reads, and the
    tree after the caller writes [f] through it. *)
Definition it_get_superset_mut {T} (t : IntervalTree T) (key : Range) (f : T -> T)
    : option (Range * NodeState T) * IntervalTree T :=
  (it_get_superset t key, mkIntervalTree (search_superset_mut (root t) key f)).

Definition it_get_by_id_mut {T} (t : IntervalTree T) (id : Z) (f : T -> T)
    : option T * IntervalTree T :=
  (it_get_by_id t id, mkIntervalTree (search_superset_mut (root t) (Range_new_point id) f)).

Definition it_insert {T} (t : IntervalTree T) (key : Range) (data : option T)
    : outcome (IntervalTree T) :=
  n ← node_insert (root t) key data; Ret (mkIntervalTree n).

Definition it_update {T} (t : IntervalTree T) (key : Range) (data : T)
    : outcome (option T * IntervalTree T) :=
  '(o, n) ← node_update (root t) key (Valued data); Ret (o, mkIntervalTree n).

Definition it_delete {T} (t : IntervalTree T) (key : Range)
    : outcome (option T * IntervalTree T) :=
  '(o, n) ← node_delete (root t) key; Ret (o, mkIntervalTree n).

(** Mark an allocated node: [self.root.as_mut().unwrap().update(key, Allocated)]. *)
Definition it_mark_allocated {T} (t : IntervalTree T) (key : Range) : outcome (IntervalTree T) :=
  match root t with
  | Leaf => Panic
  | n => '(_, n') ← node_update n key Allocated; Ret (mkIntervalTree n')
  end.

Definition it_allocate {T} (t : IntervalTree T) (c : Constraint)
    : outcome (option Range * IntervalTree T) :=
  if c_size c =? 0 then Ret (None, t) else
  candidate ← find_candidate (root t) c;
  match candidate with
  | None | Some Leaf => Ret (None, t)
  | Some (Node node_key _ _ _ _ _) =>
      range ← Range_new (Z.max (r_min node_key) (c_min c)) (Z.min (r_max node_key) (c_max c));
      ao ← Range_align_to range (c_align c);
      aligned_key ← unwrap ao;
      e ← uadd u64_max (r_min aligned_key) (c_size c);
      e ← usub e 1;
      result ← Range_new (r_min aligned_key) e;
      len ← Range_len node_key;
      if (r_min node_key =? r_min aligned_key) && (len =? c_size c) then
        t ← it_mark_allocated t node_key; Ret (Some node_key, t)
      else
        '(_, t) ← it_delete t node_key;
        t ← (if r_min node_key <? r_min aligned_key then
               b ← usub (r_min aligned_key) 1;
               k ← Range_new (r_min node_key) b;
               it_insert t k None
             else Ret t);
        t ← it_insert t result None;
        t ← (if r_max result <? r_max node_key then
               b ← uadd u64_max (r_max result) 1;
               k ← Range_new b (r_max node_key);
               it_insert t k None
             else Ret t);
        t ← it_mark_allocated t result;
        Ret (Some result, t)
  end.

(** The start of the free node that covers [x], when there is one. *)
Definition free_at {T} (t : IntervalTree T) (x : Z) : outcome (option Range) :=
  k ← Range_new x x;
  match it_get_superset t k with
  | Some (r, v) => Ret (if is_free v then Some r else None)
  | None => Ret None
  end.

Definition it_free {T} (t : IntervalTree T) (key : Range)
    : outcome (option T * IntervalTree T) :=
  '(res, t) ← it_delete t key;
  mn ← (if 0 <? r_min key then
          o ← free_at t (r_min key - 1);
          Ret (match o with Some r => r_min r | None => r_min key end)
        else Ret (r_min key));
  mx ← (if r_max key <? u64_max then
          o ← free_at t (r_max key + 1);
          Ret (match o with Some r => r_max r | None => r_max key end)
        else Ret (r_max key));
  t ← (if mn <? r_min key then
         b ← usub (r_min key) 1; k ← Range_new mn b;
         '(_, t) ← it_delete t k; Ret t
       else Ret t);
  t ← (if r_max key <? mx then
         b ← uadd u64_max (r_max key) 1; k ← Range_new b mx;
         '(_, t) ← it_delete t k; Ret t
       else Ret t);
  t ← it_insert t (mkRange mn mx) None;
  Ret (res, t).
