(* ===== verification/IntervalTreeFacts.v ===== *)
(** * Correctness of the interval tree *)
From stdpp Require Import sorting.
From S2P Require Import Prelude IntervalTree.

Section spec.
Context {T : Type}.
Implicit Types (n l r : tree T) (t : IntervalTree T) (es : list (Range * NodeState T)).

(** The abstract view of a tree: its (range, state) entries in order. *)
Fixpoint elements n : list (Range * NodeState T) :=
  match n with
  | Leaf => []
  | Node k d l r _ _ => elements l ++ (k, d) :: elements r
  end.

Definition range_ok (r : Range) : Prop :=
  0 <= r_min r <= r_max r /\ r_max r <= u64_max /\ ~ (r_min r = 0 /\ r_max r = u64_max).

Definition before (a b : Range * NodeState T) : Prop := r_max a.1 < r_min b.1.

Definition sorted es : Prop := Forall (fun e => range_ok e.1) es /\ StronglySorted before es.

(** The AVL shape with correct cached heights and maximum keys. *)
Fixpoint avl n : Prop :=
  match n with
  | Leaf => True
  | Node k _ l r h m =>
      avl l /\ avl r /\
      h = Z.max (height l) (height r) + 1 /\
      -1 <= height l - height r <= 1 /\
      m = Z.max (max_key l) (Z.max (max_key r) (r_max k))
  end.

Definition elems (t : IntervalTree T) : list (Range * NodeState T) := elements (root t).

Definition wf (t : IntervalTree T) : Prop := avl (root t) /\ sorted (elems t).

Definition disjoint_from (key : Range) es : Prop :=
  Forall (fun e => r_max key < r_min e.1 \/ r_max e.1 < r_min key) es.

(** The state of one point of the resource space. *)
Fixpoint state_at es (x : Z) : option (NodeState T) :=
  match es with
  | [] => None
  | (k, d) :: es' =>
      if (r_min k <=? x) && (x <=? r_max k) then Some d else state_at es' x
  end.

(** The transitions [Node::update] accepts. *)
Definition update_allowed (d data : NodeState T) : bool :=
  match d, data with
  | Free, Allocated | Allocated, Valued _ | Valued _, Valued _ => true
  | _, _ => false
  end.

(** No two entries of the list disagree on a point. *)
Definition functional_at es : Prop :=
  forall x k1 d1 k2 d2, (k1, d1) ∈ es -> (k2, d2) ∈ es ->
    r_min k1 <= x <= r_max k1 -> r_min k2 <= x <= r_max k2 -> d1 = d2.

(** ** Rebalancing *)

Lemma height_nonneg n : avl n -> 0 <= height n.
Proof. induction n; simpl; intros; [lia|]. destruct_and!. subst. opose proof (IHn1 _); [done|lia]. Qed.

Ltac avl_done :=
  eexists; split; [done|]; cbn; split_and!; auto; try lia;
  rewrite <- ?app_assoc; cbn; by rewrite <- ?app_assoc.

Lemma updated_node_spec k d l r h m :
  avl l -> avl r -> -2 <= height l - height r <= 2 ->
  exists n', updated_node (Node k d l r h m) = Ret n' /\ avl n' /\
    elements n' = elements l ++ (k, d) :: elements r /\
    Z.max (height l) (height r) <= height n' <= Z.max (height l) (height r) + 1 /\
    (-1 <= height l - height r <= 1 -> height n' = Z.max (height l) (height r) + 1).
Proof.
  intros Hl Hr Hd. pose proof (height_nonneg _ Hl). pose proof (height_nonneg _ Hr).
  unfold updated_node, rotate; cbn [update_cached_info].
  destruct (Z.leb_spec (-1) (height l - height r)), (Z.leb_spec (height l - height r) 1);
    cbn [andb]; [avl_done|..|lia].
  - rewrite (proj2 (Z.eqb_eq (height l - height r) 2)) by lia.
    destruct l as [|k1 d1 l1 r1 h1 m1]; cbn in *; [lia|].
    destruct_and!; subst. destruct (Z.ltb_spec (height l1) (height r1)); [|avl_done].
    destruct r1 as [|k2 d2 l2 r2 h2 m2]; cbn in *; [pose proof (height_nonneg l1); intuition lia|].
    destruct_and!; subst. avl_done.
  - rewrite (proj2 (Z.eqb_neq (height l - height r) 2)) by lia.
    rewrite (proj2 (Z.eqb_eq (height l - height r) (-2))) by lia.
    destruct r as [|k1 d1 l1 r1 h1 m1]; cbn in *; [lia|].
    destruct_and!; subst. destruct (Z.ltb_spec (height r1) (height l1)); [|avl_done].
    destruct l1 as [|k2 d2 l2 r2 h2 m2]; cbn in *; [pose proof (height_nonneg r1); intuition lia|].
    destruct_and!; subst. avl_done.
Qed.

(** ** Ordered lists of ranges *)

Lemma sorted_nil : sorted [].
Proof. split; constructor. Qed.

Lemma sorted_middle es1 e es2 :
  sorted (es1 ++ e :: es2) <->
  sorted es1 /\ sorted es2 /\ range_ok e.1 /\
  Forall (fun x => before x e) es1 /\ Forall (before e) es2.
Proof.
  unfold sorted. rewrite StronglySorted_app, StronglySorted_cons, Forall_app, Forall_cons.
  rewrite !Forall_forall. split.
  - intros ((?&?&?)&Hx&?&?&?). split_and!; auto. intros x Hin. apply Hx; [done|left].
  - intros ((?&?)&(?&?)&Hok&Hb&Ha). split_and!; auto.
    intros x1 x2 Hi1 [->|Hi2]%elem_of_cons; [auto|].
    specialize (Hb _ Hi1). specialize (Ha _ Hi2). unfold before, range_ok in *. lia.
Qed.

Lemma sorted_app_inv es1 es2 : sorted (es1 ++ es2) -> sorted es1 /\ sorted es2.
Proof.
  unfold sorted. rewrite StronglySorted_app, Forall_app. naive_solver.
Qed.

Lemma sorted_join es1 es2 :
  sorted es1 -> sorted es2 ->
  (forall a b, a ∈ es1 -> b ∈ es2 -> before a b) -> sorted (es1 ++ es2).
Proof. unfold sorted. rewrite StronglySorted_app, Forall_app. naive_solver. Qed.

Lemma sorted_drop_middle es1 e es2 : sorted (es1 ++ e :: es2) -> sorted (es1 ++ es2).
Proof.
  intros (H1&H2&Hok&Hb&Ha)%sorted_middle. apply sorted_join; auto.
  intros a b Hin1 Hin2. rewrite Forall_forall in Hb, Ha.
  specialize (Hb _ Hin1). specialize (Ha _ Hin2). unfold before, range_ok in *. lia.
Qed.

Lemma sorted_elem_ok es e : sorted es -> e ∈ es -> range_ok e.1.
Proof. intros [H _]. rewrite Forall_forall in H. auto. Qed.

Lemma disjoint_from_app key es1 e es2 :
  disjoint_from key (es1 ++ e :: es2) <->
  disjoint_from key es1 /\ disjoint_from key es2 /\
  (r_max key < r_min e.1 \/ r_max e.1 < r_min key).
Proof. unfold disjoint_from. rewrite Forall_app, Forall_cons. naive_solver. Qed.

(** Where the keys of two subtrees stand relative to the root key. *)
Lemma cmp_eq a b : Range_cmp a b = Eq -> a = b.
Proof.
  destruct a as [a1 a2], b as [b1 b2]. unfold Range_cmp; cbn.
  destruct (Z.compare_spec a1 b1); [|done..]. destruct (Z.compare_spec a2 b2); [|done..]. by subst.
Qed.

Lemma cmp_refl a : Range_cmp a a = Eq.
Proof. unfold Range_cmp. by rewrite !Z.compare_refl. Qed.

Lemma cmp_lt a b : Range_cmp a b = Lt -> r_min a <= r_min b.
Proof.
  unfold Range_cmp. destruct (Z.compare_spec (r_min a) (r_min b)); try done; lia.
Qed.

Lemma cmp_gt a b : Range_cmp a b = Gt -> r_min b <= r_min a.
Proof.
  unfold Range_cmp. destruct (Z.compare_spec (r_min a) (r_min b)); try done; lia.
Qed.

Lemma cmp_before a b : r_min a < r_min b -> Range_cmp a b = Lt.
Proof. unfold Range_cmp. intros ?%Z.compare_lt_iff. by case_match. Qed.

Lemma cmp_after a b : r_min b < r_min a -> Range_cmp a b = Gt.
Proof. unfold Range_cmp. intros ?%Z.compare_gt_iff. by case_match. Qed.

Lemma intersect_false a b :
  range_ok a -> range_ok b ->
  Range_intersect a b = false <-> r_max a < r_min b \/ r_max b < r_min a.
Proof. unfold Range_intersect, range_ok. rewrite Z.leb_gt. lia. Qed.

(** ** Insertion *)

#[local] Arguments updated_node : simpl never.

Lemma node_insert_spec n key data :
  avl n -> sorted (elements n) -> range_ok key -> disjoint_from key (elements n) ->
  exists n' es1 es2, node_insert n key data = Ret n' /\ avl n' /\
    height n <= height n' <= height n + 1 /\
    elements n = es1 ++ es2 /\
    elements n' = es1 ++ (key, match data with Some x => Valued x | None => Free end) :: es2 /\
    sorted (elements n').
Proof.
  induction n as [|k d l IHl r IHr h m]; cbn; intros Havl Hs Hok Hd.
  { eexists _, [], []; split_and!; [done|..]; cbn; try done; try lia.
    { unfold range_ok in *. lia. }
    apply (sorted_middle [] _ []); split_and!; auto using sorted_nil. }
  destruct Havl as (Hl&Hr&->&Hb&->).
  pose proof Hs as (Hsl&Hsr&Hk&Hbl&Har)%sorted_middle.
  apply disjoint_from_app in Hd as (Hdl&Hdr&Hdk). cbn in *.
  destruct (Range_cmp k key) eqn:E.
  - apply cmp_eq in E as ->. unfold range_ok in *. lia.
  - apply cmp_lt in E. rewrite (proj2 (intersect_false _ _ Hk Hok)) by lia.
    destruct (IHr Hr Hsr Hok Hdr) as (r'&es1&es2&Er&Hr'&Hh&Ees&Ees'&Hs').
    cbn in Er; rewrite Er; cbn.
    destruct (updated_node_spec k d l r' (Z.max (height l) (height r) + 1)
      (Z.max (max_key l) (Z.max (max_key r) (r_max k)))) as (t'&->&?&He&?&?); [done..|lia|].
    exists t', (elements l ++ (k, d) :: es1), es2.
    rewrite He, Ees, Ees', <- !app_assoc. split_and!; auto; try lia.
    rewrite Ees' in *. rewrite Ees in Har.
    apply sorted_middle; split_and!; auto. rewrite Forall_app, Forall_cons in *.
    unfold before, range_ok in *; cbn in *. intuition lia.
  - apply cmp_gt in E. rewrite (proj2 (intersect_false _ _ Hk Hok)) by (unfold range_ok in *; lia).
    destruct (IHl Hl Hsl Hok Hdl) as (l'&es1&es2&El&Hl'&Hh&Ees&Ees'&Hs').
    cbn in El; rewrite El; cbn.
    destruct (updated_node_spec k d l' r (Z.max (height l) (height r) + 1)
      (Z.max (max_key l) (Z.max (max_key r) (r_max k)))) as (t'&->&?&He&?&?); [done..|lia|].
    exists t', es1, (es2 ++ (k, d) :: elements r).
    rewrite He, Ees, Ees', <- !app_assoc. split_and!; auto; try lia.
    rewrite Ees' in *. rewrite Ees in Hbl. rewrite app_assoc.
    apply sorted_middle; split_and!; auto. rewrite Forall_app, Forall_cons in *.
    unfold before, range_ok in *; cbn in *. intuition lia.
Qed.

Lemma node_insert_panic n key data :
  sorted (elements n) -> range_ok key -> ~ disjoint_from key (elements n) ->
  node_insert n key data = Panic.
Proof.
  induction n as [|k d l IHl r IHr h m]; cbn; intros Hs Hok Hd.
  { destruct Hd. constructor. }
  apply sorted_middle in Hs as (Hsl&Hsr&Hk&Hbl&Har). rewrite disjoint_from_app in Hd. cbn in *.
  destruct (Range_cmp k key) eqn:E; [done|..];
    (destruct (Range_intersect k key) eqn:Ei; [done|]);
    apply intersect_false in Ei; auto.
  - apply cmp_lt in E. rewrite IHr; auto. intros Hr. apply Hd. split_and!; [|done|lia].
    eapply Forall_impl; [exact Hbl|]. unfold before, range_ok in *; cbn in *. lia.
  - apply cmp_gt in E. rewrite IHl; auto. intros Hl. apply Hd. split_and!; [done| |lia].
    eapply Forall_impl; [exact Har|]. unfold before, range_ok in *; cbn in *. lia.
Qed.

(** ** Lookup *)

Lemma search_spec n key :
  sorted (elements n) ->
  match search n key with
  | Some n' => exists d l r h m, n' = Node key d l r h m /\ (key, d) ∈ elements n
  | None => forall d, (key, d) ∉ elements n
  end.
Proof.
  induction n as [|k d l IHl r IHr h m]; cbn; intros Hs; [set_solver|].
  apply sorted_middle in Hs as (Hsl&Hsr&Hk&Hbl&Har). rewrite Forall_forall in Hbl, Har.
  unfold before, range_ok in *; cbn in *.
  destruct (Range_cmp k key) eqn:E.
  - apply cmp_eq in E as ->. eexists _, _, _, _, _. split; [done|set_solver].
  - specialize (IHr Hsr). destruct (search r key); [naive_solver set_solver|].
    intros d' [Hin|[Heq|Hin]%elem_of_cons]%elem_of_app; [..|by eapply IHr].
    + apply Hbl in Hin as Hlt; cbn in Hlt. pose proof (sorted_elem_ok _ _ Hsl Hin).
      apply cmp_lt in E. unfold range_ok in *; cbn in *; lia.
    + injection Heq as -> _. by rewrite cmp_refl in E.
  - specialize (IHl Hsl). destruct (search l key); [naive_solver set_solver|].
    intros d' [Hin|[Heq|Hin]%elem_of_cons]%elem_of_app; [by eapply IHl|..].
    + injection Heq as -> _. by rewrite cmp_refl in E.
    + apply Har in Hin as Hlt; cbn in Hlt. apply cmp_gt in E. lia.
Qed.

Lemma search_superset_spec n key :
  sorted (elements n) -> r_min key <= r_max key ->
  match search_superset n key with
  | Some n' => exists k d l r h m, n' = Node k d l r h m /\ (k, d) ∈ elements n /\
                 Range_contain k key = true
  | None => forall k d, (k, d) ∈ elements n -> Range_contain k key = false
  end.
Proof.
  induction n as [|k d l IHl r IHr h m]; cbn; intros Hs Hkey; [set_solver|].
  apply sorted_middle in Hs as (Hsl&Hsr&Hk&Hbl&Har). rewrite Forall_forall in Hbl, Har.
  unfold before, range_ok in *; cbn in *.
  assert (Hno : forall a b, Range_contain a b = false <-> r_min b < r_min a \/ r_max a < r_max b)
    by (intros; unfold Range_contain; rewrite andb_false_iff, !Z.leb_gt; lia).
  destruct (Range_contain k key) eqn:E.
  { eexists _, _, _, _, _, _. split_and!; [done|set_solver|done]. }
  apply Hno in E. repeat zcase.
  - specialize (IHl Hsl Hkey). destruct (search_superset l key); [naive_solver set_solver|].
    intros k' d' [Hin|[Heq|Hin]%elem_of_cons]%elem_of_app; [by eapply IHl|..]; apply Hno.
    + injection Heq as -> _. lia.
    + apply Har in Hin; cbn in Hin. lia.
  - specialize (IHr Hsr Hkey). destruct (search_superset r key); [naive_solver set_solver|].
    intros k' d' [Hin|[Heq|Hin]%elem_of_cons]%elem_of_app; [..|by eapply IHr]; apply Hno.
    + apply Hbl in Hin; cbn in Hin. lia.
    + injection Heq as -> _. lia.
  - intros k' d' [Hin|[Heq|Hin]%elem_of_cons]%elem_of_app; apply Hno.
    + apply Hbl in Hin; cbn in Hin. lia.
    + injection Heq as -> _. lia.
    + apply Har in Hin; cbn in Hin. lia.
Qed.

(** ** Deletion *)

Lemma leaf_or n : n = Leaf \/ n <> Leaf.
Proof. by destruct n; [left|right]. Qed.

Lemma get_new_root_step k d l r h m :
  l <> Leaf ->
  get_new_root (Node k d l r h m) =
    ('(min_node, l') ← get_new_root l;
     n' ← updated_node (Node k d l' r h m);
     Ret (min_node, n')).
Proof. by destruct l. Qed.

Lemma get_new_root_spec n :
  avl n -> n <> Leaf ->
  exists k d h m n', get_new_root n = Ret (Node k d Leaf Leaf h m, n') /\ avl n' /\
    elements n = (k, d) :: elements n' /\ height n - 1 <= height n' <= height n.
Proof.
  induction n as [|k d l IHl r _ h m]; intros Havl Hne; [done|].
  destruct Havl as (Hl&Hr&->&Hb&->).
  destruct (leaf_or l) as [->|Hnl].
  { cbn. pose proof (height_nonneg _ Hr). eexists _, _, _, _, _.
    split_and!; [done|done|done|cbn in *; lia..]. }
  destruct (IHl Hl Hnl) as (k'&d'&h'&m'&l'&El&Hl'&Ees&Hh).
  destruct (updated_node_spec k d l' r (Z.max (height l) (height r) + 1)
      (Z.max (max_key l) (Z.max (max_key r) (r_max k)))) as (t'&Et&?&He&?&?); [done..|lia|].
  exists k', d', h', m', t'. rewrite get_new_root_step, El by done. cbn. rewrite Et, He, Ees.
  split_and!; auto; lia.
Qed.

Lemma delete_root_spec l r :
  avl l -> avl r -> -1 <= height l - height r <= 1 ->
  exists n', delete_root l r = Ret n' /\ avl n' /\ elements n' = elements l ++ elements r /\
    Z.max (height l) (height r) <= height n' <= Z.max (height l) (height r) + 1.
Proof.
  intros Hl Hr Hb. pose proof (height_nonneg _ Hl). pose proof (height_nonneg _ Hr).
  destruct (leaf_or r) as [->|Hne].
  { exists l. split_and!; [by destruct l|done|by rewrite app_nil_r|cbn in *; lia..]. }
  destruct (leaf_or l) as [->|Hnl].
  { exists r. split_and!; [by destruct r|done|done|cbn in *; lia..]. }
  destruct (get_new_root_spec r Hr Hne) as (k&d&h&m&r'&Er&Hr'&Ees&Hh).
  destruct (updated_node_spec k d l r' h m) as (t'&Et&?&He&?&?); [done..|lia|].
  exists t'. split_and!; [|done|by rewrite He, Ees|lia..].
  unfold delete_root, combine_subtrees. rewrite Er. by destruct l, r.
Qed.

Lemma node_delete_step k d l r h m key :
  node_delete (Node k d l r h m) key =
    match Range_cmp k key with
    | Eq => root ← delete_root l r; Ret (state_value d, root)
    | Lt => match r with
            | Leaf => Ret (None, Node k d l r h m)
            | _ => '(data, r') ← node_delete r key;
                   n' ← updated_node (Node k d l r' h m); Ret (data, n')
            end
    | Gt => match l with
            | Leaf => Ret (None, Node k d l r h m)
            | _ => '(data, l') ← node_delete l key;
                   n' ← updated_node (Node k d l' r h m); Ret (data, n')
            end
    end.
Proof. done. Qed.

Lemma match_nonleaf {A} n (a b : A) :
  n <> Leaf -> match n with Leaf => a | _ => b end = b.
Proof. by destruct n. Qed.

Lemma node_delete_found n key d :
  avl n -> sorted (elements n) -> (key, d) ∈ elements n ->
  exists n' es1 es2, node_delete n key = Ret (state_value d, n') /\ avl n' /\
    height n - 1 <= height n' <= height n /\
    elements n = es1 ++ (key, d) :: es2 /\ elements n' = es1 ++ es2.
Proof.
  induction n as [|k dk l IHl r IHr h m]; intros Havl Hs Hin; [set_solver|].
  destruct Havl as (Hl&Hr&->&Hb&->). rewrite node_delete_step. cbn in Hs, Hin.
  apply sorted_middle in Hs as (Hsl&Hsr&Hk&Hbl&Har). rewrite Forall_forall in Hbl, Har.
  unfold before, range_ok in *. cbn [fst] in *.
  apply elem_of_app in Hin as [Hin|[Heq|Hin]%elem_of_cons].
  - pose proof (Hbl _ Hin). pose proof (sorted_elem_ok _ _ Hsl Hin) as Hok.
    unfold range_ok in *; cbn in *. rewrite cmp_after by lia.
    destruct (IHl Hl Hsl Hin) as (l'&es1&es2&El&Hl'&Hh&Ees&Ees').
    destruct (updated_node_spec k dk l' r (Z.max (height l) (height r) + 1)
      (Z.max (max_key l) (Z.max (max_key r) (r_max k)))) as (t'&Et&?&He&?&?); [done..|lia|].
    exists t', es1, (es2 ++ (k, dk) :: elements r). split_and!; try lia; auto.
    + rewrite match_nonleaf, El by (intros ->; set_solver). cbn. by rewrite Et.
    + cbn. by rewrite Ees, <- app_assoc.
    + by rewrite He, Ees', <- app_assoc.
  - injection Heq as -> ->. rewrite cmp_refl.
    destruct (delete_root_spec l r) as (n'&->&?&He&?); [done..|].
    exists n', (elements l), (elements r). cbn. split_and!; auto; lia.
  - pose proof (Har _ Hin). cbn in *. rewrite cmp_before by lia.
    destruct (IHr Hr Hsr Hin) as (r'&es1&es2&Er&Hr'&Hh&Ees&Ees').
    destruct (updated_node_spec k dk l r' (Z.max (height l) (height r) + 1)
      (Z.max (max_key l) (Z.max (max_key r) (r_max k)))) as (t'&Et&?&He&?&?); [done..|lia|].
    exists t', (elements l ++ (k, dk) :: es1), es2. split_and!; try lia; auto.
    + rewrite match_nonleaf, Er by (intros ->; set_solver). cbn. by rewrite Et.
    + cbn. by rewrite Ees, <- app_assoc.
    + by rewrite He, Ees', <- app_assoc.
Qed.

Lemma node_delete_missing n key :
  avl n -> sorted (elements n) -> (forall d, (key, d) ∉ elements n) ->
  exists n', node_delete n key = Ret (None, n') /\ avl n' /\
    height n' = height n /\ elements n' = elements n.
Proof.
  induction n as [|k dk l IHl r IHr h m]; intros Havl Hs Hin; [by eexists|].
  destruct Havl as (Hl&Hr&->&Hb&->). cbn in Hs, Hin.
  apply sorted_middle in Hs as (Hsl&Hsr&_).
  rewrite node_delete_step. destruct (Range_cmp k key) eqn:E.
  - apply cmp_eq in E as ->. by destruct (Hin dk); set_solver.
  - destruct (leaf_or r) as [->|Hne].
    { eexists; split; [done|]. cbn; auto 10. }
    destruct (IHr Hr Hsr) as (r'&Er&?&?&Ees); [set_solver|].
    destruct (updated_node_spec k dk l r' (Z.max (height l) (height r) + 1)
      (Z.max (max_key l) (Z.max (max_key r) (r_max k)))) as (t'&Et&?&He&?&?); [done..|lia|].
    exists t'. rewrite He, Ees. split_and!; [|done|cbn; lia|done].
    rewrite match_nonleaf, Er by done. cbn. by rewrite Et.
  - destruct (leaf_or l) as [->|Hne].
    { eexists; split; [done|]. cbn; auto 10. }
    destruct (IHl Hl Hsl) as (l'&El&?&?&Ees); [set_solver|].
    destruct (updated_node_spec k dk l' r (Z.max (height l) (height r) + 1)
      (Z.max (max_key l) (Z.max (max_key r) (r_max k)))) as (t'&Et&?&He&?&?); [done..|lia|].
    exists t'. rewrite He, Ees. split_and!; [|done|cbn; lia|done].
    rewrite match_nonleaf, El by done. cbn. by rewrite Et.
Qed.

(** ** Update in place *)

Lemma node_update_found n key d data :
  avl n -> sorted (elements n) -> (key, d) ∈ elements n ->
  if update_allowed d data then
    exists n' es1 es2, node_update n key data = Ret (state_value d, n') /\ avl n' /\
      height n' = height n /\ max_key n' = max_key n /\
      elements n = es1 ++ (key, d) :: es2 /\ elements n' = es1 ++ (key, data) :: es2
  else node_update n key data = Panic.
Proof.
  induction n as [|k dk l IHl r IHr h m]; intros Havl Hs Hin; [set_solver|].
  destruct Havl as (Hl&Hr&->&Hb&->). cbn in Hs, Hin |- *.
  apply sorted_middle in Hs as (Hsl&Hsr&Hk&Hbl&Har). rewrite Forall_forall in Hbl, Har.
  unfold before, range_ok in *. cbn [fst] in *.
  apply elem_of_app in Hin as [Hin|[Heq|Hin]%elem_of_cons].
  - pose proof (Hbl _ Hin). pose proof (sorted_elem_ok _ _ Hsl Hin) as Hok.
    unfold range_ok in *; cbn in *. rewrite cmp_after by lia.
    specialize (IHl Hl Hsl Hin). destruct (update_allowed d data); [|by rewrite IHl].
    destruct IHl as (l'&es1&es2&->&?&?&?&Ees&Ees'). cbn.
    eexists _, es1, (es2 ++ (k, dk) :: elements r).
    split_and!; [done|..]; cbn; rewrite ?Ees, ?Ees', <- ?app_assoc; split_and?; auto; first [lia|congruence].
  - injection Heq as -> ->. rewrite cmp_refl.
    destruct dk, data; cbn; try done; eexists _, (elements l), (elements r); split_and!; try done.
  - pose proof (Har _ Hin). cbn in *. rewrite cmp_before by lia.
    specialize (IHr Hr Hsr Hin). destruct (update_allowed d data); [|by rewrite IHr].
    destruct IHr as (r'&es1&es2&->&?&?&?&Ees&Ees'). cbn.
    eexists _, (elements l ++ (k, dk) :: es1), es2.
    split_and!; [done|..]; cbn; rewrite ?Ees, ?Ees', <- ?app_assoc; split_and?; auto; first [lia|congruence].
Qed.

Lemma node_update_missing n key data :
  (forall d, (key, d) ∉ elements n) -> node_update n key data = Ret (None, n).
Proof.
  induction n as [|k dk l IHl r IHr h m]; cbn; intros Hin; [done|].
  destruct (Range_cmp k key) eqn:E.
  - apply cmp_eq in E as ->. destruct (Hin dk). set_solver.
  - rewrite IHr by set_solver. done.
  - rewrite IHl by set_solver. done.
Qed.

(** ** The view of the operations as multisets of entries *)

Lemma sorted_perm_cons es k d es' :
  sorted es -> es ≡ₚ (k, d) :: es' -> range_ok k /\ disjoint_from k es'.
Proof.
  intros Hs (es1&es2&->&Hp)%Permutation_cons_inv_r.
  apply sorted_middle in Hs as (Hs1&_&Hk&Hb&Ha). split; [done|].
  unfold disjoint_from. rewrite Hp, Forall_app. split;
    (eapply Forall_impl; [eassumption|]); unfold before; cbn; intros; lia.
Qed.

Lemma sorted_functional es : sorted es -> functional_at es.
Proof.
  intros Hs x k1 d1 k2 d2 H1 H2 Hx1 Hx2.
  apply elem_of_Permutation in H1 as [es' Hp]. rewrite Hp in H2.
  apply (sorted_perm_cons es) in Hp as [_ Hd]; [|done].
  apply elem_of_cons in H2 as [[= -> ->]|H2]; [done|].
  unfold disjoint_from in Hd. rewrite Forall_forall in Hd. specialize (Hd _ H2). cbn in *. lia.
Qed.

Lemma functional_tail e es : functional_at (e :: es) -> functional_at es.
Proof. intros Hf x k1 d1 k2 d2 ??. apply (Hf x k1 d1 k2 d2); by right. Qed.

Lemma state_at_Some es x d :
  functional_at es ->
  state_at es x = Some d <-> exists k, (k, d) ∈ es /\ r_min k <= x <= r_max k.
Proof.
  induction es as [|[k d'] es IH]; intros Hf; cbn; [set_solver|].
  specialize (IH (functional_tail _ _ Hf)).
  destruct (Z.leb_spec (r_min k) x), (Z.leb_spec x (r_max k)); cbn.
  { split; [intros [= ->]; exists k; set_solver|]. intros (k'&Hin&?). f_equal.
    apply (Hf x k d' k' d); [left|done|lia|done]. }
  all: rewrite IH; split; [intros (k'&?&?); exists k'; set_solver|];
    intros (k'&[[= -> ->]|Hin]%elem_of_cons&?); [lia|eauto].
Qed.

Lemma functional_perm es es' : es ≡ₚ es' -> functional_at es -> functional_at es'.
Proof. intros Hp Hf x k1 d1 k2 d2. rewrite <- Hp. apply Hf. Qed.

Lemma state_at_perm es es' x : sorted es -> es ≡ₚ es' -> state_at es x = state_at es' x.
Proof.
  intros Hf%sorted_functional Hp. apply option_eq. intros d.
  rewrite !state_at_Some by eauto using functional_perm. by setoid_rewrite Hp.
Qed.

Lemma it_insert_ok t key data :
  wf t -> range_ok key -> disjoint_from key (elems t) ->
  exists t', it_insert t key data = Ret t' /\ wf t' /\
    elems t' ≡ₚ (key, match data with Some x => Valued x | None => Free end) :: elems t.
Proof.
  intros [Ha Hs] Hok Hd.
  destruct (node_insert_spec (root t) key data Ha Hs Hok Hd) as (n'&es1&es2&En&?&_&Ees&Ees'&?).
  unfold it_insert. rewrite En. eexists; split; [done|]. split; [done|].
  unfold elems. cbn. rewrite Ees', Ees. by rewrite Permutation_middle.
Qed.

Lemma it_delete_ok t key d es :
  wf t -> elems t ≡ₚ (key, d) :: es ->
  exists t', it_delete t key = Ret (state_value d, t') /\ wf t' /\ elems t' ≡ₚ es.
Proof.
  intros [Ha Hs] Hp. unfold wf, elems in *.
  destruct (node_delete_found (root t) key d Ha Hs) as (n'&es1&es2&En&?&_&Ees&Ees').
  { rewrite Hp. left. }
  unfold it_delete. rewrite En. eexists; split; [done|]. cbn. rewrite Ees', Ees in *.
  split; [split; [done|by eapply sorted_drop_middle]|].
  by apply symmetry, Permutation_cons_app_inv in Hp.
Qed.

Lemma it_delete_missing t key :
  wf t -> (forall d, (key, d) ∉ elems t) ->
  exists t', it_delete t key = Ret (None, t') /\ wf t' /\ elems t' = elems t.
Proof.
  intros [Ha Hs] Hin. destruct (node_delete_missing (root t) key Ha Hs Hin) as (n'&En&?&_&Ees).
  unfold it_delete. rewrite En. eexists; split; [done|]. unfold wf, elems. cbn. by rewrite Ees.
Qed.

Lemma update_swap n key d data es :
  avl n -> sorted (elements n) -> elements n ≡ₚ (key, d) :: es ->
  update_allowed d data = true ->
  exists n', node_update n key data = Ret (state_value d, n') /\ avl n' /\
    sorted (elements n') /\ elements n' ≡ₚ (key, data) :: es.
Proof.
  intros Ha Hs Hp Hal.
  opose proof (node_update_found n key d data Ha Hs _) as H; [rewrite Hp; left|].
  rewrite Hal in H. destruct H as (n'&es1&es2&En&?&_&_&Ees&Ees').
  exists n'. split_and!; [done|done|..].
  - rewrite Ees, Ees' in *. by apply sorted_middle in Hs; apply sorted_middle.
  - rewrite Ees', Ees in *. apply symmetry, Permutation_cons_app_inv in Hp as ->.
    by rewrite Permutation_middle.
Qed.

Lemma it_mark_ok t key es :
  wf t -> elems t ≡ₚ (key, Free) :: es ->
  exists t', it_mark_allocated t key = Ret t' /\ wf t' /\ elems t' ≡ₚ (key, Allocated) :: es.
Proof.
  intros [Ha Hs] Hp. destruct (update_swap (root t) key Free Allocated es) as (n'&En&?&?&?); auto.
  exists (mkIntervalTree n'). split; [|done]. unfold it_mark_allocated, elems in *.
  destruct (root t); [by apply Permutation_nil_cons in Hp|]. by rewrite En.
Qed.

Lemma it_update_ok t key d x es :
  wf t -> elems t ≡ₚ (key, d) :: es -> d <> Free ->
  exists t', it_update t key x = Ret (state_value d, t') /\ wf t' /\
    elems t' ≡ₚ (key, Valued x) :: es.
Proof.
  intros [Ha Hs] Hp Hd.
  destruct (update_swap (root t) key d (Valued x) es) as (n'&En&?&?&?); auto; [by destruct d|].
  unfold it_update. rewrite En. by eexists.
Qed.
End spec.
