(* ===== verification/IntervalTreeAlloc.v ===== *)
(** * Allocation and release of ranges in the interval tree

    What [IntervalTree::allocate] and [IntervalTree::free] do to the points of
    the resource space: soundness, first fit, completeness, the frame, and the
    round trip. *)
From stdpp Require Import sorting list_tactics.
From S2P Require Import Prelude IntervalTree IntervalTreeFacts.

(** An alignment [Range::align_to] accepts: none, or a power of two. *)
Definition align_ok (a : Z) : Prop := a = 0 \/ exists k, 0 <= k /\ a = 2 ^ k.

Definition aligned (a y : Z) : Prop := a = 0 \/ (a | y).

(** The fields of a constraint are 64-bit values. *)
Definition c_ok (c : Constraint) : Prop :=
  in_u64 (c_size c) /\ in_u64 (c_min c) /\ in_u64 (c_max c) /\ in_u64 (c_align c).

(** [y] is a base address at which the range [k] can serve the constraint. *)
Definition fits (c : Constraint) (k : Range) (y : Z) : Prop :=
  align_ok (c_align c) /\ aligned (c_align c) y /\
  Z.max (r_min k) (c_min c) <= y /\ y + c_size c - 1 <= Z.min (r_max k) (c_max c).

(** [r] lies in [k]. *)
Definition within (r k : Range) : Prop :=
  r_min k <= r_min r /\ r_min r <= r_max r /\ r_max r <= r_max k.

Definition inside (x : Z) (k : Range) : bool := (r_min k <=? x) && (x <=? r_max k).

(** What is left of a free range on both sides of an allocated one. *)
Definition left_rest {T} (k r : Range) : list (Range * NodeState T) :=
  if r_min k <? r_min r then [(mkRange (r_min k) (r_min r - 1), Free)] else [].

Definition right_rest {T} (k r : Range) : list (Range * NodeState T) :=
  if r_max r <? r_max k then [(mkRange (r_max r + 1) (r_max k), Free)] else [].

(** The free neighbour below (above) [key] among [es]: the new lower (upper)
    bound of the released range, and the entry it absorbs. *)
Definition absorbs_left {T} (key : Range) (es : list (Range * NodeState T)) (mn : Z)
    (ls : list (Range * NodeState T)) : Prop :=
  (ls = [] /\ mn = r_min key /\ forall k, (k, Free) ∈ es -> r_max k + 1 <> r_min key) \/
  exists k, ls = [(k, Free)] /\ r_max k + 1 = r_min key /\ mn = r_min k.

Definition absorbs_right {T} (key : Range) (es : list (Range * NodeState T)) (mx : Z)
    (rs : list (Range * NodeState T)) : Prop :=
  (rs = [] /\ mx = r_max key /\ forall k, (k, Free) ∈ es -> r_max key + 1 <> r_min k) \/
  exists k, rs = [(k, Free)] /\ r_max key + 1 = r_min k /\ mx = r_max k.

(** No two adjacent ranges are both free. *)
Definition coalesced {T} (es : list (Range * NodeState T)) : Prop :=
  forall k1 k2, (k1, Free) ∈ es -> (k2, Free) ∈ es -> r_max k1 + 1 <> r_min k2.

Lemma inside_spec x k : inside x k = true <-> r_min k <= x <= r_max k.
Proof. unfold inside. rewrite andb_true_iff, !Z.leb_le. lia. Qed.

Lemma align_up_least k x y :
  0 <= k -> x <= 2 ^ k * y -> 2 ^ k * ((x + (2 ^ k - 1)) / 2 ^ k) <= 2 ^ k * y.
Proof.
  intros Hk Hy. assert (0 < 2 ^ k) by (apply Z.pow_pos_nonneg; lia).
  apply Z.mul_le_mono_nonneg_l; [lia|]. apply Z.lt_succ_r, Z.div_lt_upper_bound; [done|]. nia.
Qed.

Lemma align_up_ge k x : 0 <= k -> x <= 2 ^ k * ((x + (2 ^ k - 1)) / 2 ^ k).
Proof.
  intros Hk. assert (0 < 2 ^ k) by (apply Z.pow_pos_nonneg; lia).
  pose proof (Z.mod_pos_bound (x + (2 ^ k - 1)) (2 ^ k)).
  pose proof (Z.div_mod (x + (2 ^ k - 1)) (2 ^ k)). lia.
Qed.

Lemma Range_new_ok mn mx :
  mn <= mx -> ~ (mn = 0 /\ mx = u64_max) -> Range_new mn mx = Ret (mkRange mn mx).
Proof.
  intros Hle Hf. unfold Range_new. destruct (Z.ltb_spec mx mn); [lia|]. cbn.
  destruct (Z.eqb_spec mn 0), (Z.eqb_spec mx u64_max); cbn; try done. by destruct Hf.
Qed.

Lemma Range_len_ok r : range_ok r -> Range_len r = Ret (r_max r - r_min r + 1).
Proof.
  intros (?&?&?). unfold Range_len. rewrite usub_Ret by lia. cbn. rewrite uadd_Ret; [done|lia].
Qed.

(** [Range::align_to] finds the least aligned base in the range. *)
Lemma align_to_spec r a :
  range_ok r -> in_u64 a ->
  exists o, Range_align_to r a = Ret o /\
    match o with
    | Some r' => align_ok a /\ aligned a (r_min r') /\ r_max r' = r_max r /\
        r_min r <= r_min r' <= r_max r /\
        (forall y, r_min r <= y -> aligned a y -> r_min r' <= y)
    | None => ~ align_ok a \/ forall y, r_min r <= y <= r_max r -> ~ aligned a y
    end.
Proof.
  intros Hok Ha. unfold Range_align_to. pose proof Hok as (?&?&?).
  destruct (Z.eqb_spec a 0) as [->|]; cbn [orb].
  { eexists; split; [done|]. cbn. split_and!; try lia; by left. }
  destruct (Z.eqb_spec a 1) as [->|]; cbn [orb].
  { eexists; split; [done|]. split_and!; try lia; right; [by exists 0|apply Z.divide_1_l]. }
  destruct (Z.eqb_spec (Z.land a (a - 1)) 0) as [E|E]; cbn [negb].
  2:{ eexists; split; [done|]. left. intros [->|(k&?&->)]; [done|]. by rewrite pow2_land_pred in E. }
  apply land_pred_pow2 in E; [|ulia]. pose proof (Z.log2_nonneg a).
  set (k := Z.log2 a) in *. unfold checked_add. zcase.
  - rewrite E, land_unot_align by (try done; ulia).
    pose proof (align_up_ge k (r_min r)). zcase.
    + rewrite Range_new_ok by lia. eexists; split; [done|]. cbn. split_and!; try lia.
      * right; eauto.
      * right. by apply Z.divide_factor_l.
      * intros y Hy [Hz|[q ->]]; [lia|]. pose proof (align_up_least k (r_min r) q). lia.
    + eexists; split; [done|]. right. intros y Hy [Hz|[q ->]]; [lia|].
      pose proof (align_up_least k (r_min r) q). lia.
  - eexists; split; [done|]. right. intros y Hy [Hz|[q ->]]; [lia|].
    rewrite E in *. assert (2 ^ k <= 2 ^ 64) by ulia.
    assert (k <= 64) by (apply (Z.pow_le_mono_r_iff 2); lia).
    assert (2 ^ 64 = 2 ^ k * 2 ^ (64 - k)) by (rewrite <- Z.pow_add_r by lia; f_equal; lia).
    assert (0 < 2 ^ k) by (apply Z.pow_pos_nonneg; lia). unfold u64_max in *.
    assert (q < 2 ^ (64 - k)) by nia. nia.
Qed.

Section alloc.
Context {T : Type}.
Implicit Types (n : tree T) (t : IntervalTree T) (es : list (Range * NodeState T)).

(** The range [allocate] tries to serve the constraint from. *)
Lemma clipped_ok k c :
  range_ok k -> c_ok c -> Z.max (r_min k) (c_min c) <= Z.min (r_max k) (c_max c) ->
  range_ok (mkRange (Z.max (r_min k) (c_min c)) (Z.min (r_max k) (c_max c))) /\
  Range_new (Z.max (r_min k) (c_min c)) (Z.min (r_max k) (c_max c)) =
    Ret (mkRange (Z.max (r_min k) (c_min c)) (Z.min (r_max k) (c_max c))).
Proof.
  intros (?&?&?) (?&?&?&?) ?. split; [|apply Range_new_ok; ulia].
  split_and!; cbn; ulia.
Qed.

Lemma check_constraint_spec k (d : NodeState T) c :
  range_ok k -> c_ok c -> 0 < c_size c ->
  exists b, check_constraint k d c = Ret b /\
    (b = true <-> d = Free /\ exists y, fits c k y).
Proof.
  intros Hk Hc Hsz. unfold check_constraint.
  destruct (is_free d) eqn:Ef; [|eexists; split; [done|]; by destruct d; naive_solver].
  assert (d = Free) as -> by (by destruct d). zcase.
  2:{ eexists; split; [done|]. split; [done|]. intros [_ (y&_&_&?&?)]. lia. }
  destruct (clipped_ok k c) as [Hr ->]; [done..|]. cbn [mbind outcome_bind].
  destruct (align_to_spec _ (c_align c) Hr) as (o&Ho&Hspec); [apply Hc|].
  set (q := mkRange _ _) in *.
  assert (Hex : forall r', o = Some r' -> c_size c <= r_max r' - r_min r' + 1 <->
      exists y, fits c k y).
  { intros r' ->. destruct Hspec as (Hao&Hal&Hmx&Hmn&Hle). cbn in *. split.
    - intros Hs. exists (r_min r'). unfold fits. split_and!; auto; lia.
    - intros (y&_&Hay&Hy1&Hy2). specialize (Hle y Hy1 Hay). lia. }
  destruct ((c_align c =? 0) || (c_align c =? 1)) eqn:Ea.
  - unfold Range_align_to in Ho. rewrite Ea in Ho. injection Ho as <-.
    rewrite Range_len_ok by done. cbn [mbind outcome_bind]. eexists; split; [done|].
    rewrite Z.leb_le, Hex; naive_solver.
  - rewrite Ho. cbn [mbind outcome_bind]. destruct o as [r'|].
    + rewrite Range_len_ok; cbn [mbind outcome_bind].
      * eexists; split; [done|]. rewrite Z.leb_le, Hex; naive_solver.
      * destruct Hspec as (_&_&Hmx&Hmn&_), Hr as (?&?&?), Hk as (?&?&?).
        subst q. cbn in *. split_and!; lia.
    + eexists; split; [done|]. split; [done|]. intros [_ (y&Hy1&Hy2&?&?)].
      destruct Hspec as [Hno|Hno]; [done|]. exfalso. apply (Hno y); [cbn; lia|done].
Qed.

Lemma alloc_base k c :
  range_ok k -> c_ok c -> 0 < c_size c -> (exists y, fits c k y) ->
  exists ak, Range_new (Z.max (r_min k) (c_min c)) (Z.min (r_max k) (c_max c)) =
      Ret (mkRange (Z.max (r_min k) (c_min c)) (Z.min (r_max k) (c_max c))) /\
    Range_align_to (mkRange (Z.max (r_min k) (c_min c)) (Z.min (r_max k) (c_max c)))
      (c_align c) = Ret (Some ak) /\
    fits c k (r_min ak) /\ (forall y, fits c k y -> r_min ak <= y).
Proof.
  intros Hk Hc Hsz (y&Hy). pose proof Hy as (?&?&?&?).
  destruct (clipped_ok k c) as [Hr E]; [done..|lia|].
  destruct (align_to_spec _ (c_align c) Hr) as (o&Ho&Hspec); [apply Hc|]. cbn in Hspec.
  destruct o as [ak|].
  - destruct Hspec as (Hao&Hal&Hmx&Hmn&Hle). exists ak. split_and!; auto.
    + specialize (Hle y). unfold fits. split_and!; auto; intuition lia.
    + intros z (_&?&?&_). auto.
  - destruct Hspec as [Hno|Hno]; [done|]. exfalso. apply (Hno y); [lia|done].
Qed.

(** [first_match] returns the first free node, in address order, that can
    serve the constraint. *)
Lemma first_match_spec n c :
  sorted (elements n) -> c_ok c -> 0 < c_size c ->
  exists o, first_match n c = Ret o /\
    match o with
    | Some n' => exists k l r h m, n' = Node k Free l r h m /\ (k, Free) ∈ elements n /\
        (exists y, fits c k y) /\
        forall k' y', (k', Free) ∈ elements n -> fits c k' y' -> r_min k <= r_min k'
    | None => forall k y, (k, Free) ∈ elements n -> ~ fits c k y
    end.
Proof.
  intros Hs Hc Hsz. revert Hs. induction n as [|k d l IHl r IHr h m]; cbn; intros Hs.
  { eexists; split; [done|]. set_solver. }
  apply sorted_middle in Hs as (Hsl&Hsr&Hk&Hbl&Har). rewrite Forall_forall in Hbl, Har.
  unfold before in *; cbn in Hk, Hbl, Har. pose proof Hk as (?&_&_).
  destruct (IHl Hsl) as (ol&->&Hl). cbn [mbind outcome_bind]. destruct ol as [nl|].
  { destruct Hl as (k1&l1&r1&h1&m1&->&Hin&Hf&Hfirst). eexists; split; [done|].
    eexists _, _, _, _, _. split_and!; [done|set_solver|done|].
    intros k' y' [Hi|[[= -> <-]|Hi]%elem_of_cons]%elem_of_app Hy; [by eauto|..].
    all: apply Hbl in Hin as Hlt; try apply Har in Hi; cbn in *;
      destruct (sorted_elem_ok _ _ Hsl Hin) as (?&_); cbn in *; lia. }
  destruct (check_constraint_spec k d c Hk Hc Hsz) as (b&->&Hb). cbn [mbind outcome_bind].
  destruct b.
  - destruct Hb as [[-> Hf] _]; [done|]. eexists; split; [done|].
    eexists _, _, _, _, _. split_and!; [done|set_solver|done|].
    intros k' y' [Hi|[[= ->]|Hi]%elem_of_cons]%elem_of_app Hy; [by edestruct Hl|lia|].
    apply Har in Hi. cbn in Hi. lia.
  - destruct (IHr Hsr) as (or&->&Hr'). eexists; split; [done|]. destruct or as [nr|].
    + destruct Hr' as (k1&l1&r1&h1&m1&->&Hin&Hf&Hfirst). eexists _, _, _, _, _.
      split_and!; [done|set_solver|done|].
      intros k' y' [Hi|[[= -> <-]|Hi]%elem_of_cons]%elem_of_app Hy; [by edestruct Hl| |by eauto].
      destruct Hb as [_ Hb]. by discriminate Hb; eauto.
    + intros k' y' [Hi|[[= -> <-]|Hi]%elem_of_cons]%elem_of_app Hy; [by edestruct Hl| |by edestruct Hr'].
      destruct Hb as [_ Hb]. by discriminate Hb; eauto.
Qed.

Lemma within_ok r k : range_ok k -> within r k -> range_ok r.
Proof. intros (?&?&?) (?&?&?). split_and!; lia. Qed.

Lemma disjoint_within r k es : within r k -> disjoint_from k es -> disjoint_from r es.
Proof.
  intros (?&?&?) Hd. eapply Forall_impl; [exact Hd|]. cbn. intros. lia.
Qed.

Lemma disjoint_from_perm key es es' : es ≡ₚ es' -> disjoint_from key es -> disjoint_from key es'.
Proof. unfold disjoint_from. by intros ->. Qed.

Lemma left_rest_disjoint k r es :
  within r k -> disjoint_from k es -> disjoint_from r (@left_rest T k r ++ es).
Proof.
  intros Hw Hd. apply Forall_app. split; [|by eapply disjoint_within].
  unfold left_rest. zcase; [apply Forall_singleton; cbn; lia|constructor].
Qed.

Lemma insert_left t k r es :
  wf t -> elems t ≡ₚ es -> range_ok k -> within r k -> disjoint_from k es ->
  exists t', (if r_min k <? r_min r then
                b ← usub (r_min r) 1; q ← Range_new (r_min k) b; it_insert t q None
              else Ret t) = Ret t' /\ wf t' /\ elems t' ≡ₚ left_rest k r ++ es.
Proof.
  intros Hwf Hp Hk Hw Hd. unfold left_rest. zcase; [|by exists t].
  pose proof Hk as (?&?&?). pose proof Hw as (?&?&?).
  rewrite usub_Ret by lia. cbn [mbind outcome_bind].
  rewrite Range_new_ok by lia. cbn [mbind outcome_bind].
  assert (within (mkRange (r_min k) (r_min r - 1)) k) as Hw' by (split_and!; cbn; lia).
  destruct (it_insert_ok t (mkRange (r_min k) (r_min r - 1)) None) as (t'&->&?&Hp');
    [done|by eapply within_ok| |].
  - eapply disjoint_from_perm; [done|]. by eapply disjoint_within.
  - exists t'. by rewrite Hp', Hp.
Qed.

Lemma insert_right t k r es :
  wf t -> elems t ≡ₚ es -> range_ok k -> within r k ->
  disjoint_from (mkRange (r_max r + 1) (r_max k)) es ->
  exists t', (if r_max r <? r_max k then
                b ← uadd u64_max (r_max r) 1; q ← Range_new b (r_max k); it_insert t q None
              else Ret t) = Ret t' /\ wf t' /\ elems t' ≡ₚ right_rest k r ++ es.
Proof.
  intros Hwf Hp Hk Hw Hd. unfold right_rest. zcase; [|by exists t].
  pose proof Hk as (?&?&?). pose proof Hw as (?&?&?).
  rewrite uadd_Ret by lia. cbn [mbind outcome_bind].
  rewrite Range_new_ok by lia. cbn [mbind outcome_bind].
  assert (within (mkRange (r_max r + 1) (r_max k)) k) as Hw' by (split_and!; cbn; lia).
  destruct (it_insert_ok t (mkRange (r_max r + 1) (r_max k)) None) as (t'&->&?&Hp');
    [done|by eapply within_ok| |].
  - by eapply disjoint_from_perm.
  - exists t'. by rewrite Hp', Hp.
Qed.

(** Splitting the candidate node [k] around [r]. *)
Lemma alloc_split t k r es :
  wf t -> elems t ≡ₚ (k, Free) :: es -> within r k ->
  exists t', ('(_, t) ← it_delete t k;
     t ← (if r_min k <? r_min r then
            b ← usub (r_min r) 1; q ← Range_new (r_min k) b; it_insert t q None
          else Ret t);
     t ← it_insert t r None;
     t ← (if r_max r <? r_max k then
            b ← uadd u64_max (r_max r) 1; q ← Range_new b (r_max k); it_insert t q None
          else Ret t);
     t ← it_mark_allocated t r;
     Ret (Some r, t)) = Ret (Some r, t') /\ wf t' /\
    elems t' ≡ₚ (r, Allocated) :: left_rest k r ++ right_rest k r ++ es.
Proof.
  intros Hwf Hp Hw. destruct (sorted_perm_cons (elems t) k Free es) as [Hk Hd]; [apply Hwf|done|].
  destruct (it_delete_ok t k Free es Hwf Hp) as (t1&->&Hwf1&Hp1). cbn [mbind outcome_bind].
  destruct (insert_left t1 k r es) as (t2&->&Hwf2&Hp2); [done..|]. cbn [mbind outcome_bind].
  destruct (it_insert_ok t2 r None) as (t3&->&Hwf3&Hp3);
    [done|by eapply within_ok| |cbn [mbind outcome_bind]].
  { eapply disjoint_from_perm; [done|]. by apply left_rest_disjoint. }
  destruct (insert_right t3 k r ((r, Free) :: left_rest k r ++ es)) as (t4&->&Hwf4&Hp4);
    [done|by rewrite Hp3, Hp2|done..| |cbn [mbind outcome_bind]].
  { pose proof Hw as (?&?&?). constructor; [cbn; lia|]. apply Forall_app. split.
    - unfold left_rest. zcase; [apply Forall_singleton; cbn; lia|constructor].
    - eapply Forall_impl; [exact Hd|]. cbn. intros. lia. }
  destruct (it_mark_ok t4 r (left_rest k r ++ right_rest k r ++ es)) as (t5&->&Hwf5&Hp5);
    [done| |cbn [mbind outcome_bind]; eauto].
  rewrite Hp4, <- Permutation_middle. by rewrite (Permutation_app_swap_app (right_rest k r)).
Qed.

Lemma it_allocate_cases t c :
  wf t -> c_ok c -> (c_max c < u64_max \/ Forall (fun e => r_max e.1 < u64_max) (elems t)) ->
  (exists k r es t', it_allocate t c = Ret (Some r, t') /\ wf t' /\ 0 < c_size c /\
     elems t ≡ₚ (k, Free) :: es /\
     elems t' ≡ₚ (r, Allocated) :: left_rest k r ++ right_rest k r ++ es /\
     within r k /\ r_max r = r_min r + c_size c - 1 /\ fits c k (r_min r) /\
     (forall k' y, (k', Free) ∈ elems t -> fits c k' y -> r_min r <= y)) \/
  (it_allocate t c = Ret (None, t) /\
     (c_size c = 0 \/ forall k y, (k, Free) ∈ elems t -> ~ fits c k y)).
Proof.
  intros Hwf Hc Htop. unfold it_allocate. zcase; [by right; auto|].
  assert (0 < c_size c) as Hsz by (destruct Hc; ulia).
  replace (find_candidate (root t) c) with (first_match (root t) c)
    by (unfold find_candidate; by destruct (c_policy c)).
  destruct (first_match_spec (root t) c) as (o&->&Ho); [apply Hwf|done|done|].
  cbn [mbind outcome_bind]. destruct o as [n'|]; [left|by right; auto].
  destruct Ho as (k&l&r&h&m&->&Hin&Hex&Hfirst).
  apply elem_of_Permutation in Hin as [es Hp]. change (elements (root t)) with (elems t) in *.
  destruct (sorted_perm_cons (elems t) k Free es) as [Hk Hd]; [apply Hwf|done|].
  destruct (alloc_base k c Hk Hc Hsz Hex) as (ak&->&Ea&Hfit&Hleast).
  cbn [mbind outcome_bind]. rewrite Ea. cbn [mbind outcome_bind unwrap].
  pose proof Hfit as (_&_&?&?). pose proof Hk as (?&?&?).
  rewrite uadd_Ret by (destruct Htop as [|Htop]; [lia|]; rewrite Hp, Forall_cons in Htop; cbn in *; lia).
  cbn [mbind outcome_bind]. rewrite (usub_Ret (r_min ak + c_size c) 1) by lia.
  cbn [mbind outcome_bind]. rewrite Range_new_ok by lia.
  cbn [mbind outcome_bind]. rewrite Range_len_ok by done. cbn [mbind outcome_bind].
  assert (Hbest : forall k' y, (k', Free) ∈ elems t -> fits c k' y -> r_min ak <= y).
  { intros k' y Hin' Hy. destruct (decide (k' = k)) as [->|Hne]; [auto|].
    specialize (Hfirst _ _ Hin' Hy). rewrite Hp in Hin'.
    apply elem_of_cons in Hin' as [[= ->]|Hin']; [done|].
    unfold disjoint_from in Hd. rewrite Forall_forall in Hd. specialize (Hd _ Hin').
    destruct Hy as (_&_&?&?). cbn in Hd. lia. }
  destruct ((r_min k =? r_min ak) && (r_max k - r_min k + 1 =? c_size c)) eqn:Ew.
  - zbool. destruct (it_mark_ok t k es Hwf Hp) as (t'&->&Hwf'&Hp').
    exists k, k, es, t'. cbn [mbind outcome_bind].
    assert (r_min k = r_min ak) as Emin by done. unfold left_rest, right_rest.
    rewrite !Z.ltb_irrefl. cbn. split_and!; auto; try lia; rewrite ?Emin; auto.
    split_and!; lia.
  - set (q := mkRange (r_min ak) (r_min ak + c_size c - 1)).
    destruct (alloc_split t k q es) as (t'&Et&Hwf'&Hp'); [done..|subst q; split_and!; cbn; lia|].
    exists k, q, es, t'. split; [exact Et|].
    split_and!; auto; subst q; cbn; try lia. split_and!; cbn; lia.
Qed.

(** ** Release *)

Lemma free_at_spec t x :
  wf t ->
  exists o, free_at t x = Ret o /\
    match o with
    | Some k => (k, Free) ∈ elems t /\ r_min k <= x <= r_max k
    | None => forall k, (k, Free) ∈ elems t -> ~ (r_min k <= x <= r_max k)
    end.
Proof.
  intros [_ Hs]. unfold free_at. rewrite Range_new_ok by ulia. cbn [mbind outcome_bind].
  opose proof (search_superset_spec (root t) (mkRange x x) Hs _) as H; [done|].
  unfold it_get_superset. destruct (search_superset (root t) (mkRange x x)) as [n'|]; cbn [mbind option_bind].
  - destruct H as (k&d&l&r&h&m&->&Hin&Hc). cbn. eexists; split; [done|].
    unfold Range_contain in Hc. cbn in Hc. zbool. destruct d; cbn; [done|..];
      intros k' Hin' Hx; pose proof (sorted_functional _ Hs x _ _ _ _ Hin Hin') as Hf;
      discriminate Hf; lia.
  - cbn. eexists; split; [done|]. intros k Hin Hx. specialize (H _ _ Hin).
    unfold Range_contain in H. cbn in H. apply andb_false_iff in H. rewrite !Z.leb_gt in H. lia.
Qed.

(** The neighbour below [key]: what [free] reads, and what it deletes. *)
Lemma merge_left t key es :
  wf t -> elems t ≡ₚ es -> range_ok key -> disjoint_from key es ->
  exists mn ls es',
    (if 0 <? r_min key then
       o ← free_at t (r_min key - 1);
       Ret (match o with Some r => r_min r | None => r_min key end)
     else Ret (r_min key)) = Ret mn /\
    es ≡ₚ ls ++ es' /\ absorbs_left key es mn ls /\
    forall t' rest, wf t' -> elems t' ≡ₚ ls ++ rest -> exists t'',
      (if mn <? r_min key then
         b ← usub (r_min key) 1; k ← Range_new mn b;
         '(_, t) ← it_delete t' k; Ret t
       else Ret t') = Ret t'' /\ wf t'' /\ elems t'' ≡ₚ rest.
Proof.
  intros Hwf Hp Hk Hd. pose proof Hk as (?&?&?).
  unfold disjoint_from in Hd; rewrite Forall_forall in Hd.
  assert (Hokf : forall k d, (k, d) ∈ es -> range_ok k).
  { intros k d Hin. rewrite <- Hp in Hin. eapply (sorted_elem_ok _ (k, d)); [apply Hwf|done]. }
  assert (Hnone : (forall k, (k, Free) ∈ es -> r_max k + 1 <> r_min key) -> exists ls es',
     es ≡ₚ ls ++ es' /\ absorbs_left key es (r_min key) ls /\
    forall t' rest, wf t' -> elems t' ≡ₚ ls ++ rest -> exists t'',
      (if r_min key <? r_min key then
         b ← usub (r_min key) 1; k ← Range_new (r_min key) b;
         '(_, t) ← it_delete t' k; Ret t
       else Ret t') = Ret t'' /\ wf t'' /\ elems t'' ≡ₚ rest).
  { intros Hno. exists [], es. split_and!; [done|by left|]. intros t' rest ??.
    rewrite Z.ltb_irrefl. eauto. }
  zcase.
  2:{ destruct Hnone as (ls&es'&?&?&?); [|by eexists _, _, _].
      intros k Hin ?. destruct (Hokf _ _ Hin) as (?&_). lia. }
  destruct (free_at_spec t (r_min key - 1) Hwf) as (o&->&Ho). cbn [mbind outcome_bind].
  destruct o as [k|].
  - destruct Ho as [Hin Hx]. rewrite Hp in Hin. pose proof (Hd _ Hin) as Hdk; cbn in Hdk.
    assert (r_max k = r_min key - 1) as Emx by lia. destruct (Hokf _ _ Hin) as (?&?&?).
    apply elem_of_Permutation in Hin as [es' Hp'].
    exists (r_min k), [(k, Free)], es'. split_and!; [done|done|right; eexists; split_and!; [done|lia|done]|].
    intros t' rest Hwf' Hpt. rewrite (proj2 (Z.ltb_lt _ _)) by lia.
    rewrite usub_Ret by lia. cbn [mbind outcome_bind]. rewrite Range_new_ok by lia.
    cbn [mbind outcome_bind]. replace (mkRange (r_min k) (r_min key - 1)) with k
      by (destruct k; cbn in *; congruence).
    destruct (it_delete_ok t' k Free rest) as (t''&->&?&?); [done..|]. cbn. eauto.
  - destruct Hnone as (ls&es'&?&?&?); [|by eexists _, _, _].
    intros k Hin ?. rewrite <- Hp in Hin. pose proof (Ho _ Hin).
    rewrite Hp in Hin. destruct (Hokf _ _ Hin) as (?&_). lia.
Qed.

Lemma merge_right t key es :
  wf t -> elems t ≡ₚ es -> range_ok key -> disjoint_from key es ->
  exists mx rs es',
    (if r_max key <? u64_max then
       o ← free_at t (r_max key + 1);
       Ret (match o with Some r => r_max r | None => r_max key end)
     else Ret (r_max key)) = Ret mx /\
    es ≡ₚ rs ++ es' /\ absorbs_right key es mx rs /\
    forall t' rest, wf t' -> elems t' ≡ₚ rs ++ rest -> exists t'',
      (if r_max key <? mx then
         b ← uadd u64_max (r_max key) 1; k ← Range_new b mx;
         '(_, t) ← it_delete t' k; Ret t
       else Ret t') = Ret t'' /\ wf t'' /\ elems t'' ≡ₚ rest.
Proof.
  intros Hwf Hp Hk Hd. pose proof Hk as (?&?&?).
  unfold disjoint_from in Hd; rewrite Forall_forall in Hd.
  assert (Hokf : forall k d, (k, d) ∈ es -> range_ok k).
  { intros k d Hin. rewrite <- Hp in Hin. eapply (sorted_elem_ok _ (k, d)); [apply Hwf|done]. }
  assert (Hnone : (forall k, (k, Free) ∈ es -> r_max key + 1 <> r_min k) -> exists rs es',
     es ≡ₚ rs ++ es' /\ absorbs_right key es (r_max key) rs /\
    forall t' rest, wf t' -> elems t' ≡ₚ rs ++ rest -> exists t'',
      (if r_max key <? r_max key then
         b ← uadd u64_max (r_max key) 1; k ← Range_new b (r_max key);
         '(_, t) ← it_delete t' k; Ret t
       else Ret t') = Ret t'' /\ wf t'' /\ elems t'' ≡ₚ rest).
  { intros Hno. exists [], es. split_and!; [done|by left|]. intros t' rest ??.
    rewrite Z.ltb_irrefl. eauto. }
  zcase.
  2:{ destruct Hnone as (ls&es'&?&?&?); [|by eexists _, _, _].
      intros k Hin ?. destruct (Hokf _ _ Hin) as (?&?&?). lia. }
  destruct (free_at_spec t (r_max key + 1) Hwf) as (o&->&Ho). cbn [mbind outcome_bind].
  destruct o as [k|].
  - destruct Ho as [Hin Hx]. rewrite Hp in Hin. pose proof (Hd _ Hin) as Hdk; cbn in Hdk.
    assert (r_min k = r_max key + 1) as Emn by lia. destruct (Hokf _ _ Hin) as (?&?&?).
    apply elem_of_Permutation in Hin as [es' Hp'].
    exists (r_max k), [(k, Free)], es'. split_and!; [done|done|right; eexists; split_and!; [done|lia|done]|].
    intros t' rest Hwf' Hpt. rewrite (proj2 (Z.ltb_lt _ _)) by lia.
    rewrite uadd_Ret by lia. cbn [mbind outcome_bind]. rewrite Range_new_ok by lia.
    cbn [mbind outcome_bind]. replace (mkRange (r_max key + 1) (r_max k)) with k
      by (destruct k; cbn in *; congruence).
    destruct (it_delete_ok t' k Free rest) as (t''&->&?&?); [done..|]. cbn. eauto.
  - destruct Hnone as (ls&es'&?&?&?); [|by eexists _, _, _].
    intros k Hin ?. rewrite <- Hp in Hin. pose proof (Ho _ Hin).
    rewrite Hp in Hin. destruct (Hokf _ _ Hin) as (?&_). lia.
Qed.

Lemma absorbs_both key es mn mx ls rs es1 es1' :
  range_ok key -> Forall (fun e => range_ok e.1) es ->
  es ≡ₚ ls ++ es1 -> es ≡ₚ rs ++ es1' ->
  absorbs_left key es mn ls -> absorbs_right key es mx rs ->
  exists es2, es1 ≡ₚ rs ++ es2.
Proof.
  intros (?&_) Hok H1 H2 Hl [(->&_)|(kr&->&Hr&_)]; [by exists es1|].
  assert ((kr, Free) ∈ ls ++ es1) as [Hin|Hin]%elem_of_app by (rewrite <- H1, H2; left).
  - destruct Hl as [(->&_)|(kl&->&Hkl&_)]; [set_solver|].
    apply list_elem_of_singleton in Hin as [= ->].
    rewrite H1 in Hok. apply Forall_cons in Hok as [(?&_) _]. cbn in *. lia.
  - apply elem_of_Permutation in Hin as [es2 Hq]. by exists es2.
Qed.

Lemma sorted_Forall_ok t : wf t -> Forall (fun e => range_ok e.1) (elems t).
Proof. by intros [_ [? _]]. Qed.

Lemma state_at_elem t k d x :
  wf t -> (k, d) ∈ elems t -> r_min k <= x <= r_max k -> state_at (elems t) x = Some d.
Proof. intros [_ Hs] ??. apply state_at_Some; [by apply sorted_functional|eauto]. Qed.

Lemma absorbs_left_bound key es mn ls es1 :
  range_ok key -> Forall (fun e => range_ok e.1) es -> es ≡ₚ ls ++ es1 ->
  absorbs_left key es mn ls ->
  0 <= mn <= r_min key /\
  forall x, mn <= x < r_min key -> exists k, (k, Free) ∈ ls /\ r_min k <= x <= r_max k.
Proof.
  intros (?&_) Hok Hp [(->&->&_)|(k&->&?&->)]; [split; lia|].
  rewrite Hp in Hok. apply Forall_cons in Hok as [(?&_) _]. cbn in *.
  split; [lia|]. intros x ?. exists k. split; [left|lia].
Qed.

Lemma absorbs_right_bound key es mx rs es1 :
  range_ok key -> Forall (fun e => range_ok e.1) es -> es ≡ₚ rs ++ es1 ->
  absorbs_right key es mx rs ->
  r_max key <= mx <= u64_max /\
  forall x, r_max key < x <= mx -> exists k, (k, Free) ∈ rs /\ r_min k <= x <= r_max k.
Proof.
  intros (?&?&_) Hok Hp [(->&->&_)|(k&->&?&->)]; [split; lia|].
  rewrite Hp in Hok. apply Forall_cons in Hok as [(?&?&_) _]. cbn in *.
  split; [lia|]. intros x ?. exists k. split; [left|lia].
Qed.

(** The entries other than [key] and its absorbed neighbours stay clear of the
    merged range. *)
Lemma merged_disjoint t key d es mn mx ls rs es' :
  wf t -> elems t ≡ₚ (key, d) :: es -> es ≡ₚ ls ++ rs ++ es' ->
  absorbs_left key es mn ls -> absorbs_right key es mx rs ->
  disjoint_from (mkRange mn mx) es'.
Proof.
  intros Hwf Hp Hes Hl Hr. apply Forall_forall. intros e He. cbn.
  assert (Hdis : forall k dk rest, elems t ≡ₚ (k, dk) :: rest -> e ∈ rest ->
      range_ok k /\ (r_max k < r_min e.1 \/ r_max e.1 < r_min k)).
  { intros k dk rest Hq Hin. destruct (sorted_perm_cons (elems t) k dk rest) as [? Hd];
      [apply Hwf|done|]. unfold disjoint_from in Hd. rewrite Forall_forall in Hd. auto. }
  destruct (sorted_elem_ok (elems t) e) as (?&_); [apply Hwf|rewrite Hp, Hes; set_solver|].
  destruct (Hdis key d es) as [(?&_) ?]; [done|rewrite Hes; set_solver|].
  rewrite Hes in Hp.
  destruct Hl as [(->&->&_)|(kl&->&?&->)], Hr as [(->&->&_)|(kr&->&?&->)]; cbn in Hp.
  - done.
  - destruct (Hdis kr Free ((key, d) :: es')) as [(?&_) ?]; [rewrite Hp; solve_Permutation|set_solver|lia].
  - destruct (Hdis kl Free ((key, d) :: es')) as [(?&_) ?]; [rewrite Hp; solve_Permutation|set_solver|lia].
  - destruct (Hdis kl Free ((key, d) :: (kr, Free) :: es')) as [(?&_) ?];
      [rewrite Hp; solve_Permutation|set_solver|].
    destruct (Hdis kr Free ((key, d) :: (kl, Free) :: es')) as [(?&_) ?];
      [rewrite Hp; solve_Permutation|set_solver|lia].
Qed.

Lemma it_free_cases t key d es :
  wf t -> elems t ≡ₚ (key, d) :: es ->
  (exists x, in_u64 x /\ state_at (elems t) x = None) ->
  exists t' mn mx ls rs es', it_free t key = Ret (state_value d, t') /\ wf t' /\
    es ≡ₚ ls ++ rs ++ es' /\ absorbs_left key es mn ls /\ absorbs_right key es mx rs /\
    elems t' ≡ₚ (mkRange mn mx, Free) :: es'.
Proof.
  intros Hwf Hp (x0&Hx0&Hnone).
  destruct (sorted_perm_cons (elems t) key d es) as [Hk Hd]; [apply Hwf|done|].
  pose proof (sorted_Forall_ok t Hwf) as Hok. rewrite Hp, Forall_cons in Hok. destruct Hok as [_ Hok].
  destruct (it_delete_ok t key d es Hwf Hp) as (t1&Et1&Hwf1&Hp1).
  destruct (merge_left t1 key es) as (mn&ls&es1&Emn&Hl&Habl&Hdell); [done..|].
  destruct (merge_right t1 key es) as (mx&rs&es1'&Emx&Hr&Habr&Hdelr); [done..|].
  destruct (absorbs_both key es mn mx ls rs es1 es1') as (es2&Hes2); [done..|].
  destruct (Hdell t1 es1) as (t2&Et2&Hwf2&Hp2); [done|by rewrite Hp1|].
  destruct (Hdelr t2 es2) as (t3&Et3&Hwf3&Hp3); [done|by rewrite Hp2|].
  assert (Hes : es ≡ₚ ls ++ rs ++ es2) by (by rewrite Hl, Hes2).
  destruct (absorbs_left_bound key es mn ls es1) as [Hbl Hcl]; [done..|].
  destruct (absorbs_right_bound key es mx rs es1') as [Hbr Hcr]; [done..|].
  assert (Hin : forall e, e ∈ (key, d) :: ls ++ rs -> e ∈ elems t)
    by (intros e; rewrite Hp, Hes; set_solver).
  destruct (it_insert_ok t3 (mkRange mn mx) None) as (t4&Et4&Hwf4&Hp4); [done|..].
  - destruct Hk as (?&?&?). split_and!; cbn; [lia..|]. intros [-> ->].
    assert (exists k dk, (k, dk) ∈ elems t /\ r_min k <= x0 <= r_max k) as (k&dk&?&?).
    { destruct (decide (x0 < r_min key)), (decide (r_max key < x0)).
      1,2: destruct (Hcl x0) as (k&?&?); [ulia|]; exists k, Free; split; [apply Hin|]; set_solver.
      - destruct (Hcr x0) as (k&?&?); [ulia|]; exists k, Free; split; [apply Hin|]; set_solver.
      - exists key, d. split; [apply Hin; left|lia]. }
    by erewrite state_at_elem in Hnone by eauto.
  - eapply disjoint_from_perm; [done|]. by apply (merged_disjoint t key d es mn mx ls rs).
  - exists t4, mn, mx, ls, rs, es2. split_and!; auto.
    + unfold it_free. rewrite Et1. cbn [mbind outcome_bind]. rewrite Emn. cbn [mbind outcome_bind].
      rewrite Emx. cbn [mbind outcome_bind]. rewrite Et2. cbn [mbind outcome_bind].
      rewrite Et3. cbn [mbind outcome_bind]. by rewrite Et4.
    + by rewrite Hp4, Hp3.
Qed.

(** ** What both operations do to the points *)

Lemma state_at_alloc t t' k r es x :
  wf t -> wf t' -> within r k -> elems t ≡ₚ (k, Free) :: es ->
  elems t' ≡ₚ (r, Allocated) :: left_rest k r ++ right_rest k r ++ es ->
  state_at (elems t') x = if inside x r then Some Allocated else state_at (elems t) x.
Proof.
  intros [_ Hs] [_ Hs'] (?&?&?) Hp Hp'.
  rewrite (state_at_perm _ _ x Hs Hp), (state_at_perm _ _ x Hs' Hp').
  unfold left_rest, right_rest, inside. cbn.
  repeat (zcase; cbn; try lia); done.
Qed.

Lemma state_at_skip ks es x :
  Forall (fun e => ~ (r_min e.1 <= x <= r_max e.1)) ks ->
  state_at (ks ++ es) x = state_at es x.
Proof.
  induction 1 as [|[k d] ks Hk _ IH]; cbn in *; [done|].
  repeat (zcase; cbn; try lia); done.
Qed.

Lemma state_at_merge t t' key d es mn mx ls rs es' x :
  wf t -> wf t' -> elems t ≡ₚ (key, d) :: es -> es ≡ₚ ls ++ rs ++ es' ->
  absorbs_left key es mn ls -> absorbs_right key es mx rs ->
  elems t' ≡ₚ (mkRange mn mx, Free) :: es' ->
  state_at (elems t') x = if inside x key then Some Free else state_at (elems t) x.
Proof.
  intros Hwf [_ Hs'] Hp Hes Hl Hr Hp'. pose proof Hwf as [_ Hs].
  destruct (sorted_perm_cons (elems t) key d es) as [(Hk&_) _]; [done..|].
  pose proof (sorted_Forall_ok t Hwf) as Hok. rewrite Hp, Hes in Hok.
  rewrite Hes in Hp. rewrite (state_at_perm _ _ x Hs Hp), (state_at_perm _ _ x Hs' Hp').
  unfold inside. cbn.
  destruct Hl as [(->&->&_)|(kl&->&?&->)], Hr as [(->&->&_)|(kr&->&?&->)]; cbn in *;
    rewrite !Forall_cons in Hok; unfold range_ok in Hok; cbn in Hok;
    repeat (zcase; cbn; try lia); done.
Qed.

Lemma sorted_unique_at es k1 d1 k2 d2 x :
  sorted es -> (k1, d1) ∈ es -> (k2, d2) ∈ es ->
  r_min k1 <= x <= r_max k1 -> r_min k2 <= x <= r_max k2 -> k1 = k2.
Proof.
  intros Hs H1 H2 ??. apply elem_of_Permutation in H1 as [es' Hp]. rewrite Hp in H2.
  apply elem_of_cons in H2 as [[= -> _]|H2]; [done|].
  apply (sorted_perm_cons es) in Hp as [_ Hd]; [|done].
  unfold disjoint_from in Hd. rewrite Forall_forall in Hd. specialize (Hd _ H2). cbn in Hd. lia.
Qed.

Lemma sorted_perm_eq es es' : sorted es -> sorted es' -> es ≡ₚ es' -> es = es'.
Proof.
  intros [Hok Hs] [_ Hs'] Hp. apply (StronglySorted_unique_strong before); auto.
  intros a b Ha Hb Hab Hba. rewrite Forall_forall in Hok.
  destruct (Hok _ Ha) as (?&_). rewrite <- Hp in Hb. destruct (Hok _ Hb) as (?&_).
  unfold before in *. lia.
Qed.

(** Releasing a just allocated range absorbs exactly the two rests it was cut from. *)
Lemma absorbs_left_rest k r es all es' mn (ls : list (Range * NodeState T)) :
  sorted all -> coalesced ((k, Free) :: es) -> within r k ->
  all ≡ₚ (r, Allocated) :: left_rest k r ++ right_rest k r ++ es ->
  left_rest k r ++ right_rest k r ++ es ≡ₚ ls ++ es' ->
  absorbs_left r (left_rest k r ++ right_rest k r ++ es) mn ls ->
  ls = left_rest k r /\ mn = r_min k.
Proof.
  intros Hs Hco (?&?&?) Hp Hes Hl.
  destruct Hl as [(->&->&Hno)|(q&->&Hq&->)].
  - unfold left_rest in *. destruct (Z.ltb_spec (r_min k) (r_min r)); [|split; [done|lia]].
    exfalso. apply (Hno (mkRange (r_min k) (r_min r - 1))); [set_solver|cbn; lia].
  - assert (Hin : (q, Free) ∈ left_rest k r ++ right_rest k r ++ es) by (rewrite Hes; left).
    assert (range_ok q) as (?&_).
    { apply (sorted_elem_ok _ (q, Free) Hs). rewrite Hp. by right. }
    unfold left_rest. destruct (Z.ltb_spec (r_min k) (r_min r)).
    + assert (q = mkRange (r_min k) (r_min r - 1)) as ->; [|done].
      apply (sorted_unique_at all q Free _ Free (r_min r - 1) Hs); [..|lia|cbn; lia];
        rewrite Hp; right; [done|]. unfold left_rest. rewrite (proj2 (Z.ltb_lt _ _)) by lia. left.
    + exfalso. unfold left_rest in Hin. rewrite (proj2 (Z.ltb_ge _ _)) in Hin by lia. cbn in Hin.
      apply elem_of_app in Hin as [Hin|Hin].
      * unfold right_rest in Hin. destruct (Z.ltb_spec (r_max r) (r_max k)); [|set_solver].
        apply list_elem_of_singleton in Hin as [= ->]. cbn in *. lia.
      * apply (Hco q k); [by right|left|lia].
Qed.

Lemma absorbs_right_rest k r es all es' mx (rs : list (Range * NodeState T)) :
  sorted all -> coalesced ((k, Free) :: es) -> within r k ->
  all ≡ₚ (r, Allocated) :: left_rest k r ++ right_rest k r ++ es ->
  left_rest k r ++ right_rest k r ++ es ≡ₚ rs ++ es' ->
  absorbs_right r (left_rest k r ++ right_rest k r ++ es) mx rs ->
  rs = right_rest k r /\ mx = r_max k.
Proof.
  intros Hs Hco (?&?&?) Hp Hes Hr.
  destruct Hr as [(->&->&Hno)|(q&->&Hq&->)].
  - unfold right_rest in *. destruct (Z.ltb_spec (r_max r) (r_max k)); [|split; [done|lia]].
    exfalso. apply (Hno (mkRange (r_max r + 1) (r_max k))); [set_solver|cbn; lia].
  - assert (Hin : (q, Free) ∈ left_rest k r ++ right_rest k r ++ es) by (rewrite Hes; left).
    assert (range_ok q) as (?&_).
    { apply (sorted_elem_ok _ (q, Free) Hs). rewrite Hp. by right. }
    unfold right_rest. destruct (Z.ltb_spec (r_max r) (r_max k)).
    + assert (q = mkRange (r_max r + 1) (r_max k)) as ->; [|done].
      apply (sorted_unique_at all q Free _ Free (r_max r + 1) Hs); [..|lia|cbn; lia];
        rewrite Hp; right; [done|]. unfold right_rest. rewrite (proj2 (Z.ltb_lt (r_max r) _)) by lia.
      set_solver.
    + exfalso. unfold right_rest in Hin. rewrite (proj2 (Z.ltb_ge (r_max r) _)) in Hin by lia.
      cbn in Hin. apply elem_of_app in Hin as [Hin|Hin].
      * unfold left_rest in Hin. destruct (Z.ltb_spec (r_min k) (r_min r)); [|set_solver].
        apply list_elem_of_singleton in Hin as [= ->]. cbn in *. lia.
      * apply (Hco k q); [left|by right|lia].
Qed.

Lemma wf_perm_eq t t' : wf t -> wf t' -> elems t ≡ₚ elems t' -> elems t = elems t'.
Proof. intros [_ ?] [_ ?]. by apply sorted_perm_eq. Qed.

Lemma coalesced_perm es es' : es ≡ₚ es' -> coalesced es -> coalesced es'.
Proof. intros Hp Hc k1 k2. rewrite <- Hp. apply Hc. Qed.

Lemma coalesced_alloc k r es (all : list (Range * NodeState T)) :
  coalesced ((k, Free) :: es) -> sorted all -> within r k ->
  all ≡ₚ (r, Allocated) :: left_rest k r ++ right_rest k r ++ es -> coalesced all.
Proof.
  intros Hc Hs (?&?&?) Hp. apply (coalesced_perm _ _ (symmetry Hp)).
  assert (Hfree : forall q, (q, Free) ∈ (r, Allocated) :: left_rest k r ++ right_rest k r ++ es ->
     (r_min q = r_min k /\ r_max q + 1 = r_min r) \/
     (r_min q = r_max r + 1 /\ r_max q = r_max k) \/ (q, Free) ∈ es).
  { intros q. unfold left_rest, right_rest. rewrite elem_of_cons, !elem_of_app.
    intros [[=]|[Hq|[Hq|Hq]]]; [..|by auto];
      (case_match; [|set_solver]); apply list_elem_of_singleton in Hq as [= ->]; cbn; lia. }
  assert (Hno : forall q x, (q, Free) ∈ all -> r_min q <= x <= r_max q ->
     ~ (r_min r <= x <= r_max r)).
  { intros q x Hq ??. discriminate (sorted_functional all Hs x r Allocated q Free); auto.
    rewrite Hp. left. }
  intros q1 q2 Hq1 Hq2 Heq. rewrite <- Hp in Hq1, Hq2.
  destruct (sorted_elem_ok _ _ Hs Hq1) as (?&_), (sorted_elem_ok _ _ Hs Hq2) as (?&_). cbn in *.
  pose proof (Hno _ (r_min r) Hq2). pose proof (Hno _ (r_max r) Hq1). rewrite Hp in Hq1, Hq2.
  destruct (Hfree _ Hq1) as [?|[?|Hin1]], (Hfree _ Hq2) as [?|[?|Hin2]]; try lia.
  - apply (Hc k q2); [left|by right|lia].
  - apply (Hc q1 k); [by right|left|lia].
  - apply (Hc q1 q2); [by right..|done].
Qed.

Lemma coalesced_merge t key d es mn mx ls rs es' :
  wf t -> elems t ≡ₚ (key, d) :: es -> es ≡ₚ ls ++ rs ++ es' ->
  absorbs_left key es mn ls -> absorbs_right key es mx rs ->
  coalesced (elems t) -> coalesced ((mkRange mn mx, @Free T) :: es').
Proof.
  intros Hwf Hp Hes Hl Hr Hc.
  destruct (sorted_perm_cons (elems t) key d es) as [Hk Hd]; [apply Hwf|done|].
  pose proof Hk as (?&_).
  assert (Hsub : forall e, e ∈ ls ++ rs ++ es' -> e ∈ elems t)
    by (intros e ?; rewrite Hp; right; by rewrite Hes).
  assert (Hleft : forall q, (q, Free) ∈ es' -> r_max q + 1 <> mn).
  { intros q Hq. destruct Hl as [(->&->&Hno)|(kl&->&?&->)].
    - apply Hno. rewrite Hes. set_solver.
    - apply Hc; apply Hsub; set_solver. }
  assert (Hright : forall q, (q, Free) ∈ es' -> mx + 1 <> r_min q).
  { intros q Hq. destruct Hr as [(->&->&Hno)|(kr&->&?&->)].
    - apply Hno. rewrite Hes. set_solver.
    - apply Hc; apply Hsub; set_solver. }
  pose proof (sorted_Forall_ok t Hwf) as Hok. rewrite Hp, Forall_cons in Hok.
  destruct (absorbs_left_bound key es mn ls (rs ++ es')) as [? _]; [done|apply Hok|done..|].
  destruct (absorbs_right_bound key es mx rs (ls ++ es')) as [? _];
    [done|apply Hok|rewrite Hes; solve_Permutation|done|].
  intros k1 k2 [[= ->]|?]%elem_of_cons [[= ->]|?]%elem_of_cons; cbn; [lia|auto|auto|].
  apply Hc; apply Hsub; set_solver.
Qed.
End alloc.
