(* ===== verification/IntervalTreeProps.v ===== *)
(** * Properties of the interval tree

    The contracts of the public operations of [IntervalTree], stated on the
    entries of the tree and on the state of every point of the resource space. *)
From stdpp Require Import sorting list_tactics.
From S2P Require Import Prelude IntervalTree IntervalTreeFacts IntervalTreeAlloc.

(** A pool with two free ranges, as [ResourceManager] builds them, used by the
    examples below. *)
Definition demo_pool : IntervalTree Z :=
  mkIntervalTree (Node (mkRange 16 31) Free Leaf
    (Node (mkRange 64 127) (Valued 7) Leaf Leaf 1 127) 2 127).

Section props.
Context {T : Type}.
Implicit Types (n : tree T) (t : IntervalTree T) (es : list (Range * NodeState T)).

(** No stored range reaches the top of the address space, so [base + size] of an
    allocation does not overflow. *)
Definition below_top t : Prop := Forall (fun e => r_max e.1 < u64_max) (elems t).

(** ** Height *)

Lemma avl_size n : avl n -> 2 ^ (height n / 2) <= Z.of_nat (length (elements n)) + 1.
Proof.
  induction n as [|k d l IHl r IHr h m]; cbn [avl height elements]; intros Ha; [done|].
  destruct Ha as (Hl&Hr&->&Hb&_). specialize (IHl Hl). specialize (IHr Hr).
  pose proof (height_nonneg _ Hl). pose proof (height_nonneg _ Hr).
  rewrite length_app, Nat2Z.inj_add. cbn [length]. rewrite Nat2Z.inj_succ.
  set (h := Z.max (height l) (height r) + 1).
  destruct (Z.eq_dec h 1) as [E|]; [rewrite E; change (2 ^ (1 / 2)) with 1; lia|].
  assert (Hh : h / 2 = (h - 2) / 2 + 1) by (rewrite <- Z.div_add by lia; f_equal; lia).
  rewrite Hh, Z.pow_add_r by (try apply Z.div_pos; lia).
  assert (2 ^ ((h - 2) / 2) <= 2 ^ (height l / 2))
    by (apply Z.pow_le_mono_r, Z.div_le_mono; lia).
  assert (2 ^ ((h - 2) / 2) <= 2 ^ (height r / 2))
    by (apply Z.pow_le_mono_r, Z.div_le_mono; lia).
  lia.
Qed.

Lemma sorted_length es lo :
  sorted es -> Forall (fun e => lo <= r_min e.1) es -> lo <= u64_max + 1 ->
  Z.of_nat (length es) <= u64_max + 1 - lo.
Proof.
  revert lo. induction es as [|e es IH]; cbn [length]; intros lo Hs Hlo Hle; [lia|].
  apply (sorted_middle [] e es) in Hs as (_&Hs&(?&?&_)&_&Ha).
  apply Forall_cons in Hlo as [Hlo _].
  specialize (IH (r_min e.1 + 1) Hs). rewrite Nat2Z.inj_succ.
  assert (Z.of_nat (length es) <= u64_max + 1 - (r_min e.1 + 1)); [|lia].
  apply IH; [|lia]. eapply Forall_impl; [exact Ha|]. unfold before. intros. lia.
Qed.

(** The tree is balanced: because its ranges are disjoint 64-bit ranges, its
    height, and so the depth of every recursion and the cached [u32] height, is at
    most 129. *)
Theorem height_bound t : wf t -> 0 <= height (root t) <= 129.
Proof.
  intros [Ha Hs]. split; [by apply height_nonneg|].
  pose proof (avl_size _ Ha) as Hsz.
  assert (Z.of_nat (length (elems t)) <= u64_max + 1 - 0) as Hlen.
  { apply sorted_length; [done| |ulia]. destruct Hs as [Hok _].
    eapply Forall_impl; [exact Hok|]. intros ? (?&_). lia. }
  unfold elems in Hlen. destruct (Z.le_gt_cases (height (root t)) 129); [done|].
  assert (65 <= height (root t) / 2) by (apply Z.div_le_lower_bound; lia).
  assert (2 ^ 65 <= 2 ^ (height (root t) / 2)) by (apply Z.pow_le_mono_r; lia).
  ulia.
Qed.

(** ** Insertion, deletion, lookup and update *)

(** [insert] keeps the tree well formed and adds exactly the new entry when the
    range is disjoint from every stored range, and panics when it is not. *)
Theorem insert_spec t key data :
  wf t -> range_ok key ->
  (disjoint_from key (elems t) ->
     exists t', it_insert t key data = Ret t' /\ wf t' /\
       elems t' ≡ₚ (key, match data with Some x => Valued x | None => Free end) :: elems t) /\
  (~ disjoint_from key (elems t) -> it_insert t key data = Panic).
Proof.
  intros Hwf Hok. split; [by apply it_insert_ok|]. intros Hd.
  unfold it_insert. destruct Hwf as [_ Hs]. by rewrite node_insert_panic.
Qed.

(** [delete] never panics on a well-formed tree; it removes exactly the entry
    with that key and returns its value, and leaves the entries alone when there is
    none. *)
Theorem delete_spec t key :
  wf t ->
  (forall d es, elems t ≡ₚ (key, d) :: es ->
     exists t', it_delete t key = Ret (state_value d, t') /\ wf t' /\ elems t' ≡ₚ es) /\
  ((forall d, (key, d) ∉ elems t) ->
     exists t', it_delete t key = Ret (None, t') /\ wf t' /\ elems t' = elems t).
Proof. intros Hwf. split; [intros d es; by apply it_delete_ok|by apply it_delete_missing]. Qed.

Lemma get_superset_iff t key k d :
  wf t -> r_min key <= r_max key ->
  it_get_superset t key = Some (k, d) <->
  (k, d) ∈ elems t /\ r_min k <= r_min key /\ r_max key <= r_max k.
Proof.
  intros [_ Hs] Hkey. unfold it_get_superset.
  pose proof (search_superset_spec (root t) key Hs Hkey) as Hsp.
  destruct (search_superset (root t) key) as [n'|]; cbn.
  - destruct Hsp as (k'&d'&?&?&?&?&->&Hin&Hc). unfold Range_contain in Hc. zbool. cbn. split.
    + by intros [= -> ->].
    + intros (Hin'&?&?). assert (k = k') as ->.
      { apply (sorted_unique_at (elems t) k d k' d' (r_min key)); auto; lia. }
      by rewrite (sorted_functional _ Hs (r_min key) k' d k' d') by (auto; lia).
  - split; [done|]. intros (Hin&?&?). specialize (Hsp _ _ Hin).
    unfold Range_contain in Hsp. apply andb_false_iff in Hsp. rewrite !Z.leb_gt in Hsp. lia.
Qed.

Lemma get_iff t key d : wf t -> it_get t key = Some d <-> (key, d) ∈ elems t.
Proof.
  intros [_ Hs]. unfold it_get. pose proof (search_spec (root t) key Hs) as Hsp.
  destruct (search (root t) key) as [n'|]; cbn.
  - destruct Hsp as (d'&?&?&?&?&->&Hin). cbn. split; [by intros [= ->]|].
    intros Hin'. destruct (sorted_elem_ok _ _ Hs Hin) as (?&_).
    by rewrite (sorted_functional _ Hs (r_min key) key d key d') by (auto; cbn in *; lia).
  - split; [done|]. intros Hin. by destruct (Hsp d).
Qed.

Lemma get_by_id_eq t x : wf t -> it_get_by_id t x = state_at (elems t) x ≫= state_value.
Proof.
  intros Hwf. pose proof Hwf as [_ Hs].
  transitivity (it_get_superset t (Range_new_point x) ≫= fun kd => state_value kd.2).
  { unfold it_get_by_id, it_get_superset. by destruct (search_superset _ _). }
  destruct (it_get_superset t (Range_new_point x)) as [[k d]|] eqn:E.
  - apply get_superset_iff in E as (Hin&?&?); [|done|cbn; lia]. cbn in *.
    by rewrite (state_at_elem t k d x) by auto.
  - destruct (state_at (elems t) x) as [d|] eqn:E'; [|done]. exfalso.
    apply state_at_Some in E' as (k&Hin&?); [|by apply sorted_functional].
    assert (it_get_superset t (Range_new_point x) = Some (k, d)); [|congruence].
    apply get_superset_iff; cbn; auto; lia.
Qed.

(** The three lookups agree with the entries: [get] finds exactly the stored
    keys, [get_superset] finds the entry that covers a range whenever there is one,
    and [get_by_id] reads the value at a point. *)
Theorem lookup_spec t :
  wf t ->
  (forall key d, it_get t key = Some d <-> (key, d) ∈ elems t) /\
  (forall key k d, r_min key <= r_max key ->
     it_get_superset t key = Some (k, d) <->
     (k, d) ∈ elems t /\ r_min k <= r_min key /\ r_max key <= r_max k) /\
  (forall x, it_get_by_id t x = state_at (elems t) x ≫= state_value).
Proof.
  intros Hwf. split_and!; intros.
  - by apply get_iff.
  - by apply get_superset_iff.
  - by apply get_by_id_eq.
Qed.

(** [update] implements the documented state machine: on an allocated or valued
    entry it stores the value and returns the previous one, on a free entry it panics,
    and on a missing key it does nothing. *)
Theorem update_spec t key x :
  wf t ->
  (forall d es, elems t ≡ₚ (key, d) :: es ->
     if is_free d then it_update t key x = Panic
     else exists t', it_update t key x = Ret (state_value d, t') /\ wf t' /\
            elems t' ≡ₚ (key, Valued x) :: es) /\
  ((forall d, (key, d) ∉ elems t) -> it_update t key x = Ret (None, t)).
Proof.
  intros Hwf. split.
  - intros d es Hp. destruct (is_free d) eqn:Ef.
    + destruct d; try done. unfold it_update. destruct Hwf as [Ha Hs].
      pose proof (node_update_found (root t) key Free (Valued x) Ha Hs) as Hu. cbn in Hu.
      unfold elems in Hp. rewrite Hu; [done|]. rewrite Hp. left.
    + apply it_update_ok; [done..|]. by intros ->.
  - intros Hin. unfold it_update. rewrite node_update_missing by done. cbn. by destruct t.
Qed.

(** ** Allocation and release *)

Lemma below_top_uncovered t : wf t -> below_top t -> state_at (elems t) u64_max = None.
Proof.
  intros [_ Hs] Htop. destruct (state_at (elems t) u64_max) as [d|] eqn:E; [|done].
  apply state_at_Some in E as (k&Hin&?); [|by apply sorted_functional].
  unfold below_top in Htop. rewrite Forall_forall in Htop. specialize (Htop _ Hin). cbn in Htop. lia.
Qed.

(** C1: [allocate] never panics on a well-formed tree; a range it returns has the
    requested size, lies within the bounds, is aligned, was free at every point, and
    becomes allocated while no other point changes state. *)
Theorem allocate_sound t c :
  wf t -> c_ok c -> below_top t ->
  exists o t', it_allocate t c = Ret (o, t') /\ wf t' /\
    match o with
    | None => t' = t
    | Some r =>
        (r, Allocated) ∈ elems t' /\
        r_max r = r_min r + c_size c - 1 /\ c_min c <= r_min r /\ r_max r <= c_max c /\
        aligned (c_align c) (r_min r) /\
        (forall x, inside x r = true -> state_at (elems t) x = Some Free) /\
        (forall x, state_at (elems t') x =
           if inside x r then Some Allocated else state_at (elems t) x)
    end.
Proof.
  intros Hwf Hc Htop.
  destruct (it_allocate_cases t c Hwf Hc (or_intror Htop)) as
    [(k&r&es&t'&E&Hwf'&Hsz&Hp&Hp'&Hw&Hmx&Hfit&_)|[E _]].
  - exists (Some r), t'. pose proof Hfit as (_&?&?&?). pose proof Hw as (?&?&?).
    split_and!; auto; try lia; [rewrite Hp'; left|..|].
    + intros x [? ?]%inside_spec. eapply (state_at_elem t k); [done|rewrite Hp; left|lia].
    + intros x. by apply (state_at_alloc t t' k r es).
  - by exists None, t.
Qed.

(** C4: [allocate] is complete and first fit: it returns [None] only when no free
    range has an aligned base that serves the constraint, and otherwise the base it
    returns is the lowest one. *)
Theorem allocate_complete t c :
  wf t -> c_ok c -> below_top t -> 0 < c_size c ->
  exists o t', it_allocate t c = Ret (o, t') /\
    match o with
    | None => forall k y, (k, Free) ∈ elems t -> ~ fits c k y
    | Some r => (exists k, (k, Free) ∈ elems t /\ fits c k (r_min r)) /\
        forall k y, (k, Free) ∈ elems t -> fits c k y -> r_min r <= y
    end.
Proof.
  intros Hwf Hc Htop Hpos.
  destruct (it_allocate_cases t c Hwf Hc (or_intror Htop)) as
    [(k&r&es&t'&E&_&_&Hp&_&_&_&Hfit&Hleast)|[E [?|Hnone]]]; [|lia|by exists None, t].
  exists (Some r), t'. split_and!; auto. exists k. split; [rewrite Hp; left|done].
Qed.

(** C2: [free] of a stored range never panics as long as the tree does not cover the
    whole 64-bit space; it returns the value of the range, makes exactly its points
    free, and keeps the tree well formed. *)
Theorem free_spec t key d es :
  wf t -> elems t ≡ₚ (key, d) :: es ->
  (exists x, in_u64 x /\ state_at (elems t) x = None) ->
  exists t', it_free t key = Ret (state_value d, t') /\ wf t' /\
    forall x, state_at (elems t') x =
      if inside x key then Some Free else state_at (elems t) x.
Proof.
  intros Hwf Hp Hex.
  destruct (it_free_cases t key d es Hwf Hp Hex) as (t'&mn&mx&ls&rs&es'&E&Hwf'&Hes&Hl&Hr&Hp').
  exists t'. split_and!; auto. intros x. by apply (state_at_merge t t' key d es mn mx ls rs es').
Qed.

(** Allocation and release keep the pool coalesced: no two adjacent ranges are
    both free after [allocate] or [free] if none were before. *)
Theorem coalesced_preserved t :
  wf t -> coalesced (elems t) ->
  (forall c o t', c_ok c -> below_top t -> it_allocate t c = Ret (o, t') ->
     coalesced (elems t')) /\
  (forall key d es o t', elems t ≡ₚ (key, d) :: es ->
     (exists x, in_u64 x /\ state_at (elems t) x = None) ->
     it_free t key = Ret (o, t') -> coalesced (elems t')).
Proof.
  intros Hwf Hco. split.
  - intros c o t' Hc Htop E.
    destruct (it_allocate_cases t c Hwf Hc (or_intror Htop)) as
      [(k&r&es&t''&E'&[_ Hs']&_&Hp&Hp'&Hw&_)|[E' _]]; rewrite E in E'; simplify_eq; [|done].
    eapply coalesced_alloc; eauto. by eapply coalesced_perm.
  - intros key d es o t' Hp Hex E.
    destruct (it_free_cases t key d es Hwf Hp Hex) as (t''&mn&mx&ls&rs&es'&E'&_&Hes&Hl&Hr&Hp').
    rewrite E in E'. simplify_eq. apply (coalesced_perm _ _ (symmetry Hp')). by apply (coalesced_merge t key d es mn mx ls rs).
Qed.

(** C3: allocating a range and releasing it gives back the same entries: a coalesced
    pool is restored exactly. *)
Theorem allocate_free_roundtrip t c r t1 :
  wf t -> c_ok c -> below_top t -> coalesced (elems t) ->
  it_allocate t c = Ret (Some r, t1) ->
  exists t2, it_free t1 r = Ret (None, t2) /\ wf t2 /\ elems t2 = elems t.
Proof.
  intros Hwf Hc Htop Hco E.
  destruct (it_allocate_cases t c Hwf Hc (or_intror Htop)) as
    [(k&r'&es&t'&E'&Hwf'&_&Hp&Hp'&Hw&_)|[E' _]]; rewrite E in E'; [injection E' as <- <-|done].
  destruct (it_free_cases t1 r Allocated _ Hwf' Hp') as
    (t2&mn&mx&ls&rs&es'&E2&Hwf2&Hes&Hl&Hr&Hp2).
  { exists u64_max. split; [ulia|]. rewrite (state_at_alloc t t1 k r es) by done.
    rewrite below_top_uncovered by done. destruct (inside u64_max r) eqn:Ei; [|done].
    apply inside_spec in Ei. unfold below_top in Htop. rewrite Hp, Forall_cons in Htop.
    destruct Hw as (?&?&?). cbn in Htop. lia. }
  apply (coalesced_perm _ _ Hp) in Hco. pose proof Hwf' as [_ Hs'].
  destruct (absorbs_left_rest k r es (elems t1) (rs ++ es') mn ls) as [-> ->]; auto.
  destruct (absorbs_right_rest k r es (elems t1) (left_rest k r ++ es') mx rs) as [-> ->]; auto.
  { rewrite Hes. solve_Permutation. }
  apply Permutation_app_inv_l, Permutation_app_inv_l in Hes.
  exists t2. split_and!; auto. apply wf_perm_eq; auto. rewrite Hp2, Hp, Hes. by destruct k.
Qed.
End props.

(** ** The properties at work on [demo_pool] *)

Lemma demo_wf : wf demo_pool.
Proof.
  split; [cbn; lia|]. split; cbn.
  - repeat constructor; cbn; ulia.
  - repeat constructor; unfold before; cbn; lia.
Qed.

Lemma demo_below_top : below_top demo_pool.
Proof. repeat constructor; cbn; ulia. Qed.

Lemma demo_coalesced : coalesced (elems demo_pool).
Proof.
  intros k1 k2 H1 H2. cbn in *. rewrite !elem_of_cons in H1, H2.
  destruct H1 as [[= ->]|[[=]|[]%not_elem_of_nil]], H2 as [[= ->]|[[=]|[]%not_elem_of_nil]]. done.
Qed.

Lemma demo_constraint_ok : c_ok (with_align (Constraint_new 5) 8).
Proof. split_and!; cbn; ulia. Qed.

Lemma height_bound_witness : 0 <= height (root demo_pool) <= 129.
Proof. apply height_bound, demo_wf. Defined.

Lemma insert_spec_witness :
  (exists t', it_insert demo_pool (mkRange 32 63) (Some 3) = Ret t' /\ wf t') /\
  it_insert demo_pool (mkRange 31 63) (Some 3) = Panic.
Proof.
  destruct (insert_spec demo_pool (mkRange 32 63) (Some 3) demo_wf) as [H _]; [split_and!; cbn; ulia|].
  destruct (insert_spec demo_pool (mkRange 31 63) (Some 3) demo_wf) as [_ H']; [split_and!; cbn; ulia|].
  split.
  - destruct H as (t'&?&?&_); [|eauto]. repeat constructor; cbn; lia.
  - apply H'. intros Hd. apply Forall_cons in Hd as [Hd _]. cbn in Hd. lia.
Defined.

Lemma delete_spec_witness :
  exists t', it_delete demo_pool (mkRange 64 127) = Ret (Some 7, t') /\ wf t'.
Proof.
  destruct (proj1 (delete_spec demo_pool (mkRange 64 127) demo_wf) (Valued 7)
    [(mkRange 16 31, Free)]) as (t'&?&?&_); [cbn; constructor|eauto].
Defined.

Lemma lookup_spec_witness :
  it_get_superset demo_pool (mkRange 70 80) = Some (mkRange 64 127, Valued 7) /\
  it_get_by_id demo_pool 100 = Some 7.
Proof.
  destruct (lookup_spec demo_pool demo_wf) as (_&Hsup&Hid). split.
  - apply Hsup; cbn; [lia|]. split; [set_solver|lia].
  - rewrite Hid. reflexivity.
Defined.

Lemma update_spec_witness :
  it_update demo_pool (mkRange 16 31) 9 = Panic /\
  exists t', it_update demo_pool (mkRange 64 127) 9 = Ret (Some 7, t') /\ wf t'.
Proof.
  destruct (update_spec demo_pool (mkRange 16 31) 9 demo_wf) as [H _].
  destruct (update_spec demo_pool (mkRange 64 127) 9 demo_wf) as [H' _]. split.
  - apply (H Free [(mkRange 64 127, Valued 7)]). reflexivity.
  - destruct (H' (Valued 7) [(mkRange 16 31, Free)]) as (t'&?&?&_); [cbn; constructor|eauto].
Defined.

Lemma allocate_sound_witness :
  exists t', it_allocate demo_pool (with_align (Constraint_new 5) 8) = Ret (Some (mkRange 16 20), t')
    /\ wf t'.
Proof.
  destruct (allocate_sound demo_pool (with_align (Constraint_new 5) 8)) as (o&t'&E&Hwf&_);
    [exact demo_wf|exact demo_constraint_ok|exact demo_below_top|].
  exists t'. split; [|exact Hwf]. rewrite E. f_equal. f_equal.
  vm_compute in E. injection E as <- _. reflexivity.
Defined.

Lemma allocate_complete_witness : ~ fits (Constraint_new 17) (mkRange 16 31) 16.
Proof.
  destruct (allocate_complete demo_pool (Constraint_new 17)) as (o&t'&E&H);
    [exact demo_wf|split_and!; cbn; ulia|exact demo_below_top|done|].
  vm_compute in E. injection E as <- _. apply H. cbn. left.
Defined.

Lemma free_spec_witness :
  exists t', it_free demo_pool (mkRange 64 127) = Ret (Some 7, t') /\
    state_at (elems t') 100 = Some Free.
Proof.
  destruct (free_spec demo_pool (mkRange 64 127) (Valued 7) [(mkRange 16 31, Free)])
    as (t'&E&_&H); [exact demo_wf|cbn; constructor|exists 0; split; [ulia|reflexivity]|].
  exists t'. split; [exact E|]. rewrite H. reflexivity.
Defined.

Lemma coalesced_preserved_witness :
  exists t', it_allocate demo_pool (with_align (Constraint_new 5) 8) = Ret (Some (mkRange 16 20), t')
    /\ coalesced (elems t').
Proof.
  eexists. split; [vm_compute; reflexivity|].
  apply (proj1 (coalesced_preserved demo_pool demo_wf demo_coalesced)
    (with_align (Constraint_new 5) 8) (Some (mkRange 16 20)) _ demo_constraint_ok demo_below_top).
  vm_compute. reflexivity.
Defined.

Lemma allocate_free_roundtrip_witness :
  exists t1 t2, it_allocate demo_pool (with_align (Constraint_new 5) 8) = Ret (Some (mkRange 16 20), t1)
    /\ it_free t1 (mkRange 16 20) = Ret (None, t2) /\ elems t2 = elems demo_pool.
Proof.
  eexists. destruct (allocate_free_roundtrip demo_pool (with_align (Constraint_new 5) 8)
    (mkRange 16 20) (mkIntervalTree (Node (mkRange 21 31) Free
      (Node (mkRange 16 20) Allocated Leaf Leaf 1 20)
      (Node (mkRange 64 127) (Valued 7) Leaf Leaf 1 127) 2 127)))
    as (t2&E2&_&He); [exact demo_wf|exact demo_constraint_ok|exact demo_below_top|
      exact demo_coalesced|vm_compute; reflexivity|].
  exists t2. split; [|split; [exact E2|exact He]]. vm_compute; reflexivity.
Defined.
