(* ===== verification/DeviceResources.v ===== *)
(** * Device resource descriptors

    Model of src/dragonball/dbs_device/src/resources.rs: the constraints a
    device declares ([ResourceConstraint]), the resources it is given
    ([Resource]) and the container of both ([DeviceResources], a [Vec]). *)
From S2P Require Import Prelude.

Inductive ResourceConstraint :=
| RC_PioAddress (range : option (Z * Z)) (align size : Z)
| RC_MmioAddress (range : option (Z * Z)) (align size : Z)
| RC_MemAddress (range : option (Z * Z)) (align size : Z)
| RC_LegacyIrq (irq : option Z)
| RC_PciMsiIrq (size : Z)
| RC_PciMsixIrq (size : Z)
| RC_GenericIrq (size : Z)
| RC_KvmMemSlot (slot : option Z) (size : Z).

Definition new_pio (size : Z) : ResourceConstraint := RC_PioAddress None 1 size.
Definition pio_with_constraints (size : Z) (range : option (Z * Z)) (align : Z)
    : ResourceConstraint := RC_PioAddress range align size.
Definition new_mmio (size : Z) : ResourceConstraint := RC_MmioAddress None 0x1000 size.
Definition mmio_with_constraints (size : Z) (range : option (Z * Z)) (align : Z)
    : ResourceConstraint := RC_MmioAddress range align size.
Definition new_mem (size : Z) : ResourceConstraint := RC_MemAddress None 0x1000 size.
Definition mem_with_constraints (size : Z) (range : option (Z * Z)) (align : Z)
    : ResourceConstraint := RC_MemAddress range align size.
Definition new_legacy_irq (irq : option Z) : ResourceConstraint := RC_LegacyIrq irq.
Definition new_pci_msi_irq (size : Z) : ResourceConstraint := RC_PciMsiIrq size.
Definition new_pci_msix_irq (size : Z) : ResourceConstraint := RC_PciMsixIrq size.
Definition new_generic_irq (size : Z) : ResourceConstraint := RC_GenericIrq size.
Definition new_kvm_mem_slot (size : Z) (slot : option Z) : ResourceConstraint :=
  RC_KvmMemSlot slot size.

Inductive MsiIrqType := PciMsi | PciMsix | GenericMsi.

#[global] Instance MsiIrqType_eq_dec : EqDecision MsiIrqType.
Proof. solve_decision. Defined.

Inductive Resource :=
| PioAddressRange (base size : Z)
| MmioAddressRange (base size : Z)
| MemAddressRange (base size : Z)
| LegacyIrq (irq : Z)
| MsiIrq (ty : MsiIrqType) (base size : Z)
| MacAddress (mac : string)
| KvmMemSlot (slot : Z).

#[global] Instance Resource_eq_dec : EqDecision Resource.
Proof. solve_decision. Defined.

Record DeviceResources := mkDeviceResources { dr_entries : list Resource }.

Definition dr_new : DeviceResources := mkDeviceResources [].

Definition dr_append (r : DeviceResources) (entry : Resource) : DeviceResources :=
  mkDeviceResources (dr_entries r ++ [entry]).

Definition get_pio_address_ranges (r : DeviceResources) : list (Z * Z) :=
  omap (fun e => match e with PioAddressRange b s => Some (b, s) | _ => None end) (dr_entries r).

Definition get_mmio_address_ranges (r : DeviceResources) : list (Z * Z) :=
  omap (fun e => match e with MmioAddressRange b s => Some (b, s) | _ => None end) (dr_entries r).

Definition get_mem_address_ranges (r : DeviceResources) : list (Z * Z) :=
  omap (fun e => match e with MemAddressRange b s => Some (b, s) | _ => None end) (dr_entries r).

(** The [for] loops that return from the first matching entry. *)
Fixpoint first_entry {A} (f : Resource -> option A) (l : list Resource) : option A :=
  match l with
  | [] => None
  | e :: l' => match f e with Some a => Some a | None => first_entry f l' end
  end.

Definition get_legacy_irq (r : DeviceResources) : option Z :=
  first_entry (fun e => match e with LegacyIrq b => Some b | _ => None end) (dr_entries r).

Definition get_msi_irqs (r : DeviceResources) (ty : MsiIrqType) : option (Z * Z) :=
  first_entry (fun e => match e with
    | MsiIrq ty' b s => if decide (ty = ty') then Some (b, s) else None
    | _ => None end) (dr_entries r).

Definition get_pci_msi_irqs (r : DeviceResources) := get_msi_irqs r PciMsi.
Definition get_pci_msix_irqs (r : DeviceResources) := get_msi_irqs r PciMsix.
Definition get_generic_msi_irqs (r : DeviceResources) := get_msi_irqs r GenericMsi.

Definition get_kvm_mem_slots (r : DeviceResources) : list Z :=
  omap (fun e => match e with KvmMemSlot i => Some i | _ => None end) (dr_entries r).

Definition get_mac_address (r : DeviceResources) : option string :=
  first_entry (fun e => match e with MacAddress a => Some a | _ => None end) (dr_entries r).

Definition get_all_resources (r : DeviceResources) : list Resource := dr_entries r.

(** Appending keeps the answer of a first-match getter that already has one. *)
Lemma first_entry_app {A} (f : Resource -> option A) l1 l2 :
  first_entry f (l1 ++ l2) =
    match first_entry f l1 with Some a => Some a | None => first_entry f l2 end.
Proof. induction l1 as [|e l1 IH]; cbn; [done|]. by destruct (f e). Qed.
