(* ===== verification/ResourceManager.v ===== *)
(** * The resource manager of dragonball

    Model of src/dragonball/src/resource_manager.rs for x86_64: one interval
    tree per kind of resource, allocated and released one call at a time (every
    method holds the mutex of the one pool it works on).  The layout constants
    are those of src/dragonball/dbs_boot/src/x86_64/layout.rs; the maximum
    guest physical address, read from /proc/cpuinfo at run time, is a parameter. *)
From S2P Require Import Prelude IntervalTree DeviceResources.

Definition IRQ_BASE : Z := 5.
Definition IRQ_MAX : Z := 15.
Definition MMIO_LOW_START : Z := Z.shiftl 3 30.
Definition MMIO_LOW_END : Z := Z.shiftl 4 30 - 1.
Definition GUEST_MEM_START : Z := 0.

Definition SHARED_IRQ : Z := IRQ_BASE.
Definition MSI_IRQ_BASE : Z := 24.
Definition MSI_IRQ_MAX : Z := 1023.
Definition KVM_USER_MEM_SLOTS : Z := 509.
Definition PIO_MIN : Z := 0.
Definition PIO_MAX : Z := 0xFFFF.
Definition MMIO_SPACE_RESERVED : Z := 0x4000000.

Inductive ResourceError :=
| UnknownResourceType
| InvalidResourceRange (what : string)
| NoAvailResource.

Record ResourceManager := mkResourceManager {
  legacy_irq_pool : IntervalTree unit;
  msi_irq_pool : IntervalTree unit;
  pio_pool : IntervalTree unit;
  mmio_pool : IntervalTree unit;
  mem_pool : IntervalTree unit;
  kvm_mem_slot_pool : IntervalTree unit;
}.

Definition set_legacy_irq_pool (m : ResourceManager) p :=
  mkResourceManager p (msi_irq_pool m) (pio_pool m) (mmio_pool m) (mem_pool m) (kvm_mem_slot_pool m).
Definition set_msi_irq_pool (m : ResourceManager) p :=
  mkResourceManager (legacy_irq_pool m) p (pio_pool m) (mmio_pool m) (mem_pool m) (kvm_mem_slot_pool m).
Definition set_pio_pool (m : ResourceManager) p :=
  mkResourceManager (legacy_irq_pool m) (msi_irq_pool m) p (mmio_pool m) (mem_pool m) (kvm_mem_slot_pool m).
Definition set_mmio_pool (m : ResourceManager) p :=
  mkResourceManager (legacy_irq_pool m) (msi_irq_pool m) (pio_pool m) p (mem_pool m) (kvm_mem_slot_pool m).
Definition set_mem_pool (m : ResourceManager) p :=
  mkResourceManager (legacy_irq_pool m) (msi_irq_pool m) (pio_pool m) (mmio_pool m) p (kvm_mem_slot_pool m).
Definition set_kvm_mem_slot_pool (m : ResourceManager) p :=
  mkResourceManager (legacy_irq_pool m) (msi_irq_pool m) (pio_pool m) (mmio_pool m) (mem_pool m) p.

(** [pool.allocate(c)] followed by [pool.update(k, ())] on success. *)
Definition allocate_update (p : IntervalTree unit) (c : Constraint)
    : outcome (option Range * IntervalTree unit) :=
  '(key, p) ← it_allocate p c;
  match key with
  | Some k => '(_, p) ← it_update p k tt; Ret (Some k, p)
  | None => Ret (None, p)
  end.

Section manager.
(** [GUEST_PHYS_END]: the highest guest physical address. *)
Context (GUEST_PHYS_END : Z).

Definition GUEST_MEM_END : Z := Z.shiftr GUEST_PHYS_END 1.

(** ** ResourceManagerBuilder *)

Definition builder_default : ResourceManager :=
  mkResourceManager it_new it_new it_new it_new it_new it_new.

Definition init_legacy_irq_pool (b : ResourceManager) : outcome ResourceManager :=
  r ← Range_new (IRQ_BASE + 1) IRQ_MAX;
  p ← it_insert (legacy_irq_pool b) r None; Ret (set_legacy_irq_pool b p).

Definition init_msi_irq_pool (b : ResourceManager) : outcome ResourceManager :=
  r ← Range_new MSI_IRQ_BASE MSI_IRQ_MAX;
  p ← it_insert (msi_irq_pool b) r None; Ret (set_msi_irq_pool b p).

Definition init_pio_pool (b : ResourceManager) : outcome ResourceManager :=
  r ← Range_new PIO_MIN PIO_MAX;
  p ← it_insert (pio_pool b) r None; Ret (set_pio_pool b p).

(** Guest memory does not meet the low MMIO window. *)
Definition mem_clear_of_mmio : bool :=
  (GUEST_MEM_END <? MMIO_LOW_START) || (MMIO_LOW_END <? GUEST_MEM_START)
  || (MMIO_LOW_START =? MMIO_LOW_END).

Definition init_mmio_pool_helper (mmio : IntervalTree unit) : outcome (IntervalTree unit) :=
  r ← Range_new MMIO_LOW_START MMIO_LOW_END;
  mmio ← it_insert mmio r None;
  mmio ← (if negb mem_clear_of_mmio then
            let constraint := with_max (with_min (Constraint_new MMIO_SPACE_RESERVED)
              (MMIO_LOW_END - MMIO_SPACE_RESERVED)) 0xffffffff in
            '(key, mmio) ← it_allocate mmio constraint;
            match key with
            | Some k => '(_, mmio) ← it_update mmio k tt; Ret mmio
            | None => Panic
            end
          else Ret mmio);
  if GUEST_MEM_END <? GUEST_PHYS_END then
    b ← uadd u64_max GUEST_MEM_END 1;
    r ← Range_new b GUEST_PHYS_END;
    it_insert mmio r None
  else Ret mmio.

Definition init_mmio_pool (b : ResourceManager) : outcome ResourceManager :=
  p ← init_mmio_pool_helper (mmio_pool b); Ret (set_mmio_pool b p).

Definition init_mem_pool_helper (mem : IntervalTree unit) : outcome (IntervalTree unit) :=
  if mem_clear_of_mmio then
    r ← Range_new GUEST_MEM_START GUEST_MEM_END; it_insert mem r None
  else
    mem ← (if GUEST_MEM_START <? MMIO_LOW_START then
             r ← Range_new GUEST_MEM_START (MMIO_LOW_START - 1); it_insert mem r None
           else Ret mem);
    if MMIO_LOW_END <? GUEST_MEM_END then
      r ← Range_new (MMIO_LOW_END + 1) GUEST_MEM_END; it_insert mem r None
    else Ret mem.

Definition init_mem_pool (b : ResourceManager) : outcome ResourceManager :=
  p ← init_mem_pool_helper (mem_pool b); Ret (set_mem_pool b p).

Definition init_kvm_mem_slot_pool (b : ResourceManager) (max_kvm_mem_slot : option Z)
    : outcome ResourceManager :=
  let max_slots := default KVM_USER_MEM_SLOTS max_kvm_mem_slot in
  r ← Range_new 0 max_slots;
  p ← it_insert (kvm_mem_slot_pool b) r None; Ret (set_kvm_mem_slot_pool b p).

(** ** ResourceManager *)

Definition ResourceManager_new (max_kvm_mem_slot : option Z) : outcome ResourceManager :=
  b ← init_legacy_irq_pool builder_default;
  b ← init_msi_irq_pool b;
  b ← init_pio_pool b;
  b ← init_mmio_pool b;
  b ← init_mem_pool b;
  init_kvm_mem_slot_pool b max_kvm_mem_slot.

Definition rm_init_mem_pool (m : ResourceManager) : outcome ResourceManager := init_mem_pool m.

Definition is_mem_pool_empty (m : ResourceManager) : bool := it_is_empty (mem_pool m).

Definition allocate_legacy_irq (m : ResourceManager) (shared : bool) (fixed : option Z)
    : outcome (option Z * ResourceManager) :=
  if shared then Ret (Some SHARED_IRQ, m) else
  let constraint := match fixed with
                    | Some v =>
                        if v =? SHARED_IRQ then None
                        else Some (with_max (with_min (Constraint_new 1) v) v)
                    | None => Some (Constraint_new 1)
                    end in
  match constraint with
  | None => Ret (None, m)
  | Some constraint =>
      '(key, p) ← allocate_update (legacy_irq_pool m) constraint;
      Ret (option_map (fun k => as_u32 (r_min k)) key, set_legacy_irq_pool m p)
  end.

Definition free_legacy_irq (m : ResourceManager) (irq : Z)
    : outcome (result ResourceError unit * ResourceManager) :=
  if irq =? SHARED_IRQ then Ret (Ok tt, m)
  else if negb ((IRQ_BASE <=? irq) && (irq <=? IRQ_MAX)) then
    Ret (Err (InvalidResourceRange "Legacy IRQ"), m)
  else
    key ← Range_new irq irq;
    '(_, p) ← it_free (legacy_irq_pool m) key;
    Ret (Ok tt, set_legacy_irq_pool m p).

Definition allocate_msi_irq (m : ResourceManager) (count : Z)
    : outcome (option Z * ResourceManager) :=
  '(key, p) ← allocate_update (msi_irq_pool m) (Constraint_new count);
  Ret (option_map (fun k => as_u32 (r_min k)) key, set_msi_irq_pool m p).

Definition allocate_msi_irq_aligned (m : ResourceManager) (count : Z)
    : outcome (option Z * ResourceManager) :=
  '(key, p) ← allocate_update (msi_irq_pool m) (with_align (Constraint_new count) count);
  Ret (option_map (fun k => as_u32 (r_min k)) key, set_msi_irq_pool m p).

Definition free_msi_irq (m : ResourceManager) (irq count : Z)
    : outcome (result ResourceError unit * ResourceManager) :=
  if (irq <? MSI_IRQ_BASE) || (count =? 0)
     || match checked_add u32_max irq count with None => true | Some _ => false end
     || (MSI_IRQ_MAX <? irq + count - 1)
  then Ret (Err (InvalidResourceRange "MSI IRQ"), m)
  else
    key ← Range_new irq (irq + count - 1);
    '(_, p) ← it_free (msi_irq_pool m) key;
    Ret (Ok tt, set_msi_irq_pool m p).

Definition allocate_pio_address (m : ResourceManager) (c : Constraint)
    : outcome (option Z * ResourceManager) :=
  '(key, p) ← allocate_update (pio_pool m) c;
  Ret (option_map (fun k => as_u16 (r_min k)) key, set_pio_pool m p).

Definition allocate_pio_address_simple (m : ResourceManager) (size : Z)
    : outcome (option Z * ResourceManager) := allocate_pio_address m (Constraint_new size).

Definition free_pio_address (m : ResourceManager) (base size : Z)
    : outcome (result ResourceError unit * ResourceManager) :=
  match checked_add u16_max base size with
  | None => Ret (Err (InvalidResourceRange "PIO Address"), m)
  | Some e =>
      e ← usub e 1; key ← Range_new base e;
      '(_, p) ← it_free (pio_pool m) key;
      Ret (Ok tt, set_pio_pool m p)
  end.

Definition allocate_mmio_address (m : ResourceManager) (c : Constraint)
    : outcome (option Z * ResourceManager) :=
  '(key, p) ← it_allocate (mmio_pool m) c;
  Ret (option_map r_min key, set_mmio_pool m p).

Definition allocate_mmio_address_aligned (m : ResourceManager) (size align : Z)
    : outcome (option Z * ResourceManager) :=
  allocate_mmio_address m (with_align (Constraint_new size) align).

Definition free_mmio_address (m : ResourceManager) (base size : Z)
    : outcome (result ResourceError unit * ResourceManager) :=
  match checked_add u64_max base size with
  | None => Ret (Err (InvalidResourceRange "MMIO Address"), m)
  | Some e =>
      e ← usub e 1; key ← Range_new base e;
      '(_, p) ← it_free (mmio_pool m) key;
      Ret (Ok tt, set_mmio_pool m p)
  end.

Definition allocate_mem_address (m : ResourceManager) (c : Constraint)
    : outcome (option Z * ResourceManager) :=
  '(key, p) ← it_allocate (mem_pool m) c;
  Ret (option_map r_min key, set_mem_pool m p).

Definition free_mem_address (m : ResourceManager) (base size : Z)
    : outcome (result ResourceError unit * ResourceManager) :=
  match checked_add u64_max base size with
  | None => Ret (Err (InvalidResourceRange "MEM Address"), m)
  | Some e =>
      if (base <? GUEST_MEM_START) || (GUEST_MEM_END <? e)
      then Ret (Err (InvalidResourceRange "MEM Address"), m)
      else
        e ← usub e 1; key ← Range_new base e;
        '(_, p) ← it_free (mem_pool m) key;
        Ret (Ok tt, set_mem_pool m p)
  end.

Definition allocate_kvm_mem_slot (m : ResourceManager) (size : Z) (fixed : option Z)
    : outcome (option Z * ResourceManager) :=
  let constraint := match fixed with
                    | Some v => with_max (with_min (Constraint_new size) v) v
                    | None => Constraint_new size
                    end in
  '(key, p) ← allocate_update (kvm_mem_slot_pool m) constraint;
  Ret (option_map (fun k => as_u32 (r_min k)) key, set_kvm_mem_slot_pool m p).

Definition free_kvm_mem_slot (m : ResourceManager) (slot : Z)
    : outcome (result ResourceError unit * ResourceManager) :=
  key ← Range_new slot slot;
  '(_, p) ← it_free (kvm_mem_slot_pool m) key;
  Ret (Ok tt, set_kvm_mem_slot_pool m p).

(** ** Device resources *)

(** The body of the [for] loop of [free_device_resources]. *)
Definition free_resource (m : ResourceManager) (res : Resource)
    : outcome (result ResourceError unit * ResourceManager) :=
  match res with
  | PioAddressRange base size => free_pio_address m base size
  | MmioAddressRange base size => free_mmio_address m base size
  | MemAddressRange base size => free_mem_address m base size
  | LegacyIrq base => free_legacy_irq m base
  | MsiIrq _ base size => free_msi_irq m base size
  | KvmMemSlot slot => free_kvm_mem_slot m slot
  | MacAddress _ => Ret (Ok tt, m)
  end.

Fixpoint free_resources (m : ResourceManager) (l : list Resource)
    : outcome (result ResourceError unit * ResourceManager) :=
  match l with
  | [] => Ret (Ok tt, m)
  | res :: l' =>
      '(r, m) ← free_resource m res;
      match r with
      | Ok _ => free_resources m l'
      | Err e => Ret (Err e, m)
      end
  end.

Definition free_device_resources (m : ResourceManager) (resources : DeviceResources)
    : outcome (result ResourceError unit * ResourceManager) :=
  free_resources m (dr_entries resources).

(** The range and alignment of an address request. *)
Definition address_constraint (range : option (Z * Z)) (align size : Z) : Constraint :=
  let c := with_align (Constraint_new size) align in
  match range with
  | Some r => with_max (with_min c r.1) r.2
  | None => c
  end.

(** One iteration of [allocate_device_resources]: the [match] on the request,
    [None] where the code releases what it has and returns an error. *)
Definition allocate_resource (m : ResourceManager) (req : ResourceConstraint) (shared_irq : bool)
    : outcome (option Resource * ResourceManager) :=
  match req with
  | RC_PioAddress range align size =>
      '(o, m) ← allocate_pio_address m (address_constraint range align size);
      Ret (option_map (fun base => PioAddressRange base size) o, m)
  | RC_MmioAddress range align size =>
      '(o, m) ← allocate_mmio_address m (address_constraint range align size);
      Ret (option_map (fun base => MmioAddressRange base size) o, m)
  | RC_MemAddress range align size =>
      '(o, m) ← allocate_mem_address m (address_constraint range align size);
      Ret (option_map (fun base => MemAddressRange base size) o, m)
  | RC_LegacyIrq irq =>
      '(o, m) ← allocate_legacy_irq m shared_irq irq; Ret (option_map LegacyIrq o, m)
  | RC_PciMsiIrq size =>
      '(o, m) ← allocate_msi_irq_aligned m size;
      Ret (option_map (fun base => MsiIrq PciMsi base size) o, m)
  | RC_PciMsixIrq size =>
      '(o, m) ← allocate_msi_irq m size;
      Ret (option_map (fun base => MsiIrq PciMsix base size) o, m)
  | RC_GenericIrq size =>
      '(o, m) ← allocate_msi_irq m size;
      Ret (option_map (fun base => MsiIrq GenericMsi base size) o, m)
  | RC_KvmMemSlot slot size =>
      '(o, m) ← allocate_kvm_mem_slot m size slot; Ret (option_map KvmMemSlot o, m)
  end.

Fixpoint allocate_resources (m : ResourceManager) (requests : list ResourceConstraint)
    (shared_irq : bool) (resources : DeviceResources)
    : outcome (result ResourceError DeviceResources * ResourceManager) :=
  match requests with
  | [] => Ret (Ok resources, m)
  | req :: requests' =>
      '(o, m) ← allocate_resource m req shared_irq;
      match o with
      | Some res => allocate_resources m requests' shared_irq (dr_append resources res)
      | None =>
          '(r, m) ← free_device_resources m resources;
          match r with
          | Err e => Ret (Err e, m)
          | Ok _ => Ret (Err NoAvailResource, m)
          end
      end
  end.

Definition allocate_device_resources (m : ResourceManager) (requests : list ResourceConstraint)
    (shared_irq : bool) : outcome (result ResourceError DeviceResources * ResourceManager) :=
  allocate_resources m requests shared_irq dr_new.
End manager.
