(* ===== verification/ResourceManagerFacts.v ===== *)
(** * Facts about the resource manager

    One interface for the six pools: what the interval tree promises about
    taking and releasing a range of a bounded pool ([pool_take], [pool_release]),
    lifted to the manager ([grants], [releases]) and to every operation of
    [ResourceManager]. *)
From S2P Require Import Prelude IntervalTree IntervalTreeFacts IntervalTreeAlloc DeviceResources.
From S2P Require Import ResourceManager.

(** ** Bounded pools *)

Definition pool_ok (lo hi : Z) (t : IntervalTree unit) : Prop :=
  wf t /\ Forall (fun e => lo <= r_min e.1 /\ r_max e.1 <= hi) (elems t).

(** The range [r] is an entry that is not free. *)
Definition held (t : IntervalTree unit) (r : Range) : Prop :=
  exists d, d <> Free /\ (r, d) ∈ elems t.

(** [allocate], with the [update] that follows it in most of the managers's
    pools. *)
Definition pool_take (upd : bool) (t : IntervalTree unit) (c : Constraint) :=
  if upd then allocate_update t c else it_allocate t c.

Definition taken (upd : bool) : NodeState unit := if upd then Valued tt else Allocated.

Lemma pool_ok_perm lo hi t es :
  elems t ≡ₚ es -> pool_ok lo hi t <-> wf t /\ Forall (fun e => lo <= r_min e.1 /\ r_max e.1 <= hi) es.
Proof. intros Hp. unfold pool_ok. by rewrite Hp. Qed.

Lemma pool_new lo hi : pool_ok lo hi it_new.
Proof. split; [split; [done|apply sorted_nil]|constructor]. Qed.

Lemma held_perm t r es : elems t ≡ₚ es -> held t r <-> exists d, d <> Free /\ (r, d) ∈ es.
Proof. intros Hp. unfold held. by setoid_rewrite Hp. Qed.

Lemma rests_bounded {T} lo hi k r :
  within r k -> lo <= r_min k -> r_max k <= hi ->
  Forall (fun e : Range * NodeState T => lo <= r_min e.1 /\ r_max e.1 <= hi)
    (left_rest k r ++ right_rest k r).
Proof.
  intros (?&?&?) ??. unfold left_rest, right_rest. apply Forall_app.
  split; zcase; try constructor; try constructor; cbn; lia.
Qed.

(** What a grant of the range [r] means for a pool. *)
Record pool_grants (d : NodeState unit) (t t' : IntervalTree unit) (r : Range) : Prop := {
  pg_held : held t' r;
  pg_free : forall x, inside x r = true -> state_at (elems t) x = Some Free;
  pg_state : forall x, state_at (elems t') x = if inside x r then Some d else state_at (elems t) x;
  pg_keep : forall q, held t q -> held t' q;
}.

Record pool_releases (t t' : IntervalTree unit) (r : Range) : Prop := {
  pr_state : forall x, state_at (elems t') x = if inside x r then Some Free else state_at (elems t) x;
  pr_keep : forall q, q <> r -> held t q -> held t' q;
}.

(** The constraint [c] is met by [r]. *)
Definition meets (c : Constraint) (r : Range) : Prop :=
  0 < c_size c /\ r_max r = r_min r + c_size c - 1 /\
  c_min c <= r_min r /\ r_max r <= c_max c /\ aligned (c_align c) (r_min r).

(** [update] after [allocate]. *)
Lemma update_after_allocate lo hi t r es :
  pool_ok lo hi t -> elems t ≡ₚ (r, Allocated) :: es ->
  exists t', it_update t r tt = Ret (None, t') /\ pool_ok lo hi t' /\
    elems t' ≡ₚ (r, Valued tt) :: es.
Proof.
  intros [Hwf Hb] Hp. destruct (it_update_ok t r Allocated tt es) as (t'&?&?&Hp'); auto.
  exists t'. split_and!; auto. apply (pool_ok_perm _ _ _ _ Hp'). split; [done|].
  rewrite Hp, Forall_cons in Hb. by apply Forall_cons.
Qed.

Lemma pool_take_ok lo hi upd t c :
  pool_ok lo hi t -> c_ok c -> hi < u64_max ->
  exists o t', pool_take upd t c = Ret (o, t') /\ pool_ok lo hi t' /\
    match o with
    | None => t' = t
    | Some r => meets c r /\ lo <= r_min r /\ r_max r <= hi /\ pool_grants (taken upd) t t' r
    end.
Proof.
  intros [Hwf Hb] Hc Hhi.
  assert (Htop : Forall (fun e => r_max e.1 < u64_max) (elems t)).
  { eapply Forall_impl; [exact Hb|]. cbn. intros. lia. }
  destruct (it_allocate_cases t c Hwf Hc (or_intror Htop)) as
    [(k&r&es&t1&E&Hwf1&Hsz&Hp&Hp1&Hw&Hmx&Hfit&_)|[E _]];
    [|exists None, t; split; [unfold pool_take, allocate_update; destruct upd; by rewrite E|done]].
  pose proof Hb as Hb'. rewrite Hp, Forall_cons in Hb'. destruct Hb' as [[Hk1 Hk2] Hbes]. cbn in Hk1, Hk2.
  pose proof Hfit as (_&Hal&?&?). pose proof Hw as (?&?&?).
  assert (Hrest : Forall (fun e => lo <= r_min e.1 /\ r_max e.1 <= hi)
            (left_rest k r ++ right_rest k r ++ es)).
  { rewrite app_assoc. apply Forall_app. split; [by apply rests_bounded|done]. }
  assert (Hok1 : pool_ok lo hi t1).
  { apply (pool_ok_perm _ _ _ _ Hp1). split; [done|]. apply Forall_cons. split; [cbn; lia|done]. }
  assert (Hbase : forall t2 d, wf t2 -> d <> Free -> (forall x, state_at (elems t2) x =
            if inside x r then Some d else state_at (elems t) x) ->
            elems t2 ≡ₚ (r, d) :: left_rest k r ++ right_rest k r ++ es -> pool_grants d t t2 r).
  { intros t2 d Hwf2 Hd Hst Hp2. split; auto.
    - apply (held_perm _ _ _ Hp2). exists d. split; [done|left].
    - intros x [? ?]%inside_spec. eapply (state_at_elem t k); [done|rewrite Hp; left|lia].
    - intros q (dq&Hdq&Hq). apply (held_perm _ _ _ Hp2). exists dq. split; [done|].
      rewrite Hp in Hq. apply elem_of_cons in Hq as [[= _ ->]|Hq]; [done|set_solver]. }
  assert (Hst1 : forall x, state_at (elems t1) x =
            if inside x r then Some Allocated else state_at (elems t) x).
  { intros x. by apply (state_at_alloc t t1 k r es). }
  assert (Hmeets : meets c r) by (split_and!; auto; lia).
  destruct upd; cbn.
  - destruct (update_after_allocate lo hi t1 r _ Hok1 Hp1) as (t2&E2&Hok2&Hp2).
    exists (Some r), t2. unfold allocate_update. rewrite E. cbn. rewrite E2. cbn.
    do 5 (split; [by auto with lia|]). apply Hbase; auto; [apply Hok2|].
    intros x. pose proof Hok2 as [[_ Hs2] _]. rewrite (state_at_perm _ _ x Hs2 Hp2).
    specialize (Hst1 x). destruct Hwf1 as [_ Hs1]. rewrite (state_at_perm _ _ x Hs1 Hp1) in Hst1.
    cbn in *. unfold inside in *. by destruct (_ && _).
  - exists (Some r), t1. do 5 (split; [by auto with lia|]). by apply Hbase.
Qed.

Lemma pool_uncovered lo hi t : pool_ok lo hi t -> hi < u64_max -> state_at (elems t) u64_max = None.
Proof.
  intros [[_ Hs] Hb] Hhi. destruct (state_at (elems t) u64_max) as [d|] eqn:E; [|done].
  apply state_at_Some in E as (k&Hin&?); [|by apply sorted_functional].
  rewrite Forall_forall in Hb. specialize (Hb _ Hin). cbn in Hb. lia.
Qed.

Lemma pool_release_ok lo hi t r :
  pool_ok lo hi t -> held t r -> hi < u64_max ->
  exists o t', it_free t r = Ret (o, t') /\ pool_ok lo hi t' /\ pool_releases t t' r.
Proof.
  intros Hok (d&Hd&Hin) Hhi. pose proof Hok as [Hwf Hb].
  apply elem_of_Permutation in Hin as [es Hp].
  destruct (it_free_cases t r d es Hwf Hp) as (t'&mn&mx&ls&rs&es'&E&Hwf'&Hes&Hl&Hr&Hp').
  { exists u64_max. split; [ulia|by eapply pool_uncovered]. }
  exists (state_value d), t'. split; [done|]. rewrite Hp, Forall_cons in Hb. destruct Hb as [Hbr Hbes].
  rewrite Hes, !Forall_app in Hbes. destruct Hbes as (Hbl&Hbr'&Hbe). cbn in Hbr. split.
  - apply (pool_ok_perm _ _ _ _ Hp'). split; [done|]. apply Forall_cons. split; [cbn|done].
    destruct Hl as [(->&->&_)|(kl&->&?&->)], Hr as [(->&->&_)|(kr&->&?&->)];
      rewrite ?Forall_singleton in *; cbn in *; lia.
  - split.
    + intros x. by apply (state_at_merge t t' r d es mn mx ls rs es').
    + intros q Hq (dq&Hdq&Hqin). apply (held_perm _ _ _ Hp'). exists dq. split; [done|].
      rewrite Hp, Hes in Hqin. apply elem_of_cons in Hqin as [[= -> _]|Hqin]; [done|].
      destruct Hl as [(->&_)|(kl&->&_)], Hr as [(->&_)|(kr&->&_)]; set_solver.
Qed.

(** ** The manager as a family of pools *)

Inductive kind := KIrq | KMsi | KPio | KMmio | KMem | KSlot.

#[global] Instance kind_eq_dec : EqDecision kind.
Proof. solve_decision. Defined.

Definition pool_of (m : ResourceManager) (k : kind) : IntervalTree unit :=
  match k with
  | KIrq => legacy_irq_pool m | KMsi => msi_irq_pool m | KPio => pio_pool m
  | KMmio => mmio_pool m | KMem => mem_pool m | KSlot => kvm_mem_slot_pool m
  end.

Definition set_pool (m : ResourceManager) (k : kind) (p : IntervalTree unit) : ResourceManager :=
  match k with
  | KIrq => set_legacy_irq_pool m p | KMsi => set_msi_irq_pool m p | KPio => set_pio_pool m p
  | KMmio => set_mmio_pool m p | KMem => set_mem_pool m p | KSlot => set_kvm_mem_slot_pool m p
  end.

Lemma pool_of_set m k p k' : pool_of (set_pool m k p) k' = if decide (k' = k) then p else pool_of m k'.
Proof. by destruct k, k'. Qed.

Lemma set_pool_same m k : set_pool m k (pool_of m k) = m.
Proof. by destruct m, k. Qed.

(** The state of the point [x] of the resource space [k]. *)
Definition state_of (m : ResourceManager) (k : kind) (x : Z) : option (NodeState unit) :=
  state_at (elems (pool_of m k)) x.

(** The state of a granted point: the guest memory and MMIO pools are not
    updated after the allocation. *)
Definition granted (k : kind) : bool := match k with KMmio | KMem => false | _ => true end.

Definition grants (m m' : ResourceManager) (k : kind) (r : Range) : Prop :=
  exists p, m' = set_pool m k p /\ pool_grants (taken (granted k)) (pool_of m k) p r.

Definition releases (m m' : ResourceManager) (k : kind) (r : Range) : Prop :=
  exists p, m' = set_pool m k p /\ pool_releases (pool_of m k) p r.

(** The part of a resource space that a resource stands for; the shared legacy
    interrupt and a MAC address take nothing. *)
Definition claim_of (res : Resource) : option (kind * Range) :=
  match res with
  | PioAddressRange base size => Some (KPio, mkRange base (base + size - 1))
  | MmioAddressRange base size => Some (KMmio, mkRange base (base + size - 1))
  | MemAddressRange base size => Some (KMem, mkRange base (base + size - 1))
  | LegacyIrq irq => if irq =? SHARED_IRQ then None else Some (KIrq, mkRange irq irq)
  | MsiIrq _ base size => Some (KMsi, mkRange base (base + size - 1))
  | MacAddress _ => None
  | KvmMemSlot slot => Some (KSlot, mkRange slot slot)
  end.

(** The fields of a request have the widths of the source; a request for
    memory slots asks for at most one (see [kvm_slot_group_free_panics] for
    what happens otherwise). *)
Definition addr_req_ok (mx : Z) (range : option (Z * Z)) (align size : Z) : Prop :=
  0 <= align <= mx /\ 0 <= size <= mx /\
  match range with Some (a, b) => 0 <= a <= mx /\ 0 <= b <= mx | None => True end.

(** The requests of the properties: numbers of the widths of the code, and at
    most one memory slot per request.  A group of slots is granted, but cannot be
    given back (see [kvm_slot_group_free_panics]). *)
Definition req_ok (req : ResourceConstraint) : Prop :=
  match req with
  | RC_PioAddress range align size => addr_req_ok u16_max range align size
  | RC_MmioAddress range align size | RC_MemAddress range align size =>
      addr_req_ok u64_max range align size
  | RC_LegacyIrq (Some irq) => in_u32 irq
  | RC_LegacyIrq None => True
  | RC_PciMsiIrq size | RC_PciMsixIrq size | RC_GenericIrq size => in_u32 size
  | RC_KvmMemSlot slot size =>
      0 <= size <= 1 /\ match slot with Some s => in_u32 s | None => True end
  end.

(** [res] is an answer to the request [req]. *)
Definition in_range_opt (range : option (Z * Z)) (base size : Z) : Prop :=
  match range with Some (a, b) => a <= base /\ base + size - 1 <= b | None => True end.

Definition satisfies (shared : bool) (req : ResourceConstraint) (res : Resource) : Prop :=
  match req, res with
  | RC_PioAddress range align size, PioAddressRange base size'
  | RC_MmioAddress range align size, MmioAddressRange base size'
  | RC_MemAddress range align size, MemAddressRange base size' =>
      size' = size /\ 0 < size /\ aligned align base /\ in_range_opt range base size
  | RC_LegacyIrq irq, LegacyIrq v =>
      if shared then v = SHARED_IRQ
      else v <> SHARED_IRQ /\ match irq with Some i => v = i | None => True end
  | RC_PciMsiIrq size, MsiIrq PciMsi base size' => size' = size /\ 0 < size /\ aligned size base
  | RC_PciMsixIrq size, MsiIrq PciMsix base size'
  | RC_GenericIrq size, MsiIrq GenericMsi base size' => size' = size /\ 0 < size
  | RC_KvmMemSlot slot _, KvmMemSlot v => match slot with Some s => v = s | None => True end
  | _, _ => False
  end.

Section facts.
Context (GUEST_PHYS_END : Z).
Hypothesis phys_end_width : 2 ^ 36 - 1 <= GUEST_PHYS_END <= 2 ^ 63 - 1.

#[local] Abbreviation MEM_END := (GUEST_MEM_END GUEST_PHYS_END).

(** The bounds of each resource space. *)
Definition lo (k : kind) : Z :=
  match k with KIrq => IRQ_BASE + 1 | KMsi => MSI_IRQ_BASE | KMmio => MMIO_LOW_START | _ => 0 end.

Definition hi (k : kind) : Z :=
  match k with
  | KIrq => IRQ_MAX | KMsi => MSI_IRQ_MAX | KPio => PIO_MAX
  | KMmio => GUEST_PHYS_END | KMem => MEM_END | KSlot => u32_max
  end.

Definition rm_ok (m : ResourceManager) : Prop := forall k, pool_ok (lo k) (hi k) (pool_of m k).

Lemma mem_end_bound : 2 ^ 35 - 1 <= MEM_END < GUEST_PHYS_END.
Proof.
  unfold GUEST_MEM_END. rewrite Z.shiftr_div_pow2 by lia. change (2 ^ 1) with 2.
  split; [apply Z.div_le_lower_bound; lia|apply Z.div_lt_upper_bound; lia].
Qed.

Lemma hi_top k : hi k < u64_max.
Proof. pose proof mem_end_bound. destruct k; cbn; unfold IRQ_MAX, MSI_IRQ_MAX, PIO_MAX; ulia. Qed.

Lemma rm_ok_set m k p : rm_ok m -> pool_ok (lo k) (hi k) p -> rm_ok (set_pool m k p).
Proof. intros Hm Hp k'. rewrite pool_of_set. by destruct (decide _) as [->|]. Qed.

(** One grant of one pool, as every allocation of the manager makes it. *)
Lemma take_ok m k c :
  rm_ok m -> c_ok c ->
  exists o p, pool_take (granted k) (pool_of m k) c = Ret (o, p) /\ rm_ok (set_pool m k p) /\
    match o with
    | None => set_pool m k p = m
    | Some r => meets c r /\ lo k <= r_min r /\ r_max r <= hi k /\ grants m (set_pool m k p) k r
    end.
Proof.
  intros Hm Hc. destruct (pool_take_ok (lo k) (hi k) (granted k) (pool_of m k) c)
    as (o&p&E&Hok&Ho); auto using hi_top.
  exists o, p. split_and!; auto using rm_ok_set. destruct o as [r|].
  - destruct Ho as (?&?&?&?). split_and!; auto. by exists p.
  - subst. by rewrite set_pool_same.
Qed.

Lemma release_ok m k r :
  rm_ok m -> held (pool_of m k) r ->
  exists o p, it_free (pool_of m k) r = Ret (o, p) /\ rm_ok (set_pool m k p) /\
    releases m (set_pool m k p) k r.
Proof.
  intros Hm Hh. destruct (pool_release_ok (lo k) (hi k) (pool_of m k) r) as (o&p&?&?&?);
    auto using hi_top.
  exists o, p. split_and!; auto using rm_ok_set. by exists p.
Qed.
(** ** Every allocation *)

Lemma as_u16_small x : in_u16 x -> as_u16 x = x.
Proof. intros. apply Z.mod_small. ulia. Qed.

Lemma as_u32_small x : in_u32 x -> as_u32 x = x.
Proof. intros. apply Z.mod_small. ulia. Qed.

(** The claim of a resource lies within its resource space. *)
Definition claim_in (res : Resource) : Prop :=
  match claim_of res with
  | Some (k, r) => lo k <= r_min r /\ r_min r <= r_max r /\ r_max r <= hi k
  | None => True
  end.

Definition claim_granted (m m' : ResourceManager) (res : Resource) : Prop :=
  match claim_of res with Some (k, r) => grants m m' k r | None => m' = m end.

Lemma addr_constraint_ok mx range align size :
  addr_req_ok mx range align size -> mx <= u64_max -> c_ok (address_constraint range align size).
Proof.
  intros (?&?&Hr) ?. unfold address_constraint.
  destruct range as [[a b]|]; split_and!; cbn; ulia.
Qed.

Lemma addr_constraint_meets range align size r :
  meets (address_constraint range align size) r ->
  r = mkRange (r_min r) (r_min r + size - 1) /\ 0 < size /\ aligned align (r_min r) /\
  in_range_opt range (r_min r) size.
Proof.
  unfold address_constraint, meets. intros (Hs&Hmx&Hmn&Hm&Ha).
  destruct range as [[a b]|], r as [rn rx]; cbn in *; subst; split_and!; auto.
Qed.

Lemma allocate_addr_ok m req shared :
  rm_ok m -> req_ok req ->
  match req with RC_PioAddress _ _ _ | RC_MmioAddress _ _ _ | RC_MemAddress _ _ _ => True | _ => False end ->
  exists o m', allocate_resource m req shared = Ret (o, m') /\ rm_ok m' /\
    match o with
    | None => m' = m
    | Some res => satisfies shared req res /\ claim_in res /\ claim_granted m m' res
    end.
Proof.
  intros Hm Hreq Haddr. unfold allocate_resource.
  destruct req as [rg al sz|rg al sz|rg al sz| | | | | ]; try done; clear Haddr; cbn in Hreq;
    pose proof (addr_constraint_ok _ _ _ _ Hreq ltac:(ulia)) as Hc.
  1: unfold allocate_pio_address; destruct (take_ok m KPio _ Hm Hc) as ([r|]&p&E&Hok&Ho).
  3: unfold allocate_mmio_address; destruct (take_ok m KMmio _ Hm Hc) as ([r|]&p&E&Hok&Ho).
  5: unfold allocate_mem_address; destruct (take_ok m KMem _ Hm Hc) as ([r|]&p&E&Hok&Ho).
  all: cbn [granted pool_take pool_of] in E; rewrite E; cbn; eexists _, _; (split; [done|]); (split; [done|]); try done.
  all: destruct Ho as (Hmeet&Hlo&Hhi&Hg);
    apply addr_constraint_meets in Hmeet as (Hr&?&?&?); cbn in Hlo, Hhi;
    rewrite Hr in Hhi; cbn in Hhi.
  1: rewrite as_u16_small by (unfold PIO_MAX in *; ulia).
  all: unfold claim_in, claim_granted; cbn; split_and!; auto; try (cbn; lia); by rewrite <- Hr.
Qed.

Lemma allocate_irq_ok m req shared :
  rm_ok m -> req_ok req ->
  match req with RC_PciMsiIrq _ | RC_PciMsixIrq _ | RC_GenericIrq _ => True | _ => False end ->
  exists o m', allocate_resource m req shared = Ret (o, m') /\ rm_ok m' /\
    match o with
    | None => m' = m
    | Some res => satisfies shared req res /\ claim_in res /\ claim_granted m m' res
    end.
Proof.
  intros Hm Hreq Hirq. unfold allocate_resource.
  destruct req as [| | | |sz|sz|sz| ]; try done; clear Hirq; cbn in Hreq.
  1: unfold allocate_msi_irq_aligned;
    destruct (take_ok m KMsi (with_align (Constraint_new sz) sz) Hm) as ([r|]&p&E&Hok&Ho);
    [split_and!; cbn; ulia| | ].
  3,4: unfold allocate_msi_irq;
    destruct (take_ok m KMsi (Constraint_new sz) Hm) as ([r|]&p&E&Hok&Ho);
    [split_and!; cbn; ulia| | ].
  all: cbn [granted pool_take pool_of] in E; rewrite E; cbn; eexists _, _; (split; [done|]); (split; [done|]); try done.
  all: destruct Ho as ((?&Hr&?&?&?)&Hlo&Hhi&Hg); destruct r as [rn rx]; cbn in *; subst rx.
  all: rewrite as_u32_small by (unfold MSI_IRQ_BASE, MSI_IRQ_MAX in *; ulia).
  all: unfold claim_in, claim_granted; cbn; split_and!; auto; cbn; lia.
Qed.

Lemma allocate_single_ok m req shared :
  rm_ok m -> req_ok req ->
  match req with RC_LegacyIrq _ | RC_KvmMemSlot _ _ => True | _ => False end ->
  exists o m', allocate_resource m req shared = Ret (o, m') /\ rm_ok m' /\
    match o with
    | None => m' = m
    | Some res => satisfies shared req res /\ claim_in res /\ claim_granted m m' res
    end.
Proof.
  intros Hm Hreq Hs. unfold allocate_resource.
  destruct req as [| | |irq| | | |slot sz]; try done; clear Hs; cbn in Hreq.
  - unfold allocate_legacy_irq. destruct shared; [by exists (Some (LegacyIrq SHARED_IRQ)), m|].
    destruct irq as [v|]; [destruct (Z.eqb_spec v SHARED_IRQ); [by exists None, m|]|].
    1: destruct (take_ok m KIrq (with_max (with_min (Constraint_new 1) v) v) Hm)
      as ([r|]&p&E&Hok&Ho); [split_and!; cbn; ulia| | ].
    3: destruct (take_ok m KIrq (Constraint_new 1) Hm) as ([r|]&p&E&Hok&Ho); [split_and!; cbn; ulia| | ].
    all: cbn [granted pool_take pool_of] in E; rewrite E; cbn; eexists _, _; (split; [done|]); (split; [done|]); try done.
    all: destruct Ho as ((?&Hr&?&?&?)&Hlo&Hhi&Hg); destruct r as [rn rx]; cbn in *.
    all: rewrite as_u32_small by (unfold IRQ_BASE, IRQ_MAX in *; ulia).
    all: unfold claim_in, claim_granted; cbn; replace rx with rn in * by lia.
    all: assert (rn <> SHARED_IRQ) by (unfold SHARED_IRQ; lia).
    all: destruct (Z.eqb_spec rn SHARED_IRQ); [done|]; split_and!; auto; cbn; lia.
  - unfold allocate_kvm_mem_slot. destruct Hreq as [Hsz Hslot].
    destruct (take_ok m KSlot match slot with
       | Some v => with_max (with_min (Constraint_new sz) v) v | None => Constraint_new sz end Hm)
      as ([r|]&p&E&Hok&Ho); [destruct slot; split_and!; cbn; ulia| | ].
    all: cbn [granted pool_take pool_of] in E; rewrite E; cbn; eexists _, _; (split; [done|]); (split; [done|]); try done.
    destruct Ho as (Hmeet&Hlo&Hhi&Hg); destruct r as [rn rx]; cbn in *.
    assert (rx = rn /\ match slot with Some s => rn = s | None => True end) as [-> Hv].
    { destruct slot; destruct Hmeet as (?&?&?&?&?); cbn in *; lia. }
    rewrite as_u32_small by ulia. unfold claim_in, claim_granted. cbn. split_and!; auto; cbn; lia.
Qed.

Lemma allocate_resource_ok m req shared :
  rm_ok m -> req_ok req ->
  exists o m', allocate_resource m req shared = Ret (o, m') /\ rm_ok m' /\
    match o with
    | None => m' = m
    | Some res => satisfies shared req res /\ claim_in res /\ claim_granted m m' res
    end.
Proof.
  intros Hm Hreq. destruct req;
    auto using allocate_addr_ok, allocate_irq_ok, allocate_single_ok.
Qed.
End facts.
