(* ===== verification/ResourceManagerGrants.v ===== *)
(** * Grants and releases of device resources

    The lists of requests and resources that [allocate_device_resources] and
    [free_device_resources] work through, and the layout that
    [ResourceManager::new] starts from. *)
From S2P Require Import Prelude IntervalTree IntervalTreeFacts IntervalTreeAlloc DeviceResources.
From S2P Require Import ResourceManager ResourceManagerFacts.

(** The resource spaces that a list of resources occupies. *)
Definition claims (l : list Resource) : list (kind * Range) := omap claim_of l.

Definition covered (cs : list (kind * Range)) (k : kind) (x : Z) : bool :=
  existsb (fun c => bool_decide (c.1 = k) && inside x c.2) cs.

Definition held_at (m : ResourceManager) (c : kind * Range) : Prop := held (pool_of m c.1) c.2.

(** The conditions under which [free_resource] accepts a granted resource: the
    code refuses a PIO range that ends at the last port, and a memory range that
    ends at [GUEST_MEM_END]. *)
Definition freeable (GUEST_PHYS_END : Z) (res : Resource) : bool :=
  match res with
  | PioAddressRange base size => base + size <=? u16_max
  | MemAddressRange base size => base + size <=? GUEST_MEM_END GUEST_PHYS_END
  | _ => true
  end.

Section grants.
Context (GUEST_PHYS_END : Z).
Hypothesis phys_end_width : 2 ^ 36 - 1 <= GUEST_PHYS_END <= 2 ^ 63 - 1.

#[local] Abbreviation MEM_END := (GUEST_MEM_END GUEST_PHYS_END).
#[local] Abbreviation rm_ok := (rm_ok GUEST_PHYS_END).
#[local] Abbreviation claim_in := (claim_in GUEST_PHYS_END).

(** ** Single grants and releases *)

Lemma grants_state m m' k r k' x :
  grants m m' k r ->
  state_of m' k' x =
    if covered [(k, r)] k' x then Some (taken (granted k)) else state_of m k' x.
Proof.
  intros (p&->&[_ _ Hst _]). unfold state_of. rewrite pool_of_set. cbn.
  destruct (decide (k' = k)) as [->|]; [rewrite bool_decide_true, Hst by done|rewrite bool_decide_false by done];
    cbn; by rewrite ?orb_false_r.
Qed.

Lemma grants_free m m' k r k' x :
  grants m m' k r -> covered [(k, r)] k' x = true -> state_of m k' x = Some Free.
Proof.
  intros (p&->&[_ Hf _ _]). cbn. rewrite orb_false_r. intros [->%bool_decide_eq_true ?]%andb_true_iff.
  by apply Hf.
Qed.

Lemma grants_held m m' k r c : grants m m' k r -> c = (k, r) \/ held_at m c -> held_at m' c.
Proof.
  intros (p&->&[Hh _ _ Hk]) Hc. unfold held_at. rewrite pool_of_set.
  destruct (decide _) as [E|]; destruct Hc as [->|Hc]; cbn in *; try done.
  apply Hk. unfold held_at in Hc. by rewrite E in Hc.
Qed.

Lemma releases_state m m' k r k' x :
  releases m m' k r ->
  state_of m' k' x = if covered [(k, r)] k' x then Some Free else state_of m k' x.
Proof.
  intros (p&->&[Hst _]). unfold state_of. rewrite pool_of_set. cbn.
  destruct (decide (k' = k)) as [->|]; [rewrite bool_decide_true, Hst by done|rewrite bool_decide_false by done];
    cbn; by rewrite ?orb_false_r.
Qed.

Lemma releases_held m m' k r c : releases m m' k r -> c <> (k, r) -> held_at m c -> held_at m' c.
Proof.
  intros (p&->&[_ Hk]) Hne Hc. unfold held_at in *. rewrite pool_of_set.
  destruct (decide _) as [E|]; [|done]. destruct c as [k' q]. cbn in *. subst k'.
  apply Hk; [by intros ->|done].
Qed.

(** A held range is not free at any of its points. *)
Lemma held_not_free m k r x :
  rm_ok m -> held_at m (k, r) -> inside x r = true ->
  exists d, d <> Free /\ state_of m k x = Some d.
Proof.
  intros Hm (d&Hd&Hin) Hx%inside_spec. exists d. split; [done|].
  destruct (Hm k) as [Hwf _]. by apply (state_at_elem _ r).
Qed.

(** Two held ranges of one space are equal or disjoint. *)
Lemma held_disjoint m k r1 r2 x :
  rm_ok m -> held_at m (k, r1) -> held_at m (k, r2) ->
  inside x r1 = true -> inside x r2 = true -> r1 = r2.
Proof.
  intros Hm (d1&_&H1) (d2&_&H2) Hx1%inside_spec Hx2%inside_spec.
  destruct (Hm k) as [[_ Hs] _]. by apply (sorted_unique_at (elems (pool_of m k)) r1 d1 r2 d2 x).
Qed.

(** ** Releasing one resource *)

Lemma free_range_ok m k b e :
  rm_ok m -> held_at m (k, mkRange b e) -> b <= e -> e < u64_max ->
  exists o p, Range_new b e = Ret (mkRange b e) /\
    it_free (pool_of m k) (mkRange b e) = Ret (o, p) /\
    rm_ok (set_pool m k p) /\ releases m (set_pool m k p) k (mkRange b e).
Proof.
  intros Hm Hh ??. destruct (release_ok GUEST_PHYS_END phys_end_width m k _ Hm Hh) as (o&p&?&?&?).
  exists o, p. split_and!; auto. apply Range_new_ok; lia.
Qed.

(** Runs the release at the end of a [free_*] operation. *)
Ltac release_with Hfree :=
  destruct (Hfree _ _ _ eq_refl) as (o&p&E1&E2&?&?); cbn [pool_of] in E2;
  cbn [mbind outcome_bind andb negb]; rewrite E1; cbn [mbind outcome_bind]; rewrite E2; by eexists.

Lemma free_resource_ok m res :
  rm_ok m -> claim_in res -> Forall (held_at m) (claims [res]) ->
  if freeable GUEST_PHYS_END res then
    exists m', free_resource GUEST_PHYS_END m res = Ret (Ok tt, m') /\ rm_ok m' /\
      match claim_of res with Some (k, r) => releases m m' k r | None => m' = m end
  else exists w, free_resource GUEST_PHYS_END m res = Ret (Err (InvalidResourceRange w), m).
Proof.
  intros Hm Hin Hh. unfold ResourceManagerFacts.claim_in, claims in Hin, Hh. cbn in Hh.
  pose proof (mem_end_bound GUEST_PHYS_END phys_end_width).
  assert (Hfree : forall k b e, claim_of res = Some (k, mkRange b e) ->
    exists o p, Range_new b e = Ret (mkRange b e) /\
      it_free (pool_of m k) (mkRange b e) = Ret (o, p) /\
      rm_ok (set_pool m k p) /\ releases m (set_pool m k p) k (mkRange b e)).
  { intros k b e E. rewrite E in *. rewrite Forall_singleton in Hh. cbn in Hin.
    pose proof (hi_top GUEST_PHYS_END phys_end_width k). apply free_range_ok; auto; lia. }
  destruct res as [b s|b s|b s|b|ty b s| |b]; cbn -[Z.add Z.sub] in *; try (by eexists).
  - unfold free_pio_address, checked_add. zcase; [|by eexists].
    rewrite usub_Ret by lia. release_with Hfree.
  - unfold free_mmio_address, checked_add. zcase; [|ulia].
    change MMIO_LOW_START with 3221225472 in Hin. rewrite usub_Ret by lia. release_with Hfree.
  - unfold free_mem_address, checked_add, GUEST_MEM_START.
    destruct (Z.leb_spec (b + s) u64_max); [|ulia]. destruct (Z.ltb_spec b 0); [lia|]. cbn.
    destruct (Z.ltb_spec MEM_END (b + s)), (Z.leb_spec (b + s) MEM_END); try lia; [by eexists|].
    rewrite usub_Ret by lia. release_with Hfree.
  - unfold free_legacy_irq. destruct (Z.eqb_spec b SHARED_IRQ); [by eexists|]. cbn in Hin.
    destruct (Z.leb_spec IRQ_BASE b), (Z.leb_spec b IRQ_MAX); try (unfold IRQ_BASE in *; lia).
    release_with Hfree.
  - unfold free_msi_irq, checked_add.
    destruct (Z.ltb_spec b MSI_IRQ_BASE); [lia|]. destruct (Z.eqb_spec s 0); [lia|]. cbn.
    destruct (Z.leb_spec (b + s) u32_max); [|unfold MSI_IRQ_MAX in *; ulia]. cbn.
    destruct (Z.ltb_spec MSI_IRQ_MAX (b + s - 1)); [lia|]. release_with Hfree.
  - unfold free_kvm_mem_slot. release_with Hfree.
Qed.

(** ** Releasing a list of resources *)

Lemma claims_cons res l :
  claims (res :: l) = match claim_of res with Some c => c :: claims l | None => claims l end.
Proof. done. Qed.

Lemma covered_cons c cs k x : covered (c :: cs) k x = covered [c] k x || covered cs k x.
Proof. cbn. by rewrite orb_false_r. Qed.

Lemma covered_app cs1 cs2 k x : covered (cs1 ++ cs2) k x = covered cs1 k x || covered cs2 k x.
Proof. apply existsb_app. Qed.

Lemma claims_app l1 l2 : claims (l1 ++ l2) = claims l1 ++ claims l2.
Proof. apply omap_app. Qed.

(** The state of a point survives in outline: what is outside every pool stays
    outside. *)
Definition same_space (m m' : ResourceManager) : Prop :=
  forall k x, state_of m' k x = None <-> state_of m k x = None.

Lemma releases_space m m' k r : rm_ok m -> held_at m (k, r) -> releases m m' k r -> same_space m m'.
Proof.
  intros Hm Hh Hr k' x. rewrite (releases_state _ _ _ _ _ _ Hr).
  destruct (covered _ _ _) eqn:E; [|done]. cbn in E. rewrite orb_false_r in E.
  apply andb_true_iff in E as [->%bool_decide_eq_true Hx].
  destruct (held_not_free m k' r x) as (d&_&->); auto. done.
Qed.

Lemma free_resources_ok l m :
  rm_ok m -> Forall claim_in l -> NoDup (claims l) -> Forall (held_at m) (claims l) ->
  exists r m', free_resources GUEST_PHYS_END m l = Ret (r, m') /\ rm_ok m' /\ same_space m m' /\
    (forall c, held_at m c -> c ∉ claims l -> held_at m' c) /\
    match r with
    | Ok _ => Forall (fun res => freeable GUEST_PHYS_END res = true) l /\
        forall k x, state_of m' k x = if covered (claims l) k x then Some Free else state_of m k x
    | Err e => (exists w, e = InvalidResourceRange w) /\
        Exists (fun res => freeable GUEST_PHYS_END res = false) l
    end.
Proof.
  revert m. induction l as [|res l IH]; intros m Hm Hin Hnd Hh; [by exists (Ok tt), m|].
  apply Forall_cons in Hin as [Hres Hin]. rewrite claims_cons in *. cbn [free_resources].
  pose proof (free_resource_ok m res Hm Hres) as Hf.
  destruct (freeable GUEST_PHYS_END res) eqn:Efr; cycle 1.
  { destruct Hf as (w&Ef); [cbn; by destruct (claim_of res); [apply Forall_cons in Hh as [? _]; auto|]|].
    exists (Err (InvalidResourceRange w)), m. rewrite Ef. split_and!; try done; [by exists w|by constructor]. }
  destruct Hf as (m1&Ef&Hm1&Hc);
    [cbn; by destruct (claim_of res); [apply Forall_cons in Hh as [? _]; auto|]|].
  rewrite Ef. cbn. destruct (claim_of res) as [[k r]|]; [|subst m1].
  - apply NoDup_cons in Hnd as [Hni Hnd]. apply Forall_cons in Hh as [Hh0 Hh].
    destruct (IH m1 Hm1 Hin Hnd) as (rr&m'&E&Hm'&Hsp&Hk&Ho).
    { rewrite Forall_forall in Hh |- *. intros c Hin'. eapply releases_held; eauto. by intros ->. }
    exists rr, m'. split_and!; auto.
    + intros k' x. rewrite (Hsp k' x). by apply (releases_space m m1 k r).
    + intros c Hc' Hn. apply Hk; [|set_solver]. eapply releases_held; eauto. set_solver.
    + destruct rr as [u|e]; [|destruct Ho as [? ?]; split; [done|by apply Exists_cons_tl]].
      destruct Ho as [? Hst]. split; [by constructor|]. intros k' x.
      rewrite covered_cons, Hst, (releases_state _ _ _ _ k' x Hc).
      by destruct (covered [(k, r)] k' x), (covered (claims l) k' x).
  - destruct (IH m Hm1 Hin Hnd Hh) as (rr&m'&E&Hm'&Hsp&Hk&Ho).
    exists rr, m'. split_and!; auto.
    destruct rr as [u|e]; [|destruct Ho as [? ?]; split; [done|by apply Exists_cons_tl]].
    destruct Ho as [? Hst]. split; [by constructor|done].
Qed.
(** ** Allocating a list of requests *)

(** [m] is the manager [m0] after the grant of [l]. *)
Record after_grants (m0 m : ResourceManager) (l : list Resource) : Prop := {
  ag_ok : rm_ok m;
  ag_in : Forall claim_in l;
  ag_nodup : NoDup (claims l);
  ag_held : Forall (held_at m) (claims l);
  ag_free : forall k x, covered (claims l) k x = true -> state_of m0 k x = Some Free;
  ag_state : forall k x, state_of m k x =
    if covered (claims l) k x then Some (taken (granted k)) else state_of m0 k x;
  ag_keep : forall c, held_at m0 c -> held_at m c;
}.

Lemma after_none m0 : rm_ok m0 -> after_grants m0 m0 [].
Proof. intros. split; try done; constructor. Qed.

Lemma grants_fresh m m' k r :
  rm_ok m -> grants m m' k r -> r_min r <= r_max r -> ~ held_at m (k, r).
Proof.
  intros Hm Hg Hr Hh. assert (Hx : inside (r_min r) r = true) by (apply inside_spec; lia).
  destruct (held_not_free m k r _ Hm Hh Hx) as (d&Hd&Hs). apply Hd.
  rewrite (grants_free _ _ _ _ k (r_min r) Hg) in Hs; [by injection Hs|].
  cbn. by rewrite bool_decide_true, Hx.
Qed.

Lemma after_snoc m0 m m' l res :
  after_grants m0 m l -> rm_ok m' -> claim_in res -> claim_granted m m' res ->
  after_grants m0 m' (l ++ [res]).
Proof.
  intros [Hm Hin Hnd Hh Hf Hst Hk] Hm' Hres Hg. unfold claim_granted in Hg.
  assert (Ecl : claims (l ++ [res]) = claims l ++ claims [res]) by apply claims_app.
  assert (Hin' : Forall claim_in (l ++ [res])) by (apply Forall_app; split; [done|by constructor]).
  rewrite claims_cons in Ecl. change (claims []) with (@nil (kind * Range)) in Ecl. unfold ResourceManagerFacts.claim_in in Hres.
  destruct (claim_of res) as [[k r]|]; [|rewrite app_nil_r in Ecl; subst; split; by rewrite ?Ecl].
  assert (Hold : Forall (held_at m') (claims l)).
  { eapply Forall_impl; [exact Hh|]. intros c Hc. eapply grants_held; eauto. }
  split; rewrite ?Ecl; auto.
  - apply NoDup_app. split; [done|]. split; [|apply NoDup_singleton].
    intros c Hc ->%list_elem_of_singleton. rewrite Forall_forall in Hh.
    apply (grants_fresh m m' k r); auto; lia.
  - apply Forall_app. split; [done|]. constructor; [|constructor]. eapply grants_held; eauto.
  - intros k' x. rewrite covered_app. intros [Hc|Hc]%orb_true_iff; [auto|].
    pose proof (grants_free _ _ _ _ k' x Hg Hc) as Hfr. rewrite Hst in Hfr.
    by destruct (covered (claims l) k' x) eqn:E; [auto|].
  - intros k' x. rewrite covered_app, (grants_state _ _ _ _ k' x Hg), Hst.
    destruct (covered [(k, r)] k' x) eqn:E; [|by rewrite orb_false_r].
    rewrite orb_true_r. cbn in E. rewrite orb_false_r in E.
    by apply andb_true_iff in E as [->%bool_decide_eq_true _].
  - intros c Hc. eapply grants_held; eauto.
Qed.

(** The last port or the last byte of guest memory is free: a grant that ends
    there cannot be given back (see [pio_top_rollback_leaks]). *)
Definition top_free (m : ResourceManager) : Prop :=
  state_of m KPio PIO_MAX = Some Free \/ state_of m KMem MEM_END = Some Free.

Lemma not_freeable_top m0 m l :
  after_grants m0 m l -> Exists (fun res => freeable GUEST_PHYS_END res = false) l -> top_free m0.
Proof.
  intros [_ Hin _ _ Hf _ _] (res&Hres&Hn)%Exists_exists.
  rewrite Forall_forall in Hin. specialize (Hin _ Hres). unfold ResourceManagerFacts.claim_in in Hin.
  assert (Hcov : forall k r x, claim_of res = Some (k, r) -> inside x r = true ->
            state_of m0 k x = Some Free).
  { intros k r x E Hx. apply Hf, existsb_exists. exists (k, r). cbn. rewrite bool_decide_true by done.
    split; [|done]. apply list_elem_of_In, list_elem_of_omap. by exists res. }
  destruct res; cbn in *; try done; zbool; [left|right]; eapply Hcov; eauto; apply inside_spec;
    cbn; unfold PIO_MAX in *; ulia.
Qed.

(** What is granted was not held before. *)
Lemma claim_was_free m0 m l c :
  rm_ok m0 -> after_grants m0 m l -> held_at m0 c -> c ∉ claims l.
Proof.
  intros Hm0 [_ Hin _ _ Hf _ _] Hc Hcl. destruct c as [k r].
  pose proof Hcl as (res&Hres&E)%list_elem_of_omap.
  rewrite Forall_forall in Hin. specialize (Hin _ Hres).
  unfold ResourceManagerFacts.claim_in in Hin. rewrite E in Hin.
  assert (Hx : inside (r_min r) r = true) by (apply inside_spec; lia).
  destruct (held_not_free m0 k r _ Hm0 Hc Hx) as (d&Hd&Hs). apply Hd.
  rewrite Hf in Hs; [by injection Hs|]. apply existsb_exists. exists (k, r). cbn.
  rewrite bool_decide_true, Hx by done. split; [by apply list_elem_of_In|done].
Qed.

Lemma allocate_resources_ok reqs shared m0 m ds :
  rm_ok m0 -> Forall req_ok reqs -> after_grants m0 m (dr_entries ds) ->
  exists r m', allocate_resources GUEST_PHYS_END m reqs shared ds = Ret (r, m') /\
    match r with
    | Ok ds' => after_grants m0 m' (dr_entries ds') /\
        exists l, dr_entries ds' = dr_entries ds ++ l /\ Forall2 (satisfies shared) reqs l
    | Err e => rm_ok m' /\ same_space m m' /\ (forall c, held_at m0 c -> held_at m' c) /\
        (e = NoAvailResource /\ (forall k x, state_of m' k x = state_of m0 k x) \/
         (exists w, e = InvalidResourceRange w) /\ top_free m0)
    end.
Proof.
  intros Hm0 Hreqs. revert m ds. induction Hreqs as [|req reqs Hreq Hreqs IH]; intros m ds Hag.
  { exists (Ok ds), m. split_and!; auto. exists []. by rewrite app_nil_r. }
  cbn [allocate_resources]. pose proof Hag as [Hm Hin Hnd Hh Hf Hst Hk].
  destruct (allocate_resource_ok GUEST_PHYS_END phys_end_width m req shared Hm Hreq)
    as (o&m1&E&Hm1&Ho). rewrite E. cbn. destruct o as [res|].
  - destruct Ho as (Hsat&Hres&Hg).
    destruct (IH m1 (dr_append ds res)) as (r&m'&E'&Hr); [by eapply after_snoc|].
    exists r, m'. split; [done|]. destruct r as [ds'|e]; cbn in *.
    + destruct Hr as (?&l&El&Hl). split; [done|]. exists (res :: l).
      split; [by rewrite El, <- app_assoc|by constructor].
    + destruct Hr as (?&Hsp&?&?). split_and!; auto. intros k x. rewrite (Hsp k x).
      unfold claim_granted in Hg. destruct (claim_of res) as [[k' r']|]; [|by subst].
      rewrite (grants_state _ _ _ _ k x Hg). destruct (covered _ _ _) eqn:Ec; [|done].
      by rewrite (grants_free _ _ _ _ k x Hg Ec).
  - subst m1. unfold free_device_resources.
    destruct (free_resources_ok (dr_entries ds) m Hm Hin Hnd Hh) as (r&m'&E'&Hm'&Hsp&Hkeep&Hr).
    rewrite E'. cbn. assert (Hheld : forall c, held_at m0 c -> held_at m' c).
    { intros c Hc. apply Hkeep; [auto|]. by apply (claim_was_free m0 m). }
    destruct r as [u|e]; eexists _, m'; (split; [done|]).
    + destruct Hr as [_ Hr]. split_and!; auto. left. split; [done|]. intros k x.
      rewrite Hr, Hst. destruct (covered _ _ _) eqn:Ec; [|done]. by rewrite Hf.
    + destruct Hr as [[w ->] Hr]. split_and!; auto. right.
      split; [by exists w|by eapply not_freeable_top].
Qed.

(** ** The initial layout *)

(** The state of every point of a fresh manager with the memory slots
    [0..slots]. *)
Definition layout (slots : Z) (k : kind) (x : Z) : option (NodeState unit) :=
  let between a b := (a <=? x) && (x <=? b) in
  match k with
  | KIrq => if between 6 15 then Some Free else None
  | KMsi => if between 24 1023 then Some Free else None
  | KPio => if between 0 0xFFFF then Some Free else None
  | KMmio =>
      if between 0xFBFFFFFF 0xFFFFFFFE then Some (Valued tt)
      else if between 0xC0000000 0xFFFFFFFF || between (MEM_END + 1) GUEST_PHYS_END
      then Some Free else None
  | KMem => if between 0 0xBFFFFFFF || between 0x100000000 MEM_END then Some Free else None
  | KSlot => if between 0 slots then Some Free else None
  end.

Lemma singleton_pool a b lo hi :
  0 <= a <= b -> b < u64_max -> lo <= a -> b <= hi ->
  pool_ok lo hi (mkIntervalTree (Node (mkRange a b) Free Leaf Leaf 1 b)).
Proof.
  intros. split; [split; [cbn; lia|]|by repeat constructor].
  split; [|repeat constructor]. apply Forall_singleton. split_and!; cbn; lia.
Qed.

Lemma insert_new a b :
  0 <= a <= b -> b < u64_max ->
  (r ← Range_new a b; it_insert (@it_new unit) r None) =
    Ret (mkIntervalTree (Node (mkRange a b) Free Leaf Leaf 1 b)).
Proof. intros. rewrite Range_new_ok by lia. done. Qed.

(** Inserting a free range above everything else. *)
Lemma insert_above lo hi t a b :
  pool_ok lo hi t -> hi < a -> lo <= a -> 0 <= a <= b -> b < u64_max ->
  exists t', (r ← Range_new a b; it_insert t r None) = Ret t' /\
    pool_ok lo b t' /\
    forall x, state_at (elems t') x =
      if (a <=? x) && (x <=? b) then Some Free else state_at (elems t) x.
Proof.
  intros [Hwf Hb] Ha Hlo Hab Htop. rewrite Range_new_ok by lia. cbn.
  destruct (it_insert_ok t (mkRange a b) None Hwf) as (t'&E&Hwf'&Hp); [split_and!; cbn; lia| |].
  { eapply Forall_impl; [exact Hb|]. cbn. intros. lia. }
  exists t'. split; [done|]. split.
  - apply (pool_ok_perm _ _ _ _ Hp). split; [done|]. apply Forall_cons. split; [cbn; lia|].
    eapply Forall_impl; [exact Hb|]. cbn. intros. lia.
  - intros x. destruct Hwf' as [_ Hs']. by rewrite (state_at_perm _ _ x Hs' Hp).
Qed.

Lemma mem_not_clear : mem_clear_of_mmio GUEST_PHYS_END = false.
Proof.
  pose proof (mem_end_bound GUEST_PHYS_END phys_end_width). unfold mem_clear_of_mmio.
  change MMIO_LOW_START with 3221225472. by destruct (Z.ltb_spec MEM_END 3221225472); [lia|].
Qed.

(** The low MMIO window once the range for the system devices is reserved. *)
Definition low_mmio : IntervalTree unit :=
  mkIntervalTree (Node (mkRange 0xFBFFFFFF 0xFFFFFFFE) (Valued tt)
    (Node (mkRange 0xC0000000 0xFBFFFFFE) Free Leaf Leaf 1 0xFBFFFFFE)
    (Node (mkRange 0xFFFFFFFF 0xFFFFFFFF) Free Leaf Leaf 1 0xFFFFFFFF) 2 0xFFFFFFFF).

Lemma low_mmio_ok : pool_ok 0xC0000000 0xFFFFFFFF low_mmio.
Proof.
  split; [split; [cbn; lia|]|repeat constructor; cbn; lia].
  split; cbn; repeat constructor; unfold before; cbn; ulia.
Qed.

Lemma init_mmio_ok :
  exists t, init_mmio_pool_helper GUEST_PHYS_END it_new = Ret t /\
    pool_ok MMIO_LOW_START GUEST_PHYS_END t /\
    forall x, state_at (elems t) x = layout 0 KMmio x.
Proof.
  pose proof (mem_end_bound GUEST_PHYS_END phys_end_width) as Hme. unfold init_mmio_pool_helper.
  rewrite mem_not_clear. cbn [negb].
  assert (Hlow : forall k : IntervalTree unit -> outcome (IntervalTree unit),
    (r ← Range_new MMIO_LOW_START MMIO_LOW_END;
     mmio ← it_insert it_new r None;
     mmio ← ('(key, mmio) ← it_allocate mmio (with_max (with_min (Constraint_new MMIO_SPACE_RESERVED)
              (MMIO_LOW_END - MMIO_SPACE_RESERVED)) 0xffffffff);
            match key with
            | Some k => '(_, mmio) ← it_update mmio k tt; Ret mmio
            | None => Panic
            end); k mmio) = k low_mmio) by (intros; vm_compute; reflexivity).
  rewrite Hlow. zcase; [|lia]. rewrite uadd_Ret by ulia. cbn [mbind outcome_bind].
  destruct (insert_above 0xC0000000 0xFFFFFFFF low_mmio (MEM_END + 1) GUEST_PHYS_END)
    as (t&E&Hok&Hst); [exact low_mmio_ok|lia|lia|lia|ulia|].
  exists t. split; [exact E|]. split; [exact Hok|]. intros x. rewrite Hst. unfold layout. cbn.
  repeat (zcase; cbn; try lia); done.
Qed.

Lemma init_mem_ok :
  exists t, init_mem_pool_helper GUEST_PHYS_END it_new = Ret t /\
    pool_ok 0 MEM_END t /\ forall x, state_at (elems t) x = layout 0 KMem x.
Proof.
  pose proof (mem_end_bound GUEST_PHYS_END phys_end_width) as Hme. unfold init_mem_pool_helper.
  rewrite mem_not_clear. cbn [Z.ltb]. change (GUEST_MEM_START <? MMIO_LOW_START) with true.
  change (MMIO_LOW_START - 1) with 0xBFFFFFFF. change MMIO_LOW_END with 0xFFFFFFFF.
  change GUEST_MEM_START with 0. cbv iota. rewrite insert_new by ulia. cbn [mbind outcome_bind].
  zcase; [|lia]. change (0xFFFFFFFF + 1) with 0x100000000.
  destruct (insert_above 0 0xBFFFFFFF
    (mkIntervalTree (Node (mkRange 0 0xBFFFFFFF) Free Leaf Leaf 1 0xBFFFFFFF)) 0x100000000 MEM_END)
    as (t&E&Hok&Hst); [apply singleton_pool; ulia|lia|lia|lia|ulia|].
  exists t. split; [exact E|]. split; [exact Hok|]. intros x. rewrite Hst. unfold layout. cbn.
  repeat (zcase; cbn; try lia); done.
Qed.

Lemma new_ok slots :
  0 <= default KVM_USER_MEM_SLOTS slots <= u32_max ->
  exists m, ResourceManager_new GUEST_PHYS_END slots = Ret m /\ rm_ok m /\
    forall k x, state_of m k x = layout (default KVM_USER_MEM_SLOTS slots) k x.
Proof.
  intros Hs. set (s := default KVM_USER_MEM_SLOTS slots) in *.
  destruct init_mmio_ok as (tm&Em&Hm&Hsm), init_mem_ok as (tg&Eg&Hg&Hsg).
  exists (mkResourceManager
    (mkIntervalTree (Node (mkRange 6 15) Free Leaf Leaf 1 15))
    (mkIntervalTree (Node (mkRange 24 1023) Free Leaf Leaf 1 1023))
    (mkIntervalTree (Node (mkRange 0 0xFFFF) Free Leaf Leaf 1 0xFFFF)) tm tg
    (mkIntervalTree (Node (mkRange 0 s) Free Leaf Leaf 1 s))).
  split.
  - unfold ResourceManager_new, init_mmio_pool, init_mem_pool, init_kvm_mem_slot_pool.
    assert (Hfix : forall (k : ResourceManager -> outcome ResourceManager),
      (b ← init_legacy_irq_pool builder_default; b ← init_msi_irq_pool b; b ← init_pio_pool b; k b) =
      k (mkResourceManager
        (mkIntervalTree (Node (mkRange 6 15) Free Leaf Leaf 1 15))
        (mkIntervalTree (Node (mkRange 24 1023) Free Leaf Leaf 1 1023))
        (mkIntervalTree (Node (mkRange 0 0xFFFF) Free Leaf Leaf 1 0xFFFF)) it_new it_new it_new))
      by (intros; reflexivity).
    rewrite Hfix. cbn [mmio_pool]. rewrite Em. cbn [mbind outcome_bind set_mmio_pool mem_pool].
    rewrite Eg. cbn [mbind outcome_bind]. fold s. rewrite (Range_new_ok 0 s) by ulia. done.
  - split.
    + intros []; cbn [pool_of]; try done; apply singleton_pool;
        unfold lo, hi, IRQ_BASE, IRQ_MAX, MSI_IRQ_BASE, MSI_IRQ_MAX, PIO_MAX; ulia.
    + intros [] x; unfold state_of; cbn [pool_of]; [done..|rewrite Hsm|rewrite Hsg|]; done.
Qed.
End grants.
