(* ===== verification/ResourceManagerProps.v ===== *)
(** * Properties of the resource manager

    [ResourceManager::new] lays out the resource spaces,
    [allocate_device_resources] grants all requests of a device or nothing,
    [free_device_resources] gives them back, and no two devices ever hold
    overlapping resources. *)
From S2P Require Import Prelude IntervalTree IntervalTreeFacts IntervalTreeAlloc DeviceResources.
From S2P Require Import ResourceManager ResourceManagerFacts ResourceManagerGrants.

(** The system that uses one manager: devices acquire and release resources;
    [live] are the resources handed out and not given back. *)
Inductive rm_reach (GUEST_PHYS_END : Z) (slots : option Z)
  : ResourceManager -> list DeviceResources -> Prop :=
| reach_new m :
    ResourceManager_new GUEST_PHYS_END slots = Ret m -> rm_reach GUEST_PHYS_END slots m []
| reach_allocate m live reqs shared ds m' :
    rm_reach GUEST_PHYS_END slots m live -> Forall req_ok reqs ->
    allocate_device_resources GUEST_PHYS_END m reqs shared = Ret (Ok ds, m') ->
    rm_reach GUEST_PHYS_END slots m' (ds :: live)
| reach_refused m live reqs shared e m' :
    rm_reach GUEST_PHYS_END slots m live -> Forall req_ok reqs ->
    allocate_device_resources GUEST_PHYS_END m reqs shared = Ret (Err e, m') ->
    rm_reach GUEST_PHYS_END slots m' live
| reach_free m live1 ds live2 r m' :
    rm_reach GUEST_PHYS_END slots m (live1 ++ ds :: live2) ->
    free_device_resources GUEST_PHYS_END m ds = Ret (r, m') ->
    rm_reach GUEST_PHYS_END slots m' (live1 ++ live2).

(** All claims of the live resources. *)
Definition live_claims (live : list DeviceResources) : list (kind * Range) :=
  claims (concat (map dr_entries live)).

(** A 46-bit guest physical address space, used by the examples. *)
Definition PHYS_46 : Z := 2 ^ 46 - 1.

(** Runs [allocate_device_resources] on a fresh manager. *)
Definition fresh_allocate (reqs : list ResourceConstraint) :=
  m ← ResourceManager_new PHYS_46 None; allocate_device_resources PHYS_46 m reqs false.

Section props.
Context (GUEST_PHYS_END : Z).
Hypothesis phys_end_width : 2 ^ 36 - 1 <= GUEST_PHYS_END <= 2 ^ 63 - 1.

#[local] Abbreviation rm_ok := (rm_ok GUEST_PHYS_END).
#[local] Abbreviation layout := (layout GUEST_PHYS_END).

(** [ResourceManager::new] returns a well-formed manager for every physical
    address width from 36 to 63 bits, and the state of every point of every resource
    space is the documented layout: guest memory around the low MMIO window, MMIO in
    that window and above guest memory. *)
Theorem new_layout slots :
  0 <= default KVM_USER_MEM_SLOTS slots <= u32_max ->
  exists m, ResourceManager_new GUEST_PHYS_END slots = Ret m /\ rm_ok m /\
    forall k x, state_of m k x = layout (default KVM_USER_MEM_SLOTS slots) k x.
Proof. by apply new_ok. Qed.

(** C19: for requests that ask for no group of memory slots,
    [allocate_device_resources] never panics; it grants one satisfying resource
    per request, each over points that were free, with everything else unchanged; or
    it fails with [NoAvailResource] and every point has the state it had; or, only
    if the last port or the last byte of guest memory was free, the rollback itself
    fails with [InvalidResourceRange]. *)
Theorem allocate_device_resources_spec m reqs shared :
  rm_ok m -> Forall req_ok reqs ->
  exists r m', allocate_device_resources GUEST_PHYS_END m reqs shared = Ret (r, m') /\ rm_ok m' /\
    match r with
    | Ok ds =>
        Forall2 (satisfies shared) reqs (dr_entries ds) /\ NoDup (claims (dr_entries ds)) /\
        Forall (held_at m') (claims (dr_entries ds)) /\
        (forall k x, covered (claims (dr_entries ds)) k x = true -> state_of m k x = Some Free) /\
        (forall k x, state_of m' k x =
           if covered (claims (dr_entries ds)) k x then Some (taken (granted k)) else state_of m k x)
    | Err NoAvailResource => forall k x, state_of m' k x = state_of m k x
    | Err (InvalidResourceRange _) => top_free GUEST_PHYS_END m
    | Err UnknownResourceType => False
    end.
Proof.
  intros Hm Hreqs. unfold allocate_device_resources.
  destruct (allocate_resources_ok GUEST_PHYS_END phys_end_width reqs shared m m dr_new)
    as (r&m'&E&Hr); auto using after_none.
  exists r, m'. split; [done|]. destruct r as [ds|e].
  - destruct Hr as ([] & l & El & Hl). cbn in El. rewrite El in *. by split_and!.
  - destruct Hr as (?&_&_&[[-> ?]|[[w ->] ?]]); auto.
Qed.

(** C28: what a device got for requests without groups of memory slots can be given
    back, unless a range of it ends at the last port or the last byte of memory:
    [free_device_resources] on the resources of a successful
    [allocate_device_resources] never panics; it succeeds and restores the state of
    every point exactly if there is no such range, and fails with
    [InvalidResourceRange] otherwise. *)
Theorem device_resources_roundtrip m reqs shared ds m1 :
  rm_ok m -> Forall req_ok reqs ->
  allocate_device_resources GUEST_PHYS_END m reqs shared = Ret (Ok ds, m1) ->
  exists r m2, free_device_resources GUEST_PHYS_END m1 ds = Ret (r, m2) /\ rm_ok m2 /\
    match r with
    | Ok _ => Forall (fun res => freeable GUEST_PHYS_END res = true) (dr_entries ds) /\
        forall k x, state_of m2 k x = state_of m k x
    | Err e => Exists (fun res => freeable GUEST_PHYS_END res = false) (dr_entries ds) /\
        exists what, e = InvalidResourceRange what
    end.
Proof.
  intros Hm Hreqs E.
  destruct (allocate_resources_ok GUEST_PHYS_END phys_end_width reqs shared m m dr_new)
    as (r&m'&E'&Hr); auto using after_none.
  unfold allocate_device_resources in E. rewrite E in E'. injection E' as <- <-.
  destruct Hr as [[Hm1 Hin Hnd Hh Hf Hst _] _].
  destruct (free_resources_ok GUEST_PHYS_END phys_end_width (dr_entries ds) m1)
    as (r&m2&E2&Hm2&_&_&Ho); auto.
  exists r, m2. split_and!; auto. destruct r as [[]|e]; [|by destruct Ho].
  destruct Ho as [Hfr Ho]. split; [done|]. intros k x. rewrite Ho, Hst.
  destruct (covered _ _ _) eqn:Ec; [|done]. by rewrite Hf.
Qed.

(** ** The whole system *)

Record reach_inv (slots : Z) (m : ResourceManager) (live : list DeviceResources) : Prop := {
  ri_ok : rm_ok m;
  ri_space : forall k x, state_of m k x = None <-> layout slots k x = None;
  ri_in : Forall (claim_in GUEST_PHYS_END) (concat (map dr_entries live));
  ri_nodup : NoDup (live_claims live);
  ri_held : Forall (held_at m) (live_claims live);
}.

Lemma live_claims_cons ds live : live_claims (ds :: live) = claims (dr_entries ds) ++ live_claims live.
Proof. unfold live_claims. cbn. apply claims_app. Qed.

Lemma live_claims_middle l1 ds l2 : live_claims (l1 ++ ds :: l2) ≡ₚ live_claims (ds :: l1 ++ l2).
Proof.
  unfold live_claims. rewrite map_app, concat_app. cbn. rewrite map_app, concat_app, !claims_app.
  rewrite Permutation_app_swap_app. done.
Qed.

Lemma live_in_middle l1 ds l2 :
  Forall (claim_in GUEST_PHYS_END) (concat (map dr_entries (l1 ++ ds :: l2))) ->
  Forall (claim_in GUEST_PHYS_END) (dr_entries ds) /\
  Forall (claim_in GUEST_PHYS_END) (concat (map dr_entries (l1 ++ l2))).
Proof. rewrite !map_app, !concat_app. cbn. rewrite !Forall_app. naive_solver. Qed.

Lemma reach_inv_allocate slots m live reqs shared r m' :
  reach_inv slots m live -> Forall req_ok reqs ->
  allocate_device_resources GUEST_PHYS_END m reqs shared = Ret (r, m') ->
  reach_inv slots m' match r with Ok ds => ds :: live | Err _ => live end.
Proof.
  intros [Hm Hsp Hin Hnd Hh] Hreqs E.
  destruct (allocate_resources_ok GUEST_PHYS_END phys_end_width reqs shared m m dr_new)
    as (r'&m1&E'&Hr); auto using after_none.
  unfold allocate_device_resources in E. rewrite E in E'. injection E' as <- <-.
  destruct r as [ds|e].
  - destruct Hr as [Hag _]. pose proof Hag as [Hm1 Hin1 Hnd1 Hh1 Hf Hst Hk]. split; auto.
    + intros k x. rewrite <- (Hsp k x), Hst. destruct (covered _ _ _) eqn:Ec; [|done].
      by rewrite Hf.
    + cbn. by apply Forall_app.
    + rewrite live_claims_cons. apply NoDup_app. split_and!; auto. intros c Hc Hl.
      rewrite Forall_forall in Hh. by apply (claim_was_free GUEST_PHYS_END m m' (dr_entries ds) c); auto.
    + rewrite live_claims_cons. apply Forall_app. split; [done|].
      eapply Forall_impl; [exact Hh|]. auto.
  - destruct Hr as (Hm1&Hsp1&Hk&_). split; auto.
    + intros k x. by rewrite <- (Hsp k x).
    + eapply Forall_impl; [exact Hh|]. auto.
Qed.

Lemma reach_inv_free slots m l1 ds l2 r m' :
  reach_inv slots m (l1 ++ ds :: l2) ->
  free_device_resources GUEST_PHYS_END m ds = Ret (r, m') ->
  reach_inv slots m' (l1 ++ l2).
Proof.
  intros [Hm Hsp Hin Hnd Hh] E. apply live_in_middle in Hin as [Hin1 Hin2].
  rewrite live_claims_middle, live_claims_cons in Hnd, Hh.
  apply NoDup_app in Hnd as (Hnd1&Hdis&Hnd2). apply Forall_app in Hh as [Hh1 Hh2].
  destruct (free_resources_ok GUEST_PHYS_END phys_end_width (dr_entries ds) m)
    as (r'&m1&E'&Hm1&Hsp1&Hk&_); auto.
  unfold free_device_resources in E. rewrite E in E'. injection E' as <- <-.
  split; auto.
  - intros k x. by rewrite <- (Hsp k x).
  - rewrite Forall_forall in Hh2 |- *. intros c Hc. apply Hk; [auto|]. intros Hc'.
    by apply (Hdis c).
Qed.

Lemma reach_ok slots m live :
  0 <= default KVM_USER_MEM_SLOTS slots <= u32_max ->
  rm_reach GUEST_PHYS_END slots m live ->
  reach_inv (default KVM_USER_MEM_SLOTS slots) m live.
Proof.
  intros Hs. induction 1 as [m E|m live reqs shared ds m' _ IH ? E|m live reqs shared e m' _ IH ? E|
    m l1 ds l2 r m' _ IH E].
  - destruct (new_ok GUEST_PHYS_END phys_end_width slots Hs) as (m'&E'&Hm&Hl).
    rewrite E in E'. injection E' as <-. split; auto; try constructor; by rewrite Hl.
  - by apply (reach_inv_allocate _ m live reqs shared (Ok ds)).
  - by apply (reach_inv_allocate _ m live reqs shared (Err e)).
  - by apply (reach_inv_free _ m l1 ds l2 r).
Qed.

(** C14: isolation of devices: whatever sequence of allocations, refusals and releases
    a manager has been through, the resources that are handed out are distinct and
    non-overlapping, and no guest memory range that is handed out meets an MMIO range
    that is. *)
Theorem live_resources_disjoint slots m live :
  0 <= default KVM_USER_MEM_SLOTS slots <= u32_max ->
  rm_reach GUEST_PHYS_END slots m live ->
  NoDup (live_claims live) /\
  (forall k r1 r2 x, (k, r1) ∈ live_claims live -> (k, r2) ∈ live_claims live ->
     inside x r1 = true -> inside x r2 = true -> r1 = r2) /\
  (forall r1 r2 x, (KMem, r1) ∈ live_claims live -> (KMmio, r2) ∈ live_claims live ->
     inside x r1 = true -> inside x r2 = true -> False).
Proof.
  intros Hs Hr. destruct (reach_ok slots m live Hs Hr) as [Hm Hsp _ Hnd Hh].
  rewrite Forall_forall in Hh. split_and!; auto.
  - intros k r1 r2 x H1 H2. apply (held_disjoint GUEST_PHYS_END m k); auto.
  - intros r1 r2 x H1 H2 Hx1 Hx2.
    destruct (held_not_free GUEST_PHYS_END m KMem r1 x) as (d1&_&E1); auto.
    destruct (held_not_free GUEST_PHYS_END m KMmio r2 x) as (d2&_&E2); auto.
    pose proof (proj2 (Hsp KMem x)) as S1. pose proof (proj2 (Hsp KMmio x)) as S2.
    rewrite E1 in S1. rewrite E2 in S2.
    pose proof (mem_end_bound GUEST_PHYS_END phys_end_width).
    unfold ResourceManagerGrants.layout in S1, S2.
    repeat (zcase_in S1; cbn [andb orb] in S1; try (by discriminate S1)); try (discriminate (S1 eq_refl));
    repeat (zcase_in S2; cbn [andb orb] in S2); try (discriminate (S2 eq_refl)); lia.
Qed.

(** ** Where the code falls short of its contract *)

Lemma entry_at (t : IntervalTree unit) r d k dk x :
  wf t -> (r, d) ∈ elems t -> (k, dk) ∈ elems t -> r_min r <= x <= r_max r ->
  r_min k <= x <= r_max k -> k = r /\ dk = d.
Proof.
  intros [_ Hs] Hr Hk ??. split; [by apply (sorted_unique_at (elems t) k dk r d x)|].
  by apply (sorted_functional _ Hs x k dk r d).
Qed.

Lemma free_at_held (t : IntervalTree unit) r d x :
  wf t -> (r, d) ∈ elems t -> d <> Free -> r_min r <= x <= r_max r -> free_at t x = Ret None.
Proof.
  intros Hwf Hr Hd Hx. destruct (free_at_spec t x Hwf) as ([k|]&E&Ho); [|done].
  destruct Ho as [Hk ?]. destruct (entry_at t r d k Free x) as [_ <-]; auto. done.
Qed.

(** The free entry just below a held one, if there is one. *)
Lemma left_of_held (t : IntervalTree unit) b e d es :
  wf t -> elems t ≡ₚ (mkRange b e, d) :: es -> d <> Free -> 0 <= b <= e ->
  exists mn ls es', (if 0 <? b then o ← free_at t (b - 1);
      Ret (match o with Some r => r_min r | None => b end) else Ret b) = Ret mn /\
    0 <= mn <= b /\ elems t ≡ₚ ls ++ (mkRange b e, d) :: es' /\
    ls = if mn <? b then [(mkRange mn (b - 1), Free)] else [].
Proof.
  intros Hwf Hp Hd Hb. pose proof Hwf as [_ Hs].
  assert (Hnone : exists mn ls es', Ret b = Ret mn /\ 0 <= mn <= b /\
    elems t ≡ₚ ls ++ (mkRange b e, d) :: es' /\
    ls = if mn <? b then [(mkRange mn (b - 1), Free)] else []).
  { exists b, [], es. rewrite Z.ltb_irrefl. split_and!; auto; lia. }
  destruct (Z.ltb_spec 0 b); [|exact Hnone].
  destruct (free_at_spec t (b - 1) Hwf) as ([k|]&Eo&Ho); rewrite Eo; [|exact Hnone].
  cbn [mbind outcome_bind]. destruct Ho as [Hk Hkx].
  destruct (sorted_elem_ok _ _ Hs Hk) as (?&_). cbn in *.
  assert (r_max k = b - 1).
  { destruct (Z.le_gt_cases b (r_max k)); [|lia].
    destruct (entry_at t (mkRange b e) d k Free b) as [_ <-]; auto; try (cbn; lia); [|done].
    rewrite Hp. left. }
  rewrite Hp in Hk. apply elem_of_cons in Hk as [[= -> <-]|Hk]; [done|].
  apply elem_of_Permutation in Hk as [es' Hp']. exists (r_min k), [(k, Free)], es'.
  destruct (Z.ltb_spec (r_min k) b); [|lia]. split_and!; auto; try lia.
  - rewrite Hp, Hp'. apply Permutation_swap.
  - do 2 f_equal. destruct k; cbn in *; by f_equal.
Qed.

(** Releasing only the first number of a longer entry. *)
Lemma free_prefix_panics lo hi (t : IntervalTree unit) b e d :
  pool_ok lo hi t -> hi < u64_max -> (mkRange b e, d) ∈ elems t -> d <> Free -> b < e ->
  it_free t (mkRange b b) = Panic.
Proof.
  intros Hok Hhi Hin Hd Hlt. pose proof Hok as [Hwf Hb]. pose proof Hwf as [_ Hs].
  destruct (sorted_elem_ok _ _ Hs Hin) as (?&?&_). cbn in *.
  assert (Htop : e < u64_max) by (rewrite Forall_forall in Hb; specialize (Hb _ Hin); cbn in Hb; lia).
  assert (Hmiss : forall d', (mkRange b b, d') ∉ elems t).
  { intros d' Hin'. destruct (entry_at t (mkRange b e) d _ d' b Hwf Hin Hin') as [Heq _];
      cbn in *; [lia..|]. injection Heq. lia. }
  destruct (it_delete_missing t (mkRange b b) Hwf Hmiss) as (t1&E1&Hwf1&Ee1).
  rewrite <- Ee1 in Hin. unfold it_free. rewrite E1. cbn [mbind outcome_bind r_min r_max].
  rewrite (free_at_held t1 (mkRange b e) d (b + 1)) by (auto; cbn; lia).
  destruct (Z.ltb_spec b u64_max); [|lia].
  apply elem_of_Permutation in Hin as [es Hp].
  destruct (left_of_held t1 b e d es) as (mn&ls&es'&Emn&Hmnb&Hp'&Hls); auto with lia.
  rewrite Emn. cbn [mbind outcome_bind].
  assert (Hins : forall t2 rest, wf t2 -> elems t2 ≡ₚ (mkRange b e, d) :: rest ->
            it_insert t2 (mkRange mn b) None = Panic).
  { intros t2 rest [_ Hs2] Hp2. unfold it_insert. rewrite node_insert_panic; auto.
    - split_and!; cbn; lia.
    - change (elements (root t2)) with (elems t2). unfold disjoint_from. rewrite Hp2, Forall_cons.
      cbn. intros [? _]. lia. }
  destruct (Z.ltb_spec mn b) as [Hlt2|]; subst ls.
  - rewrite usub_Ret by lia. cbn [mbind outcome_bind]. rewrite Range_new_ok by lia.
    destruct (it_delete_ok t1 _ _ _ Hwf1 Hp') as (t2&E2&Hwf2&Hp2).
    cbn [mbind outcome_bind]. rewrite E2. cbn [mbind outcome_bind]. rewrite Z.ltb_irrefl.
    cbn [mbind outcome_bind]. by rewrite (Hins t2 es').
  - cbn [mbind outcome_bind]. rewrite Z.ltb_irrefl.
    cbn [mbind outcome_bind]. by rewrite (Hins t1 es').
Qed.

(** A group of memory slots cannot be given back: after [allocate_kvm_mem_slot]
    has granted two or more slots at [v], [free_kvm_mem_slot(v)], the only release the
    manager offers for it, panics. *)
Theorem kvm_slot_group_free_panics m size fixed v m' :
  rm_ok m -> 2 <= size <= u32_max -> match fixed with Some s => in_u32 s | None => True end ->
  allocate_kvm_mem_slot m size fixed = Ret (Some v, m') ->
  free_kvm_mem_slot m' v = Panic.
Proof.
  intros Hm Hsz Hfix E. unfold allocate_kvm_mem_slot in E.
  destruct (take_ok GUEST_PHYS_END phys_end_width m KSlot match fixed with
     | Some s => with_max (with_min (Constraint_new size) s) s | None => Constraint_new size end Hm)
    as ([r|]&p&Ep&Hok&Ho); [destruct fixed; split_and!; cbn; ulia| | ];
    cbn [granted pool_take pool_of] in Ep; rewrite Ep in E; cbn in E; [|discriminate E].
  injection E as <- <-. destruct Ho as (Hmeet&Hlo&Hhi&(p'&Es&[(d&Hd&Hin) _ _ _])).
  assert (r_max r = r_min r + size - 1) by (destruct fixed; apply Hmeet). cbn in Hlo, Hhi.
  rewrite as_u32_small by ulia. unfold free_kvm_mem_slot. rewrite Range_new_ok by ulia.
  cbn [mbind outcome_bind]. destruct r as [rn rx]. cbn [r_min r_max] in *.
  specialize (Hok KSlot). cbn [pool_of set_pool kvm_mem_slot_pool set_kvm_mem_slot_pool] in Hok |- *.
  assert (p = p') as -> by (by injection Es).
  rewrite (free_prefix_panics _ _ p' rn rx d Hok); auto; [|lia]. cbn. ulia.
Qed.

(** The range reserved for the system devices is shifted down by one byte: in a
    fresh manager the last byte below 4 GiB can still be allocated, while the byte
    below the 64 MiB window is reserved. *)
Theorem reserved_window_shifted slots m :
  0 <= default KVM_USER_MEM_SLOTS slots <= u32_max ->
  ResourceManager_new GUEST_PHYS_END slots = Ret m ->
  state_of m KMmio (2 ^ 32 - 1) = Some Free /\
  state_of m KMmio (2 ^ 32 - 0x4000000 - 1) = Some (Valued tt).
Proof.
  intros Hs E. destruct (new_ok GUEST_PHYS_END phys_end_width slots Hs) as (m'&E'&_&Hl).
  rewrite E in E'. injection E' as <-. by rewrite !Hl.
Qed.
End props.

(** A failed [allocate_device_resources] can leak: when the rollback meets a PIO
    range that ends at port 0xFFFF, it stops with an error and the ports stay
    allocated. *)
Theorem pio_top_rollback_leaks :
  exists m, fresh_allocate [RC_PioAddress (Some (0xF000, 0xFFFF)) 0x1000 0x1000; RC_LegacyIrq (Some 3)]
      = Ret (Err (InvalidResourceRange "PIO Address"), m) /\
    state_of m KPio 0xF000 = Some (Valued tt) /\ state_of m KPio 0xFFFF = Some (Valued tt).
Proof. eexists. split; [vm_compute; reflexivity|]. done. Qed.

(** ** The properties at work *)

Lemma width_46 : 2 ^ 36 - 1 <= PHYS_46 <= 2 ^ 63 - 1.
Proof. unfold PHYS_46. lia. Qed.

Definition demo_requests : list ResourceConstraint :=
  [new_mmio 0x2000; RC_LegacyIrq None; RC_PciMsiIrq 4; RC_KvmMemSlot None 1;
   RC_MemAddress (Some (0, 0x100000)) 0x1000 0x1000; new_pio 8].

Lemma demo_requests_ok : Forall req_ok demo_requests.
Proof. repeat constructor; cbn; unfold addr_req_ok; ulia. Qed.

Definition demo_manager : ResourceManager :=
  match ResourceManager_new PHYS_46 None with Ret m => m | Panic => builder_default end.

Lemma demo_manager_new : ResourceManager_new PHYS_46 None = Ret demo_manager.
Proof. reflexivity. Qed.

Lemma demo_manager_ok : rm_ok PHYS_46 demo_manager.
Proof.
  destruct (new_ok PHYS_46 width_46 None) as (m&E&Hm&_); [cbn; unfold KVM_USER_MEM_SLOTS; ulia|].
  rewrite demo_manager_new in E. by injection E as <-.
Qed.

Lemma new_layout_witness :
  exists m, ResourceManager_new PHYS_46 None = Ret m /\ state_of m KMem 0x1000 = Some Free.
Proof.
  destruct (new_layout PHYS_46 width_46 None) as (m&E&_&Hl); [cbn; unfold KVM_USER_MEM_SLOTS; ulia|].
  exists m. split; [exact E|]. rewrite Hl. reflexivity.
Defined.

Lemma allocate_device_resources_spec_witness :
  exists ds m, allocate_device_resources PHYS_46 demo_manager demo_requests false = Ret (Ok ds, m) /\
    Forall2 (satisfies false) demo_requests (dr_entries ds).
Proof.
  destruct (allocate_device_resources_spec PHYS_46 width_46 demo_manager demo_requests false)
    as (r&m&E&_&H); [exact demo_manager_ok|exact demo_requests_ok|].
  destruct r as [ds|e]; [|vm_compute in E; discriminate E]. exists ds, m. split; [exact E|]. apply H.
Defined.

Lemma device_resources_roundtrip_witness :
  exists ds m1 m2, allocate_device_resources PHYS_46 demo_manager demo_requests false = Ret (Ok ds, m1) /\
    free_device_resources PHYS_46 m1 ds = Ret (Ok tt, m2).
Proof.
  destruct (allocate_device_resources PHYS_46 demo_manager demo_requests false) as [[[ds|e] m1]|] eqn:E;
    [|vm_compute in E; discriminate E..].
  destruct (device_resources_roundtrip PHYS_46 width_46 demo_manager demo_requests false ds m1)
    as ([[]|e]&m2&E2&_&H); [exact demo_manager_ok|exact demo_requests_ok|exact E|..].
  - exists ds, m1, m2. split; [reflexivity|exact E2].
  - exfalso. vm_compute in E. injection E as <- _. destruct H as [H _].
    repeat (apply Exists_cons in H as [H|H]; [vm_compute in H; discriminate H|]). by apply Exists_nil in H.
Defined.

Lemma live_resources_disjoint_witness :
  exists ds m, rm_reach PHYS_46 None m [ds] /\ NoDup (live_claims [ds]).
Proof.
  destruct (allocate_device_resources PHYS_46 demo_manager demo_requests false) as [[[ds|e] m1]|] eqn:E;
    [|vm_compute in E; discriminate E..].
  assert (Hr : rm_reach PHYS_46 None m1 [ds]).
  { eapply reach_allocate; [apply reach_new, demo_manager_new|exact demo_requests_ok|exact E]. }
  exists ds, m1. split; [exact Hr|].
  apply (live_resources_disjoint PHYS_46 width_46 None m1 [ds]); [|exact Hr].
  cbn; unfold KVM_USER_MEM_SLOTS; ulia.
Defined.

Lemma kvm_slot_group_free_panics_witness :
  exists m, allocate_kvm_mem_slot demo_manager 2 None = Ret (Some 0, m) /\
    free_kvm_mem_slot m 0 = Panic.
Proof.
  eexists. split; [vm_compute; reflexivity|].
  apply (kvm_slot_group_free_panics PHYS_46 width_46 demo_manager 2 None);
    [exact demo_manager_ok|ulia|exact I|vm_compute; reflexivity].
Defined.

Lemma reserved_window_shifted_witness :
  state_of demo_manager KMmio (2 ^ 32 - 1) = Some Free.
Proof.
  apply (reserved_window_shifted PHYS_46 width_46 None); [cbn; unfold KVM_USER_MEM_SLOTS; ulia|].
  exact demo_manager_new.
Defined.
