(* ===== verification/RateLimiter.v ===== *)
(** * Rate limiter

    Model of src/dragonball/dbs_utils/src/rate_limiter.rs: token buckets and the
    limiter that holds two of them and a timer.  [Instant]s are nanosecond
    counts; every call of [Instant::now] in the code is an argument here.  The
    ratio of an over-consumption is an IEEE double, computed with the
    specification of binary64 of the standard library. *)
From Stdlib Require Import SpecFloat.
From S2P Require Import Prelude.

Definition REFILL_TIMER_INTERVAL_MS : Z := 10.
Definition NANOSEC_IN_ONE_MILLISEC : Z := 1000000.

(** ** Doubles *)

Definition f64_of_u64 (x : Z) : spec_float := binary_normalize 53 1024 x 0 false.
Definition f64_div : spec_float -> spec_float -> spec_float := SFdiv 53 1024.
Definition f64_mul : spec_float -> spec_float -> spec_float := SFmul 53 1024.

(** [x as u64]: truncation towards zero, saturating. *)
Definition f64_as_u64 (x : spec_float) : Z :=
  match x with
  | S754_finite false m e =>
      Z.min u64_max (if 0 <=? e then Z.pos m * 2 ^ e else Z.pos m / 2 ^ (- e))
  | S754_infinity false => u64_max
  | _ => 0
  end.

(** ** Euclid's algorithm: the [while] loop, with fuel *)

Fixpoint gcd_loop (fuel : nat) (x y : Z) : Z :=
  match fuel with
  | O => x
  | S fuel' => if y =? 0 then x else gcd_loop fuel' y (x mod y)
  end.

Definition gcd_fuel (y : Z) : nat := 2 * Z.to_nat (Z.log2 y) + 3.

Definition gcd (x y : Z) : Z := gcd_loop (gcd_fuel y) x y.

(** ** Token buckets *)

Inductive BucketReduction :=
| Failure
| Success
| OverConsumption (ratio : spec_float).

Record TokenBucket := mkTokenBucket {
  tb_size : Z;
  initial_one_time_burst : Z;
  refill_time : Z;
  one_time_burst : Z;
  budget : Z;
  last_update : Z;
  processed_capacity : Z;
  processed_refill_time : Z;
}.

Definition set_one_time_burst (b : TokenBucket) (v : Z) : TokenBucket :=
  mkTokenBucket (tb_size b) (initial_one_time_burst b) (refill_time b) v (budget b)
    (last_update b) (processed_capacity b) (processed_refill_time b).
Definition set_budget (b : TokenBucket) (v : Z) : TokenBucket :=
  mkTokenBucket (tb_size b) (initial_one_time_burst b) (refill_time b) (one_time_burst b) v
    (last_update b) (processed_capacity b) (processed_refill_time b).
Definition set_last_update (b : TokenBucket) (v : Z) : TokenBucket :=
  mkTokenBucket (tb_size b) (initial_one_time_burst b) (refill_time b) (one_time_burst b)
    (budget b) v (processed_capacity b) (processed_refill_time b).

Definition TokenBucket_new (size burst complete_refill_time_ms now : Z) : outcome TokenBucket :=
  if (size =? 0) || (complete_refill_time_ms =? 0) then Panic else
  complete_refill_time_ns ← umul u64_max complete_refill_time_ms NANOSEC_IN_ONE_MILLISEC;
  let common_factor := gcd size complete_refill_time_ns in
  if common_factor =? 0 then Panic else
  Ret (mkTokenBucket size burst complete_refill_time_ms burst size now
         (size / common_factor) (complete_refill_time_ns / common_factor)).

(** [elapsed] is read at [t1], the new [last_update] at [t2]. *)
Definition auto_replenish (b : TokenBucket) (t1 t2 : Z) : outcome TokenBucket :=
  let time_delta := Z.max 0 (t1 - last_update b) mod 2 ^ 64 in
  let b := set_last_update b t2 in
  p ← umul u64_max time_delta (processed_capacity b);
  if processed_refill_time b =? 0 then Panic else
  let tokens := p / processed_refill_time b in
  s ← uadd u64_max (budget b) tokens;
  Ret (set_budget b (Z.min s (tb_size b))).

Definition reduce (b : TokenBucket) (tokens t1 t2 : Z) : outcome (BucketReduction * TokenBucket) :=
  if (0 <? one_time_burst b) && (tokens <=? one_time_burst b) then
    Ret (Success, set_last_update (set_one_time_burst b (one_time_burst b - tokens)) t1)
  else
    let '(tokens, b) :=
      if 0 <? one_time_burst b then (tokens - one_time_burst b, set_one_time_burst b 0)
      else (tokens, b) in
    if budget b <? tokens then
      b ← auto_replenish b t1 t2;
      if tb_size b <? tokens then
        rest ← usub tokens (budget b);
        Ret (OverConsumption (f64_div (f64_of_u64 rest) (f64_of_u64 (tb_size b))), set_budget b 0)
      else if budget b <? tokens then Ret (Failure, b)
      else Ret (Success, set_budget b (budget b - tokens))
    else Ret (Success, set_budget b (budget b - tokens)).

Definition force_replenish (b : TokenBucket) (tokens : Z) : outcome TokenBucket :=
  if 0 <? one_time_burst b then
    v ← uadd u64_max (one_time_burst b) tokens; Ret (set_one_time_burst b v)
  else
    s ← uadd u64_max (budget b) tokens; Ret (set_budget b (Z.min s (tb_size b))).

Definition capacity (b : TokenBucket) : Z := tb_size b.
Definition refill_time_ms (b : TokenBucket) : Z := refill_time b.

(** ** The limiter *)

Inductive TokenType := Bytes | Ops.

Inductive BucketUpdate :=
| BU_None
| BU_Disabled
| BU_Update (tb : TokenBucket).

(** The state of the timer file descriptor is the one-shot duration, in
    milliseconds, that it was last set to. *)
Record RateLimiter := mkRateLimiter {
  bandwidth : option TokenBucket;
  ops : option TokenBucket;
  timer_fd : option Z;
  timer_active : bool;
}.

Definition set_buckets (l : RateLimiter) (bw op : option TokenBucket) : RateLimiter :=
  mkRateLimiter bw op (timer_fd l) (timer_active l).

Definition make_bucket (total_capacity burst complete_refill_time_ms now : Z)
    : outcome (option TokenBucket) :=
  if negb (total_capacity =? 0) && negb (complete_refill_time_ms =? 0) then
    b ← TokenBucket_new total_capacity burst complete_refill_time_ms now; Ret (Some b)
  else Ret None.

(** [timer_ok]: whether the kernel could create the timer. *)
Definition RateLimiter_new (bc bb bt oc ob ot now1 now2 : Z) (timer_ok : bool)
    : outcome (option RateLimiter) :=
  bytes_token_bucket ← make_bucket bc bb bt now1;
  ops_token_bucket ← make_bucket oc ob ot now2;
  Ret (if timer_ok then Some (mkRateLimiter bytes_token_bucket ops_token_bucket None false)
       else None).

Definition activate_timer (l : RateLimiter) (timer_state : Z) : RateLimiter :=
  mkRateLimiter (bandwidth l) (ops l) (Some timer_state) true.

Definition bucket_of (l : RateLimiter) (ty : TokenType) : option TokenBucket :=
  match ty with Bytes => bandwidth l | Ops => ops l end.

Definition set_bucket (l : RateLimiter) (ty : TokenType) (b : TokenBucket) : RateLimiter :=
  match ty with
  | Bytes => set_buckets l (Some b) (ops l)
  | Ops => set_buckets l (bandwidth l) (Some b)
  end.

Definition consume (l : RateLimiter) (tokens : Z) (ty : TokenType) (t1 t2 : Z)
    : outcome (bool * RateLimiter) :=
  if timer_active l then Ret (false, l) else
  match bucket_of l ty with
  | None => Ret (true, l)
  | Some bucket =>
      let refill := refill_time_ms bucket in
      '(red, bucket) ← reduce bucket tokens t1 t2;
      let l := set_bucket l ty bucket in
      match red with
      | Failure =>
          Ret (false, if negb (timer_active l) then activate_timer l REFILL_TIMER_INTERVAL_MS else l)
      | Success => Ret (true, l)
      | OverConsumption ratio =>
          Ret (true, activate_timer l (f64_as_u64 (f64_mul ratio (f64_of_u64 refill))))
      end
  end.

Definition manual_replenish (l : RateLimiter) (tokens : Z) (ty : TokenType) : outcome RateLimiter :=
  match bucket_of l ty with
  | None => Ret l
  | Some bucket => b ← force_replenish bucket tokens; Ret (set_bucket l ty b)
  end.

Definition is_blocked (l : RateLimiter) : bool := timer_active l.

(** [expirations] is what reading the timer returned. *)
Definition event_handler (l : RateLimiter) (expirations : Z)
    : result unit unit * RateLimiter :=
  if expirations =? 0 then (Err tt, l)
  else (Ok tt, mkRateLimiter (bandwidth l) (ops l) (timer_fd l) false).

Definition update_bucket (u : BucketUpdate) (b : option TokenBucket) : option TokenBucket :=
  match u with BU_Disabled => None | BU_Update tb => Some tb | BU_None => b end.

Definition update_buckets (l : RateLimiter) (bytes opsu : BucketUpdate) : RateLimiter :=
  set_buckets l (update_bucket bytes (bandwidth l)) (update_bucket opsu (ops l)).
