(* ===== verification/RateLimiterProps.v ===== *)
(** * Properties of the rate limiter

    The simplified fraction is exact, a bucket never hands out more than its
    burst, its capacity and what time has refilled, and a limiter that refused a
    request stays blocked until its timer fires. *)
From S2P Require Import Prelude RateLimiter.

(** ** Euclid *)

Lemma gcd_loop_spec fuel x y :
  0 <= x -> 0 <= y -> (2 * Z.to_nat (Z.log2 y) + 2 <= fuel)%nat \/ y = 0 ->
  gcd_loop fuel x y = Z.gcd x y.
Proof.
  revert x y. induction fuel as [fuel IH] using lt_wf_ind. intros x y Hx Hy Hf.
  destruct (Z.eqb_spec y 0) as [->|Hy0].
  { rewrite Z.gcd_0_r, Z.abs_eq by done. by destruct fuel. }
  destruct Hf as [Hf|]; [|done]. destruct fuel as [|fuel]; [lia|]. cbn.
  destruct (Z.eqb_spec y 0); [done|]. pose proof (Z.mod_pos_bound x y ltac:(lia)) as Hr.
  rewrite (Z.gcd_comm x y), <- (Z.gcd_mod x y), Z.gcd_comm by done.
  destruct (Z.eqb_spec (x mod y) 0) as [E|Hr0].
  { rewrite E. apply IH; [lia|lia|lia|by right]. }
  destruct fuel as [|fuel]; [lia|]. cbn. destruct (Z.eqb_spec (x mod y) 0); [done|].
  pose proof (Z.mod_pos_bound y (x mod y) ltac:(lia)) as Hr2.
  rewrite (Z.gcd_comm y (x mod y)), <- (Z.gcd_mod y (x mod y)), Z.gcd_comm by done.
  apply IH; [lia..|]. destruct (Z.eqb_spec (y mod (x mod y)) 0); [by right|left].
  assert (Hhalf : 2 * (y mod (x mod y)) < y).
  { pose proof (Z.div_mod y (x mod y) ltac:(lia)).
    assert (1 <= y / (x mod y)) by (apply Z.div_le_lower_bound; lia). nia. }
  assert (Z.log2 (y mod (x mod y)) + 1 <= Z.log2 y).
  { rewrite Z.add_1_r, <- (Z.log2_double (y mod (x mod y))) by lia. apply Z.log2_le_mono. lia. }
  pose proof (Z.log2_nonneg (y mod (x mod y))). lia.
Qed.

Lemma gcd_ok x y : 0 <= x -> 0 <= y -> gcd x y = Z.gcd x y.
Proof. intros. apply gcd_loop_spec; [done..|]. left. unfold gcd_fuel. lia. Qed.

(** ** Buckets *)

(** The refill time in nanoseconds. *)
Definition refill_ns (b : TokenBucket) : Z := refill_time b * NANOSEC_IN_ONE_MILLISEC.

Record bucket_ok (b : TokenBucket) : Prop := {
  bo_size : 0 < tb_size b <= u64_max;
  bo_burst : 0 <= one_time_burst b <= u64_max;
  bo_budget : 0 <= budget b <= tb_size b;
  bo_refill : 0 < refill_ns b;
  bo_pc : 0 < processed_capacity b;
  bo_pr : 0 < processed_refill_time b;
  bo_fraction : processed_capacity b * refill_ns b = tb_size b * processed_refill_time b;
}.

(** What a bucket can hand out now. *)
Definition credit (b : TokenBucket) : Z := one_time_burst b + budget b.

Lemma TokenBucket_new_ok size burst ms now :
  0 < size <= u64_max -> 0 <= burst <= u64_max -> 0 < ms -> ms * NANOSEC_IN_ONE_MILLISEC <= u64_max ->
  exists b, TokenBucket_new size burst ms now = Ret b /\ bucket_ok b /\
    credit b = burst + size /\ last_update b = now /\ tb_size b = size /\ refill_time b = ms.
Proof.
  intros Hs Hb Hms Hns. unfold TokenBucket_new.
  destruct (Z.eqb_spec size 0), (Z.eqb_spec ms 0); try lia. cbn [orb].
  unfold umul. destruct (Z.leb_spec (ms * NANOSEC_IN_ONE_MILLISEC) u64_max); [|lia].
  set (ns := ms * NANOSEC_IN_ONE_MILLISEC) in *.
  assert (0 < ns) by (unfold ns, NANOSEC_IN_ONE_MILLISEC; lia).
  cbn [mbind outcome_bind]. rewrite gcd_ok by lia.
  pose proof (Z.gcd_nonneg size ns). pose proof (Z.gcd_divide_l size ns) as [a Ha].
  pose proof (Z.gcd_divide_r size ns) as [c Hc].
  destruct (Z.eqb_spec (Z.gcd size ns) 0) as [E|]; [rewrite E in *; lia|].
  assert (size / Z.gcd size ns = a) as -> by (rewrite Ha at 1; apply Z.div_mul; lia).
  assert (ns / Z.gcd size ns = c) as -> by (rewrite Hc at 1; apply Z.div_mul; lia).
  eexists. split; [done|]. split; [|done]. fold ns.
  split; unfold refill_ns; cbn; fold ns; try lia; nia.
Qed.

(** [auto_replenish] adds at most what the elapsed time pays for. *)
Lemma auto_replenish_ok b t1 t2 :
  bucket_ok b -> last_update b <= t1 ->
  (t1 - last_update b) * processed_capacity b + tb_size b <= u64_max ->
  exists b', auto_replenish b t1 t2 = Ret b' /\ bucket_ok b' /\
    budget b <= budget b' /\ one_time_burst b' = one_time_burst b /\ last_update b' = t2 /\
    tb_size b' = tb_size b /\ refill_time b' = refill_time b /\
    processed_capacity b' = processed_capacity b /\
    (budget b' - budget b) * refill_ns b <= (t1 - last_update b) * tb_size b.
Proof.
  intros [Hs Hbu Hbg Hrf Hpc Hpr Hfr] Ht Hov. unfold auto_replenish. cbn [processed_capacity set_last_update].
  assert (t1 - last_update b <= u64_max) by nia.
  rewrite Z.max_r by lia. rewrite Z.mod_small by ulia.
  unfold umul. destruct (Z.leb_spec ((t1 - last_update b) * processed_capacity b) u64_max); [|lia].
  cbn [mbind outcome_bind processed_refill_time set_last_update].
  destruct (Z.eqb_spec (processed_refill_time b) 0); [lia|].
  set (tk := (t1 - last_update b) * processed_capacity b / processed_refill_time b).
  assert (0 <= tk) by (apply Z.div_pos; nia).
  assert (Htk : tk * processed_refill_time b <= (t1 - last_update b) * processed_capacity b)
    by (rewrite Z.mul_comm; apply Z.mul_div_le; lia).
  assert (tk <= (t1 - last_update b) * processed_capacity b) by nia.
  rewrite uadd_Ret by (cbn; lia). cbn. eexists. split; [done|].
  assert (Hpay : tk * refill_ns b <= (t1 - last_update b) * tb_size b) by nia.
  split; [split; unfold refill_ns in *; cbn; lia|].
  cbn. split_and!; auto; try lia. unfold refill_ns in *. cbn. nia.
Qed.

(** What the answer of [reduce] hands out of [tokens]. *)
Definition granted_tokens (r : BucketReduction) (tokens : Z) : Z :=
  match r with Failure => 0 | _ => tokens end.

(** A request that a bucket of this size can serve. *)
Definition servable (b : TokenBucket) (tokens : Z) : Prop := 0 <= tokens <= tb_size b.

(** The part of [reduce] after the burst is used up. *)
Lemma reduce_budget b tokens t1 t2 :
  bucket_ok b -> one_time_burst b = 0 -> servable b tokens -> last_update b <= t1 <= t2 ->
  (t1 - last_update b) * processed_capacity b + tb_size b <= u64_max ->
  exists r b', reduce b tokens t1 t2 = Ret (r, b') /\ bucket_ok b' /\
    (r = Success \/ r = Failure /\ budget b' < tokens) /\
    tb_size b' = tb_size b /\ refill_time b' = refill_time b /\
    processed_capacity b' = processed_capacity b /\ one_time_burst b' = 0 /\
    last_update b <= last_update b' <= t2 /\
    (granted_tokens r tokens + budget b' - budget b) * refill_ns b
      <= (last_update b' - last_update b) * tb_size b.
Proof.
  intros Hok Hb0 [Ht0 Hts] Htime Hov. unfold reduce. rewrite Hb0. cbn [Z.ltb Z.compare andb].
  pose proof Hok as [Hs _ Hbg Hrf Hpc Hpr Hfr].
  destruct (Z.ltb_spec (budget b) tokens) as [Hlt|Hge].
  - destruct (auto_replenish_ok b t1 t2) as (b1&E&Hok1&Hle&Hb1&Hlu&Hsz&Hrt&Hpc1&Hpay); [done|lia..|].
    rewrite E. cbn [mbind outcome_bind]. rewrite Hsz.
    destruct (Z.ltb_spec (tb_size b) tokens); [lia|].
    pose proof Hok1 as [? ? ? ? ? ? ?].
    destruct (Z.ltb_spec (budget b1) tokens); eexists _, _; (split; [done|]).
    + split_and!; auto; try lia. cbn. rewrite Hlu. nia.
    + split; [split; cbn; unfold refill_ns in *; cbn; lia|].
      cbn. split_and!; auto; try lia. rewrite Hlu.
      replace (tokens + (budget b1 - tokens) - budget b) with (budget b1 - budget b) by lia. nia.
  - eexists _, _. split; [done|].
    split; [split; cbn; unfold refill_ns in *; cbn; lia|].
    cbn. split_and!; auto; lia.
Qed.

Lemma reduce_step b tokens t1 t2 :
  bucket_ok b -> servable b tokens -> last_update b <= t1 <= t2 ->
  (t1 - last_update b) * processed_capacity b + tb_size b <= u64_max ->
  exists r b', reduce b tokens t1 t2 = Ret (r, b') /\ bucket_ok b' /\
    (r = Success \/ r = Failure) /\
    tb_size b' = tb_size b /\ refill_time b' = refill_time b /\
    processed_capacity b' = processed_capacity b /\
    last_update b <= last_update b' <= t2 /\
    (granted_tokens r tokens + credit b' - credit b) * refill_ns b
      <= (last_update b' - last_update b) * tb_size b.
Proof.
  intros Hok [Ht0 Hts] Htime Hov. pose proof Hok as [Hs Hbu Hbg Hrf Hpc Hpr Hfr].
  destruct (Z.ltb_spec 0 (one_time_burst b)) as [Hb|Hb].
  - destruct (Z.leb_spec tokens (one_time_burst b)).
    { unfold reduce. destruct (Z.ltb_spec 0 (one_time_burst b)); [|lia].
      destruct (Z.leb_spec tokens (one_time_burst b)); [|lia]. cbn.
      eexists _, _. split; [done|]. split; [split; cbn; unfold refill_ns in *; cbn; lia|].
      unfold credit. cbn. split_and!; auto; try lia. nia. }
    destruct (reduce_budget (set_one_time_burst b 0) (tokens - one_time_burst b) t1 t2)
      as (r&b'&E&Hok'&Hr&?&?&?&Hz&?&Hpay); cbn in *; try (split; cbn; lia); try lia.
    { split; cbn; unfold refill_ns in *; cbn; lia. }
    exists r, b'. unfold reduce in *. cbn [one_time_burst set_one_time_burst Z.ltb Z.compare andb] in E.
    destruct (Z.ltb_spec 0 (one_time_burst b)); [|lia].
    destruct (Z.leb_spec tokens (one_time_burst b)); [lia|]. cbn [andb].
    split; [exact E|]. split_and!; auto; try tauto. unfold credit, refill_ns in *. cbn in *.
    rewrite Hz. destruct r; cbn in *; nia.
  - destruct (reduce_budget b tokens t1 t2) as (r&b'&E&Hok'&Hr&?&?&?&Hz&?&Hpay);
      auto; [lia|by split|].
    exists r, b'. split_and!; auto; try tauto. unfold credit. rewrite Hz.
    replace (one_time_burst b) with 0 by lia. rewrite Z.add_0_l. done.
Qed.

(** ** Sequences of requests *)

(** A request: tokens and the two clock readings. *)
Definition request : Type := Z * Z * Z.

(** The tokens handed out by a sequence of requests, and the bucket after it. *)
Fixpoint serve (b : TokenBucket) (l : list request) : outcome (Z * TokenBucket) :=
  match l with
  | [] => Ret (0, b)
  | (tokens, t1, t2) :: l' =>
      '(r, b') ← reduce b tokens t1 t2;
      '(sum, b'') ← serve b' l';
      Ret (granted_tokens r tokens + sum, b'')
  end.

(** The requests come in the order of time, from [t] to [tend]. *)
Fixpoint in_order (t tend : Z) (l : list request) : Prop :=
  match l with
  | [] => t <= tend
  | (_, t1, t2) :: l' => t <= t1 <= t2 /\ in_order t2 tend l'
  end.

Lemma in_order_end t tend l : in_order t tend l -> t <= tend.
Proof. revert t. induction l as [|[[tk t1] t2] l IH]; cbn; [done|]. intros t [? ?%IH]. lia. Qed.

(** C39: rate limit: for any sequence of requests that each fit the bucket, over any
    time in which the elapsed nanoseconds times the reduced capacity and the size
    stay within 64 bits (beyond that the refill overflows), the bucket answers every request
    and hands out in total at most its burst, its budget and the exact share of its
    capacity that the elapsed time refills. *)
Theorem rate_bound b l t tend :
  bucket_ok b -> last_update b <= t -> in_order t tend l ->
  Forall (fun q => servable b q.1.1) l ->
  (tend - last_update b) * processed_capacity b + tb_size b <= u64_max ->
  exists total b', serve b l = Ret (total, b') /\ bucket_ok b' /\
    (total - (one_time_burst b + budget b)) * refill_ns b <= (tend - last_update b) * tb_size b.
Proof.
  intros Hok Hlu Hord Hserv Hov.
  cut (exists total b', serve b l = Ret (total, b') /\ bucket_ok b' /\ last_update b' <= tend /\
    (total + credit b' - credit b) * refill_ns b <= (last_update b' - last_update b) * tb_size b).
  { intros (total&b'&E&Hok'&Hle&Hpay). exists total, b'. split_and!; auto.
    pose proof (bo_size _ Hok). pose proof (bo_refill _ Hok).
    destruct Hok' as [_ ? ? _ _ _ _]. unfold credit in *. nia. }
  revert b t Hok Hlu Hord Hserv Hov. induction l as [|[[tk t1] t2] l IH]; intros b t Hok Hlu Hord Hserv Hov.
  { exists 0, b. cbn in *. split_and!; auto; lia. }
  cbn [serve]. destruct Hord as [Ht Hord]. apply Forall_cons in Hserv as [Hs Hserv]. cbn in Hs.
  pose proof (in_order_end _ _ _ Hord). pose proof (bo_pc _ Hok).
  destruct (reduce_step b tk t1 t2) as (r&b1&E&Hok1&_&Hsz&Hrt&Hpc&Hlu1&Hpay); [done..|lia|nia|].
  rewrite E. cbn [mbind outcome_bind].
  destruct (IH b1 t2) as (sum&b2&E2&Hok2&Hle2&Hpay2); [done|lia|done| |rewrite Hpc, Hsz; nia|].
  { eapply Forall_impl; [exact Hserv|]. intros q. unfold servable. by rewrite Hsz. }
  rewrite E2. cbn [mbind outcome_bind]. eexists _, _. split; [done|]. split_and!; auto.
  unfold refill_ns in *. rewrite Hrt, Hsz in Hpay2. nia.
Qed.

(** ** Refused requests *)

(** The burst is used up before the budget is touched. *)
Definition full_while_burst (b : TokenBucket) : Prop := 0 < one_time_burst b -> budget b = tb_size b.

Lemma auto_replenish_grows b1 b2 t1 t2 :
  auto_replenish b1 t1 t2 = Ret b2 -> budget b1 <= tb_size b1 ->
  0 < processed_refill_time b1 -> 0 < processed_capacity b1 ->
  one_time_burst b2 = one_time_burst b1 /\ budget b1 <= budget b2 /\ tb_size b2 = tb_size b1.
Proof.
  intros E Hle Hp1 Hp2. unfold auto_replenish in E.
  apply outcome_bind_Ret in E as (p&Ep&E). cbn in E.
  destruct (Z.eqb_spec (processed_refill_time b1) 0); [lia|].
  apply outcome_bind_Ret in E as (sm&Es&E). injection E as <-.
  unfold umul in Ep. case_match; [|done]. injection Ep as <-.
  unfold uadd in Es. case_match; [|done]. injection Es as <-. cbn [one_time_burst budget tb_size
    set_budget set_last_update processed_capacity].
  split_and!; auto. apply Z.min_glb; [|done].
  assert (0 <= Z.max 0 (t1 - last_update b1) mod 2 ^ 64) by (by apply Z.mod_pos_bound).
  assert (0 <= Z.max 0 (t1 - last_update b1) mod 2 ^ 64 * processed_capacity b1
    / processed_refill_time b1) by (apply Z.div_pos; nia). cbn in *. lia.
Qed.

(** A refused request costs nothing: as in a fresh bucket, [reduce] and
    [force_replenish] keep the budget full as long as there is burst credit, and a
    [reduce] that fails, whatever the clock says, leaves at least the credit there
    was before. *)
Theorem refused_costs_nothing b tokens t1 t2 :
  bucket_ok b -> full_while_burst b -> 0 <= tokens ->
  (forall r b', reduce b tokens t1 t2 = Ret (r, b') ->
     full_while_burst b' /\ (r = Failure -> credit b <= credit b')) /\
  (forall b', force_replenish b tokens = Ret b' -> full_while_burst b').
Proof.
  intros [Hs Hbu Hbg Hrf Hpc Hpr Hfr] Hfull Htk. unfold full_while_burst, credit in *. split.
  - intros r b'. unfold reduce.
    destruct (Z.ltb_spec 0 (one_time_burst b)) as [Hb|Hb]; cbn.
    + destruct (Z.leb_spec tokens (one_time_burst b)); [intros [= <- <-]; cbn; split; [lia|done]|].
      destruct (Z.ltb_spec (budget b) (tokens - one_time_burst b));
        [|intros [= <- <-]; cbn; split; [lia|done]].
      intros (b1&E1&E)%outcome_bind_Ret. apply auto_replenish_grows in E1 as (H1&H2&H3); cbn in *; try lia.
      rewrite H3 in E. destruct (Z.ltb_spec (tb_size b) (tokens - one_time_burst b)); [|lia].
      apply outcome_bind_Ret in E as (rest&_&E). injection E as <- <-. cbn. split; [lia|done].
    + destruct (Z.ltb_spec (budget b) tokens); [|intros [= <- <-]; cbn; split; [lia|done]].
      intros (b1&E1&E)%outcome_bind_Ret. apply auto_replenish_grows in E1 as (H1&H2&H3); cbn in *; try lia.
      case_match; [apply outcome_bind_Ret in E as (rest&_&E); injection E as <- <-; cbn; split; [lia|done]|].
      case_match; injection E as <- <-; cbn; split; try done; lia.
  - intros b'. unfold force_replenish. case_match; intros (v&_&E)%outcome_bind_Ret;
      injection E as <-; cbn; zbool; [auto|lia].
Qed.

(** ** The limiter *)

Definition limiter_ok (l : RateLimiter) : Prop :=
  forall ty b, bucket_of l ty = Some b -> bucket_ok b.

(** The clock readings of a request on a bucket do not overflow the refill. *)
Definition clock_ok (b : TokenBucket) (t1 t2 : Z) : Prop :=
  last_update b <= t1 <= t2 /\ (t1 - last_update b) * processed_capacity b + tb_size b <= u64_max.

(** [consume] on every branch: a blocked limiter refuses and does not change; a
    disabled bucket grants; a request that fits is granted without blocking, or
    refused with the refill timer armed for 10 ms; the other bucket is never touched,
    and the timer event unblocks. *)
Theorem consume_spec l tokens ty t1 t2 :
  (is_blocked l = true -> consume l tokens ty t1 t2 = Ret (false, l)) /\
  (is_blocked l = false -> bucket_of l ty = None -> consume l tokens ty t1 t2 = Ret (true, l)) /\
  (is_blocked l = false -> limiter_ok l -> forall b, bucket_of l ty = Some b ->
     servable b tokens -> clock_ok b t1 t2 ->
     exists granted l', consume l tokens ty t1 t2 = Ret (granted, l') /\ limiter_ok l' /\
       is_blocked l' = negb granted /\
       (granted = false -> timer_fd l' = Some REFILL_TIMER_INTERVAL_MS) /\
       (forall ty', ty' <> ty -> bucket_of l' ty' = bucket_of l ty') /\
       forall n, n <> 0 -> exists l'', event_handler l' n = (Ok tt, l'') /\ is_blocked l'' = false).
Proof.
  unfold is_blocked, consume. split_and!.
  - by intros ->.
  - by intros -> ->.
  - intros Hnb Hok b Hb Hserv [Htime Hov]. rewrite Hnb, Hb.
    destruct (reduce_step b tokens t1 t2 (Hok _ _ Hb) Hserv Htime Hov)
      as (r&b'&E&Hok'&Hr&_). rewrite E. cbn.
    assert (Hset : limiter_ok (set_bucket l ty b')).
    { intros ty' b0. specialize (Hok ty' b0). destruct ty, ty'; cbn in *; naive_solver. }
    assert (timer_active (set_bucket l ty b') = false) as Hta by (by destruct ty).
    assert (Hother : forall ty', ty' <> ty -> bucket_of (set_bucket l ty b') ty' = bucket_of l ty')
      by (by intros []; destruct ty).
    destruct Hr as [-> | ->]; rewrite ?Hta; cbn; eexists _, _; (split; [done|]); split_and!; auto; try done.
    all: intros n Hn; unfold event_handler; destruct (Z.eqb_spec n 0); [done|]; by eexists.
Qed.

(** The reduced fraction does not always keep the refill from overflowing: a
    bucket of a prime size that is idle for 20 seconds. *)
Lemma replenish_overflow :
  (b ← TokenBucket_new 1000000007 0 1000 0; '(_, b) ← reduce b 1000000007 1 1;
   reduce b 1 20000000000 20000000000) = Panic.
Proof. vm_compute. reflexivity. Qed.

(** ** The properties at work *)

Definition demo_bucket : TokenBucket := mkTokenBucket 1000 10 1000 10 1000 0 1 1000000.

Lemma demo_bucket_new : TokenBucket_new 1000 10 1000 0 = Ret demo_bucket.
Proof. reflexivity. Qed.

Lemma demo_bucket_ok : bucket_ok demo_bucket.
Proof. split; cbn; unfold refill_ns, NANOSEC_IN_ONE_MILLISEC; cbn; ulia. Qed.

Lemma rate_bound_witness :
  exists total b', serve demo_bucket [(800, 5, 6); (800, 7, 8); (900, 500000000, 500000001)]
      = Ret (total, b') /\ total = 800.
Proof.
  destruct (rate_bound demo_bucket [(800, 5, 6); (800, 7, 8); (900, 500000000, 500000001)] 0 1000000000)
    as (total&b'&E&_); [exact demo_bucket_ok|cbn; lia|cbn; lia| |cbn; ulia|].
  - repeat constructor; cbn; lia.
  - exists total, b'. split; [exact E|]. vm_compute in E. injection E as <- _. reflexivity.
Defined.

Lemma refused_costs_nothing_witness :
  exists b', reduce demo_bucket 300 5 6 = Ret (Success, b') /\ full_while_burst b'.
Proof.
  destruct (reduce demo_bucket 300 5 6) as [[r b']|] eqn:E; [|vm_compute in E; discriminate E].
  destruct (refused_costs_nothing demo_bucket 300 5 6) as [H _];
    [exact demo_bucket_ok|intros _; reflexivity|lia|].
  exists b'. destruct (H r b' E) as [Hf _]. split; [|exact Hf].
  vm_compute in E. injection E as <- <-. reflexivity.
Defined.

Lemma consume_spec_witness :
  exists granted l', consume (mkRateLimiter (Some demo_bucket) None None false) 700 Bytes 5 6
      = Ret (granted, l') /\ is_blocked l' = negb granted.
Proof.
  destruct (consume_spec (mkRateLimiter (Some demo_bucket) None None false) 700 Bytes 5 6) as (_&_&H).
  destruct (H eq_refl) with (b := demo_bucket) as (g&l'&E&_&Hb&_);
    [intros [] b; cbn; [intros [= <-]; exact demo_bucket_ok|discriminate]|reflexivity|
     split; cbn; lia|split; cbn; ulia|].
  exists g, l'. split; [exact E|exact Hb].
Defined.
