(* ===== verification/VsockTxBuf.v ===== *)
(** * The TX ring buffer of vsock connections

    Model of src/dragonball/dbs_virtio_devices/src/vsock/csm/txbuf.rs and of the
    stream interface it writes to (the [VsockStream] trait of backend/mod.rs
    over [std::io::Read] and [std::io::Write]).  The abstract value of a buffer
    is a byte queue: [push] appends to it and [flush_to] moves a prefix of it to
    the stream, although both work on a ring of 64 KiB with wrapping 32-bit
    offsets. *)
From S2P Require Import Prelude.

(** ** Streams *)

Inductive ErrorKind := WouldBlock | BrokenPipe | Interrupted | OtherError.

#[global] Instance ErrorKind_eq_dec : EqDecision ErrorKind.
Proof. solve_decision. Defined.

Inductive VsockBackendType := UnixStream | Tcp | Inner | HybridStream.

#[global] Instance VsockBackendType_eq_dec : EqDecision VsockBackendType.
Proof. solve_decision. Defined.

(** Bytes are numbers; [stream_write] takes a slice and returns how much of it
    was accepted, [stream_read] takes the length of the slice to fill and
    returns the bytes put there, [recv_data_fd] returns the bytes and the file
    descriptors received. *)
Class VsockStream (W : Type) := {
  stream_write : W -> list Z -> result ErrorKind nat * W;
  stream_read : W -> nat -> result ErrorKind (list Z) * W;
  stream_fd : W -> Z;
  backend_type : W -> VsockBackendType;
  recv_data_fd : W -> result ErrorKind (list Z * list Z);
}.

(** What [std::io::Write] and [std::io::Read] document: a write accepts a prefix
    of the slice, a failed write nothing, a read fills at most the slice and
    does not change what was written; neither changes the file descriptor. *)
Class VsockStreamLaws (W : Type) `{VsockStream W} := {
  stream_sent : W -> list Z;
  write_ok : forall w buf n w', stream_write w buf = (Ok n, w') ->
    (n <= length buf)%nat /\ stream_sent w' = stream_sent w ++ take n buf;
  write_err : forall w buf e w', stream_write w buf = (Err e, w') -> stream_sent w' = stream_sent w;
  read_ok : forall w n r w', stream_read w n = (r, w') ->
    stream_sent w' = stream_sent w /\
    match r with Ok bytes => (length bytes <= n)%nat | Err _ => True end;
  write_fd : forall w buf r w', stream_write w buf = (r, w') -> stream_fd w' = stream_fd w;
  read_fd : forall w n r w', stream_read w n = (r, w') -> stream_fd w' = stream_fd w;
}.

(** ** The buffer *)

Definition CONN_TX_BUF_SIZE : Z := 64 * 1024.

Inductive TxError := TxBufFull | TxBufFlush (e : ErrorKind) | StreamWrite (e : ErrorKind).

Definition TX_SIZE : nat := Z.to_nat CONN_TX_BUF_SIZE.

Record TxBuf := mkTxBuf { tx_data : option (list Z); tx_head : Z; tx_tail : Z }.

Definition TxBuf_default : TxBuf := mkTxBuf None 0 0.

Definition tx_len (b : TxBuf) : Z := wrapping_sub u32_max (tx_head b) (tx_tail b).

Definition tx_is_empty (b : TxBuf) : bool := tx_len b =? 0.

(** [list_inserts i k l] is [l[i..i+k.len()].copy_from_slice(k)]. *)
Definition tx_push (b : TxBuf) (src : list Z) : result TxError TxBuf :=
  if CONN_TX_BUF_SIZE <? tx_len b + Z.of_nat (length src) then Err TxBufFull else
  let data := default (replicate TX_SIZE 0) (tx_data b) in
  let head_ofs := Z.to_nat (tx_head b mod CONN_TX_BUF_SIZE) in
  let len := Nat.min (TX_SIZE - head_ofs) (length src) in
  let data := list_inserts head_ofs (take len src) data in
  let data := if (len <? length src)%nat then list_inserts 0 (drop len src) data else data in
  Ok (mkTxBuf (Some data) (wrapping_add u32_max (tx_head b) (as_u32 (Z.of_nat (length src))))
        (tx_tail b)).

(** The code recurses for the second write; the third call finds the buffer
    empty, so three levels of fuel are enough ([flush_to_ok]). *)
Fixpoint flush_loop {W} `{VsockStream W} (fuel : nat) (b : TxBuf) (sink : W)
    : outcome (result TxError nat * TxBuf * W) :=
  match fuel with
  | O => Panic
  | S fuel' =>
      if tx_is_empty b then Ret (Ok O, b, sink) else
      let tail_ofs := Z.to_nat (tx_tail b mod CONN_TX_BUF_SIZE) in
      let len_to_write := Nat.min (TX_SIZE - tail_ofs) (Z.to_nat (tx_len b)) in
      data ← unwrap (tx_data b);
      let '(r, sink) := stream_write sink (take len_to_write (drop tail_ofs data)) in
      match r with
      | Err e => Ret (Err (TxBufFlush e), b, sink)
      | Ok written =>
          let b := mkTxBuf (tx_data b) (tx_head b)
                     (wrapping_add u32_max (tx_tail b) (as_u32 (Z.of_nat written))) in
          if (written <? len_to_write)%nat then Ret (Ok written, b, sink) else
          '(r2, b, sink) ← flush_loop fuel' b sink;
          Ret (Ok (written + match r2 with Ok n => n | Err _ => O end)%nat, b, sink)
      end
  end.

Definition flush_to {W} `{VsockStream W} (b : TxBuf) (sink : W)
    : outcome (result TxError nat * TxBuf * W) := flush_loop 3 b sink.

(** ** The queue a buffer stands for *)

Definition tx_contents (b : TxBuf) : list Z :=
  match tx_data b with
  | None => []
  | Some d => take (Z.to_nat (tx_len b)) (rotate (Z.to_nat (tx_tail b)) d)
  end.

Definition tx_ok (b : TxBuf) : Prop :=
  in_u32 (tx_head b) /\ in_u32 (tx_tail b) /\ tx_len b <= CONN_TX_BUF_SIZE /\
  match tx_data b with
  | None => tx_len b = 0
  | Some d => length d = TX_SIZE
  end.

Lemma TX_SIZE_Z : Z.of_nat TX_SIZE = CONN_TX_BUF_SIZE.
Proof. unfold TX_SIZE. apply Z2Nat.id. unfold CONN_TX_BUF_SIZE. lia. Qed.

#[global] Opaque TX_SIZE.

Lemma tx_len_bound b : 0 <= tx_len b.
Proof. unfold tx_len, wrapping_sub. apply Z.mod_pos_bound. ulia. Qed.

Lemma tx_default_ok : tx_ok TxBuf_default.
Proof. split_and!; try done; ulia. Qed.

(** The ring position of the [i]-th byte of the queue. *)
Lemma contents_lookup b d i :
  tx_ok b -> tx_data b = Some d ->
  tx_contents b !! i =
    if decide (Z.of_nat i < tx_len b)
    then d !! Z.to_nat ((tx_tail b + Z.of_nat i) mod CONN_TX_BUF_SIZE) else None.
Proof.
  intros (Hh&Ht&Hlen&Hd) E. unfold tx_contents. rewrite E in *.
  pose proof (tx_len_bound b). pose proof TX_SIZE_Z as HS.
  destruct (decide _) as [Hi|Hi].
  - rewrite lookup_take_lt by lia. rewrite lookup_rotate_r by (unfold CONN_TX_BUF_SIZE in *; lia).
    f_equal. unfold rotate_nat_add. rewrite Hd, HS. f_equal. f_equal. f_equal. ulia.
  - apply lookup_take_ge. lia.
Qed.

(** ** Ring arithmetic *)

Lemma ring_case o z :
  0 <= o < CONN_TX_BUF_SIZE -> - CONN_TX_BUF_SIZE <= z <= CONN_TX_BUF_SIZE ->
  (o + z) mod CONN_TX_BUF_SIZE =
    if o + z <? 0 then o + z + CONN_TX_BUF_SIZE
    else if o + z <? CONN_TX_BUF_SIZE then o + z else o + z - CONN_TX_BUF_SIZE.
Proof.
  intros Ho Hz. destruct (Z.ltb_spec (o + z) 0); [|destruct (Z.ltb_spec (o + z) CONN_TX_BUF_SIZE)].
  - symmetry. apply (Z.mod_unique _ _ (-1)); lia.
  - apply Z.mod_small. lia.
  - symmetry. apply (Z.mod_unique _ _ 1); lia.
Qed.

(** Wrapping 32-bit arithmetic agrees with the ring. *)
Lemma mod_u32_ring x : (x mod (u32_max + 1)) mod CONN_TX_BUF_SIZE = x mod CONN_TX_BUF_SIZE.
Proof. apply Z.mod_mod_divide. exists 65536. reflexivity. Qed.

Lemma head_ring b : in_u32 (tx_head b) ->
  tx_head b mod CONN_TX_BUF_SIZE = (tx_tail b + tx_len b) mod CONN_TX_BUF_SIZE.
Proof.
  intros Hh. unfold tx_len, wrapping_sub. rewrite <- (mod_u32_ring (_ + _)), Zplus_mod_idemp_r.
  replace (tx_tail b + (tx_head b - tx_tail b)) with (tx_head b) by lia.
  by rewrite mod_u32_ring.
Qed.

Lemma ring_index b i :
  in_u32 (tx_head b) -> tx_len b <= CONN_TX_BUF_SIZE -> 0 <= i < CONN_TX_BUF_SIZE ->
  let o := tx_head b mod CONN_TX_BUF_SIZE in let z := i - tx_len b in
  (tx_tail b + i) mod CONN_TX_BUF_SIZE =
    if o + z <? 0 then o + z + CONN_TX_BUF_SIZE
    else if o + z <? CONN_TX_BUF_SIZE then o + z else o + z - CONN_TX_BUF_SIZE.
Proof.
  intros Hh Hl Hi o z. rewrite <- ring_case; [|by apply Z.mod_pos_bound|pose proof (tx_len_bound b); lia].
  unfold o. rewrite head_ring by done. rewrite Zplus_mod_idemp_l. f_equal. unfold z. lia.
Qed.

(** ** [push] *)

(** The two slice copies of [push], seen at one ring position. *)
Lemma ring_copy_lookup (d src : list Z) (ho p : nat) :
  length d = TX_SIZE -> (ho < TX_SIZE)%nat -> (length src <= TX_SIZE)%nat -> (p < TX_SIZE)%nat ->
  (let len := Nat.min (TX_SIZE - ho) (length src) in
   let d1 := list_inserts ho (take len src) d in
   if (len <? length src)%nat then list_inserts 0 (drop len src) d1 else d1 : list Z) !! p =
  if decide (ho <= p < ho + length src)%nat then src !! (p - ho)%nat
  else if decide (p + TX_SIZE < ho + length src)%nat then src !! (p + TX_SIZE - ho)%nat
  else d !! p.
Proof.
  intros Hd Hho Hsrc Hp. cbn zeta.
  remember (Nat.min (TX_SIZE - ho) (length src)) as len eqn:Elen.
  assert (Hlen : length (take len src) = len) by (rewrite length_take; lia).
  assert (Hfirst : list_inserts ho (take len src) d !! p =
    if decide (ho <= p < ho + len)%nat then src !! (p - ho)%nat else d !! p).
  { destruct (decide _) as [Hin|Hout].
    - rewrite list_lookup_inserts by lia. apply lookup_take_lt. lia.
    - destruct (decide (p < ho)%nat); [by apply list_lookup_inserts_lt|].
      apply list_lookup_inserts_ge. lia. }
  destruct (Nat.ltb_spec len (length src)).
  - destruct (decide (p < length src - len)%nat) as [Hw|Hw].
    + rewrite list_lookup_inserts by (rewrite ?length_drop, ?length_inserts; lia).
      rewrite lookup_drop. rewrite (decide_False (P := (ho <= p < ho + length src)%nat)) by lia.
      rewrite decide_True by lia. f_equal. lia.
    + rewrite list_lookup_inserts_ge by (rewrite length_drop; lia). rewrite Hfirst.
      destruct (decide (ho <= p < ho + len)%nat), (decide (ho <= p < ho + length src)%nat);
        try lia; [done|]. by rewrite decide_False by lia.
  - rewrite Hfirst. clear Hfirst. replace len with (length src) by lia.
    destruct (decide _); [done|]. by rewrite decide_False by lia.
Qed.

Lemma push_len b src n :
  in_u32 (tx_head b) -> tx_len b + Z.of_nat n <= CONN_TX_BUF_SIZE ->
  wrapping_sub u32_max (wrapping_add u32_max (tx_head b) (as_u32 (Z.of_nat n))) (tx_tail b)
    = tx_len (mkTxBuf src (tx_head b) (tx_tail b)) + Z.of_nat n.
Proof.
  intros Hh Hn. unfold tx_len, wrapping_sub, wrapping_add, as_u32 in *. cbn in *.
  change (2 ^ 32) with (u32_max + 1). change 4294967296 with (u32_max + 1) in *.
  rewrite Zplus_mod_idemp_r. rewrite Zminus_mod_idemp_l.
  replace (tx_head b + Z.of_nat n - tx_tail b) with ((tx_head b - tx_tail b) + Z.of_nat n) by lia.
  rewrite <- Zplus_mod_idemp_l. apply Z.mod_small.
  pose proof (Z.mod_pos_bound (tx_head b - tx_tail b) (u32_max + 1)).
  unfold CONN_TX_BUF_SIZE in *. ulia.
Qed.

Lemma tx_push_ok b src :
  tx_ok b ->
  if CONN_TX_BUF_SIZE <? tx_len b + Z.of_nat (length src) then tx_push b src = Err TxBufFull
  else exists b', tx_push b src = Ok b' /\ tx_ok b' /\ tx_contents b' = tx_contents b ++ src.
Proof.
  intros Hok. pose proof Hok as (Hh&Ht&Hl&Hd). unfold tx_push.
  destruct (Z.ltb_spec CONN_TX_BUF_SIZE (tx_len b + Z.of_nat (length src))) as [|Hfit]; [done|].
  eexists. split; [done|]. pose proof (tx_len_bound b). pose proof TX_SIZE_Z as HS.
  set (d := default (replicate TX_SIZE 0) (tx_data b)).
  assert (Hd' : length d = TX_SIZE).
  { unfold d. destruct (tx_data b); [done|]. apply length_replicate. }
  set (ho := Z.to_nat (tx_head b mod CONN_TX_BUF_SIZE)).
  assert (Hho : Z.of_nat ho = tx_head b mod CONN_TX_BUF_SIZE /\ 0 <= Z.of_nat ho < CONN_TX_BUF_SIZE).
  { pose proof (Z.mod_pos_bound (tx_head b) CONN_TX_BUF_SIZE ltac:(done)). lia. }
  match goal with |- tx_ok ?bb /\ _ => set (b' := bb) end.
  assert (Hlen' : tx_len b' = tx_len b + Z.of_nat (length src)).
  { unfold b', tx_len at 1. cbn. by rewrite (push_len b (tx_data b)). }
  assert (Hok' : tx_ok b').
  { split_and!; [|done|lia|].
    - unfold b'. cbn. unfold wrapping_add. pose proof (Z.mod_pos_bound
        (tx_head b + as_u32 (Z.of_nat (length src))) (u32_max + 1)). ulia.
    - unfold b'. cbn [tx_data]. destruct (_ <? length src)%nat; by rewrite !length_inserts. }
  split; [exact Hok'|]. apply list_eq. intros i.
  rewrite (contents_lookup b' _ i Hok' eq_refl), Hlen'. cbn [tx_tail b'].
  assert (Hcl : length (tx_contents b) = Z.to_nat (tx_len b)).
  { unfold tx_contents. destruct (tx_data b); cbn; [|lia]. rewrite length_take, length_rotate. lia. }
  destruct (decide _) as [Hi|Hi]; cycle 1.
  { symmetry. apply lookup_ge_None. rewrite length_app. lia. }
  pose proof (ring_index b (Z.of_nat i) Hh Hl ltac:(lia)) as Hp. cbn zeta in Hp.
  set (p := Z.to_nat ((tx_tail b + Z.of_nat i) mod CONN_TX_BUF_SIZE)).
  assert (Hpz : Z.of_nat p = (tx_tail b + Z.of_nat i) mod CONN_TX_BUF_SIZE).
  { apply Z2Nat.id, Z.mod_pos_bound. done. }
  rewrite Hp in Hpz. clear Hp. rewrite ring_copy_lookup; [|done|lia|lia|repeat zcase_in Hpz; lia].
  destruct (decide (Z.of_nat i < tx_len b)) as [Hi'|Hi'].
  - rewrite lookup_app_l by lia. destruct (tx_data b) as [d0|] eqn:E0; [|lia].
    rewrite (contents_lookup b d0 i Hok E0), (decide_True (P := Z.of_nat i < tx_len b)) by done.
    fold p. rewrite !decide_False; [done|repeat zcase_in Hpz; lia..].
  - rewrite lookup_app_r by lia. rewrite Hcl.
    destruct (decide (ho <= p < ho + length src)%nat) as [Hc|Hc].
    + f_equal. repeat zcase_in Hpz; lia.
    + rewrite decide_True by (repeat zcase_in Hpz; lia). f_equal. repeat zcase_in Hpz; lia.
Qed.

(** ** [flush_to] *)

Lemma contents_length b : tx_ok b -> length (tx_contents b) = Z.to_nat (tx_len b).
Proof.
  intros (_&_&Hl&Hd). unfold tx_contents. pose proof TX_SIZE_Z. destruct (tx_data b); cbn; [|lia].
  rewrite length_take, length_rotate. lia.
Qed.

Lemma contents_nonempty b : tx_ok b -> tx_is_empty b = false -> exists d, tx_data b = Some d.
Proof.
  intros (_&_&_&Hd) He. unfold tx_is_empty in He. zbool. destruct (tx_data b); [by eexists|lia].
Qed.

(** The slice given to the first write is a prefix of the queue. *)
Lemma flush_slice b d :
  tx_ok b -> tx_data b = Some d ->
  let tail_ofs := Z.to_nat (tx_tail b mod CONN_TX_BUF_SIZE) in
  let n := Nat.min (TX_SIZE - tail_ofs) (Z.to_nat (tx_len b)) in
  take n (drop tail_ofs d) = take n (tx_contents b).
Proof.
  intros Hok E tail_ofs n. apply list_eq. intros i. pose proof TX_SIZE_Z.
  pose proof (Z.mod_pos_bound (tx_tail b) CONN_TX_BUF_SIZE ltac:(done)).
  destruct (decide (i < n)%nat); [|by rewrite !lookup_take_ge by lia].
  rewrite !lookup_take_lt by lia. rewrite lookup_drop, (contents_lookup b d i Hok E).
  rewrite decide_True by lia. f_equal.
  rewrite <- Zplus_mod_idemp_l, Z.mod_small by lia. lia.
Qed.

(** Moving the tail forward drops a prefix of the queue. *)
Lemma tail_advance b n :
  tx_ok b -> (Z.of_nat n <= tx_len b) ->
  let b' := mkTxBuf (tx_data b) (tx_head b)
              (wrapping_add u32_max (tx_tail b) (as_u32 (Z.of_nat n))) in
  tx_ok b' /\ tx_len b' = tx_len b - Z.of_nat n /\ tx_contents b' = drop n (tx_contents b).
Proof.
  intros Hok Hn b'. pose proof Hok as (Hh&Ht&Hl&Hd).
  assert (Hlen : tx_len b' = tx_len b - Z.of_nat n).
  { unfold b', tx_len, wrapping_sub, wrapping_add, as_u32 in *. cbn [tx_head tx_tail].
    change (2 ^ 32) with (u32_max + 1). rewrite Zplus_mod_idemp_r, Zminus_mod_idemp_r.
    replace (tx_head b - (tx_tail b + Z.of_nat n)) with ((tx_head b - tx_tail b) - Z.of_nat n) by lia.
    rewrite <- Zminus_mod_idemp_l. apply Z.mod_small.
    pose proof (Z.mod_pos_bound (tx_head b - tx_tail b) (u32_max + 1)). ulia. }
  assert (Hok' : tx_ok b').
  { split_and!; [done| |lia|].
    - unfold b'. cbn. unfold wrapping_add.
      pose proof (Z.mod_pos_bound (tx_tail b + as_u32 (Z.of_nat n)) (u32_max + 1)). ulia.
    - unfold b' at 1. cbn [tx_data]. destruct (tx_data b); [done|]. lia. }
  split_and!; auto. destruct (tx_data b) as [d|] eqn:E; cycle 1.
  { unfold tx_contents, b'. cbn. rewrite E. by rewrite drop_nil. }
  apply list_eq. intros i. rewrite lookup_drop.
  rewrite (contents_lookup b' d i Hok') by (unfold b'; by rewrite <- E).
  rewrite (contents_lookup b d _ Hok E), Hlen.
  destruct (decide (Z.of_nat i < _)); [rewrite decide_True by lia|by rewrite decide_False by lia].
  do 2 f_equal. unfold b', wrapping_add, as_u32. cbn [tx_tail].
  change (2 ^ 32) with (u32_max + 1). rewrite Zplus_mod_idemp_r.
  rewrite <- Zplus_mod_idemp_l, mod_u32_ring, Zplus_mod_idemp_l. f_equal. lia.
Qed.

Section flush.
Context {W : Type} `{VsockStreamLaws W}.

(** What a flush promises: a prefix of the queue went to the stream. *)
Definition flushed (b : TxBuf) (w : W) (r : result TxError nat) (b' : TxBuf) (w' : W) : Prop :=
  tx_ok b' /\ stream_fd w' = stream_fd w /\
  match r with
  | Ok n => (n <= length (tx_contents b))%nat /\
      stream_sent w' = stream_sent w ++ take n (tx_contents b) /\
      tx_contents b' = drop n (tx_contents b)
  | Err e => (exists k, e = TxBufFlush k) /\ b' = b /\ stream_sent w' = stream_sent w
  end.

Lemma flush_empty fuel b w :
  (0 < fuel)%nat -> tx_ok b -> tx_is_empty b = true ->
  exists r b' w', flush_loop fuel b w = Ret (r, b', w') /\ flushed b w r b' w'.
Proof.
  intros Hf Hok He. destruct fuel as [|fuel]; [lia|]. cbn. rewrite He.
  eexists _, _, _. split; [done|]. split_and!; auto; [lia|by rewrite app_nil_r].
Qed.

(** One write, and the rest of the flush if it took the whole slice. *)
Lemma flush_step fuel b w :
  tx_ok b -> tx_is_empty b = false ->
  (forall b1 w1, tx_ok b1 ->
     let n := Nat.min (TX_SIZE - Z.to_nat (tx_tail b mod CONN_TX_BUF_SIZE)) (Z.to_nat (tx_len b)) in
     tx_len b1 = tx_len b - Z.of_nat n ->
     tx_tail b1 = wrapping_add u32_max (tx_tail b) (as_u32 (Z.of_nat n)) ->
     exists r b' w', flush_loop fuel b1 w1 = Ret (r, b', w') /\ flushed b1 w1 r b' w') ->
  exists r b' w', flush_loop (S fuel) b w = Ret (r, b', w') /\ flushed b w r b' w'.
Proof.
  intros Hok He IH. destruct (contents_nonempty b Hok He) as [d Ed]. cbn [flush_loop].
  rewrite He, Ed. cbn [unwrap mbind outcome_bind]. pose proof (flush_slice b d Hok Ed) as Hsl.
  cbn zeta in Hsl. rewrite Hsl.
  set (n := Nat.min _ _) in *. pose proof (contents_length b Hok) as Hcl.
  destruct (stream_write w (take n (tx_contents b))) as [[wr|e] w1] eqn:Ew; cycle 1.
  { eexists _, _, _. split; [done|]. split_and!; eauto using write_fd, write_err. }
  pose proof (write_fd _ _ _ _ Ew) as Hfd. destruct (write_ok _ _ _ _ Ew) as [Hwr Hsent].
  rewrite length_take in Hwr. rewrite take_take, Nat.min_l in Hsent by lia.
  pose proof (tx_len_bound b). destruct (tail_advance b wr Hok) as (Hok1&Hl1&Hc1); [lia|].
  rewrite Ed in Hok1, Hl1, Hc1. destruct (Nat.ltb_spec wr n).
  { eexists _, _, _. split; [done|]. split_and!; auto. lia. }
  assert (wr = n) as -> by lia.
  destruct (IH _ w1 Hok1 Hl1 eq_refl) as (r&b'&w'&E&Hok'&Hfd'&Hr). rewrite E. cbn.
  eexists _, _, _. split; [done|]. rewrite Hc1, length_drop in Hr.
  split; [done|]. split; [congruence|]. destruct r as [m|e]; cbn.
  - destruct Hr as (Hm&Hs&Hc). split; [lia|]. split.
    + rewrite Hs, Hsent, <- app_assoc. by rewrite take_take_drop.
    + by rewrite Hc, drop_drop.
  - destruct Hr as (_&->&Hs). rewrite Nat.add_0_r. split; [lia|]. split; [by rewrite Hs|done].
Qed.

Lemma flush_contiguous fuel b w :
  (1 < fuel)%nat -> tx_ok b -> tx_tail b mod CONN_TX_BUF_SIZE + tx_len b <= CONN_TX_BUF_SIZE ->
  exists r b' w', flush_loop fuel b w = Ret (r, b', w') /\ flushed b w r b' w'.
Proof.
  intros Hf Hok Hle. destruct (tx_is_empty b) eqn:He; [apply flush_empty; auto with lia|].
  destruct fuel as [|fuel]; [lia|]. apply flush_step; auto. intros b1 w1 Hok1 n Hl1 _.
  apply flush_empty; auto with lia. unfold tx_is_empty. apply Z.eqb_eq. rewrite Hl1.
  pose proof TX_SIZE_Z. pose proof (tx_len_bound b).
  pose proof (Z.mod_pos_bound (tx_tail b) CONN_TX_BUF_SIZE ltac:(done)). lia.
Qed.

Lemma flush_to_ok b w :
  tx_ok b -> exists r b' w', flush_to b w = Ret (r, b', w') /\ flushed b w r b' w'.
Proof.
  intros Hok. unfold flush_to. destruct (tx_is_empty b) eqn:He; [apply flush_empty; auto with lia|].
  apply flush_step; auto. intros b1 w1 Hok1 n Hl1 Ht1. apply flush_contiguous; auto with lia.
  pose proof Hok as (_&_&Hl&_). pose proof TX_SIZE_Z. pose proof (tx_len_bound b).
  pose proof (Z.mod_pos_bound (tx_tail b) CONN_TX_BUF_SIZE ltac:(done)).
  rewrite Ht1, Hl1. unfold wrapping_add, as_u32. change (2 ^ 32) with (u32_max + 1).
  rewrite Zplus_mod_idemp_r, mod_u32_ring, <- Zplus_mod_idemp_l, ring_case by lia.
  repeat zcase; lia.
Qed.
End flush.
