(* ===== verification/VsockConn.v ===== *)
(** * Vsock packets and connections

    Model of src/dragonball/dbs_virtio_devices/src/vsock: the packet header and
    its accessors (packet.rs), the set of pending RX indications (csm/mod.rs)
    and the connection state machine (csm/connection.rs).  A packet is a value:
    its header and the bytes of its data buffer.  Reads of the clock are
    arguments, in milliseconds; the host stream is any instance of
    [VsockStream]. *)
From S2P Require Import Prelude VsockTxBuf.

(** ** Protocol constants *)

Definition VSOCK_OP_REQUEST : Z := 1.
Definition VSOCK_OP_RESPONSE : Z := 2.
Definition VSOCK_OP_RST : Z := 3.
Definition VSOCK_OP_SHUTDOWN : Z := 4.
Definition VSOCK_OP_RW : Z := 5.
Definition VSOCK_OP_CREDIT_UPDATE : Z := 6.
Definition VSOCK_OP_CREDIT_REQUEST : Z := 7.
Definition VSOCK_FLAGS_SHUTDOWN_RCV : Z := 1.
Definition VSOCK_FLAGS_SHUTDOWN_SEND : Z := 2.
Definition VSOCK_TYPE_STREAM : Z := 1.
Definition VSOCK_HOST_CID : Z := 2.

Definition CONN_CREDIT_UPDATE_THRESHOLD : Z := 4 * 1024.
Definition CONN_REQUEST_TIMEOUT_MS : Z := 2000.
Definition CONN_SHUTDOWN_TIMEOUT_MS : Z := 2000.

Inductive VsockError := NoData | PktBufMissing.

(** ** Packets *)

Record VsockPacketHdr := mkHdr {
  h_src_cid : Z; h_dst_cid : Z; h_src_port : Z; h_dst_port : Z; h_len : Z;
  h_type : Z; h_op : Z; h_flags : Z; h_buf_alloc : Z; h_fwd_cnt : Z;
}.

Record VsockPacket := mkPkt { pkt_hdr : VsockPacketHdr; pkt_buf : option (list Z) }.

Definition src_cid (p : VsockPacket) : Z := h_src_cid (pkt_hdr p).
Definition dst_cid (p : VsockPacket) : Z := h_dst_cid (pkt_hdr p).
Definition src_port (p : VsockPacket) : Z := h_src_port (pkt_hdr p).
Definition dst_port (p : VsockPacket) : Z := h_dst_port (pkt_hdr p).
Definition pkt_len (p : VsockPacket) : Z := h_len (pkt_hdr p).
Definition type_ (p : VsockPacket) : Z := h_type (pkt_hdr p).
Definition op (p : VsockPacket) : Z := h_op (pkt_hdr p).
Definition flags (p : VsockPacket) : Z := h_flags (pkt_hdr p).
Definition buf_alloc (p : VsockPacket) : Z := h_buf_alloc (pkt_hdr p).
Definition fwd_cnt (p : VsockPacket) : Z := h_fwd_cnt (pkt_hdr p).

Definition set_src_cid (p : VsockPacket) (v : Z) : VsockPacket :=
  let '(mkPkt (mkHdr _ dc sp dp ln ty o fl ba fc) b) := p in mkPkt (mkHdr v dc sp dp ln ty o fl ba fc) b.
Definition set_dst_cid (p : VsockPacket) (v : Z) : VsockPacket :=
  let '(mkPkt (mkHdr sc _ sp dp ln ty o fl ba fc) b) := p in mkPkt (mkHdr sc v sp dp ln ty o fl ba fc) b.
Definition set_src_port (p : VsockPacket) (v : Z) : VsockPacket :=
  let '(mkPkt (mkHdr sc dc _ dp ln ty o fl ba fc) b) := p in mkPkt (mkHdr sc dc v dp ln ty o fl ba fc) b.
Definition set_dst_port (p : VsockPacket) (v : Z) : VsockPacket :=
  let '(mkPkt (mkHdr sc dc sp _ ln ty o fl ba fc) b) := p in mkPkt (mkHdr sc dc sp v ln ty o fl ba fc) b.
Definition set_len (p : VsockPacket) (v : Z) : VsockPacket :=
  let '(mkPkt (mkHdr sc dc sp dp _ ty o fl ba fc) b) := p in mkPkt (mkHdr sc dc sp dp v ty o fl ba fc) b.
Definition set_type (p : VsockPacket) (v : Z) : VsockPacket :=
  let '(mkPkt (mkHdr sc dc sp dp ln _ o fl ba fc) b) := p in mkPkt (mkHdr sc dc sp dp ln v o fl ba fc) b.
Definition set_op (p : VsockPacket) (v : Z) : VsockPacket :=
  let '(mkPkt (mkHdr sc dc sp dp ln ty _ fl ba fc) b) := p in mkPkt (mkHdr sc dc sp dp ln ty v fl ba fc) b.
Definition set_flags (p : VsockPacket) (v : Z) : VsockPacket :=
  let '(mkPkt (mkHdr sc dc sp dp ln ty o _ ba fc) b) := p in mkPkt (mkHdr sc dc sp dp ln ty o v ba fc) b.
Definition set_flag (p : VsockPacket) (flag : Z) : VsockPacket := set_flags p (Z.lor (flags p) flag).
Definition set_buf_alloc (p : VsockPacket) (v : Z) : VsockPacket :=
  let '(mkPkt (mkHdr sc dc sp dp ln ty o fl _ fc) b) := p in mkPkt (mkHdr sc dc sp dp ln ty o fl v fc) b.
Definition set_fwd_cnt (p : VsockPacket) (v : Z) : VsockPacket :=
  let '(mkPkt (mkHdr sc dc sp dp ln ty o fl ba _) b) := p in mkPkt (mkHdr sc dc sp dp ln ty o fl ba v) b.

(** Zeroing the header bytes. *)
Definition zero_hdr (p : VsockPacket) : VsockPacket := mkPkt (mkHdr 0 0 0 0 0 0 0 0 0 0) (pkt_buf p).

(** Writing into the data buffer, from its start. *)
Definition write_buf (p : VsockPacket) (bytes : list Z) : VsockPacket :=
  mkPkt (pkt_hdr p) (list_inserts 0 bytes <$> pkt_buf p).

(** ** Pending RX indications: a bit set in a [u16] *)

Inductive ConnState :=
| LocalInit
| PeerInit
| Established
| LocalClosed
| PeerClosed (recv_off send_off : bool)
| Killed.

#[global] Instance ConnState_eq_dec : EqDecision ConnState.
Proof. solve_decision. Defined.

Inductive PendingRx := Request | Response | Rst | Rw | CreditUpdate.

Definition rx_index (it : PendingRx) : Z :=
  match it with Request => 0 | Response => 1 | Rst => 2 | Rw => 3 | CreditUpdate => 4 end.

Definition into_mask (it : PendingRx) : Z := Z.shiftl 1 (rx_index it).

Definition rx_insert (data : Z) (it : PendingRx) : Z := Z.lor data (into_mask it).
Definition rx_contains (data : Z) (it : PendingRx) : bool := negb (Z.land data (into_mask it) =? 0).
Definition rx_remove (data : Z) (it : PendingRx) : bool * Z :=
  (rx_contains data it, Z.land data (unot u16_max (into_mask it))).
Definition rx_is_empty (data : Z) : bool := data =? 0.
Definition rx_from (it : PendingRx) : Z := into_mask it.

(** ** Connections *)

(** The epoll events that the connection looks at. *)
Record Events := mkEvents { EPOLLIN : bool; EPOLLOUT : bool; EPOLLERR : bool; EPOLLHUP : bool }.

#[global] Instance Events_eq_dec : EqDecision Events.
Proof. solve_decision. Defined.

Definition no_events : Events := mkEvents false false false false.

Record VsockConnection (W : Type) := mkConn {
  vc_state : ConnState;
  vc_local_cid : Z;
  vc_peer_cid : Z;
  vc_local_port : Z;
  vc_peer_port : Z;
  vc_stream : W;
  vc_keep : bool;
  vc_tx_buf : TxBuf;
  vc_fwd_cnt : Z;
  vc_peer_buf_alloc : Z;
  vc_peer_fwd_cnt : Z;
  vc_rx_cnt : Z;
  vc_last_fwd_cnt_to_peer : Z;
  vc_pending_rx : Z;
  vc_expiry : option Z;
}.
Arguments mkConn {W}.
Arguments vc_state {W}.
Arguments vc_local_cid {W}.
Arguments vc_peer_cid {W}.
Arguments vc_local_port {W}.
Arguments vc_peer_port {W}.
Arguments vc_stream {W}.
Arguments vc_keep {W}.
Arguments vc_tx_buf {W}.
Arguments vc_fwd_cnt {W}.
Arguments vc_peer_buf_alloc {W}.
Arguments vc_peer_fwd_cnt {W}.
Arguments vc_rx_cnt {W}.
Arguments vc_last_fwd_cnt_to_peer {W}.
Arguments vc_pending_rx {W}.
Arguments vc_expiry {W}.

Section connection.
Context {W : Type} `{VsockStream W}.
Implicit Types (c : VsockConnection W).

Definition set_state c (s : ConnState) : VsockConnection W :=
  mkConn s (vc_local_cid c) (vc_peer_cid c) (vc_local_port c) (vc_peer_port c) (vc_stream c)
    (vc_keep c) (vc_tx_buf c) (vc_fwd_cnt c) (vc_peer_buf_alloc c) (vc_peer_fwd_cnt c)
    (vc_rx_cnt c) (vc_last_fwd_cnt_to_peer c) (vc_pending_rx c) (vc_expiry c).
Definition set_pending c (v : Z) : VsockConnection W :=
  mkConn (vc_state c) (vc_local_cid c) (vc_peer_cid c) (vc_local_port c) (vc_peer_port c)
    (vc_stream c) (vc_keep c) (vc_tx_buf c) (vc_fwd_cnt c) (vc_peer_buf_alloc c)
    (vc_peer_fwd_cnt c) (vc_rx_cnt c) (vc_last_fwd_cnt_to_peer c) v (vc_expiry c).
Definition set_expiry c (v : option Z) : VsockConnection W :=
  mkConn (vc_state c) (vc_local_cid c) (vc_peer_cid c) (vc_local_port c) (vc_peer_port c)
    (vc_stream c) (vc_keep c) (vc_tx_buf c) (vc_fwd_cnt c) (vc_peer_buf_alloc c)
    (vc_peer_fwd_cnt c) (vc_rx_cnt c) (vc_last_fwd_cnt_to_peer c) (vc_pending_rx c) v.
(** The stream and the TX buffer, with the count of forwarded bytes. *)
Definition set_tx c (w : W) (b : TxBuf) (fwd : Z) : VsockConnection W :=
  mkConn (vc_state c) (vc_local_cid c) (vc_peer_cid c) (vc_local_port c) (vc_peer_port c)
    w (vc_keep c) b fwd (vc_peer_buf_alloc c)
    (vc_peer_fwd_cnt c) (vc_rx_cnt c) (vc_last_fwd_cnt_to_peer c) (vc_pending_rx c) (vc_expiry c).
Definition set_peer_credit c (alloc fwd : Z) : VsockConnection W :=
  mkConn (vc_state c) (vc_local_cid c) (vc_peer_cid c) (vc_local_port c) (vc_peer_port c)
    (vc_stream c) (vc_keep c) (vc_tx_buf c) (vc_fwd_cnt c) alloc fwd
    (vc_rx_cnt c) (vc_last_fwd_cnt_to_peer c) (vc_pending_rx c) (vc_expiry c).
Definition set_rx_cnt c (v : Z) : VsockConnection W :=
  mkConn (vc_state c) (vc_local_cid c) (vc_peer_cid c) (vc_local_port c) (vc_peer_port c)
    (vc_stream c) (vc_keep c) (vc_tx_buf c) (vc_fwd_cnt c) (vc_peer_buf_alloc c)
    (vc_peer_fwd_cnt c) v (vc_last_fwd_cnt_to_peer c) (vc_pending_rx c) (vc_expiry c).
(** [self.last_fwd_cnt_to_peer = self.fwd_cnt] *)
Definition note_fwd_cnt c : VsockConnection W :=
  mkConn (vc_state c) (vc_local_cid c) (vc_peer_cid c) (vc_local_port c) (vc_peer_port c)
    (vc_stream c) (vc_keep c) (vc_tx_buf c) (vc_fwd_cnt c) (vc_peer_buf_alloc c)
    (vc_peer_fwd_cnt c) (vc_rx_cnt c) (vc_fwd_cnt c) (vc_pending_rx c) (vc_expiry c).

Definition insert_rx c (it : PendingRx) : VsockConnection W :=
  set_pending c (rx_insert (vc_pending_rx c) it).
Definition remove_rx c (it : PendingRx) : bool * VsockConnection W :=
  let '(had, d) := rx_remove (vc_pending_rx c) it in (had, set_pending c d).

Definition conn_has_pending_rx c : bool := negb (rx_is_empty (vc_pending_rx c)).

Definition new_peer_init (stream : W) (local_cid peer_cid local_port peer_port peer_buf_alloc : Z)
    (keep : bool) : VsockConnection W :=
  mkConn PeerInit local_cid peer_cid local_port peer_port stream keep TxBuf_default 0
    peer_buf_alloc 0 0 0 (rx_from Response) None.

Definition new_local_init (stream : W) (local_cid peer_cid local_port peer_port : Z)
    (keep : bool) : VsockConnection W :=
  mkConn LocalInit local_cid peer_cid local_port peer_port stream keep TxBuf_default 0
    0 0 0 0 (rx_from Request) None.

Definition will_expire c (now : Z) : bool :=
  match vc_expiry c with None => false | Some t => now <? t end.

Definition has_expired c (now : Z) : bool :=
  match vc_expiry c with None => false | Some t => t <=? now end.

Definition kill c : VsockConnection W := insert_rx (set_state c Killed) Rst.

Definition send_bytes_raw c (buf : list Z) : result TxError nat * VsockConnection W :=
  let '(r, w) := stream_write (vc_stream c) buf in
  (match r with Ok n => Ok n | Err e => Err (StreamWrite e) end,
   set_tx c w (vc_tx_buf c) (vc_fwd_cnt c)).

Definition push_tx c (buf : list Z) : result TxError unit * VsockConnection W :=
  match tx_push (vc_tx_buf c) buf with
  | Ok b => (Ok tt, set_tx c (vc_stream c) b (vc_fwd_cnt c))
  | Err e => (Err e, c)
  end.

Definition send_bytes c (buf : list Z) : result TxError unit * VsockConnection W :=
  if negb (tx_is_empty (vc_tx_buf c)) then push_tx c buf else
  let '(r, w) := stream_write (vc_stream c) buf in
  let c := set_tx c w (vc_tx_buf c) (vc_fwd_cnt c) in
  let written := match r with
                 | Ok cnt => Ok cnt
                 | Err WouldBlock => Ok O
                 | Err BrokenPipe => if negb (vc_keep c) then Err (StreamWrite BrokenPipe) else Ok O
                 | Err e => Err (StreamWrite e)
                 end in
  match written with
  | Err e => (Err e, c)
  | Ok written =>
      let c := set_tx c (vc_stream c) (vc_tx_buf c)
                 (wrapping_add u32_max (vc_fwd_cnt c) (as_u32 (Z.of_nat written))) in
      if (written <? length buf)%nat then push_tx c (drop written buf) else (Ok tt, c)
  end.

Definition peer_needs_credit_update c : bool :=
  let peer_seen_free_buf :=
    wrapping_sub u32_max CONN_TX_BUF_SIZE
      (wrapping_sub u32_max (vc_fwd_cnt c) (vc_last_fwd_cnt_to_peer c)) in
  peer_seen_free_buf <? CONN_CREDIT_UPDATE_THRESHOLD.

Definition peer_avail_credit c : Z :=
  wrapping_sub u32_max (vc_peer_buf_alloc c)
    (wrapping_sub u32_max (vc_rx_cnt c) (vc_peer_fwd_cnt c)).

Definition need_credit_update_from_peer c : bool := peer_avail_credit c =? 0.

Definition init_pkt c (pkt : VsockPacket) : VsockPacket :=
  set_fwd_cnt (set_buf_alloc (set_type (set_dst_port (set_src_port (set_dst_cid
    (set_src_cid (zero_hdr pkt) (vc_local_cid c)) (vc_peer_cid c)) (vc_local_port c))
    (vc_peer_port c)) VSOCK_TYPE_STREAM) CONN_TX_BUF_SIZE) (vc_fwd_cnt c).

(** The branch of [recv_pkt] for a pending [Rw]: [Some] answer where the code
    returns, [None] where it goes on to the credit update. *)
Definition recv_rw c (pkt : VsockPacket) (now : Z)
    : option (result VsockError unit) * VsockConnection W * VsockPacket :=
  match vc_state c with
  | Established | PeerClosed false _ =>
      if need_credit_update_from_peer c then
        (Some (Ok tt), note_fwd_cnt c, set_op pkt VSOCK_OP_CREDIT_REQUEST)
      else
      match pkt_buf pkt with
      | None => (Some (Err PktBufMissing), c, pkt)
      | Some buf =>
          let max_len := Nat.min (length buf) (Z.to_nat (peer_avail_credit c)) in
          let '(r, w) := stream_read (vc_stream c) max_len in
          let c := set_tx c w (vc_tx_buf c) (vc_fwd_cnt c) in
          match r with
          | Ok bytes =>
              let '(c, pkt) :=
                match bytes with
                | [] =>
                    (set_expiry (set_state c LocalClosed) (Some (now + CONN_SHUTDOWN_TIMEOUT_MS)),
                     set_flag (set_flag (set_op pkt VSOCK_OP_SHUTDOWN) VSOCK_FLAGS_SHUTDOWN_RCV)
                       VSOCK_FLAGS_SHUTDOWN_SEND)
                | _ :: _ =>
                    (c, set_len (set_op (write_buf pkt bytes) VSOCK_OP_RW)
                          (as_u32 (Z.of_nat (length bytes))))
                end in
              let c := set_rx_cnt c (wrapping_add u32_max (vc_rx_cnt c) (pkt_len pkt)) in
              (Some (Ok tt), note_fwd_cnt c, pkt)
          | Err WouldBlock => (None, c, pkt)
          | Err _ => (Some (Ok tt), note_fwd_cnt c, set_op pkt VSOCK_OP_RST)
          end
      end
  | _ => (Some (Ok tt), c, set_op pkt VSOCK_OP_RST)
  end.

(** The last part of [recv_pkt]. *)
Definition recv_credit_update c (pkt : VsockPacket)
    : result VsockError unit * VsockConnection W * VsockPacket :=
  let '(had, c) := remove_rx c CreditUpdate in
  if had && negb (conn_has_pending_rx c) then
    (Ok tt, note_fwd_cnt c, set_op pkt VSOCK_OP_CREDIT_UPDATE)
  else (Err NoData, c, pkt).

Definition conn_recv_pkt c (pkt : VsockPacket) (now : Z)
    : result VsockError unit * VsockConnection W * VsockPacket :=
  let pkt := init_pkt c pkt in
  let '(had, c) := remove_rx c Rst in
  if had then (Ok tt, c, set_op pkt VSOCK_OP_RST) else
  let '(had, c) := remove_rx c Response in
  if had then (Ok tt, set_state c Established, set_op pkt VSOCK_OP_RESPONSE) else
  let '(had, c) := remove_rx c Request in
  if had then
    (Ok tt, set_expiry c (Some (now + CONN_REQUEST_TIMEOUT_MS)), set_op pkt VSOCK_OP_REQUEST) else
  let '(had, c) := remove_rx c Rw in
  if had then
    match recv_rw c pkt now with
    | (Some r, c, pkt) => (r, c, pkt)
    | (None, c, pkt) => recv_credit_update c pkt
    end
  else recv_credit_update c pkt.

(** The data branch of [send_pkt]; slicing the buffer panics when the length of
    the header exceeds it. *)
Definition send_rw c (pkt : VsockPacket) : outcome (VsockConnection W) :=
  match pkt_buf pkt with
  | None => Ret c
  | Some buf =>
      if Z.of_nat (length buf) <? pkt_len pkt then Panic else
      let '(r, c) := send_bytes c (take (Z.to_nat (pkt_len pkt)) buf) in
      match r with
      | Err TxBufFull => Ret (if negb (vc_keep c) then kill c else c)
      | Err _ => Ret (kill c)
      | Ok _ => Ret (if peer_needs_credit_update c then insert_rx c CreditUpdate else c)
      end
  end.

Definition has_flag (pkt : VsockPacket) (flag : Z) : bool := negb (Z.land (flags pkt) flag =? 0).

(** [send_pkt] always answers [Ok(())]; the result is the connection. *)
Definition conn_send_pkt c (pkt : VsockPacket) (now : Z) : outcome (VsockConnection W) :=
  let c := set_peer_credit c (buf_alloc pkt) (fwd_cnt pkt) in
  if match vc_state c with Established | PeerClosed _ false => true | _ => false end
     && (op pkt =? VSOCK_OP_RW) then send_rw c pkt
  else if match vc_state c with LocalInit => true | _ => false end
     && (op pkt =? VSOCK_OP_RESPONSE) then
    Ret (set_state (set_expiry c None) Established)
  else if match vc_state c with Established => true | _ => false end
     && (op pkt =? VSOCK_OP_SHUTDOWN) then
    let recv_off := has_flag pkt VSOCK_FLAGS_SHUTDOWN_RCV in
    let send_off := has_flag pkt VSOCK_FLAGS_SHUTDOWN_SEND in
    let c := set_state c (PeerClosed recv_off send_off) in
    if recv_off && send_off then
      Ret (if tx_is_empty (vc_tx_buf c) then insert_rx c Rst
           else set_expiry c (Some (now + CONN_SHUTDOWN_TIMEOUT_MS)))
    else Ret c
  else match vc_state c with
  | PeerClosed recv_off send_off =>
      if op pkt =? VSOCK_OP_SHUTDOWN then
        let recv_off := recv_off || has_flag pkt VSOCK_FLAGS_SHUTDOWN_RCV in
        let send_off := send_off || has_flag pkt VSOCK_FLAGS_SHUTDOWN_SEND in
        let c := set_state c (PeerClosed recv_off send_off) in
        Ret (if recv_off && send_off && tx_is_empty (vc_tx_buf c) then insert_rx c Rst else c)
      else if negb send_off && (op pkt =? VSOCK_OP_CREDIT_REQUEST) then
        Ret (insert_rx c CreditUpdate)
      else Ret c
  | Established | PeerInit =>
      if op pkt =? VSOCK_OP_CREDIT_REQUEST then Ret (insert_rx c CreditUpdate) else Ret c
  | _ => Ret c
  end.

Definition get_polled_evset c : Events :=
  let out := negb (tx_is_empty (vc_tx_buf c)) in
  match vc_state c with
  | Killed | LocalClosed | PeerClosed true _ => mkEvents false out false false
  | _ => mkEvents (negb (need_credit_update_from_peer c)) out false false
  end.

(** The EPOLLOUT part of [notify]: flush the TX buffer. *)
Definition notify_out c : outcome (VsockConnection W) :=
  '(r, b, w) ← flush_to (vc_tx_buf c) (vc_stream c);
  let c := set_tx c w b (vc_fwd_cnt c) in
  let '(n, c) :=
    match r with
    | Ok n => (n, c)
    | Err (TxBufFlush WouldBlock) => (O, c)
    | Err (TxBufFlush BrokenPipe) => (O, if negb (vc_keep c) then kill c else c)
    | Err _ => (O, kill c)
    end in
  let c := set_tx c (vc_stream c) (vc_tx_buf c)
             (wrapping_add u32_max (vc_fwd_cnt c) (as_u32 (Z.of_nat n))) in
  Ret (if bool_decide (vc_state c = PeerClosed true true) && tx_is_empty (vc_tx_buf c)
       then insert_rx c Rst
       else if peer_needs_credit_update c then insert_rx c CreditUpdate else c).

Definition conn_notify c (evset : Events) : outcome (VsockConnection W) :=
  let c := if EPOLLIN evset || EPOLLHUP evset then insert_rx c Rw else c in
  if EPOLLOUT evset && tx_is_empty (vc_tx_buf c) then Ret c else
  c ← (if EPOLLOUT evset then notify_out c else Ret c);
  Ret (if EPOLLERR evset && negb (EPOLLIN evset) && negb (EPOLLOUT evset) then kill c else c).
End connection.
