(* ===== verification/VsockConnFacts.v ===== *)
(** * Facts about vsock connections

    What every handler of a connection keeps ([conn_ok]) and how it moves the
    bytes of the guest between the TX buffer and the host stream ([moves]). *)
From S2P Require Import Prelude VsockTxBuf VsockConn.

(** ** Pending RX sets *)

Definition rx_ok (d : Z) : Prop := 0 <= d < 32.

#[global] Instance PendingRx_eq_dec : EqDecision PendingRx.
Proof. solve_decision. Defined.

(** Every fact about the five-bit sets is checked on all of them. *)
Lemma rx_ok_forall (P : Z -> bool) :
  forallb (fun n => P (Z.of_nat n)) (seq 0 32) = true -> forall d, rx_ok d -> P d = true.
Proof.
  intros Hall d Hd. rewrite forallb_forall in Hall.
  specialize (Hall (Z.to_nat d)). rewrite Z2Nat.id in Hall by (unfold rx_ok in Hd; lia).
  apply Hall, in_seq. unfold rx_ok in Hd. lia.
Qed.

Lemma rx_insert_ok d it : rx_ok d -> rx_ok (rx_insert d it).
Proof.
  intros Hd.
  assert ((0 <=? rx_insert d it) && (rx_insert d it <? 32) = true); [|unfold rx_ok; zbool; lia].
  revert d Hd. destruct it; apply rx_ok_forall; vm_compute; reflexivity.
Qed.

Lemma rx_remove_ok d it : rx_ok d -> rx_ok (rx_remove d it).2.
Proof.
  intros Hd.
  assert ((0 <=? (rx_remove d it).2) && ((rx_remove d it).2 <? 32) = true); [|unfold rx_ok; zbool; lia].
  revert d Hd. destruct it; apply rx_ok_forall; vm_compute; reflexivity.
Qed.

Lemma rx_contains_insert d it it' :
  rx_ok d -> rx_contains (rx_insert d it) it' = bool_decide (it = it') || rx_contains d it'.
Proof.
  intros Hd. apply eqb_prop. revert d Hd.
  destruct it, it'; apply rx_ok_forall; vm_compute; reflexivity.
Qed.

Lemma rx_contains_remove d it it' :
  rx_ok d -> rx_contains (rx_remove d it).2 it' = negb (bool_decide (it = it')) && rx_contains d it'.
Proof.
  intros Hd. apply eqb_prop. revert d Hd.
  destruct it, it'; apply rx_ok_forall; vm_compute; reflexivity.
Qed.

Lemma rx_insert_nonempty d it : rx_ok d -> rx_is_empty (rx_insert d it) = false.
Proof.
  intros Hd. apply negb_true_iff. revert d Hd.
  destruct it; apply rx_ok_forall; vm_compute; reflexivity.
Qed.

(** ** Well-formed connections *)

Section conn.
Context {W : Type} `{VsockStreamLaws W}.
Implicit Types (c : VsockConnection W).

Record conn_ok c : Prop := {
  co_tx : tx_ok (vc_tx_buf c);
  co_fwd : in_u32 (vc_fwd_cnt c);
  co_alloc : in_u32 (vc_peer_buf_alloc c);
  co_peer_fwd : in_u32 (vc_peer_fwd_cnt c);
  co_rx : in_u32 (vc_rx_cnt c);
  co_pending : rx_ok (vc_pending_rx c);
}.

(** A packet whose header the driver validated: its fields have their widths and
    its length fits the buffer. *)
Record pkt_ok (p : VsockPacket) : Prop := {
  po_alloc : in_u32 (buf_alloc p);
  po_fwd : in_u32 (fwd_cnt p);
  po_len : 0 <= pkt_len p;
  po_fits : match pkt_buf p with Some buf => pkt_len p <= Z.of_nat (length buf) | None => True end;
}.

(** Everything the connection has taken from the guest: what the host stream got
    and what is still in the TX buffer. *)
Definition taken_bytes c : list Z := stream_sent (vc_stream c) ++ tx_contents (vc_tx_buf c).

Lemma wrap_u32 x y : in_u32 (wrapping_add u32_max x y).
Proof. unfold wrapping_add. pose proof (Z.mod_pos_bound (x + y) (u32_max + 1)). ulia. Qed.

Lemma insert_rx_ok c it : conn_ok c -> conn_ok (insert_rx c it).
Proof. intros []. split; auto. by apply rx_insert_ok. Qed.

Lemma remove_rx_ok c it : conn_ok c -> conn_ok (remove_rx c it).2.
Proof. intros []. unfold remove_rx. cbn. split; auto. by apply (rx_remove_ok _ it). Qed.

Lemma set_state_ok c s : conn_ok c -> conn_ok (set_state c s).
Proof. intros []. by split. Qed.

Lemma kill_ok c : conn_ok c -> conn_ok (kill c).
Proof. intros. by apply insert_rx_ok, set_state_ok. Qed.

Lemma set_expiry_ok c e : conn_ok c -> conn_ok (set_expiry c e).
Proof. intros []. by split. Qed.

Lemma note_fwd_ok c : conn_ok c -> conn_ok (note_fwd_cnt c).
Proof. intros []. by split. Qed.

Lemma set_peer_ok c p : pkt_ok p -> conn_ok c -> conn_ok (set_peer_credit c (buf_alloc p) (fwd_cnt p)).
Proof. intros [] []. by split. Qed.

(** ** Data from the guest *)

(** The effect of an operation on the bytes taken: [data] is appended, and the
    forwarded count advances with the stream. *)
Definition moves c (data : list Z) c' : Prop :=
  taken_bytes c' = taken_bytes c ++ data /\
  stream_sent (vc_stream c) `prefix_of` stream_sent (vc_stream c') /\
  vc_fwd_cnt c' = wrapping_add u32_max (vc_fwd_cnt c)
    (Z.of_nat (length (stream_sent (vc_stream c')) - length (stream_sent (vc_stream c)))).

(** The same when part of the data was lost with the connection. *)
Definition loses c (data : list Z) c' : Prop := exists n, moves c (take n data) c'.

Lemma moves_refl c c' :
  in_u32 (vc_fwd_cnt c) ->
  vc_stream c' = vc_stream c -> vc_tx_buf c' = vc_tx_buf c -> vc_fwd_cnt c' = vc_fwd_cnt c ->
  moves c [] c'.
Proof.
  intros Hf Hs Ht Hc. unfold moves, taken_bytes. rewrite Hs, Ht, Hc, app_nil_r, Nat.sub_diag.
  split_and!; auto. unfold wrapping_add. rewrite Z.mod_small; ulia.
Qed.

Lemma moves_same c data c' c'' :
  moves c data c' -> vc_stream c'' = vc_stream c' -> vc_tx_buf c'' = vc_tx_buf c' ->
  vc_fwd_cnt c'' = vc_fwd_cnt c' -> moves c data c''.
Proof. unfold moves, taken_bytes. by intros Hm -> -> ->. Qed.

Lemma moves_from c c0 data c' :
  moves c0 data c' -> vc_stream c0 = vc_stream c -> vc_tx_buf c0 = vc_tx_buf c ->
  vc_fwd_cnt c0 = vc_fwd_cnt c -> moves c data c'.
Proof. unfold moves, taken_bytes. by intros Hm <- <- <-. Qed.

Lemma moves_trans c1 d1 c2 d2 c3 : moves c1 d1 c2 -> moves c2 d2 c3 -> moves c1 (d1 ++ d2) c3.
Proof.
  intros (T1&P1&F1) (T2&P2&F2). unfold moves. split_and!.
  - by rewrite T2, T1, app_assoc.
  - by etrans.
  - rewrite F2, F1. unfold wrapping_add. rewrite Zplus_mod_idemp_l. f_equal.
    apply prefix_length in P1, P2. lia.
Qed.

Lemma as_u32_wrap x n : wrapping_add u32_max x (as_u32 (Z.of_nat n)) = wrapping_add u32_max x (Z.of_nat n).
Proof.
  unfold wrapping_add, as_u32. change (2 ^ 32) with (u32_max + 1). by rewrite Zplus_mod_idemp_r.
Qed.

Lemma push_tx_moves c data :
  conn_ok c ->
  exists r c', push_tx c data = (r, c') /\ conn_ok c' /\
    vc_state c' = vc_state c /\ vc_keep c' = vc_keep c /\ vc_pending_rx c' = vc_pending_rx c /\
    match r with Ok _ => moves c data c' | Err e => e = TxBufFull /\ c' = c end.
Proof.
  intros Hok. pose proof Hok as [Htx ? ? ? ? ?]. unfold push_tx.
  pose proof (tx_push_ok (vc_tx_buf c) data Htx) as Hp.
  destruct (_ <? _); [rewrite Hp; eexists _, _; split; [done|]; by split_and!|].
  destruct Hp as (b&E&Hb&Hc). rewrite E. eexists _, _. split; [done|]. split; [by split|].
  unfold moves, taken_bytes. cbn [vc_stream vc_tx_buf vc_fwd_cnt set_tx]. split_and!; try done.
  - by rewrite Hc, app_assoc.
  - rewrite Nat.sub_diag. unfold wrapping_add. rewrite Z.mod_small; ulia.
Qed.

(** What [send_bytes] does after the stream took [n] bytes. *)
Lemma send_rest c w data n :
  conn_ok c -> tx_contents (vc_tx_buf c) = [] -> (n <= length data)%nat ->
  stream_sent w = stream_sent (vc_stream c) ++ take n data ->
  exists r c', (let c := set_tx (set_tx c w (vc_tx_buf c) (vc_fwd_cnt c)) w (vc_tx_buf c)
               (wrapping_add u32_max (vc_fwd_cnt c) (as_u32 (Z.of_nat n))) in
    if (n <? length data)%nat then push_tx c (drop n data) else (Ok tt, c)) = (r, c') /\
  conn_ok c' /\ vc_state c' = vc_state c /\ vc_keep c' = vc_keep c /\
  vc_pending_rx c' = vc_pending_rx c /\
  match r with Ok _ => moves c data c' | Err e => loses c data c' end.
Proof.
  intros Hok Hempty Hn Hs. pose proof Hok as [? ? ? ? ? ?]. cbn zeta. set (c1 := set_tx _ _ _ _).
  assert (Hok1 : conn_ok c1) by (split; auto; apply wrap_u32).
  assert (Hm : moves c (take n data) c1).
  { unfold moves, taken_bytes, c1. cbn [vc_stream vc_tx_buf vc_fwd_cnt set_tx].
    rewrite Hempty, !app_nil_r, Hs. split_and!; auto.
    - by apply prefix_app_r.
    - rewrite as_u32_wrap, length_app, length_take. do 2 f_equal. lia. }
  destruct (Nat.ltb_spec n (length data)).
  - destruct (push_tx_moves c1 (drop n data) Hok1) as (r'&c'&E&?&?&?&?&Hr).
    exists r', c'. split_and!; auto. destruct r'.
    + rewrite <- (take_drop n data) at 1. by eapply moves_trans.
    + destruct Hr as [_ ->]. by exists n.
  - eexists _, _. split; [done|]. split_and!; auto. by rewrite take_ge in Hm by lia.
Qed.

(** What it does when the write failed. *)
Lemma send_failed c w data (e : TxError) :
  conn_ok c -> stream_sent w = stream_sent (vc_stream c) ->
  exists r c', (Err e : result TxError unit, set_tx c w (vc_tx_buf c) (vc_fwd_cnt c)) = (r, c') /\
  conn_ok c' /\ vc_state c' = vc_state c /\ vc_keep c' = vc_keep c /\
  vc_pending_rx c' = vc_pending_rx c /\
  match r with Ok _ => moves c data c' | Err e => loses c data c' end.
Proof.
  intros Hok Hs. pose proof Hok as [? ? ? ? ? ?]. eexists _, _. split; [done|]. split; [by split|].
  split_and!; auto. exists O. unfold moves, taken_bytes.
  cbn [vc_stream vc_tx_buf vc_fwd_cnt set_tx take]. rewrite Hs, app_nil_r, Nat.sub_diag.
  split_and!; auto. unfold wrapping_add. rewrite Z.mod_small; ulia.
Qed.

Lemma send_bytes_moves c data :
  conn_ok c ->
  exists r c', send_bytes c data = (r, c') /\ conn_ok c' /\
    vc_state c' = vc_state c /\ vc_keep c' = vc_keep c /\ vc_pending_rx c' = vc_pending_rx c /\
    match r with Ok _ => moves c data c' | Err e => loses c data c' end.
Proof.
  intros Hok. pose proof Hok as [Htx Hfwd ? ? ? ?]. unfold send_bytes.
  destruct (tx_is_empty (vc_tx_buf c)) eqn:He; cbn [negb]; cycle 1.
  { destruct (push_tx_moves c data Hok) as (r&c'&E&?&?&?&?&Hr). exists r, c'. split_and!; auto.
    destruct r; [done|]. destruct Hr as [_ ->]. exists O. by apply moves_refl. }
  assert (Hempty : tx_contents (vc_tx_buf c) = []).
  { apply nil_length_inv. rewrite contents_length by done. unfold tx_is_empty in He. zbool. lia. }
  destruct (stream_write (vc_stream c) data) as [[n|e] w] eqn:Ew.
  - destruct (write_ok _ _ _ _ Ew) as [Hn Hs]. exact (send_rest c w data n Hok Hempty Hn Hs).
  - pose proof (write_err _ _ _ _ Ew) as Hs.
    assert (Hzero : stream_sent w = stream_sent (vc_stream c) ++ take 0 data) by (by rewrite app_nil_r).
    pose proof (send_rest c w data O Hok Hempty ltac:(lia) Hzero) as Hrest.
    destruct e; [exact Hrest| |exact (send_failed c w data _ Hok Hs)..].
    cbn [vc_keep set_tx]. pose proof (send_failed c w data (StreamWrite BrokenPipe) Hok Hs) as Hfail.
    destruct (negb (vc_keep c)); [exact Hfail|exact Hrest].
Qed.

(** The data a packet brings to a connection: only data packets count, in the
    states in which the guest may still send. *)
Definition accepted c (p : VsockPacket) : list Z :=
  if match vc_state c with Established | PeerClosed _ false => true | _ => false end
     && (op p =? VSOCK_OP_RW)
  then match pkt_buf p with Some buf => take (Z.to_nat (pkt_len p)) buf | None => [] end
  else [].

Lemma conn_send_ok c p now :
  conn_ok c -> pkt_ok p ->
  exists c', conn_send_pkt c p now = Ret c' /\ conn_ok c' /\ vc_keep c' = vc_keep c /\
    (moves c (accepted c p) c' \/
     (vc_state c' = Killed \/ vc_keep c = true) /\ loses c (accepted c p) c').
Proof.
  intros Hok Hp. unfold conn_send_pkt, accepted.
  set (c1 := set_peer_credit c (buf_alloc p) (fwd_cnt p)).
  assert (Hok1 : conn_ok c1) by (by apply set_peer_ok).
  assert (Hsame : forall c2, conn_ok c2 -> vc_keep c2 = vc_keep c -> vc_stream c2 = vc_stream c ->
    vc_tx_buf c2 = vc_tx_buf c -> vc_fwd_cnt c2 = vc_fwd_cnt c ->
    exists c', Ret c2 = Ret c' /\ conn_ok c' /\ vc_keep c' = vc_keep c /\
      (moves c [] c' \/ (vc_state c' = Killed \/ vc_keep c = true) /\ loses c [] c')).
  { intros c2 ? ? ? ? ?. exists c2. split_and!; auto. left. apply moves_refl; auto. apply Hok. }
  change (vc_state c1) with (vc_state c).
  destruct (match vc_state c with Established | PeerClosed _ false => true | _ => false end
            && (op p =? VSOCK_OP_RW)).
  - unfold send_rw. destruct (pkt_buf p) as [buf|] eqn:Eb; [|by apply Hsame].
    pose proof (po_fits p Hp) as Hf. rewrite Eb in Hf.
    destruct (Z.ltb_spec (Z.of_nat (length buf)) (pkt_len p)); [lia|].
    destruct (send_bytes_moves c1 (take (Z.to_nat (pkt_len p)) buf) Hok1)
      as (r&c2&E&Hok2&Hst&Hk&_&Hr). rewrite E. destruct r as [u|e].
    + assert (Hm : moves c (take (Z.to_nat (pkt_len p)) buf) c2) by (by apply (moves_from c c1)).
      eexists. split; [done|]. destruct (peer_needs_credit_update c2); [|auto].
      split; [by apply insert_rx_ok|]. split; [done|]. left. by eapply moves_same.
    + assert (Hl : loses c (take (Z.to_nat (pkt_len p)) buf) c2).
      { destruct Hr as [n Hn]. exists n. by apply (moves_from c c1). }
      assert (Hkill : exists c', Ret (kill c2) = Ret c' /\ conn_ok c' /\ vc_keep c' = vc_keep c /\
        (moves c (take (Z.to_nat (pkt_len p)) buf) c' \/ (vc_state c' = Killed \/ vc_keep c = true) /\
         loses c (take (Z.to_nat (pkt_len p)) buf) c')).
      { exists (kill c2). split; [done|]. split; [by apply kill_ok|]. split; [done|]. right.
        split; [by left|]. destruct Hl as [n Hn]. exists n. by eapply moves_same. }
      destruct e; [|exact Hkill..]. destruct (vc_keep c2) eqn:Ek; cbn [negb]; [|exact Hkill].
      exists c2. split; [done|]. split; [done|]. split; [rewrite Ek; exact Hk|]. right. split; [|done].
      right. symmetry. exact Hk.
  - repeat case_match; apply Hsame;
      auto using insert_rx_ok, set_state_ok, set_expiry_ok.
Qed.

(** An operation that leaves the data from the guest alone. *)
Definition quiet c c' : Prop := conn_ok c' /\ vc_keep c' = vc_keep c /\ moves c [] c'.

Lemma quiet_intro c c' :
  conn_ok c -> conn_ok c' -> vc_keep c' = vc_keep c ->
  stream_sent (vc_stream c') = stream_sent (vc_stream c) -> vc_tx_buf c' = vc_tx_buf c ->
  vc_fwd_cnt c' = vc_fwd_cnt c -> quiet c c'.
Proof.
  intros [] Hok' Hk Hs Ht Hf. split_and!; auto. unfold moves, taken_bytes.
  rewrite Hs, Ht, Hf, app_nil_r, Nat.sub_diag. split_and!; auto.
  unfold wrapping_add. rewrite Z.mod_small; ulia.
Qed.

Lemma quiet_trans c1 c2 c3 : quiet c1 c2 -> quiet c2 c3 -> quiet c1 c3.
Proof.
  intros (?&?&?) (?&?&?). split_and!; auto; [congruence|]. by eapply (moves_trans c1 [] c2 []).
Qed.

Lemma quiet_remove c it : conn_ok c -> quiet c (remove_rx c it).2.
Proof. intros. apply quiet_intro; auto. by apply remove_rx_ok. Qed.

Lemma recv_rw_ok c p now : conn_ok c -> quiet c (recv_rw c p now).1.2.
Proof.
  intros Hok. unfold recv_rw. pose proof Hok as [? ? ? ? ? ?].
  assert (Hself : quiet c c) by (by apply quiet_intro).
  assert (Hnote : quiet c (note_fwd_cnt c)) by (apply quiet_intro; auto; by apply note_fwd_ok).
  destruct (vc_state c) as [| | | |[] snd| ]; try exact Hself;
  (destruct (need_credit_update_from_peer c); [exact Hnote|]);
  (destruct (pkt_buf p) as [buf|]; [|exact Hself]);
  (destruct (stream_read (vc_stream c) _) as [r w] eqn:Er);
  (destruct (read_ok _ _ _ _ Er) as [Hs _]);
  (destruct r as [[|x l]|[]]; apply quiet_intro; auto; split; auto; apply wrap_u32).
Qed.

Lemma recv_credit_ok c p : conn_ok c -> quiet c (recv_credit_update c p).1.2.
Proof.
  intros Hok. unfold recv_credit_update. pose proof (quiet_remove c CreditUpdate Hok) as Hq.
  destruct (remove_rx c CreditUpdate) as [had c1]. cbn in Hq.
  destruct (had && _); cbn; [|done]. destruct Hq as (?&?&?).
  split_and!; auto using note_fwd_ok.
Qed.

Lemma conn_recv_ok c p now : conn_ok c -> quiet c (conn_recv_pkt c p now).1.2.
Proof.
  intros Hok. unfold conn_recv_pkt. generalize (init_pkt c p). intros p0.
  pose proof (quiet_remove c Rst Hok) as H1. destruct (remove_rx c Rst) as [[] c1]; cbn in H1; [done|].
  pose proof (quiet_remove c1 Response ltac:(apply H1)) as H2.
  destruct (remove_rx c1 Response) as [[] c2]; cbn in H2.
  { eapply quiet_trans; [exact H1|]. eapply quiet_trans; [exact H2|].
    apply quiet_intro; auto; [apply H2|]. apply set_state_ok, H2. }
  pose proof (quiet_trans _ _ _ H1 H2) as H12.
  pose proof (quiet_remove c2 Request ltac:(apply H2)) as H3.
  destruct (remove_rx c2 Request) as [[] c3]; cbn in H3.
  { eapply quiet_trans; [exact H12|]. eapply quiet_trans; [exact H3|].
    apply quiet_intro; auto; [apply H3|]. apply set_expiry_ok, H3. }
  pose proof (quiet_trans _ _ _ H12 H3) as H123.
  pose proof (quiet_remove c3 Rw ltac:(apply H3)) as H4.
  destruct (remove_rx c3 Rw) as [[] c4]; cbn in H4; pose proof (quiet_trans _ _ _ H123 H4) as H5.
  - pose proof (recv_rw_ok c4 p0 now ltac:(apply H4)) as H6.
    destruct (recv_rw c4 p0 now) as [[[r|] c5] p5]; cbn in H6;
      pose proof (quiet_trans _ _ _ H5 H6) as H7; [done|].
    eapply quiet_trans; [exact H7|]. apply recv_credit_ok, H6.
  - eapply quiet_trans; [exact H5|]. apply recv_credit_ok, H4.
Qed.

Lemma notify_out_ok c :
  conn_ok c -> exists c', notify_out c = Ret c' /\ quiet c c'.
Proof.
  intros Hok. pose proof Hok as [Htx Hf ? ? ? ?]. unfold notify_out.
  destruct (flush_to_ok (vc_tx_buf c) (vc_stream c) Htx) as (r&b&w&E&Hb&_&Hr).
  rewrite E. cbn [mbind outcome_bind].
  set (c1 := set_tx c w b (vc_fwd_cnt c)).
  set (nc := match r with Ok n => (n, c1) | Err (TxBufFlush WouldBlock) => (O, c1)
     | Err (TxBufFlush BrokenPipe) => (O, if negb (vc_keep c1) then kill c1 else c1)
     | Err _ => (O, kill c1) end).
  assert (Hnc : nc.1 = match r with Ok n => n | Err _ => O end /\ conn_ok nc.2 /\
    vc_keep nc.2 = vc_keep c /\ vc_stream nc.2 = w /\ vc_tx_buf nc.2 = b /\ vc_fwd_cnt nc.2 = vc_fwd_cnt c).
  { assert (conn_ok c1) by (by split). subst nc. destruct r as [n|[|[]|]]; cbn;
        try destruct (negb (vc_keep c)); cbn; split_and!; auto using kill_ok. }
  destruct nc as [n c2]. cbn in Hnc. destruct Hnc as (->&Hok2&Hk2&Hs2&Ht2&Hf2).
  match goal with |- context [set_tx c2 ?w2 ?b2 ?f2] => set (c3 := set_tx c2 w2 b2 f2) end.
  assert (Hq : quiet c c3).
  { assert (Hok3 : conn_ok c3) by (split; try apply Hok2; apply wrap_u32).
    split; [done|]. split; [done|]. unfold moves, taken_bytes, c3. cbn [vc_stream vc_tx_buf vc_fwd_cnt set_tx].
    rewrite Hs2, Ht2, Hf2, as_u32_wrap, app_nil_r. destruct r as [n|e].
    - destruct Hr as (Hn&Hsent&Hc). rewrite Hsent, Hc, <- app_assoc, take_drop. split_and!; auto.
      + by apply prefix_app_r.
      + rewrite length_app, length_take. do 2 f_equal. lia.
    - destruct Hr as (_&->&->). rewrite Nat.sub_diag. split_and!; auto. }
  assert (Hins : forall it, quiet c (insert_rx c3 it)).
  { intros it. eapply quiet_trans; [exact Hq|]. apply quiet_intro; auto; [apply Hq|].
    apply insert_rx_ok, Hq. }
  eexists. split; [done|]. destruct (_ && _); [done|]. by destruct (peer_needs_credit_update c3).
Qed.

Lemma conn_notify_ok c ev : conn_ok c -> exists c', conn_notify c ev = Ret c' /\ quiet c c'.
Proof.
  intros Hok. unfold conn_notify.
  set (c1 := if EPOLLIN ev || EPOLLHUP ev then insert_rx c Rw else c).
  assert (Hq1 : quiet c c1).
  { unfold c1. destruct (_ || _); apply quiet_intro; auto using insert_rx_ok. }
  destruct (EPOLLOUT ev && _); [by exists c1|].
  assert (exists c2, (if EPOLLOUT ev then notify_out c1 else Ret c1) = Ret c2 /\ quiet c c2)
    as (c2&E&Hq2).
  { destruct (EPOLLOUT ev); [|by exists c1].
    destruct (notify_out_ok c1 ltac:(apply Hq1)) as (c2&E&Hq2). exists c2. split; [done|].
    by eapply quiet_trans. }
  rewrite E. cbn [mbind outcome_bind]. eexists. split; [done|]. destruct (_ && _ && _); [|done].
  eapply quiet_trans; [exact Hq2|]. apply quiet_intro; auto; [apply Hq2|]. apply kill_ok, Hq2.
Qed.
End conn.
