(* ===== verification/VsockPort.v ===== *)
(** * Reading the destination of a host connection

    Model of [VsockMuxer::read_local_stream_port] and
    [VsockMuxer::passfd_read_port_and_fd]
    (src/dragonball/dbs_virtio_devices/src/vsock/muxer/muxer_impl.rs), with what
    they use of the standard library: UTF-8 validation, [split_whitespace],
    [to_lowercase] and [u32::from_str].  Strings are lists of code points. *)
From stdpp Require Import pretty.
From S2P Require Import Prelude VsockTxBuf.

Inductive MuxerError :=
| EpollAdd | InvalidPortRequest | BackendAccept | BackendConnect | BackendSetNonBlock
| BackendRead | TooManyConnections | BackendRegistered (ty : VsockBackendType).

Inductive ReadPortResult := PassFd | Connect (port : Z).

(** ** Strings *)

Definition between (lo hi b : Z) : bool := (lo <=? b) && (b <=? hi).

(** [std::str::from_utf8]: the well-formed byte sequences of Unicode table 3-7. *)
Fixpoint from_utf8 (l : list Z) : option (list Z) :=
  match l with
  | [] => Some []
  | b0 :: l0 =>
      if between 0 127 b0 then option_map (cons b0) (from_utf8 l0) else
      match l0 with
      | [] => None
      | b1 :: l1 =>
          let t1 := Z.land b1 63 in
          if between 194 223 b0 && between 128 191 b1 then
            option_map (cons (Z.land b0 31 * 64 + t1)) (from_utf8 l1) else
          match l1 with
          | [] => None
          | b2 :: l2 =>
              let t2 := Z.land b2 63 in
              if between 224 239 b0
                 && between (if b0 =? 224 then 160 else 128) (if b0 =? 237 then 159 else 191) b1
                 && between 128 191 b2 then
                option_map (cons (Z.land b0 15 * 4096 + t1 * 64 + t2)) (from_utf8 l2) else
              match l2 with
              | [] => None
              | b3 :: l3 =>
                  if between 240 244 b0
                     && between (if b0 =? 240 then 144 else 128) (if b0 =? 244 then 143 else 191) b1
                     && between 128 191 b2 && between 128 191 b3 then
                    option_map
                      (cons (Z.land b0 7 * 262144 + t1 * 4096 + t2 * 64 + Z.land b3 63))
                      (from_utf8 l3)
                  else None
              end
          end
      end
  end.

(** [char::is_whitespace]: the property White_Space. *)
Definition is_whitespace (c : Z) : bool :=
  between 9 13 c || (c =? 32) || (c =? 133) || (c =? 160) || (c =? 5760) || between 8192 8202 c
  || (c =? 8232) || (c =? 8233) || (c =? 8239) || (c =? 8287) || (c =? 12288).

(** [str::split_whitespace]; [w] is the word being read. *)
Fixpoint split_words (w : list Z) (l : list Z) : list (list Z) :=
  match l with
  | [] => match w with [] => [] | _ => [w] end
  | c :: l' =>
      if is_whitespace c then
        match w with [] => split_words [] l' | _ => w :: split_words [] l' end
      else split_words (w ++ [c]) l'
  end.

Definition split_whitespace (l : list Z) : list (list Z) := split_words [] l.

Definition codes (s : string) : list Z :=
  (fun a => Z.of_nat (Ascii.nat_of_ascii a)) <$> String.list_ascii_of_string s.

(** [to_lowercase] compared with an ASCII keyword without the letter k: the only
    character outside ASCII whose lower case is in ASCII is the Kelvin sign. *)
Definition to_lower (c : Z) : Z := if between 65 90 c then c + 32 else c.
Definition lowercase_is (word : list Z) (keyword : string) : bool :=
  bool_decide (to_lower <$> word = codes keyword).

(** [u32::from_str]: an optional plus sign, then at least one digit. *)
Fixpoint parse_digits (acc : Z) (l : list Z) : option Z :=
  match l with
  | [] => Some acc
  | c :: l' =>
      if between 48 57 c then
        let acc := acc * 10 + (c - 48) in
        if acc <=? u32_max then parse_digits acc l' else None
      else None
  end.

Definition parse_u32 (l : list Z) : option Z :=
  let digits := match l with c :: l' => if c =? 43 then l' else l | [] => [] end in
  match digits with [] => None | _ => parse_digits 0 digits end.

(** ** Reading *)

Section reading.
Context {W : Type} `{VsockStream W}.

(** [read_exact] on a slice of one byte; an interrupted read is tried again, at
    most [tries] times. *)
Fixpoint read_byte (tries : nat) (w : W) : outcome (result MuxerError Z * W) :=
  match tries with
  | O => Panic
  | S tries' =>
      match stream_read w 1 with
      | (Ok [], w) => Ret (Err BackendRead, w)
      | (Ok (b :: _), w) => Ret (Ok b, w)
      | (Err Interrupted, w) => read_byte tries' w
      | (Err _, w) => Ret (Err BackendRead, w)
      end
  end.

(** The loop that reads up to the end of the line: [n] bytes of the 32 are
    left; [buf] is what precedes them. *)
Fixpoint read_line (n : nat) (tries : nat) (buf : list Z) (w : W)
    : outcome (result MuxerError (list Z) * W) :=
  match n with
  | O => Ret (Ok buf, w)
  | S n' =>
      if bool_decide (last buf = Some 10) then Ret (Ok (buf ++ replicate n 0), w) else
      '(r, w) ← read_byte tries w;
      match r with
      | Err e => Ret (Err e, w)
      | Ok b => read_line n' tries (buf ++ [b]) w
      end
  end.

Definition MIN_READ_LEN : nat := 7.

(** What the 32 bytes mean. *)
Definition parse_request (buf : list Z) : result MuxerError ReadPortResult :=
  match from_utf8 buf with
  | None => Err InvalidPortRequest
  | Some s =>
      match split_whitespace s with
      | [] => Err InvalidPortRequest
      | word :: words =>
          if lowercase_is word "connect" then
            match words with
            | [] => Err InvalidPortRequest
            | port :: _ =>
                match parse_u32 port with
                | None => Err InvalidPortRequest
                | Some port => Ok (Connect port)
                end
            end
          else if lowercase_is word "passfd" then Ok PassFd
          else Err InvalidPortRequest
      end
  end.

Definition read_local_stream_port (tries : nat) (stream : W)
    : outcome (result MuxerError ReadPortResult * W) :=
  match stream_read stream MIN_READ_LEN with
  | (Err _, stream) => Ret (Err BackendRead, stream)
  | (Ok bytes, stream) =>
      '(r, stream) ← read_line (32 - MIN_READ_LEN) tries
                       (bytes ++ replicate (MIN_READ_LEN - length bytes) 0) stream;
      match r with
      | Err e => Ret (Err e, stream)
      | Ok buf => Ret (parse_request buf, stream)
      end
  end.

Definition passfd_read_port_and_fd (stream : W) : result MuxerError (Z * Z * bool) :=
  match recv_data_fd stream with
  | Err _ => Err BackendRead
  | Ok (data, fds) =>
      match fds with
      | [fd] =>
          if fd <=? 0 then Err InvalidPortRequest else
          match from_utf8 data with
          | None => Err InvalidPortRequest
          | Some s =>
              match split_whitespace s with
              | [] => Err InvalidPortRequest
              | word :: words =>
                  match parse_u32 word with
                  | None => Err InvalidPortRequest
                  | Some port =>
                      Ok (fd, port, match words with
                                    | kp :: _ => bool_decide (kp = codes "keep")
                                    | [] => false
                                    end)
                  end
              end
          end
      | _ => Err InvalidPortRequest
      end
  end.
End reading.
