(* ===== verification/VsockMuxer.v ===== *)
(** * The vsock muxer

    Model of src/dragonball/dbs_virtio_devices/src/vsock/muxer: the RX queue
    (muxer_rxq.rs), the kill queue (muxer_killq.rs) and the muxer itself
    (muxer_impl.rs).  What the muxer asks the system is an argument of its
    operations: [clock], the successive readings of [Instant::now], and [ctl],
    whether the successive calls of [epoll::ctl] succeeded.  The host streams
    and backends are instances of their traits; the order in which the hash map
    of connections is walked is a parameter. *)
From stdpp Require Import pretty.
From S2P Require Import Prelude VsockTxBuf VsockConn VsockPort.

Definition MAX_CONNECTIONS : nat := 1023.
Definition MUXER_RXQ_SIZE : nat := 256.
Definition MUXER_KILLQ_SIZE : nat := 128.

Record ConnMapKey := mkKey { k_local_port : Z; k_peer_port : Z }.

#[global] Instance ConnMapKey_eq_dec : EqDecision ConnMapKey.
Proof. solve_decision. Defined.

#[global] Instance ConnMapKey_countable : Countable ConnMapKey.
Proof.
  refine (inj_countable' (fun k => (k_local_port k, k_peer_port k)) (fun p => mkKey p.1 p.2) _).
  by intros [].
Defined.

#[global] Instance VsockBackendType_countable : Countable VsockBackendType.
Proof.
  refine (inj_countable' (fun t => match t with UnixStream => 0 | Tcp => 1 | Inner => 2
      | HybridStream => 3 end%nat)
    (fun n => match n with 0 => UnixStream | 1 => Tcp | 2 => Inner | _ => HybridStream end%nat) _).
  by intros [].
Defined.

Inductive MuxerRx :=
| ConnRx (key : ConnMapKey)
| RstPkt (local_port peer_port : Z).

#[global] Instance MuxerRx_eq_dec : EqDecision MuxerRx.
Proof. solve_decision. Defined.

Definition is_conn_rx (rx : MuxerRx) : bool := match rx with ConnRx _ => true | _ => false end.

(** ** The RX queue *)

Record MuxerRxQ := mkRxQ { rxq_q : list MuxerRx; rxq_synced : bool }.

Definition rxq_default : MuxerRxQ := mkRxQ [] true.

Definition rxq_is_full (q : MuxerRxQ) : bool := (length (rxq_q q) =? MUXER_RXQ_SIZE)%nat.
Definition rxq_is_empty (q : MuxerRxQ) : bool := (length (rxq_q q) =? 0)%nat.

(** The [for] loop over the mutable reverse iterator: the first connection key
    from the back is replaced. *)
Fixpoint replace_first_conn (rx : MuxerRx) (l : list MuxerRx) : option (list MuxerRx) :=
  match l with
  | [] => None
  | x :: l' =>
      if is_conn_rx x then Some (rx :: l')
      else option_map (cons x) (replace_first_conn rx l')
  end.

Definition rxq_push (q : MuxerRxQ) (rx : MuxerRx) : bool * MuxerRxQ :=
  if rxq_synced q && negb (rxq_is_full q) then (true, mkRxQ (rxq_q q ++ [rx]) (rxq_synced q))
  else match rx with
  | RstPkt _ _ =>
      match replace_first_conn rx (reverse (rxq_q q)) with
      | Some l => (true, mkRxQ (reverse l) false)
      | None => (false, q)
      end
  | ConnRx _ => (false, mkRxQ (rxq_q q) false)
  end.

Definition rxq_peek (q : MuxerRxQ) : option MuxerRx := head (rxq_q q).
Definition rxq_pop (q : MuxerRxQ) : option MuxerRx * MuxerRxQ :=
  (head (rxq_q q), mkRxQ (tail (rxq_q q)) (rxq_synced q)).

(** ** The kill queue *)

Record MuxerKillQItem := mkKillItem { ki_key : ConnMapKey; ki_time : Z }.

Record MuxerKillQ := mkKillQ { killq_q : list MuxerKillQItem; killq_synced : bool }.

Definition killq_default : MuxerKillQ := mkKillQ [] true.

Definition killq_is_full (q : MuxerKillQ) : bool := (length (killq_q q) =? MUXER_KILLQ_SIZE)%nat.
Definition killq_is_empty (q : MuxerKillQ) : bool := (length (killq_q q) =? 0)%nat.

Definition killq_push (q : MuxerKillQ) (key : ConnMapKey) (kill_time : Z) : MuxerKillQ :=
  if negb (killq_synced q) || killq_is_full q then mkKillQ (killq_q q) false
  else mkKillQ (killq_q q ++ [mkKillItem key kill_time]) (killq_synced q).

Definition killq_pop (q : MuxerKillQ) (now : Z) : option ConnMapKey * MuxerKillQ :=
  match killq_q q with
  | item :: l => if ki_time item <? now then (Some (ki_key item), mkKillQ l (killq_synced q)) else (None, q)
  | [] => (None, q)
  end.

(** ** The muxer *)

(** The trait of backends. *)
Class VsockBackend (B W : Type) := {
  backend_accept : B -> result ErrorKind W * B;
  backend_connect : B -> Z -> result ErrorKind W;
  backend_kind : B -> VsockBackendType;
  backend_fd : B -> Z;
}.

Inductive EpollListener (W : Type) :=
| LConnection (key : ConnMapKey) (evset : Events) (backend : VsockBackendType)
| LBackend (ty : VsockBackendType)
| LLocalStream (stream : W)
| LPassFdStream (stream : W).
Arguments LConnection {W}.
Arguments LBackend {W}.
Arguments LLocalStream {W}.
Arguments LPassFdStream {W}.

Record VsockMuxer (W B : Type) := mkMuxer {
  mx_cid : Z;
  mx_conn_map : gmap ConnMapKey (VsockConnection W);
  mx_listener_map : gmap Z (EpollListener W);
  mx_rxq : MuxerRxQ;
  mx_killq : MuxerKillQ;
  mx_local_port_set : gset Z;
  mx_local_port_last : Z;
  mx_backend_map : gmap VsockBackendType B;
  mx_peer_backend : option VsockBackendType;
}.
Arguments mkMuxer {W B}.
Arguments mx_cid {W B}.
Arguments mx_conn_map {W B}.
Arguments mx_listener_map {W B}.
Arguments mx_rxq {W B}.
Arguments mx_killq {W B}.
Arguments mx_local_port_set {W B}.
Arguments mx_local_port_last {W B}.
Arguments mx_backend_map {W B}.
Arguments mx_peer_backend {W B}.

(** The message [format!("OK {}\n", port)]. *)
Definition ok_msg (port : Z) : list Z :=
  codes (String.append "OK " (pretty (Z.to_N port))) ++ [10].

Section muxer.
Context {W B : Type} `{VsockStream W} `{VsockBackend B W}.
(** The order in which [conn_map.iter()] yields the entries. *)
Context (conn_iter : gmap ConnMapKey (VsockConnection W) -> list (ConnMapKey * VsockConnection W)).
(** [sort_unstable_by_key] on the items of a new kill queue. *)
Context (sort_by_kill_time : list MuxerKillQItem -> list MuxerKillQItem).
Implicit Types (m : VsockMuxer W B) (conn : VsockConnection W).

Definition set_conn_map m v : VsockMuxer W B :=
  mkMuxer (mx_cid m) v (mx_listener_map m) (mx_rxq m) (mx_killq m) (mx_local_port_set m)
    (mx_local_port_last m) (mx_backend_map m) (mx_peer_backend m).
Definition set_listener_map m v : VsockMuxer W B :=
  mkMuxer (mx_cid m) (mx_conn_map m) v (mx_rxq m) (mx_killq m) (mx_local_port_set m)
    (mx_local_port_last m) (mx_backend_map m) (mx_peer_backend m).
Definition set_rxq m v : VsockMuxer W B :=
  mkMuxer (mx_cid m) (mx_conn_map m) (mx_listener_map m) v (mx_killq m) (mx_local_port_set m)
    (mx_local_port_last m) (mx_backend_map m) (mx_peer_backend m).
Definition set_killq m v : VsockMuxer W B :=
  mkMuxer (mx_cid m) (mx_conn_map m) (mx_listener_map m) (mx_rxq m) v (mx_local_port_set m)
    (mx_local_port_last m) (mx_backend_map m) (mx_peer_backend m).
Definition set_local_ports m s l : VsockMuxer W B :=
  mkMuxer (mx_cid m) (mx_conn_map m) (mx_listener_map m) (mx_rxq m) (mx_killq m) s l
    (mx_backend_map m) (mx_peer_backend m).
Definition set_backend_map m v : VsockMuxer W B :=
  mkMuxer (mx_cid m) (mx_conn_map m) (mx_listener_map m) (mx_rxq m) (mx_killq m)
    (mx_local_port_set m) (mx_local_port_last m) v (mx_peer_backend m).
Definition set_peer_backend m v : VsockMuxer W B :=
  mkMuxer (mx_cid m) (mx_conn_map m) (mx_listener_map m) (mx_rxq m) (mx_killq m)
    (mx_local_port_set m) (mx_local_port_last m) (mx_backend_map m) v.

(** [epoll_ok]: whether the kernel could create the epoll descriptor. *)
Definition VsockMuxer_new (cid : Z) (epoll_ok : bool) : option (VsockMuxer W B) :=
  if epoll_ok then
    Some (mkMuxer cid ∅ ∅ rxq_default killq_default ∅ (Z.shiftl 1 30 - 1) ∅ None)
  else None.

(** *** Resynchronising the queues *)

Fixpoint rxq_collect (l : list (ConnMapKey * VsockConnection W)) (q : list MuxerRx) : MuxerRxQ :=
  match l with
  | [] => mkRxQ q true
  | (key, conn) :: l' =>
      if negb (conn_has_pending_rx conn) then rxq_collect l' q
      else if (MUXER_RXQ_SIZE <=? length q)%nat then mkRxQ q false
      else rxq_collect l' (q ++ [ConnRx key])
  end.

Definition rxq_from_conn_map (cm : gmap ConnMapKey (VsockConnection W)) : MuxerRxQ :=
  rxq_collect (conn_iter cm) [].

Fixpoint killq_collect (l : list (ConnMapKey * VsockConnection W)) (clock : nat -> Z)
    (q : list MuxerKillQItem) : outcome MuxerKillQ :=
  match l with
  | [] => Ret (mkKillQ (sort_by_kill_time q) true)
  | (key, conn) :: l' =>
      if negb (will_expire conn (clock O)) then killq_collect l' (fun i => clock (S i)) q
      else if (MUXER_KILLQ_SIZE <=? length q)%nat then Ret (mkKillQ (sort_by_kill_time q) false)
      else
        t ← unwrap (vc_expiry conn);
        killq_collect l' (fun i => clock (S i)) (q ++ [mkKillItem key t])
  end.

Definition killq_from_conn_map (cm : gmap ConnMapKey (VsockConnection W)) (clock : nat -> Z)
    : outcome MuxerKillQ := killq_collect (conn_iter cm) clock [].

(** *** Listeners and ports *)

Definition muxer_has_pending_rx m : bool :=
  negb (rxq_is_empty (mx_rxq m)) || negb (rxq_synced (mx_rxq m)).

Definition add_listener m (fd : Z) (l : EpollListener W) (ctl : bool)
    : result MuxerError unit * VsockMuxer W B :=
  if ctl then (Ok tt, set_listener_map m (<[fd := l]> (mx_listener_map m))) else (Err EpollAdd, m).

(** An error of [epoll::ctl] is only logged. *)
Definition remove_listener m (fd : Z) : option (EpollListener W) * VsockMuxer W B :=
  (mx_listener_map m !! fd, set_listener_map m (delete fd (mx_listener_map m))).

(** The loop tries at most one port more than there are ports in use. *)
Fixpoint port_loop (fuel : nat) (last : Z) (used : gset Z) : outcome Z :=
  match fuel with
  | O => Panic
  | S fuel' =>
      l ← uadd u32_max last 1;
      let last := Z.lor (Z.land l (unot u32_max (Z.shiftl 1 31))) (Z.shiftl 1 30) in
      if decide (last ∈ used) then port_loop fuel' last used else Ret last
  end.

Definition allocate_local_port m : outcome (Z * VsockMuxer W B) :=
  port ← port_loop (S (size (mx_local_port_set m))) (mx_local_port_last m) (mx_local_port_set m);
  Ret (port, set_local_ports m ({[port]} ∪ mx_local_port_set m) port).

Definition free_local_port m (port : Z) : VsockMuxer W B :=
  set_local_ports m (mx_local_port_set m ∖ {[port]}) (mx_local_port_last m).

(** *** Connections *)

Definition push_rx m (rx : MuxerRx) : VsockMuxer W B := set_rxq m (rxq_push (mx_rxq m) rx).2.

Definition remove_connection m (key : ConnMapKey) : VsockMuxer W B :=
  let m := match mx_conn_map m !! key with
           | Some conn => (remove_listener (set_conn_map m (delete key (mx_conn_map m)))
                             (stream_fd (vc_stream conn))).2
           | None => m
           end in
  free_local_port m (k_local_port key).

Definition kill_connection m (key : ConnMapKey) : VsockMuxer W B :=
  let '(had_rx, m) :=
    match mx_conn_map m !! key with
    | Some conn => (conn_has_pending_rx conn, set_conn_map m (<[key := kill conn]> (mx_conn_map m)))
    | None => (false, m)
    end in
  if negb had_rx then push_rx m (ConnRx key) else m.

Definition enq_rst m (local_port peer_port : Z) : VsockMuxer W B :=
  push_rx m (RstPkt local_port peer_port).

(** The acknowledgement of a host-initiated connection that was just
    established. *)
Definition ack_host (key : ConnMapKey) (prev : ConnState) conn : VsockConnection W :=
  if bool_decide (prev = LocalInit) && bool_decide (vc_state conn = Established) then
    let msg := ok_msg (k_local_port key) in
    let '(r, conn) := send_bytes_raw conn msg in
    match r with
    | Ok written => if (written =? length msg)%nat then conn else kill conn
    | Err _ => kill conn
    end
  else conn.

(** The part of [apply_conn_mutation] that updates the epoll listener. *)
Definition update_listener m (key : ConnMapKey) conn (bt : VsockBackendType) (ctl : bool)
    : VsockMuxer W B :=
  let fd := stream_fd (vc_stream conn) in
  let new_evset := get_polled_evset conn in
  if bool_decide (new_evset = no_events) then (remove_listener m fd).2
  else match mx_listener_map m !! fd with
  | Some (LConnection k evset b) =>
      if bool_decide (evset = new_evset) then m
      else
        let m := set_listener_map m (<[fd := LConnection k new_evset b]> (mx_listener_map m)) in
        if ctl then m else kill_connection m key
  | _ =>
      if bool_decide (vc_state conn = LocalClosed) then m
      else match add_listener m fd (LConnection key new_evset bt) ctl with
           | (Ok _, m) => m
           | (Err _, m) => kill_connection m key
           end
  end.

(** [mut_fn] is the closure, with what it stores in captured variables as its
    result. *)
Definition apply_conn_mutation {A} m (key : ConnMapKey)
    (mut_fn : VsockConnection W -> outcome (A * VsockConnection W)) (clock : nat -> Z) (ctl : bool)
    : outcome (option A * VsockMuxer W B) :=
  match mx_conn_map m !! key with
  | None => Ret (None, m)
  | Some conn =>
      let had_rx := conn_has_pending_rx conn in
      let was_expiring := will_expire conn (clock O) in
      let prev_state := vc_state conn in
      let bt := backend_type (vc_stream conn) in
      '(a, conn) ← mut_fn conn;
      let conn := ack_host key prev_state conn in
      let m := set_conn_map m (<[key := conn]> (mx_conn_map m)) in
      let m := if negb had_rx && conn_has_pending_rx conn then push_rx m (ConnRx key) else m in
      m ← (if negb was_expiring && will_expire conn (clock 1%nat) then
             t ← unwrap (vc_expiry conn); Ret (set_killq m (killq_push (mx_killq m) key t))
           else Ret m);
      Ret (Some a, update_listener m key conn bt ctl)
  end.

(** The [while] loop of [sweep_killq]: pops the expired items, at most as many
    as there are; returns the unread part of the clock. *)
Fixpoint sweep_pops (n : nat) m (clock : nat -> Z) : VsockMuxer W B * (nat -> Z) :=
  match n with
  | O => (m, clock)
  | S n' =>
      match killq_pop (mx_killq m) (clock O) with
      | (None, _) => (m, fun i => clock (S i))
      | (Some key, q) =>
          let m := set_killq m q in
          let kill := match mx_conn_map m !! key with
                      | Some conn => has_expired conn (clock 1%nat)
                      | None => false
                      end in
          sweep_pops n' (if kill then kill_connection m key else m) (fun i => clock (S (S i)))
      end
  end.

(** The recursion of [sweep_killq]; every level that rebuilds the queue leaves
    fewer connections that are still to expire ([sweep_terminates]). *)
Fixpoint sweep_loop (fuel : nat) m (clock : nat -> Z) : outcome (VsockMuxer W B) :=
  match fuel with
  | O => Panic
  | S fuel' =>
      let '(m, clock) := sweep_pops (length (killq_q (mx_killq m))) m clock in
      if killq_is_empty (mx_killq m) && negb (killq_synced (mx_killq m)) then
        q ← killq_from_conn_map (mx_conn_map m) clock;
        sweep_loop fuel' (set_killq m q)
          (fun i => clock (i + length (conn_iter (mx_conn_map m)))%nat)
      else Ret m
  end.

Definition sweep_killq m (clock : nat -> Z) : outcome (VsockMuxer W B) :=
  sweep_loop (2 + size (mx_conn_map m)) m clock.

Definition add_connection m (key : ConnMapKey) conn (clock : nat -> Z) (ctl : bool)
    : outcome (result MuxerError unit * VsockMuxer W B) :=
  m ← sweep_killq m clock;
  if (MAX_CONNECTIONS <=? size (mx_conn_map m))%nat then Ret (Err TooManyConnections, m) else
  match add_listener m (stream_fd (vc_stream conn))
          (LConnection key (get_polled_evset conn) (backend_type (vc_stream conn))) ctl with
  | (Err e, m) => Ret (Err e, m)
  | (Ok _, m) =>
      let m := if conn_has_pending_rx conn then push_rx m (ConnRx key) else m in
      Ret (Ok tt, set_conn_map m (<[key := conn]> (mx_conn_map m)))
  end.

Definition handle_peer_request_pkt m (pkt : VsockPacket) (clock : nat -> Z) (ctl : bool)
    : outcome (VsockMuxer W B) :=
  match mx_peer_backend m with
  | None => Ret (enq_rst m (dst_port pkt) (src_port pkt))
  | Some bt =>
      match mx_backend_map m !! bt with
      | None => Ret (enq_rst m (dst_port pkt) (src_port pkt))
      | Some backend =>
          '(r, m) ← (match backend_connect backend (dst_port pkt) with
                     | Err _ => Ret (Err BackendConnect, m)
                     | Ok stream =>
                         add_connection m (mkKey (dst_port pkt) (src_port pkt))
                           (new_peer_init stream VSOCK_HOST_CID (mx_cid m) (dst_port pkt)
                              (src_port pkt) (buf_alloc pkt) false) clock ctl
                     end);
          Ret (match r with Ok _ => m | Err _ => enq_rst m (dst_port pkt) (src_port pkt) end)
      end
  end.

Definition add_backend m (backend : B) (is_peer_backend : bool) (ctl : bool)
    : result MuxerError unit * VsockMuxer W B :=
  let bt := backend_kind backend in
  match mx_backend_map m !! bt with
  | Some _ => (Err (BackendRegistered bt), m)
  | None =>
      match add_listener m (backend_fd backend) (LBackend bt) ctl with
      | (Err e, m) => (Err e, m)
      | (Ok _, m) =>
          let m := set_backend_map m (<[bt := backend]> (mx_backend_map m)) in
          (Ok tt, if is_peer_backend then set_peer_backend m (Some bt) else m)
      end
  end.

(** *** Packets to the guest *)

Definition rst_packet m (pkt : VsockPacket) (local_port peer_port : Z) : VsockPacket :=
  set_fwd_cnt (set_buf_alloc (set_flags (set_type (set_len (set_dst_port (set_src_port
    (set_dst_cid (set_src_cid (set_op pkt VSOCK_OP_RST) VSOCK_HOST_CID) (mx_cid m)) local_port)
    peer_port) 0) VSOCK_TYPE_STREAM) 0) 0) 0.

Definition pop_rx m : outcome (VsockMuxer W B) :=
  let '(o, q) := rxq_pop (mx_rxq m) in
  _ ← unwrap o; Ret (set_rxq m q).

(** The closure of [recv_pkt]: the answer of the connection, the packet and
    whether the connection has nothing more to say. *)
Definition recv_from (pkt : VsockPacket) (now : Z) conn
    : outcome (result VsockError unit * VsockPacket * bool * VsockConnection W) :=
  let '(r, conn, pkt) := conn_recv_pkt conn pkt now in
  Ret (r, pkt, negb (conn_has_pending_rx conn), conn).

(** The branch of the loop of [recv_pkt] that asks a connection. *)
Definition recv_conn m (key : ConnMapKey) (pkt : VsockPacket) (clock : nat -> Z) (ctl : bool)
    : outcome (result VsockError unit * VsockMuxer W B * VsockPacket) :=
  '(o, m) ← apply_conn_mutation m key (recv_from pkt (clock 1%nat)) (fun i => clock (2 * i)%nat) ctl;
  let '(res, pkt, do_pop) := default (Err NoData, pkt, true) o in
  m ← (if do_pop : bool then pop_rx m else Ret m);
  Ret (res, m, pkt).

(** The [while] loop of [recv_pkt]; [recv_fuel] rounds are enough
    ([recv_terminates]). *)
Fixpoint recv_loop (fuel : nat) m (pkt : VsockPacket) (clock : nat -> Z) (ctl : nat -> bool)
    : outcome (result VsockError unit * VsockMuxer W B * VsockPacket) :=
  match fuel with
  | O => Panic
  | S fuel' =>
      match rxq_peek (mx_rxq m) with
      | None => Ret (Err NoData, m, pkt)
      | Some (RstPkt local_port peer_port) =>
          let pkt := rst_packet m pkt local_port peer_port in
          m ← pop_rx m; Ret (Ok tt, m, pkt)
      | Some (ConnRx key) =>
          '(res, m, pkt) ← recv_conn m key pkt clock (ctl O);
          match res with
          | Ok _ =>
              Ret (Ok tt, if op pkt =? VSOCK_OP_RST
                          then remove_connection m (mkKey (src_port pkt) (dst_port pkt)) else m, pkt)
          | Err _ => recv_loop fuel' m pkt (fun i => clock (3 + i)%nat) (fun i => ctl (S i))
          end
      end
  end.

Definition recv_fuel m : nat := 1 + length (rxq_q (mx_rxq m)) + 3 * size (mx_conn_map m).

Definition muxer_recv_pkt m (pkt : VsockPacket) (clock : nat -> Z) (ctl : nat -> bool)
    : outcome (result VsockError unit * VsockMuxer W B * VsockPacket) :=
  let m := if rxq_is_empty (mx_rxq m) && negb (rxq_synced (mx_rxq m))
           then set_rxq m (rxq_from_conn_map (mx_conn_map m)) else m in
  recv_loop (recv_fuel m) m pkt clock ctl.

(** *** Packets from the guest *)

(** The part of [send_pkt] that revives a kept connection whose host peer was
    closed. *)
Definition revive m (key : ConnMapKey) conn (ctl : bool) : VsockMuxer W B :=
  if bool_decide (vc_state conn = LocalClosed) && vc_keep conn then
    let conn := set_state conn Established in
    let m := set_conn_map m (<[key := conn]> (mx_conn_map m)) in
    match add_listener m (stream_fd (vc_stream conn))
            (LConnection key (get_polled_evset conn) (backend_type (vc_stream conn))) ctl with
    | (Ok _, m) => m
    | (Err _, m) => kill_connection m key
    end
  else m.

Definition muxer_send_pkt m (pkt : VsockPacket) (clock : nat -> Z) (ctl : nat -> bool)
    : outcome (VsockMuxer W B) :=
  let conn_key := mkKey (dst_port pkt) (src_port pkt) in
  if negb (type_ pkt =? VSOCK_TYPE_STREAM) then Ret (enq_rst m (dst_port pkt) (src_port pkt))
  else if negb (dst_cid pkt =? VSOCK_HOST_CID) then Ret m
  else match mx_conn_map m !! conn_key with
  | None =>
      if op pkt =? VSOCK_OP_REQUEST then handle_peer_request_pkt m pkt clock (ctl O)
      else Ret (enq_rst m (dst_port pkt) (src_port pkt))
  | Some conn =>
      if op pkt =? VSOCK_OP_RST then Ret (remove_connection m conn_key) else
      let m := revive m conn_key conn (ctl O) in
      '(_, m) ← apply_conn_mutation m conn_key
                  (fun conn => c ← conn_send_pkt conn pkt (clock 1%nat); Ret (tt, c))
                  (fun i => clock (2 * i)%nat) (ctl 1%nat);
      Ret m
  end.

(** *** Events

    [hybrid_stream] wraps a passed descriptor and the stream it came from, and
    makes it non-blocking, which can fail. *)
Context (hybrid_stream : Z -> W -> result MuxerError W).

(** A host-initiated connection: a fresh local port and a new connection. *)
Definition add_local_init m (stream : W) (peer_port : Z) (keep : bool) (clock : nat -> Z) (ctl : bool)
    : outcome (VsockMuxer W B) :=
  '(local_port, m) ← allocate_local_port m;
  '(_, m) ← add_connection m (mkKey local_port peer_port)
              (new_local_init stream VSOCK_HOST_CID (mx_cid m) local_port peer_port keep) clock ctl;
  Ret m.

Definition handle_event m (fd : Z) (event_set : Events) (tries : nat) (clock : nat -> Z) (ctl : bool)
    : outcome (VsockMuxer W B) :=
  match mx_listener_map m !! fd with
  | Some (LConnection key _ _) =>
      let m :=
        match mx_conn_map m !! key with
        | Some conn =>
            if EPOLLERR event_set && vc_keep conn then
              (remove_listener (set_conn_map m
                 (<[key := set_state conn LocalClosed]> (mx_conn_map m))) fd).2
            else m
        | None => m
        end in
      '(_, m) ← apply_conn_mutation m key
                  (fun conn => c ← conn_notify conn event_set; Ret (tt, c)) clock ctl;
      Ret m
  | Some (LBackend bt) =>
      match mx_backend_map m !! bt with
      | None => Ret m
      | Some backend =>
          let '(r, backend) := backend_accept backend in
          let full := (length (rxq_q (mx_rxq m)) =? MAX_CONNECTIONS)%nat in
          let m := set_backend_map m (<[bt := backend]> (mx_backend_map m)) in
          if full then Ret m else
          match r with
          | Err _ => Ret m
          | Ok stream => Ret (add_listener m (stream_fd stream) (LLocalStream stream) ctl).2
          end
      end
  | Some (LLocalStream _) =>
      match remove_listener m fd with
      | (Some (LLocalStream stream), m) =>
          '(r, stream) ← read_local_stream_port tries stream;
          match r with
          | Err _ => Ret m
          | Ok (Connect peer_port) => add_local_init m stream peer_port false clock ctl
          | Ok PassFd =>
              Ret (add_listener m (stream_fd stream) (LPassFdStream stream) ctl).2
          end
      | (_, m) => Ret m
      end
  | Some (LPassFdStream _) =>
      match remove_listener m fd with
      | (Some (LPassFdStream stream), m) =>
          match passfd_read_port_and_fd stream with
          | Err _ => Ret m
          | Ok (nfd, peer_port, keep) =>
              '(local_port, m) ← allocate_local_port m;
              match hybrid_stream nfd stream with
              | Err _ => Ret m
              | Ok hs =>
                  '(_, m) ← add_connection m (mkKey local_port peer_port)
                     (new_local_init hs VSOCK_HOST_CID (mx_cid m) local_port peer_port keep) clock ctl;
                  Ret m
              end
          end
      | (_, m) => Ret m
      end
  | None => Ret m
  end.

(** [events]: what [epoll::wait] returned; nothing when it failed. *)
Fixpoint muxer_notify m (events : list (Z * Events)) (tries : nat) (clock : nat -> nat -> Z) (ctl : nat -> bool)
    : outcome (VsockMuxer W B) :=
  match events with
  | [] => Ret m
  | (fd, ev) :: events' =>
      m ← handle_event m fd ev tries (clock O) (ctl O);
      muxer_notify m events' tries (fun i => clock (S i)) (fun i => ctl (S i))
  end.
End muxer.
