(* ===== verification/VsockDemo.v ===== *)
(** * Concrete vsock streams and backends

    Instances of the traits of the vsock device, on which the theorems are
    evaluated. *)
From stdpp Require Import sorting.
From S2P Require Import Prelude VsockTxBuf VsockConn VsockConnFacts VsockPort VsockMuxer.

(** A host stream that takes at most four bytes per write and yields the
    chunks it was given. *)
Definition DemoStream : Type := list Z * list (list Z).

#[global] Instance demo_stream : VsockStream DemoStream := {
  stream_write w buf := (Ok (Nat.min (length buf) 4), (w.1 ++ take 4 buf, w.2));
  stream_read w n := match w.2 with
                     | [] => (Err WouldBlock, w)
                     | l :: ls => (Ok (take n l), (w.1, ls))
                     end;
  stream_fd _ := 7;
  backend_type _ := UnixStream;
  recv_data_fd _ := Err OtherError;
}.

#[global] Instance demo_stream_laws : VsockStreamLaws DemoStream.
Proof.
  refine {| stream_sent := (fun w : DemoStream => w.1) |}.
  - intros w buf n w' [= <- <-]. split; [lia|]. cbn. f_equal.
    destruct (decide (4 <= length buf)%nat); [by rewrite Nat.min_r|].
    rewrite Nat.min_l, firstn_all, take_ge by lia. done.
  - by intros w buf e w' [=].
  - intros w n r w'. cbn. destruct w.2; intros [= <- <-]; split; try done. rewrite length_take. lia.
  - by intros w buf r w' [= <- <-].
  - intros w n r w'. cbn. by destruct w.2; intros [= <- <-].
Defined.

Definition demo_data (bytes : list Z) : VsockPacket :=
  mkPkt (mkHdr 3 2 2048 1024 (Z.of_nat (length bytes)) 1 VSOCK_OP_RW 0 4096 0) (Some bytes).

Lemma demo_data_ok bytes : pkt_ok (demo_data bytes).
Proof. split; cbn; try ulia; lia. Qed.

(** A backend that accepts nothing and connects everywhere. *)
#[global] Instance demo_backend : VsockBackend unit DemoStream := {
  backend_accept b := (Err WouldBlock, b);
  backend_connect _ _ := Ok ([], []);
  backend_kind _ := UnixStream;
  backend_fd _ := 5;
}.

Definition demo_iter (cm : gmap ConnMapKey (VsockConnection DemoStream))
    : list (ConnMapKey * VsockConnection DemoStream) := map_to_list cm.

Lemma demo_iter_spec cm : demo_iter cm ≡ₚ map_to_list cm.
Proof. done. Qed.

Definition kill_before (a b : MuxerKillQItem) : Prop := ki_time a <= ki_time b.
#[global] Instance kill_before_dec : RelDecision kill_before.
Proof. intros a b. unfold kill_before. apply _. Defined.

Definition demo_sort (q : list MuxerKillQItem) : list MuxerKillQItem := merge_sort kill_before q.

Lemma demo_sort_spec q : demo_sort q ≡ₚ q.
Proof. apply merge_sort_Permutation. Qed.
