(* ===== verification/VsockConnProps.v ===== *)
(** * Properties of vsock connections

    The TX buffer is a byte queue, the bytes of the guest reach the host stream
    in order and exactly once, data packets respect the credit of the peer, and
    shutdown indications are never taken back. *)
From S2P Require Import Prelude VsockTxBuf VsockConn VsockConnFacts VsockDemo.

Section props.
Context {W : Type} `{VsockStreamLaws W}.
Implicit Types (c : VsockConnection W).

(** One event of a connection, with the data it brings from the guest. *)
Inductive conn_step c : list Z -> VsockConnection W -> Prop :=
| step_send p now c' :
    pkt_ok p -> conn_send_pkt c p now = Ret c' -> conn_step c (accepted c p) c'
| step_recv p now r c' p' :
    conn_recv_pkt c p now = (r, c', p') -> conn_step c [] c'
| step_notify ev c' :
    conn_notify c ev = Ret c' -> conn_step c [] c'.

(** A run of a connection that is not killed. *)
Inductive conn_run c : list Z -> VsockConnection W -> Prop :=
| run_nil : conn_run c [] c
| run_step data c1 data1 c2 :
    conn_run c data c1 -> conn_step c1 data1 c2 -> vc_state c2 <> Killed ->
    conn_run c (data ++ data1) c2.

(** The states that can follow [PeerClosed r s]. *)
Definition closing (r s : bool) (st : ConnState) : Prop :=
  match st with
  | PeerClosed r' s' => (r = true -> r' = true) /\ (s = true -> s' = true)
  | LocalClosed | Killed => True
  | _ => False
  end.

(** C40: the TX ring buffer refines a byte queue of 64 KiB: [push] appends the slice or
    refuses it whole when it does not fit; [flush_to] never panics, writes a prefix of
    the queue to the stream, in order and across the wrap of the ring, and removes
    exactly what the stream accepted. *)
Theorem tx_queue_refinement (b : TxBuf) (w : W) :
  tx_ok b ->
  length (tx_contents b) = Z.to_nat (tx_len b) /\
  (forall src, if CONN_TX_BUF_SIZE <? tx_len b + Z.of_nat (length src)
     then tx_push b src = Err TxBufFull
     else exists b', tx_push b src = Ok b' /\ tx_ok b' /\ tx_contents b' = tx_contents b ++ src) /\
  (exists r b' w', flush_to b w = Ret (r, b', w') /\ tx_ok b' /\
     match r with
     | Ok n => (n <= length (tx_contents b))%nat /\
         stream_sent w' = stream_sent w ++ take n (tx_contents b) /\
         tx_contents b' = drop n (tx_contents b)
     | Err e => (exists k, e = TxBufFlush k) /\ b' = b /\ stream_sent w' = stream_sent w
     end).
Proof.
  intros Hok. split_and!.
  - by apply contents_length.
  - intros src. by apply tx_push_ok.
  - destruct (flush_to_ok b w Hok) as (r&b'&w'&E&?&_&?). exists r, b', w'. by split_and!.
Qed.

Lemma conn_step_ok c data c' :
  conn_ok c -> conn_step c data c' ->
  conn_ok c' /\ vc_keep c' = vc_keep c /\
  (moves c data c' \/ (vc_state c' = Killed \/ vc_keep c = true) /\ loses c data c').
Proof.
  intros Hok [p now c2 Hp E|p now r c2 p' E|ev c2 E].
  - destruct (conn_send_ok c p now Hok Hp) as (c3&E'&?&?&?). rewrite E in E'. injection E' as <-. auto.
  - pose proof (conn_recv_ok c p now Hok) as (?&?&?). rewrite E in *. auto.
  - destruct (conn_notify_ok c ev Hok) as (c3&E'&?&?&?). rewrite E in E'. injection E' as <-. auto.
Qed.

(** C35: in-order delivery without duplicates: as long as a connection is not killed,
    what it has taken from the guest is data of the accepted packets, in order, split
    between what the host stream received and the TX buffer, and the forwarded count
    follows the stream.  Nothing of the data is lost on a connection that closes with
    its host peer; one that is kept ([vc_keep]) drops what does not fit the buffer.  A
    further packet is always handled, and even if it kills the connection the host
    stream has received a prefix of what was taken and of the packet. *)
Theorem in_order_delivery c data c' p now :
  conn_ok c -> pkt_ok p -> conn_run c data c' ->
  exists kept, kept `sublist_of` data /\ (vc_keep c = false -> kept = data) /\
    taken_bytes c' = taken_bytes c ++ kept /\
    vc_fwd_cnt c' = wrapping_add u32_max (vc_fwd_cnt c)
      (Z.of_nat (length (stream_sent (vc_stream c')) - length (stream_sent (vc_stream c)))) /\
    exists c'', conn_send_pkt c' p now = Ret c'' /\
      stream_sent (vc_stream c'') `prefix_of` taken_bytes c ++ kept ++ accepted c' p.
Proof.
  intros Hok Hp Hrun.
  assert (conn_ok c' /\ vc_keep c' = vc_keep c /\
    exists kept, kept `sublist_of` data /\ (vc_keep c = false -> kept = data) /\ moves c kept c')
    as (Hok'&Hk'&kept&Hsub&Hall&(HT&_&HF)).
  { induction Hrun as [|data c1 data1 c2 _ IH Hstep Hnk].
    - split_and!; auto. exists []. split_and!; auto. apply moves_refl; auto. apply Hok.
    - destruct IH as (Hok1&Hk1&kept&Hsub&Hall&Hm1).
      destruct (conn_step_ok c1 data1 c2 Hok1 Hstep) as (?&?&Hm). split_and!; auto; [congruence|].
      destruct Hm as [Hm|[[?|?] [n Hm]]]; [|done|].
      + exists (kept ++ data1). split_and!; [by apply sublist_app|intros ->%Hall; done|by eapply moves_trans].
      + exists (kept ++ take n data1). split_and!; [|congruence|by eapply moves_trans].
        apply sublist_app; [done|apply sublist_take]. }
  exists kept. split_and!; auto. destruct (conn_send_ok c' p now Hok' Hp) as (c''&E&_&_&Hm).
  exists c''. split; [done|]. rewrite app_assoc, <- HT.
  assert (exists n, moves c' (take n (accepted c' p)) c'') as (n&HT''&_&_).
  { destruct Hm as [Hm|[_ Hm]]; [|done]. exists (length (accepted c' p)). by rewrite firstn_all. }
  unfold taken_bytes in HT'' at 1.
  transitivity (taken_bytes c' ++ take n (accepted c' p)); [|by apply prefix_app, prefix_take].
  rewrite <- HT''. by apply prefix_app_r.
Qed.

(** ** Flow control *)

Lemma remove_rx_fields c it : exists d, (remove_rx c it).2 = set_pending c d.
Proof. unfold remove_rx. by eexists. Qed.

Lemma op_set_flag p f : op (set_flag p f) = op p.
Proof. destruct p as [[] ?]. done. Qed.

Lemma op_set_op p o : op (set_op p o) = o.
Proof. destruct p as [[] ?]. done. Qed.

Lemma op_set_len p n : op (set_len p n) = op p.
Proof. destruct p as [[] ?]. done. Qed.

Lemma len_set_len p n : pkt_len (set_len p n) = n.
Proof. destruct p as [[] ?]. done. Qed.

Lemma recv_rw_credit c p now buf :
  let c' := (recv_rw c p now).1.2 in let p' := (recv_rw c p now).2 in
  conn_ok c -> pkt_buf p = Some buf -> Z.of_nat (length buf) <= u32_max -> op p <> VSOCK_OP_RW ->
  op p' = VSOCK_OP_RW ->
  0 < pkt_len p' <= peer_avail_credit c /\ pkt_len p' <= Z.of_nat (length buf) /\
  peer_avail_credit c' = peer_avail_credit c - pkt_len p'.
Proof.
  cbn zeta. intros Hok Hb Hlen Hop Ho. unfold recv_rw in *. rewrite Hb in *.
  assert (Hcr : 0 <= peer_avail_credit c) by (apply Z.mod_pos_bound; ulia).
  destruct (vc_state c) as [| | | |[] so| ];
    cbn [fst snd] in *; try (rewrite op_set_op in Ho; discriminate Ho).
  all: destruct (need_credit_update_from_peer c); cbn [fst snd] in *;
    [rewrite op_set_op in Ho; discriminate Ho|].
  all: destruct (stream_read (vc_stream c) _) as [rr w] eqn:Er;
    destruct (read_ok _ _ _ _ Er) as [_ Hr];
    destruct rr as [[|x l]|[]]; cbn [fst snd] in *;
    rewrite ?op_set_flag, ?op_set_op in Ho; try discriminate Ho; try done.
  all: assert (Hpos : (0 < length (x :: l))%nat) by (cbn; lia);
    remember (x :: l) as bytes eqn:Ebytes; clear Ebytes.
  all: assert (Hu : as_u32 (Z.of_nat (length bytes)) = Z.of_nat (length bytes))
    by (apply Z.mod_small; ulia).
  all: rewrite len_set_len, Hu; split; [lia|]; split; [lia|].
  all: unfold peer_avail_credit, wrapping_sub, wrapping_add, note_fwd_cnt, set_rx_cnt, set_tx in *;
    cbn [vc_peer_buf_alloc vc_rx_cnt vc_peer_fwd_cnt] in *.
  all: rewrite Zminus_mod_idemp_l; rewrite !Zminus_mod_idemp_r in *.
  all: match goal with |- context [?a mod ?m = ?b mod _ - ?n] =>
    replace (a mod m) with ((b mod m - n) mod m)
      by (rewrite Zminus_mod_idemp_l; f_equal; lia); apply Z.mod_small end.
  all: pose proof (Z.mod_pos_bound (vc_peer_buf_alloc c - (vc_rx_cnt c - vc_peer_fwd_cnt c))
         (u32_max + 1)); ulia.
Qed.
(** The header fields that [init_pkt] fills in. *)
Definition addressed c (p : VsockPacket) : Prop :=
  src_cid p = vc_local_cid c /\ dst_cid p = vc_peer_cid c /\ src_port p = vc_local_port c /\
  dst_port p = vc_peer_port c /\ type_ p = VSOCK_TYPE_STREAM /\
  buf_alloc p = CONN_TX_BUF_SIZE /\ fwd_cnt p = vc_fwd_cnt c.

Lemma init_pkt_spec c p :
  addressed c (init_pkt c p) /\ op (init_pkt c p) = 0 /\ pkt_buf (init_pkt c p) = pkt_buf p.
Proof. done. Qed.

Lemma addressed_op c p o : addressed c p -> addressed c (set_op p o).
Proof. by destruct p as [[] ?]. Qed.

Lemma addressed_len c p n : addressed c p -> addressed c (set_len p n).
Proof. by destruct p as [[] ?]. Qed.

Lemma addressed_flag c p f : addressed c p -> addressed c (set_flag p f).
Proof. by destruct p as [[] ?]. Qed.

Lemma recv_rw_addressed c0 c p now : addressed c0 p -> addressed c0 (recv_rw c p now).2.
Proof.
  intros Ha. unfold recv_rw.
  repeat case_match; cbn [snd]; auto using addressed_op, addressed_len, addressed_flag;
    try (simplify_eq; auto using addressed_op, addressed_len, addressed_flag).
  all: by apply addressed_len, addressed_op.
Qed.

(** The last stage never turns a packet into a data packet. *)
Lemma recv_credit_spec c0 c p :
  addressed c0 p -> op p <> VSOCK_OP_RW ->
  addressed c0 (recv_credit_update c p).2 /\ op (recv_credit_update c p).2 <> VSOCK_OP_RW.
Proof.
  intros Ha Ho. unfold recv_credit_update. destruct (remove_rx c CreditUpdate) as [had c1].
  destruct (had && _); cbn [snd]; [|done]. rewrite op_set_op. auto using addressed_op.
Qed.

Lemma recv_rw_none c p now : (recv_rw c p now).1.1 = None -> (recv_rw c p now).2 = p.
Proof. unfold recv_rw. by repeat case_match. Qed.

Lemma remove_rx_credit c it : peer_avail_credit (remove_rx c it).2 = peer_avail_credit c.
Proof. done. Qed.

(** Flow control: every packet that [recv_pkt] yields is addressed to the peer and
    carries the true free-buffer information of the connection; a data packet is not
    empty, fits the RX buffer and the credit of the peer, and uses up exactly its length
    of that credit, so the peer's buffer cannot be overrun. *)
Theorem recv_within_credit c p now buf :
  let r := (conn_recv_pkt c p now).1.1 in let c' := (conn_recv_pkt c p now).1.2 in
  let p' := (conn_recv_pkt c p now).2 in
  conn_ok c -> pkt_buf p = Some buf -> Z.of_nat (length buf) <= u32_max ->
  addressed c p' /\
  (op p' = VSOCK_OP_RW ->
     0 < pkt_len p' <= peer_avail_credit c /\ pkt_len p' <= Z.of_nat (length buf) /\
     peer_avail_credit c' = peer_avail_credit c - pkt_len p').
Proof.
  cbn zeta. intros Hok Hb Hlen. unfold conn_recv_pkt.
  destruct (init_pkt_spec c p) as (Ha&Ho&Hb0). rewrite Hb in Hb0. generalize dependent (init_pkt c p).
  intros p0 Ha Ho Hb0.
  pose proof (remove_rx_ok c Rst Hok) as H1. pose proof (remove_rx_credit c Rst) as C1.
  destruct (remove_rx c Rst) as [[] c1]; cbn [fst snd] in *;
    [split; [by apply addressed_op|by rewrite op_set_op]|].
  pose proof (remove_rx_ok c1 Response H1) as H2. pose proof (remove_rx_credit c1 Response) as C2.
  destruct (remove_rx c1 Response) as [[] c2]; cbn [fst snd] in *;
    [split; [by apply addressed_op|by rewrite op_set_op]|].
  pose proof (remove_rx_ok c2 Request H2) as H3. pose proof (remove_rx_credit c2 Request) as C3.
  destruct (remove_rx c2 Request) as [[] c3]; cbn [fst snd] in *;
    [split; [by apply addressed_op|by rewrite op_set_op]|].
  pose proof (remove_rx_ok c3 Rw H3) as H4. pose proof (remove_rx_credit c3 Rw) as C4.
  destruct (remove_rx c3 Rw) as [[] c4]; cbn [fst snd] in *.
  - pose proof (recv_rw_addressed c c4 p0 now Ha) as Ha5.
    pose proof (recv_rw_credit c4 p0 now buf H4 Hb0 Hlen ltac:(by rewrite Ho)) as Hcr.
    pose proof (recv_rw_none c4 p0 now) as Hnone. cbn zeta in Hcr.
    rewrite C4, C3, C2, C1 in Hcr.
    destruct (recv_rw c4 p0 now) as [[[r|] c5] p5]; cbn [fst snd] in *; [done|].
    destruct (recv_credit_spec c c5 p5 Ha5) as [? ?]; [by rewrite Hnone, Ho|]. by split.
  - destruct (recv_credit_spec c c4 p0 Ha) as [? ?]; [by rewrite Ho|]. by split.
Qed.

(** ** Shutdown *)

Lemma recv_rw_state c p now :
  vc_pending_rx (recv_rw c p now).1.2 = vc_pending_rx c /\
  (vc_state (recv_rw c p now).1.2 = vc_state c \/ vc_state (recv_rw c p now).1.2 = LocalClosed).
Proof. unfold recv_rw. repeat case_match; cbn; simplify_eq; auto. Qed.

Definition no_response c : Prop := rx_ok (vc_pending_rx c) /\ rx_contains (vc_pending_rx c) Response = false.

Lemma no_response_insert c it : it <> Response -> no_response c -> no_response (insert_rx c it).
Proof.
  intros Hit [Hok Hr]. split; [by apply rx_insert_ok|]. cbn. rewrite rx_contains_insert by done.
  by rewrite Hr, bool_decide_false.
Qed.

Lemma no_response_remove c it : no_response c -> no_response (remove_rx c it).2.
Proof.
  intros [Hok Hr]. split; [by apply rx_remove_ok|]. unfold remove_rx.
  change (rx_contains (rx_remove (vc_pending_rx c) it).2 Response = false).
  by rewrite rx_contains_remove, Hr, andb_false_r.
Qed.

Lemma no_response_pending c c' : vc_pending_rx c' = vc_pending_rx c -> no_response c -> no_response c'.
Proof. unfold no_response. by intros ->. Qed.

Lemma closing_recv c p now r s :
  no_response c -> closing r s (vc_state c) ->
  no_response (conn_recv_pkt c p now).1.2 /\ closing r s (vc_state (conn_recv_pkt c p now).1.2).
Proof.
  intros Hn Hc. unfold conn_recv_pkt. generalize (init_pkt c p). intros p0.
  assert (Hrm : forall c it, no_response c -> closing r s (vc_state c) ->
    no_response (remove_rx c it).2 /\ closing r s (vc_state (remove_rx c it).2))
    by (intros; split; [by apply no_response_remove|done]).
  assert (Hcred : forall c p, no_response c -> closing r s (vc_state c) ->
    no_response (recv_credit_update c p).1.2 /\ closing r s (vc_state (recv_credit_update c p).1.2)).
  { intros c5 p5 Hn5 Hc5. unfold recv_credit_update. destruct (Hrm c5 CreditUpdate Hn5 Hc5).
    destruct (remove_rx c5 CreditUpdate) as [had c6]. by destruct (had && _). }
  destruct (Hrm c Rst Hn Hc) as [N1 S1].
  destruct (remove_rx c Rst) as [[] c1]; cbn [fst snd] in *; [done|].
  destruct (Hrm c1 Response N1 S1) as [N2 S2].
  assert ((remove_rx c1 Response).1 = false) as E2 by apply N1.
  destruct (remove_rx c1 Response) as [[] c2]; cbn [fst snd] in *; [done|].
  destruct (Hrm c2 Request N2 S2) as [N3 S3].
  destruct (remove_rx c2 Request) as [[] c3]; cbn [fst snd] in *; [done|].
  destruct (Hrm c3 Rw N3 S3) as [N4 S4].
  destruct (remove_rx c3 Rw) as [[] c4]; cbn [fst snd] in *; [|by apply Hcred].
  destruct (recv_rw_state c4 p0 now) as [P5 S5].
  destruct (recv_rw c4 p0 now) as [[[rr|] c5] p5]; cbn [fst snd] in *.
  - split; [by apply (no_response_pending c4)|]. by destruct S5 as [-> | ->].
  - apply Hcred; [by apply (no_response_pending c4)|]. by destruct S5 as [-> | ->].
Qed.

Lemma closing_notify c ev c' r s :
  conn_ok c -> no_response c -> closing r s (vc_state c) -> conn_notify c ev = Ret c' ->
  no_response c' /\ closing r s (vc_state c').
Proof.
  intros Hok Hn Hc E. unfold conn_notify in E.
  set (c1 := if EPOLLIN ev || EPOLLHUP ev then insert_rx c Rw else c) in *.
  assert (Hok1 : conn_ok c1) by (unfold c1; destruct (_ || _); auto using insert_rx_ok).
  assert (N1 : no_response c1) by (unfold c1; destruct (_ || _); [by apply no_response_insert|done]).
  assert (S1 : closing r s (vc_state c1)) by (unfold c1; by destruct (_ || _)).
  assert (Hkill : forall c, no_response c -> no_response (kill c) /\ closing r s (vc_state (kill c))).
  { intros c0 H0'. split; [|done]. by apply no_response_insert. }
  destruct (EPOLLOUT ev && _); [by injection E as <-|].
  apply outcome_bind_Ret in E as (c2&E2&E). injection E as <-.
  assert (no_response c2 /\ closing r s (vc_state c2)) as [N2 S2].
  { destruct (EPOLLOUT ev); [|by injection E2 as <-]. unfold notify_out in E2.
    apply outcome_bind_Ret in E2 as ([[rr b] w]&_&E2). cbn zeta in E2.
    match type of E2 with match ?m with pair n c => _ end = _ => set (nc := m) in E2 end.
    assert (no_response nc.2 /\ closing r s (vc_state nc.2)) as [N3 S3].
    { subst nc. destruct rr as [n|[|[]|]]; try destruct (negb _); cbn [snd];
        try (by apply Hkill); by split. }
    destruct nc as [n c3]. cbn [fst snd] in *. injection E2 as <-.
    destruct (_ && _); [split; [by apply no_response_insert|done]|].
    destruct (peer_needs_credit_update _); [split; [by apply no_response_insert|done]|by split]. }
  destruct (_ && _ && _); [by apply Hkill|done].
Qed.
Lemma closing_send c p now c' r s :
  conn_ok c -> pkt_ok p -> no_response c -> closing r s (vc_state c) ->
  conn_send_pkt c p now = Ret c' -> no_response c' /\ closing r s (vc_state c').
Proof.
  intros Hok Hp Hn Hc E. unfold conn_send_pkt in E.
  set (c1 := set_peer_credit c (buf_alloc p) (fwd_cnt p)) in *.
  assert (Hok1 : conn_ok c1) by (by apply set_peer_ok).
  assert (N1 : no_response c1) by (by apply (no_response_pending c)).
  assert (S1 : closing r s (vc_state c1)) by done. clearbody c1. clear c Hok Hn Hc.
  assert (Hkill : forall c, no_response c -> no_response (kill c) /\ closing r s (vc_state (kill c))).
  { intros c0 H0'. split; [|done]. by apply no_response_insert. }
  assert (Hins : forall c it, it <> Response -> no_response c -> closing r s (vc_state c) ->
    no_response (insert_rx c it) /\ closing r s (vc_state (insert_rx c it))).
  { intros. split; [by apply no_response_insert|done]. }
  pose proof S1 as S1'. destruct (vc_state c1) as [| | | |ro so| ] eqn:Es; try done; cbn [andb] in E.
  - injection E as <-. by rewrite Es.
  - destruct (negb so) eqn:Eso.
    + destruct so; [done|]. cbn [andb] in E. destruct (op p =? VSOCK_OP_RW).
      * unfold send_rw in E. destruct (pkt_buf p) as [buf|]; [|injection E as <-; by rewrite Es].
        destruct (_ <? _); [done|].
        destruct (send_bytes_moves c1 (take (Z.to_nat (pkt_len p)) buf) Hok1)
          as (rr&c2&E2&Hok2&Hst&_&Hpd&_). rewrite E2 in E.
        assert (N2 : no_response c2) by (by apply (no_response_pending c1)).
        assert (S2 : closing r s (vc_state c2)) by (by rewrite Hst, Es).
        destruct rr as [u|[|e|e]]; injection E as <-; auto.
        -- destruct (peer_needs_credit_update c2); auto.
        -- destruct (negb (vc_keep c2)); auto.
      * destruct (op p =? VSOCK_OP_SHUTDOWN); [|destruct (op p =? VSOCK_OP_CREDIT_REQUEST)];
          injection E as <-; [|apply Hins; [done|done|by rewrite Es]|by rewrite Es].
        destruct (_ && _ && _); [apply Hins; auto|split; [done|]]; cbn in *; destruct ro, r; intuition (auto; congruence).
    + destruct so; [|done]. cbn [andb] in E.
      destruct (op p =? VSOCK_OP_SHUTDOWN);
          injection E as <-; [|by rewrite Es].
      destruct (_ && _ && _); [apply Hins; auto|split; [done|]]; cbn in *; destruct ro, r; intuition (auto; congruence).
  - injection E as <-. by rewrite Es.
Qed.

(** Shutdown indications are never taken back: once the peer has closed a direction,
    no sequence of packets and events reopens it; the connection stays closed in at least
    those directions, or goes on to be closed locally or killed. *)
Theorem shutdown_monotone c r s c' :
  conn_ok c -> vc_state c = PeerClosed r s -> rx_contains (vc_pending_rx c) Response = false ->
  rtc (fun c1 c2 => exists data, conn_step c1 data c2) c c' ->
  match vc_state c' with
  | PeerClosed r' s' => (r = true -> r' = true) /\ (s = true -> s' = true)
  | LocalClosed | Killed => True
  | _ => False
  end.
Proof.
  intros Hok Hs Hr Hrun. change (closing r s (vc_state c')).
  assert (Hn : no_response c) by (split; [apply Hok|done]).
  assert (Hc : closing r s (vc_state c)) by (rewrite Hs; by split).
  clear Hs Hr. induction Hrun as [c|c1 c2 c3 [data Hstep] _ IH]; [done|].
  destruct (conn_step_ok c1 data c2 Hok Hstep) as (Hok2&_&_).
  assert (no_response c2 /\ closing r s (vc_state c2)) as [? ?]; [|by apply IH].
  destruct Hstep as [p now c2 Hp E|p now rr c2 p' E|ev c2 E].
  - by apply (closing_send c1 p now).
  - pose proof (closing_recv c1 p now r s Hn Hc) as Hx. by rewrite E in Hx.
  - by apply (closing_notify c1 ev).
Qed.
End props.

(** ** The properties at work *)

Definition demo_conn : VsockConnection DemoStream :=
  mkConn Established 2 3 1024 2048 ([], [[1; 2; 3; 4; 5; 6]]) false TxBuf_default 0 4 0 0 0
    (rx_from Rw) None.

Lemma demo_conn_ok : conn_ok demo_conn.
Proof. split; try (cbn; ulia); [apply tx_default_ok|change (rx_ok 8); unfold rx_ok; lia]. Qed.

Lemma tx_queue_refinement_witness :
  exists b', tx_push TxBuf_default [1; 2; 3] = Ok b' /\ tx_contents b' = [1; 2; 3].
Proof.
  destruct (tx_queue_refinement TxBuf_default (([], []) : DemoStream) tx_default_ok) as (_&H&_).
  destruct (H [1; 2; 3]) as (b'&E&_&Hc). exists b'. split; [exact E|exact Hc].
Defined.

Lemma in_order_delivery_witness :
  exists c', conn_send_pkt demo_conn (demo_data [9; 8]) 0 = Ret c' /\
    taken_bytes c' = [9; 8] /\
    exists c'', conn_send_pkt c' (demo_data [7; 6; 5; 4; 3; 2]) 0 = Ret c'' /\
      stream_sent (vc_stream c'') `prefix_of` [9; 8; 7; 6; 5; 4; 3; 2].
Proof.
  destruct (conn_send_pkt demo_conn (demo_data [9; 8]) 0) as [c'|] eqn:E;
    [|vm_compute in E; discriminate E].
  exists c'. split; [reflexivity|].
  destruct (in_order_delivery demo_conn [9; 8] c' (demo_data [7; 6; 5; 4; 3; 2]) 0)
    as (kept&_&Hall&Ht&_&c''&E''&Hp); [exact demo_conn_ok|apply demo_data_ok| |].
  - apply (run_step demo_conn [] demo_conn [9; 8] c'); [constructor| |].
    + exact (step_send demo_conn (demo_data [9; 8]) 0 c' (demo_data_ok _) E).
    + vm_compute in E. injection E as <-. discriminate.
  - rewrite (Hall eq_refl) in Ht, Hp. split; [exact Ht|]. exists c''. split; [exact E''|].
    replace (accepted c' (demo_data [7; 6; 5; 4; 3; 2])) with [7; 6; 5; 4; 3; 2] in Hp; [exact Hp|].
    vm_compute in E. injection E as <-. reflexivity.
Defined.

Lemma recv_within_credit_witness :
  op (conn_recv_pkt demo_conn (mkPkt (mkHdr 0 0 0 0 0 0 0 0 0 0) (Some [0; 0; 0; 0; 0; 0])) 0).2
    = VSOCK_OP_RW /\
  pkt_len (conn_recv_pkt demo_conn (mkPkt (mkHdr 0 0 0 0 0 0 0 0 0 0) (Some [0; 0; 0; 0; 0; 0])) 0).2 <= 4.
Proof.
  destruct (recv_within_credit demo_conn
    (mkPkt (mkHdr 0 0 0 0 0 0 0 0 0 0) (Some [0; 0; 0; 0; 0; 0])) 0 [0; 0; 0; 0; 0; 0])
    as [_ H]; [exact demo_conn_ok|reflexivity|cbn; ulia|].
  split; [vm_compute; reflexivity|]. apply H. vm_compute. reflexivity.
Defined.

Lemma shutdown_monotone_witness :
  exists c', conn_send_pkt (set_state demo_conn (PeerClosed true false)) (demo_data [9; 8]) 0 = Ret c' /\
    match vc_state c' with
    | PeerClosed r' _ => r' = true
    | LocalClosed | Killed => True
    | _ => False
    end.
Proof.
  destruct (conn_send_pkt (set_state demo_conn (PeerClosed true false)) (demo_data [9; 8]) 0)
    as [c'|] eqn:E; [|vm_compute in E; discriminate E].
  exists c'. split; [reflexivity|].
  pose proof (shutdown_monotone (set_state demo_conn (PeerClosed true false)) true false c') as H.
  destruct (vc_state c'); try (apply H); try reflexivity; try exact I;
    try (apply set_state_ok, demo_conn_ok); apply rtc_once; eexists;
    exact (step_send _ (demo_data [9; 8]) 0 c' (demo_data_ok _) E).
Defined.
