(* ===== verification/VsockMuxerFacts.v ===== *)
(** * Facts about the vsock muxer

    The invariant of the muxer ([mx_ok]) and what its building blocks do to it:
    the queues, the closures applied to a connection, kills and listeners. *)
From S2P Require Import Prelude VsockTxBuf VsockConn VsockConnFacts VsockPort VsockMuxer.

(** ** The RX queue *)

Lemma replace_first_conn_length rx l l' : replace_first_conn rx l = Some l' -> length l' = length l.
Proof.
  revert l'. induction l as [|x l IH]; intros l'; cbn; [done|].
  destruct (is_conn_rx x); [by intros [= <-]|].
  destruct (replace_first_conn rx l); cbn; [|done]. intros [= <-]. cbn. by rewrite (IH l0).
Qed.

Definition rxq_ok (q : MuxerRxQ) : Prop := (length (rxq_q q) <= MUXER_RXQ_SIZE)%nat.

Lemma rxq_push_ok q rx : rxq_ok q -> rxq_ok (rxq_push q rx).2.
Proof.
  unfold rxq_ok, rxq_push, rxq_is_full. intros Hq.
  destruct (rxq_synced q); cbn [andb].
  2: { destruct rx; [done|]. destruct (replace_first_conn _ _) eqn:E; cbn; [|done].
       apply replace_first_conn_length in E. rewrite length_reverse in *. lia. }
  destruct (Nat.eqb_spec (length (rxq_q q)) MUXER_RXQ_SIZE); cbn.
  2: { rewrite length_app. cbn. lia. }
  destruct rx; [done|]. destruct (replace_first_conn _ _) eqn:E; cbn; [|done].
  apply replace_first_conn_length in E. rewrite length_reverse in *. lia.
Qed.

(** A queue that is synchronised after a push was so before, and has not lost an
    item; a pushed connection is in it. *)
Lemma rxq_push_synced q rx :
  rxq_synced (rxq_push q rx).2 = true ->
  rxq_synced q = true /\
  (rxq_q (rxq_push q rx).2 = rxq_q q ++ [rx] \/ is_conn_rx rx = false /\ rxq_push q rx = (false, q)).
Proof.
  unfold rxq_push. destruct (rxq_synced q) eqn:Es; cbn [andb].
  2: { destruct rx; cbn; [done|]. destruct (replace_first_conn _ _); cbn; [done|congruence]. }
  destruct (rxq_is_full q); cbn [negb]; [|by auto].
  destruct rx; cbn; [done|]. destruct (replace_first_conn _ _); cbn; [done|auto].
Qed.

Lemma rxq_push_length q rx :
  (length (rxq_q q) <= length (rxq_q (rxq_push q rx).2) <= S (length (rxq_q q)))%nat.
Proof.
  unfold rxq_push. destruct (_ && _); cbn [snd rxq_q]; [rewrite length_app; cbn; lia|].
  destruct rx; cbn [snd rxq_q]; [lia|]. destruct (replace_first_conn _ _) eqn:E; cbn [snd rxq_q]; [|lia].
  apply replace_first_conn_length in E. rewrite length_reverse in *. lia.
Qed.

Section sync.
Context {W : Type} `{VsockStreamLaws W}.
Implicit Types (c : VsockConnection W) (cm : gmap ConnMapKey (VsockConnection W)) (q : MuxerRxQ).

(** Every connection that has something to say is in a synchronised queue. *)
Definition sync cm q : Prop :=
  rxq_synced q = true ->
  forall key c, cm !! key = Some c -> conn_has_pending_rx c = true -> ConnRx key ∈ rxq_q q.

Lemma sync_push cm q rx : sync cm q -> sync cm (rxq_push q rx).2.
Proof.
  intros Hs Hsync key c Hk Hp. destruct (rxq_push_synced q rx Hsync) as [Hq [->|[_ ->]]].
  - apply elem_of_app. left. by eapply Hs.
  - by eapply Hs.
Qed.

Lemma sync_insert cm q key c :
  sync cm q -> (conn_has_pending_rx c = true -> rxq_synced q = true -> ConnRx key ∈ rxq_q q) ->
  sync (<[key := c]> cm) q.
Proof.
  intros Hs Hc Hsync key' c' Hk Hp. apply lookup_insert_Some in Hk as [[<- <-]|[? ?]]; [by auto|].
  by eapply Hs.
Qed.

Lemma sync_pushed cm q key c : sync cm q -> sync (<[key := c]> cm) (rxq_push q (ConnRx key)).2.
Proof.
  intros Hs. apply sync_insert; [by apply sync_push|]. intros _ Hsync.
  destruct (rxq_push_synced q _ Hsync) as [_ [->|[? _]]]; [|done]. apply elem_of_app. right. by left.
Qed.

Lemma sync_delete cm q key : sync cm q -> sync (delete key cm) q.
Proof. intros Hs Hsync key' c' Hk. apply lookup_delete_Some in Hk as [_ Hk]. by eapply Hs. Qed.

(** A connection that replaces one and has nothing new to say. *)
Lemma sync_update cm q key c c' :
  sync cm q -> cm !! key = Some c ->
  (conn_has_pending_rx c' = true -> conn_has_pending_rx c = true) -> sync (<[key := c']> cm) q.
Proof. intros Hs Hk Hp. apply sync_insert; [done|]. intros Hc' Hsync. by eapply Hs; eauto. Qed.

(** The front item is popped once its connection has nothing more to say, or is
    queued again. *)
Lemma sync_pop cm q key :
  sync cm q -> rxq_peek q = Some (ConnRx key) ->
  (forall c, cm !! key = Some c -> conn_has_pending_rx c = true -> rxq_synced q = true ->
     ConnRx key ∈ tail (rxq_q q)) ->
  sync cm (rxq_pop q).2.
Proof.
  unfold rxq_peek. intros Hs Hhead Hkey Hsync key' c' Hk Hp. cbn in *.
  destruct (decide (key' = key)) as [->|Hne]; [by eapply Hkey|].
  pose proof (Hs Hsync key' c' Hk Hp) as Hin. destruct (rxq_q q) as [|x l]; [done|].
  injection Hhead as ->. apply elem_of_cons in Hin as [[= ->]|]; [done|]. done.
Qed.

Lemma sync_pop_rst cm q lp pp :
  sync cm q -> rxq_peek q = Some (RstPkt lp pp) -> sync cm (rxq_pop q).2.
Proof.
  unfold rxq_peek. intros Hs Hhead Hsync key c Hk Hp. pose proof (Hs Hsync key c Hk Hp) as Hin.
  cbn in *. destruct (rxq_q q) as [|x l]; [done|]. injection Hhead as ->.
  by apply elem_of_cons in Hin as [|].
Qed.

(** ** Connections under the muxer *)

(** A connection that the host initiated owes no response. *)
Definition conn_wf c : Prop :=
  conn_ok c /\ (vc_state c = LocalInit -> rx_contains (vc_pending_rx c) Response = false).

(** What no handler does: change the ports, go back to [LocalInit], or come to
    owe a response. *)
Definition evolves c c' : Prop :=
  vc_local_port c' = vc_local_port c /\ vc_peer_port c' = vc_peer_port c /\
  (vc_state c' = LocalInit -> vc_state c = LocalInit) /\
  (rx_contains (vc_pending_rx c) Response = false -> rx_contains (vc_pending_rx c') Response = false).

#[global] Instance evolves_preorder : PreOrder evolves.
Proof.
  split; [by intros c|]. intros c1 c2 c3 (?&?&?&?) (?&?&?&?). unfold evolves.
  split_and!; [congruence|congruence|auto|auto].
Qed.

Lemma evolves_wf c c' : conn_wf c -> conn_ok c' -> evolves c c' -> conn_wf c'.
Proof. intros [? ?] ? (?&?&?&?). split; auto. Qed.

Lemma evolves_insert c it : conn_ok c -> it <> Response -> evolves c (insert_rx c it).
Proof.
  intros [] Hit. unfold evolves, insert_rx. cbn. split_and!; auto.
  rewrite rx_contains_insert by done. by rewrite bool_decide_eq_false_2.
Qed.

Lemma evolves_remove c it : conn_ok c -> evolves c (remove_rx c it).2.
Proof.
  intros []. unfold evolves, remove_rx. destruct (rx_remove _ _) as [had d] eqn:E. cbn.
  split_and!; auto. replace d with (rx_remove (vc_pending_rx c) it).2 by (by rewrite E).
  rewrite rx_contains_remove by done. intros ->. by rewrite andb_false_r.
Qed.

Lemma evolves_state c s : s <> LocalInit -> evolves c (set_state c s).
Proof. by intros. Qed.

Lemma evolves_kill c : conn_ok c -> evolves c (kill c).
Proof.
  intros. unfold kill. etrans; [by apply (evolves_state c Killed)|].
  apply evolves_insert; [by apply set_state_ok|done].
Qed.

(** The part of a connection that [evolves] looks at is unchanged. *)
Lemma evolves_same c c' :
  vc_local_port c' = vc_local_port c -> vc_peer_port c' = vc_peer_port c ->
  vc_state c' = vc_state c -> vc_pending_rx c' = vc_pending_rx c -> evolves c c'.
Proof. unfold evolves. intros -> -> -> ->. done. Qed.

Lemma send_bytes_evolves c data : evolves c (send_bytes c data).2.
Proof.
  unfold send_bytes, push_tx.
  repeat (case_match; try by apply evolves_same).
Qed.

Lemma conn_send_evolves c p now c' :
  conn_ok c -> pkt_ok p -> conn_send_pkt c p now = Ret c' -> evolves c c'.
Proof.
  intros Hok Hp. unfold conn_send_pkt.
  set (c1 := set_peer_credit c (buf_alloc p) (fwd_cnt p)).
  assert (Hok1 : conn_ok c1) by (by apply set_peer_ok).
  assert (H1 : evolves c c1) by (by apply evolves_same).
  assert (Hs : forall s, s <> LocalInit -> evolves c (set_state c1 s)).
  { intros. etrans; [exact H1|]. by apply evolves_state. }
  assert (Hi : forall c2 it, evolves c c2 -> conn_ok c2 -> it <> Response -> evolves c (insert_rx c2 it)).
  { intros. etrans; [done|]. by apply evolves_insert. }
  destruct (_ && (op p =? VSOCK_OP_RW)).
  - unfold send_rw. destruct (pkt_buf p); [|by intros [= <-]]. destruct (_ <? _); [done|].
    pose proof (send_bytes_moves c1 (take (Z.to_nat (pkt_len p)) l) Hok1) as (r&c2&E&Hok2&_).
    pose proof (send_bytes_evolves c1 (take (Z.to_nat (pkt_len p)) l)) as He. rewrite E in *. cbn in He.
    assert (H2 : evolves c c2) by (by etrans).
    assert (Hk : evolves c (kill c2)) by (etrans; [exact H2|]; by apply evolves_kill).
    destruct r as [|[]]; intros [= <-]; try done; case_match; auto.
  - repeat case_match; intros [= <-]; auto using set_state_ok.
    all: first [by unfold evolves | apply Hi; [by unfold evolves|by apply set_state_ok|done]].
Qed.

Lemma recv_rw_evolves c p now : evolves c (recv_rw c p now).1.2.
Proof.
  unfold recv_rw. destruct (vc_state c) as [| | | |[] snd|] eqn:Es; try by apply evolves_same.
  all: destruct (need_credit_update_from_peer c); [by apply evolves_same|].
  all: destruct (pkt_buf p) as [buf|]; [|by apply evolves_same].
  all: destruct (stream_read (vc_stream c) _) as [r w].
  all: destruct r as [[|x l]|[]]; first [by apply evolves_same | by unfold evolves].
Qed.

Lemma recv_credit_evolves c p : conn_ok c -> evolves c (recv_credit_update c p).1.2.
Proof.
  intros Hok. unfold recv_credit_update. pose proof (evolves_remove c CreditUpdate Hok) as Hq.
  destruct (remove_rx c CreditUpdate) as [had c1]. cbn in Hq.
  destruct (had && _); cbn; [|done]. etrans; [exact Hq|]. by apply evolves_same.
Qed.

(** [recv_pkt] by cases on the first pending indication: each step removes one. *)
Lemma conn_recv_evolves c p now : conn_ok c -> evolves c (conn_recv_pkt c p now).1.2.
Proof.
  intros Hok. unfold conn_recv_pkt. generalize (init_pkt c p). intros p0.
  pose proof (evolves_remove c Rst Hok) as H1. pose proof (remove_rx_ok c Rst Hok) as K1.
  destruct (remove_rx c Rst) as [[] c1]; cbn in H1, K1; [done|].
  pose proof (evolves_remove c1 Response K1) as H2. pose proof (remove_rx_ok c1 Response K1) as K2.
  destruct (remove_rx c1 Response) as [[] c2]; cbn in H2, K2; rewrite H2 in H1; [by rewrite H1|].
  pose proof (evolves_remove c2 Request K2) as H3. pose proof (remove_rx_ok c2 Request K2) as K3.
  destruct (remove_rx c2 Request) as [[] c3]; cbn in H3, K3; rewrite H3 in H1; [by rewrite H1|].
  pose proof (evolves_remove c3 Rw K3) as H4. pose proof (remove_rx_ok c3 Rw K3) as K4.
  destruct (remove_rx c3 Rw) as [[] c4]; cbn in H4, K4; rewrite H4 in H1.
  - pose proof (recv_rw_evolves c4 p0 now) as H5. pose proof (recv_rw_ok c4 p0 now K4) as (K5&_).
    destruct (recv_rw c4 p0 now) as [[[r|] c5] p5]; cbn in H5, K5; rewrite H5 in H1; [done|].
    rewrite H1. by apply recv_credit_evolves.
  - rewrite H1. by apply recv_credit_evolves.
Qed.

Lemma notify_out_evolves c c' : conn_ok c -> notify_out c = Ret c' -> evolves c c'.
Proof.
  intros Hok. unfold notify_out. intros ([[r b] w]&Ef&E)%outcome_bind_Ret. revert E.
  set (c1 := set_tx c w b (vc_fwd_cnt c)).
  set (nc := match r with Ok n => (n, c1) | Err (TxBufFlush WouldBlock) => (O, c1)
     | Err (TxBufFlush BrokenPipe) => (O, if negb (vc_keep c1) then kill c1 else c1)
     | Err _ => (O, kill c1) end).
  assert (Hk : evolves c (kill c1)).
  { pose proof (evolves_kill c Hok) as (?&?&?&?). by unfold evolves. }
  assert (Hnc : evolves c nc.2 /\ rx_ok (vc_pending_rx nc.2)).
  { pose proof (co_pending c Hok). subst nc. destruct r as [n|[|[]|]]; cbn; repeat case_match; cbn;
      (split; [first [exact Hk | by apply evolves_same]|auto using rx_insert_ok]). }
  destruct nc as [n c2]. cbn in Hnc. destruct Hnc as [H2 Hp2].
  match goal with |- context [set_tx c2 ?w2 ?b2 ?f2] => set (c3 := set_tx c2 w2 b2 f2) end.
  assert (H3 : evolves c c3) by (etrans; [exact H2|]; by apply evolves_same).
  assert (Hi : forall it, it <> Response -> evolves c (insert_rx c3 it)).
  { intros it Hit. etrans; [exact H3|]. unfold evolves, insert_rx. cbn. split_and!; auto.
    rewrite rx_contains_insert by done. by rewrite bool_decide_eq_false_2. }
  intros [= <-]. repeat case_match; auto.
Qed.

Lemma conn_notify_evolves c ev c' : conn_ok c -> conn_notify c ev = Ret c' -> evolves c c'.
Proof.
  intros Hok. unfold conn_notify.
  set (c1 := if EPOLLIN ev || EPOLLHUP ev then insert_rx c Rw else c).
  assert (H1 : evolves c c1 /\ conn_ok c1).
  { unfold c1. case_match; [|by split]. split; [by apply evolves_insert|by apply insert_rx_ok]. }
  destruct H1 as [H1 K1]. destruct (EPOLLOUT ev && _); [by intros [= <-]|].
  intros (c2&E2&E)%outcome_bind_Ret.
  assert (H2 : evolves c c2 /\ conn_ok c2).
  { destruct (EPOLLOUT ev); [|by injection E2 as <-].
    destruct (notify_out_ok c1 K1) as (c2'&E2'&K2&_). assert (c2' = c2) as -> by congruence.
    split; [|done]. etrans; [exact H1|]. by apply notify_out_evolves. }
  destruct H2 as [H2 K2]. injection E as <-. destruct (_ && _ && _); [|done].
  etrans; [exact H2|]. by apply evolves_kill.
Qed.

(** *** Packets from a connection *)

Lemma rx_remove_absent d it : rx_ok d -> rx_contains d it = false -> rx_remove d it = (false, d).
Proof.
  intros Hd Hc. unfold rx_remove. rewrite Hc. f_equal. revert Hc.
  enough (rx_contains d it || (Z.land d (unot u16_max (into_mask it)) =? d) = true) as Hor.
  { intros Hc. rewrite Hc in Hor. cbn in Hor. by zbool. }
  revert d Hd. destruct it; apply rx_ok_forall; vm_compute; reflexivity.
Qed.

Lemma remove_rx_absent c it :
  conn_ok c -> rx_contains (vc_pending_rx c) it = false -> remove_rx c it = (false, c).
Proof.
  intros [] Hc. unfold remove_rx. rewrite rx_remove_absent by done. by destruct c.
Qed.

Lemma remove_rx_fst c it : (remove_rx c it).1 = rx_contains (vc_pending_rx c) it.
Proof. done. Qed.

Lemma remove_rx_pending c it : vc_pending_rx (remove_rx c it).2 = (rx_remove (vc_pending_rx c) it).2.
Proof. done. Qed.

(** [recv_pkt] by the first indication that is pending. *)
Lemma conn_recv_unfold c p now :
  conn_ok c ->
  conn_recv_pkt c p now =
    let p0 := init_pkt c p in
    let d := vc_pending_rx c in
    if rx_contains d Rst then (Ok tt, (remove_rx c Rst).2, set_op p0 VSOCK_OP_RST)
    else if rx_contains d Response then
      (Ok tt, set_state (remove_rx c Response).2 Established, set_op p0 VSOCK_OP_RESPONSE)
    else if rx_contains d Request then
      (Ok tt, set_expiry (remove_rx c Request).2 (Some (now + CONN_REQUEST_TIMEOUT_MS)),
       set_op p0 VSOCK_OP_REQUEST)
    else if rx_contains d Rw then
      match recv_rw (remove_rx c Rw).2 p0 now with
      | (Some r, c, pkt) => (r, c, pkt)
      | (None, c, pkt) => recv_credit_update c pkt
      end
    else recv_credit_update c p0.
Proof.
  intros Hok. unfold conn_recv_pkt. cbn zeta.
  destruct (rx_contains _ Rst) eqn:E1; [by rewrite (surjective_pairing (remove_rx c Rst)), remove_rx_fst, E1|].
  rewrite remove_rx_absent by done.
  destruct (rx_contains _ Response) eqn:E2;
    [by rewrite (surjective_pairing (remove_rx c Response)), remove_rx_fst, E2|].
  rewrite remove_rx_absent by done.
  destruct (rx_contains _ Request) eqn:E3;
    [by rewrite (surjective_pairing (remove_rx c Request)), remove_rx_fst, E3|].
  rewrite remove_rx_absent by done.
  destruct (rx_contains _ Rw) eqn:E4;
    [by rewrite (surjective_pairing (remove_rx c Rw)), remove_rx_fst, E4|].
  by rewrite remove_rx_absent by done.
Qed.

Lemma recv_rw_frame c p now :
  vc_pending_rx (recv_rw c p now).1.2 = vc_pending_rx c /\
  (vc_state c = LocalInit -> vc_state (recv_rw c p now).1.2 = LocalInit) /\
  src_port (recv_rw c p now).2 = src_port p /\ dst_port (recv_rw c p now).2 = dst_port p /\
  (forall e, (recv_rw c p now).1.1 = Some (Err e) -> pkt_buf p = None).
Proof.
  destruct p as [[] buf]. unfold recv_rw.
  destruct (vc_state c) as [| | | |[] snd|] eqn:Es; try (cbn; by rewrite ?Es).
  all: destruct (need_credit_update_from_peer c); [by cbn; rewrite ?Es|].
  all: destruct buf as [buf|]; [|by cbn; rewrite ?Es].
  all: cbn [pkt_buf]; destruct (stream_read (vc_stream c) _) as [r w].
  all: destruct r as [[|x l]|[]]; cbn; by rewrite ?Es.
Qed.

Lemma init_pkt_ports c p :
  src_port (init_pkt c p) = vc_local_port c /\ dst_port (init_pkt c p) = vc_peer_port c.
Proof. by destruct p as [[] ?]. Qed.

Lemma set_op_ports p o : src_port (set_op p o) = src_port p /\ dst_port (set_op p o) = dst_port p.
Proof. by destruct p as [[] ?]. Qed.

Lemma has_pending_remove c it :
  conn_has_pending_rx (remove_rx c it).2 = true -> conn_has_pending_rx c = true.
Proof.
  unfold conn_has_pending_rx, remove_rx, rx_remove, rx_is_empty. cbn. rewrite !negb_true_iff, !Z.eqb_neq.
  intros Hne Hz. by rewrite Hz in Hne.
Qed.

(** What a connection can still cost the loop of [recv_pkt]. *)
Definition weight c : nat :=
  (if rx_contains (vc_pending_rx c) Rst then 0 else 2) +
  (if rx_contains (vc_pending_rx c) Rw then 1 else 0).

(** With none of the other indications pending, dropping the credit update
    empties the set. *)
Lemma credit_update_last c :
  conn_ok c ->
  (forall it, it <> CreditUpdate -> rx_contains (vc_pending_rx c) it = false) ->
  conn_has_pending_rx (remove_rx c CreditUpdate).2 = false.
Proof.
  intros [] Hno. unfold conn_has_pending_rx, remove_rx, rx_is_empty. cbn. apply negb_false_iff.
  pose proof (Hno Request ltac:(done)). pose proof (Hno Response ltac:(done)).
  pose proof (Hno Rst ltac:(done)). pose proof (Hno Rw ltac:(done)).
  enough (rx_contains (vc_pending_rx c) Request || rx_contains (vc_pending_rx c) Response
    || rx_contains (vc_pending_rx c) Rst || rx_contains (vc_pending_rx c) Rw
    || (Z.land (vc_pending_rx c) (unot u16_max (into_mask CreditUpdate)) =? 0) = true) as Hor.
  { destruct (rx_contains _ Request), (rx_contains _ Response), (rx_contains _ Rst), (rx_contains _ Rw);
      done. }
  generalize dependent (vc_pending_rx c). intros d Hd _ _ _ _ _. revert d Hd.
  apply rx_ok_forall. vm_compute. reflexivity.
Qed.

(** The credit update is sent unless it was not pending; nothing is pending
    afterwards. *)
Lemma recv_credit_facts c p :
  conn_ok c ->
  (forall it, it <> CreditUpdate -> rx_contains (vc_pending_rx c) it = false) ->
  conn_has_pending_rx (recv_credit_update c p).1.2 = false /\
  vc_state (recv_credit_update c p).1.2 = vc_state c /\
  rx_contains (vc_pending_rx (recv_credit_update c p).1.2) Rst = false /\
  rx_contains (vc_pending_rx (recv_credit_update c p).1.2) Rw = false /\
  src_port (recv_credit_update c p).2 = src_port p /\ dst_port (recv_credit_update c p).2 = dst_port p.
Proof.
  intros Hok Hno. pose proof (credit_update_last c Hok Hno) as Hp.
  assert (Hr : forall it, it <> CreditUpdate ->
    rx_contains (vc_pending_rx (remove_rx c CreditUpdate).2) it = false).
  { intros it Hit. rewrite remove_rx_pending, rx_contains_remove by apply Hok. by rewrite Hno, andb_false_r. }
  pose proof (Hr Rst ltac:(done)). pose proof (Hr Rw ltac:(done)).
  unfold recv_credit_update. rewrite (surjective_pairing (remove_rx c CreditUpdate)).
  destruct (_ && _); cbn [fst snd]; (split; [exact Hp|]); (split; [done|]); (split; [done|]);
    (split; [done|]); [apply set_op_ports|done].
Qed.

(** What an answer of [recv_pkt] says about the connection afterwards. *)
Definition answers c (a : result VsockError unit * VsockConnection W * VsockPacket) : Prop :=
  let '(r, c', p') := a in
  (conn_has_pending_rx c' = true -> conn_has_pending_rx c = true) /\
  (vc_state c = LocalInit -> vc_state c' <> Established) /\
  src_port p' = vc_local_port c /\ dst_port p' = vc_peer_port c /\
  (forall e, r = Err e ->
     rx_contains (vc_pending_rx c) Rst = false /\
     (rx_contains (vc_pending_rx c') Rw = true -> rx_contains (vc_pending_rx c) Rw = true) /\
     (conn_has_pending_rx c' = true -> (weight c' < weight c)%nat)).

(** Only the credit update can be pending. *)
Definition credit_only c : Prop :=
  forall it, it <> CreditUpdate -> rx_contains (vc_pending_rx c) it = false.

Lemma answers_credit c c1 p :
  conn_ok c1 -> credit_only c1 -> rx_contains (vc_pending_rx c) Rst = false ->
  (vc_state c = LocalInit -> vc_state c1 = LocalInit) ->
  src_port p = vc_local_port c -> dst_port p = vc_peer_port c ->
  answers c (recv_credit_update c1 p).
Proof.
  intros Hok Hno E Hs Hsp Hdp. destruct (recv_credit_facts c1 p Hok Hno) as (G1&G2&G3&G4&G5&G6).
  destruct (recv_credit_update c1 p) as [[r c'] p']. cbn [fst snd] in *. unfold answers.
  split; [congruence|]. split; [intros; rewrite G2, Hs; done|]. split; [congruence|]. split; [congruence|].
  intros e ->. rewrite G1, G4. by split_and!.
Qed.

Lemma answers_rw c p now :
  conn_ok c -> rx_contains (vc_pending_rx c) Rw = true ->
  (forall it, it <> CreditUpdate -> it <> Rw -> rx_contains (vc_pending_rx c) it = false) ->
  src_port p = vc_local_port c -> dst_port p = vc_peer_port c ->
  answers c (match recv_rw (remove_rx c Rw).2 p now with
             | (Some r, c, pkt) => (r, c, pkt)
             | (None, c, pkt) => recv_credit_update c pkt
             end).
Proof.
  intros Hok E4 Hno Hsp Hdp. pose proof (remove_rx_ok c Rw Hok) as Hok1.
  assert (Hno1 : credit_only (remove_rx c Rw).2).
  { intros it Hit. rewrite remove_rx_pending, rx_contains_remove by apply Hok.
    destruct (decide (it = Rw)) as [->|]; [by rewrite bool_decide_eq_true_2|].
    by rewrite Hno, andb_false_r. }
  pose proof (has_pending_remove c Rw) as Hpend. pose proof (Hno Rst ltac:(done) ltac:(done)) as E1.
  assert (Hst : vc_state (remove_rx c Rw).2 = vc_state c) by done.
  destruct (remove_rx c Rw) as [had c1]. cbn [snd] in *.
  destruct (recv_rw_frame c1 p now) as (Fp&Fs&Fsp&Fdp&_).
  pose proof (recv_rw_ok c1 p now Hok1) as (Hok2&_).
  destruct (recv_rw c1 p now) as [[[r2|] c2] p2]; cbn [fst snd] in *.
  - unfold answers, conn_has_pending_rx in *. rewrite Fp. split; [done|].
    split; [intros Hs; rewrite Fs by congruence; done|]. split; [congruence|]. split; [congruence|].
    intros e ->. split; [done|]. split; [done|]. intros _.
    unfold weight. rewrite Fp, E1, E4, !Hno1 by done. lia.
  - apply answers_credit; try done; [intros it; rewrite Fp; apply Hno1| |congruence|congruence].
    intros Hs. apply Fs. congruence.
Qed.

Lemma conn_recv_answers c p now : conn_wf c -> answers c (conn_recv_pkt c p now).
Proof.
  intros [Hok Hli]. rewrite conn_recv_unfold by done. cbn zeta.
  destruct (init_pkt_ports c p) as [Hsp Hdp]. generalize dependent (init_pkt c p). intros p0 Hsp Hdp.
  destruct (set_op_ports p0 VSOCK_OP_RST), (set_op_ports p0 VSOCK_OP_RESPONSE),
    (set_op_ports p0 VSOCK_OP_REQUEST).
  destruct (rx_contains _ Rst) eqn:E1.
  { split; [by apply has_pending_remove|]. split_and!; try congruence. cbn. congruence. }
  destruct (rx_contains _ Response) eqn:E2.
  { split; [by apply (has_pending_remove c Response)|]. split_and!; try congruence.
    intros Hs. by specialize (Hli Hs). }
  destruct (rx_contains _ Request) eqn:E3.
  { split; [by apply (has_pending_remove c Request)|]. split_and!; try congruence. cbn. congruence. }
  destruct (rx_contains _ Rw) eqn:E4; [apply answers_rw|apply answers_credit]; try done; by intros [].
Qed.
End sync.
