(* ===== verification/VsockMuxerInv.v ===== *)
(** * The invariant of the vsock muxer

    Every operation of the muxer keeps [mx_ok]: well-formed connections, bounded
    queues, and an RX queue that, while it is synchronised, names every
    connection with something to say. *)
From S2P Require Import Prelude VsockTxBuf VsockConn VsockConnFacts VsockPort VsockMuxer VsockMuxerFacts.

Section inv.
Context {W B : Type} `{VsockStreamLaws W} `{VsockBackend B W}.
Implicit Types (m : VsockMuxer W B) (c : VsockConnection W).

(** A connection is stored under its own ports. *)
Definition key_ok (key : ConnMapKey) c : Prop :=
  vc_local_port c = k_local_port key /\ vc_peer_port c = k_peer_port key.

Definition conns_ok (cm : gmap ConnMapKey (VsockConnection W)) : Prop :=
  map_Forall (fun key c => conn_wf c /\ key_ok key c) cm.

Record mx_ok m : Prop := {
  mo_conns : conns_ok (mx_conn_map m);
  mo_sync : sync (mx_conn_map m) (mx_rxq m);
  mo_rxq : rxq_ok (mx_rxq m);
  mo_killq : (length (killq_q (mx_killq m)) <= MUXER_KILLQ_SIZE)%nat;
  mo_size : (size (mx_conn_map m) <= MAX_CONNECTIONS)%nat;
  mo_last : 2 ^ 30 - 1 <= mx_local_port_last m < 2 ^ 31;
}.

(** The parts of the muxer that listeners, backends and used ports are not. *)
Definition same_core m m' : Prop :=
  mx_conn_map m' = mx_conn_map m /\ mx_rxq m' = mx_rxq m /\ mx_killq m' = mx_killq m /\
  mx_local_port_last m' = mx_local_port_last m.

Lemma mx_ok_core m m' : same_core m m' -> mx_ok m -> mx_ok m'.
Proof. intros (E1&E2&E3&E4) []. split; rewrite ?E1, ?E2, ?E3, ?E4; done. Qed.

Lemma conns_ok_insert cm key c : conns_ok cm -> conn_wf c -> key_ok key c -> conns_ok (<[key := c]> cm).
Proof. intros Hc ? ?. by apply map_Forall_insert_2. Qed.

Lemma key_ok_evolves key c c' : key_ok key c -> evolves c c' -> key_ok key c'.
Proof. intros [? ?] (?&?&_). split; congruence. Qed.

Lemma conn_wf_kill c : conn_wf c -> conn_wf (kill c).
Proof. intros Hwf. eapply evolves_wf; [done| |]; [apply kill_ok|apply evolves_kill]; apply Hwf. Qed.

Lemma size_update (cm : gmap ConnMapKey (VsockConnection W)) key c c' :
  cm !! key = Some c -> size (<[key := c']> cm) = size cm.
Proof. intros. by rewrite map_size_insert_Some by (by eexists). Qed.

(** ** Kills *)

Lemma kill_connection_core m key :
  mx_conn_map (kill_connection m key) =
    match mx_conn_map m !! key with
    | Some c => <[key := kill c]> (mx_conn_map m)
    | None => mx_conn_map m
    end /\
  mx_rxq (kill_connection m key) =
    (if match mx_conn_map m !! key with Some c => conn_has_pending_rx c | None => false end
     then mx_rxq m else (rxq_push (mx_rxq m) (ConnRx key)).2) /\
  mx_killq (kill_connection m key) = mx_killq m /\
  mx_local_port_last (kill_connection m key) = mx_local_port_last m.
Proof.
  unfold kill_connection. destruct (mx_conn_map m !! key) as [c|]; [|done].
  by destruct (conn_has_pending_rx c).
Qed.

(** A step that changes one connection, and queues it again unless [skip]. *)
Lemma mx_ok_update m m' key c c' (skip : bool) :
  mx_ok m -> mx_conn_map m !! key = Some c -> conn_wf c' -> key_ok key c' ->
  mx_conn_map m' = <[key := c']> (mx_conn_map m) ->
  mx_rxq m' = (if skip then mx_rxq m else (rxq_push (mx_rxq m) (ConnRx key)).2) ->
  (skip = true -> conn_has_pending_rx c' = true -> conn_has_pending_rx c = true) ->
  (length (killq_q (mx_killq m')) <= MUXER_KILLQ_SIZE)%nat ->
  mx_local_port_last m' = mx_local_port_last m ->
  mx_ok m'.
Proof.
  intros [] Hk Hwf Hkey Ecm Eq Hskip Hkq El. split; rewrite ?Ecm, ?Eq, ?El; auto.
  - by apply conns_ok_insert.
  - destruct skip; [by eapply sync_update; eauto|by apply sync_pushed].
  - destruct skip; [done|]. by apply rxq_push_ok.
  - by rewrite (size_update _ _ c).
Qed.

Lemma kill_pending c : conn_ok c -> conn_has_pending_rx (kill c) = true.
Proof.
  intros Hok. unfold conn_has_pending_rx, kill, insert_rx. cbn [vc_pending_rx set_pending set_state].
  rewrite rx_insert_nonempty; [done|]. apply Hok.
Qed.

Lemma kill_connection_ok m key : mx_ok m -> mx_ok (kill_connection m key).
Proof.
  intros Hok. destruct (kill_connection_core m key) as (Ecm&Eq&Ekq&El).
  destruct (mx_conn_map m !! key) as [c|] eqn:Ek.
  - destruct (mo_conns m Hok key c Ek) as [Hwf Hkey].
    apply (mx_ok_update m _ key c (kill c) (conn_has_pending_rx c) Hok Ek); try done.
    + by apply conn_wf_kill.
    + rewrite Ekq. apply Hok.
  - destruct Hok. split; rewrite ?Ecm, ?Eq, ?Ekq, ?El; auto using sync_push, rxq_push_ok.
Qed.

(** ** Listeners and the mutation of a connection *)

Lemma add_listener_core m fd l ctl : same_core m (add_listener m fd l ctl).2.
Proof. unfold add_listener. by destruct ctl. Qed.

(** Updating the listener can only kill the connection. *)
Lemma update_listener_core m key c bt ctl :
  let m' := update_listener m key c bt ctl in
  same_core m m' \/
  exists m1, same_core m m1 /\ m' = kill_connection m1 key.
Proof.
  unfold update_listener. cbn zeta.
  repeat (case_match; try (left; by split_and!)); try (right; eexists; split; [|done]; by split_and!).
  all: unfold add_listener in *; destruct ctl; simplify_eq/=; try (left; by split_and!).
  all: right; eexists; split; [|done]; by split_and!.
Qed.

Lemma killq_push_length q key t :
  (length (killq_q q) <= MUXER_KILLQ_SIZE)%nat ->
  (length (killq_q (killq_push q key t)) <= MUXER_KILLQ_SIZE)%nat.
Proof.
  intros Hq. unfold killq_push, killq_is_full. destruct (killq_synced q); cbn [negb orb]; [|done].
  destruct (Nat.eqb_spec (length (killq_q q)) MUXER_KILLQ_SIZE); cbn; [lia|].
  rewrite length_app. cbn. lia.
Qed.

(** The effect of [apply_conn_mutation]: the connection is the one the closure
    returned, killed when its listener could not be updated. *)
Lemma apply_core {A} m key c (f : VsockConnection W -> outcome (A * VsockConnection W)) clock ctl a c1 :
  mx_conn_map m !! key = Some c -> f c = Ret (a, c1) ->
  let c2 := ack_host key (vc_state c) c1 in
  exists m' (killed : bool),
    apply_conn_mutation m key f clock ctl = Ret (Some a, m') /\
    mx_conn_map m' = <[key := if killed then kill c2 else c2]> (mx_conn_map m) /\
    mx_rxq m' =
      (if (if killed then conn_has_pending_rx c && conn_has_pending_rx c2
           else conn_has_pending_rx c || negb (conn_has_pending_rx c2))
       then mx_rxq m else (rxq_push (mx_rxq m) (ConnRx key)).2) /\
    (mx_killq m' = mx_killq m \/ exists t, mx_killq m' = killq_push (mx_killq m) key t) /\
    mx_local_port_last m' = mx_local_port_last m.
Proof.
  intros Hk Hf c2. unfold apply_conn_mutation. rewrite Hk, Hf. cbn [mbind outcome_bind]. fold c2. clearbody c2.
  set (m1 := set_conn_map m (<[key := c2]> (mx_conn_map m))).
  set (m2 := if negb (conn_has_pending_rx c) && conn_has_pending_rx c2 then push_rx m1 (ConnRx key) else m1).
  set (c3 := (if negb (will_expire c (clock 0%nat)) && will_expire c2 (clock 1%nat)
      then t ← unwrap (vc_expiry c2); Ret (set_killq m2 (killq_push (mx_killq m2) key t)) else Ret m2)).
  assert (exists m3, c3 = Ret m3 /\ mx_conn_map m3 = mx_conn_map m2 /\ mx_rxq m3 = mx_rxq m2 /\
    (mx_killq m3 = mx_killq m2 \/ exists t, mx_killq m3 = killq_push (mx_killq m2) key t) /\
    mx_local_port_last m3 = mx_local_port_last m2) as (m3&E3&Ecm&Eq&Ekq&El).
  { clearbody m2. subst c3. destruct (_ && _) eqn:Ee; [|exists m2; split_and!; auto].
    apply andb_true_iff in Ee as [_ Ee]. unfold will_expire in Ee.
    destruct (vc_expiry c2) as [t|]; [|done]. cbn. eexists. split_and!; eauto. }
  rewrite E3. cbn [mbind outcome_bind]. clear E3. clear c3.
  assert (E2 : mx_conn_map m2 = <[key := c2]> (mx_conn_map m) /\ mx_killq m2 = mx_killq m /\
    mx_local_port_last m2 = mx_local_port_last m).
  { subst m2. by destruct (_ && _). }
  destruct E2 as (E21&E22&E23). rewrite E21 in Ecm. rewrite E22 in Ekq. rewrite E23 in El.
  assert (Eq2 : mx_rxq m2 = if conn_has_pending_rx c || negb (conn_has_pending_rx c2) then mx_rxq m
     else (rxq_push (mx_rxq m) (ConnRx key)).2).
  { subst m2. by destruct (conn_has_pending_rx c), (conn_has_pending_rx c2). }
  rewrite Eq2 in Eq. clear Eq2.
  destruct (update_listener_core m3 key c2 (backend_type (vc_stream c)) ctl)
    as [(U1&U2&U3&U4)|(m4&(U1&U2&U3&U4)&->)].
  - eexists _, false. split; [done|]. rewrite U1, U2, U3, U4, Ecm, Eq, El. by split_and!.
  - destruct (kill_connection_core m4 key) as (K1&K2&K3&K4).
    eexists _, true. split; [done|]. rewrite K1, K2, K3, K4, U1, U2, U3, U4, Ecm, Eq, El.
    rewrite lookup_insert, decide_True, insert_insert, decide_True by done. split_and!; auto.
    by destruct (conn_has_pending_rx c), (conn_has_pending_rx c2).
Qed.

Lemma ack_host_ok key s c : conn_wf c -> conn_wf (ack_host key s c) /\ evolves c (ack_host key s c).
Proof.
  intros Hwf. unfold ack_host. destruct (_ && _); [|by split]. unfold send_bytes_raw.
  destruct (stream_write (vc_stream c) (ok_msg (k_local_port key))) as [r w].
  set (c1 := set_tx c w (vc_tx_buf c) (vc_fwd_cnt c)).
  assert (Hev : evolves c c1) by (by apply evolves_same).
  assert (W1 : conn_wf c1).
  { eapply evolves_wf; [exact Hwf| |exact Hev]. destruct Hwf as [[] _]. by split. }
  assert (Hk : conn_wf (kill c1) /\ evolves c (kill c1)).
  { split; [by apply conn_wf_kill|]. etrans; [exact Hev|]. apply evolves_kill, W1. }
  destruct r; [destruct (_ =? _)%nat|]; auto.
Qed.

(** A closure that is safe to apply to a connection. *)
Definition keeps_conn {A} (f : VsockConnection W -> outcome (A * VsockConnection W)) : Prop :=
  forall c, conn_wf c -> exists a c', f c = Ret (a, c') /\ conn_wf c' /\ evolves c c'.

Lemma killq_step m m' key :
  mx_ok m -> (mx_killq m' = mx_killq m \/ exists t, mx_killq m' = killq_push (mx_killq m) key t) ->
  (length (killq_q (mx_killq m')) <= MUXER_KILLQ_SIZE)%nat.
Proof. intros [] [->|[t ->]]; auto using killq_push_length. Qed.

Lemma apply_ok {A} m key (f : VsockConnection W -> outcome (A * VsockConnection W)) clock ctl :
  mx_ok m -> keeps_conn f ->
  exists o m', apply_conn_mutation m key f clock ctl = Ret (o, m') /\ mx_ok m' /\
    forall key', key' <> key -> mx_conn_map m' !! key' = mx_conn_map m !! key'.
Proof.
  intros Hok Hf. destruct (mx_conn_map m !! key) as [c|] eqn:Ek; cycle 1.
  { exists None, m. unfold apply_conn_mutation. by rewrite Ek. }
  destruct (mo_conns m Hok key c Ek) as [Hwf Hkey]. destruct (Hf c Hwf) as (a&c1&E&Hwf1&He1).
  destruct (ack_host_ok key (vc_state c) c1 Hwf1) as [Hwf2 He2].
  destruct (apply_core m key c f clock ctl a c1 Ek E) as (m'&killed&->&Ecm&Eq&Ekq&El).
  set (c2 := ack_host _ _ _) in *. eexists _, _. split; [done|].
  split; [|intros key' Hne; by rewrite Ecm, lookup_insert_ne].
  eapply (mx_ok_update m m' key c); [done|done| | |exact Ecm|exact Eq| | |done].
  - destruct killed; [by apply conn_wf_kill|done].
  - eapply key_ok_evolves; [exact Hkey|]. rewrite He1, He2.
    destruct killed; [apply evolves_kill, Hwf2|done].
  - destruct killed; [by intros [? _]%andb_true_iff|].
    intros [?|Hn]%orb_true_iff ?; [done|]. apply negb_true_iff in Hn. congruence.
  - by eapply killq_step.
Qed.

Lemma conn_send_keeps p now : pkt_ok p -> keeps_conn (fun c => c' ← conn_send_pkt c p now; Ret (tt, c')).
Proof.
  intros Hp c Hwf. destruct (conn_send_ok c p now ltac:(apply Hwf) Hp) as (c'&E&Hok'&_).
  exists tt, c'. rewrite E. split; [done|].
  assert (evolves c c') by (eapply conn_send_evolves; [apply Hwf|done..]).
  split; [by eapply evolves_wf|done].
Qed.

Lemma conn_notify_keeps ev : keeps_conn (fun c => c' ← conn_notify c ev; Ret (tt, c')).
Proof.
  intros c Hwf. destruct (conn_notify_ok c ev ltac:(apply Hwf)) as (c'&E&Hok'&_).
  exists tt, c'. rewrite E. split; [done|].
  assert (evolves c c') by (eapply conn_notify_evolves; [apply Hwf|done..]).
  split; [by eapply evolves_wf|done].
Qed.

(** ** Packets to the guest *)

Lemma recv_from_keeps p now : keeps_conn (recv_from p now).
Proof.
  intros c Hwf. unfold recv_from. pose proof (conn_recv_ok c p now ltac:(apply Hwf)) as (Hok'&_).
  pose proof (conn_recv_evolves c p now ltac:(apply Hwf)) as He.
  destruct (conn_recv_pkt c p now) as [[r c'] p']. cbn in Hok', He. eexists _, _. split; [done|].
  split; [by eapply evolves_wf|done].
Qed.

Lemma pop_rx_ok m rx :
  mx_ok m -> rxq_peek (mx_rxq m) = Some rx -> sync (mx_conn_map m) (rxq_pop (mx_rxq m)).2 ->
  pop_rx m = Ret (set_rxq m (rxq_pop (mx_rxq m)).2) /\ mx_ok (set_rxq m (rxq_pop (mx_rxq m)).2) /\
  S (length (rxq_q (rxq_pop (mx_rxq m)).2)) = length (rxq_q (mx_rxq m)).
Proof.
  intros Hok Hp Hs. unfold pop_rx, rxq_pop, rxq_peek in *. rewrite Hp. split; [done|].
  destruct Hok. split; [split; try done|]; unfold rxq_ok in *; cbn in *;
    destruct (rxq_q (mx_rxq m)); cbn in *; try done; lia.
Qed.

Definition total_weight (cm : gmap ConnMapKey (VsockConnection W)) : nat :=
  map_fold (fun _ c n => weight c + n)%nat O cm.

Lemma total_weight_update cm key c c' :
  cm !! key = Some c ->
  (total_weight (<[key := c']> cm) + weight c = total_weight cm + weight c')%nat.
Proof.
  intros Hk. unfold total_weight.
  rewrite <- (insert_delete_id cm key c Hk) at 2. rewrite <- insert_delete_eq.
  rewrite !map_fold_insert_L; try apply lookup_delete_eq; try (intros; lia).
Qed.

Lemma total_weight_bound cm : (total_weight cm <= 3 * size cm)%nat.
Proof.
  induction cm as [|k c cm Hk IH] using map_ind; [done|]. unfold total_weight in *.
  rewrite map_size_insert_None, map_fold_insert_L by first [done | intros; lia].
  assert (weight c <= 3)%nat by (unfold weight; repeat case_match; lia). lia.
Qed.

(** What [recv_pkt] can still do before it stops. *)
Definition load m : nat := length (rxq_q (mx_rxq m)) + total_weight (mx_conn_map m).

Lemma weight_kill c :
  conn_ok c -> weight (kill c) = if rx_contains (vc_pending_rx c) Rw then 1%nat else O.
Proof.
  intros Hok. unfold weight, kill, insert_rx. cbn [vc_pending_rx set_pending set_state].
  rewrite !rx_contains_insert by apply Hok. by destruct (rx_contains _ Rw).
Qed.

(** Asking a connection that answered with an error leaves less to do, whether it
    is killed on the way or not. *)
Lemma weight_answer c c' p' e (killed : bool) :
  conn_ok c' -> answers c (Err e, c', p') ->
  (weight (if killed then kill c' else c') <= weight c)%nat /\
  (killed = true \/ conn_has_pending_rx c' = true ->
   (weight (if killed then kill c' else c') < weight c)%nat).
Proof.
  intros Hok (_&_&_&_&Ha). destruct (Ha e eq_refl) as (E1&Hrw&Hlt).
  destruct killed.
  - rewrite weight_kill by done. unfold weight. rewrite E1.
    destruct (rx_contains (vc_pending_rx c') Rw); [rewrite Hrw by done|]; lia.
  - split; [|by intros [?|?]; auto]. unfold weight. rewrite E1.
    destruct (rx_contains (vc_pending_rx c') Rst), (rx_contains (vc_pending_rx c') Rw) eqn:E;
      try rewrite Hrw by done; lia.
Qed.

Lemma ack_host_noop key c c' :
  (vc_state c = LocalInit -> vc_state c' <> Established) -> ack_host key (vc_state c) c' = c'.
Proof.
  intros Hs. unfold ack_host. destruct (bool_decide_reflect (vc_state c = LocalInit)); [|done].
  by rewrite bool_decide_eq_false_2 by auto.
Qed.

(** A round with an answer: the connection is [c'], killed or not. *)
Lemma recv_conn_pop m m1 key c c' (killed : bool) :
  rxq_peek (mx_rxq m) = Some (ConnRx key) -> mx_ok m1 ->
  mx_conn_map m !! key = Some c ->
  mx_conn_map m1 = <[key := if killed then kill c' else c']> (mx_conn_map m) ->
  mx_rxq m1 = (if (if killed then conn_has_pending_rx c && conn_has_pending_rx c'
                   else conn_has_pending_rx c || negb (conn_has_pending_rx c'))
               then mx_rxq m else (rxq_push (mx_rxq m) (ConnRx key)).2) ->
  conn_has_pending_rx c' = false ->
  exists m2, pop_rx m1 = Ret m2 /\ mx_ok m2 /\ mx_conn_map m2 = mx_conn_map m1 /\
    (length (rxq_q (mx_rxq m2)) < length (rxq_q (mx_rxq m)) + (if killed then 1 else 0))%nat.
Proof.
  intros Hpk Hok Hk Ecm Eq Hnp. rewrite Hnp in Eq. unfold rxq_peek in Hpk.
  assert (Hhead : rxq_peek (mx_rxq m1) = Some (ConnRx key) /\ sync (mx_conn_map m1) (rxq_pop (mx_rxq m1)).2 /\
    (length (rxq_q (mx_rxq m1)) <= length (rxq_q (mx_rxq m)) + (if killed then 1 else 0))%nat).
  { destruct killed.
    - rewrite andb_false_r in Eq. pose proof (rxq_push_length (mx_rxq m) (ConnRx key)) as Hlen.
      assert (Hp : rxq_peek (mx_rxq m1) = Some (ConnRx key)).
      { rewrite Eq. unfold rxq_peek, rxq_push. destruct (_ && _); [|done]. cbn.
        by destruct (rxq_q (mx_rxq m)). }
      split; [done|]. split; [|rewrite Eq; lia]. apply (sync_pop _ _ key); [apply Hok|done|].
      intros _ _ _. rewrite Eq. intros Hs. destruct (rxq_push_synced _ _ Hs) as [_ [->|[? _]]]; [|done].
      destruct (rxq_q (mx_rxq m)); [done|]. cbn. apply elem_of_app. right. by left.
    - rewrite orb_true_r in Eq. rewrite Eq. split; [done|]. split; [|lia].
      apply (sync_pop _ _ key); [rewrite <- Eq; apply Hok|done|]. intros c0. rewrite Ecm.
      rewrite lookup_insert_eq. intros [= <-]. congruence. }
  destruct Hhead as (Hp&Hs&Hlen). destruct (pop_rx_ok m1 _ Hok Hp Hs) as (E&Hok2&Hl).
  eexists. split; [exact E|]. split; [done|]. split; [done|]. cbn [mx_rxq set_rxq]. lia.
Qed.

Lemma recv_conn_step m key p clock ctl :
  mx_ok m -> rxq_peek (mx_rxq m) = Some (ConnRx key) ->
  exists r m' p', recv_conn m key p clock ctl = Ret (r, m', p') /\ mx_ok m' /\
    (forall e, r = Err e -> (load m' < load m)%nat) /\
    (r = Ok tt -> src_port p' = k_local_port key /\ dst_port p' = k_peer_port key) /\
    forall key', key' <> key -> mx_conn_map m' !! key' = mx_conn_map m !! key'.
Proof.
  intros Hok Hpk. unfold recv_conn.
  destruct (mx_conn_map m !! key) as [c|] eqn:Ek; cycle 1.
  { unfold apply_conn_mutation. rewrite Ek. cbn [mbind outcome_bind default].
    destruct (pop_rx_ok m _ Hok Hpk) as (E&Hok2&Hl).
    { apply (sync_pop _ _ key); [apply Hok|done|]. congruence. }
    rewrite E. cbn [mbind outcome_bind]. eexists _, _, _. split; [done|]. split; [done|].
    split; [intros e _; unfold load; cbn [mx_rxq mx_conn_map set_rxq]; lia|]. by split. }
  destruct (mo_conns m Hok key c Ek) as [Hwf [Hkl Hkp]].
  destruct (apply_ok m key _ (fun i => clock (2 * i)%nat) ctl Hok (recv_from_keeps p (clock 1%nat)))
    as (o&m1&E&Hok1&Hother).
  pose proof (conn_recv_answers c p (clock 1%nat) Hwf) as Ha.
  pose proof (conn_recv_ok c p (clock 1%nat) ltac:(apply Hwf)) as (Hok'&_).
  assert (Ef : recv_from p (clock 1%nat) c = let '(r, c', p') := conn_recv_pkt c p (clock 1%nat) in
    Ret (r, p', negb (conn_has_pending_rx c'), c')) by done.
  destruct (conn_recv_pkt c p (clock 1%nat)) as [[r c'] p']. cbn in Hok'.
  destruct (apply_core m key c _ (fun i => clock (2 * i)%nat) ctl _ _ Ek Ef)
    as (m1'&killed&E'&Ecm&Eq&_). rewrite E in E'. injection E' as -> <-.
  rewrite E. cbn [mbind outcome_bind default].
  rewrite ack_host_noop in Ecm, Eq by apply Ha.
  assert (Hports : src_port p' = k_local_port key /\ dst_port p' = k_peer_port key).
  { destruct Ha as (_&_&?&?&_). split; congruence. }
  pose proof (total_weight_update (mx_conn_map m) key c (if killed then kill c' else c') Ek) as Hw.
  rewrite <- Ecm in Hw.
  destruct (conn_has_pending_rx c') eqn:Ep; cbn [negb].
  - cbn [mbind outcome_bind]. eexists _, _, _. split; [done|]. split; [done|]. split; [|by split].
    intros e ->. destruct (weight_answer c c' p' e killed Hok' Ha) as [_ Hlt].
    specialize (Hlt (or_intror Ep)). unfold load. rewrite Eq.
    destruct Ha as (Hpp&_). rewrite Hpp by done. cbn [andb orb]. destruct killed; lia.
  - destruct (recv_conn_pop m m1 key c c' killed) as (m2&E2&Hok2&Ecm2&Hlen); try done.
    { by rewrite Ep. }
    rewrite E2. cbn [mbind outcome_bind]. eexists _, _, _. split; [done|]. split; [done|].
    split; [|by rewrite Ecm2].
    intros e ->. destruct (weight_answer c c' p' e killed Hok' Ha) as [Hle Hlt].
    unfold load. rewrite Ecm2. destruct killed; [specialize (Hlt (or_introl eq_refl))|]; lia.
Qed.

Lemma remove_connection_ok m key : mx_ok m -> mx_ok (remove_connection m key).
Proof.
  intros Hok. unfold remove_connection. set (m1 := match _ with Some _ => _ | None => m end).
  apply (mx_ok_core m1); [by split_and!|]. subst m1. destruct (mx_conn_map m !! key) as [c|] eqn:Ek; [|done].
  destruct Hok. split; cbn; auto.
  - by apply map_Forall_delete.
  - by apply sync_delete.
  - rewrite map_size_delete, Ek. lia.
Qed.

Lemma recv_loop_ok fuel m p clock ctl :
  mx_ok m -> (load m < fuel)%nat ->
  exists r m' p', recv_loop fuel m p clock ctl = Ret (r, m', p') /\ mx_ok m' /\
    (r = Ok tt \/ r = Err NoData /\ rxq_q (mx_rxq m') = []).
Proof.
  revert m p clock ctl. induction fuel as [|fuel IH]; [lia|]. intros m p clock ctl Hok Hfuel.
  cbn [recv_loop]. destruct (rxq_peek (mx_rxq m)) as [[key|lp pp]|] eqn:Ep.
  - destruct (recv_conn_step m key p clock (ctl O) Hok Ep) as (r&m'&p'&E&Hok'&Hlt&_).
    rewrite E. cbn [mbind outcome_bind]. destruct r as [[]|e].
    + eexists _, _, _. split; [done|]. split; [|by left].
      destruct (op p' =? VSOCK_OP_RST); [by apply remove_connection_ok|done].
    + apply IH; [done|]. specialize (Hlt e eq_refl). lia.
  - destruct (pop_rx_ok m _ Hok Ep) as (E&Hok'&_); [by eapply sync_pop_rst; [apply Hok|]|].
    rewrite E. eexists _, _, _. split; [done|]. by split; [|left].
  - eexists _, _, _. split; [done|]. split; [done|]. right. split; [done|].
    unfold rxq_peek in Ep. by destruct (rxq_q (mx_rxq m)).
Qed.

(** ** Resynchronisation *)

Section iter.
Context (conn_iter : gmap ConnMapKey (VsockConnection W) -> list (ConnMapKey * VsockConnection W)).
(** [HashMap::iter] yields every entry once. *)
Hypothesis iter_spec : forall cm, conn_iter cm ≡ₚ map_to_list cm.

Lemma rxq_collect_spec l (q : list MuxerRx) :
  (length q <= MUXER_RXQ_SIZE)%nat ->
  rxq_ok (rxq_collect l q) /\
  (rxq_synced (rxq_collect l q) = true ->
   (forall x, x ∈ q -> x ∈ rxq_q (rxq_collect l q)) /\
   forall key c, (key, c) ∈ l -> conn_has_pending_rx c = true -> ConnRx key ∈ rxq_q (rxq_collect l q)).
Proof.
  revert q. induction l as [|[key c] l IH]; intros q Hq; cbn [rxq_collect].
  { split; [done|]. intros _. split; [done|]. intros ? ? Hin. by apply elem_of_nil in Hin. }
  destruct (conn_has_pending_rx c) eqn:Ep; cbn [negb].
  - destruct (Nat.leb_spec MUXER_RXQ_SIZE (length q)); [by split|].
    destruct (IH (q ++ [ConnRx key])) as [Hok Hs]; [rewrite length_app; cbn; lia|]. split; [done|].
    intros Hsync. destruct (Hs Hsync) as [Hq' Hl]. split.
    { intros x Hx. apply Hq', elem_of_app. by left. }
    intros key' c' [[= -> ->]|Hin]%elem_of_cons Hp; [|by eapply Hl].
    apply Hq', elem_of_app. right. by left.
  - destruct (IH q Hq) as [Hok Hs]. split; [done|]. intros Hsync. destruct (Hs Hsync) as [Hq' Hl].
    split; [done|]. intros key' c' [[= -> ->]|Hin]%elem_of_cons Hp; [congruence|by eapply Hl].
Qed.

Lemma resync_ok m : mx_ok m -> mx_ok (set_rxq m (rxq_from_conn_map conn_iter (mx_conn_map m))).
Proof.
  intros []. unfold rxq_from_conn_map.
  destruct (rxq_collect_spec (conn_iter (mx_conn_map m)) []) as [Hok Hs]; [cbn; lia|].
  split; cbn; auto. intros Hsync key c Hk. apply (Hs Hsync). rewrite iter_spec.
  by apply elem_of_map_to_list.
Qed.

Lemma muxer_recv_ok m p clock ctl :
  mx_ok m ->
  exists r m' p', muxer_recv_pkt conn_iter m p clock ctl = Ret (r, m', p') /\ mx_ok m' /\
    (r = Ok tt \/ r = Err NoData /\ rxq_q (mx_rxq m') = []).
Proof.
  intros Hok. unfold muxer_recv_pkt. match goal with |- context [recv_loop _ ?x] => set (m1 := x) end.
  assert (mx_ok m1) by (subst m1; destruct (_ && _); [by apply resync_ok|done]).
  apply recv_loop_ok; [done|]. unfold load, recv_fuel.
  pose proof (total_weight_bound (mx_conn_map m1)). lia.
Qed.
End iter.
End inv.
