(* ===== verification/VsockMuxerOps.v ===== *)
(** * The operations of the vsock muxer keep its invariant

    First [sweep_killq]: it keeps the invariant, kills only connections whose
    time has passed, and terminates when the clock does not run backwards.  Then
    the other operations. *)
From S2P Require Import Prelude VsockTxBuf VsockConn VsockConnFacts VsockPort VsockMuxer VsockMuxerFacts VsockMuxerInv.

(** [Instant::now] never decreases. *)
Definition monotone (clock : nat -> Z) : Prop := forall i j, (i <= j)%nat -> clock i <= clock j.

(** A time that a reading of the clock has reached. *)
Definition passed (clock : nat -> Z) (e : Z) : Prop := exists i, e <= clock i.

(** The rest of a clock after some readings. *)
Definition later (clock clock' : nat -> Z) : Prop := exists k, forall i, clock' i = clock (k + i)%nat.

#[global] Instance later_preorder : PreOrder later.
Proof.
  split; [by exists O|]. intros c1 c2 c3 [k1 E1] [k2 E2]. exists (k1 + k2)%nat. intros i.
  rewrite E2, E1. f_equal. lia.
Qed.

Lemma later_shift clock k : later clock (fun i => clock (k + i)%nat).
Proof. by exists k. Qed.

Lemma later_monotone clock clock' :
  monotone clock -> later clock clock' -> monotone clock' /\ clock O <= clock' O.
Proof.
  intros Hm [k E]. split; [intros i j ?|]; rewrite !E; apply Hm; lia.
Qed.

Lemma later_passed clock clock' e : later clock clock' -> passed clock' e -> passed clock e.
Proof. intros [k E] [i Hi]. exists (k + i)%nat. by rewrite <- E. Qed.

Section sweep.
Context {W B : Type} `{VsockStreamLaws W} `{VsockBackend B W}.
Implicit Types (m : VsockMuxer W B) (c : VsockConnection W).

(** From [m] to [m'] only connections whose expiry satisfies [P] were killed. *)
Definition swept (P : Z -> Prop) m m' : Prop :=
  forall key,
    mx_conn_map m' !! key = mx_conn_map m !! key \/
    exists c e, mx_conn_map m !! key = Some c /\ mx_conn_map m' !! key = Some (kill c) /\
      vc_expiry c = Some e /\ P e.

Lemma kill_kill c : kill (kill c) = kill c.
Proof.
  unfold kill, insert_rx, set_pending, set_state. cbn. unfold rx_insert.
  by rewrite <- Z.lor_assoc, Z.lor_diag.
Qed.

Lemma swept_refl P m m' : mx_conn_map m' = mx_conn_map m -> swept P m m'.
Proof. intros E key. left. by rewrite E. Qed.

Lemma swept_trans (P : Z -> Prop) m1 m2 m3 : swept P m1 m2 -> swept P m2 m3 -> swept P m1 m3.
Proof.
  intros H12 H23 key. destruct (H12 key) as [E|(c&e&E1&E2&He&HP)].
  - destruct (H23 key) as [E'|(c&e&E1&E2&He&HP)]; [left; congruence|].
    right. exists c, e. rewrite <- E. done.
  - right. exists c, e. split; [done|]. split; [|done].
    destruct (H23 key) as [E'|(c'&e'&E1'&E2'&_)]; [congruence|].
    rewrite E2 in E1'. injection E1' as <-. by rewrite E2', kill_kill.
Qed.

Lemma swept_mono (P Q : Z -> Prop) m m' : (forall e, P e -> Q e) -> swept P m m' -> swept Q m m'.
Proof.
  intros HPQ Hs key. destruct (Hs key) as [?|(c&e&?&?&?&?)]; [by left|]. right. exists c, e. auto.
Qed.

(** The expiries, on which the termination of the sweep depends, stay. *)
Lemma swept_expiry P m m' : swept P m m' -> vc_expiry <$> mx_conn_map m' = vc_expiry <$> mx_conn_map m.
Proof.
  intros Hs. apply map_eq. intros key. rewrite !lookup_fmap.
  destruct (Hs key) as [->|(c&e&->&->&_)]; done.
Qed.

Lemma kill_connection_swept (P : Z -> Prop) m key :
  (forall c, mx_conn_map m !! key = Some c -> exists e, vc_expiry c = Some e /\ P e) ->
  swept P m (kill_connection m key).
Proof.
  intros Hk key'. destruct (kill_connection_core m key) as (->&_).
  destruct (mx_conn_map m !! key) as [c|] eqn:Ek; [|by left].
  destruct (decide (key' = key)) as [->|]; [|left; by rewrite lookup_insert_ne].
  right. destruct (Hk c eq_refl) as (e&?&?). exists c, e. by rewrite lookup_insert_eq.
Qed.

Lemma killq_pop_spec q now o q' :
  killq_pop q now = (o, q') ->
  killq_synced q' = killq_synced q /\
  match o with
  | Some key => exists t, killq_q q = mkKillItem key t :: killq_q q' /\ t < now
  | None => q' = q
  end.
Proof.
  unfold killq_pop. destruct (killq_q q) as [|[key t] l] eqn:E; [by intros [= <- <-]|].
  cbn [ki_time ki_key]. destruct (Z.ltb_spec t now); intros [= <- <-]; [|done].
  split; [done|]. by exists t.
Qed.

Lemma set_killq_ok m q :
  mx_ok m -> (length (killq_q q) <= MUXER_KILLQ_SIZE)%nat -> mx_ok (set_killq m q).
Proof. intros [] ?. by split. Qed.

Lemma sweep_pops_spec n m clock :
  mx_ok m -> n = length (killq_q (mx_killq m)) ->
  let '(m', clock') := sweep_pops n m clock in
  mx_ok m' /\ swept (passed clock) m m' /\ later clock clock' /\
  killq_synced (mx_killq m') = killq_synced (mx_killq m) /\
  (monotone clock -> killq_q (mx_killq m') = [] ->
   forall it, it ∈ killq_q (mx_killq m) -> ki_time it < clock' O).
Proof.
  revert m clock. induction n as [|n IH]; intros m clock Hok Hn; cbn [sweep_pops].
  { split; [done|]. split; [by apply swept_refl|]. split; [done|]. split; [done|].
    intros _ -> it Hit. by apply elem_of_nil in Hit. }
  destruct (killq_pop (mx_killq m) (clock O)) as [[key|] q] eqn:Ep;
    destruct (killq_pop_spec _ _ _ _ Ep) as [Hs Hq]; cycle 1.
  { split; [done|]. split; [by apply swept_refl|]. split; [by apply (later_shift clock 1)|].
    split; [done|]. intros _ Hnil. by rewrite Hnil in Hn. }
  destruct Hq as (t&Eq&Ht). rewrite Eq in Hn. injection Hn as Hn.
  assert (Hok1 : mx_ok (set_killq m q)).
  { apply set_killq_ok; [done|]. pose proof (mo_killq m Hok). rewrite Eq in *. cbn in *. lia. }
  set (m1 := if _ : bool then kill_connection (set_killq m q) key else set_killq m q).
  assert (H1' : mx_ok m1 /\ mx_killq m1 = q /\ swept (passed clock) m m1).
  { subst m1. cbn [mx_conn_map set_killq]. destruct (mx_conn_map m !! key) as [c|] eqn:Ek;
      [|by split_and!; try done; apply swept_refl].
    destruct (has_expired c (clock 1%nat)) eqn:Ee; [|by split_and!; try done; apply swept_refl].
    split; [by apply kill_connection_ok|]. split; [apply kill_connection_core|].
    apply (swept_trans _ _ (set_killq m q)); [by apply swept_refl|]. apply kill_connection_swept.
    cbn. intros c'. rewrite Ek. intros [= <-]. unfold has_expired in Ee.
    destruct (vc_expiry c) as [e|]; [|done]. exists e. split; [done|]. exists 1%nat. by zbool. }
  destruct H1' as (Hok2&Eq2&Hsw). rewrite <- Eq2 in Hn.
  specialize (IH m1 (fun i => clock (S (S i))) Hok2 Hn). clearbody m1.
  destruct (sweep_pops n m1 _) as [m' clock']. destruct IH as (Hok'&Hsw'&Hl&Hsy&Htime).
  assert (Hl2 : later clock (fun i => clock (S (S i)))) by apply (later_shift clock 2).
  split; [done|]. split.
  { eapply swept_trans; [exact Hsw|]. eapply swept_mono; [|exact Hsw']. intros e. by apply later_passed. }
  split; [by etrans|]. split; [by rewrite Hsy, Eq2|]. intros Hmono Hnil it.
  destruct (later_monotone _ _ Hmono Hl2) as [Hm2 _].
  rewrite Eq. intros [->|Hin]%elem_of_cons; [|apply Htime; [done|done|by rewrite Eq2]].
  cbn [ki_time]. destruct (later_monotone _ clock' Hmono ltac:(by etrans)) as [_ ?]. lia.
Qed.

(** ** Rebuilding the queue *)

Section rebuild.
Context (conn_iter : gmap ConnMapKey (VsockConnection W) -> list (ConnMapKey * VsockConnection W)).
Context (sort_by_kill_time : list MuxerKillQItem -> list MuxerKillQItem).
Hypothesis iter_spec : forall cm, conn_iter cm ≡ₚ map_to_list cm.
(** Sorting permutes. *)
Hypothesis sort_spec : forall q, sort_by_kill_time q ≡ₚ q.

Lemma killq_collect_spec (P : MuxerKillQItem -> Prop) l clock (q : list MuxerKillQItem) :
  (forall key c t i, (key, c) ∈ l -> vc_expiry c = Some t -> clock i < t -> P (mkKillItem key t)) ->
  Forall P q -> (length q <= MUXER_KILLQ_SIZE)%nat ->
  exists q', killq_collect sort_by_kill_time l clock q = Ret q' /\ Forall P (killq_q q') /\
    (length (killq_q q') <= MUXER_KILLQ_SIZE)%nat /\
    (killq_synced q' = false -> length (killq_q q') = MUXER_KILLQ_SIZE).
Proof.
  revert clock q. induction l as [|[key c] l IH]; intros clock q HP Hq Hlen; cbn [killq_collect].
  { eexists. split; [done|]. cbn [killq_q killq_synced].
    rewrite (Permutation_length (sort_spec q)). split; [by rewrite (sort_spec q)|done]. }
  assert (HP' : forall k c' t i, (k, c') ∈ l -> vc_expiry c' = Some t -> clock (S i) < t ->
    P (mkKillItem k t)) by (intros ? ? ? ? ?; eapply HP; by right).
  destruct (will_expire c (clock O)) eqn:Ew; cbn [negb]; [|by apply IH].
  destruct (Nat.leb_spec MUXER_KILLQ_SIZE (length q)).
  { eexists. split; [done|]. cbn [killq_q killq_synced]. rewrite (Permutation_length (sort_spec q)).
    split; [|lia]. by rewrite (sort_spec q). }
  unfold will_expire in Ew. destruct (vc_expiry c) as [t|] eqn:Et; [|done]. cbn [unwrap mbind outcome_bind].
  apply IH; [done| |rewrite length_app; cbn; lia]. apply Forall_app. split; [done|].
  apply Forall_singleton. zbool. eapply (HP key c t O); [by left|done|done].
Qed.

(** An item of a rebuilt queue: a connection that was still to expire. *)
Definition live_item m (t0 : Z) (it : MuxerKillQItem) : Prop :=
  exists c, mx_conn_map m !! ki_key it = Some c /\ vc_expiry c = Some (ki_time it) /\ t0 < ki_time it.

Lemma killq_rebuild m clock :
  mx_ok m -> monotone clock ->
  exists q, killq_from_conn_map conn_iter sort_by_kill_time (mx_conn_map m) clock = Ret q /\
    mx_ok (set_killq m q) /\
    (killq_synced q = false -> exists it, it ∈ killq_q q /\ live_item m (clock O) it).
Proof.
  intros Hok Hmono. unfold killq_from_conn_map.
  destruct (killq_collect_spec (live_item m (clock O)) (conn_iter (mx_conn_map m)) clock [])
    as (q&E&HP&Hlen&Hs); [|done|cbn; lia|].
  { intros key c t i Hin Ht Hlt. exists c. rewrite iter_spec in Hin.
    apply elem_of_map_to_list in Hin. split; [done|]. split; [done|].
    pose proof (Hmono O i ltac:(lia)). cbn. lia. }
  exists q. split; [done|]. split; [by apply set_killq_ok|]. intros Hsync. specialize (Hs Hsync).
  destruct (killq_q q) as [|it l]; [done|]. exists it. split; [by left|].
  by apply Forall_cons in HP as [? _].
Qed.

(** The connections still to expire at [t]. *)
Definition expiring (t : Z) (e : option Z) : bool := match e with Some x => t <? x | None => false end.
Definition to_expire m (t : Z) : nat :=
  size (filter (fun kv => expiring t kv.2 = true) (vc_expiry <$> mx_conn_map m)).

Lemma to_expire_lt m m' t t' it P :
  swept P m m' -> live_item m t it -> t <= t' -> ki_time it < t' -> (to_expire m' t' < to_expire m t)%nat.
Proof.
  intros Hs (c&Hk&He&Ht) Hle Hlt. unfold to_expire. rewrite (swept_expiry P m m' Hs).
  assert (Hin : (vc_expiry <$> mx_conn_map m) !! ki_key it = Some (Some (ki_time it))).
  { by rewrite lookup_fmap, Hk, <- He. }
  generalize dependent (vc_expiry <$> mx_conn_map m). intros em Hin.
  apply map_subset_size. apply map_subset_alt. split.
  - apply map_subseteq_spec. intros k e. rewrite !map_lookup_filter_Some. cbn. intros [? Hx].
    split; [done|]. destruct e as [x|]; [|done]. cbn in *. zbool. apply Z.ltb_lt. lia.
  - exists (ki_key it). rewrite map_lookup_filter_None. split.
    + right. intros x. rewrite Hin. intros [= <-]. cbn. rewrite not_true_iff_false. apply Z.ltb_ge. lia.
    + eexists. apply map_lookup_filter_Some. split; [exact Hin|]. cbn. by apply Z.ltb_lt.
Qed.

(** ** The sweep *)

(** One level of the recursion: it stops, or rebuilds the queue and goes on. *)
Lemma sweep_level fuel m clock :
  mx_ok m -> monotone clock ->
  (exists m', sweep_loop conn_iter sort_by_kill_time (S fuel) m clock = Ret m' /\ mx_ok m' /\
    swept (passed clock) m m') \/
  killq_synced (mx_killq m) = false /\
  exists m1 q clock1 clock2,
    sweep_loop conn_iter sort_by_kill_time (S fuel) m clock =
      sweep_loop conn_iter sort_by_kill_time fuel (set_killq m1 q) clock2 /\
    mx_ok (set_killq m1 q) /\ swept (passed clock) m m1 /\
    later clock clock1 /\ later clock1 clock2 /\
    (forall it, it ∈ killq_q (mx_killq m) -> ki_time it < clock1 O) /\
    (killq_synced q = false -> exists it, it ∈ killq_q q /\ live_item m1 (clock1 O) it).
Proof.
  intros Hok Hmono. cbn [sweep_loop].
  pose proof (sweep_pops_spec (length (killq_q (mx_killq m))) m clock Hok eq_refl) as Hp.
  destruct (sweep_pops _ m clock) as [m1 clock1]. destruct Hp as (Hok1&Hsw&Hl&Hsy&Htime).
  destruct (killq_is_empty (mx_killq m1) && negb (killq_synced (mx_killq m1))) eqn:Ee;
    [|left; by exists m1].
  right. apply andb_true_iff in Ee as [He Hns]. rewrite Hsy in Hns. apply negb_true_iff in Hns.
  apply Nat.eqb_eq, nil_length_inv in He. destruct (later_monotone _ _ Hmono Hl) as [Hm1 _].
  destruct (killq_rebuild m1 clock1 Hok1 Hm1) as (q&E&Hok2&Hlive). rewrite E.
  split; [done|]. eexists m1, q, clock1, _. split; [done|].
  split; [done|]. split; [done|]. split; [done|]. split; [|by auto].
  exists (length (conn_iter (mx_conn_map m1))). intros i. f_equal. lia.
Qed.

(** A synchronised queue is swept in one level. *)
Lemma sweep_synced fuel m clock :
  mx_ok m -> monotone clock -> killq_synced (mx_killq m) = true ->
  exists m', sweep_loop conn_iter sort_by_kill_time (S fuel) m clock = Ret m' /\ mx_ok m' /\
    swept (passed clock) m m'.
Proof.
  intros Hok Hmono Hs. destruct (sweep_level fuel m clock Hok Hmono) as [?|[? _]]; [done|congruence].
Qed.

(** What follows a level: the connections killed add up. *)
Lemma sweep_then fuel m m1 q clock clock' :
  swept (passed clock) m m1 -> later clock clock' ->
  (exists m', sweep_loop conn_iter sort_by_kill_time fuel (set_killq m1 q) clock' = Ret m' /\ mx_ok m' /\
    swept (passed clock') (set_killq m1 q) m') ->
  exists m', sweep_loop conn_iter sort_by_kill_time fuel (set_killq m1 q) clock' = Ret m' /\ mx_ok m' /\
    swept (passed clock) m m'.
Proof.
  intros Hsw Hl (m'&E&Hok'&Hsw'). exists m'. split; [done|]. split; [done|].
  eapply swept_trans; [exact Hsw|]. eapply swept_mono; [|exact Hsw'].
  intros e. by apply later_passed.
Qed.

(** A queue with a live item needs as many levels as connections are still to
    expire, and one more. *)
Lemma sweep_live fuel m clock t it :
  mx_ok m -> monotone clock -> t <= clock O -> it ∈ killq_q (mx_killq m) -> live_item m t it ->
  (to_expire m t < fuel)%nat ->
  exists m', sweep_loop conn_iter sort_by_kill_time fuel m clock = Ret m' /\ mx_ok m' /\
    swept (passed clock) m m'.
Proof.
  revert m clock t it. induction fuel as [|fuel IH]; [lia|].
  intros m clock t it Hok Hmono Ht Hit Hlive Hfuel.
  destruct (sweep_level fuel m clock Hok Hmono)
    as [?|(_&m1&q&clock1&clock2&->&Hok1&Hsw&Hl1&Hl2&Htime&Hq)]; [done|].
  destruct (later_monotone _ _ Hmono Hl1) as [Hm1 ?]. destruct (later_monotone _ _ Hm1 Hl2) as [Hm2 ?].
  pose proof (to_expire_lt m m1 t (clock1 O) it _ Hsw Hlive ltac:(lia) (Htime it Hit)) as Hlt.
  apply (sweep_then _ _ _ _ clock); [done|by etrans|].
  destruct (killq_synced q) eqn:Es.
  - destruct fuel; [lia|]. by apply sweep_synced.
  - destruct (Hq eq_refl) as (it'&Hit'&Hlive'). apply (IH _ _ (clock1 O) it'); try done.
    change (to_expire (set_killq m1 q) (clock1 O)) with (to_expire m1 (clock1 O)). lia.
Qed.

Lemma to_expire_size m t : (to_expire m t <= size (mx_conn_map m))%nat.
Proof.
  unfold to_expire. rewrite <- (map_size_fmap vc_expiry (mx_conn_map m)).
  apply map_subseteq_size, map_filter_subseteq.
Qed.

Lemma sweep_killq_ok m clock :
  mx_ok m -> monotone clock ->
  exists m', sweep_killq conn_iter sort_by_kill_time m clock = Ret m' /\ mx_ok m' /\
    swept (passed clock) m m'.
Proof.
  intros Hok Hmono. unfold sweep_killq. change (2 + ?n)%nat with (S (1 + n)).
  destruct (sweep_level (1 + size (mx_conn_map m)) m clock Hok Hmono)
    as [?|(_&m1&q&clock1&clock2&->&Hok1&Hsw&Hl1&Hl2&Htime&Hq)]; [done|].
  destruct (later_monotone _ _ Hmono Hl1) as [Hm1 ?]. destruct (later_monotone _ _ Hm1 Hl2) as [Hm2 ?].
  apply (sweep_then _ _ _ _ clock); [done|by etrans|].
  destruct (killq_synced q) eqn:Es; [by apply sweep_synced|].
  destruct (Hq eq_refl) as (it'&Hit'&Hlive'). apply (sweep_live _ _ _ (clock1 O) it'); try done.
  pose proof (to_expire_size m1 (clock1 O)) as Hle.
  assert (size (mx_conn_map m1) = size (mx_conn_map m)) as Hsize.
  { rewrite <- (map_size_fmap vc_expiry), (swept_expiry _ _ _ Hsw). apply map_size_fmap. }
  change (to_expire (set_killq m1 q) (clock1 O)) with (to_expire m1 (clock1 O)). lia.
Qed.
End rebuild.
End sweep.

(** * The operations of the vsock muxer keep its invariant

    Port allocation, new connections, packets from the guest and events. *)

(** ** Local ports *)

Definition next_port (last : Z) : Z :=
  Z.lor (Z.land (last + 1) (unot u32_max (Z.shiftl 1 31))) (Z.shiftl 1 30).

(** The ports given out are 2^30 to 2^31 - 1, in a circle. *)
Lemma next_port_eq last :
  2 ^ 30 - 1 <= last < 2 ^ 31 -> next_port last = 2 ^ 30 + (last + 1) mod 2 ^ 30.
Proof.
  intros Hl. unfold next_port. change (unot u32_max (Z.shiftl 1 31)) with (Z.ones 31).
  rewrite Z.land_ones by lia. change (Z.shiftl 1 30) with (2 ^ 30).
  destruct (Z.eq_dec last (2 ^ 31 - 1)) as [->|]; [reflexivity|].
  rewrite (Z.mod_small (last + 1) (2 ^ 31)) by lia.
  replace (last + 1) with (2 ^ 30 + (last + 1 - 2 ^ 30)) by lia.
  remember (last + 1 - 2 ^ 30) as x. rewrite <- Z.add_mod_idemp_l, Z.mod_same, Z.add_0_l by lia.
  rewrite Z.mod_small by lia.
  assert (Hd : Z.land (2 ^ 30) x = 0).
  { apply Z.bits_inj'. intros i Hi. rewrite Z.land_spec, Z.pow2_bits_eqb, Z.bits_0 by lia.
    destruct (Z.eqb_spec 30 i) as [<-|]; [|done]. by rewrite (testbit_high x 30) by lia. }
  rewrite <- (Z.add_lor_land (2 ^ 30) x), Hd, Z.add_0_r.
  by rewrite Z.lor_comm, Z.lor_assoc, Z.lor_diag.
Qed.

Lemma next_port_range last : 2 ^ 30 - 1 <= last < 2 ^ 31 -> 2 ^ 30 <= next_port last < 2 ^ 31.
Proof.
  intros Hl. rewrite next_port_eq by done. pose proof (Z.mod_pos_bound (last + 1) (2 ^ 30)). lia.
Qed.

(** The [i]-th port that the loop tries. *)
Definition port_at (last : Z) (i : nat) : Z := 2 ^ 30 + (last + 1 + Z.of_nat i) mod 2 ^ 30.

Lemma port_at_next last i :
  2 ^ 30 - 1 <= last < 2 ^ 31 -> port_at (next_port last) i = port_at last (S i).
Proof.
  intros Hl. unfold port_at. rewrite next_port_eq by done. f_equal.
  replace (2 ^ 30 + (last + 1) mod 2 ^ 30 + 1 + Z.of_nat i)
    with ((last + 1) mod 2 ^ 30 + (1 + Z.of_nat i) + 1 * 2 ^ 30) by lia.
  rewrite Z.mod_add, Z.add_mod_idemp_l by lia. f_equal. lia.
Qed.

Lemma port_loop_spec fuel last (used : gset Z) :
  2 ^ 30 - 1 <= last < 2 ^ 31 ->
  match port_loop fuel last used with
  | Ret port => 2 ^ 30 <= port < 2 ^ 31 /\ port ∉ used
  | Panic => forall i, (i < fuel)%nat -> port_at last i ∈ used
  end.
Proof.
  revert last. induction fuel as [|fuel IH]; intros last Hl; cbn [port_loop]; [lia|].
  rewrite uadd_Ret by ulia. cbn [mbind outcome_bind]. fold (next_port last).
  pose proof (next_port_range last Hl) as Hn. destruct (decide (next_port last ∈ used)) as [Hin|]; [|done].
  specialize (IH (next_port last) ltac:(lia)). destruct (port_loop fuel _ used); [done|].
  intros [|i] Hi; [|rewrite <- port_at_next by done; apply IH; lia].
  unfold port_at. rewrite Z.add_0_r. by rewrite next_port_eq in Hin.
Qed.

Lemma port_at_inj last (n : nat) :
  Z.of_nat n <= 2 ^ 30 -> NoDup (port_at last <$> seq 0 n).
Proof.
  intros Hn. apply NoDup_fmap_2_strong; [|apply NoDup_seq].
  intros i j Hi%elem_of_seq Hj%elem_of_seq. unfold port_at. intros E.
  assert ((last + 1 + Z.of_nat i) mod 2 ^ 30 = (last + 1 + Z.of_nat j) mod 2 ^ 30) as E' by lia.
  apply Z.cong_iff_0 in E'. replace (_ - _) with (Z.of_nat i - Z.of_nat j) in E' by lia.
  apply Z.mod_divide in E' as [k Hk]; [|lia]. nia.
Qed.

Lemma port_loop_Ret last (used : gset Z) :
  2 ^ 30 - 1 <= last < 2 ^ 31 -> Z.of_nat (size used) < 2 ^ 30 ->
  exists port, port_loop (S (size used)) last used = Ret port /\ 2 ^ 30 <= port < 2 ^ 31 /\ port ∉ used.
Proof.
  intros Hl Hsize. pose proof (port_loop_spec (S (size used)) last used Hl) as Hp.
  destruct (port_loop _ last used) as [port|]; [by exists port|]. exfalso.
  assert (Hnd : NoDup (port_at last <$> seq 0 (S (size used)))) by (apply port_at_inj; lia).
  assert (Hsub : list_to_set (C := gset Z) (port_at last <$> seq 0 (S (size used))) ⊆ used).
  { intros x. rewrite elem_of_list_to_set, list_elem_of_fmap. intros (i&->&Hi%elem_of_seq).
    apply Hp. lia. }
  apply subseteq_size in Hsub. rewrite size_list_to_set, length_fmap, length_seq in Hsub by done. lia.
Qed.

Section ops.
Context {W B : Type} `{VsockStreamLaws W} `{VsockBackend B W}.
Implicit Types (m : VsockMuxer W B) (c : VsockConnection W).

Lemma allocate_local_port_ok m port m' :
  mx_ok m -> allocate_local_port m = Ret (port, m') -> mx_ok m'.
Proof.
  intros [] (p&E&E2)%outcome_bind_Ret. injection E2 as <- <-.
  pose proof (port_loop_spec (S (size (mx_local_port_set m))) _ (mx_local_port_set m) mo_last) as Hp.
  rewrite E in Hp. split; try done. cbn. lia.
Qed.

(** ** Connections *)

Context (conn_iter : gmap ConnMapKey (VsockConnection W) -> list (ConnMapKey * VsockConnection W)).
Context (sort_by_kill_time : list MuxerKillQItem -> list MuxerKillQItem).
Hypothesis iter_spec : forall cm, conn_iter cm ≡ₚ map_to_list cm.
Hypothesis sort_spec : forall q, sort_by_kill_time q ≡ₚ q.

Lemma push_rx_ok m rx : mx_ok m -> mx_ok (push_rx m rx).
Proof. intros []. split; cbn; auto using sync_push, rxq_push_ok. Qed.

(** A connection is added after a sweep, when there is room and its descriptor
    can be watched. *)
Lemma add_connection_ok m key c clock ctl :
  mx_ok m -> monotone clock -> conn_wf c -> key_ok key c -> conn_has_pending_rx c = true ->
  exists r m' m1, add_connection conn_iter sort_by_kill_time m key c clock ctl = Ret (r, m') /\ mx_ok m' /\
    swept (passed clock) m m1 /\
    match r with
    | Ok _ => mx_conn_map m' = <[key := c]> (mx_conn_map m1)
    | Err _ => mx_conn_map m' = mx_conn_map m1
    end.
Proof.
  intros Hok Hmono Hwf Hkey Hp. unfold add_connection.
  destruct (sweep_killq_ok conn_iter sort_by_kill_time iter_spec sort_spec m clock Hok Hmono)
    as (m1&->&Hok1&Hsw).
  cbn [mbind outcome_bind]. destruct (Nat.leb_spec MAX_CONNECTIONS (size (mx_conn_map m1))).
  { by eexists _, _, m1. }
  unfold add_listener. destruct ctl; [|by eexists _, _, m1]. rewrite Hp.
  eexists _, _, m1. split; [done|]. split; [|done]. destruct Hok1. split; cbn; auto.
  - by apply conns_ok_insert.
  - by apply sync_pushed.
  - by apply rxq_push_ok.
  - rewrite map_size_insert. destruct (_ !! _); cbn; lia.
Qed.

Lemma new_peer_init_wf (w : W) lc pc lp pp alloc keep :
  in_u32 alloc -> conn_wf (new_peer_init w lc pc lp pp alloc keep).
Proof. intros Ha. split; [|done]. split; cbn; try done; try ulia; apply tx_default_ok. Qed.

Lemma new_local_init_wf (w : W) lc pc lp pp keep : conn_wf (new_local_init w lc pc lp pp keep).
Proof. split; [|done]. split; cbn; try done; try ulia; apply tx_default_ok. Qed.

(** From [m] to [m'] only the connection [key] changed, apart from connections
    that were killed because their time had passed. *)
Definition affects_only (clock : nat -> Z) (key : ConnMapKey) m m' : Prop :=
  forall key', key' <> key ->
    mx_conn_map m' !! key' = mx_conn_map m !! key' \/
    exists c e, mx_conn_map m !! key' = Some c /\ mx_conn_map m' !! key' = Some (kill c) /\
      vc_expiry c = Some e /\ passed clock e.

Lemma affects_refl clock key m m' : mx_conn_map m' = mx_conn_map m -> affects_only clock key m m'.
Proof. intros E key' _. left. by rewrite E. Qed.

Lemma enq_rst_ok m lp pp : mx_ok m -> mx_ok (enq_rst m lp pp).
Proof. apply push_rx_ok. Qed.

Lemma handle_peer_request_ok m p clock ctl :
  mx_ok m -> monotone clock -> pkt_ok p ->
  exists m', handle_peer_request_pkt conn_iter sort_by_kill_time m p clock ctl = Ret m' /\ mx_ok m' /\
    affects_only clock (mkKey (dst_port p) (src_port p)) m m'.
Proof.
  intros Hok Hmono Hp. unfold handle_peer_request_pkt.
  assert (Hrst : exists m', Ret (enq_rst m (dst_port p) (src_port p)) = Ret m' /\ mx_ok m' /\
    affects_only clock (mkKey (dst_port p) (src_port p)) m m').
  { eexists. split; [done|]. split; [by apply enq_rst_ok|by apply affects_refl]. }
  destruct (mx_peer_backend m) as [bt|]; [|done].
  destruct (mx_backend_map m !! bt) as [b|]; [|done].
  destruct (backend_connect b (dst_port p)) as [w|e]; cbn [mbind outcome_bind]; [|done].
  destruct (add_connection_ok m (mkKey (dst_port p) (src_port p))
    (new_peer_init w VSOCK_HOST_CID (mx_cid m) (dst_port p) (src_port p) (buf_alloc p) false) clock ctl)
    as (r&m'&m1&->&Hok'&Hsw&Hcm); try done; [apply new_peer_init_wf, Hp|].
  cbn [mbind outcome_bind]. eexists. split; [done|].
  split; [destruct r; [done|by apply enq_rst_ok]|]. intros key' Hne.
  destruct r; cbn; rewrite Hcm, ?lookup_insert_ne by done; apply Hsw.
Qed.

(** Changing the state of a connection. *)
Lemma set_conn_state_ok m key c s :
  mx_ok m -> mx_conn_map m !! key = Some c -> s <> LocalInit ->
  mx_ok (set_conn_map m (<[key := set_state c s]> (mx_conn_map m))).
Proof.
  intros Hok Hk Hs. destruct (mo_conns m Hok key c Hk) as [[Hc Hli] Hkey].
  apply (mx_ok_update m _ key c (set_state c s) true); try done; [|apply Hok].
  split; [by apply set_state_ok|done].
Qed.

Lemma revive_ok m key c ctl :
  mx_ok m -> mx_conn_map m !! key = Some c ->
  mx_ok (revive m key c ctl) /\
  forall key', key' <> key -> mx_conn_map (revive m key c ctl) !! key' = mx_conn_map m !! key'.
Proof.
  intros Hok Hk. unfold revive. destruct (_ && _); [|done].
  set (m1 := set_conn_map m _).
  assert (Hok1 : mx_ok m1) by (by apply set_conn_state_ok).
  unfold add_listener. destruct ctl.
  - split; [by apply (mx_ok_core m1)|]. intros key' Hne. cbn. by rewrite lookup_insert_ne.
  - split; [by apply kill_connection_ok|]. intros key' Hne.
    destruct (kill_connection_core m1 key) as (->&_). cbn. rewrite lookup_insert_eq.
    by rewrite !lookup_insert_ne.
Qed.

Lemma remove_connection_other m key key' :
  key' <> key -> mx_conn_map (remove_connection m key) !! key' = mx_conn_map m !! key'.
Proof.
  intros Hne. unfold remove_connection. destruct (mx_conn_map m !! key); cbn; [|done].
  by rewrite lookup_delete_ne.
Qed.

Lemma muxer_send_ok m p clock ctl :
  mx_ok m -> monotone clock -> pkt_ok p ->
  exists m', muxer_send_pkt conn_iter sort_by_kill_time m p clock ctl = Ret m' /\ mx_ok m' /\
    affects_only clock (mkKey (dst_port p) (src_port p)) m m'.
Proof.
  intros Hok Hmono Hp. unfold muxer_send_pkt.
  assert (Hrst : exists m', Ret (enq_rst m (dst_port p) (src_port p)) = Ret m' /\ mx_ok m' /\
    affects_only clock (mkKey (dst_port p) (src_port p)) m m').
  { eexists. split; [done|]. split; [by apply enq_rst_ok|by apply affects_refl]. }
  destruct (type_ p =? VSOCK_TYPE_STREAM); cbn [negb]; [|done].
  destruct (dst_cid p =? VSOCK_HOST_CID); cbn [negb]; [|by exists m; split_and!; [| |apply affects_refl]].
  destruct (mx_conn_map m !! _) as [c|] eqn:Ek; cycle 1.
  { destruct (op p =? VSOCK_OP_REQUEST); [by apply handle_peer_request_ok|done]. }
  destruct (op p =? VSOCK_OP_RST).
  { eexists; split; [done|]. split; [by apply remove_connection_ok|].
    intros key' Hne. left. by apply remove_connection_other. }
  destruct (revive_ok m _ c (ctl O) Hok Ek) as [Hok1 Ho1].
  destruct (apply_ok (revive m (mkKey (dst_port p) (src_port p)) c (ctl O))
    (mkKey (dst_port p) (src_port p)) _ (fun i => clock (2 * i)%nat) (ctl 1%nat) Hok1
    (conn_send_keeps p (clock 1%nat) Hp)) as (o&m'&->&Hok'&Ho2).
  exists m'. split; [done|]. split; [done|]. intros key' Hne. left. by rewrite Ho2, Ho1.
Qed.

(** ** Events *)

Context (hybrid_stream : Z -> W -> result MuxerError W).

Lemma set_listener_ok m l : mx_ok m -> mx_ok (set_listener_map m l).
Proof. by apply mx_ok_core. Qed.

Lemma add_listener_ok m fd l ctl : mx_ok m -> mx_ok (add_listener m fd l ctl).2.
Proof. apply mx_ok_core, add_listener_core. Qed.

(** A connection initiated by the host, on a port that was allocated for it. *)
Lemma add_local_ok m w cid port peer keep clock ctl r m' :
  mx_ok m -> monotone clock ->
  add_connection conn_iter sort_by_kill_time m (mkKey port peer)
    (new_local_init w VSOCK_HOST_CID cid port peer keep) clock ctl = Ret (r, m') -> mx_ok m'.
Proof.
  intros Hok Hmono E.
  destruct (add_connection_ok m (mkKey port peer) (new_local_init w VSOCK_HOST_CID cid port peer keep)
    clock ctl Hok Hmono (new_local_init_wf _ _ _ _ _ _)) as (?&?&m1&E'&Hok'&_); [done|done|].
  rewrite E in E'. by injection E' as <- <-.
Qed.

Lemma handle_event_ok m fd ev tries clock ctl m' :
  mx_ok m -> monotone clock ->
  handle_event conn_iter sort_by_kill_time hybrid_stream m fd ev tries clock ctl = Ret m' -> mx_ok m'.
Proof.
  intros Hok Hmono. unfold handle_event.
  destruct (mx_listener_map m !! fd) as [[key evs bt|bt|w|w]|] eqn:El; [| | | |by intros [= <-]].
  - match goal with |- context [apply_conn_mutation ?x] => set (m1 := x) end.
    assert (Hok1 : mx_ok m1).
    { subst m1. destruct (mx_conn_map m !! key) as [c|] eqn:Ek; [|done].
      destruct (_ && _); [|done]. by apply set_listener_ok, set_conn_state_ok. }
    clearbody m1. destruct (apply_ok m1 key _ clock ctl Hok1 (conn_notify_keeps ev)) as (o&m2&->&Hok2&_).
    by intros [= <-].
  - destruct (mx_backend_map m !! bt); [|by intros [= <-]]. destruct (backend_accept _) as [r b'].
    assert (mx_ok (set_backend_map m (<[bt := b']> (mx_backend_map m)))) by (by apply (mx_ok_core m)).
    destruct (_ =? _)%nat; [by intros [= <-]|].
    destruct r; intros [= <-]; [by apply add_listener_ok|done].
  - unfold remove_listener. rewrite El. intros ([r w']&_&E)%outcome_bind_Ret.
    pose proof (set_listener_ok m (delete fd (mx_listener_map m)) Hok) as Hok1.
    destruct r as [[|peer]|]; [injection E as <-; by apply add_listener_ok| |by injection E as <-].
    apply outcome_bind_Ret in E as ([port m2]&Ea&E). apply allocate_local_port_ok in Ea; [|done].
    apply outcome_bind_Ret in E as ([r m3]&Ec&E). injection E as <-. exact (add_local_ok _ _ _ _ _ _ _ _ _ _ Ea Hmono Ec).
  - unfold remove_listener. rewrite El.
    pose proof (set_listener_ok m (delete fd (mx_listener_map m)) Hok) as Hok1.
    destruct (passfd_read_port_and_fd w) as [[[nfd peer] keep]|]; [|by intros [= <-]].
    intros ([port m2]&Ea&E)%outcome_bind_Ret. apply allocate_local_port_ok in Ea; [|done].
    destruct (hybrid_stream nfd w); [|by injection E as <-].
    apply outcome_bind_Ret in E as ([r m3]&Ec&E). injection E as <-. exact (add_local_ok _ _ _ _ _ _ _ _ _ _ Ea Hmono Ec).
Qed.

Lemma muxer_notify_ok m events tries clock ctl m' :
  mx_ok m -> (forall i, monotone (clock i)) ->
  muxer_notify conn_iter sort_by_kill_time hybrid_stream m events tries clock ctl = Ret m' -> mx_ok m'.
Proof.
  revert m clock ctl. induction events as [|[fd ev] events IH]; intros m clock ctl Hok Hmono; cbn [muxer_notify].
  - by intros [= <-].
  - intros (m1&E1&E)%outcome_bind_Ret. exact (IH m1 _ _ (handle_event_ok _ _ _ _ _ _ _ Hok (Hmono O) E1) (fun i => Hmono (S i)) E).
Qed.

Lemma new_ok_mx cid m : VsockMuxer_new cid true = Some m -> mx_ok m.
Proof.
  intros [= <-]. split; cbn [mx_conn_map mx_rxq mx_killq mx_local_port_last].
  - apply map_Forall_empty.
  - intros _ key c Hk. by rewrite lookup_empty in Hk.
  - unfold rxq_ok. cbn. lia.
  - cbn. lia.
  - rewrite map_size_empty. lia.
  - change (Z.shiftl 1 30) with (2 ^ 30). lia.
Qed.

Lemma add_backend_core m b peer ctl : same_core m (add_backend m b peer ctl).2.
Proof.
  unfold add_backend. destruct (mx_backend_map m !! _); [done|].
  unfold add_listener. destruct ctl; [|done]. by destruct peer.
Qed.
End ops.
