(* ===== verification/VsockPortProps.v ===== *)
(** * The connect request of a host process

    A request line that a host process prints is read back: the port is parsed
    from the decimal numeral, and exactly the line is taken from the stream. *)
From stdpp Require Import pretty.
From S2P Require Import Prelude VsockTxBuf VsockConn VsockPort VsockMuxer VsockDemo.

Definition digit (c : Z) : Prop := 48 <= c <= 57.

Lemma codes_String a s : codes (String.String a s) = Z.of_nat (Ascii.nat_of_ascii a) :: codes s.
Proof. done. Qed.

Lemma codes_app s1 s2 : codes (String.append s1 s2) = codes s1 ++ codes s2.
Proof.
  induction s1 as [|a s1 IH]; [done|].
  change (codes (String.String a s1)) with (Z.of_nat (Ascii.nat_of_ascii a) :: codes s1).
  cbn [app]. by rewrite <- IH.
Qed.

Lemma digit_code (d : N) : (d < 10)%N -> Z.of_nat (Ascii.nat_of_ascii (pretty_N_char d)) = 48 + Z.of_N d.
Proof.
  intros Hd. assert (d = 0 \/ d = 1 \/ d = 2 \/ d = 3 \/ d = 4 \/ d = 5 \/ d = 6 \/ d = 7 \/ d = 8 \/ d = 9)%N as Hc
    by lia.
  by repeat destruct Hc as [->|Hc]; [..|subst d].
Qed.

(** The digits of a number, before those of [s]. *)
Lemma pretty_go_digits x s : Forall digit (codes s) -> Forall digit (codes (pretty_N_go x s)).
Proof.
  revert s. induction (N.lt_wf_0 x) as [x _ IH]. intros s Hs.
  destruct (decide (x = 0)%N) as [->|Hx]; [by rewrite pretty_N_go_0|].
  rewrite pretty_N_go_step by lia. pose proof (N.mod_lt x 10 ltac:(lia)).
  apply IH; [apply N.div_lt; lia|]. rewrite codes_String. apply Forall_cons. split; [|done].
  rewrite digit_code by done. unfold digit. generalize dependent (x mod 10)%N. intros. lia.
Qed.

Lemma pretty_go_parse x s :
  Z.of_N x <= u32_max -> parse_digits 0 (codes (pretty_N_go x s)) = parse_digits (Z.of_N x) (codes s).
Proof.
  revert s. induction (N.lt_wf_0 x) as [x _ IH]. intros s Hx.
  destruct (decide (x = 0)%N) as [->|Hne]; [by rewrite pretty_N_go_0|].
  rewrite pretty_N_go_step by lia. pose proof (N.mod_lt x 10 ltac:(lia)) as Hm.
  pose proof (N.div_mod x 10 ltac:(lia)) as Hd. pose proof (N.div_lt x 10 ltac:(lia) ltac:(lia)) as Hlt.
  rewrite IH by lia. rewrite codes_String, digit_code by done. cbn [parse_digits]. unfold between.
  generalize dependent (x mod 10)%N. generalize dependent (x / 10)%N. intros y Hlt d Hm Hd.
  rewrite !(proj2 (Z.leb_le _ _)) by lia. cbn [andb].
  by replace (Z.of_N y * 10 + (48 + Z.of_N d - 48)) with (Z.of_N x) by lia.
Qed.

Lemma pretty_go_length k x s :
  (Z.of_N x < 10 ^ Z.of_nat k) -> (length (codes (pretty_N_go x s)) <= k + length (codes s))%nat.
Proof.
  revert x s. induction k as [|k IH]; intros x s Hx.
  { assert (x = 0%N) as -> by (cbn in Hx; lia). by rewrite pretty_N_go_0. }
  destruct (decide (x = 0)%N) as [->|Hne]; [rewrite pretty_N_go_0; lia|].
  rewrite pretty_N_go_step by lia. etrans; [apply IH|rewrite codes_String; cbn; lia].
  rewrite Nat2Z.inj_succ, Z.pow_succ_r in Hx by lia. pose proof (N.Div0.mul_div_le x 10). lia.
Qed.

Lemma pretty_go_nonempty x s : (0 < x)%N -> codes (pretty_N_go x s) <> [].
Proof.
  revert s. induction (N.lt_wf_0 x) as [x _ IH]. intros s Hx. rewrite pretty_N_go_step by lia.
  destruct (decide (x / 10 = 0)%N) as [->|]; [by rewrite pretty_N_go_0|].
  apply IH; [apply N.div_lt; lia|by apply N.neq_0_lt_0].
Qed.

(** The numeral of a 32-bit port. *)
Lemma port_numeral port :
  in_u32 port ->
  Forall digit (codes (pretty (Z.to_N port))) /\ parse_u32 (codes (pretty (Z.to_N port))) = Some port /\
  (length (codes (pretty (Z.to_N port))) <= 10)%nat /\ codes (pretty (Z.to_N port)) <> [].
Proof.
  intros Hp. destruct (decide (port = 0)) as [->|Hne].
  { change (codes (pretty (Z.to_N 0))) with [48]. split_and!; [|reflexivity|cbn; lia|done].
    by repeat constructor. }
  assert (pretty (Z.to_N port) = pretty_N_go (Z.to_N port) "") as ->.
  { unfold pretty, pretty_N. rewrite decide_False by ulia. done. }
  assert (Hx : Z.of_N (Z.to_N port) = port) by (rewrite Z2N.id; ulia).
  pose proof (pretty_go_digits (Z.to_N port) "" ltac:(constructor)) as Hd.
  pose proof (pretty_go_nonempty (Z.to_N port) "" ltac:(ulia)) as Hn.
  split; [done|]. split; [|split; [|done]].
  - pose proof (pretty_go_parse (Z.to_N port) "" ltac:(rewrite Hx; apply Hp)) as Hparse.
    rewrite Hx in Hparse. unfold parse_u32. destruct (codes _) as [|c l]; [done|].
    apply Forall_cons in Hd as [Hc _]. unfold digit in Hc. destruct (Z.eqb_spec c 43); [lia|]. exact Hparse.
  - etrans; [apply (pretty_go_length 10)|cbn; lia]. rewrite Hx. cbn. ulia.
Qed.

(** ** Splitting and reading *)

Lemma from_utf8_ascii l : Forall (fun c => 0 <= c <= 127) l -> from_utf8 l = Some l.
Proof.
  induction 1 as [|c l Hc _ IH]; [done|]. cbn [from_utf8]. unfold between.
  rewrite !(proj2 (Z.leb_le _ _)) by lia. cbn [andb]. by rewrite IH.
Qed.

Lemma split_words_word w l c rest :
  Forall (fun x => is_whitespace x = false) l -> is_whitespace c = true -> w ++ l <> [] ->
  split_words w (l ++ c :: rest) = (w ++ l) :: split_words [] rest.
Proof.
  intros Hl Hc. revert w. induction Hl as [|x l Hx _ IH]; intros w Hne; cbn [app split_words].
  - rewrite Hc. rewrite app_nil_r in *. by destruct w.
  - rewrite Hx. rewrite IH; rewrite <- app_assoc; done.
Qed.

Lemma digit_not_space c : digit c -> is_whitespace c = false.
Proof.
  intros Hc. unfold digit in Hc. unfold is_whitespace, between.
  repeat (apply orb_false_iff; split); lia.
Qed.

Section reading.
Context {W : Type} `{VsockStream W}.

(** [w] yields the bytes [l] one by one and is then [w']. *)
Inductive serves : W -> list Z -> W -> Prop :=
| serves_nil w : serves w [] w
| serves_byte w b l w1 w2 : stream_read w 1 = (Ok [b], w1) -> serves w1 l w2 -> serves w (b :: l) w2.

(** A line is read to its end, and no further. *)
Lemma read_line_serves n tries buf l w w' :
  (0 < tries)%nat -> (length l < n)%nat -> last buf <> Some 10 -> Forall (fun c => c <> 10) l ->
  serves w (l ++ [10]) w' ->
  read_line n tries buf w = Ret (Ok (buf ++ l ++ 10 :: replicate (n - S (length l)) 0), w').
Proof.
  intros Ht Hn Hlast Hl. revert n buf w Hn Hlast.
  induction Hl as [|c l Hc _ IH]; intros n buf w Hn Hlast Hs;
    inversion Hs as [|? ? ? w1 ? Hr Hs']; subst; (destruct n as [|n]; [lia|]); cbn [read_line];
    rewrite bool_decide_eq_false_2 by done; (destruct tries as [|tries]; [lia|]); cbn [read_byte];
    rewrite Hr; cbn [mbind outcome_bind].
  - inversion Hs'; subst. cbn [length app]. rewrite Nat.sub_succ, Nat.sub_0_r.
    destruct n as [|n]; cbn [read_line]; [done|].
    rewrite bool_decide_eq_true_2 by apply last_snoc. by rewrite <- app_assoc.
  - cbn [length] in Hn. rewrite (IH n (buf ++ [c]) w1); [by rewrite <- app_assoc|lia| |done].
    rewrite last_snoc. congruence.
Qed.
End reading.

(** The connect request round-trips: when a host stream delivers the line that a host
    process prints for any 32-bit port, the muxer reads exactly that line and recognises
    a request to connect to that port. *)
Theorem connect_request_roundtrip {W} `{VsockStream W} (tries : nat) (port : Z) (w w1 w2 : W) :
  (0 < tries)%nat -> in_u32 port ->
  stream_read w MIN_READ_LEN = (Ok (codes "connect"), w1) ->
  serves w1 (codes " " ++ codes (pretty (Z.to_N port)) ++ [10]) w2 ->
  read_local_stream_port tries w = Ret (Ok (Connect port), w2).
Proof.
  intros Ht Hp Hr Hs. destruct (port_numeral port Hp) as (Hd&Hparse&Hlen&Hne).
  generalize dependent (codes (pretty (Z.to_N port))). intros num Hs Hd Hparse Hlen Hne.
  unfold read_local_stream_port. rewrite Hr.
  change (codes "connect" ++ replicate (MIN_READ_LEN - length (codes "connect")) 0) with (codes "connect").
  rewrite (read_line_serves _ tries (codes "connect") (32 :: num) w1 w2 Ht); cycle 1.
  { cbn. lia. }
  { done. }
  { apply Forall_cons. split; [done|]. eapply Forall_impl; [exact Hd|]. unfold digit. lia. }
  { exact Hs. }
  cbn [mbind outcome_bind]. do 3 f_equal. unfold parse_request. rewrite from_utf8_ascii; cycle 1.
  { apply Forall_app; split; [by repeat constructor|]. cbn [app]. apply Forall_cons; split; [lia|].
    apply Forall_app; split; [eapply Forall_impl; [exact Hd|]; unfold digit; lia|].
    apply Forall_cons; split; [lia|]. apply Forall_replicate. lia. }
  unfold split_whitespace. cbn [app].
  rewrite (split_words_word [] (codes "connect") 32); [|by repeat constructor|done|done].
  rewrite (split_words_word [] num 10); [|eapply Forall_impl; [exact Hd|apply digit_not_space]|done|done].
  cbn [app]. change (lowercase_is (codes "connect") "connect") with true. cbn match. by rewrite Hparse.
Qed.

(** ** A request that arrives in pieces *)

Lemma from_utf8_ascii_app l rest s :
  Forall (fun c => 0 <= c <= 127) l -> from_utf8 (l ++ rest) = Some s -> exists s', s = l ++ s'.
Proof.
  intros Hl. revert s. induction Hl as [|c l Hc _ IH]; intros s; [by exists s|].
  cbn [app from_utf8]. unfold between. rewrite !(proj2 (Z.leb_le _ _)) by lia. cbn [andb].
  destruct (from_utf8 (l ++ rest)) as [s'|]; [|done]. intros [= <-]. destruct (IH s' eq_refl) as [s'' ->].
  by exists s''.
Qed.

Lemma split_words_cons w l : w <> [] -> exists tl ws, split_words w l = (w ++ tl) :: ws.
Proof.
  revert w. induction l as [|c l IH]; intros w Hw; cbn [split_words].
  - exists [], []. rewrite app_nil_r. by destruct w.
  - destruct (is_whitespace c).
    + exists [], (split_words [] l). rewrite app_nil_r. by destruct w.
    + destruct (IH (w ++ [c])) as (tl&ws&->); [by destruct w|]. exists (c :: tl), ws. by rewrite <- app_assoc.
Qed.

(** Bytes that start with a word that a NUL follows. *)
Lemma parse_request_nul l rest :
  Forall (fun c => 0 <= c <= 127 /\ is_whitespace c = false) l ->
  parse_request (l ++ 0 :: rest) = Err InvalidPortRequest.
Proof.
  intros Hl. unfold parse_request. destruct (from_utf8 _) as [s|] eqn:E; [|done].
  replace (l ++ 0 :: rest) with ((l ++ [0]) ++ rest) in E by (by rewrite <- app_assoc).
  apply from_utf8_ascii_app in E as [s' ->]; cycle 1.
  { apply Forall_app; split; [eapply Forall_impl; [exact Hl|by intros ? [? _]]|]. by repeat constructor. }
  assert (exists tl ws, split_whitespace ((l ++ [0]) ++ s') = ((l ++ [0]) ++ tl) :: ws) as (tl&ws&->).
  { unfold split_whitespace. change [] with ([] : list Z).
    assert (Hgo : forall w, split_words w ((l ++ [0]) ++ s') = split_words (w ++ l ++ [0]) s').
    { induction Hl as [|c l [_ Hc] _ IH]; intros w; cbn [app split_words]; [done|].
      rewrite Hc, IH. by rewrite <- app_assoc. }
    rewrite Hgo. apply split_words_cons. by destruct l. }
  assert (Hno : forall kw, 0 ∉ codes kw -> lowercase_is ((l ++ [0]) ++ tl) kw = false).
  { intros kw Hkw. apply bool_decide_eq_false_2. intros Heq. apply Hkw. rewrite <- Heq.
    apply list_elem_of_fmap. exists 0. split; [done|]. rewrite !elem_of_app. left. right. by left. }
  rewrite !Hno; [done|..]; by apply (bool_decide_unpack _).
Qed.

Section prefix.
Context {W : Type} `{VsockStream W}.

Lemma read_byte_err tries (w : W) :
  match read_byte tries w with Ret (Err e, _) => e = BackendRead | _ => True end.
Proof.
  revert w. induction tries as [|n IH]; intros w; cbn; [done|].
  destruct (stream_read w 1) as [[[|]|[]] ?]; auto; apply IH.
Qed.

(** The loop only appends to what was read first. *)
Lemma read_line_prefix n tries buf (w : W) :
  match read_line n tries buf w with
  | Ret (Ok b, _) => exists tl, b = buf ++ tl
  | Ret (Err e, _) => e = BackendRead
  | Panic => True
  end.
Proof.
  revert buf w. induction n as [|n IH]; intros buf w; cbn [read_line]; [exists []; by rewrite app_nil_r|].
  case_bool_decide; [by eexists|].
  pose proof (read_byte_err tries w) as Hb.
  destruct (read_byte tries w) as [[[b|e] w4]|]; cbn [mbind outcome_bind]; [|done|done].
  specialize (IH (buf ++ [b]) w4). destruct (read_line n tries _ w4) as [[[b'|] ?]|]; [|done|done].
  destruct IH as [tl ->]. exists (b :: tl). by rewrite <- app_assoc.
Qed.
End prefix.

(** A connect request whose first bytes arrive in pieces is refused: when the first
    read returns only part of the keyword, whatever the stream delivers afterwards is
    never taken for a request, since the code goes on reading after the seven bytes it
    asked for and leaves a gap of zeros. *)
Theorem short_request_refused {W} `{VsockStream W} (tries k : nat) (w w1 w2 : W) r :
  (0 < k < 7)%nat -> stream_read w MIN_READ_LEN = (Ok (take k (codes "connect")), w1) ->
  read_local_stream_port tries w = Ret (r, w2) ->
  r = Err InvalidPortRequest \/ r = Err BackendRead.
Proof.
  intros Hk Hr. unfold read_local_stream_port. rewrite Hr. intros ([rl w3]&El&E)%outcome_bind_Ret.
  assert (length (take k (codes "connect")) = k) as Hlen by (rewrite length_take; cbn; lia).
  rewrite Hlen in El. replace (MIN_READ_LEN - k)%nat with (S (6 - k)) in El by (unfold MIN_READ_LEN; lia).
  cbn [replicate] in El. remember (take k (codes "connect")) as l eqn:Hl.
  pose proof (read_line_prefix (32 - MIN_READ_LEN) tries (l ++ 0 :: replicate (6 - k) 0) w1) as Hpre.
  rewrite El in Hpre. destruct rl as [b|e]; [|injection E as <- <-; subst e; by right].
  destruct Hpre as [tl ->]. injection E as <- <-. left. rewrite <- app_assoc. cbn [app].
  apply parse_request_nul. subst l. apply Forall_take. by repeat constructor.
Qed.

Definition split_request : DemoStream := ([], codes "conn" :: ((fun b => [b]) <$> (codes "ect 5" ++ [10]))).

Lemma short_request_refused_witness :
  exists r, read_local_stream_port 1 split_request = Ret (r, ([], [])) /\
    (r = Err InvalidPortRequest \/ r = Err BackendRead).
Proof.
  exists (Err InvalidPortRequest). split; [vm_compute; reflexivity|].
  apply (short_request_refused 1 4 split_request ([], (fun b => [b]) <$> (codes "ect 5" ++ [10])) ([], []));
    [lia|reflexivity|vm_compute; reflexivity].
Defined.

(** A stream of scripted chunks. *)
Lemma connect_request_roundtrip_witness :
  read_local_stream_port 1
    (([], codes "connect" :: ((fun b => [b]) <$> (codes " " ++ codes "4294967295" ++ [10]))) : DemoStream)
  = Ret (Ok (Connect 4294967295), ([], [])).
Proof.
  apply (connect_request_roundtrip 1 4294967295 _
    ([], (fun b => [b]) <$> (codes " " ++ codes "4294967295" ++ [10])) ([], [])).
  - lia.
  - ulia.
  - reflexivity.
  - repeat (eapply serves_byte; [reflexivity|]). apply serves_nil.
Defined.
