(* ===== verification/VsockMuxerProps.v ===== *)
(** * Properties of the vsock muxer

    The muxer as a state machine: the states reachable from [VsockMuxer_new] by
    registering backends, delivering packets in both directions and handling
    epoll events, and what holds in all of them. *)
From S2P Require Import Prelude VsockTxBuf VsockConn VsockConnFacts VsockPort VsockMuxer VsockDemo VsockMuxerFacts VsockMuxerInv VsockMuxerOps.

Section props.
Context {W B : Type} `{VsockStreamLaws W} `{VsockBackend B W}.
Context (conn_iter : gmap ConnMapKey (VsockConnection W) -> list (ConnMapKey * VsockConnection W)).
Context (sort_by_kill_time : list MuxerKillQItem -> list MuxerKillQItem).
Context (hybrid_stream : Z -> W -> result MuxerError W).
Implicit Types (m : VsockMuxer W B).

Inductive mx_reach : VsockMuxer W B -> Prop :=
| reach_new cid m : VsockMuxer_new cid true = Some m -> mx_reach m
| reach_backend m b peer ctl : mx_reach m -> mx_reach (add_backend m b peer ctl).2
| reach_recv m p clock ctl r m' p' :
    mx_reach m -> muxer_recv_pkt conn_iter m p clock ctl = Ret (r, m', p') -> mx_reach m'
| reach_send m p clock ctl m' :
    mx_reach m -> monotone clock -> pkt_ok p ->
    muxer_send_pkt conn_iter sort_by_kill_time m p clock ctl = Ret m' -> mx_reach m'
| reach_notify m events tries clock ctl m' :
    mx_reach m -> (forall i, monotone (clock i)) ->
    muxer_notify conn_iter sort_by_kill_time hybrid_stream m events tries clock ctl = Ret m' -> mx_reach m'.

(** What the standard library documents of the two parameters. *)
Definition iter_ok : Prop := forall cm, conn_iter cm ≡ₚ map_to_list cm.
Definition sort_ok : Prop := forall q, sort_by_kill_time q ≡ₚ q.

Lemma reach_mx_ok m : iter_ok -> sort_ok -> mx_reach m -> mx_ok m.
Proof.
  intros Hi Hs. induction 1 as [cid m E|m b peer ctl _ IH|m p clock ctl r m' p' _ IH E
    |m p clock ctl m' _ IH Hm Hp E|m events tries clock ctl m' _ IH Hm E].
  - by eapply new_ok_mx.
  - eapply mx_ok_core; [apply add_backend_core|done].
  - destruct (muxer_recv_ok conn_iter Hi m p clock ctl IH) as (?&?&?&E'&Hok&_).
    rewrite E in E'. by injection E' as <- <- <-.
  - destruct (muxer_send_ok conn_iter sort_by_kill_time Hi Hs m p clock ctl IH Hm Hp) as (?&E'&Hok&_).
    rewrite E in E'. by injection E' as <-.
  - exact (muxer_notify_ok conn_iter sort_by_kill_time Hi Hs hybrid_stream m events tries clock ctl m' IH Hm E).
Qed.

(** C10: no pending data is ever stranded: in every reachable state of the muxer, a
    connection that has something to tell the guest is in the RX queue, or the queue is
    marked as out of sync and will be rebuilt from the connections; in both cases the
    muxer reports that it has pending RX data. *)
Theorem no_lost_rx m key c :
  iter_ok -> sort_ok -> mx_reach m ->
  mx_conn_map m !! key = Some c -> conn_has_pending_rx c = true ->
  muxer_has_pending_rx m = true /\ (rxq_synced (mx_rxq m) = true -> ConnRx key ∈ rxq_q (mx_rxq m)).
Proof.
  intros Hi Hs Hr Hk Hp. pose proof (reach_mx_ok m Hi Hs Hr) as Hok. unfold muxer_has_pending_rx.
  split; [|intros Hsync; by eapply (mo_sync m Hok)].
  destruct (rxq_synced (mx_rxq m)) eqn:Es; [|apply orb_true_r].
  pose proof (mo_sync m Hok Es key c Hk Hp) as Hin. unfold rxq_is_empty.
  destruct (rxq_q (mx_rxq m)); [by apply elem_of_nil in Hin|done].
Qed.

(** C37: the muxer's tables stay within their limits in every reachable state: at most
    256 queued RX items, 128 queued kills and 1023 connections; local ports stay below
    2^31.  In particular the RX queue never has the 1023 items that [handle_event] takes
    as its sign that no further host connection is to be accepted. *)
Theorem muxer_bounds m :
  iter_ok -> sort_ok -> mx_reach m ->
  (length (rxq_q (mx_rxq m)) <= MUXER_RXQ_SIZE)%nat /\
  (length (killq_q (mx_killq m)) <= MUXER_KILLQ_SIZE)%nat /\
  (size (mx_conn_map m) <= MAX_CONNECTIONS)%nat /\
  2 ^ 30 - 1 <= mx_local_port_last m < 2 ^ 31 /\
  (length (rxq_q (mx_rxq m)) =? MAX_CONNECTIONS)%nat = false.
Proof.
  intros Hi Hs Hr. destruct (reach_mx_ok m Hi Hs Hr) as [_ _ Hq ? ? ?]. unfold rxq_ok in Hq.
  split; [done|]. split; [done|]. split; [done|]. split; [done|].
  apply Nat.eqb_neq. unfold MUXER_RXQ_SIZE, MAX_CONNECTIONS in *. lia.
Qed.

(** C18: asking a reachable muxer for a packet always returns, without panicking: with a
    packet, or with [NoData] once the RX queue is drained; when the queue is then still
    in sync, no connection has anything left to say.  The loop terminates although a
    connection can be queued again while it runs, when its listener cannot be updated. *)
Theorem recv_pkt_returns m p clock ctl :
  iter_ok -> sort_ok -> mx_reach m ->
  exists r m' p', muxer_recv_pkt conn_iter m p clock ctl = Ret (r, m', p') /\
    (r = Ok tt \/
     r = Err NoData /\ rxq_q (mx_rxq m') = [] /\
     (rxq_synced (mx_rxq m') = true ->
      forall key c, mx_conn_map m' !! key = Some c -> conn_has_pending_rx c = false)).
Proof.
  intros Hi Hs Hr. pose proof (reach_mx_ok m Hi Hs Hr) as Hok.
  destruct (muxer_recv_ok conn_iter Hi m p clock ctl Hok) as (r&m'&p'&E&Hok'&Hres).
  exists r, m', p'. split; [done|]. destruct Hres as [->|[-> Hq]]; [by left|]. right.
  split; [done|]. split; [done|]. intros Hsync key c Hk. destruct (conn_has_pending_rx c) eqn:Hp; [|done].
  pose proof (mo_sync m' Hok' Hsync key c Hk Hp) as Hin. rewrite Hq in Hin. by apply elem_of_nil in Hin.
Qed.

(** C23: a guest packet is delivered without panicking and in isolation: whatever the
    guest sends, only the connection between the packet's two ports changes; another
    connection can at most be killed, and only if its expiry time has passed. *)
Theorem send_pkt_isolated m p clock ctl :
  iter_ok -> sort_ok -> mx_reach m -> monotone clock -> pkt_ok p ->
  exists m', muxer_send_pkt conn_iter sort_by_kill_time m p clock ctl = Ret m' /\
    affects_only clock (mkKey (dst_port p) (src_port p)) m m'.
Proof.
  intros Hi Hs Hr Hm Hp.
  destruct (muxer_send_ok conn_iter sort_by_kill_time Hi Hs m p clock ctl (reach_mx_ok m Hi Hs Hr) Hm Hp)
    as (m'&E&_&Ha). by exists m'.
Qed.

(** Sweeping the kill queue terminates, however often the queue has to be rebuilt,
    as long as the clock does not run backwards; no connection disappears, and the only
    connections it kills are ones whose expiry time the clock has reached. *)
Theorem sweep_killq_returns m clock :
  iter_ok -> sort_ok -> mx_reach m -> monotone clock ->
  exists m', sweep_killq conn_iter sort_by_kill_time m clock = Ret m' /\ swept (passed clock) m m'.
Proof.
  intros Hi Hs Hr Hm.
  destruct (sweep_killq_ok conn_iter sort_by_kill_time Hi Hs m clock (reach_mx_ok m Hi Hs Hr) Hm)
    as (m'&E&_&Hsw). by exists m'.
Qed.

(** A local port is always found for a host connection while fewer than 2^30 ports
    are in use: the port is in the range set apart for the host, was not in use, and is
    in use afterwards; nothing else changes. *)
Theorem allocate_local_port_fresh m :
  iter_ok -> sort_ok -> mx_reach m -> Z.of_nat (size (mx_local_port_set m)) < 2 ^ 30 ->
  exists port m', allocate_local_port m = Ret (port, m') /\
    2 ^ 30 <= port < 2 ^ 31 /\ (port ∉ mx_local_port_set m) /\
    mx_local_port_set m' = ({[port]} ∪ mx_local_port_set m) /\ mx_local_port_last m' = port /\
    mx_conn_map m' = mx_conn_map m /\ mx_listener_map m' = mx_listener_map m /\ mx_rxq m' = mx_rxq m.
Proof.
  intros Hi Hs Hr Hsize. pose proof (reach_mx_ok m Hi Hs Hr) as Hok.
  destruct (port_loop_Ret (mx_local_port_last m) (mx_local_port_set m) (mo_last m Hok) Hsize)
    as (port&E&Hrange&Hfresh).
  unfold allocate_local_port. rewrite E. eexists _, _. split; [done|]. by split_and!; try apply Hrange.
Qed.
End props.

(** ** The RX queue loses resets before it is full *)

Definition push_all (q : MuxerRxQ) (l : list MuxerRx) : MuxerRxQ :=
  foldl (fun q rx => (rxq_push q rx).2) q l.

Definition pop_times (n : nat) (q : MuxerRxQ) : MuxerRxQ := Nat.iter n (fun q => (rxq_pop q).2) q.

(** A full queue with one connection in it, on which a reset evicts the connection; all
    but one item are then delivered. *)
Definition nearly_empty_queue : MuxerRxQ :=
  pop_times 255 (push_all rxq_default
    (ConnRx (mkKey 1 1) :: ((fun i => RstPkt 2 (Z.of_nat i)) <$> seq 0 256))).

(** A reset can be dropped from a queue that has room: the documentation of [push]
    says that an RST fails only on a queue full of RSTs, but once the queue is out of
    sync an RST is refused whenever no connection is queued, here with one of 256
    places taken. *)
Theorem rst_dropped_with_room :
  length (rxq_q nearly_empty_queue) = 1%nat /\
  rxq_push nearly_empty_queue (RstPkt 3 3) = (false, nearly_empty_queue).
Proof. vm_compute. split; reflexivity. Qed.

(** ** The properties at work *)

Definition demo_hybrid (fd : Z) (w : DemoStream) : result MuxerError DemoStream := Ok w.

Definition demo_request : VsockPacket :=
  mkPkt (mkHdr 3 2 2048 1024 0 VSOCK_TYPE_STREAM VSOCK_OP_REQUEST 0 4096 0) None.

Lemma demo_request_ok : pkt_ok demo_request.
Proof. split; cbn; try ulia; done. Qed.

Definition demo_clock (i : nat) : Z := Z.of_nat i.

Lemma demo_clock_monotone : monotone demo_clock.
Proof. intros i j Hij. unfold demo_clock. lia. Qed.

(** A muxer with a backend, which the guest asked for a connection. *)
Definition demo_muxer0 : VsockMuxer DemoStream unit :=
  mkMuxer 3 ∅ ∅ rxq_default killq_default ∅ (2 ^ 30 - 1) ∅ None.
Definition demo_muxer1 : VsockMuxer DemoStream unit := (add_backend demo_muxer0 tt true true).2.
Definition demo_muxer : VsockMuxer DemoStream unit :=
  match muxer_send_pkt demo_iter demo_sort demo_muxer1 demo_request demo_clock (fun _ => true) with
  | Ret m => m
  | Panic => demo_muxer1
  end.

Lemma demo_reach : mx_reach demo_iter demo_sort demo_hybrid demo_muxer.
Proof.
  eapply (reach_send _ _ _ demo_muxer1 demo_request demo_clock (fun _ => true));
    [|exact demo_clock_monotone|exact demo_request_ok|vm_compute; reflexivity].
  apply (reach_backend _ _ _ demo_muxer0 tt true true). by apply (reach_new _ _ _ 3).
Qed.

Lemma no_lost_rx_witness :
  muxer_has_pending_rx demo_muxer = true /\
  (rxq_synced (mx_rxq demo_muxer) = true -> ConnRx (mkKey 1024 2048) ∈ rxq_q (mx_rxq demo_muxer)).
Proof.
  apply (no_lost_rx demo_iter demo_sort demo_hybrid demo_muxer (mkKey 1024 2048)
    (new_peer_init ([], []) VSOCK_HOST_CID 3 1024 2048 4096 false)
    demo_iter_spec demo_sort_spec demo_reach); vm_compute; reflexivity.
Defined.

Lemma muxer_bounds_witness : (length (rxq_q (mx_rxq demo_muxer)) =? MAX_CONNECTIONS)%nat = false.
Proof.
  apply (muxer_bounds demo_iter demo_sort demo_hybrid demo_muxer demo_iter_spec demo_sort_spec demo_reach).
Defined.

Lemma recv_pkt_returns_witness :
  exists r m' p', muxer_recv_pkt demo_iter demo_muxer demo_request demo_clock (fun _ => false) = Ret (r, m', p').
Proof.
  destruct (recv_pkt_returns demo_iter demo_sort demo_hybrid demo_muxer demo_request demo_clock
    (fun _ => false) demo_iter_spec demo_sort_spec demo_reach) as (r&m'&p'&E&_).
  exists r, m', p'. exact E.
Defined.

Lemma send_pkt_isolated_witness :
  exists m', muxer_send_pkt demo_iter demo_sort demo_muxer demo_request demo_clock (fun _ => true) = Ret m' /\
    affects_only demo_clock (mkKey 1024 2048) demo_muxer m'.
Proof.
  apply (send_pkt_isolated demo_iter demo_sort demo_hybrid demo_muxer demo_request demo_clock
    (fun _ => true) demo_iter_spec demo_sort_spec demo_reach demo_clock_monotone demo_request_ok).
Defined.

Lemma sweep_killq_returns_witness :
  exists m', sweep_killq demo_iter demo_sort demo_muxer demo_clock = Ret m' /\
    swept (passed demo_clock) demo_muxer m'.
Proof.
  apply (sweep_killq_returns demo_iter demo_sort demo_hybrid demo_muxer demo_clock
    demo_iter_spec demo_sort_spec demo_reach demo_clock_monotone).
Defined.

Lemma allocate_local_port_fresh_witness :
  exists port m', allocate_local_port demo_muxer = Ret (port, m') /\ 2 ^ 30 <= port < 2 ^ 31.
Proof.
  destruct (allocate_local_port_fresh demo_iter demo_sort demo_hybrid demo_muxer
    demo_iter_spec demo_sort_spec demo_reach) as (port&m'&E&Hr&_); [vm_compute; reflexivity|].
  exists port, m'. split; [exact E|exact Hr].
Defined.
