(* ===== verification/Effects.v ===== *)
(** * Stateful code with errors and panics

    The monad for methods that change their object through [&mut self], leave
    early with [?] and may panic: [eff S E A] takes a state and panics or gives
    a [Result] together with the state at that point.  An error keeps the
    changes made before it, as in the source. *)
From S2P Require Import Prelude.

Definition eff (S E A : Type) : Type := S -> outcome (result E A * S).

Section eff.
Context {S E : Type}.

#[global] Instance eff_ret : MRet (eff S E) := fun A a s => Ret (Ok a, s).
#[global] Instance eff_bind : MBind (eff S E) := fun A B f m s =>
  match m s with
  | Ret (Ok a, s') => f a s'
  | Ret (Err e, s') => Ret (Err e, s')
  | Panic => Panic
  end.

(** [return Err(e)], a panic, reading and changing the state. *)
Definition throw {A} (e : E) : eff S E A := fun s => Ret (Err e, s).
Definition panic {A} : eff S E A := fun _ => Panic.
Definition gets {A} (f : S -> A) : eff S E A := fun s => Ret (Ok (f s), s).
Definition modify (f : S -> S) : eff S E unit := fun s => Ret (Ok tt, f s).

(** The value of an [Option] or a panic. *)
Definition expect {A} (o : option A) : eff S E A :=
  match o with Some a => mret a | None => panic end.

(** A function that may panic. *)
Definition lift_outcome {A} (o : outcome A) : eff S E A := fun s =>
  match o with Ret a => Ret (Ok a, s) | Panic => Panic end.

(** The [Result] of a call as a value, for [if let Err(e)] and [match]. *)
Definition attempt {E'} {A} (m : eff S E A) : eff S E' (result E A) := fun s =>
  match m s with Ret (r, s') => Ret (Ok r, s') | Panic => Panic end.

(** [map_err]. *)
Definition map_err {E'} {A} (f : E -> E') (m : eff S E A) : eff S E' A := fun s =>
  match m s with
  | Ret (Ok a, s') => Ret (Ok a, s')
  | Ret (Err e, s') => Ret (Err (f e), s')
  | Panic => Panic
  end.
End eff.

(** A method of a part of the state. *)
Definition zoom {S T E A} (get : S -> T) (put : T -> S -> S) (m : eff T E A) : eff S E A := fun s =>
  match m (get s) with
  | Ret (r, t) => Ret (r, put t s)
  | Panic => Panic
  end.

(** A [for] loop over a list. *)
Fixpoint for_each {S E A} (f : A -> eff S E unit) (l : list A) : eff S E unit :=
  match l with
  | [] => mret tt
  | a :: l' => f a ≫= fun _ => for_each f l'
  end.

(** ** Reasoning *)

(** [always P m]: from a state that satisfies [P] the method does not panic,
    and it leaves such a state, also when it fails. *)
Definition always {S E A} (P : S -> Prop) (m : eff S E A) : Prop :=
  forall s, P s -> exists r s', m s = Ret (r, s') /\ P s'.

(** [keeps R m]: whenever the method returns, the states before and after it are
    related by [R]. *)
Definition keeps {S E A} (R : S -> S -> Prop) (m : eff S E A) : Prop :=
  forall s r s', m s = Ret (r, s') -> R s s'.

Section lemmas.
Context {S E : Type}.

Lemma always_ret {A} (P : S -> Prop) (a : A) : always P (mret a : eff S E A).
Proof. intros s Hs. by exists (Ok a), s. Qed.

Lemma always_throw {A} (P : S -> Prop) (e : E) : always P (throw e : eff S E A).
Proof. intros s Hs. by exists (Err e), s. Qed.

Lemma always_gets {A} (P : S -> Prop) (f : S -> A) : always P (gets f : eff S E A).
Proof. intros s Hs. by exists (Ok (f s)), s. Qed.

Lemma always_modify (P : S -> Prop) f : (forall s, P s -> P (f s)) -> always P (modify f : eff S E unit).
Proof. intros Hf s Hs. exists (Ok tt), (f s). auto. Qed.

Lemma always_bind {A B} (P : S -> Prop) (m : eff S E A) (f : A -> eff S E B) :
  always P m -> (forall a, always P (f a)) -> always P (m ≫= f).
Proof.
  intros Hm Hf s Hs. destruct (Hm s Hs) as (r & s1 & E1 & Hs1). unfold mbind, eff_bind. rewrite E1.
  destruct r as [a|e]; [by apply Hf|by exists (Err e), s1].
Qed.

Lemma always_attempt {E' A} (P : S -> Prop) (m : eff S E A) : always P m -> always P (attempt (E':=E') m).
Proof. intros Hm s Hs. destruct (Hm s Hs) as (r & s1 & E1 & Hs1). unfold attempt. rewrite E1. eauto. Qed.

Lemma always_map_err {E' A} (P : S -> Prop) (g : E -> E') (m : eff S E A) : always P m -> always P (map_err g m).
Proof.
  intros Hm s Hs. destruct (Hm s Hs) as (r & s1 & E1 & Hs1). unfold map_err. rewrite E1.
  destruct r; eauto.
Qed.

Lemma always_for_each {A} (P : S -> Prop) (f : A -> eff S E unit) l :
  (forall a, a ∈ l -> always P (f a)) -> always P (for_each f l).
Proof.
  induction l as [|a l IH]; intros Hf; [apply always_ret|]. cbn. apply always_bind.
  - apply Hf. left.
  - intros _. apply IH. intros. apply Hf. by right.
Qed.

Lemma always_zoom {T A} (P : S -> Prop) get put (m : eff T E A) :
  (forall s, P s -> exists r t, m (get s) = Ret (r, t) /\ P (put t s)) -> always P (zoom get put m).
Proof. intros H s Hs. destruct (H s Hs) as (r & t & E1 & Ht). unfold zoom. rewrite E1. eauto. Qed.

Context (R : S -> S -> Prop).

Lemma keeps_throw {A} (e : E) : (forall s, R s s) -> keeps R (throw e : eff S E A).
Proof. intros HR s r s' [= _ <-]. apply HR. Qed.

Lemma keeps_panic {A} : keeps R (panic : eff S E A).
Proof. by intros s r s'. Qed.

Lemma keeps_ret {A} (a : A) : (forall s, R s s) -> keeps R (mret a : eff S E A).
Proof. intros HR s r s' [= _ <-]. apply HR. Qed.

Lemma keeps_gets {A} (f : S -> A) : (forall s, R s s) -> keeps R (gets f : eff S E A).
Proof. intros HR s r s' [= _ <-]. apply HR. Qed.

Lemma keeps_modify f : (forall s, R s (f s)) -> keeps R (modify f : eff S E unit).
Proof. intros HR s r s' [= _ <-]. apply HR. Qed.

Lemma keeps_expect {A} (o : option A) : (forall s, R s s) -> keeps R (expect o : eff S E A).
Proof. intros HR. destruct o; [by apply keeps_ret|apply keeps_panic]. Qed.

Lemma keeps_bind {A B} (m : eff S E A) (f : A -> eff S E B) :
  (forall s1 s2 s3, R s1 s2 -> R s2 s3 -> R s1 s3) ->
  keeps R m -> (forall a, keeps R (f a)) -> keeps R (m ≫= f).
Proof.
  intros HR Hm Hf s r s' Hb. unfold mbind, eff_bind in Hb.
  destruct (m s) as [[[a|e] s1]|] eqn:E1; [| |done].
  - eapply HR; [by eapply Hm|by eapply Hf].
  - injection Hb as _ <-. by eapply Hm.
Qed.

Lemma keeps_attempt {E' A} (m : eff S E A) : keeps R m -> keeps R (attempt (E':=E') m).
Proof.
  intros Hm s r s' H. unfold attempt in H. destruct (m s) as [[r1 s1]|] eqn:E1; [|done].
  injection H as _ <-. by eapply Hm.
Qed.

Lemma keeps_map_err {E' A} (g : E -> E') (m : eff S E A) : keeps R m -> keeps R (map_err g m).
Proof.
  intros Hm s r s' H. unfold map_err in H. destruct (m s) as [[[a|e] s1]|] eqn:E1; [..|done];
    injection H as _ <-; by eapply Hm.
Qed.

Lemma keeps_for_each {A} (f : A -> eff S E unit) l :
  (forall s, R s s) -> (forall s1 s2 s3, R s1 s2 -> R s2 s3 -> R s1 s3) ->
  (forall a, keeps R (f a)) -> keeps R (for_each f l).
Proof.
  intros H1 H2 Hf. induction l as [|a l IH]; [by apply keeps_ret|]. by apply keeps_bind.
Qed.

Lemma keeps_zoom {T A} get put (m : eff T E A) :
  (forall s r t, m (get s) = Ret (r, t) -> R s (put t s)) -> keeps R (zoom get put m).
Proof.
  intros H s r s' Hz. unfold zoom in Hz. destruct (m (get s)) as [[r1 t]|] eqn:E1; [|done].
  injection Hz as _ <-. by eapply H.
Qed.
End lemmas.

(** Running a sequence step by step. *)
Lemma run_gets {S E A B} (f : S -> A) (k : A -> eff S E B) s : (gets f ≫= k) s = k (f s) s.
Proof. done. Qed.
Lemma run_ok_bind {S E A B} (m : eff S E A) (k : A -> eff S E B) s a s' :
  m s = Ret (Ok a, s') -> (m ≫= k) s = k a s'.
Proof. unfold mbind, eff_bind. by intros ->. Qed.
Lemma run_err_bind {S E A B} (m : eff S E A) (k : A -> eff S E B) s e s' :
  m s = Ret (Err e, s') -> (m ≫= k) s = Ret (Err e, s').
Proof. unfold mbind, eff_bind. by intros ->. Qed.
Lemma run_panic_bind {S E A B} (m : eff S E A) (k : A -> eff S E B) s : m s = Panic -> (m ≫= k) s = Panic.
Proof. unfold mbind, eff_bind. by intros ->. Qed.
Lemma run_attempt {S E E' A} (m : eff S E A) s r s' :
  m s = Ret (r, s') -> attempt (E':=E') m s = Ret (Ok r, s').
Proof. unfold attempt. by intros ->. Qed.

Lemma run_zoom {S T E A} get put (m : eff T E A) (s : S) r t :
  m (get s) = Ret (r, t) -> zoom get put m s = Ret (r, put t s).
Proof. unfold zoom. by intros ->. Qed.

(** How a sequence of two methods returned. *)
Lemma bind_inv {S E A B} (m : eff S E A) (k : A -> eff S E B) s r s' :
  (m ≫= k) s = Ret (r, s') ->
  (exists e, m s = Ret (Err e, s') /\ r = Err e) \/ (exists a s1, m s = Ret (Ok a, s1) /\ k a s1 = Ret (r, s')).
Proof.
  unfold mbind, eff_bind. destruct (m s) as [[[a|e] s1]|]; [| |done].
  - intros Hk. right. eauto.
  - intros [= <- <-]. left. eauto.
Qed.

Lemma bind_assoc {S E A B C} (m : eff S E A) (k : A -> eff S E B) (l : B -> eff S E C) s :
  ((m ≫= k) ≫= l) s = (m ≫= fun a => k a ≫= l) s.
Proof. unfold mbind, eff_bind. by destruct (m s) as [[[a|e] s1]|]. Qed.

Lemma attempt_inv {S E E' A} (m : eff S E A) s (r : result E' (result E A)) s' :
  attempt m s = Ret (r, s') -> exists r0, m s = Ret (r0, s') /\ r = Ok r0.
Proof. unfold attempt. destruct (m s) as [[r0 s1]|]; [|done]. intros [= <- <-]. eauto. Qed.

Lemma map_err_inv {S E E' A} (g : E -> E') (m : eff S E A) s r s' :
  map_err g m s = Ret (r, s') ->
  (exists a, m s = Ret (Ok a, s') /\ r = Ok a) \/ (exists e, m s = Ret (Err e, s') /\ r = Err (g e)).
Proof. unfold map_err. destruct (m s) as [[[a|e] s1]|]; [..|done]; intros [= <- <-]; eauto. Qed.

(** *** Parts of the state that a method does not touch *)

Definition same {S B} (f : S -> B) (s s' : S) : Prop := f s' = f s.

Section same.
Context {S E B : Type} (f : S -> B).

Lemma same_ret {A} (a : A) : keeps (same f) (mret a : eff S E A).
Proof. by apply keeps_ret. Qed.
Lemma same_throw {A} (e : E) : keeps (same f) (throw e : eff S E A).
Proof. by apply keeps_throw. Qed.
Lemma same_gets {A} (g : S -> A) : keeps (same f) (gets g : eff S E A).
Proof. by apply keeps_gets. Qed.
Lemma same_expect {A} (o : option A) : keeps (same f) (expect o : eff S E A).
Proof. by apply keeps_expect. Qed.
Lemma same_modify g : (forall s, f (g s) = f s) -> keeps (same f) (modify g : eff S E unit).
Proof. intros H. by apply keeps_modify. Qed.
Lemma same_bind {A C} (m : eff S E A) (k : A -> eff S E C) :
  keeps (same f) m -> (forall a, keeps (same f) (k a)) -> keeps (same f) (m ≫= k).
Proof. apply keeps_bind. unfold same. congruence. Qed.
Lemma same_for_each {A} (g : A -> eff S E unit) l :
  (forall a, keeps (same f) (g a)) -> keeps (same f) (for_each g l).
Proof. apply keeps_for_each; unfold same; congruence. Qed.
End same.

Create HintDb eff discriminated.
#[export] Hint Resolve same_ret same_throw same_gets same_expect keeps_panic keeps_attempt keeps_map_err
  always_ret always_throw always_gets always_attempt always_map_err : eff.

(** Walk down a method to its primitive steps, with the hints of [eff] for the
    calls in it. *)
Ltac eff_walk :=
  repeat first
    [ progress (auto with eff nocore)
    | apply same_bind; [|intros ?]
    | apply same_for_each; intros ?
    | apply keeps_attempt | apply keeps_map_err
    | case_match ].

(** *** Methods that do not fail *)

Definition infallible {S E A} (m : eff S E A) : Prop := forall s r s', m s = Ret (r, s') -> exists a, r = Ok a.

Section infallible.
Context {S E : Type}.

Lemma infallible_ret {A} (a : A) : infallible (mret a : eff S E A).
Proof. intros s r s' H. unfold mret, eff_ret in H. naive_solver. Qed.
Lemma infallible_panic {A} : infallible (panic : eff S E A).
Proof. by intros s r s' H. Qed.
Lemma infallible_gets {A} (f : S -> A) : infallible (gets f : eff S E A).
Proof. intros s r s' H. unfold gets in H. naive_solver. Qed.
Lemma infallible_modify f : infallible (modify f : eff S E unit).
Proof. intros s r s' H. unfold modify in H. naive_solver. Qed.
Lemma infallible_lift {A} (o : outcome A) : infallible (lift_outcome o : eff S E A).
Proof. intros s r s' H. unfold lift_outcome in H. destruct o; naive_solver. Qed.
Lemma infallible_attempt {E' A} (m : eff S E' A) : infallible (attempt m : eff S E _).
Proof. intros s r s' (r0 & _ & ->)%attempt_inv. eauto. Qed.
Lemma infallible_bind {A B} (m : eff S E A) (k : A -> eff S E B) :
  infallible m -> (forall a, infallible (k a)) -> infallible (m ≫= k).
Proof. intros Hm Hk s r s' [(e & E1 & ->)|(a & s1 & E1 & E2)]%bind_inv; [by apply Hm in E1 as [? ?]|by eapply Hk]. Qed.
Lemma infallible_for_each {A} (f : A -> eff S E unit) l : (forall a, infallible (f a)) -> infallible (for_each f l).
Proof. intros Hf. induction l; [apply infallible_ret|]. by apply infallible_bind. Qed.
End infallible.

#[export] Hint Resolve infallible_ret infallible_panic infallible_gets infallible_modify infallible_lift infallible_attempt : eff.
Ltac infallible :=
  repeat first [ progress (auto with eff nocore) | apply infallible_bind; [|intros ?] | case_match ].

(** *** What a method leaves behind

    [wp m Q s]: if [m] returns from [s], its result and state satisfy [Q]. *)
Definition wp {S E A} (m : eff S E A) (Q : result E A -> S -> Prop) (s : S) : Prop :=
  forall r s', m s = Ret (r, s') -> Q r s'.

Section wp.
Context {S E : Type}.

Lemma wp_ret {A} (a : A) (Q : result E A -> S -> Prop) s : Q (Ok a) s -> wp (mret a) Q s.
Proof. intros HQ r s' H. unfold mret, eff_ret in H. by injection H as <- <-. Qed.

Lemma wp_throw {A} (e : E) (Q : result E A -> S -> Prop) s : Q (Err e) s -> wp (throw e) Q s.
Proof. by intros HQ r s' [= <- <-]. Qed.

Lemma wp_panic {A} (Q : result E A -> S -> Prop) s : wp panic Q s.
Proof. done. Qed.

Lemma wp_expect {A} (o : option A) (Q : result E A -> S -> Prop) s :
  (forall a, o = Some a -> Q (Ok a) s) -> wp (expect o) Q s.
Proof. intros HQ. destruct o; [apply wp_ret; by apply HQ|apply wp_panic]. Qed.

Lemma wp_lift {A} (o : outcome A) (Q : result E A -> S -> Prop) s :
  (forall a, o = Ret a -> Q (Ok a) s) -> wp (lift_outcome o) Q s.
Proof. intros HQ r s' H. unfold lift_outcome in H. destruct o; [|done]. injection H as <- <-. by apply HQ. Qed.

Lemma wp_gets {A} (f : S -> A) (Q : result E A -> S -> Prop) s : Q (Ok (f s)) s -> wp (gets f) Q s.
Proof. by intros HQ r s' [= <- <-]. Qed.

Lemma wp_modify f (Q : result E unit -> S -> Prop) s : Q (Ok tt) (f s) -> wp (modify f) Q s.
Proof. by intros HQ r s' [= <- <-]. Qed.

Lemma wp_bind {A B} (m : eff S E A) (k : A -> eff S E B) Q s :
  wp m (fun r s1 => match r with Ok a => wp (k a) Q s1 | Err e => Q (Err e) s1 end) s -> wp (m ≫= k) Q s.
Proof.
  intros Hm r s' [(e & Em & ->)|(a & s1 & Em & Hk)]%bind_inv; apply Hm in Em; [done|by apply Em].
Qed.

Lemma wp_attempt {E' A} (m : eff S E A) (Q : result E' (result E A) -> S -> Prop) s :
  wp m (fun r => Q (Ok r)) s -> wp (attempt m) Q s.
Proof. intros Hm r s' (r0 & Er & ->)%attempt_inv. by apply Hm. Qed.

Lemma wp_zoom {T A} get put (m : eff T E A) (Q : result E A -> S -> Prop) s :
  wp m (fun r t => Q r (put t s)) (get s) -> wp (zoom get put m) Q s.
Proof.
  intros Hm r s' Hz. unfold zoom in Hz. destruct (m (get s)) as [[r1 t]|] eqn:E1; [|done].
  injection Hz as <- <-. by apply Hm.
Qed.

Lemma wp_mono {A} (m : eff S E A) (P Q : result E A -> S -> Prop) s :
  wp m P s -> (forall r s', P r s' -> Q r s') -> wp m Q s.
Proof. intros Hm HPQ r s' H. by apply HPQ, Hm. Qed.

Lemma wp_keeps {A} (R : S -> S -> Prop) (m : eff S E A) s : keeps R m -> wp m (fun _ => R s) s.
Proof. intros Hm r s' H. by eapply Hm. Qed.

Lemma wp_infallible {A} (R : S -> S -> Prop) (m : eff S E A) s :
  infallible m -> keeps R m -> wp m (fun r s' => (exists a, r = Ok a) /\ R s s') s.
Proof. intros Hi Hm r s' H. split; [by eapply Hi|by eapply Hm]. Qed.
End wp.

(** One step of a method; [wp_steps] stops at a call or at a choice. *)
Ltac wp_step :=
  lazymatch goal with
  | |- wp (_ ≫= _) _ _ => apply wp_bind
  | |- wp (mret _) _ _ => apply wp_ret
  | |- wp (throw _) _ _ => apply wp_throw
  | |- wp panic _ _ => apply wp_panic
  | |- wp (gets _) _ _ => apply wp_gets
  | |- wp (modify _) _ _ => apply wp_modify
  | |- wp (attempt _) _ _ => apply wp_attempt
  | |- wp (zoom _ _ _) _ _ => apply wp_zoom
  end; cbv beta.
Ltac wp_steps := repeat wp_step.

(** The two branches of a choice. *)
Ltac wp_if :=
  lazymatch goal with |- wp (if ?b then _ else _) _ _ => let E := fresh "E" in destruct b eqn:E end.

(** *** What a method surely does

    [twp m Q s]: [m] returns from [s], and its result and state satisfy [Q]. *)
Definition twp {S E A} (m : eff S E A) (Q : result E A -> S -> Prop) (s : S) : Prop :=
  exists r s', m s = Ret (r, s') /\ Q r s'.

Section twp.
Context {S E : Type}.

Lemma twp_ret {A} (a : A) (Q : result E A -> S -> Prop) s : Q (Ok a) s -> twp (mret a) Q s.
Proof. intros HQ. by exists (Ok a), s. Qed.

Lemma twp_throw {A} (e : E) (Q : result E A -> S -> Prop) s : Q (Err e) s -> twp (throw e) Q s.
Proof. intros HQ. by exists (Err e), s. Qed.

Lemma twp_lift {A} (o : outcome A) a (Q : result E A -> S -> Prop) s : o = Ret a -> Q (Ok a) s -> twp (lift_outcome o) Q s.
Proof. intros -> HQ. by exists (Ok a), s. Qed.

Lemma twp_gets {A} (f : S -> A) (Q : result E A -> S -> Prop) s : Q (Ok (f s)) s -> twp (gets f) Q s.
Proof. intros HQ. by exists (Ok (f s)), s. Qed.

Lemma twp_modify f (Q : result E unit -> S -> Prop) s : Q (Ok tt) (f s) -> twp (modify f) Q s.
Proof. intros HQ. by exists (Ok tt), (f s). Qed.

Lemma twp_bind {A B} (m : eff S E A) (k : A -> eff S E B) Q s :
  twp m (fun r s1 => match r with Ok a => twp (k a) Q s1 | Err e => Q (Err e) s1 end) s -> twp (m ≫= k) Q s.
Proof.
  intros (r & s1 & Em & HQ). destruct r as [a|e].
  - unfold twp. by rewrite (run_ok_bind _ _ _ _ _ Em).
  - unfold twp. rewrite (run_err_bind _ _ _ _ _ Em). by exists (Err e), s1.
Qed.

Lemma twp_attempt {E' A} (m : eff S E A) (Q : result E' (result E A) -> S -> Prop) s :
  twp m (fun r => Q (Ok r)) s -> twp (attempt m) Q s.
Proof. intros (r & s1 & Em & HQ). exists (Ok r), s1. by rewrite (run_attempt _ _ _ _ Em). Qed.

Lemma twp_map_err {E' A} (g : E -> E') (m : eff S E A) (Q : result E' A -> S -> Prop) s :
  twp m (fun r => Q (match r with Ok a => Ok a | Err e => Err (g e) end)) s -> twp (map_err g m) Q s.
Proof. intros (r & s1 & Em & HQ). unfold twp, map_err. rewrite Em. destruct r; eauto. Qed.

Lemma twp_zoom {T A} get put (m : eff T E A) (Q : result E A -> S -> Prop) s :
  twp m (fun r t => Q r (put t s)) (get s) -> twp (zoom get put m) Q s.
Proof. intros (r & t & Em & HQ). exists r, (put t s). by rewrite (run_zoom _ _ _ _ _ _ Em). Qed.

Lemma twp_mono {A} (m : eff S E A) (P Q : result E A -> S -> Prop) s :
  twp m P s -> (forall r s', P r s' -> Q r s') -> twp m Q s.
Proof. intros (r & s1 & Em & HP) HPQ. exists r, s1. auto. Qed.
End twp.

Ltac twp_step :=
  lazymatch goal with
  | |- twp (_ ≫= _) _ _ => apply twp_bind
  | |- twp (mret _) _ _ => apply twp_ret
  | |- twp (throw _) _ _ => apply twp_throw
  | |- twp (gets _) _ _ => apply twp_gets
  | |- twp (modify _) _ _ => apply twp_modify
  | |- twp (attempt _) _ _ => apply twp_attempt
  | |- twp (map_err _ _) _ _ => apply twp_map_err
  | |- twp (zoom _ _ _) _ _ => apply twp_zoom
  end; cbv beta.
Ltac twp_steps := repeat twp_step.
