(* ===== verification/InterruptManager.v ===== *)
(** * Interrupt modes of a device

    Model of src/dragonball/dbs_interrupt/src/manager.rs: [DeviceInterruptManager],
    which creates the interrupt groups of a device, switches between the legacy
    and the MSI modes and keeps the MSI messages, and the status register of
    legacy interrupts.  The groups are those of an [InterruptManager], a trait
    of the crate; [K] is the state behind it (KVM routing and event files).  The
    features [legacy-irq] and [msi-irq] are on. *)
From S2P Require Import Prelude DeviceResources Effects.

Inductive DeviceInterruptMode := Disabled | LegacyIrqMode | GenericMsiIrq | PciMsiIrq | PciMsixIrq.

#[global] Instance DeviceInterruptMode_eq_dec : EqDecision DeviceInterruptMode.
Proof. solve_decision. Defined.

(** [mode as usize] *)
Definition mode_index (m : DeviceInterruptMode) : nat :=
  match m with Disabled => 0 | LegacyIrqMode => 1 | GenericMsiIrq => 2 | PciMsiIrq => 3 | PciMsixIrq => 4 end.

Inductive InterruptSourceType := LegacyIrqSource | MsiIrqSource.

Record MsiIrqSourceConfig := mkMsiConfig {
  high_addr : Z; low_addr : Z; msi_data : Z; msg_ctl : Z; msi_device_id : option Z }.

Definition MsiIrqSourceConfig_default : MsiIrqSourceConfig := mkMsiConfig 0 0 0 0 None.

Inductive InterruptSourceConfig := LegacyIrqConfig | MsiIrqConfig (c : MsiIrqSourceConfig).

(** The errors of the operating system. *)
Inductive errno := EINVAL | EEXIST | ENOENT | EOTHER.

(** The traits [InterruptSourceGroup] and [InterruptManager]. *)
Class InterruptSourceGroup (G K : Type) := {
  group_type : G -> InterruptSourceType;
  group_len : G -> Z;
  group_enable : G -> list InterruptSourceConfig -> K -> result errno unit * K;
  group_disable : G -> K -> result errno unit * K;
  group_update : G -> Z -> InterruptSourceConfig -> K -> result errno unit * K;
  group_mask : G -> Z -> K -> result errno unit * K;
  group_unmask : G -> Z -> K -> result errno unit * K;
  group_pending : G -> Z -> K -> bool * K;
  create_group : InterruptSourceType -> Z -> Z -> K -> result errno G * K;
}.

Definition MSI_INT_MASK : Z := 1.
Definition LEGACY_CONFIGS : list InterruptSourceConfig := [LegacyIrqConfig].

(** [usize::MAX], which marks a mode without a group. *)
Definition NO_GROUP : Z := u64_max.

(** Indexing of a vector. *)
Definition at_index {A} (l : list A) (i : Z) : option A :=
  if i <? Z.of_nat (length l) then l !! Z.to_nat i else None.

Section manager.
Context {G K : Type} `{InterruptSourceGroup G K}.

Record DeviceInterruptManager := mkDIM {
  dim_mode : DeviceInterruptMode;
  activated : bool;
  current_idx : Z;
  mode2idx : list Z;
  intr_groups : list G;
  msi_config : list InterruptSourceConfig;
  device_id : option Z;
}.

Definition set_dim_mode (v : DeviceInterruptMode) (d : DeviceInterruptManager) :=
  mkDIM v (activated d) (current_idx d) (mode2idx d) (intr_groups d) (msi_config d) (device_id d).
Definition set_activated (v : bool) (d : DeviceInterruptManager) :=
  mkDIM (dim_mode d) v (current_idx d) (mode2idx d) (intr_groups d) (msi_config d) (device_id d).
Definition set_current_idx (v : Z) (d : DeviceInterruptManager) :=
  mkDIM (dim_mode d) (activated d) v (mode2idx d) (intr_groups d) (msi_config d) (device_id d).
Definition set_msi_config (v : list InterruptSourceConfig) (d : DeviceInterruptManager) :=
  mkDIM (dim_mode d) (activated d) (current_idx d) (mode2idx d) (intr_groups d) v (device_id d).

(** The manager together with the state behind the groups. *)
#[local] Abbreviation dim_eff := (eff (DeviceInterruptManager * K) errno).

Definition dim {A} (f : DeviceInterruptManager -> A) : dim_eff A := gets (fun s => f s.1).
Definition upd (f : DeviceInterruptManager -> DeviceInterruptManager) : dim_eff unit :=
  modify (fun s => (f s.1, s.2)).
Definition sys_call {A} (f : K -> result errno A * K) : dim_eff A := fun s =>
  let '(r, k) := f s.2 in Ret (r, (s.1, k)).

(** [mode2idx[mode as usize]] *)
Definition idx_of (d : DeviceInterruptManager) (m : DeviceInterruptMode) : Z :=
  nth (mode_index m) (mode2idx d) NO_GROUP.

Definition resize_msi_config_space (size : Z) (d : DeviceInterruptManager) : DeviceInterruptManager :=
  if Z.of_nat (length (msi_config d)) <? size
  then set_msi_config (repeat (MsiIrqConfig MsiIrqSourceConfig_default) (Z.to_nat size)) d else d.

(** A new group for one of the modes: [is_msi] tells whether the MSI messages
    need room for it. *)
Definition add_group (m : DeviceInterruptMode) (ty : InterruptSourceType) (base count : Z) : dim_eff unit :=
  group ← sys_call (create_group ty base count);
  upd (fun d =>
    let d := match ty with MsiIrqSource => resize_msi_config_space (group_len group) d | LegacyIrqSource => d end in
    mkDIM (dim_mode d) (activated d) (current_idx d)
      (<[mode_index m := Z.of_nat (length (intr_groups d))]> (mode2idx d))
      (intr_groups d ++ [group]) (msi_config d) (device_id d)).

Definition DIM_empty : DeviceInterruptManager :=
  mkDIM Disabled false NO_GROUP (repeat NO_GROUP 5) [] [] None.

(** The body of [new], on a manager without groups. *)
Definition DIM_new (resources : DeviceResources) : dim_eff unit :=
  _ ← (match get_legacy_irq resources with
       | Some irq => add_group LegacyIrqMode LegacyIrqSource irq 1
       | None => mret tt
       end);
  _ ← (match get_generic_msi_irqs resources with
       | Some (base, size) => add_group GenericMsiIrq MsiIrqSource base size
       | None => mret tt
       end);
  _ ← (match get_pci_msi_irqs resources with
       | Some (base, size) => add_group PciMsiIrq MsiIrqSource base size
       | None => mret tt
       end);
  match get_pci_msix_irqs resources with
  | Some (base, size) => add_group PciMsixIrq MsiIrqSource base size
  | None => mret tt
  end.

Definition set_device_id (v : option Z) (d : DeviceInterruptManager) : DeviceInterruptManager :=
  mkDIM (dim_mode d) (activated d) (current_idx d) (mode2idx d) (intr_groups d) (msi_config d) v.

Definition is_enabled (d : DeviceInterruptManager) : bool := activated d.

Definition reset_configs (mode : DeviceInterruptMode) (d : DeviceInterruptManager) : DeviceInterruptManager :=
  match mode with
  | GenericMsiIrq | PciMsiIrq | PciMsixIrq =>
      set_msi_config (repeat (MsiIrqConfig MsiIrqSourceConfig_default) (length (msi_config d))) d
  | _ => d
  end.

Definition set_working_mode (mode : DeviceInterruptMode) : dim_eff unit :=
  d ← dim id;
  if activated d then throw EINVAL else
  if bool_decide (mode <> dim_mode d) then
    if bool_decide (dim_mode d <> Disabled) && bool_decide (dim_mode d <> LegacyIrqMode) &&
       bool_decide (mode <> LegacyIrqMode) && bool_decide (mode <> Disabled)
    then throw EINVAL
    else
      _ ← (if bool_decide (mode <> Disabled) then upd (set_current_idx (idx_of d mode))
           else upd (reset_configs mode));
      upd (set_dim_mode mode)
  else mret tt.

Definition get_configs (d : DeviceInterruptManager) (mode : DeviceInterruptMode) : option (list InterruptSourceConfig) :=
  match mode with
  | LegacyIrqMode => Some LEGACY_CONFIGS
  | GenericMsiIrq | PciMsiIrq | PciMsixIrq =>
      match at_index (intr_groups d) (idx_of d mode) with
      | None => None
      | Some g =>
          if group_len g <=? Z.of_nat (length (msi_config d))
          then Some (take (Z.to_nat (group_len g)) (msi_config d)) else None
      end
  | Disabled => None
  end.

Definition enable : dim_eff unit :=
  d ← dim id;
  if activated d then mret tt else
  _ ← (if bool_decide (dim_mode d = Disabled) && negb (idx_of d LegacyIrqMode =? NO_GROUP)
       then set_working_mode LegacyIrqMode else mret tt);
  d ← dim id;
  if bool_decide (dim_mode d = Disabled) then throw EINVAL else
  group ← expect (at_index (intr_groups d) (current_idx d));
  configs ← expect (get_configs d (dim_mode d));
  _ ← sys_call (group_enable group configs);
  upd (set_activated true).

Definition reset_dim : dim_eff unit :=
  d ← dim id;
  _ ← (if activated d then
         _ ← upd (set_activated false);
         group ← expect (at_index (intr_groups d) (current_idx d));
         sys_call (group_disable group)
       else mret tt);
  set_working_mode Disabled.

(** [get_group]; the index panics when the mode has no group. *)
Definition get_group : dim_eff (option G) :=
  d ← dim id;
  if negb (activated d) || bool_decide (dim_mode d = Disabled) then mret None
  else group ← expect (at_index (intr_groups d) (current_idx d)); mret (Some group).

Definition update (index : Z) : dim_eff unit :=
  d ← dim id;
  if negb (activated d) then throw EINVAL else
  match dim_mode d with
  | GenericMsiIrq | PciMsiIrq | PciMsixIrq =>
      group ← expect (at_index (intr_groups d) (current_idx d));
      if (group_len group <=? index) || (Z.of_nat (length (msi_config d)) <=? index) then throw EINVAL
      else
        config ← expect (at_index (msi_config d) index);
        sys_call (group_update group index config)
  | _ => throw EINVAL
  end.

(** The setters of an MSI message, which refuse an index out of range. *)
Definition update_msi (index : Z) (f : MsiIrqSourceConfig -> MsiIrqSourceConfig) : dim_eff unit :=
  d ← dim id;
  match at_index (msi_config d) index with
  | Some (MsiIrqConfig c) => upd (set_msi_config (<[Z.to_nat index := MsiIrqConfig (f c)]> (msi_config d)))
  | _ => throw EINVAL
  end.
Definition set_msi_high_address (index data : Z) : dim_eff unit :=
  update_msi index (fun c => mkMsiConfig data (low_addr c) (msi_data c) (msg_ctl c) (msi_device_id c)).
Definition set_msi_low_address (index data : Z) : dim_eff unit :=
  update_msi index (fun c => mkMsiConfig (high_addr c) data (msi_data c) (msg_ctl c) (msi_device_id c)).
Definition set_msi_data (index data : Z) : dim_eff unit :=
  update_msi index (fun c => mkMsiConfig (high_addr c) (low_addr c) data (msg_ctl c) (msi_device_id c)).
Definition set_msi_mask (index : Z) (mask : bool) : dim_eff unit :=
  update_msi index (fun c =>
    let ctl := Z.land (msg_ctl c) (unot u32_max MSI_INT_MASK) in
    mkMsiConfig (high_addr c) (low_addr c) (msi_data c) (if mask then Z.lor ctl MSI_INT_MASK else ctl) (msi_device_id c)).
Definition get_msi_mask (index : Z) : dim_eff bool :=
  d ← dim id;
  match at_index (msi_config d) index with
  | Some (MsiIrqConfig c) => mret (Z.land (msg_ctl c) MSI_INT_MASK =? MSI_INT_MASK)
  | _ => throw EINVAL
  end.
End manager.

Arguments DeviceInterruptManager : clear implicits.

(** [InterruptStatusRegister32] *)
Definition set_bits (status value : Z) : Z := Z.lor status value.
Definition clear_bits (status value : Z) : Z := Z.land status (unot u32_max value).
Definition read_and_clear (status : Z) : Z * Z := (status, 0).
