(* ===== verification/MmioData.v ===== *)
(** * The virtio MMIO transport: registers and data

    The register offsets and constants of src/dragonball/dbs_virtio_devices/src/mmio
    (mod.rs and dragonball.rs) and lib.rs, the doorbell and MSI registers, the
    state of the transport (mmio_state.rs, mmio_v2.rs), and the traits that it
    is written against: the virtio device behind the transport and the
    interrupt groups are traits of the repository; the queues belong to the
    crate virtio_queue and the event files to KVM. *)
From S2P Require Import Prelude DeviceResources Effects InterruptManager.

(** ** Constants *)

Definition MMIO_MAGIC_VALUE : Z := 0x74726976.
Definition MMIO_VERSION_2 : Z := 2.
Definition MMIO_NOTIFY_REG_OFFSET : Z := 0x50.
Definition MMIO_DEFAULT_CFG_SIZE : Z := 0x1000.
Abbreviation REG_MMIO_MAGIC_VALUE := (0x000).
Abbreviation REG_MMIO_VERSION := (0x004).
Abbreviation REG_MMIO_DEVICE_ID := (0x008).
Abbreviation REG_MMIO_VENDOR_ID := (0x00c).
Abbreviation REG_MMIO_DEVICE_FEATURE := (0x010).
Abbreviation REG_MMIO_DEVICE_FEATURES_S := (0x014).
Abbreviation REG_MMIO_DRIVER_FEATURE := (0x020).
Abbreviation REG_MMIO_DRIVER_FEATURES_S := (0x024).
Abbreviation REG_MMIO_QUEUE_SEL := (0x030).
Abbreviation REG_MMIO_QUEUE_NUM_MA := (0x034).
Abbreviation REG_MMIO_QUEUE_NUM := (0x038).
Abbreviation REG_MMIO_QUEUE_READY := (0x044).
Abbreviation REG_MMIO_QUEUE_NOTIF := (0x050).
Abbreviation REG_MMIO_INTERRUPT_STAT := (0x060).
Abbreviation REG_MMIO_INTERRUPT_AC := (0x064).
Abbreviation REG_MMIO_STATUS := (0x070).
Abbreviation REG_MMIO_QUEUE_DESC_LOW := (0x080).
Abbreviation REG_MMIO_QUEUE_DESC_HIGH := (0x084).
Abbreviation REG_MMIO_QUEUE_AVAIL_LOW := (0x090).
Abbreviation REG_MMIO_QUEUE_AVAIL_HIGH := (0x094).
Abbreviation REG_MMIO_QUEUE_USED_LOW := (0x0a0).
Abbreviation REG_MMIO_QUEUE_USED_HIGH := (0x0a4).
Abbreviation REG_MMIO_SHM_SEL := (0x0ac).
Abbreviation REG_MMIO_SHM_LEN_LOW := (0x0b0).
Abbreviation REG_MMIO_SHM_LEN_HIGH := (0x0b4).
Abbreviation REG_MMIO_SHM_BASE_LOW := (0x0b8).
Abbreviation REG_MMIO_SHM_BASE_HIGH := (0x0bc).
Abbreviation REG_MMIO_CONFIG_GENERATI := (0x0fc).

Definition MMIO_VENDOR_ID_DRAGONBALL : Z := 0xdbfcdb00.
Definition DRAGONBALL_FEATURE_MASK : Z := 0xff.
Definition DRAGONBALL_FEATURE_INTR_USED : Z := 0x1.
Definition DRAGONBALL_FEATURE_MSI_INTR : Z := 0x2.
Definition DRAGONBALL_FEATURE_PER_QUEUE_NOTIFY : Z := 0x4.
Definition DRAGONBALL_MMIO_DOORBELL_SIZE : Z := 0x1000.
Definition DRAGONBALL_MMIO_DOORBELL_OFFSET : Z := 0x1000.
Definition DRAGONBALL_MMIO_DOORBELL_SCALE : Z := 0x04.
Definition MMIO_CFG_SPACE_OFF : Z := 0x100.
Definition MMIO_MSI_CSR_SUPPORTED : Z := 0x8000.
Definition MMIO_MSI_CSR_ENABLED : Z := 0x8000.
Definition MMIO_MSI_CMD_CODE_MASK : Z := 0xf000.
Definition MMIO_MSI_CMD_ARG_MASK : Z := 0x0fff.
Definition MMIO_MSI_CMD_CODE_UPDATE : Z := 0x1000.
Definition MMIO_MSI_CMD_CODE_INT_MASK : Z := 0x2000.
Definition MMIO_MSI_CMD_CODE_INT_UNMASK : Z := 0x3000.
Abbreviation REG_MMIO_MSI_CSR := (0x0c0).
Abbreviation REG_MMIO_MSI_COMMAND := (0x0c2).
Abbreviation REG_MMIO_MSI_ADDRESS_L := (0x0c4).
Abbreviation REG_MMIO_MSI_ADDRESS_H := (0x0c8).
Abbreviation REG_MMIO_MSI_DATA := (0x0cc).

Definition DEVICE_INIT : Z := 0.
Definition DEVICE_ACKNOWLEDGE : Z := 1.
Definition DEVICE_DRIVER : Z := 2.
Definition DEVICE_DRIVER_OK : Z := 4.
Definition DEVICE_FEATURES_OK : Z := 8.
Definition DEVICE_FAILED : Z := 0x80.
Definition VIRTIO_INTR_VRING : Z := 1.

Definition DEVICE_STATUS_INIT : Z := DEVICE_INIT.
Definition DEVICE_STATUS_ACKNOWLEDE : Z := Z.lor DEVICE_STATUS_INIT DEVICE_ACKNOWLEDGE.
Definition DEVICE_STATUS_DRIVER : Z := Z.lor DEVICE_STATUS_ACKNOWLEDE DEVICE_DRIVER.
Definition DEVICE_STATUS_FEATURE_OK : Z := Z.lor DEVICE_STATUS_DRIVER DEVICE_FEATURES_OK.
Definition DEVICE_STATUS_DRIVER_OK : Z := Z.lor DEVICE_STATUS_FEATURE_OK DEVICE_DRIVER_OK.

(** ** Doorbell and MSI registers *)

Record DoorBell := mkDoorBell { db_offset : Z; db_scale : Z }.

Definition queue_offset (d : DoorBell) (queue_index : nat) : Z :=
  db_offset d + db_scale d * Z.of_nat queue_index.
Definition register_data (d : DoorBell) : Z :=
  Z.lor (db_offset d) (as_u32 (Z.shiftl (db_scale d) 16)).

Record Msi := mkMsi { index_select : Z; address_low : Z; address_high : Z; msi_reg_data : Z }.

Definition Msi_default : Msi := mkMsi 0 0 0 0.
Definition set_index_select (v : Z) (m : Msi) : Msi := mkMsi v (address_low m) (address_high m) (msi_reg_data m).
Definition set_address_low (v : Z) (m : Msi) : Msi := mkMsi (index_select m) v (address_high m) (msi_reg_data m).
Definition set_address_high (v : Z) (m : Msi) : Msi := mkMsi (index_select m) (address_low m) v (msi_reg_data m).
Definition set_data (v : Z) (m : Msi) : Msi := mkMsi (index_select m) (address_low m) (address_high m) v.

Record VirtioSharedMemory := mkShm { shm_offset : Z; shm_len : Z }.
Record VirtioSharedMemoryList := mkShmList { host_addr : Z; guest_addr : Z; shm_list_len : Z; region_list : list VirtioSharedMemory }.

Inductive ActivateError :=
| InvalidParam | InternalError | InvalidQueueConfig | ActivateIOError (e : errno) | VirtioError | EpollMgr | VhostActivate | ActivateVirtioPci.

Inductive TransportError :=
| TIOError (e : errno) | TInterruptError (e : errno) | TVirtioQueueError
| TActivateError (e : ActivateError) | TInvalidInput | TDevice.

(** The data match of an ioevent: none, or a value of 32 or 64 bits. *)
Inductive DataMatch := NoDatamatch | Match32 (v : Z) | Match64 (v : Z).

#[global] Instance DataMatch_eq_dec : EqDecision DataMatch.
Proof. solve_decision. Defined.

(** An event file. *)
Definition eventfd : Type := nat.

(** KVM: event files bound to guest addresses, and the memory slots (slot,
    guest address, size, host address). *)
Class Vm (K : Type) := {
  register_ioevent : eventfd -> Z -> DataMatch -> K -> result errno unit * K;
  unregister_ioevent : eventfd -> Z -> DataMatch -> K -> result errno unit * K;
  set_user_memory_region : Z -> Z -> Z -> Z -> K -> result errno unit * K;
  eventfd_new : K -> result errno eventfd * K;
  check_extension_no_length : K -> bool;
}.

(** The queues of the crate virtio_queue; whether a queue lies in guest memory
    depends on the memory, which is part of [K]. *)
Class QueueT (Q K : Type) := {
  q_new : Z -> option Q;
  q_max_size : Q -> Z;
  q_ready : Q -> bool;
  q_set_size : Z -> Q -> Q;
  q_set_ready : bool -> Q -> Q;
  q_set_desc_table_address : option Z -> option Z -> Q -> Q;
  q_set_avail_ring_address : option Z -> option Z -> Q -> Q;
  q_set_used_ring_address : option Z -> option Z -> Q -> Q;
  q_is_valid : K -> Q -> bool;
  q_reset : Q -> Q;
}.

Section data.
Context {G V Q : Type}.

(** How an interrupt reaches the guest: not at all before the activation, then
    by the legacy line with a status flag, by an MSI vector, or by the MSI-X
    vector that the driver chose for a queue or for configuration changes. *)
Inductive Notifier :=
| NoopNotifier | LegacyNotifier (g : G) (flag : Z) | MsiNotifier (g : G) (index : Z) | MsixNotifier (g : G) (queue : option Z).

Record VirtioQueueConfig := mkQueueConfig { queue : Q; q_eventfd : eventfd; q_notifier : Notifier; q_index : Z }.

(** What the device is given when it is activated. *)
Record VirtioDeviceConfig := mkDeviceConfig {
  c_resources : DeviceResources;
  c_queues : list VirtioQueueConfig;
  c_ctrl_queue : option VirtioQueueConfig;
  c_device_change_notifier : Notifier;
  c_shm_regions : option VirtioSharedMemoryList;
}.

Record MmioV2DeviceState := mkState {
  device : V;
  intr_mgr : DeviceInterruptManager G;
  device_resources : DeviceResources;
  queues : list VirtioQueueConfig;
  mmio_base : Z;
  has_ctrl_queue : bool;
  device_activated : bool;
  ioevent_registered : bool;
  features_select : Z;
  acked_features_select : Z;
  queue_select : Z;
  msi : option Msi;
  doorbell : option DoorBell;
  shm_region_id : Z;
  shm_regions : option VirtioSharedMemoryList;
}.

Definition put_device (v : V) (s : MmioV2DeviceState) : MmioV2DeviceState :=
  mkState v (intr_mgr s) (device_resources s) (queues s) (mmio_base s) (has_ctrl_queue s) (device_activated s) (ioevent_registered s)
    (features_select s) (acked_features_select s) (queue_select s) (msi s) (doorbell s) (shm_region_id s) (shm_regions s).
Definition put_intr_mgr (v : DeviceInterruptManager G) (s : MmioV2DeviceState) : MmioV2DeviceState :=
  mkState (device s) v (device_resources s) (queues s) (mmio_base s) (has_ctrl_queue s) (device_activated s) (ioevent_registered s)
    (features_select s) (acked_features_select s) (queue_select s) (msi s) (doorbell s) (shm_region_id s) (shm_regions s).
Definition put_queues (v : list VirtioQueueConfig) (s : MmioV2DeviceState) : MmioV2DeviceState :=
  mkState (device s) (intr_mgr s) (device_resources s) v (mmio_base s) (has_ctrl_queue s) (device_activated s) (ioevent_registered s)
    (features_select s) (acked_features_select s) (queue_select s) (msi s) (doorbell s) (shm_region_id s) (shm_regions s).
Definition put_device_activated (v : bool) (s : MmioV2DeviceState) : MmioV2DeviceState :=
  mkState (device s) (intr_mgr s) (device_resources s) (queues s) (mmio_base s) (has_ctrl_queue s) v (ioevent_registered s)
    (features_select s) (acked_features_select s) (queue_select s) (msi s) (doorbell s) (shm_region_id s) (shm_regions s).
Definition put_ioevent_registered (v : bool) (s : MmioV2DeviceState) : MmioV2DeviceState :=
  mkState (device s) (intr_mgr s) (device_resources s) (queues s) (mmio_base s) (has_ctrl_queue s) (device_activated s) v
    (features_select s) (acked_features_select s) (queue_select s) (msi s) (doorbell s) (shm_region_id s) (shm_regions s).
Definition put_features_select (v : Z) (s : MmioV2DeviceState) : MmioV2DeviceState :=
  mkState (device s) (intr_mgr s) (device_resources s) (queues s) (mmio_base s) (has_ctrl_queue s) (device_activated s) (ioevent_registered s)
    v (acked_features_select s) (queue_select s) (msi s) (doorbell s) (shm_region_id s) (shm_regions s).
Definition put_acked_features_select (v : Z) (s : MmioV2DeviceState) : MmioV2DeviceState :=
  mkState (device s) (intr_mgr s) (device_resources s) (queues s) (mmio_base s) (has_ctrl_queue s) (device_activated s) (ioevent_registered s)
    (features_select s) v (queue_select s) (msi s) (doorbell s) (shm_region_id s) (shm_regions s).
Definition put_queue_select (v : Z) (s : MmioV2DeviceState) : MmioV2DeviceState :=
  mkState (device s) (intr_mgr s) (device_resources s) (queues s) (mmio_base s) (has_ctrl_queue s) (device_activated s) (ioevent_registered s)
    (features_select s) (acked_features_select s) v (msi s) (doorbell s) (shm_region_id s) (shm_regions s).
Definition put_msi (v : option Msi) (s : MmioV2DeviceState) : MmioV2DeviceState :=
  mkState (device s) (intr_mgr s) (device_resources s) (queues s) (mmio_base s) (has_ctrl_queue s) (device_activated s) (ioevent_registered s)
    (features_select s) (acked_features_select s) (queue_select s) v (doorbell s) (shm_region_id s) (shm_regions s).
Definition put_doorbell (v : option DoorBell) (s : MmioV2DeviceState) : MmioV2DeviceState :=
  mkState (device s) (intr_mgr s) (device_resources s) (queues s) (mmio_base s) (has_ctrl_queue s) (device_activated s) (ioevent_registered s)
    (features_select s) (acked_features_select s) (queue_select s) (msi s) v (shm_region_id s) (shm_regions s).
Definition put_shm_region_id (v : Z) (s : MmioV2DeviceState) : MmioV2DeviceState :=
  mkState (device s) (intr_mgr s) (device_resources s) (queues s) (mmio_base s) (has_ctrl_queue s) (device_activated s) (ioevent_registered s)
    (features_select s) (acked_features_select s) (queue_select s) (msi s) (doorbell s) v (shm_regions s).

Record MmioV2Device := mkMmioV2Device {
  state : MmioV2DeviceState;
  assigned_resources : DeviceResources;
  mmio_cfg_res : Resource;
  device_vendor : Z;
  driver_status : Z;
  config_generation : Z;
  interrupt_status : Z;
}.

Definition put_state (v : MmioV2DeviceState) (d : MmioV2Device) : MmioV2Device :=
  mkMmioV2Device v (assigned_resources d) (mmio_cfg_res d) (device_vendor d) (driver_status d) (config_generation d) (interrupt_status d).
Definition put_driver_status (v : Z) (d : MmioV2Device) : MmioV2Device :=
  mkMmioV2Device (state d) (assigned_resources d) (mmio_cfg_res d) (device_vendor d) v (config_generation d) (interrupt_status d).
Definition put_interrupt_status (v : Z) (d : MmioV2Device) : MmioV2Device :=
  mkMmioV2Device (state d) (assigned_resources d) (mmio_cfg_res d) (device_vendor d) (driver_status d) (config_generation d) v.
End data.

Arguments Notifier : clear implicits.
Arguments VirtioQueueConfig : clear implicits.
Arguments VirtioDeviceConfig : clear implicits.
Arguments MmioV2DeviceState : clear implicits.
Arguments MmioV2Device : clear implicits.

(** The trait [VirtioDevice]. *)
Class VirtioDevice (V G Q K : Type) := {
  device_type : V -> Z;
  queue_max_sizes : V -> list Z;
  ctrl_queue_max_sizes : V -> Z;
  get_avail_features : V -> Z -> Z;
  dev_set_acked_features : Z -> Z -> V -> V;
  dev_read_config : Z -> list Z -> V -> list Z * V;
  dev_write_config : Z -> list Z -> V -> V;
  dev_activate : VirtioDeviceConfig G Q -> V -> K -> result ActivateError unit * V * K;
  dev_reset : V -> K -> result ActivateError unit * V * K;
  dev_remove : V -> K -> V * K;
  dev_set_resource : DeviceResources -> V -> K -> result TransportError (option VirtioSharedMemoryList) * V * K;
}.
