(* ===== verification/MmioTransport.v ===== *)
(** * The virtio MMIO transport: operations

    Model of src/dragonball/dbs_virtio_devices/src/mmio/mmio_state.rs and
    mmio_v2.rs: construction, activation with the ioevent registrations and
    their roll back, reset, the driver status machine, the MSI registers, and
    the dispatch of register reads and writes.  The methods run under the lock
    of the state, so a register access is one step; the state [K] holds what
    the calls to KVM, to the interrupt groups and to the device change. *)
From S2P Require Import Prelude DeviceResources Effects InterruptManager MmioData.

Section transport.
Context {G V Q K : Type} `{InterruptSourceGroup G K} `{Vm K} `{QueueT Q K} `{VirtioDevice V G Q K}.

(** The transport with the state around it. *)
#[local] Abbreviation St := (MmioV2Device G V Q * K)%type.
#[local] Abbreviation tx := (eff St TransportError).

Definition st {A} (f : MmioV2DeviceState G V Q -> A) : tx A := gets (fun s => f (state s.1)).
Definition upd_st (f : MmioV2DeviceState G V Q -> MmioV2DeviceState G V Q) : tx unit :=
  modify (fun s => (put_state (f (state s.1)) s.1, s.2)).
Definition io {A} (f : K -> result errno A * K) : eff St errno A := fun s =>
  let '(r, k) := f s.2 in Ret (r, (s.1, k)).
Definition lift {A} (o : outcome A) : tx A := fun s =>
  match o with Ret a => Ret (Ok a, s) | Panic => Panic end.

(** A call whose result is dropped. *)
Definition ignore {E A} (m : eff St E A) : tx unit := fun s =>
  match m s with Ret (_, s') => Ret (Ok tt, s') | Panic => Panic end.

(** A method of the interrupt manager of the device. *)
Definition intr {A} (m : eff (DeviceInterruptManager G * K) errno A) : eff St errno A :=
  zoom (fun s => (intr_mgr (state s.1), s.2))
       (fun t s => (put_state (put_intr_mgr t.1 (state s.1)) s.1, t.2)) m.

(** A method of the virtio device that may change it and the state around. *)
Definition on_device {E A} (f : V -> K -> result E A * V * K) : eff St E A := fun s =>
  let '(r, v, k) := f (device (state s.1)) s.2 in
  Ret (r, (put_state (put_device v (state s.1)) s.1, k)).

(** ** Ioevents *)

Definition unregister_ioevent_doorbell : tx unit :=
  s ← st id;
  match doorbell s with
  | None => mret tt
  | Some db =>
      for_each (fun '(i, q) =>
        addr ← lift (uadd u64_max (mmio_base s) (queue_offset db i));
        ignore (io (unregister_ioevent (q_eventfd q) addr NoDatamatch))) (imap pair (queues s))
  end.

(** The loop that counts [idx] down; a conversion of [NoDatamatch] to a number
    is zero, so that the value is always a match on 64 bits. *)
Fixpoint revert_loop (qs : list (VirtioQueueConfig G Q)) (idx : nat) (addr : Z) (wildcard : bool) : tx unit :=
  match idx with
  | O => mret tt
  | S idx' =>
      q ← expect (qs !! idx');
      _ ← ignore (io (unregister_ioevent (q_eventfd q) addr
             (Match64 (if wildcard then 0 else Z.of_nat idx))));
      revert_loop qs idx' addr wildcard
  end.

Definition revert_ioevent (num : nat) (addr : Z) (wildcard : bool) : tx unit :=
  s ← st id;
  if Nat.ltb num (length (queues s)) then revert_loop (queues s) num addr wildcard else panic.

(** The body of the loop of [register_ioevent] for one queue. *)
Definition register_queue_ioevent (i : nat) (q : VirtioQueueConfig G Q) : tx unit :=
  s ← st id;
  _ ← (match doorbell s with
       | None => mret tt
       | Some db =>
           addr ← lift (uadd u64_max (mmio_base s) (queue_offset db i));
           r ← attempt (io (register_ioevent (q_eventfd q) addr NoDatamatch));
           match r with
           | Err e => _ ← revert_ioevent i addr true; throw (TIOError e)
           | Ok _ => mret tt
           end
       end);
  addr ← lift (uadd u64_max (mmio_base s) MMIO_NOTIFY_REG_OFFSET);
  r ← attempt (io (register_ioevent (q_eventfd q) addr (Match32 (Z.of_nat i))));
  match r with
  | Err e =>
      _ ← unregister_ioevent_doorbell;
      _ ← revert_ioevent i addr false;
      throw (TIOError e)
  | Ok _ => mret tt
  end.

Definition register_ioevents : tx unit :=
  qs ← st queues;
  _ ← for_each (fun '(i, q) => register_queue_ioevent i q) (imap pair qs);
  upd_st (put_ioevent_registered true).

Definition unregister_ioevents : tx unit :=
  s ← st id;
  if ioevent_registered s then
    addr ← lift (uadd u64_max (mmio_base s) MMIO_NOTIFY_REG_OFFSET);
    for_each (fun '(i, q) =>
      _ ← ignore (io (unregister_ioevent (q_eventfd q) addr (Match32 (Z.of_nat i))));
      upd_st (put_ioevent_registered false)) (imap pair (queues s))
  else mret tt.

(** ** Activation and reset *)

Definition check_queues_valid (s : St) : bool :=
  forallb (fun c => q_is_valid s.2 (queue c)) (queues (state s.1)).

Definition create_queue_notifier (g : G) (index : Z) : Notifier G :=
  match group_type g with
  | LegacyIrqSource => LegacyNotifier g VIRTIO_INTR_VRING
  | MsiIrqSource => MsiNotifier g index
  end.
Definition create_device_notifier (g : G) (index : Z) : Notifier G :=
  match group_type g with
  | LegacyIrqSource => LegacyNotifier g 2
  | MsiIrqSource => MsiNotifier g index
  end.

(** The queues for the device: the first interrupt is for changes of the
    configuration, the next ones are for the queues. *)
Definition create_queue_config : tx (list (VirtioQueueConfig G Q)) :=
  o ← map_err TIOError (intr get_group);
  group ← expect o;
  qs ← st queues;
  mret (map (fun q => mkQueueConfig (queue q) (q_eventfd q) (create_queue_notifier group (q_index q + 1)) (q_index q)) qs).

Definition create_device_config : tx (VirtioDeviceConfig G Q) :=
  qs ← create_queue_config;
  s ← st id;
  o ← map_err TIOError (intr get_group);
  group ← expect o;
  let '(qs, ctrl) := if has_ctrl_queue s then (removelast qs, last qs) else (qs, None) in
  mret (mkDeviceConfig (device_resources s) qs ctrl (create_device_notifier group 0) (shm_regions s)).

Definition activate : tx unit :=
  s ← gets id;
  if device_activated (state s.1) then mret tt else
  if negb (check_queues_valid s) then throw (TActivateError InvalidQueueConfig) else
  _ ← register_ioevents;
  _ ← map_err TIOError (intr enable);
  config ← create_device_config;
  _ ← map_err TActivateError (on_device (dev_activate config));
  upd_st (put_device_activated true).

Definition deactivate (s : MmioV2DeviceState G V Q) : MmioV2DeviceState G V Q :=
  if device_activated s then put_device_activated false s else s.

(** The loop that gives every queue its initial state, up to a failure. *)
Fixpoint reset_queues (qs : list (VirtioQueueConfig G Q)) : result TransportError unit * list (VirtioQueueConfig G Q) :=
  match qs with
  | [] => (Ok tt, [])
  | q :: qs' =>
      match q_new (K:=K) (q_max_size (K:=K) (queue q)) with
      | None => (Err TVirtioQueueError, qs)
      | Some new_queue =>
          let '(r, qs'') := reset_queues qs' in
          (r, mkQueueConfig new_queue (q_eventfd q) (q_notifier q) (q_index q) :: qs'')
      end
  end.

Definition reset : tx unit :=
  s ← st id;
  if device_activated s then mret tt else
  let '(r, qs) := reset_queues (queues s) in
  _ ← upd_st (put_queues qs);
  match r with
  | Err e => throw e
  | Ok _ =>
      _ ← ignore (intr reset_dim);
      _ ← unregister_ioevent_doorbell;
      _ ← unregister_ioevents;
      upd_st (fun s => put_doorbell None (put_msi None (put_queue_select 0
                (put_acked_features_select 0 (put_features_select 0 s)))))
  end.

(** ** Interrupt registers *)

Definition set_driver_failed : tx unit :=
  modify (fun s => (put_driver_status (Z.lor (driver_status s.1) DEVICE_FAILED) s.1, s.2)).

Definition set_working_mode_or_fail (mode : DeviceInterruptMode) (new_msi : option Msi) : tx unit :=
  r ← attempt (intr (set_working_mode mode));
  match r with
  | Ok _ => upd_st (put_msi new_msi)
  | Err _ => set_driver_failed
  end.

Definition update_msi_enable (v : Z) : tx unit :=
  status ← gets (fun s => driver_status s.1);
  if negb (Z.land status DEVICE_DRIVER_OK =? 0) then
    if Z.land status DEVICE_FAILED =? 0 then set_driver_failed else mret tt
  else
    m ← st msi;
    if negb (Z.land v MMIO_MSI_CSR_ENABLED =? 0) then
      match m with
      | None => set_working_mode_or_fail GenericMsiIrq (Some Msi_default)
      | Some _ => mret tt
      end
    else
      match m with
      | Some _ => set_working_mode_or_fail LegacyIrqMode None
      | None => mret tt
      end.

Definition intr_enabled (s : MmioV2DeviceState G V Q) : bool := is_enabled (intr_mgr s).

Definition update_msi_cfg (v : Z) : tx unit :=
  m ← st msi;
  match m with
  | None => mret tt
  | Some m =>
      _ ← upd_st (put_msi (Some (set_index_select v m)));
      _ ← map_err TInterruptError (intr (set_msi_low_address v (address_low m)));
      _ ← map_err TInterruptError (intr (set_msi_high_address v (address_high m)));
      _ ← map_err TInterruptError (intr (set_msi_data v (msi_reg_data m)));
      enabled ← st intr_enabled;
      if negb enabled then mret tt else map_err TInterruptError (intr (update v))
  end.

Definition mask_msi_int (index : Z) (mask : bool) : tx unit :=
  enabled ← st intr_enabled;
  if negb enabled then mret tt else
  o ← map_err TIOError (intr get_group);
  match o with
  | None => mret tt
  | Some group =>
      old_mask ← map_err TInterruptError (intr (get_msi_mask index));
      if negb old_mask && mask then
        _ ← map_err TIOError (io (group_mask group index));
        map_err TInterruptError (intr (set_msi_mask index true))
      else if old_mask && negb mask then
        _ ← map_err TIOError (io (group_unmask group index));
        map_err TInterruptError (intr (set_msi_mask index false))
      else mret tt
  end.

(** A failed command only leaves a line in the log. *)
Definition handle_msi_cmd (v : Z) : tx unit :=
  let arg := Z.land v MMIO_MSI_CMD_ARG_MASK in
  let code := Z.land v MMIO_MSI_CMD_CODE_MASK in
  d ← st device;
  if code =? MMIO_MSI_CMD_CODE_UPDATE then
    if as_u16 (Z.of_nat (length (queue_max_sizes (Q:=Q) (G:=G) (K:=K) d))) <? arg then mret tt
    else ignore (update_msi_cfg arg)
  else if code =? MMIO_MSI_CMD_CODE_INT_MASK then
    ignore (mask_msi_int arg true)
  else if code =? MMIO_MSI_CMD_CODE_INT_UNMASK then
    ignore (mask_msi_int arg false)
  else set_driver_failed.

(** ** The driver status *)

Definition check_driver_status (s : St) (set clr : Z) : bool :=
  Z.land (driver_status s.1) (Z.lor set clr) =? set.

(** [compare_exchange] on the status. *)
Definition exchange_driver_status (old new : Z) : tx (result Z Z) :=
  status ← gets (fun s => driver_status s.1);
  if status =? old then
    _ ← modify (fun s => (put_driver_status new s.1, s.2));
    mret (Ok old)
  else mret (Err status).

Definition update_driver_status (v : Z) : tx unit :=
  result ←
    (if v =? DEVICE_STATUS_ACKNOWLEDE then exchange_driver_status DEVICE_STATUS_INIT DEVICE_STATUS_ACKNOWLEDE
     else if v =? DEVICE_STATUS_DRIVER then exchange_driver_status DEVICE_STATUS_ACKNOWLEDE DEVICE_STATUS_DRIVER
     else if v =? DEVICE_STATUS_FEATURE_OK then exchange_driver_status DEVICE_STATUS_DRIVER DEVICE_STATUS_FEATURE_OK
     else if v =? DEVICE_STATUS_DRIVER_OK then
       result ← exchange_driver_status DEVICE_STATUS_FEATURE_OK DEVICE_STATUS_DRIVER_OK;
       match result with
       | Err e => mret (Err e)
       | Ok o =>
           r ← attempt activate;
           match r with
           | Ok _ => mret (Ok o)
           | Err _ => _ ← ignore reset; mret (Err DEVICE_FAILED)
           end
       end
     else if v =? 0 then
       status ← gets (fun s => driver_status s.1);
       active ← st device_activated;
       if status =? DEVICE_INIT then mret (Ok 0)
       else if negb active then mret (Err DEVICE_FAILED)
       else
         r ← attempt (on_device dev_reset);
         match r with
         | Err _ => mret (Err DEVICE_FAILED)
         | Ok _ =>
             _ ← upd_st deactivate;
             r ← attempt reset;
             match r with
             | Err _ => mret (Err DEVICE_FAILED)
             | Ok _ => exchange_driver_status DEVICE_STATUS_DRIVER_OK DEVICE_STATUS_INIT
             end
         end
     else
       status ← gets (fun s => driver_status s.1);
       if v =? status then mret (Ok 0)
       else if negb (Z.land v DEVICE_FAILED =? 0) then _ ← set_driver_failed; mret (Ok 0)
       else mret (Err DEVICE_FAILED));
  match result with
  | Err _ => set_driver_failed
  | Ok _ => mret tt
  end.

(** ** Registers *)

Definition with_queue {U} (d : U) (f : Q -> U) (s : MmioV2DeviceState G V Q) : U :=
  match at_index (queues s) (queue_select s) with Some c => f (queue c) | None => d end.

Definition with_queue_mut (f : Q -> Q) (s : MmioV2DeviceState G V Q) : MmioV2DeviceState G V Q :=
  match at_index (queues s) (queue_select s) with
  | Some c =>
      put_queues (<[Z.to_nat (queue_select s) := mkQueueConfig (f (queue c)) (q_eventfd c) (q_notifier c) (q_index c)]> (queues s)) s
  | None => s
  end.

Definition update_queue_field (f : Q -> Q) : tx unit :=
  s ← gets id;
  if check_driver_status s DEVICE_FEATURES_OK (Z.lor DEVICE_DRIVER_OK DEVICE_FAILED)
  then upd_st (with_queue_mut f) else mret tt.

Definition tweak_intr_flags (d : MmioV2Device G V Q) (flags : Z) : Z :=
  if negb (Z.land (device_vendor d) DRAGONBALL_FEATURE_INTR_USED =? 0) then Z.lor flags VIRTIO_INTR_VRING else flags.

Definition device_features (s : MmioV2DeviceState G V Q) : Z :=
  let features := get_avail_features (Q:=Q) (G:=G) (K:=K) (device s) (features_select s) in
  if features_select s =? 1 then Z.lor features 1 else features.

Definition set_acked_features (v : Z) : tx unit :=
  s ← gets id;
  if check_driver_status s DEVICE_DRIVER (Z.lor DEVICE_FEATURES_OK DEVICE_FAILED)
  then upd_st (fun t => put_device (dev_set_acked_features (Q:=Q) (G:=G) (K:=K) (acked_features_select t) v (device t)) t)
  else mret tt.

Definition get_device_config (offset : Z) (data : list Z) : tx (list Z) :=
  s ← gets id;
  if check_driver_status s DEVICE_DRIVER DEVICE_FAILED then
    let '(data', v) := dev_read_config (Q:=Q) (G:=G) (K:=K) offset data (device (state s.1)) in
    _ ← upd_st (put_device v); mret data'
  else mret data.

Definition set_device_config (offset : Z) (data : list Z) : tx unit :=
  s ← gets id;
  if check_driver_status s DEVICE_DRIVER DEVICE_FAILED
  then upd_st (fun t => put_device (dev_write_config (Q:=Q) (G:=G) (K:=K) offset data (device t)) t)
  else mret tt.

Definition get_shm_field (d : Z) (f : VirtioSharedMemory -> outcome Z) (s : MmioV2DeviceState G V Q) : outcome Z :=
  match shm_regions s with
  | Some regions => match at_index (region_list regions) (shm_region_id s) with Some r => f r | None => Ret d end
  | None => Ret d
  end.

Definition shm_base (s : MmioV2DeviceState G V Q) : Z :=
  match shm_regions s with Some regions => guest_addr regions | None => 0 end.

Definition get_shm_base_low (s : MmioV2DeviceState G V Q) : outcome Z :=
  get_shm_field 0xffffffff (fun r => a ← uadd u64_max (shm_offset r) (shm_base s); Ret (as_u32 a)) s.
Definition get_shm_base_high (s : MmioV2DeviceState G V Q) : outcome Z :=
  get_shm_field 0xffffffff (fun r => a ← uadd u64_max (shm_offset r) (shm_base s); Ret (as_u32 (Z.shiftr a 32))) s.

(** The value of a 32-bit register, [None] for an unknown one. *)
Definition read_reg (offset : Z) (d : MmioV2Device G V Q) : outcome (option Z) :=
  let s := state d in
  if offset =? REG_MMIO_MAGIC_VALUE then Ret (Some MMIO_MAGIC_VALUE)
  else if offset =? REG_MMIO_VERSION then Ret (Some MMIO_VERSION_2)
  else if offset =? REG_MMIO_DEVICE_ID then Ret (Some (device_type (Q:=Q) (G:=G) (K:=K) (device s)))
  else if offset =? REG_MMIO_VENDOR_ID then Ret (Some (device_vendor d))
  else if offset =? REG_MMIO_DEVICE_FEATURE then Ret (Some (device_features s))
  else if offset =? REG_MMIO_QUEUE_NUM_MA then Ret (Some (with_queue 0 (q_max_size (K:=K)) s))
  else if offset =? REG_MMIO_QUEUE_READY then Ret (Some (with_queue 0 (fun q => Z.b2z (q_ready (K:=K) q)) s))
  else if (offset =? REG_MMIO_QUEUE_NOTIF) && bool_decide (is_Some (doorbell s)) then
    Ret (register_data <$> doorbell s)
  else if offset =? REG_MMIO_INTERRUPT_STAT then Ret (Some (tweak_intr_flags d (interrupt_status d)))
  else if offset =? REG_MMIO_STATUS then Ret (Some (driver_status d))
  else if offset =? REG_MMIO_SHM_LEN_LOW then
    Some <$> get_shm_field 0xffffffff (fun r => Ret (as_u32 (shm_len r))) s
  else if offset =? REG_MMIO_SHM_LEN_HIGH then
    Some <$> get_shm_field 0xffffffff (fun r => Ret (as_u32 (Z.shiftr (shm_len r) 32))) s
  else if offset =? REG_MMIO_SHM_BASE_LOW then Some <$> get_shm_base_low s
  else if offset =? REG_MMIO_SHM_BASE_HIGH then Some <$> get_shm_base_high s
  else if offset =? REG_MMIO_CONFIG_GENERATI then Ret (Some (config_generation d))
  else Ret None.

(** [DeviceIo::read]: the bytes that the guest gets. *)
Definition mmio_v2_read (offset : Z) (data : list Z) : tx (list Z) :=
  d ← gets fst;
  if MMIO_CFG_SPACE_OFF <=? offset then get_device_config (offset - MMIO_CFG_SPACE_OFF) data
  else if Nat.eqb (length data) 4 then
    o ← lift (read_reg offset d);
    mret (match o with Some v => le_write 4 v | None => data end)
  else if Nat.eqb (length data) 2 then
    if offset =? REG_MMIO_MSI_CSR then
      mret (le_write 2 (if negb (Z.land (device_vendor d) DRAGONBALL_FEATURE_MSI_INTR =? 0)
                        then MMIO_MSI_CSR_SUPPORTED else 0))
    else mret data
  else mret data.

Definition upd_msi (f : Msi -> Msi) : tx unit := upd_st (fun s => put_msi (f <$> msi s) s).

(** A write of a 32-bit register. *)
Definition write_reg (offset v : Z) : tx unit :=
  if offset =? REG_MMIO_DEVICE_FEATURES_S then upd_st (put_features_select v)
  else if offset =? REG_MMIO_DRIVER_FEATURE then set_acked_features v
  else if offset =? REG_MMIO_DRIVER_FEATURES_S then upd_st (put_acked_features_select v)
  else if offset =? REG_MMIO_QUEUE_SEL then upd_st (put_queue_select v)
  else if offset =? REG_MMIO_QUEUE_NUM then update_queue_field (q_set_size (K:=K) (as_u16 v))
  else if offset =? REG_MMIO_QUEUE_READY then update_queue_field (q_set_ready (K:=K) (v =? 1))
  else if offset =? REG_MMIO_INTERRUPT_AC then
    modify (fun s => (put_interrupt_status (clear_bits (interrupt_status s.1) v) s.1, s.2))
  else if offset =? REG_MMIO_STATUS then update_driver_status v
  else if offset =? REG_MMIO_QUEUE_DESC_LOW then update_queue_field (q_set_desc_table_address (K:=K) (Some v) None)
  else if offset =? REG_MMIO_QUEUE_DESC_HIGH then update_queue_field (q_set_desc_table_address (K:=K) None (Some v))
  else if offset =? REG_MMIO_QUEUE_AVAIL_LOW then update_queue_field (q_set_avail_ring_address (K:=K) (Some v) None)
  else if offset =? REG_MMIO_QUEUE_AVAIL_HIGH then update_queue_field (q_set_avail_ring_address (K:=K) None (Some v))
  else if offset =? REG_MMIO_QUEUE_USED_LOW then update_queue_field (q_set_used_ring_address (K:=K) (Some v) None)
  else if offset =? REG_MMIO_QUEUE_USED_HIGH then update_queue_field (q_set_used_ring_address (K:=K) None (Some v))
  else if offset =? REG_MMIO_SHM_SEL then upd_st (put_shm_region_id v)
  else if offset =? REG_MMIO_MSI_ADDRESS_L then upd_msi (set_address_low v)
  else if offset =? REG_MMIO_MSI_ADDRESS_H then upd_msi (set_address_high v)
  else if offset =? REG_MMIO_MSI_DATA then upd_msi (set_data v)
  else mret tt.

(** [DeviceIo::write] *)
Definition mmio_v2_write (offset : Z) (data : list Z) : tx unit :=
  if (MMIO_CFG_SPACE_OFF <=? offset) && (offset <? DRAGONBALL_MMIO_DOORBELL_OFFSET) then
    set_device_config (offset - MMIO_CFG_SPACE_OFF) data
  else if Nat.eqb (length data) 4 then write_reg offset (le_read data)
  else if Nat.eqb (length data) 2 then
    if offset =? REG_MMIO_MSI_CSR then update_msi_enable (le_read data)
    else if offset =? REG_MMIO_MSI_COMMAND then handle_msi_cmd (le_read data)
    else mret tt
  else mret tt.

(** [MmioV2Device::remove] *)
Definition remove : tx unit := on_device (fun v k => let '(v, k) := dev_remove (Q:=Q) (G:=G) v k in (Ok tt, v, k)).

(** Dropping the state takes the shared memory out of the guest. *)
Definition state_drop (s : MmioV2DeviceState G V Q) (k : K) : outcome K :=
  match shm_regions s with
  | None => Ret k
  | Some memlist =>
      match get_mmio_address_ranges (device_resources s), get_kvm_mem_slots (device_resources s) with
      | [_], [slot] =>
          match set_user_memory_region slot (guest_addr memlist) 0 (host_addr memlist) k with
          | (Ok _, k) => Ret k
          | (Err _, _) => Panic
          end
      | _, _ => Panic
      end
  end.

(** [get_trapped_io_resources] *)
Definition mmio_trapped_resources (d : MmioV2Device G V Q) : DeviceResources :=
  dr_append dr_new (mmio_cfg_res d).

(** ** Construction *)

(** The queues of the device, each with an event file, then the control queue. *)
Fixpoint create_queues_from (sizes : list Z) (idx : nat) : eff K TransportError (list (VirtioQueueConfig G Q)) :=
  match sizes with
  | [] => mret []
  | size :: sizes' => fun k =>
      match eventfd_new k with
      | (Err e, k) => Ret (Err (TIOError e), k)
      | (Ok fd, k) =>
          match q_new (K:=K) size with
          | None => Ret (Err TVirtioQueueError, k)
          | Some q =>
              (qs ← create_queues_from sizes' (S idx);
               mret (mkQueueConfig q fd NoopNotifier (as_u16 (Z.of_nat idx)) :: qs)) k
          end
      end
  end.

Definition create_queues (v : V) : eff K TransportError (list (VirtioQueueConfig G Q) * bool) :=
  let sizes := queue_max_sizes (Q:=Q) (G:=G) (K:=K) v in
  let ctrl := ctrl_queue_max_sizes (Q:=Q) (G:=G) (K:=K) v in
  let has_ctrl_queue := 0 <? ctrl in
  qs ← create_queues_from (if has_ctrl_queue then sizes ++ [ctrl] else sizes) 0;
  mret (qs, has_ctrl_queue).

Definition state_new (v : V) (resources : DeviceResources) (base : Z) (doorbell_enabled : bool)
    : eff K TransportError (MmioV2DeviceState G V Q) := fun k =>
  match DIM_new resources (DIM_empty, k) with
  | Panic => Panic
  | Ret (Err e, (_, k)) => Ret (Err (TIOError e), k)
  | Ret (Ok _, (im, k)) =>
      match create_queues v k with
      | Panic => Panic
      | Ret (Err e, k) => Ret (Err e, k)
      | Ret (Ok (qs, has_ctrl_queue), k) =>
          match dev_set_resource (Q:=Q) (G:=G) resources v k with
          | (Err e, _, k) => Ret (Err e, k)
          | (Ok shm, v, k) =>
              let db := if doorbell_enabled
                        then Some (mkDoorBell DRAGONBALL_MMIO_DOORBELL_OFFSET DRAGONBALL_MMIO_DOORBELL_SCALE) else None in
              Ret (Ok (mkState v im resources qs base has_ctrl_queue false false 0 0 0 None db 0 shm), k)
          end
      end
  end.

(** The loop of [MmioV2Device::new] over the resources: the first range of the
    size of the register window is the window, the rest goes to the device. *)
Fixpoint split_resources (entries : list Resource) (cfg : option Resource) (rest : list Resource)
    : option Resource * list Resource :=
  match entries with
  | [] => (cfg, rest)
  | MmioAddressRange base size :: es =>
      match cfg with
      | None =>
          if size =? MMIO_DEFAULT_CFG_SIZE + DRAGONBALL_MMIO_DOORBELL_SIZE
          then split_resources es (Some (MmioAddressRange base size)) rest
          else split_resources es cfg (rest ++ [MmioAddressRange base size])
      | Some _ => split_resources es cfg (rest ++ [MmioAddressRange base size])
      end
  | e :: es => split_resources es cfg (rest ++ [e])
  end.

Definition device_new (v : V) (resources : DeviceResources) (features : option Z)
    : eff K TransportError (MmioV2Device G V Q) :=
  match split_resources (dr_entries resources) None [] with
  | (None, _) => throw TInvalidInput
  | (Some cfg, rest) =>
      let base := match cfg with MmioAddressRange b _ => b | _ => 0 end in
      let msi_feature := if bool_decide (is_Some (get_generic_msi_irqs resources)) then DRAGONBALL_FEATURE_MSI_INTR else 0 in
      ext ← gets check_extension_no_length;
      let doorbell_enabled :=
        match features with
        | Some ft => negb (Z.land ft DRAGONBALL_FEATURE_PER_QUEUE_NOTIFY =? 0) && ext
        | None => false
        end in
      let features := (fun ft => if doorbell_enabled then ft
                                 else Z.land ft (unot u32_max DRAGONBALL_FEATURE_PER_QUEUE_NOTIFY)) <$> features in
      s ← state_new v (mkDeviceResources rest) base doorbell_enabled;
      let vendor := Z.lor MMIO_VENDOR_ID_DRAGONBALL msi_feature in
      let vendor := match features with Some ft => Z.lor vendor (Z.land ft DRAGONBALL_FEATURE_MASK) | None => vendor end in
      mret (mkMmioV2Device s resources cfg vendor DEVICE_INIT 0 0)
  end.

(** ** Guest programs *)

(** The writes of a guest, one after the other. *)
Definition guest_writes (ws : list (Z * list Z)) : tx unit :=
  for_each (fun '(offset, data) => mmio_v2_write offset data) ws.
End transport.
