(* ===== verification/MmioFacts.v ===== *)
(** * The virtio MMIO transport: frame lemmas

    Which parts of the state the methods of the transport leave alone, the effect
    of activation and reset on the rest, and what the device status protects. *)
From S2P Require Import Prelude DeviceResources Effects InterruptManager MmioData MmioTransport.

Section facts.
Context {G V Q K : Type} `{InterruptSourceGroup G K} `{Vm K} `{QueueT Q K} `{VirtioDevice V G Q K}.
#[local] Abbreviation St := (MmioV2Device G V Q * K)%type.
#[local] Abbreviation tx := (eff St TransportError).

(** A view of the state that does not depend on the state around the transport
    or on the ioevent flag; not on the device; not on the interrupt manager. *)
Record frame {B} (f : St -> B) : Prop := {
  fr_sys : forall d k k', f (d, k') = f (d, k);
  fr_ioevent : forall d k b, f (put_state (put_ioevent_registered b (state d)) d, k) = f (d, k);
}.

Definition device_frame {B} (f : St -> B) : Prop :=
  forall d k v, f (put_state (put_device v (state d)) d, k) = f (d, k).

Definition intr_frame {B} (f : St -> B) : Prop :=
  forall d k im, f (put_state (put_intr_mgr im (state d)) d, k) = f (d, k).

Section same.
Context {B : Type} (f : St -> B) (Hf : frame f).

Lemma lift_same {A} (o : outcome A) : keeps (same f) (lift o).
Proof. intros s r s'. unfold lift. destruct o; [|done]. by intros [= _ <-]. Qed.

Lemma io_same {A} (g : K -> result errno A * K) : keeps (same f) (io g).
Proof.
  intros [d k] r s'. unfold io. cbn. destruct (g k) as [r1 k1]. intros [= _ <-]. by apply fr_sys.
Qed.

Lemma ignore_same {E A} (m : eff St E A) : keeps (same f) m -> keeps (same f) (ignore m).
Proof.
  intros Hm s r s'. unfold ignore. destruct (m s) as [[r1 s1]|] eqn:E1; [|done].
  intros [= _ <-]. by eapply Hm.
Qed.

Lemma intr_same {A} (m : eff (DeviceInterruptManager G * K) errno A) :
  intr_frame f -> keeps (same f) (intr m).
Proof.
  intros Hi. apply keeps_zoom. intros [d k] r [im k'] _. unfold same. cbn. by rewrite Hi, (fr_sys _ Hf d k k').
Qed.

Lemma on_device_same {E A} (g : V -> K -> result E A * V * K) :
  device_frame f -> keeps (same f) (on_device g).
Proof.
  intros Hd [d k] r s'. unfold on_device. cbn. destruct (g _ _) as [[r1 v] k1]. intros [= _ <-].
  unfold same. by rewrite Hd, (fr_sys _ Hf d k k1).
Qed.

Lemma ioevent_flag_same b : keeps (same f) (upd_st (put_ioevent_registered b)).
Proof. apply same_modify. intros [d k]. by apply fr_ioevent. Qed.

#[local] Hint Resolve lift_same io_same ignore_same intr_same ioevent_flag_same : eff.
#[local] Hint Extern 1 (keeps _ (st _)) => apply same_gets : eff.

Lemma doorbell_same : keeps (same f) unregister_ioevent_doorbell.
Proof. unfold unregister_ioevent_doorbell. eff_walk. Qed.

Lemma revert_loop_same qs n addr w : keeps (same f) (revert_loop qs n addr w).
Proof. induction n; cbn; eff_walk. Qed.
#[local] Hint Resolve doorbell_same revert_loop_same : eff.

Lemma revert_same n addr w : keeps (same f) (revert_ioevent n addr w).
Proof. unfold revert_ioevent. eff_walk. Qed.
#[local] Hint Resolve revert_same : eff.

Lemma register_queue_same i q : keeps (same f) (register_queue_ioevent i q).
Proof. unfold register_queue_ioevent. eff_walk. Qed.
#[local] Hint Resolve register_queue_same : eff.

Lemma register_ioevents_same : keeps (same f) register_ioevents.
Proof. unfold register_ioevents. eff_walk. Qed.

Lemma unregister_ioevents_same : keeps (same f) unregister_ioevents.
Proof. unfold unregister_ioevents. eff_walk. Qed.

Lemma create_device_config_same : intr_frame f -> keeps (same f) create_device_config.
Proof. intros Hi. unfold create_device_config, create_queue_config. eff_walk. Qed.
End same.

(** ** Activation and reset *)

Definition status (s : St) : Z := driver_status s.1.
Definition active (s : St) : bool := device_activated (state s.1).
Definition the_queues (s : St) : list (VirtioQueueConfig G Q) := queues (state s.1).
Definition the_mode (s : St) : DeviceInterruptMode := dim_mode (intr_mgr (state s.1)).
Definition the_device (s : St) : V := device (state s.1).

Lemma status_frame : frame status.
Proof. by split. Qed.
Lemma active_frame : frame active.
Proof. by split. Qed.
Lemma queues_frame : frame the_queues.
Proof. by split. Qed.

#[local] Hint Resolve status_frame active_frame queues_frame : eff.
#[local] Hint Extern 1 (device_frame _) => done : eff.
#[local] Hint Extern 1 (intr_frame _) => done : eff.
#[local] Hint Resolve lift_same io_same ignore_same intr_same on_device_same ioevent_flag_same
  doorbell_same register_ioevents_same unregister_ioevents_same create_device_config_same : eff.
#[local] Hint Extern 1 (keeps _ (st _)) => apply same_gets : eff.
#[local] Hint Extern 1 (keeps _ (upd_st _)) => by apply same_modify : eff.

Lemma activate_status : keeps (same status) activate.
Proof. unfold activate. eff_walk. Qed.
Lemma activate_queues : keeps (same the_queues) activate.
Proof. unfold activate. eff_walk. Qed.

Lemma activate_active s r s' :
  activate s = Ret (r, s') ->
  match r with Ok _ => active s' = true | Err _ => active s' = active s end.
Proof.
  unfold activate. intros [(e & [= ]& _)|(s0 & s1 & [= <- <-] & Ha)]%bind_inv. cbn in Ha.
  destruct (device_activated (state s.1)) eqn:Ed; [by injection Ha as <- <-|].
  destruct (negb (check_queues_valid s)); [by injection Ha as <- <-|].
  assert (Hsame : forall A (m : tx A) (k : A -> tx unit) s1,
    active s1 = active s -> keeps (same active) m ->
    (m ≫= k) s1 = Ret (r, s') ->
    (forall a s2, active s2 = active s -> k a s2 = Ret (r, s') ->
       match r with Ok _ => active s' = true | Err _ => active s' = active s end) ->
    match r with Ok _ => active s' = true | Err _ => active s' = active s end).
  { intros A m k s1 Hs1 Hm [(e & Em & ->)|(a & s2 & Em & Hk)]%bind_inv Hcont.
    - apply Hm in Em. unfold same in Em. congruence.
    - apply Hm in Em. unfold same in Em. eapply Hcont; [|done]. congruence. }
  eapply Hsame; [done| |exact Ha|]; [eff_walk|]. intros [] s1 Hs1 Hk1.
  eapply Hsame; [done| |exact Hk1|]; [eff_walk|]. intros [] s2 Hs2 Hk2.
  eapply Hsame; [done| |exact Hk2|]; [eff_walk|]. intros c s3 Hs3 Hk3.
  eapply Hsame; [done| |exact Hk3|]; [eff_walk|]. intros [] s4 Hs4 Hk4.
  by injection Hk4 as <- <-.
Qed.

Lemma reset_status : keeps (same status) reset.
Proof. unfold reset. eff_walk. Qed.
Lemma reset_active : keeps (same active) reset.
Proof. unfold reset. eff_walk. Qed.

(** A reset gives up the doorbell, although the vendor id still offers it. *)
Lemma reset_drops_doorbell s u s' :
  active s = false -> reset s = Ret (Ok u, s') -> doorbell (state s'.1) = None.
Proof.
  unfold active. intros Ha. unfold reset, st. rewrite run_gets. cbn [id]. rewrite Ha.
  destruct (reset_queues _) as [[[]|e] qs].
  - do 4 (intros [(e & _ & [=])|(? & ? & _ & Hb)]%bind_inv; revert Hb). by intros [= _ <-].
  - intros [(e' & _ & [=])|(? & ? & _ & [=])]%bind_inv.
Qed.

(** ** The driver status *)

(** One step of the status and the activation flag: forward along the
    initialisation of the virtio specification, back to the initial state by a
    reset of an active device, or into failure, which can deactivate but not
    activate. *)
Inductive status_step : Z * bool -> Z * bool -> Prop :=
| step_stay p : status_step p p
| step_ack a : status_step (0, a) (1, a)
| step_driver a : status_step (1, a) (3, a)
| step_features a : status_step (3, a) (11, a)
| step_driver_ok a : status_step (11, a) (15, true)
| step_reset : status_step (15, true) (0, false)
| step_activation_failed a : status_step (11, a) (Z.lor 15 DEVICE_FAILED, a)
| step_failed p a a' : (a' = true -> a = true) -> status_step (p, a) (Z.lor p DEVICE_FAILED, a').

Definition view (s : St) : Z * bool := (status s, active s).

Lemma set_driver_failed_run s :
  set_driver_failed s = Ret (Ok tt, (put_driver_status (Z.lor (status s) DEVICE_FAILED) s.1, s.2)).
Proof. done. Qed.

Lemma exchange_run old new s :
  exchange_driver_status old new s =
  if status s =? old then Ret (Ok (Ok old), (put_driver_status new s.1, s.2)) else Ret (Ok (Err (status s)), s).
Proof. unfold exchange_driver_status, mbind, eff_bind, gets. cbn. unfold status. by destruct (_ =? _). Qed.

(** The last step of [update_driver_status]. *)
Definition finish (result : result Z Z) : tx unit :=
  match result with Err _ => set_driver_failed | Ok _ => mret tt end.

Lemma finish_fail s0 s e r s' :
  status s = status s0 -> (active s = true -> active s0 = true) ->
  finish (Err e) s = Ret (r, s') -> status_step (view s0) (view s').
Proof.
  intros Hs Ha. unfold finish. rewrite set_driver_failed_run. intros [= _ <-].
  unfold view, status, active in *. cbn. rewrite Hs. by apply step_failed.
Qed.

Lemma exchange_finish old new s r s' :
  (exchange_driver_status old new ≫= finish) s = Ret (r, s') ->
  (status s = old /\ view s' = (new, active s)) \/ view s' = (Z.lor (status s) DEVICE_FAILED, active s).
Proof.
  unfold mbind, eff_bind. rewrite exchange_run. destruct (Z.eqb_spec (status s) old) as [Ho|Ho].
  - intros [= _ <-]. by left.
  - cbn. rewrite set_driver_failed_run. intros [= _ <-]. by right.
Qed.

Lemma step_failed_same p a : status_step (p, a) (Z.lor p DEVICE_FAILED, a).
Proof. by apply step_failed. Qed.

Lemma activation_step s r s' :
  ((result ← exchange_driver_status DEVICE_STATUS_FEATURE_OK DEVICE_STATUS_DRIVER_OK;
   match result with
   | Err e => mret (Err e)
   | Ok o =>
       r ← attempt activate;
       match r with
       | Ok _ => mret (Ok o)
       | Err _ => _ ← ignore reset; mret (Err DEVICE_FAILED)
       end
   end) ≫= finish) s = Ret (r, s') -> status_step (view s) (view s').
Proof.
  rewrite bind_assoc. intros Hb. unfold mbind at 1, eff_bind at 1 in Hb. rewrite exchange_run in Hb.
  destruct (Z.eqb_spec (status s) DEVICE_STATUS_FEATURE_OK) as [Ho|Ho].
  2: { cbn in Hb. injection Hb as _ <-. apply step_failed_same. }
  set (s1 := (put_driver_status DEVICE_STATUS_DRIVER_OK s.1, s.2)) in *.
  apply bind_inv in Hb as [(e & He & _)|(res & s2 & Hr & Hf)].
  { exfalso. apply bind_inv in He as [(e' & Ha & _)|(r0 & s2 & Ha & He)].
    - by apply attempt_inv in Ha as (? & _ & ?).
    - destruct r0; [done|]. apply bind_inv in He as [(e' & Hi & _)|(? & ? & ? & ?)]; [|done].
      unfold ignore in Hi. by destruct (reset _) as [[? ?]|]. }
  unfold view. rewrite Ho.
  apply bind_inv in Hr as [(e' & _ & ?)|(r0 & s3 & Ha & He)]; [done|].
  apply attempt_inv in Ha as (r1 & Ha & [= ->]).
  pose proof (activate_status _ _ _ Ha) as Hst. pose proof (activate_active _ _ _ Ha) as Hac.
  destruct r1 as [[]|e1].
  - injection He as <- <-. injection Hf as _ <-. rewrite Hac, Hst. apply step_driver_ok.
  - apply bind_inv in He as [(e' & _ & ?)|(u & s4 & Hi & He)]; [done|]. injection He as <- <-.
    pose proof (ignore_same status reset reset_status _ _ _ Hi) as Hst2.
    pose proof (ignore_same active reset reset_active _ _ _ Hi) as Hac2.
    unfold finish in Hf. rewrite set_driver_failed_run in Hf. injection Hf as _ <-. unfold active, status in *. cbn.
    unfold same in *. rewrite Hst2, Hst, Hac2, Hac. apply step_activation_failed.
Qed.

(** A reset that is asked for: it leads to the initial status from the status
    of a driver that runs, to a failure otherwise. *)
Lemma reset_step s r s' :
  ((r ← attempt (on_device dev_reset);
    match r with
    | Err _ => mret (Err DEVICE_FAILED)
    | Ok _ =>
        _ ← upd_st deactivate;
        r ← attempt reset;
        match r with
        | Err _ => mret (Err DEVICE_FAILED)
        | Ok _ => exchange_driver_status DEVICE_STATUS_DRIVER_OK DEVICE_STATUS_INIT
        end
    end) ≫= finish) s = Ret (r, s') -> active s = true -> status_step (view s) (view s').
Proof.
  rewrite bind_assoc. intros Hb Hact.
  apply bind_inv in Hb as [(e & Ha & _)|(r0 & s1 & Ha & Hb)].
  { by apply attempt_inv in Ha as (? & _ & ?). }
  apply attempt_inv in Ha as (r1 & Ha & [= ->]).
  pose proof (on_device_same status status_frame _ (fun _ _ _ => eq_refl) _ _ _ Ha) as Hst.
  pose proof (on_device_same active active_frame _ (fun _ _ _ => eq_refl) _ _ _ Ha) as Hac. unfold same in *.
  destruct r1 as [[]|e1]; [|injection Hb as _ <-; eapply (finish_fail s s1 DEVICE_FAILED); [done|by rewrite Hac|done]].
  rewrite bind_assoc in Hb. apply bind_inv in Hb as [(e & [=] & _)|(u & s2 & Hu & Hb)].
  assert (Hs2 : status s2 = status s /\ active s2 = false).
  { injection Hu as _ <-. unfold status, active, deactivate in *. cbn. split; [done|]. by case_match. }
  destruct Hs2 as [Hst2 Hac2].
  rewrite bind_assoc in Hb. apply bind_inv in Hb as [(e & Hr & _)|(r2 & s3 & Hr & Hb)].
  { by apply attempt_inv in Hr as (? & _ & ?). }
  apply attempt_inv in Hr as (r3 & Hr & [= ->]).
  pose proof (reset_status _ _ _ Hr) as Hst3. pose proof (reset_active _ _ _ Hr) as Hac3. unfold same in *.
  destruct r3 as [[]|e3].
  - apply exchange_finish in Hb. rewrite Hst3, Hac3, Hst2, Hac2 in Hb. unfold view at 1.
    destruct Hb as [[-> ->]| ->]; rewrite Hact; [apply step_reset|by apply step_failed].
  - eapply (finish_fail s s3 DEVICE_FAILED); [congruence|congruence|exact Hb].
Qed.

Lemma update_driver_status_step v s r s' :
  update_driver_status v s = Ret (r, s') -> status_step (view s) (view s').
Proof.
  unfold update_driver_status. fold finish. change (fun result => finish result) with finish.
  destruct (v =? DEVICE_STATUS_ACKNOWLEDE).
  { intros [[E ->]| ->]%exchange_finish; unfold view; [rewrite E; apply step_ack|apply step_failed_same]. }
  destruct (v =? DEVICE_STATUS_DRIVER).
  { intros [[E ->]| ->]%exchange_finish; unfold view; [rewrite E; apply step_driver|apply step_failed_same]. }
  destruct (v =? DEVICE_STATUS_FEATURE_OK).
  { intros [[E ->]| ->]%exchange_finish; unfold view; [rewrite E; apply step_features|apply step_failed_same]. }
  destruct (v =? DEVICE_STATUS_DRIVER_OK); [by apply activation_step|].
  destruct (v =? 0).
  - rewrite bind_assoc. intros [(e & [=] & _)|(st0 & s0 & [= <- <-] & Hb)]%bind_inv.
    rewrite bind_assoc in Hb. apply bind_inv in Hb as [(e & [=] & _)|(ac & s0 & [= <- <-] & Hb)].
    destruct (_ =? _); [injection Hb as _ <-; apply step_stay|].
    destruct (device_activated (state s.1)) eqn:Ha; cbn [negb] in Hb.
    + by eapply reset_step.
    + injection Hb as _ <-. by apply step_failed.
  - rewrite bind_assoc. intros [(e & [=] & _)|(st0 & s0 & [= <- <-] & Hb)]%bind_inv.
    destruct (v =? _); [injection Hb as _ <-; apply step_stay|].
    destruct (negb _); injection Hb as _ <-; by apply step_failed.
Qed.

(** ** Register writes *)

Lemma view_frame : frame view.
Proof. by split. Qed.
#[local] Hint Resolve view_frame : eff.

(** Everything but the status register either leaves the view alone or marks
    the driver as failed. *)
Definition may_fail (s s' : St) : Prop := view s' = view s \/ view s' = (Z.lor (status s) DEVICE_FAILED, active s).

Lemma may_fail_step s s' : may_fail s s' -> status_step (view s) (view s').
Proof. intros [-> | ->]; [apply step_stay|apply step_failed_same]. Qed.

Lemma may_fail_trans s1 s2 s3 : may_fail s1 s2 -> may_fail s2 s3 -> may_fail s1 s3.
Proof.
  unfold may_fail, view. intros [E1|E1] [E2|E2]; injection E1 as E1 E1'; injection E2 as E2 E2';
    rewrite ?E2, ?E2', ?E1, ?E1'; auto. right. by rewrite <- Z.lor_assoc.
Qed.

Lemma may_fail_bind {A C} (m : tx A) (k : A -> tx C) :
  keeps may_fail m -> (forall a, keeps may_fail (k a)) -> keeps may_fail (m ≫= k).
Proof. apply keeps_bind, may_fail_trans. Qed.

Lemma same_may_fail {A} (m : tx A) : keeps (same view) m -> keeps may_fail m.
Proof. intros Hm s r s' E. left. by apply Hm in E. Qed.

Lemma set_driver_failed_may_fail : keeps may_fail set_driver_failed.
Proof. intros s r s'. rewrite set_driver_failed_run. intros [= _ <-]. by right. Qed.

Lemma update_msi_cfg_view v : keeps (same view) (update_msi_cfg v).
Proof. unfold update_msi_cfg. eff_walk. Qed.

Lemma mask_msi_int_view i b : keeps (same view) (mask_msi_int i b).
Proof. unfold mask_msi_int. eff_walk. Qed.
#[local] Hint Resolve update_msi_cfg_view mask_msi_int_view same_may_fail set_driver_failed_may_fail : eff.

Lemma handle_msi_cmd_may_fail v : keeps may_fail (handle_msi_cmd v).
Proof.
  unfold handle_msi_cmd. apply may_fail_bind; [apply same_may_fail; eff_walk|]. intros d.
  repeat case_match; try apply set_driver_failed_may_fail; apply same_may_fail; eff_walk.
Qed.

Lemma set_working_mode_or_fail_may_fail m n : keeps may_fail (set_working_mode_or_fail m n).
Proof.
  unfold set_working_mode_or_fail. apply may_fail_bind; [apply same_may_fail; eff_walk|].
  intros [u|e]; [apply same_may_fail; eff_walk|apply set_driver_failed_may_fail].
Qed.

Lemma update_msi_enable_may_fail v : keeps may_fail (update_msi_enable v).
Proof.
  unfold update_msi_enable. apply may_fail_bind; [apply same_may_fail; eff_walk|]. intros st0.
  destruct (negb _).
  - destruct (_ =? _); [apply set_driver_failed_may_fail|apply same_may_fail; eff_walk].
  - apply may_fail_bind; [apply same_may_fail; eff_walk|]. intros m.
    repeat case_match; auto using set_working_mode_or_fail_may_fail; apply same_may_fail; eff_walk.
Qed.

Lemma update_queue_field_view g : keeps (same view) (update_queue_field g).
Proof.
  unfold update_queue_field. apply same_bind; [eff_walk|]. intros s. case_match; [|eff_walk].
  apply same_modify. intros [d k]. unfold view, status, active, with_queue_mut. cbn.
  by destruct (at_index _ _).
Qed.

Lemma set_acked_features_view v : keeps (same view) (set_acked_features v).
Proof. unfold set_acked_features. eff_walk. Qed.

Lemma set_device_config_view o v : keeps (same view) (set_device_config o v).
Proof. unfold set_device_config. eff_walk. Qed.
#[local] Hint Resolve update_queue_field_view set_acked_features_view set_device_config_view : eff.

Lemma write_reg_view offset v : offset <> REG_MMIO_STATUS -> keeps (same view) (write_reg offset v).
Proof.
  intros Hne. unfold write_reg.
  repeat (match goal with |- keeps _ (if ?b then _ else _) => destruct b eqn:E end;
    [first [ apply update_queue_field_view | apply set_acked_features_view
           | by apply same_modify | by destruct (Hne (proj1 (Z.eqb_eq _ _) E)) ]|clear E]).
  apply same_ret.
Qed.

Lemma write_step offset data s r s' :
  mmio_v2_write offset data s = Ret (r, s') -> status_step (view s) (view s').
Proof.
  unfold mmio_v2_write. destruct (_ && _).
  { intros Hw. apply may_fail_step, (same_may_fail _ (set_device_config_view _ _) _ _ _ Hw). }
  destruct (Nat.eqb _ 4).
  { destruct (Z.eqb_spec offset REG_MMIO_STATUS) as [->|Hne].
    - apply update_driver_status_step.
    - intros Hw. apply may_fail_step, (same_may_fail _ (write_reg_view _ _ Hne) _ _ _ Hw). }
  destruct (Nat.eqb _ 2); [|intros [= _ <-]; apply step_stay].
  destruct (_ =? _); [intros Hw; apply may_fail_step; by eapply update_msi_enable_may_fail|].
  destruct (_ =? _); [intros Hw; apply may_fail_step; by eapply handle_msi_cmd_may_fail|].
  intros [= _ <-]. apply step_stay.
Qed.

(** A relation that every write has, guest programs have too. *)
Lemma guest_writes_keeps (R : St -> St -> Prop) ws :
  (forall s, R s s) -> (forall s1 s2 s3, R s1 s2 -> R s2 s3 -> R s1 s3) ->
  (forall offset data, (offset, data) ∈ ws -> keeps R (mmio_v2_write offset data)) ->
  keeps R (guest_writes ws).
Proof.
  intros Hrefl Htrans Hw. unfold guest_writes. induction ws as [|[o d] ws IH]; [by apply keeps_ret|].
  cbn. apply keeps_bind; [done|apply Hw; left|]. intros _. apply IH. intros. apply Hw. by right.
Qed.
End facts.

(** * The virtio MMIO transport: what the status protects

    A device that has failed and is not active no longer changes; an active one
    keeps its queues, its doorbell and its interrupt mode. *)

Section frozen.
Context {G V Q K : Type} `{InterruptSourceGroup G K} `{Vm K} `{QueueT Q K} `{VirtioDevice V G Q K}.
#[local] Abbreviation St := (MmioV2Device G V Q * K)%type.
#[local] Abbreviation tx := (eff St TransportError).

Definition has_failed (s : St) : Prop := Z.land (status s) DEVICE_FAILED <> 0.

(** ** A failed device *)

Definition inert (s : St) : Z * bool * list (VirtioQueueConfig G Q) * V :=
  (status s, active s, the_queues s, the_device s).

Lemma inert_frame : frame inert.
Proof. by split. Qed.

Definition stays_inert (s s' : St) : Prop := has_failed s -> active s = false -> inert s' = inert s.

Lemma stays_inert_trans s1 s2 s3 : stays_inert s1 s2 -> stays_inert s2 s3 -> stays_inert s1 s3.
Proof.
  unfold stays_inert, has_failed, inert. intros H12 H23 Hf Ha. specialize (H12 Hf Ha).
  injection H12 as E1 E2 E3 E4. rewrite H23; congruence.
Qed.

Lemma inert_bind {A C} (m : tx A) (k : A -> tx C) :
  keeps stays_inert m -> (forall a, keeps stays_inert (k a)) -> keeps stays_inert (m ≫= k).
Proof. apply keeps_bind, stays_inert_trans. Qed.

Lemma same_inert {E A} (m : eff St E A) : keeps (same inert) m -> keeps stays_inert m.
Proof. intros Hm s r s' E1 _ _. by apply Hm in E1. Qed.

Lemma lor_failed x : Z.land x DEVICE_FAILED <> 0 -> Z.lor x DEVICE_FAILED = x.
Proof.
  intros Hx. apply Z.bits_inj'. intros n Hn. rewrite Z.lor_spec.
  destruct (Z.eq_dec n 7) as [->|Hne].
  - assert (Z.testbit x 7 = true) as ->; [|done].
    destruct (Z.testbit x 7) eqn:E; [done|]. exfalso. apply Hx. apply Z.bits_inj'. intros m Hm.
    rewrite Z.land_spec, Z.bits_0. destruct (Z.eq_dec m 7) as [->|]; [by rewrite E|].
    change DEVICE_FAILED with (2 ^ 7). rewrite Z.pow2_bits_false by lia. apply andb_false_r.
  - change DEVICE_FAILED with (2 ^ 7). rewrite Z.pow2_bits_false by lia. apply orb_false_r.
Qed.

Lemma set_driver_failed_inert : keeps stays_inert set_driver_failed.
Proof.
  intros s r s'. rewrite set_driver_failed_run. intros [= _ <-] Hf _. unfold inert, status in *. cbn.
  by rewrite lor_failed.
Qed.

#[local] Hint Extern 1 (intr_frame _) => done : eff.
#[local] Hint Resolve inert_frame lift_same io_same ignore_same intr_same : eff.
#[local] Hint Extern 1 (keeps _ (st _)) => apply same_gets : eff.
#[local] Hint Extern 1 (keeps _ (upd_st _)) => by apply same_modify : eff.

Lemma update_msi_cfg_inert v : keeps (same inert) (update_msi_cfg v).
Proof. unfold update_msi_cfg. eff_walk. Qed.
Lemma mask_msi_int_inert i b : keeps (same inert) (mask_msi_int i b).
Proof. unfold mask_msi_int. eff_walk. Qed.
#[local] Hint Resolve update_msi_cfg_inert mask_msi_int_inert : eff.

Lemma handle_msi_cmd_inert v : keeps stays_inert (handle_msi_cmd v).
Proof.
  unfold handle_msi_cmd. apply inert_bind; [apply same_inert; eff_walk|]. intros d.
  repeat case_match; try apply set_driver_failed_inert; apply same_inert; eff_walk.
Qed.

Lemma set_working_mode_or_fail_inert m n : keeps stays_inert (set_working_mode_or_fail m n).
Proof.
  unfold set_working_mode_or_fail. apply inert_bind; [apply same_inert; eff_walk|].
  intros [u|e]; [apply same_inert; eff_walk|apply set_driver_failed_inert].
Qed.

Lemma update_msi_enable_inert v : keeps stays_inert (update_msi_enable v).
Proof.
  unfold update_msi_enable. apply inert_bind; [apply same_inert; eff_walk|]. intros st0.
  destruct (negb _).
  - destruct (_ =? _); [apply set_driver_failed_inert|apply same_inert; eff_walk].
  - apply inert_bind; [apply same_inert; eff_walk|]. intros m.
    repeat case_match; auto using set_working_mode_or_fail_inert; apply same_inert; eff_walk.
Qed.

(** The accesses that a failed device refuses. *)
Lemma check_failed s set clr :
  has_failed s -> Z.land set DEVICE_FAILED = 0 -> check_driver_status s set (Z.lor clr DEVICE_FAILED) = false.
Proof.
  unfold has_failed, check_driver_status, status. intros Hf Hs. apply Z.eqb_neq. intros E. apply Hf.
  apply (f_equal (fun x => Z.land x DEVICE_FAILED)) in E. rewrite Hs in E.
  rewrite <- Z.land_assoc in E. rewrite (Z.land_comm (Z.lor set _)) in E.
  replace (Z.land DEVICE_FAILED (Z.lor set (Z.lor clr DEVICE_FAILED))) with DEVICE_FAILED in E; [done|].
  apply Z.bits_inj'. intros n Hn. rewrite Z.land_spec, !Z.lor_spec.
  by destruct (Z.testbit DEVICE_FAILED n), (Z.testbit set n), (Z.testbit clr n).
Qed.

Lemma guarded_inert (m : tx unit) set clr :
  Z.land set DEVICE_FAILED = 0 ->
  keeps stays_inert (s ← gets id; if check_driver_status s set (Z.lor clr DEVICE_FAILED) then m else mret tt).
Proof.
  intros Hs s r s' [(e & [=] & _)|(s0 & s1 & [= <- <-] & Hb)]%bind_inv Hf _. cbn in Hb.
  rewrite check_failed in Hb by done. by injection Hb as _ <-.
Qed.

Lemma update_queue_field_inert g : keeps stays_inert (update_queue_field g).
Proof. by apply guarded_inert. Qed.
Lemma set_acked_features_inert v : keeps stays_inert (set_acked_features v).
Proof. by apply guarded_inert. Qed.
Lemma set_device_config_inert o v : keeps stays_inert (set_device_config o v).
Proof. by apply (guarded_inert _ DEVICE_DRIVER 0). Qed.

Lemma finish_inert res : keeps stays_inert (finish res).
Proof. destruct res; [apply same_inert, same_ret|apply set_driver_failed_inert]. Qed.

Lemma exchange_inert old new :
  Z.land old DEVICE_FAILED = 0 -> keeps stays_inert (exchange_driver_status old new).
Proof.
  intros Ho s r s'. rewrite exchange_run. destruct (Z.eqb_spec (status s) old) as [E|E]; intros [= _ <-] Hf Ha; [|done].
  unfold has_failed in Hf. congruence.
Qed.

Lemma update_driver_status_inert v : keeps stays_inert (update_driver_status v).
Proof.
  unfold update_driver_status. apply inert_bind; [|intros res; apply (finish_inert res)].
  do 3 (destruct (v =? _); [by apply exchange_inert|]).
  destruct (v =? DEVICE_STATUS_DRIVER_OK).
  { intros s r s' Hb Hf Ha. unfold mbind, eff_bind in Hb. rewrite exchange_run in Hb.
    destruct (Z.eqb_spec (status s) DEVICE_STATUS_FEATURE_OK) as [E|E].
    - unfold has_failed in Hf. by rewrite E in Hf.
    - by injection Hb as _ <-. }
  destruct (v =? 0).
  - intros s r s' [(e & [=] & _)|(st0 & s0 & [= <- <-] & Hb)]%bind_inv Hf Ha.
    apply bind_inv in Hb as [(e & [=] & _)|(ac & s0 & [= <- <-] & Hb)].
    unfold active in Ha. rewrite Ha in Hb. by destruct (_ =? _); injection Hb as _ <-.
  - apply inert_bind; [apply same_inert; eff_walk|]. intros st0.
    destruct (v =? st0); [apply same_inert; eff_walk|].
    destruct (negb _); [|apply same_inert; eff_walk].
    apply inert_bind; [apply set_driver_failed_inert|]. intros _. apply same_inert. eff_walk.
Qed.

Lemma write_reg_inert offset v : keeps stays_inert (write_reg offset v).
Proof.
  unfold write_reg.
  repeat (match goal with |- keeps _ (if ?b then _ else _) => destruct b end;
    [first [ apply update_queue_field_inert | apply set_acked_features_inert
           | apply update_driver_status_inert | by apply same_inert, same_modify ]|]).
  apply same_inert, same_ret.
Qed.

Lemma write_inert offset data : keeps stays_inert (mmio_v2_write offset data).
Proof.
  unfold mmio_v2_write. destruct (_ && _); [apply set_device_config_inert|].
  destruct (Nat.eqb _ 4); [apply write_reg_inert|].
  destruct (Nat.eqb _ 2); [|apply same_inert, same_ret].
  destruct (_ =? _); [apply update_msi_enable_inert|].
  destruct (_ =? _); [apply handle_msi_cmd_inert|apply same_inert, same_ret].
Qed.

(** ** An active device *)

Definition running (s : St) : Prop :=
  status s = DEVICE_STATUS_DRIVER_OK \/ status s = Z.lor DEVICE_STATUS_DRIVER_OK DEVICE_FAILED.

Definition frozen (s : St) : list (VirtioQueueConfig G Q) * DeviceInterruptMode * bool * option DoorBell :=
  (the_queues s, the_mode s, active s, doorbell (state s.1)).

Definition stays_frozen (s s' : St) : Prop := running s -> running s' /\ frozen s' = frozen s.

Lemma stays_frozen_trans s1 s2 s3 : stays_frozen s1 s2 -> stays_frozen s2 s3 -> stays_frozen s1 s3.
Proof. unfold stays_frozen. intros H12 H23 Hr. destruct (H12 Hr) as [Hr2 E12]. destruct (H23 Hr2). split; congruence. Qed.

Lemma frozen_bind {A C} (m : tx A) (k : A -> tx C) :
  keeps stays_frozen m -> (forall a, keeps stays_frozen (k a)) -> keeps stays_frozen (m ≫= k).
Proof. apply keeps_bind, stays_frozen_trans. Qed.

(** The status and the frozen part together. *)
Definition running_view (s : St) := (status s, frozen s).

Lemma same_frozen {E A} (m : eff St E A) : keeps (same running_view) m -> keeps stays_frozen m.
Proof.
  intros Hm s r s' E1 Hr. apply Hm in E1. unfold same in E1.
  pose proof (f_equal fst E1) as E2. pose proof (f_equal snd E1) as E3. cbn in E2, E3.
  split; [|done]. unfold running. by rewrite E2.
Qed.

Lemma set_driver_failed_frozen : keeps stays_frozen set_driver_failed.
Proof.
  intros s r s'. rewrite set_driver_failed_run. intros [= _ <-] Hr. split; [|done].
  right. unfold status at 1. cbn [fst put_driver_status driver_status].
  destruct Hr as [-> | ->]; [done|by rewrite <- Z.lor_assoc].
Qed.

(** Methods of the interrupt manager that do not change its mode. *)
Lemma intr_frozen {A} (m : eff (DeviceInterruptManager G * K) errno A) :
  keeps (same (fun t => dim_mode t.1)) m -> keeps (same running_view) (intr m).
Proof.
  intros Hm. apply keeps_zoom. intros [d k] r [im k'] E1. apply Hm in E1.
  unfold same, running_view, frozen, the_queues, the_mode, active, status in *. cbn in *. by rewrite E1.
Qed.

Lemma sys_call_mode {A} (g : K -> result errno A * K) :
  keeps (same (fun t : DeviceInterruptManager G * K => dim_mode t.1)) (sys_call g).
Proof. intros [im k] r s'. unfold sys_call. cbn. destruct (g k). by intros [= _ <-]. Qed.
#[local] Hint Resolve sys_call_mode intr_frozen : eff.
#[local] Hint Extern 1 (keeps _ (dim _)) => apply same_gets : eff.
#[local] Hint Extern 1 (keeps _ (upd _)) => by apply same_modify : eff.

Lemma get_group_mode : keeps (same (fun t : DeviceInterruptManager G * K => dim_mode t.1)) get_group.
Proof. unfold get_group. eff_walk. Qed.
Lemma update_mode i : keeps (same (fun t : DeviceInterruptManager G * K => dim_mode t.1)) (update i).
Proof. unfold update. eff_walk. Qed.
Lemma update_msi_mode i g : keeps (same (fun t : DeviceInterruptManager G * K => dim_mode t.1)) (update_msi i g).
Proof. unfold update_msi. eff_walk. Qed.
Lemma get_msi_mask_mode i : keeps (same (fun t : DeviceInterruptManager G * K => dim_mode t.1)) (get_msi_mask i).
Proof. unfold get_msi_mask. eff_walk. Qed.
#[local] Hint Resolve get_group_mode update_mode update_msi_mode get_msi_mask_mode : eff.
#[local] Hint Unfold set_msi_low_address set_msi_high_address set_msi_data set_msi_mask : eff.

Lemma io_running {A} (g : K -> result errno A * K) : keeps (same running_view) (io g).
Proof. intros [d k] r s'. unfold io. cbn. destruct (g k). by intros [= _ <-]. Qed.
#[local] Hint Resolve io_running : eff.

Lemma update_msi_cfg_frozen v : keeps (same running_view) (update_msi_cfg v).
Proof. unfold update_msi_cfg, set_msi_low_address, set_msi_high_address, set_msi_data. eff_walk. Qed.
Lemma mask_msi_int_frozen i b : keeps (same running_view) (mask_msi_int i b).
Proof. unfold mask_msi_int, set_msi_mask. eff_walk. Qed.
#[local] Hint Resolve update_msi_cfg_frozen mask_msi_int_frozen : eff.

Lemma handle_msi_cmd_frozen v : keeps stays_frozen (handle_msi_cmd v).
Proof.
  unfold handle_msi_cmd. apply frozen_bind; [apply same_frozen; eff_walk|]. intros d.
  repeat case_match; try apply set_driver_failed_frozen; apply same_frozen; eff_walk.
Qed.

Lemma update_msi_enable_frozen v : keeps stays_frozen (update_msi_enable v).
Proof.
  intros s r s' [(e & [=] & _)|(st0 & s0 & [= <- <-] & Hb)]%bind_inv Hr.
  assert (negb (Z.land (driver_status s.1) DEVICE_DRIVER_OK =? 0) = true) as E
    by (unfold running, status in Hr; destruct Hr as [-> | ->]; done).
  rewrite E in Hb. destruct (_ =? _); [by eapply set_driver_failed_frozen|by injection Hb as _ <-].
Qed.

(** The configuration that a driver that runs can no longer change. *)
Lemma update_queue_field_frozen g : keeps stays_frozen (update_queue_field g).
Proof.
  intros s r s' [(e & [=] & _)|(s0 & s1 & [= <- <-] & Hb)]%bind_inv Hr. cbn in Hb.
  assert (check_driver_status s DEVICE_FEATURES_OK (Z.lor DEVICE_DRIVER_OK DEVICE_FAILED) = false) as E
    by (unfold check_driver_status; unfold running, status in Hr; destruct Hr as [-> | ->]; done).
  rewrite E in Hb. by injection Hb as _ <-.
Qed.

Lemma set_acked_features_frozen v : keeps stays_frozen (set_acked_features v).
Proof. apply same_frozen. unfold set_acked_features. eff_walk. Qed.
Lemma set_device_config_frozen o v : keeps stays_frozen (set_device_config o v).
Proof. apply same_frozen. unfold set_device_config. eff_walk. Qed.

Lemma exchange_frozen old new :
  old = DEVICE_STATUS_INIT \/ old = DEVICE_STATUS_ACKNOWLEDE \/ old = DEVICE_STATUS_DRIVER ->
  keeps stays_frozen (exchange_driver_status old new).
Proof.
  intros Ho s r s'. rewrite exchange_run. destruct (Z.eqb_spec (status s) old) as [E|E]; intros [= _ <-] Hr; [|done].
  exfalso. unfold running in Hr. destruct Ho as [->|[->| ->]], Hr; rewrite E in *; discriminate.
Qed.

Lemma update_driver_status_frozen v : v <> 0 -> keeps stays_frozen (update_driver_status v).
Proof.
  intros Hv. unfold update_driver_status. apply frozen_bind.
  2: { intros [|]; [apply same_frozen, same_ret|apply set_driver_failed_frozen]. }
  do 3 (destruct (v =? _); [apply exchange_frozen; auto|]).
  destruct (v =? DEVICE_STATUS_DRIVER_OK).
  { intros s r s' Hb Hr. unfold mbind, eff_bind in Hb. rewrite exchange_run in Hb.
    destruct (Z.eqb_spec (status s) DEVICE_STATUS_FEATURE_OK) as [E|E].
    - exfalso. destruct Hr as [Hr|Hr]; rewrite E in Hr; discriminate.
    - by injection Hb as _ <-. }
  destruct (Z.eqb_spec v 0) as [|_]; [done|].
  apply frozen_bind; [apply same_frozen; eff_walk|]. intros st0.
  destruct (v =? st0); [apply same_frozen; eff_walk|].
  destruct (negb _); [|apply same_frozen; eff_walk].
  apply frozen_bind; [apply set_driver_failed_frozen|]. intros _. apply same_frozen. eff_walk.
Qed.

Lemma write_reg_frozen offset v :
  (offset = REG_MMIO_STATUS -> v <> 0) -> keeps stays_frozen (write_reg offset v).
Proof.
  intros Hne. unfold write_reg.
  repeat (match goal with |- keeps _ (if ?b then _ else _) => destruct b eqn:E end;
    [first [ apply update_queue_field_frozen | apply set_acked_features_frozen
           | by apply update_driver_status_frozen, Hne, Z.eqb_eq
           | by apply same_frozen, same_modify ]|clear E]).
  apply same_frozen, same_ret.
Qed.

Lemma write_frozen offset data :
  (offset = REG_MMIO_STATUS -> le_read data <> 0) -> keeps stays_frozen (mmio_v2_write offset data).
Proof.
  intros Hne. unfold mmio_v2_write. destruct (_ && _); [apply set_device_config_frozen|].
  destruct (Nat.eqb _ 4); [by apply write_reg_frozen|].
  destruct (Nat.eqb _ 2); [|apply same_frozen, same_ret].
  destruct (_ =? _); [apply update_msi_enable_frozen|].
  destruct (_ =? _); [apply handle_msi_cmd_frozen|apply same_frozen, same_ret].
Qed.
End frozen.
