(* ===== verification/MmioTotal.v ===== *)
(** * The virtio MMIO transport: accesses return

    The invariant under which no access of the guest makes the transport panic:
    the interrupt manager has a group for each mode that the guest can select,
    and the register window and the shared memory lie below the top of the
    address space. *)
From S2P Require Import Prelude DeviceResources Effects InterruptManager MmioData MmioTransport MmioFacts.

Section dim.
Context {G K : Type} `{InterruptSourceGroup G K}.
#[local] Abbreviation T := (DeviceInterruptManager G * K)%type.

Definition group_at (d : DeviceInterruptManager G) (m : DeviceInterruptMode) (g : G) : Prop :=
  at_index (intr_groups d) (idx_of d m) = Some g.

(** The modes that the transport uses have their groups, with room for the MSI
    messages, and the current group is that of the mode. *)
Record dim_ok (d : DeviceInterruptManager G) : Prop := {
  legacy_group : exists g, group_at d LegacyIrqMode g;
  legacy_known : idx_of d LegacyIrqMode <> NO_GROUP;
  msi_group : exists g, group_at d GenericMsiIrq g /\ group_len g <= Z.of_nat (length (msi_config d));
  mode_used : dim_mode d = Disabled \/ dim_mode d = LegacyIrqMode \/ dim_mode d = GenericMsiIrq;
  mode_current : dim_mode d <> Disabled -> current_idx d = idx_of d (dim_mode d);
  mode_active : activated d = true -> dim_mode d <> Disabled;
}.

(** A change of the MSI messages that keeps their number. *)
Lemma dim_ok_msi d l : length l = length (msi_config d) -> dim_ok d -> dim_ok (set_msi_config l d).
Proof. intros Hl [? ? (g & Hg & Hlen) ? ? ?]. split; try done. exists g. cbn. by rewrite Hl. Qed.

Lemma dim_ok_group d : dim_ok d -> dim_mode d <> Disabled ->
  exists g, at_index (intr_groups d) (current_idx d) = Some g.
Proof.
  intros [[gl Hl] _ (gm & Hm & _) Hmode Hcur _] Hne. rewrite Hcur by done.
  destruct Hmode as [E|[E|E]]; [done|rewrite E; eauto..].
Qed.

Lemma dim_ok_configs d : dim_ok d -> dim_mode d <> Disabled -> exists l, get_configs d (dim_mode d) = Some l.
Proof.
  intros [_ _ (gm & Hm & Hlen) Hmode _ _] Hne. unfold get_configs.
  destruct Hmode as [E|[E|E]]; [done|rewrite E; eauto..]. unfold group_at in Hm. rewrite Hm.
  rewrite (proj2 (Z.leb_le _ _)) by done. eauto.
Qed.

#[local] Abbreviation ok := (fun t : T => dim_ok t.1).

Lemma set_working_mode_ok m :
  m = Disabled \/ m = LegacyIrqMode \/ m = GenericMsiIrq -> always ok (set_working_mode m).
Proof.
  intros Hm [d k] Hok. cbn in Hok. unfold set_working_mode, mbind, eff_bind, dim, gets, upd, modify. cbn.
  destruct (activated d) eqn:Ea; [by exists (Err EINVAL), (d, k)|].
  destruct (bool_decide (m <> dim_mode d)); [|by exists (Ok tt), (d, k)].
  destruct (_ && _ && _ && _); [by exists (Err EINVAL), (d, k)|].
  case_bool_decide as Hd; eexists _, _; (split; [done|]); cbn.
  - destruct Hok as [? ? ? _ _ _]. by split.
  - destruct Hok as [? ? ? _ _ _]. destruct m; try done. split; cbn; try done; congruence.
Qed.

Lemma sys_call_ok {A} (g : K -> result errno A * K) : always ok (sys_call g).
Proof. intros [d k] Hok. unfold sys_call. cbn. destruct (g k) as [r k']. by exists r, (d, k'). Qed.

(** [enable] returns, and when it succeeds the manager is enabled. *)
Lemma enable_ok t : ok t -> exists r t', enable t = Ret (r, t') /\ ok t' /\ (forall u, r = Ok u -> activated t'.1 = true).
Proof.
  destruct t as [d k]. cbn. intros Hok. unfold enable, mbind, eff_bind at 1, dim, gets. cbn.
  destruct (activated d) eqn:Ea; [by exists (Ok tt), (d, k)|].
  assert (exists d1, dim_ok d1 /\ activated d1 = false /\ dim_mode d1 <> Disabled /\
    (if bool_decide (dim_mode d = Disabled) && negb (idx_of d LegacyIrqMode =? NO_GROUP)
     then set_working_mode LegacyIrqMode else mret tt) (d, k) = Ret (Ok tt, (d1, k)))
    as (d1 & Hok1 & Ha1 & Hm1 & E1).
  { case_bool_decide as Hd; cbn.
    - rewrite (proj2 (Z.eqb_neq _ _) (legacy_known d Hok)). cbn.
      unfold set_working_mode, mbind, eff_bind, dim, gets, upd, modify. cbn. rewrite Ea, Hd. cbn.
      eexists. split; [|split; [|split; [|done]]]; [|done|done].
      destruct Hok as [? ? ? _ _ _]. split; try done. by right; left.
    - by exists d. }
  unfold eff_bind at 1. rewrite E1. cbn. rewrite bool_decide_eq_false_2 by done.
  destruct (dim_ok_group d1 Hok1 Hm1) as [g Hg]. destruct (dim_ok_configs d1 Hok1 Hm1) as [l Hl].
  rewrite Hg, Hl. cbn. unfold eff_bind, sys_call, upd, modify. cbn.
  destruct (group_enable g l k) as [[[]|e] k1]; eexists _, _; (split; [done|]); cbn; (split; [|done]); [|done].
  destruct Hok1. by split.
Qed.

Lemma get_group_ok : always ok (get_group (G:=G) (K:=K)).
Proof.
  intros [d k] Hok. cbn in Hok. unfold get_group, mbind, eff_bind, dim, gets. cbn.
  destruct (activated d) eqn:Ea; cbn; [|by exists (Ok None), (d, k)].
  rewrite bool_decide_eq_false_2 by (by apply (mode_active d Hok)).
  destruct (dim_ok_group d Hok (mode_active d Hok Ea)) as [g Hg]. rewrite Hg. cbn. eauto.
Qed.

Lemma get_group_enabled t :
  ok t -> activated t.1 = true -> exists g, get_group t = Ret (Ok (Some g), t).
Proof.
  destruct t as [d k]. cbn. intros Hok Ea. unfold get_group, mbind, eff_bind, dim, gets. cbn. rewrite Ea. cbn.
  rewrite bool_decide_eq_false_2 by (by apply (mode_active d Hok)).
  destruct (dim_ok_group d Hok (mode_active d Hok Ea)) as [g Hg]. rewrite Hg. cbn. eauto.
Qed.

Lemma reset_dim_ok : always ok (reset_dim (G:=G) (K:=K)).
Proof.
  intros [d k] Hok. cbn in Hok. unfold reset_dim. unfold mbind at 1, eff_bind at 1, dim, gets. cbn.
  destruct (activated d) eqn:Ea.
  - destruct (dim_ok_group d Hok (mode_active d Hok Ea)) as [g Hg].
    unfold mbind, eff_bind at 1, upd, modify. unfold eff_bind at 1. cbn. unfold eff_bind at 1. rewrite Hg. cbn.
    unfold sys_call. cbn. destruct (group_disable g k) as [[[]|e] k1].
    + apply (set_working_mode_ok Disabled); [by left|]. cbn. destruct Hok. by split.
    + eexists _, _. split; [done|]. cbn. destruct Hok. by split.
  - apply (set_working_mode_ok Disabled); [by left|done].
Qed.

Lemma update_ok i : 0 <= i -> always ok (update i).
Proof.
  intros Hi [d k] Hok. cbn in Hok. unfold update, mbind, eff_bind, dim, gets. cbn.
  destruct (activated d) eqn:Ea; cbn; [|by exists (Err EINVAL), (d, k)].
  destruct (dim_ok_group d Hok (mode_active d Hok Ea)) as [g Hg].
  assert (Hgo : exists r t',
    (group ← expect (at_index (intr_groups d) (current_idx d));
     if (group_len group <=? i) || (Z.of_nat (length (msi_config d)) <=? i) then throw EINVAL
     else config ← expect (at_index (msi_config d) i); sys_call (group_update group i config)) (d, k)
    = Ret (r, t') /\ dim_ok t'.1).
  { unfold mbind, eff_bind. rewrite Hg. cbn. destruct (_ || _) eqn:E; [by exists (Err EINVAL), (d, k)|].
    apply orb_false_iff in E as [_ E%Z.leb_gt]. unfold at_index. rewrite (proj2 (Z.ltb_lt _ _)) by lia.
    destruct (lookup_lt_is_Some_2 (msi_config d) (Z.to_nat i)) as [c Hc]; [lia|].
    rewrite Hc. cbn. unfold sys_call. cbn. destruct (group_update g i c k) as [r k1]. by exists r, (d, k1). }
  destruct (dim_mode d); try exact Hgo; by exists (Err EINVAL), (d, k).
Qed.

Lemma update_msi_ok i f : always ok (update_msi (G:=G) (K:=K) i f).
Proof.
  intros [d k] Hok. cbn in Hok. unfold update_msi, mbind, eff_bind, dim, gets. cbn.
  destruct (at_index _ _) as [[|c]|]; [by exists (Err EINVAL), (d, k)| |by exists (Err EINVAL), (d, k)].
  eexists _, _. split; [done|]. cbn. apply dim_ok_msi; [by rewrite length_insert|done].
Qed.

Lemma get_msi_mask_ok i : always ok (get_msi_mask (G:=G) (K:=K) i).
Proof.
  intros [d k] Hok. cbn in Hok. unfold get_msi_mask, mbind, eff_bind, dim, gets. cbn.
  destruct (at_index _ _) as [[|c]|]; eexists _, _; split; done.
Qed.

(** Disabling the interrupts keeps the MSI messages: the configurations are
    reset for the new mode, which has none, not for the old one. *)
Lemma disable_keeps_messages (t : T) r t' :
  set_working_mode Disabled t = Ret (r, t') -> msi_config t'.1 = msi_config t.1.
Proof.
  unfold set_working_mode, dim. rewrite run_gets. cbn [fst id]. repeat case_match; by intros [= _ <-].
Qed.

(** *** Construction *)

(** A mode has its group. *)
Definition has (d : DeviceInterruptManager G) (m : DeviceInterruptMode) : Prop :=
  exists g, group_at d m g /\ idx_of d m <> NO_GROUP /\
    (m <> LegacyIrqMode -> group_len g <= Z.of_nat (length (msi_config d))).

(** A manager under construction, with at most [j] groups. *)
Definition fine (j : nat) (d : DeviceInterruptManager G) : Prop :=
  length (mode2idx d) = 5%nat /\ dim_mode d = Disabled /\ activated d = false /\ (length (intr_groups d) <= j)%nat.

Lemma at_index_app {A} (l : list A) i a b : at_index l i = Some a -> at_index (l ++ [b]) i = Some a.
Proof.
  unfold at_index. rewrite length_app. destruct (Z.ltb_spec i (Z.of_nat (length l))); [|done].
  intros Hl. cbn. rewrite (proj2 (Z.ltb_lt _ _)) by lia. by apply lookup_app_l_Some.
Qed.

Lemma at_index_last {A} (l : list A) b : at_index (l ++ [b]) (Z.of_nat (length l)) = Some b.
Proof.
  unfold at_index. rewrite length_app. cbn. rewrite (proj2 (Z.ltb_lt _ _)) by lia.
  rewrite Nat2Z.id. by apply list_lookup_middle.
Qed.

Lemma mode_index_lt m : (mode_index m < 5)%nat.
Proof. destruct m; cbn; lia. Qed.

Lemma mode_index_inj m m' : mode_index m = mode_index m' -> m = m'.
Proof. by destruct m, m'. Qed.

Lemma resize_grows size (d : DeviceInterruptManager G) :
  (length (msi_config d) <= length (msi_config (resize_msi_config_space size d)))%nat /\
  size <= Z.of_nat (length (msi_config (resize_msi_config_space size d))).
Proof.
  unfold resize_msi_config_space. destruct (Z.ltb_spec (Z.of_nat (length (msi_config d))) size); [|lia].
  cbn. rewrite repeat_length. lia.
Qed.

Lemma nth_insert_eq (l : list Z) i x dflt : (i < length l)%nat -> nth i (<[i:=x]> l) dflt = x.
Proof. intros Hi. rewrite nth_lookup, list_lookup_insert_eq by done. done. Qed.
Lemma nth_insert_ne (l : list Z) i j x dflt : i <> j -> nth j (<[i:=x]> l) dflt = nth j l dflt.
Proof. intros Hi. by rewrite !nth_lookup, list_lookup_insert_ne. Qed.

Lemma add_group_has j m ty base count (t : T) u t' :
  (m <> LegacyIrqMode -> ty = MsiIrqSource) -> (j < 5)%nat -> fine j t.1 ->
  add_group m ty base count t = Ret (Ok u, t') ->
  fine (S j) t'.1 /\ has t'.1 m /\ (forall m', m' <> m -> has t.1 m' -> has t'.1 m').
Proof.
  intros Hty Hj (H5 & Hd & Ha & Hl) [(e & _ & [=])|(g & t1 & Hc & Hu)]%bind_inv.
  destruct t as [d k]. unfold sys_call in Hc. cbn in Hc. destruct (create_group _ _ _ k) as [r k1].
  injection Hc as -> <-. injection Hu as _ <-. cbn [fst] in *.
  set (d0 := match ty with MsiIrqSource => resize_msi_config_space (group_len g) d | LegacyIrqSource => d end).
  assert (Hd0 : dim_mode d0 = dim_mode d /\ activated d0 = activated d /\ mode2idx d0 = mode2idx d /\
    intr_groups d0 = intr_groups d /\ (length (msi_config d) <= length (msi_config d0))%nat /\
    (ty = MsiIrqSource -> group_len g <= Z.of_nat (length (msi_config d0)))).
  { subst d0. destruct ty; [by split_and!|]. destruct (resize_grows (group_len g) d) as [Hg1 Hg2].
    split_and!; try done; unfold resize_msi_config_space; by case_match. }
  destruct Hd0 as (E1 & E2 & E3 & E4 & Hle & Hlen). pose proof (mode_index_lt m) as Hm5.
  split; [|split].
  - unfold fine. cbn. rewrite length_insert, length_app, E1, E2, E3, E4. cbn. split_and!; try done. lia.
  - exists g. unfold group_at, idx_of. cbn. rewrite nth_insert_eq by (rewrite E3; lia).
    split; [apply at_index_last|]. split; [unfold NO_GROUP; rewrite E4; ulia|]. auto.
  - intros m' Hne (g' & Hg' & Hi' & Hl'). exists g'. unfold group_at, idx_of in *. cbn.
    rewrite nth_insert_ne by (intros E; by apply Hne, mode_index_inj). rewrite E3, E4.
    split; [by apply at_index_app|]. split; [done|]. intros Hn. specialize (Hl' Hn). lia.
Qed.

(** A group that is only there when the resource is. *)
Lemma add_group_maybe j m ty (o : option (Z * Z)) (t : T) u t' :
  (m <> LegacyIrqMode -> ty = MsiIrqSource) -> (j < 5)%nat -> fine j t.1 ->
  (match o with Some (base, size) => add_group m ty base size | None => mret tt end) t = Ret (Ok u, t') ->
  fine (S j) t'.1 /\ (is_Some o -> has t'.1 m) /\ (forall m', m' <> m -> has t.1 m' -> has t'.1 m').
Proof.
  intros Hty Hj Hf. destruct o as [[base size]|].
  - intros Hadd. destruct (add_group_has j m ty base size t u t' Hty Hj Hf Hadd) as (? & ? & ?). by split_and!.
  - intros [= _ <-]. destruct Hf as (? & ? & ? & ?). split; [split_and!; try done; lia|]. split; [by intros []|done].
Qed.

Lemma DIM_new_ok res k u im k' :
  is_Some (get_legacy_irq res) -> is_Some (get_generic_msi_irqs res) ->
  DIM_new res (DIM_empty, k) = Ret (Ok u, (im, k')) -> dim_ok im.
Proof.
  intros [irq Hirq] Hgen. unfold DIM_new. rewrite Hirq.
  assert (Hf0 : fine 0 (DIM_empty (G:=G))) by (split_and!; done).
  intros [(e & _ & [=])|(u1 & [d1 k1] & H1 & Hb)]%bind_inv.
  destruct (add_group_has 0 LegacyIrqMode LegacyIrqSource _ _ (DIM_empty, k) _ _ ltac:(done) ltac:(lia) Hf0 H1) as (Hf1 & Hleg & _).
  apply bind_inv in Hb as [(e & _ & [=])|(u2 & [d2 k2] & H2 & Hb)].
  destruct (add_group_maybe 1 GenericMsiIrq MsiIrqSource _ _ _ _ ltac:(done) ltac:(lia) Hf1 H2) as (Hf2 & Hmsi & Hk2).
  apply bind_inv in Hb as [(e & _ & [=])|(u3 & [d3 k3] & H3 & Hb)].
  destruct (add_group_maybe 2 PciMsiIrq MsiIrqSource _ _ _ _ ltac:(done) ltac:(lia) Hf2 H3) as (Hf3 & _ & Hk3).
  destruct (add_group_maybe 3 PciMsixIrq MsiIrqSource _ _ _ _ ltac:(done) ltac:(lia) Hf3 Hb) as (Hf4 & _ & Hk4). cbn in *.
  destruct (Hk4 LegacyIrqMode) as (g1 & Hg1 & Hi1 & _); [done|by apply Hk3, Hk2|].
  destruct (Hk4 GenericMsiIrq) as (g2 & Hg2 & _ & Hl2); [done|by apply Hk3, Hmsi|].
  destruct Hf4 as (_ & Hd & Ha & _).
  split; [by exists g1|done|exists g2; auto|by left|by rewrite Hd|by rewrite Ha].
Qed.
End dim.

Section total.
Context {G V Q K : Type} `{InterruptSourceGroup G K} `{Vm K} `{QueueT Q K} `{VirtioDevice V G Q K}.
#[local] Abbreviation St := (MmioV2Device G V Q * K)%type.
#[local] Abbreviation tx := (eff St TransportError).

(** The shared memory regions end below the top of the address space. *)
Definition shm_ok (o : option VirtioSharedMemoryList) : Prop :=
  match o with
  | None => True
  | Some l => Forall (fun r => shm_offset r + guest_addr l <= u64_max) (region_list l)
  end.

Record state_ok (n : nat) (t : MmioV2DeviceState G V Q) : Prop := {
  ok_intr : dim_ok (intr_mgr t);
  ok_base : 0 <= mmio_base t /\ mmio_base t + DRAGONBALL_MMIO_DOORBELL_OFFSET + 4 * Z.of_nat n <= u64_max;
  ok_doorbell : doorbell t = None \/
    doorbell t = Some (mkDoorBell DRAGONBALL_MMIO_DOORBELL_OFFSET DRAGONBALL_MMIO_DOORBELL_SCALE);
  ok_queues : length (queues t) = n;
  ok_shm : shm_ok (shm_regions t);
}.

Definition transport_ok (n : nat) (s : St) : Prop := state_ok n (state s.1).

Section methods.
Context (n : nat).
#[local] Abbreviation ok := (transport_ok n).

Lemma io_ok {A} (g : K -> result errno A * K) : always ok (io g).
Proof. intros [d k] Hs. unfold io. cbn. destruct (g k) as [r k1]. by exists r, (d, k1). Qed.

Lemma ignore_ok {E A} (m : eff St E A) : always ok m -> always ok (ignore m).
Proof. intros Hm s Hs. destruct (Hm s Hs) as (r & s1 & E1 & Hs1). unfold ignore. rewrite E1. eauto. Qed.

Lemma intr_ok {A} (m : eff (DeviceInterruptManager G * K) errno A) :
  always (fun t => dim_ok t.1) m -> always ok (intr m).
Proof.
  intros Hm. apply always_zoom. intros [d k] Hs. destruct (Hm (intr_mgr (state d), k)) as (r & t & E1 & Ht).
  - by apply ok_intr in Hs.
  - exists r, t. split; [done|]. destruct Hs. by split.
Qed.

Lemma on_device_ok {E A} (g : V -> K -> result E A * V * K) : always ok (on_device g).
Proof.
  intros [d k] Hs. unfold on_device. cbn. destruct (g _ _) as [[r v] k1]. eexists _, _. split; [done|].
  destruct Hs. by split.
Qed.

Lemma st_ok {A} (f : MmioV2DeviceState G V Q -> A) : always ok (st f).
Proof. apply always_gets. Qed.

Lemma upd_ok f : (forall t, state_ok n t -> state_ok n (f t)) -> always ok (upd_st f).
Proof. intros Hf. apply always_modify. intros s Hs. by apply Hf. Qed.

Lemma set_driver_failed_ok : always ok set_driver_failed.
Proof. by apply always_modify. Qed.

(** After reading the state, the method may use what is known of it. *)
Lemma st_bind_ok {A C} (f : MmioV2DeviceState G V Q -> A) (k : A -> tx C) :
  (forall s, ok s -> exists r s', k (f (state s.1)) s = Ret (r, s') /\ ok s') -> always ok (st f ≫= k).
Proof. intros Hk s Hs. by apply Hk. Qed.

Lemma lift_bind_ok {A C} (a : A) (o : outcome A) (k : A -> tx C) :
  o = Ret a -> always ok (k a) -> always ok (lift o ≫= k).
Proof. intros -> Hk s Hs. by apply Hk. Qed.

Lemma notify_addr t : state_ok n t -> uadd u64_max (mmio_base t) MMIO_NOTIFY_REG_OFFSET = Ret (mmio_base t + MMIO_NOTIFY_REG_OFFSET).
Proof. intros [_ [Hb Ht] _ _ _]. apply uadd_Ret. change MMIO_NOTIFY_REG_OFFSET with 80. change DRAGONBALL_MMIO_DOORBELL_OFFSET with 4096 in Ht. lia. Qed.

Lemma doorbell_addr t db i :
  state_ok n t -> doorbell t = Some db -> (i < n)%nat ->
  uadd u64_max (mmio_base t) (queue_offset db i) = Ret (mmio_base t + queue_offset db i).
Proof.
  intros [_ [Hb Ht] Hdb _ _] E Hi. apply uadd_Ret. destruct Hdb as [Hdb|Hdb]; [congruence|].
  rewrite E in Hdb. injection Hdb as ->. unfold queue_offset. cbn [db_offset db_scale].
  change DRAGONBALL_MMIO_DOORBELL_SCALE with 4. lia.
Qed.

Lemma imap_pair_lookup {A} (l : list A) i a : (i, a) ∈ imap pair l -> l !! i = Some a.
Proof.
  intros Hin. apply elem_of_lookup_imap in Hin as (j & x & [= -> ->] & Hl). done.
Qed.

Lemma doorbell_ok : always ok unregister_ioevent_doorbell.
Proof.
  apply st_bind_ok. intros s Hs. cbn. destruct (doorbell (state s.1)) as [db|] eqn:Edb; [|by apply always_ret].
  apply (always_for_each ok); [|done]. intros [i q] Hin%imap_pair_lookup.
  eapply lift_bind_ok; [eapply doorbell_addr; [exact Hs|done|]|apply ignore_ok, io_ok].
  apply lookup_lt_Some in Hin. by rewrite (ok_queues _ _ Hs) in Hin.
Qed.

Lemma revert_loop_ok qs m addr w : (m <= length qs)%nat -> always ok (revert_loop qs m addr w).
Proof.
  induction m as [|m IH]; intros Hm; [apply always_ret|]. cbn.
  destruct (lookup_lt_is_Some_2 qs m) as [q Hq]; [lia|]. rewrite Hq.
  apply always_bind; [apply always_ret|]. intros q'. apply always_bind; [apply ignore_ok, io_ok|].
  intros _. apply IH. lia.
Qed.

Lemma revert_ok i addr w : (i < n)%nat -> always ok (revert_ioevent i addr w).
Proof.
  intros Hi. apply st_bind_ok. intros s Hs. cbn [id]. rewrite (ok_queues _ _ Hs).
  rewrite (proj2 (Nat.ltb_lt _ _)) by done. apply revert_loop_ok; [|done]. rewrite (ok_queues _ _ Hs). lia.
Qed.

Lemma register_queue_ok i q : (i < n)%nat -> always ok (register_queue_ioevent i q).
Proof.
  intros Hi. apply st_bind_ok. intros s Hs. cbn [id].
  match goal with |- exists r s', ?m s = Ret (r, s') /\ _ => cut (always ok m); [by intros Hm; apply Hm|] end.
  apply always_bind.
  - destruct (doorbell (state s.1)) as [db|] eqn:Edb; [|apply always_ret].
    eapply lift_bind_ok; [by eapply doorbell_addr|].
    apply always_bind; [apply always_attempt, io_ok|]. intros [u|e]; [apply always_ret|].
    apply always_bind; [by apply revert_ok|]. intros _. apply always_throw.
  - intros _. eapply lift_bind_ok; [by apply notify_addr|].
    apply always_bind; [apply always_attempt, io_ok|]. intros [u|e]; [apply always_ret|].
    apply always_bind; [apply doorbell_ok|]. intros _.
    apply always_bind; [by apply revert_ok|]. intros _. apply always_throw.
Qed.

Lemma register_ioevents_ok : always ok register_ioevents.
Proof.
  apply st_bind_ok. intros s Hs.
  match goal with |- exists r s', ?m s = Ret (r, s') /\ _ => cut (always ok m); [by intros Hm; apply Hm|] end.
  apply always_bind; [apply always_for_each|].
  - intros [i q] Hin%imap_pair_lookup. apply register_queue_ok. apply lookup_lt_Some in Hin.
    by rewrite (ok_queues _ _ Hs) in Hin.
  - intros _. apply upd_ok. intros t [? ? ? ? ?]. by split.
Qed.

Lemma unregister_ioevents_ok : always ok unregister_ioevents.
Proof.
  apply st_bind_ok. intros s Hs. cbn [id]. destruct (ioevent_registered _); [|by apply always_ret].
  match goal with |- exists r s', ?m s = Ret (r, s') /\ _ => cut (always ok m); [by intros Hm; apply Hm|] end.
  eapply lift_bind_ok; [by apply notify_addr|]. apply always_for_each. intros [i q] _.
  apply always_bind; [apply ignore_ok, io_ok|]. intros _. apply upd_ok. intros t [? ? ? ? ?]. by split.
Qed.

Lemma create_device_config_enabled s :
  ok s -> activated (intr_mgr (state s.1)) = true -> exists c, create_device_config s = Ret (Ok c, s).
Proof.
  intros Hs Ha. destruct s as [d k].
  destruct (get_group_enabled (intr_mgr (state d), k)) as [g Hg]; [by apply ok_intr in Hs|done|].
  assert (Hgg : map_err TIOError (intr get_group) (d, k) = Ret (Ok (Some g), (d, k))).
  { unfold map_err, intr, zoom. cbn. rewrite Hg. cbn. by destruct d as [[] ? ? ? ? ? ?]. }
  unfold create_device_config, create_queue_config, mbind, eff_bind. rewrite !Hgg. cbn.
  unfold st, gets. cbn. rewrite !Hgg. cbn. destruct (has_ctrl_queue _); eauto.
Qed.

Lemma activate_ok : always ok activate.
Proof.
  intros s Hs. unfold activate, mbind, eff_bind at 1, gets. cbn.
  destruct (device_activated _); [eauto|]. destruct (negb _); [eauto|].
  destruct (register_ioevents_ok s Hs) as (r1 & s1 & E1 & Hs1). unfold eff_bind at 1. rewrite E1.
  destruct r1 as [[]|e1]; [|eauto]. unfold eff_bind at 1, map_err at 1, intr, zoom.
  destruct (enable_ok (intr_mgr (state s1.1), s1.2)) as (r2 & [im k2] & E2 & Hok2 & Hact);
    [by apply ok_intr in Hs1|]. cbn. rewrite E2.
  set (s2 := (put_state (put_intr_mgr im (state s1.1)) s1.1, k2)).
  assert (Hs2 : ok s2) by (destruct Hs1; by split).
  destruct r2 as [[]|e2]; [|by exists (Err (TIOError e2)), s2].
  destruct (create_device_config_enabled s2 Hs2 (Hact tt eq_refl)) as [c Hc].
  unfold eff_bind at 1. cbn in Hc |- *. fold s2. rewrite Hc.
  unfold eff_bind, map_err.
  destruct (on_device_ok (dev_activate c) s2 Hs2) as (r3 & s3 & E3 & Hs3). rewrite E3.
  destruct r3 as [[]|e3]; [|eauto]. apply upd_ok; [|done]. intros t [? ? ? ? ?]. by split.
Qed.

Lemma reset_queues_length (qs : list (VirtioQueueConfig G Q)) :
  length (reset_queues (K:=K) qs).2 = length qs.
Proof.
  induction qs as [|q qs IH]; [done|]. cbn. destruct (q_new _); [|done].
  destruct (reset_queues qs) as [r qs']. cbn in *. lia.
Qed.

Lemma reset_ok : always ok reset.
Proof.
  apply st_bind_ok. intros s Hs. cbn [id]. destruct (device_activated _); [by apply always_ret|].
  pose proof (reset_queues_length (queues (state s.1))) as Hl.
  destruct (reset_queues (queues (state s.1))) as [r qs]. cbn [snd] in Hl.
  match goal with |- exists r s', ?m s = Ret (r, s') /\ _ => cut (always ok m); [by intros Hm; apply Hm|] end.
  apply always_bind.
  - apply upd_ok. intros t [? ? ? ? ?]. split; try done. cbn. by rewrite Hl, (ok_queues _ _ Hs).
  - intros _. destruct r as [[]|e]; [|apply always_throw].
    apply always_bind; [apply ignore_ok, intr_ok, reset_dim_ok|]. intros _.
    apply always_bind; [apply doorbell_ok|]. intros _.
    apply always_bind; [apply unregister_ioevents_ok|]. intros _.
    apply upd_ok. intros t [? ? ? ? ?]. split; try done. by left.
Qed.

Lemma upd_msi_ok o : always ok (upd_st (put_msi o)).
Proof. apply upd_ok. intros t [? ? ? ? ?]. by split. Qed.

Lemma update_msi_cfg_ok v : 0 <= v -> always ok (update_msi_cfg v).
Proof.
  intros Hv. unfold update_msi_cfg. apply always_bind; [apply st_ok|]. intros [m|]; [|apply always_ret].
  apply always_bind; [apply upd_msi_ok|]. intros _.
  do 3 (apply always_bind; [apply always_map_err, intr_ok, update_msi_ok|]; intros _).
  apply always_bind; [apply st_ok|]. intros b. destruct (negb b); [apply always_ret|].
  by apply always_map_err, intr_ok, update_ok.
Qed.

Lemma mask_msi_int_ok i b : always ok (mask_msi_int i b).
Proof.
  unfold mask_msi_int. apply always_bind; [apply st_ok|]. intros en. destruct (negb en); [apply always_ret|].
  apply always_bind; [apply always_map_err, intr_ok, get_group_ok|]. intros [g|]; [|apply always_ret].
  apply always_bind; [apply always_map_err, intr_ok, get_msi_mask_ok|]. intros old.
  destruct (_ && _); [|destruct (_ && _); [|apply always_ret]];
    (apply always_bind; [apply always_map_err, io_ok|]; intros _; apply always_map_err, intr_ok, update_msi_ok).
Qed.

Lemma handle_msi_cmd_ok v : 0 <= v -> always ok (handle_msi_cmd v).
Proof.
  intros Hv. unfold handle_msi_cmd. apply always_bind; [apply st_ok|]. intros d.
  assert (0 <= Z.land v MMIO_MSI_CMD_ARG_MASK) by (apply Z.land_nonneg; by left).
  destruct (_ =? _); [destruct (_ <? _); [apply always_ret|by apply ignore_ok, update_msi_cfg_ok]|].
  do 2 (destruct (_ =? _); [apply ignore_ok, mask_msi_int_ok|]). apply set_driver_failed_ok.
Qed.

Lemma set_working_mode_or_fail_ok m o :
  m = Disabled \/ m = LegacyIrqMode \/ m = GenericMsiIrq -> always ok (set_working_mode_or_fail m o).
Proof.
  intros Hm. apply always_bind; [by apply always_attempt, intr_ok, set_working_mode_ok|].
  intros [u|e]; [apply upd_msi_ok|apply set_driver_failed_ok].
Qed.

Lemma update_msi_enable_ok v : always ok (update_msi_enable v).
Proof.
  unfold update_msi_enable. apply always_bind; [apply always_gets|]. intros st0.
  destruct (negb _); [destruct (_ =? _); [apply set_driver_failed_ok|apply always_ret]|].
  apply always_bind; [apply st_ok|]. intros m.
  destruct (negb _), m; try apply always_ret; apply set_working_mode_or_fail_ok; auto.
Qed.

Lemma exchange_ok old new : always ok (exchange_driver_status old new).
Proof.
  intros s Hs. rewrite exchange_run. destruct (_ =? _); [|eauto]. eexists _, _. split; [done|]. destruct Hs. by split.
Qed.

Lemma update_driver_status_ok v : always ok (update_driver_status v).
Proof.
  unfold update_driver_status. apply always_bind.
  2: { intros [|]; [apply always_ret|apply set_driver_failed_ok]. }
  do 3 (destruct (v =? _); [apply exchange_ok|]).
  destruct (v =? _).
  { apply always_bind; [apply exchange_ok|]. intros [o|e]; [|apply always_ret].
    apply always_bind; [apply always_attempt, activate_ok|]. intros [u|e]; [apply always_ret|].
    apply always_bind; [apply ignore_ok, reset_ok|]. intros _. apply always_ret. }
  destruct (v =? 0).
  - apply always_bind; [apply always_gets|]. intros st0. apply always_bind; [apply st_ok|]. intros ac.
    destruct (_ =? _); [apply always_ret|]. destruct (negb ac); [apply always_ret|].
    apply always_bind; [apply always_attempt, on_device_ok|]. intros [u|e]; [|apply always_ret].
    apply always_bind; [apply upd_ok|].
    { intros t [? ? ? ? ?]. unfold deactivate. destruct (device_activated t); by split. }
    intros _. apply always_bind; [apply always_attempt, reset_ok|]. intros [u'|e]; [apply exchange_ok|apply always_ret].
  - apply always_bind; [apply always_gets|]. intros st0. destruct (_ =? _); [apply always_ret|].
    destruct (negb _); [|apply always_ret]. apply always_bind; [apply set_driver_failed_ok|]. intros _. apply always_ret.
Qed.

Lemma update_queue_field_ok g : always ok (update_queue_field g).
Proof.
  apply always_bind; [apply always_gets|]. intros s. case_match; [|apply always_ret].
  apply upd_ok. intros t Ht. unfold with_queue_mut. destruct (at_index _ _); [|done].
  destruct Ht. split; try done. cbn. by rewrite length_insert.
Qed.

Lemma put_device_ok f : always ok (upd_st (fun t => put_device (f t) t)).
Proof. apply upd_ok. intros t [? ? ? ? ?]. by split. Qed.

Lemma set_acked_features_ok v : always ok (set_acked_features v).
Proof. apply always_bind; [apply always_gets|]. intros s. case_match; [apply put_device_ok|apply always_ret]. Qed.

Lemma set_device_config_ok o v : always ok (set_device_config o v).
Proof. apply always_bind; [apply always_gets|]. intros s. case_match; [apply put_device_ok|apply always_ret]. Qed.

Lemma write_reg_ok offset v : always ok (write_reg offset v).
Proof.
  unfold write_reg.
  repeat (match goal with |- always _ (if ?b then _ else _) => destruct b end;
    [first [ apply update_queue_field_ok | apply set_acked_features_ok | apply update_driver_status_ok
           | apply upd_ok; intros t [? ? ? ? ?]; by split
           | apply always_modify; intros s [? ? ? ? ?]; by split ]|]).
  apply always_ret.
Qed.

Lemma write_ok offset data : 0 <= le_read data -> always ok (mmio_v2_write offset data).
Proof.
  intros Hd. unfold mmio_v2_write. destruct (_ && _); [apply set_device_config_ok|].
  destruct (Nat.eqb _ 4); [apply write_reg_ok|]. destruct (Nat.eqb _ 2); [|apply always_ret].
  destruct (_ =? _); [apply update_msi_enable_ok|].
  destruct (_ =? _); [by apply handle_msi_cmd_ok|apply always_ret].
Qed.

Lemma shm_base_ok t : state_ok n t ->
  (exists a, get_shm_base_low t = Ret a) /\ (exists a, get_shm_base_high t = Ret a).
Proof.
  intros [_ _ _ _ Hshm]. unfold get_shm_base_low, get_shm_base_high, get_shm_field, shm_base, at_index.
  destruct (shm_regions t) as [l|]; [|eauto]. destruct (_ <? _); [|eauto].
  destruct (region_list l !! _) as [r|] eqn:Er; [|eauto].
  pose proof (Forall_lookup_1 _ _ _ _ Hshm Er) as Hr. cbn in Hr. rewrite uadd_Ret by done. cbn. eauto.
Qed.

Lemma read_reg_ok offset d : state_ok n (state d) -> exists o, read_reg (K:=K) offset d = Ret o.
Proof.
  intros Hd. destruct (shm_base_ok _ Hd) as [[a Ha] [b Hb]]. unfold read_reg. rewrite Ha, Hb.
  assert (Hlen : forall f, exists o, get_shm_field 0xffffffff (fun r => Ret (f r)) (state d) = Ret o).
  { intros f. unfold get_shm_field. destruct (shm_regions _); [|eauto]. destruct (at_index _ _); eauto. }
  destruct (Hlen (fun r => as_u32 (shm_len r))) as [c Hc]. destruct (Hlen (fun r => as_u32 (Z.shiftr (shm_len r) 32))) as [e He].
  rewrite Hc, He.
  repeat (match goal with |- exists o, (if ?b then _ else _) = _ => destruct b end; [cbn; eauto|]). eauto.
Qed.

Lemma read_ok offset data : always ok (mmio_v2_read offset data).
Proof.
  intros s Hs. unfold mmio_v2_read, mbind, eff_bind at 1, gets. cbn.
  destruct (_ <=? _).
  { unfold get_device_config, mbind, eff_bind, gets. cbn. destruct (check_driver_status _ _ _); [|eauto].
    destruct (dev_read_config _ _ _) as [data' v]. eexists _, _. split; [done|]. destruct Hs. by split. }
  destruct (Nat.eqb _ 4).
  { destruct (read_reg_ok offset s.1 Hs) as [o Ho]. unfold eff_bind, lift. rewrite Ho. eauto. }
  destruct (Nat.eqb _ 2); [destruct (_ =? _)|]; eauto.
Qed.
End methods.
End total.
