(* ===== verification/MmioDemo.v ===== *)
(** * A concrete transport

    Instances of the interfaces of the MMIO transport, for the witnesses: KVM
    with a list of ioevents of bounded length, queues that remember their size,
    and a device with two queues. *)
From S2P Require Import Prelude DeviceResources Effects InterruptManager MmioData MmioTransport.

(** What is documented of the ioevents of KVM: a registration that succeeds is
    there until it is taken out with the same event file, address and match. *)
Class VmLaws (K : Type) `{Vm K} := {
  registered : K -> eventfd -> Z -> DataMatch -> Prop;
  register_adds fd a m k u k' : register_ioevent fd a m k = (Ok u, k') -> registered k' fd a m;
  register_keeps fd a m k r k' fd' a' m' :
    register_ioevent fd a m k = (r, k') -> registered k fd' a' m' -> registered k' fd' a' m';
  unregister_exact fd a m k r k' fd' a' m' :
    unregister_ioevent fd a m k = (r, k') -> (fd', a', m') <> (fd, a, m) ->
    registered k fd' a' m' -> registered k' fd' a' m';
}.

Record DemoVm := mkDemoVm { ioevents : list (eventfd * Z * DataMatch); next_fd : nat; room : nat }.

#[global] Instance demo_vm : Vm DemoVm := {|
  register_ioevent fd a m k :=
    if existsb (fun e => bool_decide (e.1.2 = a /\ e.2 = m)) (ioevents k) then (Err EEXIST, k)
    else if Nat.leb (room k) (length (ioevents k)) then (Err EOTHER, k)
    else (Ok tt, mkDemoVm ((fd, a, m) :: ioevents k) (next_fd k) (room k));
  unregister_ioevent fd a m k :=
    if bool_decide ((fd, a, m) ∈ ioevents k)
    then (Ok tt, mkDemoVm (filter (fun e => e <> (fd, a, m)) (ioevents k)) (next_fd k) (room k))
    else (Err ENOENT, k);
  set_user_memory_region _ _ _ _ k := (Ok tt, k);
  eventfd_new k := (Ok (next_fd k), mkDemoVm (ioevents k) (S (next_fd k)) (room k));
  check_extension_no_length _ := false;
|}.

#[global] Program Instance demo_vm_laws : VmLaws DemoVm := {|
  registered k fd a m := (fd, a, m) ∈ ioevents k;
|}.
Next Obligation.
  intros fd a m k u k' Hr. cbn in Hr. repeat case_match; simplify_eq. cbn. left.
Qed.
Next Obligation.
  intros fd a m k r k' fd' a' m' Hr Hin. cbn in Hr. repeat case_match; simplify_eq; cbn; [done|done|by right].
Qed.
Next Obligation.
  intros fd a m k r k' fd' a' m' Hr Hne Hin. cbn in Hr. case_match; simplify_eq; cbn; [|done].
  by apply list_elem_of_filter.
Qed.

(** An interrupt group: its type and its length. *)
#[global] Instance demo_group : InterruptSourceGroup (InterruptSourceType * Z) DemoVm := {|
  group_type := fst;
  group_len := snd;
  group_enable _ _ k := (Ok tt, k);
  group_disable _ k := (Ok tt, k);
  group_update _ _ _ k := (Ok tt, k);
  group_mask _ _ k := (Ok tt, k);
  group_unmask _ _ k := (Ok tt, k);
  group_pending _ _ k := (false, k);
  create_group ty base count k := (Ok (ty, count), k);
|}.

Record DemoQueue := mkDemoQueue { dq_max : Z; dq_size : Z; dq_ready : bool }.

#[global] Instance demo_queue : QueueT DemoQueue DemoVm := {|
  q_new size := Some (mkDemoQueue size size false);
  q_max_size := dq_max;
  q_ready := dq_ready;
  q_set_size v q := mkDemoQueue (dq_max q) v (dq_ready q);
  q_set_ready b q := mkDemoQueue (dq_max q) (dq_size q) b;
  q_set_desc_table_address _ _ q := q;
  q_set_avail_ring_address _ _ q := q;
  q_set_used_ring_address _ _ q := q;
  q_is_valid _ q := dq_ready q;
  q_reset q := mkDemoQueue (dq_max q) (dq_max q) false;
|}.

(** A device with two queues that counts its activations. *)
#[global] Instance demo_device : VirtioDevice nat (InterruptSourceType * Z) DemoQueue DemoVm := {|
  device_type _ := 2;
  queue_max_sizes _ := [256; 256];
  ctrl_queue_max_sizes _ := 0;
  get_avail_features _ _ := 0;
  dev_set_acked_features _ _ v := v;
  dev_read_config _ data v := (data, v);
  dev_write_config _ _ v := v;
  dev_activate _ v k := (Ok tt, S v, k);
  dev_reset v k := (Ok tt, v, k);
  dev_remove v k := (v, k);
  dev_set_resource _ v k := (Ok None, v, k);
|}.

Definition demo_window : Resource := MmioAddressRange 0xd0000000 0x2000.
Definition legacy_only : DeviceResources := mkDeviceResources [demo_window; LegacyIrq 5].
Definition legacy_and_msi : DeviceResources := mkDeviceResources [demo_window; LegacyIrq 5; MsiIrq GenericMsi 24 3].

Definition demo_new (res : DeviceResources) (room : nat)
    : outcome (result TransportError (MmioV2Device (InterruptSourceType * Z) nat DemoQueue) * DemoVm) :=
  device_new 0%nat res None (mkDemoVm [] 0 room).

(** What a driver writes to bring the device up to the status [FEATURES_OK]
    with both queues ready, and to make it run. *)
Definition w32 (offset v : Z) : Z * list Z := (offset, le_write 4 v).
Definition driver_setup : list (Z * list Z) :=
  [w32 REG_MMIO_STATUS 1; w32 REG_MMIO_STATUS 3; w32 REG_MMIO_STATUS 11;
   w32 REG_MMIO_QUEUE_SEL 0; w32 REG_MMIO_QUEUE_READY 1; w32 REG_MMIO_QUEUE_SEL 1; w32 REG_MMIO_QUEUE_READY 1].
Definition driver_start : list (Z * list Z) := [w32 REG_MMIO_STATUS 15].
Definition msi_on : list (Z * list Z) := [(REG_MMIO_MSI_CSR, le_write 2 MMIO_MSI_CSR_ENABLED)].
