(* ===== verification/MmioProps.v ===== *)
(** * The virtio MMIO transport: correctness

    Every guest program moves the driver status along the state machine of the
    virtio specification, and a device is active exactly when its driver runs
    ([status_machine]).  A device that runs keeps its configuration
    ([active_config_frozen]); one that has failed is never used again
    ([failed_device_inert]).  With a group for each interrupt mode no guest
    program makes the transport panic ([guest_cannot_panic]); without MSI
    vectors one does ([msi_without_vectors_panics]), and a failed activation
    leaves ioevents behind ([failed_activation_leaks]). *)
From S2P Require Import Prelude DeviceResources Effects InterruptManager MmioData MmioTransport MmioFacts MmioTotal MmioDemo.

(** The values of the status register: a step of the initialisation, possibly
    with the failure bit; the device is active exactly when its driver runs. *)
Definition step_value (q : Z) : Prop := q = 0 \/ q = 1 \/ q = 3 \/ q = 11 \/ q = 15.

Definition view_ok (p : Z * bool) : Prop :=
  (step_value p.1 /\ (p.2 = true <-> p.1 = 15)) \/
  (exists q, step_value q /\ p.1 = Z.lor q DEVICE_FAILED /\ (p.2 = true -> q = 15)).

Lemma not_running p a : step_value p -> p <> 15 -> view_ok (p, a) -> a = false.
Proof.
  intros Hp Hne [[_ Ha]|(q & Hq & E & _)]; cbn in *.
  - destruct a; [|done]. by destruct Hne, Ha; auto.
  - destruct Hp as [->|[->|[->|[->| ->]]]], Hq as [->|[->|[->|[->| ->]]]]; discriminate.
Qed.

Lemma step_view p q : step_value q -> q <> 15 -> p = false -> view_ok (q, p).
Proof. intros Hq Hne ->. left. cbn. by split. Qed.

Lemma status_step_ok p p' : status_step p p' -> view_ok p -> view_ok p'.
Proof.
  intros Hst Hv. destruct Hst as [p|a|a|a|a| |a|p a a' Haa]; [done|..].
  1-3: apply step_view; [unfold step_value; lia|done|]; eapply not_running; [..|exact Hv]; unfold step_value; lia.
  - left. unfold step_value. cbn. split; [lia|by split].
  - left. unfold step_value. cbn. split; [lia|by split].
  - right. exists 15. unfold step_value. split; [lia|done].
  - right. destruct Hv as [[Hp Ha]|(q & Hq & E & Ha)]; cbn in *.
    + exists p. split; [done|]. split; [done|]. intros Ht. by apply Ha, Haa.
    + exists q. split; [done|]. split; [by rewrite E, <- Z.lor_assoc|]. intros Ht. by apply Ha, Haa.
Qed.

Section claims.
Context {G V Q K : Type} `{InterruptSourceGroup G K} `{Vm K} `{QueueT Q K} `{VirtioDevice V G Q K}.
#[local] Abbreviation St := (MmioV2Device G V Q * K)%type.

Lemma guest_writes_steps ws s r (s' : St) :
  guest_writes ws s = Ret (r, s') -> rtc status_step (view s) (view s').
Proof.
  apply (guest_writes_keeps (fun s s' => rtc status_step (view s) (view s'))).
  - intros. apply rtc_refl.
  - intros s1 s2 s3 ? ?. by etrans.
  - intros o d _ s0 r0 s1 Hw. eapply rtc_once, write_step, Hw.
Qed.

Lemma rtc_view_ok p p' : rtc status_step p p' -> view_ok p -> view_ok p'.
Proof. induction 1; eauto using status_step_ok. Qed.

Lemma device_new_parts v res ft k d k1 :
  device_new (G:=G) (Q:=Q) v res ft k = Ret (Ok d, k1) ->
  view (d, k1) = (0, false) /\
  exists dv base de k0, state_new dv (device_resources (state d)) base de k0 = Ret (Ok (state d), k1).
Proof.
  unfold device_new. destruct (split_resources _ _ _) as [[cfg|] rest]; [|done].
  intros [(e & [=] & _)|(ext & k0 & [= <- <-] & Hb)]%bind_inv.
  apply bind_inv in Hb as [(e & _ & [=])|(t & k2 & Hs & Hb)]. injection Hb as <- <-.
  assert (device_activated t = false /\ device_resources t = mkDeviceResources rest) as [Ha Hr].
  { unfold state_new in Hs. repeat case_match; simplify_eq; done. }
  unfold view, status, active. cbn. rewrite Ha, Hr. split; [done|]. eauto.
Qed.

(** C25: after any sequence of register writes to a new device the driver status is
    a step of the virtio initialisation, possibly with the failure bit, that was
    reached step by step; without the failure bit the device is active exactly in
    the status DRIVER_OK, and with it at most there. *)
Theorem status_machine v res ft k d k1 ws r (s' : St) :
  device_new v res ft k = Ret (Ok d, k1) -> guest_writes ws (d, k1) = Ret (r, s') ->
  rtc status_step (0, false) (view s') /\ view_ok (view s').
Proof.
  intros [Hv _]%device_new_parts Hw. apply guest_writes_steps in Hw. rewrite Hv in Hw.
  split; [done|]. eapply rtc_view_ok; [done|]. left. unfold step_value. cbn. split; [lia|by split].
Qed.

(** C38: while the driver runs, no register write except the reset changes the
    queues, the interrupt mode or the doorbell of the device, or deactivates it; the
    status stays DRIVER_OK, possibly with the failure bit. *)
Theorem active_config_frozen ws s r (s' : St) :
  running s -> Forall (fun w => w.1 = REG_MMIO_STATUS -> le_read w.2 <> 0) ws ->
  guest_writes ws s = Ret (r, s') -> running s' /\ frozen s' = frozen s.
Proof.
  intros Hr Hws Hw. revert Hw Hr. apply (guest_writes_keeps stays_frozen); [done|apply stays_frozen_trans|].
  intros o dt Hin. apply write_frozen. rewrite Forall_forall in Hws. by apply (Hws _ Hin).
Qed.

(** A device that has failed and is not active is inert: no sequence of register
    writes, a reset included, changes its status, its queues or the device behind
    it, or activates it. *)
Theorem failed_device_inert ws s r (s' : St) :
  has_failed s -> active s = false -> guest_writes ws s = Ret (r, s') -> inert s' = inert s.
Proof.
  intros Hf Ha Hw. revert Hw Hf Ha. apply (guest_writes_keeps stays_inert); [done|apply stays_inert_trans|].
  intros o dt _. apply write_inert.
Qed.

(** An access of the guest. *)
Inductive access := Rd (offset : Z) (data : list Z) | Wr (offset : Z) (data : list Z).

Definition run_access (a : access) : eff St TransportError unit :=
  match a with
  | Rd offset data => mmio_v2_read offset data ≫= fun _ => mret tt
  | Wr offset data => mmio_v2_write offset data
  end.

Definition bytes_of (a : access) : list Z := match a with Rd _ d | Wr _ d => d end.

Lemma le_read_nonneg data : Forall (fun b => 0 <= b) data -> 0 <= le_read data.
Proof. induction 1; cbn; lia. Qed.

Lemma run_ok n a : Forall (fun b => 0 <= b) (bytes_of a) -> always (transport_ok n) (run_access a).
Proof.
  intros Hd. destruct a; cbn in *; [|by apply write_ok, le_read_nonneg].
  apply always_bind; [apply read_ok|]. intros _. apply always_ret.
Qed.

Lemma state_new_ok dv res base de k0 t k1 :
  state_new (G:=G) (Q:=Q) dv res base de k0 = Ret (Ok t, k1) ->
  is_Some (get_legacy_irq res) -> is_Some (get_generic_msi_irqs res) ->
  0 <= mmio_base t /\ mmio_base t + DRAGONBALL_MMIO_DOORBELL_OFFSET + 4 * Z.of_nat (length (queues t)) <= u64_max ->
  shm_ok (shm_regions t) -> state_ok (length (queues t)) t.
Proof.
  unfold state_new. intros Hs Hl Hg Hb Hshm.
  destruct (DIM_new res (DIM_empty, k0)) as [[[u|e] [im k2]]|] eqn:Ed; [|done..].
  apply DIM_new_ok in Ed; [|done..].
  repeat case_match; simplify_eq; split; cbn in *; auto.
Qed.

(** C27: on a device with a legacy interrupt and generic MSI vectors, whose register
    window and shared memory lie below the top of the address space, no sequence of
    reads and writes of the guest, of any size and at any offset, makes the
    transport panic. *)
Theorem guest_cannot_panic v res ft k d k1 accesses :
  device_new v res ft k = Ret (Ok d, k1) ->
  is_Some (get_legacy_irq (device_resources (state d))) ->
  is_Some (get_generic_msi_irqs (device_resources (state d))) ->
  0 <= mmio_base (state d) /\
  mmio_base (state d) + DRAGONBALL_MMIO_DOORBELL_OFFSET + 4 * Z.of_nat (length (queues (state d))) <= u64_max ->
  shm_ok (shm_regions (state d)) ->
  Forall (fun a => Forall (fun b => 0 <= b) (bytes_of a)) accesses ->
  exists r s', for_each run_access accesses (d, k1) = Ret (r, s').
Proof.
  intros (_ & dv & base & de & k0 & Hs)%device_new_parts Hl Hg Hb Hshm Ha.
  pose proof (state_new_ok _ _ _ _ _ _ _ Hs Hl Hg Hb Hshm) as Hok.
  destruct (always_for_each (transport_ok (length (queues (state d)))) run_access accesses) with (d, k1)
    as (r & s' & E & _); [|done|eauto].
  intros a Hin. apply run_ok. rewrite Forall_forall in Ha. by apply Ha.
Qed.

(** The state after the guest has enabled MSI and has announced that its driver
    runs, just before the device is activated. *)
Definition armed (s : St) : St :=
  let im := intr_mgr (state s.1) in
  (put_driver_status DEVICE_STATUS_DRIVER_OK
     (put_state (put_msi (Some Msi_default) (put_intr_mgr
        (set_dim_mode GenericMsiIrq (set_current_idx (idx_of im GenericMsiIrq) im)) (state s.1))) s.1), s.2).

(** Registering ioevents changes nothing but the flag and the state around. *)
Definition but_ioevents (s : St) : MmioV2Device G V Q := put_state (put_ioevent_registered false (state s.1)) s.1.

Lemma but_ioevents_frame : frame but_ioevents.
Proof. by split. Qed.

Lemma msi_enable_run (s : St) :
  let im := intr_mgr (state s.1) in
  activated im = false -> dim_mode im = Disabled -> msi (state s.1) = None -> status s = DEVICE_STATUS_FEATURE_OK ->
  exists s1, update_msi_enable MMIO_MSI_CSR_ENABLED s = Ret (Ok tt, s1) /\
    s1 = (put_driver_status DEVICE_STATUS_FEATURE_OK (armed s).1, s.2).
Proof.
  intros im Ha Hd Hm Hst. eexists. split; [|done]. unfold update_msi_enable. rewrite run_gets.
  change (driver_status s.1) with (status s). rewrite Hst.
  change (negb (Z.land DEVICE_STATUS_FEATURE_OK DEVICE_DRIVER_OK =? 0)) with false. cbv iota.
  change (negb (Z.land MMIO_MSI_CSR_ENABLED MMIO_MSI_CSR_ENABLED =? 0)) with true. cbv iota.
  unfold st. rewrite run_gets, Hm. destruct s as [d k].
  unfold set_working_mode_or_fail, attempt, intr, zoom, set_working_mode, mbind, eff_bind, dim, gets, upd, modify. cbn in *.
  unfold status in Hst. cbn in Hst. subst im. rewrite Ha, Hd. unfold armed. cbn. by rewrite <- Hst.
Qed.

Lemma enable_without_group (t : DeviceInterruptManager G * K) :
  activated t.1 = false -> dim_mode t.1 = GenericMsiIrq -> current_idx t.1 = NO_GROUP ->
  Z.of_nat (length (intr_groups t.1)) <= NO_GROUP -> enable t = Panic.
Proof.
  destruct t as [d k]. cbn. intros Ha Hd Hc Hl. unfold enable, dim. rewrite run_gets. cbn [fst id]. rewrite Ha, Hd.
  change (bool_decide (GenericMsiIrq = Disabled)) with false. cbn [andb].
  rewrite (run_ok_bind _ _ _ tt (d, k)) by done. rewrite run_gets. cbn [fst id]. rewrite Hd.
  change (bool_decide (GenericMsiIrq = Disabled)) with false. cbv iota. apply run_panic_bind.
  unfold at_index. by rewrite Hc, (proj2 (Z.ltb_ge _ _)).
Qed.

(** A guest can make the transport of a device without MSI vectors panic:
    enabling MSI is accepted although there is no group for the mode, and the
    activation of the device then indexes a group that does not exist. *)
Theorem msi_without_vectors_panics (s s2 : St) :
  let im := intr_mgr (state s.1) in
  activated im = false -> dim_mode im = Disabled -> idx_of im GenericMsiIrq = NO_GROUP ->
  Z.of_nat (length (intr_groups im)) <= NO_GROUP ->
  msi (state s.1) = None -> status s = DEVICE_STATUS_FEATURE_OK -> active s = false ->
  check_queues_valid s = true -> register_ioevents (armed s) = Ret (Ok tt, s2) ->
  guest_writes (msi_on ++ driver_start) s = Panic.
Proof.
  intros im Ha Hd Hi Hl Hm Hst Hact Hq Hreg.
  destruct (msi_enable_run s Ha Hd Hm Hst) as (s1 & E1 & Hs1).
  change (guest_writes (msi_on ++ driver_start)) with
    (mmio_v2_write REG_MMIO_MSI_CSR (le_write 2 MMIO_MSI_CSR_ENABLED) ≫= fun _ : unit =>
     (mmio_v2_write REG_MMIO_STATUS (le_write 4 15) ≫= fun _ : unit => mret tt) : eff St TransportError unit).
  rewrite (run_ok_bind _ _ s tt s1) by exact E1. apply run_panic_bind.
  change (mmio_v2_write REG_MMIO_STATUS (le_write 4 15) s1) with (update_driver_status (G:=G) (V:=V) (Q:=Q) DEVICE_STATUS_DRIVER_OK s1).
  apply run_panic_bind.
  change (DEVICE_STATUS_DRIVER_OK =? DEVICE_STATUS_ACKNOWLEDE) with false.
  change (DEVICE_STATUS_DRIVER_OK =? DEVICE_STATUS_DRIVER) with false.
  change (DEVICE_STATUS_DRIVER_OK =? DEVICE_STATUS_FEATURE_OK) with false. rewrite Z.eqb_refl. cbv iota.
  rewrite (run_ok_bind _ _ s1 (Ok DEVICE_STATUS_FEATURE_OK) (armed s)).
  2: { rewrite exchange_run. assert (status s1 = DEVICE_STATUS_FEATURE_OK) as -> by (by subst s1).
       rewrite Z.eqb_refl. subst s1. by destruct s as [[] ?]. }
  apply run_panic_bind. cut (activate (armed s) = Panic); [unfold attempt; by intros ->|].
  unfold activate. rewrite run_gets. cbn [id].
  change (device_activated (state (armed s).1)) with (active s). rewrite Hact.
  change (check_queues_valid (armed s)) with (check_queues_valid s). rewrite Hq. cbn [negb].
  rewrite (run_ok_bind _ _ _ _ _ Hreg). apply run_panic_bind.
  pose proof (register_ioevents_same _ but_ioevents_frame _ _ _ Hreg) as Hb.
  assert (Him : intr_mgr (state s2.1) = intr_mgr (state (armed s).1)).
  { apply (f_equal (fun d => intr_mgr (state d))) in Hb. exact Hb. }
  unfold map_err, intr, zoom. rewrite enable_without_group; cbn [fst]; rewrite ?Him; done.
Qed.

(** One queue without a doorbell: the call that binds its event file. *)
Lemma register_queue_run i q (d : MmioV2Device G V Q) (k : K) :
  doorbell (state d) = None ->
  let addr := mmio_base (state d) + MMIO_NOTIFY_REG_OFFSET in
  addr <= u64_max ->
  register_queue_ioevent i q (d, k) =
  match register_ioevent (q_eventfd q) addr (Match32 (Z.of_nat i)) k with
  | (Ok _, k') => Ret (Ok tt, (d, k'))
  | (Err e, k') => (revert_ioevent i addr false ≫= fun _ => throw (TIOError e)) (d, k')
  end.
Proof.
  intros Hdb addr Hle. unfold register_queue_ioevent, st. rewrite run_gets. cbn [fst id]. rewrite Hdb.
  rewrite (run_ok_bind _ _ _ tt (d, k)) by done. rewrite uadd_Ret by done.
  rewrite (run_ok_bind _ _ _ addr (d, k)) by done.
  destruct (register_ioevent _ addr _ k) as [r k'] eqn:E.
  rewrite (run_ok_bind _ _ _ r (d, k')) by (apply run_attempt; unfold io; cbn; by rewrite E).
  destruct r as [[]|e]; [done|].
  rewrite (run_ok_bind _ _ _ tt (d, k')); [done|].
  unfold unregister_ioevent_doorbell, st. rewrite run_gets. cbn [fst id]. by rewrite Hdb.
Qed.

(** The registration of the second of two queues fails. *)
Lemma register_second_fails `{!VmLaws K} (s : St) q0 q1 qs k1 k2 e :
  queues (state s.1) = q0 :: q1 :: qs -> doorbell (state s.1) = None ->
  let addr := mmio_base (state s.1) + MMIO_NOTIFY_REG_OFFSET in
  addr <= u64_max ->
  register_ioevent (q_eventfd q0) addr (Match32 0) s.2 = (Ok tt, k1) ->
  register_ioevent (q_eventfd q1) addr (Match32 1) k1 = (Err e, k2) ->
  exists k3, register_ioevents s = Ret (Err (TIOError e), (s.1, k3)) /\ registered k3 (q_eventfd q0) addr (Match32 0).
Proof.
  intros Hq Hdb addr Hle Hr1 Hr2. destruct s as [d k]. cbn [fst snd] in *.
  destruct (unregister_ioevent (q_eventfd q0) addr (Match64 1) k2) as [r k3] eqn:E3.
  exists k3. split.
  - unfold register_ioevents, st. rewrite run_gets. cbn [fst id]. rewrite Hq.
    cbn [imap for_each compose]. unfold mbind at 1, eff_bind at 1. unfold mbind at 1, eff_bind at 1.
    rewrite register_queue_run by done. fold addr. change (Z.of_nat 0) with 0. rewrite Hr1.
    unfold mbind at 1, eff_bind at 1. rewrite register_queue_run by done. fold addr. change (Z.of_nat 1) with 1. rewrite Hr2.
    rewrite (run_ok_bind _ _ _ tt (d, k3)); [done|].
    unfold revert_ioevent, st. rewrite run_gets. cbn [fst id]. rewrite Hq. cbn [length Nat.ltb Nat.leb revert_loop].
    rewrite (run_ok_bind _ _ _ q0 (d, k2)) by done.
    rewrite (run_ok_bind _ _ _ tt (d, k3)); [done|]. unfold ignore, io. cbn [snd]. change (Z.of_nat 1) with 1. by rewrite E3.
  - eapply unregister_exact; [exact E3|congruence|]. eapply register_keeps; [exact Hr2|]. by eapply register_adds.
Qed.

Lemma reset_dim_idle (im : DeviceInterruptManager G) (k : K) :
  activated im = false -> exists r im', reset_dim (im, k) = Ret (r, (im', k)).
Proof.
  intros Ha. unfold reset_dim, dim. rewrite run_gets. cbn [fst id]. rewrite Ha.
  rewrite (run_ok_bind _ _ _ tt (im, k)) by done. unfold set_working_mode, dim. rewrite run_gets. cbn [fst id].
  rewrite Ha. destruct (bool_decide _); [|eauto]. destruct (_ && _ && _ && _); [eauto|].
  destruct (bool_decide _); eexists _, _; reflexivity.
Qed.

(** A reset with no ioevents on record leaves those of KVM alone. *)
Lemma reset_keeps_ioevents (s : St) :
  ioevent_registered (state s.1) = false -> doorbell (state s.1) = None -> active s = false ->
  activated (intr_mgr (state s.1)) = false ->
  exists r d, reset s = Ret (r, (d, s.2)) /\ driver_status d = driver_status s.1.
Proof.
  intros Hio Hdb Hact Ha. destruct s as [d k]. unfold active in Hact. cbn [fst snd] in *.
  unfold reset, st. rewrite run_gets. cbn [fst id]. rewrite Hact. destruct (reset_queues _) as [r qs].
  set (d1 := put_state (put_queues qs (state d)) d).
  rewrite (run_ok_bind _ _ _ tt (d1, k)) by done.
  destruct r as [[]|e]; [|by exists (Err e), d1].
  destruct (reset_dim_idle (intr_mgr (state d)) k Ha) as (r & im & Eim).
  set (d2 := put_state (put_intr_mgr im (state d1)) d1).
  rewrite (run_ok_bind _ _ _ tt (d2, k)).
  2: { unfold ignore, intr, zoom. cbn [fst snd]. change (intr_mgr (state d1)) with (intr_mgr (state d)). by rewrite Eim. }
  rewrite (run_ok_bind _ _ _ tt (d2, k)).
  2: { unfold unregister_ioevent_doorbell, st. rewrite run_gets. cbn [fst id].
       change (doorbell (state d2)) with (doorbell (state d)). by rewrite Hdb. }
  rewrite (run_ok_bind _ _ _ tt (d2, k)).
  2: { unfold unregister_ioevents, st. rewrite run_gets. cbn [fst id].
       change (ioevent_registered (state d2)) with (ioevent_registered (state d)). by rewrite Hio. }
  eexists _, _. split; reflexivity.
Qed.

(** When the event of the second queue cannot be registered, the activation
    fails with the status FAILED, and the event of the first queue stays registered:
    the roll back asks KVM to remove it with another match value, and the reset has
    no record of it. *)
Theorem failed_activation_leaks `{!VmLaws K} (s : St) q0 q1 qs k1 k2 e :
  queues (state s.1) = q0 :: q1 :: qs -> doorbell (state s.1) = None ->
  ioevent_registered (state s.1) = false -> activated (intr_mgr (state s.1)) = false ->
  status s = DEVICE_STATUS_FEATURE_OK -> active s = false -> check_queues_valid s = true ->
  let addr := mmio_base (state s.1) + MMIO_NOTIFY_REG_OFFSET in
  addr <= u64_max ->
  register_ioevent (q_eventfd q0) addr (Match32 0) s.2 = (Ok tt, k1) ->
  register_ioevent (q_eventfd q1) addr (Match32 1) k1 = (Err e, k2) ->
  exists s', update_driver_status DEVICE_STATUS_DRIVER_OK s = Ret (Ok tt, s') /\
    has_failed s' /\ registered s'.2 (q_eventfd q0) addr (Match32 0).
Proof.
  intros Hq Hdb Hio Ha Hst Hact Hv addr Hle Hr1 Hr2.
  set (s1 := (put_driver_status DEVICE_STATUS_DRIVER_OK s.1, s.2) : St).
  destruct (register_second_fails s1 q0 q1 qs k1 k2 e Hq Hdb Hle Hr1 Hr2) as (k3 & Er & Hreg).
  assert (Eact : activate s1 = Ret (Err (TIOError e), (s1.1, k3))).
  { unfold activate. rewrite run_gets. cbn [id].
    change (device_activated (state s1.1)) with (active s). rewrite Hact.
    change (check_queues_valid s1) with (check_queues_valid s). rewrite Hv. cbn [negb].
    unfold mbind, eff_bind. by rewrite Er. }
  destruct (reset_keeps_ioevents (s1.1, k3)) as (r & d & Ereset & Hds); [done..|].
  exists (put_driver_status (Z.lor (driver_status d) DEVICE_FAILED) d, k3). split; [|split; [|exact Hreg]].
  - unfold update_driver_status.
    change (DEVICE_STATUS_DRIVER_OK =? DEVICE_STATUS_ACKNOWLEDE) with false.
    change (DEVICE_STATUS_DRIVER_OK =? DEVICE_STATUS_DRIVER) with false.
    change (DEVICE_STATUS_DRIVER_OK =? DEVICE_STATUS_FEATURE_OK) with false. rewrite Z.eqb_refl. cbv iota.
    rewrite (run_ok_bind _ _ s (Err DEVICE_FAILED) (d, k3)); [by rewrite set_driver_failed_run|].
    rewrite (run_ok_bind _ _ s (Ok DEVICE_STATUS_FEATURE_OK) s1).
    2: { rewrite exchange_run, Hst. by rewrite Z.eqb_refl. }
    rewrite (run_ok_bind _ _ s1 (Err (TIOError e)) (s1.1, k3)) by (by apply run_attempt).
    rewrite (run_ok_bind _ _ _ tt (d, k3)); [done|]. unfold ignore. by rewrite Ereset.
  - unfold has_failed, status. cbn [fst put_driver_status driver_status]. rewrite Hds. done.
Qed.
End claims.

(** ** Witnesses *)

Definition demo_state (res : DeviceResources) (room : nat) (ws : list (Z * list Z))
    : MmioV2Device (InterruptSourceType * Z) nat DemoQueue * DemoVm :=
  match demo_new res room with
  | Ret (Ok d, k) => match guest_writes ws (d, k) with Ret (_, s) => s | Panic => (d, k) end
  | _ => (mkMmioV2Device (mkState 0%nat DIM_empty res [] 0 false false false 0 0 0 None None 0 None) res demo_window 0 0 0 0, mkDemoVm [] 0 0)
  end.

Lemma status_machine_witness :
  exists d k1 r s', demo_new legacy_and_msi 9 = Ret (Ok d, k1) /\
    guest_writes (driver_setup ++ driver_start) (d, k1) = Ret (r, s') /\ view s' = (15, true) /\
    rtc status_step (0, false) (view s') /\ view_ok (view s').
Proof.
  eexists _, _, _, _. split; [vm_compute; reflexivity|]. split; [vm_compute; reflexivity|]. split; [reflexivity|].
  eapply (status_machine 0%nat legacy_and_msi None (mkDemoVm [] 0 9) _ _ (driver_setup ++ driver_start));
    [vm_compute; reflexivity|vm_compute; reflexivity].
Defined.

Lemma active_config_frozen_witness :
  exists r s', guest_writes [w32 REG_MMIO_QUEUE_READY 0; w32 REG_MMIO_STATUS 1] (demo_state legacy_and_msi 9 (driver_setup ++ driver_start)) = Ret (r, s') /\
    running s' /\ frozen s' = frozen (demo_state legacy_and_msi 9 (driver_setup ++ driver_start)).
Proof.
  eexists _, _. split; [vm_compute; reflexivity|].
  eapply (active_config_frozen [w32 REG_MMIO_QUEUE_READY 0; w32 REG_MMIO_STATUS 1]
           (demo_state legacy_and_msi 9 (driver_setup ++ driver_start))).
  - left. vm_compute. reflexivity.
  - repeat constructor; vm_compute; discriminate.
  - vm_compute. reflexivity.
Defined.

Lemma failed_device_inert_witness :
  exists r s', guest_writes (w32 REG_MMIO_STATUS 0 :: driver_setup) (demo_state legacy_and_msi 9 [w32 REG_MMIO_STATUS 128]) = Ret (r, s') /\
    inert s' = inert (demo_state legacy_and_msi 9 [w32 REG_MMIO_STATUS 128]).
Proof.
  eexists _, _. split; [vm_compute; reflexivity|].
  eapply (failed_device_inert (w32 REG_MMIO_STATUS 0 :: driver_setup) (demo_state legacy_and_msi 9 [w32 REG_MMIO_STATUS 128]));
    [vm_compute; discriminate|vm_compute; reflexivity|vm_compute; reflexivity].
Defined.

Lemma guest_cannot_panic_witness :
  exists d k1, demo_new legacy_and_msi 9 = Ret (Ok d, k1) /\
    exists r s', for_each run_access [Wr REG_MMIO_MSI_CSR [0; 128]; Rd REG_MMIO_STATUS [0; 0; 0; 0]] (d, k1) = Ret (r, s').
Proof.
  eexists _, _. split; [vm_compute; reflexivity|].
  apply (guest_cannot_panic 0%nat legacy_and_msi None (mkDemoVm [] 0 9) _ _ [Wr REG_MMIO_MSI_CSR [0; 128]; Rd REG_MMIO_STATUS [0; 0; 0; 0]]).
  - vm_compute. reflexivity.
  - vm_compute. eauto.
  - vm_compute. eauto.
  - vm_compute. split; discriminate.
  - exact I.
  - repeat constructor; vm_compute; discriminate.
Defined.

Lemma msi_without_vectors_panics_witness :
  guest_writes (msi_on ++ driver_start) (demo_state legacy_only 9 driver_setup) = Panic.
Proof.
  eapply (msi_without_vectors_panics (demo_state legacy_only 9 driver_setup)); vm_compute; (reflexivity || discriminate).
Defined.

Lemma failed_activation_leaks_witness :
  exists s', update_driver_status DEVICE_STATUS_DRIVER_OK (demo_state legacy_and_msi 1 driver_setup) = Ret (Ok tt, s') /\
    has_failed s' /\ registered s'.2 0%nat (0xd0000000 + MMIO_NOTIFY_REG_OFFSET) (Match32 0).
Proof.
  eapply (failed_activation_leaks (demo_state legacy_and_msi 1 driver_setup) (mkQueueConfig (mkDemoQueue 256 256 true) 0%nat NoopNotifier 0)
    (mkQueueConfig (mkDemoQueue 256 256 true) 1%nat NoopNotifier 1) []); vm_compute; (reflexivity || discriminate).
Defined.
