(* ===== verification/IoManager.v ===== *)
(** * Dispatch of trapped accesses to devices

    Model of src/dragonball/dbs_device/src/device_manager.rs ([IoManager]) and
    of its transactional use in src/dragonball/src/device_manager/mod.rs
    ([DeviceManagerContext], [DeviceManagerTx] and the registration of virtio
    devices) and dbs_pci/src/root_device.rs ([activate]).  A bus, a [BTreeMap]
    keyed by [IoRange], is the list of its entries in the order of the keys,
    which compare by base address only. *)
From S2P Require Import Prelude DeviceResources.
#[local] Open Scope Z_scope.

Record IoRange := mkIoRange { io_base : Z; io_size : Z }.

Definition new_pio_range (base size : Z) : IoRange := mkIoRange base size.
Definition new_mmio_range (base size : Z) : IoRange := mkIoRange base size.

Definition IoRange_cmp (r1 r2 : IoRange) : comparison := io_base r1 ?= io_base r2.
Definition IoRange_eqb (r1 r2 : IoRange) : bool := io_base r1 =? io_base r2.

Inductive IoError := DeviceOverlap | NoDevice.

(** What [DeviceIo] asks of a device; [W] is the state behind all devices,
    which the accesses change through shared references. *)
Class DeviceIo (D W : Type) := {
  io_read : D -> Z -> Z -> list Z -> W -> list Z * W;
  io_write : D -> Z -> Z -> list Z -> W -> W;
  io_pio_read : D -> Z -> Z -> list Z -> W -> list Z * W;
  io_pio_write : D -> Z -> Z -> list Z -> W -> W;
  get_trapped_io_resources : D -> DeviceResources;
}.

Section bus.
Context {D : Type}.

Definition bus : Type := list (IoRange * D).

(** [BTreeMap::insert]: the value of an equal key is replaced, the key is not;
    the answer is the value that was there. *)
Fixpoint bt_insert (r : IoRange) (d : D) (b : bus) : option D * bus :=
  match b with
  | [] => (None, [(r, d)])
  | (r', d') :: t =>
      match IoRange_cmp r r' with
      | Lt => (None, (r, d) :: b)
      | Eq => (Some d', (r', d) :: t)
      | Gt => let '(o, t') := bt_insert r d t in (o, (r', d') :: t')
      end
  end.

(** [BTreeMap::remove] *)
Definition bt_remove (r : IoRange) (b : bus) : bus :=
  List.filter (fun e => negb (IoRange_eqb (fst e) r)) b.

(** [range(..=r).nth_back(0)]: the last entry not above [r]. *)
Definition bt_range_last (r : IoRange) (b : bus) : option (IoRange * D) :=
  last (List.filter (fun e => io_base (fst e) <=? io_base r) b).

Definition bt_get (r : IoRange) (b : bus) : option D :=
  snd <$> List.find (fun e => IoRange_eqb (fst e) r) b.

Record IoManager := mkIoManager { pio_bus : bus; mmio_bus : bus }.

Definition IoManager_new : IoManager := mkIoManager [] [].

Definition unregister_one (m : IoManager) (res : Resource) : IoManager :=
  match res with
  | PioAddressRange base size => mkIoManager (bt_remove (new_pio_range base size) (pio_bus m)) (mmio_bus m)
  | MmioAddressRange base size => mkIoManager (pio_bus m) (bt_remove (new_mmio_range base size) (mmio_bus m))
  | _ => m
  end.

Definition unregister_device_io (m : IoManager) (resources : list Resource) : IoManager :=
  fold_left unregister_one resources m.

(** The loop of [register_device_io]; [done] are the resources before the
    current one, which a conflict takes out again. *)
Fixpoint register_loop (m : IoManager) (device : D) (done todo : list Resource)
    : result IoError unit * IoManager :=
  match todo with
  | [] => (Ok tt, m)
  | PioAddressRange base size :: todo' =>
      let '(old, b) := bt_insert (new_pio_range base size) device (pio_bus m) in
      let m := mkIoManager b (mmio_bus m) in
      match old with
      | Some _ => (Err DeviceOverlap, unregister_device_io m done)
      | None => register_loop m device (done ++ [PioAddressRange base size]) todo'
      end
  | MmioAddressRange base size :: todo' =>
      let '(old, b) := bt_insert (new_mmio_range base size) device (mmio_bus m) in
      let m := mkIoManager (pio_bus m) b in
      match old with
      | Some _ => (Err DeviceOverlap, unregister_device_io m done)
      | None => register_loop m device (done ++ [MmioAddressRange base size]) todo'
      end
  | res :: todo' => register_loop m device (done ++ [res]) todo'
  end.

Definition register_device_io (m : IoManager) (device : D) (resources : list Resource)
    : result IoError unit * IoManager := register_loop m device [] resources.

Definition get_mmio_device (m : IoManager) (addr : Z) : option (D * Z) :=
  match bt_range_last (new_mmio_range addr 0) (mmio_bus m) with
  | Some (range, dev) => if addr - io_base range <? io_size range then Some (dev, io_base range) else None
  | None => None
  end.

Definition get_pio_device (m : IoManager) (addr : Z) : option (D * Z) :=
  match bt_range_last (new_pio_range addr 0) (pio_bus m) with
  | Some (range, dev) => if addr - io_base range <? io_size range then Some (dev, io_base range mod 2 ^ 16) else None
  | None => None
  end.

Section access.
Context {W : Type} `{DeviceIo D W}.

Definition mmio_read (m : IoManager) (addr : Z) (data : list Z) (w : W) : result IoError (list Z * W) :=
  match get_mmio_device m addr with
  | Some (device, base) => Ok (io_read device base (addr - base) data w)
  | None => Err NoDevice
  end.
Definition mmio_write (m : IoManager) (addr : Z) (data : list Z) (w : W) : result IoError W :=
  match get_mmio_device m addr with
  | Some (device, base) => Ok (io_write device base (addr - base) data w)
  | None => Err NoDevice
  end.
Definition io_mgr_pio_read (m : IoManager) (addr : Z) (data : list Z) (w : W) : result IoError (list Z * W) :=
  match get_pio_device m addr with
  | Some (device, base) => Ok (io_pio_read device base (addr - base) data w)
  | None => Err NoDevice
  end.
Definition io_mgr_pio_write (m : IoManager) (addr : Z) (data : list Z) (w : W) : result IoError W :=
  match get_pio_device m addr with
  | Some (device, base) => Ok (io_pio_write device base (addr - base) data w)
  | None => Err NoDevice
  end.

(** One of the two loops of [PartialEq for IoManager]. *)
Definition bus_covered (b other : bus) : bool :=
  forallb (fun e =>
    match bt_get (fst e) other with
    | None => false
    | Some dev => bool_decide (dr_entries (get_trapped_io_resources (W:=W) (snd e)) = dr_entries (get_trapped_io_resources (W:=W) dev))
    end) b.

Definition IoManager_eqb (m other : IoManager) : bool :=
  Nat.eqb (length (pio_bus m)) (length (pio_bus other)) &&
  Nat.eqb (length (mmio_bus m)) (length (mmio_bus other)) &&
  bus_covered (pio_bus m) (pio_bus other) && bus_covered (mmio_bus m) (mmio_bus other).
End access.

(** ** Transactions *)

(** [DeviceManagerContext]: the manager that the VCPU threads load, and the
    lock that a transaction holds. *)
Record DeviceManagerContext := mkContext { io_manager : IoManager; io_lock : bool }.

(** [DeviceManagerTx]: the copy of the manager that the transaction works on. *)
Record DeviceManagerTx := mkTx { tx_io_manager : IoManager }.

(** [begin_tx], [None] when it would wait for another transaction. *)
Definition begin_tx (c : DeviceManagerContext) : option (DeviceManagerTx * DeviceManagerContext) :=
  if io_lock c then None else Some (mkTx (io_manager c), mkContext (io_manager c) true).
Definition commit_tx (c : DeviceManagerContext) (tx : DeviceManagerTx) : DeviceManagerContext :=
  mkContext (tx_io_manager tx) false.
Definition cancel_tx (c : DeviceManagerContext) (tx : DeviceManagerTx) : DeviceManagerContext :=
  mkContext (io_manager c) false.

Definition tx_register_device_io (tx : DeviceManagerTx) (device : D) (resources : list Resource)
    : result IoError unit * DeviceManagerTx :=
  let '(r, m) := register_device_io (tx_io_manager tx) device resources in (r, mkTx m).
Definition tx_unregister_device_io (tx : DeviceManagerTx) (resources : list Resource) : DeviceManagerTx :=
  mkTx (unregister_device_io (tx_io_manager tx) resources).

(** The transaction that [register_virtio_pci_device] and
    [PciRootDevice::activate] are. *)
Definition register_in_tx (c : DeviceManagerContext) (device : D) (resources : list Resource)
    : option (result IoError D * DeviceManagerContext) :=
  match begin_tx c with
  | None => None
  | Some (tx, c) =>
      match tx_register_device_io tx device resources with
      | (Err e, tx) => Some (Err e, cancel_tx c tx)
      | (Ok _, tx) => Some (Ok device, commit_tx c tx)
      end
  end.

(** [deregister_mmio_virtio_device] and [deregister_virtio_device] *)
Definition deregister_in_tx (c : DeviceManagerContext) (resources : list Resource)
    : option (DeviceManagerContext) :=
  match begin_tx c with
  | None => None
  | Some (tx, c) => Some (commit_tx c (tx_unregister_device_io tx resources))
  end.
End bus.

Arguments bus : clear implicits.
Arguments IoManager : clear implicits.
Arguments DeviceManagerContext : clear implicits.
Arguments DeviceManagerTx : clear implicits.

Section devices.
Context {D W : Type} `{DeviceIo D W}.

(** [register_mmio_virtio_device]: a registered device is also kept in the list
    of virtio devices of the operation context. *)
Definition register_mmio_virtio_device (c : DeviceManagerContext D) (virtio_devices : list D) (device : D)
    : option (result IoError D * DeviceManagerContext D * list D) :=
  match begin_tx c with
  | None => None
  | Some (tx, c) =>
      match tx_register_device_io tx device (dr_entries (get_trapped_io_resources (W:=W) device)) with
      | (Err e, tx) => Some (Err e, cancel_tx c tx, virtio_devices)
      | (Ok _, tx) => Some (Ok device, commit_tx c tx, virtio_devices ++ [device])
      end
  end.

Definition register_virtio_pci_device (c : DeviceManagerContext D) (device : D)
    : option (result IoError D * DeviceManagerContext D) :=
  register_in_tx c device (dr_entries (get_trapped_io_resources (W:=W) device)).

(** [PciRootDevice::activate] registers the root with the resources it holds. *)
Definition activate (c : DeviceManagerContext D) (root : D) (root_resources : list Resource)
    : option (result IoError unit * DeviceManagerContext D) :=
  match register_in_tx c root root_resources with
  | None => None
  | Some (Ok _, c) => Some (Ok tt, c)
  | Some (Err e, c) => Some (Err e, c)
  end.

Definition deregister_virtio_device (c : DeviceManagerContext D) (device : D) : option (DeviceManagerContext D) :=
  deregister_in_tx c (dr_entries (get_trapped_io_resources (W:=W) device)).
End devices.
