(* ===== verification/IoManagerProps.v ===== *)
(** * Dispatch of trapped accesses: facts and correctness

    The lookup in the ordered map against a linear search, insertion and
    removal of ranges that do not overlap, and the manager that registering
    and unregistering such ranges leads to; then the properties. *)
From Stdlib Require Import Sorted.
From S2P Require Import Prelude DeviceResources IoManager.
#[local] Open Scope Z_scope.

Section bus_facts.
Context {D : Type}.
Implicit Types (b : bus D) (e : IoRange * D) (r : IoRange).

Definition covers (addr : Z) (r : IoRange) : bool :=
  (io_base r <=? addr) && (addr <? io_base r + io_size r).

(** The entries are in order, none is empty and none reaches into the next. *)
Definition before (e e' : IoRange * D) : Prop := io_base e.1 + io_size e.1 <= io_base e'.1.
Definition bus_ok b : Prop := StronglySorted before b /\ Forall (fun e => 0 < io_size e.1) b.

(** Two ranges without a common address. *)
Definition apart r1 r2 : Prop :=
  io_base r1 + io_size r1 <= io_base r2 \/ io_base r2 + io_size r2 <= io_base r1.

(** A range that can be added: not empty and apart from all entries. *)
Definition fresh b r : Prop := 0 < io_size r /\ Forall (fun e => apart r e.1) b.

Lemma covers_spec addr r : covers addr r = true <-> io_base r <= addr < io_base r + io_size r.
Proof. unfold covers. rewrite andb_true_iff, Z.leb_le, Z.ltb_lt. done. Qed.

(** *** Lookup *)

(** The lookup shared by both buses. *)
Definition bus_lookup b addr : option (D * Z) :=
  match bt_range_last (mkIoRange addr 0) b with
  | Some (range, dev) => if addr - io_base range <? io_size range then Some (dev, io_base range) else None
  | None => None
  end.

(** Reference: the first entry that holds the address. *)
Definition linear_lookup b addr : option (D * Z) :=
  (fun e => (e.2, io_base e.1)) <$> List.find (fun e => covers addr e.1) b.

Lemma filter_above b addr :
  Forall (fun e => addr < io_base e.1) b -> List.filter (fun e => io_base e.1 <=? addr) b = [].
Proof. induction 1 as [|e b He Hb IH]; cbn; [done|]. by rewrite (proj2 (Z.leb_gt _ _)). Qed.

Lemma find_above b addr :
  Forall (fun e => addr < io_base e.1) b -> List.find (fun e => covers addr e.1) b = None.
Proof.
  induction 1 as [|e b He Hb IH]; cbn; [done|].
  destruct (covers addr e.1) eqn:E; [|done]. apply covers_spec in E. lia.
Qed.

Lemma bus_lookup_linear b addr : bus_ok b -> bus_lookup b addr = linear_lookup b addr.
Proof.
  intros [Hs Hp]. unfold bus_lookup, linear_lookup, bt_range_last. cbn [io_base].
  induction Hs as [|e b Hb IH He]; [done|]. apply Forall_cons in Hp as [Hpe Hp].
  specialize (IH Hp). cbn. destruct (Z.leb_spec (io_base e.1) addr) as [Hle|Hgt].
  - destruct (covers addr e.1) eqn:E.
    + apply covers_spec in E. rewrite filter_above.
      * cbn. destruct e as [r d]. cbn in *. by rewrite (proj2 (Z.ltb_lt _ _)) by lia.
      * eapply Forall_impl; [exact He|]. unfold before. intros. lia.
    + rewrite <- IH. assert (Hout : (addr - io_base e.1 <? io_size e.1) = false).
      { apply Z.ltb_ge. destruct (Z.le_gt_cases (io_size e.1) (addr - io_base e.1)); [done|].
        assert (covers addr e.1 = true) by (apply covers_spec; lia). congruence. }
      destruct (List.filter _ b) as [|e' l]; [|done]. cbn. destruct e. cbn in *. by rewrite Hout.
  - assert (Habove : Forall (fun e => addr < io_base e.1) b).
    { rewrite Forall_forall in He, Hp |- *. intros e' He'.
      specialize (He e' He'). unfold before in He. lia. }
    rewrite filter_above by done. cbn. rewrite find_above by done.
    destruct (covers addr e.1) eqn:E; [apply covers_spec in E; lia|done].
Qed.

(** *** Insertion and removal *)

Lemma fresh_cons e b r : fresh (e :: b) r <-> apart r e.1 /\ fresh b r.
Proof. unfold fresh. rewrite Forall_cons. tauto. Qed.

Lemma bt_insert_split b r d :
  bus_ok b -> fresh b r ->
  exists b1 b2, b = b1 ++ b2 /\ bt_insert r d b = (None, b1 ++ (r, d) :: b2) /\
    Forall (fun e => before e (r, d)) b1 /\ Forall (before (r, d)) b2.
Proof.
  intros [Hs Hp] [Hr Hf]. induction Hs as [|e b Hb IH He]; [by exists [], []|].
  apply Forall_cons in Hp as [Hpe Hp], Hf as [Hfe Hf]. destruct e as [r' d']. cbn in *.
  unfold IoRange_cmp. destruct (Z.compare_spec (io_base r) (io_base r')) as [E|E|E].
  - unfold apart in Hfe. lia.
  - exists [], ((r', d') :: b). split; [done|split; [done|split; [done|]]].
    assert (Hbe : before (r, d) (r', d')) by (unfold before, apart in *; cbn in *; lia).
    constructor; [done|]. eapply Forall_impl; [exact He|]. unfold before in *. cbn in *. intros; lia.
  - destruct IH as (b1 & b2 & -> & Hi & H1 & H2); [done..|]. rewrite Hi.
    exists ((r', d') :: b1), b2. split; [done|split; [done|split; [|done]]].
    constructor; [|done]. unfold before, apart in *. cbn in *. lia.
Qed.

Lemma sorted_app b1 b2 :
  StronglySorted before (b1 ++ b2) <->
  StronglySorted before b1 /\ StronglySorted before b2 /\ Forall (fun e => Forall (before e) b2) b1.
Proof.
  induction b1 as [|e b1 IH]; cbn.
  - split; [intros; split_and!; [constructor|done|done]|by intros (_ & ? & _)].
  - split.
    + intros [Hs He]%StronglySorted_inv. apply IH in Hs as (? & ? & ?).
      apply Forall_app in He as [? ?]. split_and!; [by constructor|done|by constructor].
    + intros ([Hs He]%StronglySorted_inv & H2 & [? ?]%Forall_cons).
      constructor; [by apply IH|]. by apply Forall_app.
Qed.

Lemma split_ok b1 b2 r d :
  bus_ok (b1 ++ b2) -> 0 < io_size r ->
  Forall (fun e => before e (r, d)) b1 -> Forall (before (r, d)) b2 -> bus_ok (b1 ++ (r, d) :: b2).
Proof.
  intros [Hs Hp] Hr H1 H2. apply sorted_app in Hs as (Hs1 & Hs2 & H12).
  apply Forall_app in Hp as [Hp1 Hp2]. split; [apply sorted_app; split_and!|].
  - done.
  - by constructor.
  - rewrite Forall_forall in H1, H12 |- *. intros e He. constructor; auto.
  - apply Forall_app. split; [done|]. by constructor.
Qed.

Lemma split_lookup b1 b2 r d addr :
  Forall (fun e => before e (r, d)) b1 ->
  linear_lookup (b1 ++ (r, d) :: b2) addr =
  if covers addr r then Some (d, io_base r) else linear_lookup (b1 ++ b2) addr.
Proof.
  unfold linear_lookup. intros H1. induction H1 as [|e b1 He H1 IH]; cbn.
  - by destruct (covers addr r).
  - destruct (covers addr e.1) eqn:E; [|done]. destruct (covers addr r) eqn:Er; [|done].
    apply covers_spec in E, Er. unfold before in He. cbn in He. lia.
Qed.

Lemma fresh_split b1 b2 r d r' :
  fresh (b1 ++ (r, d) :: b2) r' <-> apart r' r /\ fresh (b1 ++ b2) r'.
Proof. unfold fresh. rewrite !Forall_app, Forall_cons. cbn. tauto. Qed.

Lemma bt_remove_fresh b r r' :
  bus_ok b -> fresh b r -> IoRange_eqb r r' = true -> bt_remove r' b = b.
Proof.
  intros [_ Hp] [Hr Hf] Heq%Z.eqb_eq. induction Hp as [|e b He Hp IH]; cbn; [done|].
  apply Forall_cons in Hf as [Hfe Hf]. unfold IoRange_eqb.
  assert ((io_base e.1 =? io_base r') = false) as ->
    by (apply Z.eqb_neq; unfold apart in Hfe; lia).
  cbn. f_equal. by apply IH.
Qed.

Lemma bt_remove_split b1 b2 r d :
  bus_ok (b1 ++ b2) -> fresh (b1 ++ b2) r -> bt_remove r (b1 ++ (r, d) :: b2) = b1 ++ b2.
Proof.
  intros Hb Hf. pose proof (bt_remove_fresh (b1 ++ b2) r r Hb Hf (Z.eqb_refl _)) as E.
  unfold bt_remove, IoRange_eqb in *. rewrite List.filter_app in *. cbn. by rewrite Z.eqb_refl.
Qed.

Lemma bt_remove_comm b r r' : bt_remove r (bt_remove r' b) = bt_remove r' (bt_remove r b).
Proof.
  unfold bt_remove. induction b as [|e b IH]; cbn; [done|].
  destruct (negb (IoRange_eqb e.1 r')) eqn:E1, (negb (IoRange_eqb e.1 r)) eqn:E2; cbn;
    rewrite ?E1, ?E2, IH; done.
Qed.

(** *** Several ranges *)

(** Ranges that can be added one after the other. *)
Fixpoint all_fresh b (rs : list IoRange) : Prop :=
  match rs with
  | [] => True
  | r :: rs' => fresh b r /\ Forall (fun r' => apart r' r) rs' /\ all_fresh b rs'
  end.

Definition insert_all (d : D) (rs : list IoRange) b : bus D :=
  fold_left (fun b r => (bt_insert r d b).2) rs b.
Definition remove_all (rs : list IoRange) b : bus D := fold_left (fun b r => bt_remove r b) rs b.

Lemma insert_fresh b r d :
  bus_ok b -> fresh b r ->
  let b' := (bt_insert r d b).2 in
  (bt_insert r d b).1 = None /\ bus_ok b' /\ bt_remove r b' = b /\
  (forall rs, all_fresh b rs -> Forall (fun r' => apart r' r) rs -> all_fresh b' rs) /\
  (forall addr, linear_lookup b' addr = if covers addr r then Some (d, io_base r) else linear_lookup b addr).
Proof.
  intros Hb Hf. destruct (bt_insert_split b r d Hb Hf) as (b1 & b2 & -> & -> & H1 & H2). cbn.
  destruct Hf as [Hr Hf]. split; [done|]. split; [by apply split_ok|].
  split; [by apply bt_remove_split|]. split; [|intros; by apply split_lookup].
  intros rs. induction rs as [|r' rs IH]; cbn; [done|]. intros (Hfr & Ha & Hall) [? ?]%Forall_cons.
  split; [by apply fresh_split|]. auto.
Qed.

Lemma remove_all_comm rs b r : remove_all rs (bt_remove r b) = bt_remove r (remove_all rs b).
Proof. revert b. induction rs as [|r' rs IH]; intros b; cbn; [done|]. by rewrite bt_remove_comm, IH. Qed.

Lemma insert_all_ok d rs b :
  bus_ok b -> all_fresh b rs ->
  bus_ok (insert_all d rs b) /\ remove_all rs (insert_all d rs b) = b /\
  forall addr, linear_lookup (insert_all d rs b) addr =
    match List.find (covers addr) rs with Some r => Some (d, io_base r) | None => linear_lookup b addr end.
Proof.
  revert b. induction rs as [|r rs IH]; intros b Hb Hf; [done|]. destruct Hf as (Hf & Ha & Hall).
  destruct (insert_fresh b r d Hb Hf) as (_ & Hb' & Hrem & Hfr & Hl).
  destruct (IH _ Hb' (Hfr _ Hall Ha)) as (Hok & Hr & Hlk). cbn [insert_all remove_all fold_left] in *.
  split; [done|]. split.
  - fold (remove_all rs (bt_remove r (insert_all d rs (bt_insert r d b).2))).
    rewrite remove_all_comm. unfold insert_all, remove_all in *. by rewrite Hr.
  - intros addr. unfold insert_all in Hlk. rewrite Hlk, Hl. cbn.
    destruct (List.find _ rs) as [r'|] eqn:E; [|by destruct (covers addr r)].
    destruct (covers addr r) eqn:Er; [|done]. apply find_some in E as [Hin E].
    rewrite Forall_forall in Ha. specialize (Ha r' (proj2 (list_elem_of_In _ _) Hin)).
    apply covers_spec in E, Er. unfold apart in Ha. lia.
Qed.

(** An occupied base: the entry keeps its range and changes its device. *)
Lemma bt_insert_occupied b r d r0 d0 :
  bus_ok b -> (r0, d0) ∈ b -> io_base r = io_base r0 ->
  exists b1 b2, b = b1 ++ (r0, d0) :: b2 /\ bt_insert r d b = (Some d0, b1 ++ (r0, d) :: b2).
Proof.
  intros [Hs Hp] Hin Hr. induction Hs as [|e b Hs IH He]; [by apply not_elem_of_nil in Hin|].
  apply Forall_cons in Hp as [Hpe Hp]. destruct e as [r' d']. cbn in *. unfold IoRange_cmp.
  apply elem_of_cons in Hin as [[= <- <-]|Hin].
  - rewrite Hr, Z.compare_refl. by exists [], b.
  - rewrite Forall_forall in He. specialize (He _ Hin). unfold before in He. cbn in He.
    rewrite (proj2 (Z.compare_gt_iff _ _)) by lia.
    destruct (IH Hp Hin) as (b1 & b2 & -> & ->). by exists ((r', d') :: b1), b2.
Qed.

Lemma split_same_ok b1 b2 r d d' : bus_ok (b1 ++ (r, d) :: b2) -> bus_ok (b1 ++ (r, d') :: b2).
Proof.
  intros [Hs Hp]. apply sorted_app in Hs as (H1 & [H2 H3]%StronglySorted_inv & H12).
  apply Forall_app in Hp as [Hp1 [? ?]%Forall_cons]. split.
  - apply sorted_app. split_and!; [done|by constructor|].
    eapply Forall_impl; [exact H12|]. intros e [? ?]%Forall_cons. by constructor.
  - apply Forall_app. split; [done|by constructor].
Qed.

Lemma split_same_lookup b1 b2 r d addr :
  bus_ok (b1 ++ (r, d) :: b2) -> covers addr r = true ->
  linear_lookup (b1 ++ (r, d) :: b2) addr = Some (d, io_base r).
Proof.
  intros [Hs _] Hc. rewrite split_lookup, Hc; [done|].
  apply sorted_app in Hs as (_ & _ & H12). eapply Forall_impl; [exact H12|]. by intros e [? _]%Forall_cons.
Qed.

Lemma bt_remove_ok r b : bus_ok b -> bus_ok (bt_remove r b).
Proof.
  intros [Hs Hp]. unfold bt_remove. induction Hs as [|e b Hs IH He]; [split; constructor|].
  apply Forall_cons in Hp as [Hpe Hp]. destruct (IH Hp) as [Hs' Hp']. cbn.
  destruct (negb _); [|done]. split; constructor; try done.
  rewrite Forall_forall in He |- *. intros e' He'%list_elem_of_In%filter_In.
  apply He, list_elem_of_In, He'.
Qed.
End bus_facts.

(** ** The manager *)

Section manager.
Context {D : Type}.
Implicit Types (m : IoManager D) (res : list Resource).

Definition pio_ranges res : list IoRange :=
  omap (fun r => match r with PioAddressRange b s => Some (mkIoRange b s) | _ => None end) res.
Definition mmio_ranges res : list IoRange :=
  omap (fun r => match r with MmioAddressRange b s => Some (mkIoRange b s) | _ => None end) res.

Definition port (r : IoRange) : Prop := 0 <= io_base r < 2 ^ 16.

Definition mgr_ok m : Prop :=
  bus_ok (pio_bus m) /\ bus_ok (mmio_bus m) /\ Forall (fun e => port e.1) (pio_bus m).

(** Resources whose ranges are not empty, apart from each other and from all
    that is registered; ports are 16-bit numbers. *)
Definition res_fresh m res : Prop :=
  all_fresh (pio_bus m) (pio_ranges res) /\ all_fresh (mmio_bus m) (mmio_ranges res) /\
  Forall port (pio_ranges res).

Lemma unregister_spec m res :
  unregister_device_io m res =
  mkIoManager (remove_all (pio_ranges res) (pio_bus m)) (remove_all (mmio_ranges res) (mmio_bus m)).
Proof.
  unfold unregister_device_io. revert m. induction res as [|r res IH]; intros m; [by destruct m|].
  cbn. rewrite IH. by destruct r.
Qed.

Lemma register_fresh m dev done res :
  mgr_ok m -> res_fresh m res ->
  register_loop m dev done res =
  (Ok tt, mkIoManager (insert_all dev (pio_ranges res) (pio_bus m)) (insert_all dev (mmio_ranges res) (mmio_bus m))).
Proof.
  revert m done. induction res as [|r res IH]; intros m dn (Hp & Hm & Hport) (Hfp & Hfm & Hrp); [by destruct m|].
  destruct r as [b s|b s|b s| | | |]; cbn in Hfp, Hfm, Hrp |- *; try by apply IH.
  - destruct Hfp as (Hf & Ha & Hall).
    destruct (insert_fresh _ _ dev Hp Hf) as (Hn & Hok & _ & Hkeep & _).
    destruct (bt_insert_split _ _ dev Hp Hf) as (b1 & b2 & E & Hi & _).
    unfold new_pio_range. rewrite Hi in *. cbn in *. rewrite IH; [done| |].
    + split_and!; [done..|]. rewrite E in Hport. cbn.
      apply Forall_app in Hport as [? ?]. apply Forall_app. split; [done|].
      apply Forall_cons in Hrp as [? _]. by constructor.
    + split_and!; [by apply Hkeep|done|]. by apply Forall_cons in Hrp as [_ ?].
  - destruct Hfm as (Hf & Ha & Hall).
    destruct (insert_fresh _ _ dev Hm Hf) as (Hn & Hok & _ & Hkeep & _).
    destruct (bt_insert_split _ _ dev Hm Hf) as (b1 & b2 & E & Hi & _).
    unfold new_mmio_range. rewrite Hi in *. cbn in *. rewrite IH; [done|by split_and!|].
    split_and!; [done|by apply Hkeep|done].
Qed.

Lemma remove_all_ok rs (b : bus D) : bus_ok b -> bus_ok (remove_all rs b).
Proof. revert b. induction rs as [|r rs IH]; intros b Hb; [done|]. by apply IH, bt_remove_ok. Qed.

Lemma remove_all_forall P rs (b : bus D) : Forall P b -> Forall P (remove_all rs b).
Proof.
  revert b. induction rs as [|r rs IH]; intros b Hb; [done|]. apply IH. unfold bt_remove.
  rewrite Forall_forall in Hb |- *. intros e He%list_elem_of_In%filter_In. apply Hb, list_elem_of_In, He.
Qed.

Lemma insert_all_forall dev rs P (b : bus D) :
  bus_ok b -> all_fresh b rs -> Forall (fun e => P e.1) b -> Forall P rs ->
  Forall (fun e => P e.1) (insert_all dev rs b).
Proof.
  revert b. induction rs as [|r rs IH]; intros b Hb Hf HP Hr; [done|]. destruct Hf as (Hf & Ha & Hall).
  destruct (insert_fresh b r dev Hb Hf) as (_ & Hb' & _ & Hk & _). apply Forall_cons in Hr as [Hr Hrs].
  apply IH; [done|by apply Hk| |done].
  destruct (bt_insert_split b r dev Hb Hf) as (b1 & b2 & -> & -> & _). cbn.
  apply Forall_app in HP as [? ?]. apply Forall_app. split; [done|by constructor].
Qed.

Lemma register_ok m dev res :
  mgr_ok m -> res_fresh m res ->
  exists m', register_device_io m dev res = (Ok tt, m') /\ mgr_ok m' /\ unregister_device_io m' res = m /\
    (forall addr, linear_lookup (mmio_bus m') addr =
       match List.find (covers addr) (mmio_ranges res) with
       | Some r => Some (dev, io_base r) | None => linear_lookup (mmio_bus m) addr end) /\
    (forall addr, linear_lookup (pio_bus m') addr =
       match List.find (covers addr) (pio_ranges res) with
       | Some r => Some (dev, io_base r) | None => linear_lookup (pio_bus m) addr end).
Proof.
  intros Hok Hf. unfold register_device_io. rewrite register_fresh by done. eexists. split; [done|].
  destruct Hok as (Hp & Hm & Hport), Hf as (Hfp & Hfm & Hrp).
  destruct (insert_all_ok dev _ _ Hp Hfp) as (Hp' & Hpr & Hpl).
  destruct (insert_all_ok dev _ _ Hm Hfm) as (Hm' & Hmr & Hml).
  split; [|split; [|done]].
  - split_and!; [done..|]. by apply insert_all_forall.
  - rewrite unregister_spec. cbn. rewrite Hpr, Hmr. by destruct m.
Qed.

(** The managers that registering fresh resources and unregistering lead to. *)
Inductive io_reach : IoManager D -> Prop :=
| io_reach_new : io_reach IoManager_new
| io_reach_register m dev res m' :
    io_reach m -> res_fresh m res -> register_device_io m dev res = (Ok tt, m') -> io_reach m'
| io_reach_unregister m res : io_reach m -> io_reach (unregister_device_io m res).

Lemma io_reach_ok m : io_reach m -> mgr_ok m.
Proof.
  induction 1 as [|m dev res m' _ IH Hf Hr|m res _ (Hp & Hm & Hport)].
  - repeat split; constructor.
  - destruct (register_ok m dev res IH Hf) as (m1 & E & Hok & _). rewrite E in Hr. by injection Hr as <-.
  - rewrite unregister_spec. split_and!; [by apply remove_all_ok..|by apply remove_all_forall].
Qed.

Lemma get_mmio_linear m addr : mgr_ok m -> get_mmio_device m addr = linear_lookup (mmio_bus m) addr.
Proof. intros (_ & Hm & _). by apply bus_lookup_linear. Qed.

Lemma get_pio_linear m addr : mgr_ok m -> get_pio_device m addr = linear_lookup (pio_bus m) addr.
Proof.
  intros (Hp & _ & Hport). rewrite <- bus_lookup_linear by done.
  unfold get_pio_device, bus_lookup, bt_range_last, new_pio_range.
  destruct (last _) as [[r d]|] eqn:E; [|done]. apply last_Some_elem_of in E.
  apply list_elem_of_In, filter_In in E as [E _]. rewrite Forall_forall in Hport.
  specialize (Hport _ (proj2 (list_elem_of_In _ _) E)). unfold port in Hport. cbn in Hport.
  by rewrite Z.mod_small.
Qed.
End manager.

(** * Dispatch of trapped accesses: correctness

    On a manager whose ranges do not overlap the lookup in the ordered map is
    the search for the range that holds the address ([lookup_exact]);
    registering fresh ranges makes exactly their addresses lead to the device,
    and unregistering undoes it ([register_dispatch]).  A transaction that fails
    leaves the live manager as it was ([register_tx_atomic]), which the raw
    operation does not do ([register_conflict_overwrites]). *)

Section claims.
Context {D W : Type} `{DeviceIo D W}.
Implicit Types (m : IoManager D) (c : DeviceManagerContext D) (dev : D).

(** C33: on every manager that registering fresh ranges and unregistering leads to,
    an access is handled by the device whose range holds the address, at the offset
    from the base of that range, and by none when no range holds it: the lookup of
    the greatest base in the ordered map agrees with the search of all ranges. *)
Theorem lookup_exact m addr data w :
  io_reach m ->
  mmio_read m addr data w =
    match List.find (fun e => covers addr e.1) (mmio_bus m) with
    | Some (r, dev) => Ok (io_read dev (io_base r) (addr - io_base r) data w)
    | None => Err NoDevice
    end /\
  mmio_write m addr data w =
    match List.find (fun e => covers addr e.1) (mmio_bus m) with
    | Some (r, dev) => Ok (io_write dev (io_base r) (addr - io_base r) data w)
    | None => Err NoDevice
    end /\
  io_mgr_pio_read m addr data w =
    match List.find (fun e => covers addr e.1) (pio_bus m) with
    | Some (r, dev) => Ok (io_pio_read dev (io_base r) (addr - io_base r) data w)
    | None => Err NoDevice
    end /\
  io_mgr_pio_write m addr data w =
    match List.find (fun e => covers addr e.1) (pio_bus m) with
    | Some (r, dev) => Ok (io_pio_write dev (io_base r) (addr - io_base r) data w)
    | None => Err NoDevice
    end.
Proof.
  intros Hm%io_reach_ok. unfold mmio_read, mmio_write, io_mgr_pio_read, io_mgr_pio_write.
  rewrite get_mmio_linear, get_pio_linear by done. unfold linear_lookup.
  by destruct (List.find _ (mmio_bus m)) as [[]|], (List.find _ (pio_bus m)) as [[]|].
Qed.

(** Registering a device with fresh resources succeeds; afterwards exactly the
    addresses in its ranges lead to it, all others lead where they led before, and
    unregistering the same resources restores the manager. *)
Theorem register_dispatch m dev res :
  io_reach m -> res_fresh m res ->
  exists m', register_device_io m dev res = (Ok tt, m') /\
    (forall addr, get_mmio_device m' addr =
       match List.find (covers addr) (mmio_ranges res) with
       | Some r => Some (dev, io_base r) | None => get_mmio_device m addr end) /\
    (forall addr, get_pio_device m' addr =
       match List.find (covers addr) (pio_ranges res) with
       | Some r => Some (dev, io_base r) | None => get_pio_device m addr end) /\
    unregister_device_io m' res = m.
Proof.
  intros Hm%io_reach_ok Hf. destruct (register_ok m dev res Hm Hf) as (m' & E & Hm' & Hu & Hml & Hpl).
  exists m'. split; [done|]. split; [|split; [|done]]; intros addr.
  - by rewrite !get_mmio_linear, Hml.
  - by rewrite !get_pio_linear, Hpl.
Qed.

(** Registering a virtio device in a transaction: it does not wait when no
    other transaction runs and leaves none behind; when it fails, the live manager
    and the list of devices are as before; when the resources are fresh it succeeds,
    the live manager is the registered one, and deregistering the device brings the
    former one back. *)
Theorem register_tx_atomic c vds dev :
  io_lock c = false -> io_reach (io_manager c) ->
  let res := dr_entries (get_trapped_io_resources (W:=W) dev) in
  exists r c' vds', register_mmio_virtio_device (W:=W) c vds dev = Some (r, c', vds') /\
    register_virtio_pci_device (W:=W) c dev = Some (r, c') /\ io_lock c' = false /\
    (forall e, r = Err e -> io_manager c' = io_manager c /\ vds' = vds) /\
    (res_fresh (io_manager c) res ->
       r = Ok dev /\ vds' = vds ++ [dev] /\ io_reach (io_manager c') /\
       register_device_io (io_manager c) dev res = (Ok tt, io_manager c') /\
       deregister_virtio_device (W:=W) c' dev = Some c).
Proof.
  intros Hl Hm res. unfold register_mmio_virtio_device, register_virtio_pci_device, register_in_tx, begin_tx.
  rewrite Hl. fold res. unfold tx_register_device_io. cbn [tx_io_manager].
  destruct (register_device_io (io_manager c) dev res) as [r m'] eqn:E.
  destruct r as [[]|e]; do 3 eexists; (split; [done|]); (split; [done|]); (split; [done|]); (split; [done|]).
  - intros Hf. split; [done|]. split; [done|]. split; [by eapply io_reach_register|]. split; [done|].
    destruct (register_ok _ dev res (io_reach_ok _ Hm) Hf) as (m1 & E1 & _ & Hu & _).
    rewrite E in E1. injection E1 as <-. unfold deregister_virtio_device, deregister_in_tx, begin_tx, commit_tx.
    cbn. fold res. rewrite Hu. destruct c. cbn in *. by rewrite Hl.
  - intros Hf. destruct (register_ok _ dev res (io_reach_ok _ Hm) Hf) as (m1 & E1 & _). congruence.
Qed.

(** Registering at a base address that is taken reports DeviceOverlap and yet
    leaves the address to the new device: the entry of the device that held it has
    been overwritten and the roll back does not restore it. *)
Theorem register_conflict_overwrites m dev d0 base size :
  io_reach m -> get_mmio_device m base = Some (d0, base) ->
  exists m', register_device_io m dev [MmioAddressRange base size] = (Err DeviceOverlap, m') /\
    get_mmio_device m' base = Some (dev, base).
Proof.
  intros Hm%io_reach_ok Hg. pose proof Hm as (Hp & Hb & Hport).
  rewrite get_mmio_linear in Hg by done. unfold linear_lookup in Hg.
  destruct (List.find _ _) as [[r0 d]|] eqn:Ef; [|done]. cbn in Hg. injection Hg as -> Hr.
  apply find_some in Ef as [Hin Hc]. cbn in Hc.
  destruct (bt_insert_occupied (mmio_bus m) (mkIoRange base size) dev r0 d0)
    as (b1 & b2 & E & Hi); [done|by apply list_elem_of_In|done|].
  unfold register_device_io, register_loop, new_mmio_range. rewrite Hi. eexists. split; [done|].
  rewrite E in Hb. apply (split_same_ok _ _ _ _ dev) in Hb.
  rewrite get_mmio_linear by (by split_and!). cbn [unregister_device_io fold_left mmio_bus].
  rewrite split_same_lookup by done. by rewrite Hr.
Qed.
End claims.

(** ** Witnesses *)

(** A register file per device: a read gives the byte at the offset. *)
Definition demo_device_io : DeviceIo Z (list Z) := {|
  io_read d base off data w := (map (fun _ => nth (Z.to_nat off) w d) data, w);
  io_write d base off data w := w ++ data;
  io_pio_read d base off data w := (map (fun _ => d) data, w);
  io_pio_write d base off data w := w;
  get_trapped_io_resources d := mkDeviceResources [MmioAddressRange (0x1000 * d) 0x1000; PioAddressRange (8 * d) 8; LegacyIrq d]
|}.

Definition demo_mgr : IoManager Z :=
  (register_device_io IoManager_new 1 [MmioAddressRange 0x1000 0x1000; PioAddressRange 8 8; LegacyIrq 1]).2.

Lemma demo_mgr_reach : io_reach demo_mgr.
Proof.
  eapply (io_reach_register IoManager_new 1 [MmioAddressRange 0x1000 0x1000; PioAddressRange 8 8; LegacyIrq 1]);
    [constructor| |vm_compute; reflexivity].
  repeat split; repeat constructor; vm_compute; congruence.
Qed.

Lemma demo_fresh :
  res_fresh demo_mgr [MmioAddressRange 0x2000 0x1000; PioAddressRange 16 8; LegacyIrq 2].
Proof.
  repeat split; repeat constructor; vm_compute; try congruence; right; congruence.
Qed.

Lemma lookup_exact_witness :
  mmio_read (H := demo_device_io) demo_mgr 0x1001 [0; 0] [5; 6; 7] = Ok ([6; 6], [5; 6; 7]).
Proof. rewrite (proj1 (lookup_exact (H := demo_device_io) demo_mgr 0x1001 [0; 0] [5; 6; 7] demo_mgr_reach)). reflexivity. Defined.

Lemma register_dispatch_witness :
  exists m', register_device_io demo_mgr 2 [MmioAddressRange 0x2000 0x1000; PioAddressRange 16 8; LegacyIrq 2] = (Ok tt, m') /\
    get_mmio_device m' 0x2fff = Some (2, 0x2000) /\ get_pio_device m' 9 = Some (1, 8) /\
    unregister_device_io m' [MmioAddressRange 0x2000 0x1000; PioAddressRange 16 8; LegacyIrq 2] = demo_mgr.
Proof.
  destruct (register_dispatch demo_mgr 2 [MmioAddressRange 0x2000 0x1000; PioAddressRange 16 8; LegacyIrq 2]
              demo_mgr_reach demo_fresh) as (m' & E & Hm & Hp & Hu).
  exists m'. split; [exact E|]. rewrite Hm, Hp. split; [reflexivity|]. split; [reflexivity|exact Hu].
Defined.

Lemma register_tx_atomic_witness :
  exists r c' vds', register_mmio_virtio_device (H := demo_device_io) (mkContext demo_mgr false) [1] 2 = Some (r, c', vds') /\
    r = Ok 2 /\ deregister_virtio_device (H := demo_device_io) c' 2 = Some (mkContext demo_mgr false).
Proof.
  destruct (register_tx_atomic (H := demo_device_io) (mkContext demo_mgr false) [1] 2 eq_refl demo_mgr_reach)
    as (r & c' & vds' & E & _ & _ & _ & Hf).
  destruct (Hf demo_fresh) as (Hr & _ & _ & _ & Hd). exists r, c', vds'. auto.
Defined.

Lemma register_conflict_overwrites_witness :
  exists m', register_device_io demo_mgr 2 [MmioAddressRange 0x1000 0x10] = (Err DeviceOverlap, m') /\
    get_mmio_device m' 0x1000 = Some (2, 0x1000).
Proof. apply (register_conflict_overwrites demo_mgr 2 1 0x1000 0x10 demo_mgr_reach); reflexivity. Defined.
