(* ===== verification/SafePath.v ===== *)
(** * Paths confined to a root directory

    Model of src/libs/safe-path/src: [scoped_resolve] and [scoped_join]
    (scoped_path_resolver.rs), [PinnedPathBuf] (pinned_path_buf.rs) and
    [ScopedDirBuilder] (scoped_dir_builder.rs).  A [Path] is the list of its
    components, which is how [std::path::Path] compares paths; [components]
    reads it from a string.  The file system is a finite map from locations,
    the names from the root down, to what is there. *)
From S2P Require Import Prelude.

Abbreviation name := string.

Inductive Component := Prefix | RootDir | CurDir | ParentDir | Normal (n : name).

#[global] Instance Component_eq_dec : EqDecision Component.
Proof. solve_decision. Defined.

Definition Path : Type := list Component.

(** ** [std::path] *)

(** The pieces between slashes. *)
Fixpoint split_slash (acc s : string) : list string :=
  match s with
  | EmptyString => [acc]
  | String c s' =>
      if Nat.eqb (Ascii.nat_of_ascii c) 47 then acc :: split_slash EmptyString s'
      else split_slash (String.append acc (String c EmptyString)) s'
  end.

(** A piece as a component: empty pieces and dots disappear. *)
Definition piece (s : string) : list Component :=
  if bool_decide (s = "") || bool_decide (s = ".") then []
  else if bool_decide (s = "..") then [ParentDir] else [Normal s].

(** [Path::components]: a leading slash is the root, a leading dot is kept. *)
Definition components (s : string) : Path :=
  match split_slash EmptyString s with
  | first :: rest =>
      (if bool_decide (first = "") then (match rest with [] => [] | _ => [RootDir] end)
       else if bool_decide (first = ".") then [CurDir] else piece first) ++ concat (map piece rest)
  | [] => []
  end.

Definition is_absolute (p : Path) : bool := match p with RootDir :: _ => true | _ => false end.

(** A leading dot is only kept at the start of a path. *)
Definition strip_cur (p : Path) : Path := match p with CurDir :: p' => p' | _ => p end.

(** [Path::join] *)
Definition join (p q : Path) : Path :=
  if is_absolute q then q else match p with [] => q | _ => p ++ strip_cur q end.

(** The path of a location below some directory, and its absolute path. *)
Definition rel (l : list name) : Path := Normal <$> l.
Definition abs (l : list name) : Path := RootDir :: rel l.

(** [PathBuf::pop] on a path of names. *)
Definition pop (l : list name) : list name := removelast l.

(** ** The file system *)

Inductive node := Dir (mode : Z) | File | Link (target : Path).

Abbreviation FS := (gmap (list name) node).

Definition link (fs : FS) (l : list name) : option Path :=
  match fs !! l with Some (Link t) => Some t | _ => None end.

Definition dir_at (fs : FS) (l : list name) : bool :=
  match fs !! l with Some (Dir _) => true | _ => false end.

(** *** The walk of the kernel

    The rules of path_resolution(7).  [look] tells what is at a location, [done]
    is where the walk is, and [follow] walks on from a symbolic link, while links
    may still be followed.  Each component needs a directory to be looked up in;
    a path without components is the directory where the walk is. *)
Inductive walk_error := ENOENT | ENOTDIR | ELOOP.

Fixpoint walk_comps (look : list name -> option node)
    (follow : option (list name -> Path -> result walk_error (list name))) (done : list name) (todo : Path)
    : result walk_error (list name) :=
  match todo with
  | [] => Ok done
  | Prefix :: _ => Err ENOENT
  | RootDir :: t => walk_comps look follow [] t
  | c :: t =>
      match look done with
      | Some (Dir _) =>
          match c with
          | ParentDir => walk_comps look follow (pop done) t
          | Normal x =>
              match look (done ++ [x]) with
              | None => Err ENOENT
              | Some (Link target) => match follow with None => Err ELOOP | Some go => go done (target ++ t) end
              | Some _ => walk_comps look follow (done ++ [x]) t
              end
          | _ => walk_comps look follow done t
          end
      | _ => Err ENOTDIR
      end
  end.

(** The walk that follows at most [n] links. *)
Fixpoint walk (look : list name -> option node) (n : nat) : list name -> Path -> result walk_error (list name) :=
  walk_comps look (match n with O => None | S n' => Some (walk look n') end).

(** The limit of Linux on the links followed in one walk. *)
Definition MAXSYMLINKS : nat := 40.

Definition namei (fs : FS) (done : list name) (p : Path) : result walk_error (list name) :=
  walk (fun l => fs !! l) MAXSYMLINKS done p.

(** [read_link]: the links in the directory part are followed, the last one is
    read. *)
Definition read_link (fs : FS) (l : list name) : option Path :=
  match last l with
  | None => None
  | Some n =>
      match namei fs [] (abs (removelast l)) with
      | Ok d => if dir_at fs d then link fs (d ++ [n]) else None
      | Err _ => None
      end
  end.

(** ** [scoped_resolve] and [scoped_join] *)

Inductive PathError :=
| Canonicalize | InvalidPrefix | TooManyLinks | NotFound | AlreadyExists | Changed | NotDir
| NotAbsolute | NotUnderRoot | InvalidComponent | Os.

Definition MAX_SYMLINK_DEPTH : nat := 255.

(** The loop labelled ['next_comp] over the components of the path, with the
    restart that a symbolic link leads to while links are still allowed. *)
Fixpoint next_comp (fs : FS) (root : list name)
    (restart : option (Path -> result PathError (list name))) (subpath : list name) (iter : Path)
    : result PathError (list name) :=
  match iter with
  | [] => Ok subpath
  | Prefix :: _ => Err InvalidPrefix
  | RootDir :: iter | CurDir :: iter => next_comp fs root restart subpath iter
  | ParentDir :: iter => next_comp fs root restart (pop subpath) iter
  | Normal n :: iter =>
      match read_link fs (root ++ subpath ++ [n]) with
      | Some v =>
          match restart with
          | None => Err TooManyLinks
          | Some again =>
              again (if is_absolute v then join v iter else join (join (rel subpath) v) iter)
          end
      | None => next_comp fs root restart (subpath ++ [n]) iter
      end
  end.

(** The loop labelled ['restart], with [budget] links still allowed. *)
Fixpoint restart (fs : FS) (root : list name) (budget : nat) (curr_path : Path)
    : result PathError (list name) :=
  next_comp fs root (match budget with O => None | S budget' => Some (restart fs root budget') end)
    [] curr_path.

Section canonical.
(** [Path::canonicalize], an error when the path does not exist. *)
Context (canonicalize : FS -> Path -> option (list name)).

Definition do_scoped_resolve (fs : FS) (root unsafe_path : Path)
    : result PathError (list name * list name) :=
  match canonicalize fs root with
  | None => Err Canonicalize
  | Some root =>
      match restart fs root MAX_SYMLINK_DEPTH unsafe_path with
      | Ok subpath => Ok (root, subpath)
      | Err e => Err e
      end
  end.

Definition scoped_resolve (fs : FS) (root unsafe_path : Path) : result PathError (list name) :=
  match do_scoped_resolve fs root unsafe_path with Ok (_, path) => Ok path | Err e => Err e end.

Definition scoped_join (fs : FS) (root unsafe_path : Path) : result PathError (list name) :=
  match do_scoped_resolve fs root unsafe_path with Ok (root, path) => Ok (root ++ path) | Err e => Err e end.

(** ** [PinnedPathBuf] *)

(** The object that the descriptor pins, and the cached path of it. *)
Record PinnedPathBuf := mkPinned { handle : list name; target : list name }.

(** The link in /proc/self/fd tells where the opened object is. *)
Definition new_from_file (handle orig_path : list name) : result PathError PinnedPathBuf :=
  if bool_decide (handle = orig_path) then Ok (mkPinned handle handle) else Err Changed.

(** [open] with [O_PATH]: the object that the path leads to.  It fails for want
    of one, and for reasons of the system that are not in the file system, such
    as the limit on open files ([open_ok] is false). *)
Definition open_at (open_ok : bool) (fs : FS) (dir : list name) (p : Path) : option (list name) :=
  match namei fs dir p with
  | Ok l => match fs !! l with Some _ => if open_ok then Some l else None | None => None end
  | Err _ => None
  end.

Definition from_path (open_ok : bool) (fs : FS) (orig_path : list name) : result PathError PinnedPathBuf :=
  match open_at open_ok fs [] (abs orig_path) with
  | None => Err Os
  | Some h => new_from_file h orig_path
  end.

Definition PinnedPathBuf_new (open_ok : bool) (fs : FS) (root path : Path) : result PathError PinnedPathBuf :=
  match scoped_join fs root path with
  | Err e => Err e
  | Ok path => from_path open_ok fs path
  end.

(** [dup_ok]: whether the descriptor could be duplicated. *)
Definition try_clone (p : PinnedPathBuf) (dup_ok : bool) : result PathError PinnedPathBuf :=
  if dup_ok then Ok p else Err Os.

Definition is_dir (fs : FS) (p : PinnedPathBuf) : bool := dir_at fs (handle p).

Definition has_nul (n : name) : bool :=
  existsb (fun a => Nat.eqb (Ascii.nat_of_ascii a) 0) (String.list_ascii_of_string n).

(** The component must be one name, as it stands, that fits a C string. *)
Definition prepare_path_component (path_comp : string) : result PathError name :=
  match components path_comp with
  | [Normal n] =>
      if bool_decide (n <> path_comp) then Err InvalidComponent
      else if has_nul path_comp then Err InvalidComponent else Ok path_comp
  | _ => Err InvalidComponent
  end.

Definition open_child (open_ok : bool) (fs : FS) (p : PinnedPathBuf) (path_comp : string) : result PathError PinnedPathBuf :=
  match prepare_path_component path_comp with
  | Err e => Err e
  | Ok n =>
      match open_at open_ok fs (handle p) [Normal n] with
      | None => Err Os
      | Some h => new_from_file h (target p ++ [path_comp])
      end
  end.

(** [mkdirat]: [umask] is the mask of the process, [allowed] what permissions
    and the device say to the new directory. *)
Definition mkdirat (fs : FS) (dir : list name) (n : name) (mode umask : Z) (allowed : bool) : option FS :=
  if allowed && dir_at fs dir && bool_decide (fs !! (dir ++ [n]) = None)
  then Some (<[dir ++ [n] := Dir (Z.ldiff mode umask)]> fs) else None.

(** [open_ok] is for the descriptor of the new directory. *)
Definition mkdir (open_ok : bool) (fs : FS) (p : PinnedPathBuf) (path_comp : string) (mode umask : Z) (allowed : bool)
    : result PathError PinnedPathBuf * FS :=
  match prepare_path_component path_comp with
  | Err e => (Err e, fs)
  | Ok n =>
      match mkdirat fs (handle p) n mode umask allowed with
      | None => (Err Os, fs)
      | Some fs' => (open_child open_ok fs' p path_comp, fs')
      end
  end.

(** ** [ScopedDirBuilder] *)

Record ScopedDirBuilder := mkBuilder { b_root : PinnedPathBuf; b_mode : Z; b_recursive : bool }.

Definition DIRECTORY_MODE_DEFAULT : Z := 511.
Definition DIRECTORY_MODE_MASK : Z := 511.

Definition ScopedDirBuilder_new (open_ok : bool) (fs : FS) (root : Path) : result PathError ScopedDirBuilder :=
  match canonicalize fs root with
  | None => Err Canonicalize
  | Some root =>
      match from_path open_ok fs root with
      | Err e => Err e
      | Ok root => if is_dir fs root then Ok (mkBuilder root DIRECTORY_MODE_DEFAULT false) else Err NotDir
      end
  end.

Definition recursive (b : ScopedDirBuilder) (r : bool) : ScopedDirBuilder :=
  mkBuilder (b_root b) (b_mode b) r.
Definition mode (b : ScopedDirBuilder) (m : Z) : ScopedDirBuilder :=
  mkBuilder (b_root b) (Z.land m DIRECTORY_MODE_MASK) (b_recursive b).

(** What the system answers to the calls: the mask of the process, whether a
    descriptor can be duplicated, and for each location whether the first look at
    it gets a descriptor ([opened]) with its metadata ([stat_ok]), whether the
    directory may be made ([allowed]), and whether the open call after that gets
    a descriptor ([reopened]). *)
Record sys := mkSys {
  umask : Z; dup_ok : bool; opened : list name -> bool; stat_ok : list name -> bool;
  allowed : list name -> bool; reopened : list name -> bool }.

(** The [for] loop of [do_mkdir] over the names left. *)
Fixpoint mkdir_loop (b : ScopedDirBuilder) (fs : FS) (dir : PinnedPathBuf) (comps : list name)
    (os : sys) : result PathError PinnedPathBuf * FS :=
  match comps with
  | [] => (Ok dir, fs)
  | n :: comps' =>
      let last := match comps' with [] => true | _ => false end in
      let here := handle dir ++ [n] in
      match open_child (opened os here) fs dir n with
      | Ok v =>
          if negb (stat_ok os here) then (Err Os, fs)
          else if negb (is_dir fs v) then (Err NotDir, fs)
          else if negb (b_recursive b) && last then (Err AlreadyExists, fs)
          else mkdir_loop b fs v comps' os
      | Err _ =>
          if negb (b_recursive b) && negb last then (Err NotFound, fs)
          else match mkdir (reopened os here) fs dir n (b_mode b) (umask os) (allowed os here) with
               | (Ok v, fs) => mkdir_loop b fs v comps' os
               | (Err e, fs) => (Err e, fs)
               end
      end
  end.

Definition do_mkdir (b : ScopedDirBuilder) (fs : FS) (path : list name) (os : sys)
    : result PathError PinnedPathBuf * FS :=
  match path with
  | [] => (if b_recursive b then try_clone (b_root b) (dup_ok os) else Err AlreadyExists, fs)
  | _ =>
      match try_clone (b_root b) (dup_ok os) with
      | Err e => (Err e, fs)
      | Ok dir => mkdir_loop b fs dir path os
      end
  end.

(** The builder's root is used through its descriptor, which leads to the
    pinned directory. *)
Definition create (b : ScopedDirBuilder) (fs : FS) (path : Path) (os : sys)
    : result PathError PinnedPathBuf * FS :=
  match scoped_resolve fs (abs (handle (b_root b))) path with
  | Err e => (Err e, fs)
  | Ok path => do_mkdir b fs path os
  end.

(** [Path::strip_prefix] on locations. *)
Fixpoint strip_prefix (pre l : list name) : option (list name) :=
  match pre, l with
  | [], _ => Some l
  | x :: pre', y :: l' => if bool_decide (x = y) then strip_prefix pre' l' else None
  | _ :: _, [] => None
  end.

Definition create_with_unscoped_path (b : ScopedDirBuilder) (fs : FS) (path : Path) (os : sys)
    : result PathError PinnedPathBuf * FS :=
  if negb (is_absolute path) then (Err NotAbsolute, fs) else
  match scoped_join fs [RootDir] path with
  | Err e => (Err e, fs)
  | Ok scoped_path =>
      match strip_prefix (target (b_root b)) scoped_path with
      | None => (Err NotUnderRoot, fs)
      | Some stripped => do_mkdir b fs stripped os
      end
  end.
End canonical.
