(* ===== verification/SafePathFacts.v ===== *)
(** * Paths confined to a root directory: the facts

    The lemmas on locations without symbolic links, on the resolver against a
    kernel walk confined to the root, and on the loop of the directory
    builder, which the guarantees of the crate follow from. *)
From S2P Require Import Prelude SafePath.

(** No location on the way down to [l] is a symbolic link. *)
Definition link_free (fs : FS) (l : list name) : Prop :=
  forall q, q `prefix_of` l -> link fs q = None.

(** Only the first component of a path is a root or a dot. *)
Definition in_body (c : Component) : Prop :=
  match c with Normal _ | ParentDir => True | _ => False end.

Definition wf_path (p : Path) : Prop :=
  match p with [] => True | c :: t => c <> Prefix /\ Forall in_body t end.

(** Whatever is in the file system is in a directory. *)
Definition fs_tree (fs : FS) : Prop :=
  forall l n, is_Some (fs !! (l ++ [n])) -> dir_at fs l = true.

(** A file system is a tree, and the targets of links are the components of
    strings. *)
Record wf_fs (fs : FS) : Prop := mkWf {
  wf_tree : fs_tree fs;
  wf_links : forall l t, fs !! l = Some (Link t) -> wf_path t;
}.

(** What is documented of [canonicalize]: the absolute form of a path that
    exists, with the symbolic links resolved. *)
Definition canonicalize_ok (fs : FS) (canonicalize : FS -> Path -> option (list name)) : Prop :=
  (forall p root, canonicalize fs p = Some root -> link_free fs root /\ is_Some (fs !! root)) /\
  (forall root, link_free fs root -> is_Some (fs !! root) -> canonicalize fs (abs root) = Some root).

(** ** Reading paths *)

Lemma piece_body s : Forall in_body (piece s).
Proof. unfold piece. repeat case_match; repeat constructor. Qed.

Lemma pieces_body l : Forall in_body (concat (map piece l)).
Proof. induction l as [|s l IH]; [constructor|]. apply Forall_app. auto using piece_body. Qed.

Lemma components_wf s : wf_path (components s).
Proof.
  unfold components. destruct (split_slash _ s) as [|first rest]; [done|].
  pose proof (pieces_body rest) as Hr.
  case_bool_decide; [destruct rest; [done|by split]|].
  case_bool_decide; [by split|]. unfold piece.
  rewrite !bool_decide_eq_false_2 by done. cbn.
  by case_bool_decide.
Qed.

(** ** Locations without symbolic links *)

Lemma link_free_prefix fs l q : link_free fs l -> q `prefix_of` l -> link_free fs q.
Proof. intros H Hq p Hp. apply H. by etrans. Qed.

Lemma removelast_prefix {A} (l : list A) : removelast l `prefix_of` l.
Proof.
  destruct l as [|x l _] using rev_ind; [by exists []|].
  rewrite removelast_last. by exists [x].
Qed.

Lemma link_free_pop fs root sub : link_free fs (root ++ sub) -> link_free fs (root ++ pop sub).
Proof. intros H. eapply link_free_prefix; [done|]. apply prefix_app, removelast_prefix. Qed.

Lemma prefix_snoc_inv {A} (q l : list A) x : q `prefix_of` l ++ [x] -> q `prefix_of` l \/ q = l ++ [x].
Proof.
  intros [k Hk]. destruct k as [|y k _] using rev_ind.
  - right. by rewrite app_nil_r in Hk.
  - left. rewrite app_assoc in Hk. apply app_inj_tail in Hk as [-> _]. by exists k.
Qed.

Lemma link_free_snoc fs l x : link_free fs l -> link fs (l ++ [x]) = None -> link_free fs (l ++ [x]).
Proof. intros H Hx q [Hq| ->]%prefix_snoc_inv; auto. Qed.

Lemma link_dir fs l : dir_at fs l = true -> link fs l = None.
Proof. unfold dir_at, link. by repeat case_match. Qed.

Lemma dir_at_some fs l : dir_at fs l = true -> is_Some (fs !! l).
Proof. unfold dir_at. by destruct (fs !! l). Qed.

(** The directories above something. *)
Lemma tree_above fs l k : fs_tree fs -> k <> [] -> is_Some (fs !! (l ++ k)) -> dir_at fs l = true.
Proof.
  intros Ht. induction k as [|x k IH] using rev_ind; [done|]. intros _ Hs.
  rewrite app_assoc in Hs. apply Ht in Hs. destruct k as [|y k]; [by rewrite app_nil_r in Hs|].
  apply IH; [done|by apply dir_at_some].
Qed.

(** Names without links lead to themselves, if anywhere. *)
Lemma walk_comps_free_inv fs k done l d :
  link_free fs (done ++ l) -> walk_comps (fun l => fs !! l) k done (rel l) = Ok d -> d = done ++ l.
Proof.
  revert done. induction l as [|x l IH]; intros done H; cbn; [rewrite app_nil_r; by intros [= <-]|].
  replace (done ++ x :: l) with ((done ++ [x]) ++ l) in * by (by rewrite <- app_assoc).
  assert (link fs (done ++ [x]) = None) as Hx by (apply H; by eexists). unfold link in Hx.
  destruct (fs !! done) as [[]|]; [|done..]. destruct (fs !! (done ++ [x])) as [[]|]; try done; by apply IH.
Qed.

Lemma walk_comps_free fs k done l :
  fs_tree fs -> link_free fs (done ++ l) -> is_Some (fs !! (done ++ l)) ->
  walk_comps (fun l => fs !! l) k done (rel l) = Ok (done ++ l).
Proof.
  intros Ht. revert done. induction l as [|x l IH]; intros done H Hs; cbn; [by rewrite app_nil_r|].
  pose proof (tree_above fs done (x :: l) Ht ltac:(done) Hs) as Hd. unfold dir_at in Hd.
  destruct (fs !! done) as [[]|]; try done.
  replace (done ++ x :: l) with ((done ++ [x]) ++ l) in * by (by rewrite <- app_assoc).
  assert (link fs (done ++ [x]) = None) as Hx by (apply H; by eexists). unfold link in Hx.
  assert (is_Some (fs !! (done ++ [x]))) as [nd E].
  { destruct l as [|y l]; [by rewrite app_nil_r in Hs|]. eapply dir_at_some, tree_above; [done| |exact Hs]. done. }
  rewrite E in *. destruct nd; try done; by apply IH.
Qed.

Lemma namei_abs fs l : fs_tree fs -> link_free fs l -> is_Some (fs !! l) -> namei fs [] (abs l) = Ok l.
Proof. intros. by apply (walk_comps_free fs _ []). Qed.

Lemma read_link_free fs l n : fs_tree fs -> link_free fs l -> read_link fs (l ++ [n]) = link fs (l ++ [n]).
Proof.
  intros Ht H. unfold read_link. rewrite last_snoc, removelast_last.
  destruct (dir_at fs l) eqn:Ed; [rewrite namei_abs by auto using dir_at_some; by rewrite Ed|].
  assert (link fs (l ++ [n]) = None) as ->.
  { unfold link. destruct (fs !! (l ++ [n])) eqn:E; [|done]. rewrite (Ht l n) in Ed; [done|by eexists]. }
  destruct (namei fs [] (abs l)) as [d|] eqn:E; [|done]. apply (walk_comps_free_inv fs _ []) in E as ->; [|done].
  cbn [app]. by rewrite Ed.
Qed.

(** ** The resolver *)

Section resolver.
Context (fs : FS) (root : list name) (Htree : fs_tree fs).
Implicit Types (sub : list name) (iter : Path).

Lemma read_link_at sub n :
  link_free fs (root ++ sub) -> read_link fs (root ++ sub ++ [n]) = link fs (root ++ sub ++ [n]).
Proof. intros H. rewrite app_assoc. by apply read_link_free. Qed.

(** The names already resolved are resolved to themselves again. *)
Lemma next_comp_again k sub done iter :
  link_free fs (root ++ done ++ sub) ->
  next_comp fs root k done (rel sub ++ iter) = next_comp fs root k (done ++ sub) iter.
Proof.
  revert done. induction sub as [|x sub IH]; intros done H; cbn; [by rewrite app_nil_r|].
  rewrite read_link_at; [|eapply link_free_prefix; [exact H|]; apply prefix_app; by exists (x :: sub)].
  rewrite (H (root ++ done ++ [x])).
  - rewrite IH; by rewrite <- ?app_assoc.
  - apply prefix_app, prefix_app. by exists sub.
Qed.

Lemma next_comp_free k sub iter p :
  (forall again q r, k = Some again -> again q = Ok r -> link_free fs (root ++ r)) ->
  link_free fs (root ++ sub) ->
  next_comp fs root k sub iter = Ok p -> link_free fs (root ++ p).
Proof.
  intros Hk. revert sub. induction iter as [|c iter IH]; intros sub H; cbn; [by intros [= <-]|].
  destruct c as [| | | |n]; [done|by apply IH|by apply IH|apply IH; by apply link_free_pop|].
  rewrite read_link_at by done. destruct (link fs _) as [v|] eqn:E.
  - destruct k as [again|]; [|done]. by apply Hk.
  - apply IH. rewrite app_assoc. apply link_free_snoc; [done|]. by rewrite <- app_assoc.
Qed.

Lemma restart_free b curr p :
  link_free fs root -> restart fs root b curr = Ok p -> link_free fs (root ++ p).
Proof.
  intros H. revert curr p. induction b as [|b IH]; intros curr p; cbn;
    (apply next_comp_free; [|by rewrite app_nil_r]); intros again q r Ha.
  - done.
  - injection Ha as <-. apply IH.
Qed.

(** What a process confined to the root sees at a location, and what it would
    see if there were a directory wherever there is no symbolic link. *)
Definition chroot_look (l : list name) : option node := fs !! (root ++ l).

Definition filled_look (l : list name) : option node :=
  match link fs (root ++ l) with Some t => Some (Link t) | None => Some (Dir 0) end.

Definition chroot_walk (n : nat) : list name -> Path -> result walk_error (list name) := walk filled_look n.

Definition of_walk (r : result walk_error (list name)) : result PathError (list name) :=
  match r with Ok p => Ok p | Err _ => Err TooManyLinks end.

Lemma chroot_walk_cons n sub c iter :
  link fs (root ++ sub) = None ->
  chroot_walk n sub (c :: iter) =
  match c with
  | Prefix => Err ENOENT
  | RootDir => chroot_walk n [] iter
  | CurDir => chroot_walk n sub iter
  | ParentDir => chroot_walk n (pop sub) iter
  | Normal x =>
      match link fs (root ++ sub ++ [x]) with
      | None => chroot_walk n (sub ++ [x]) iter
      | Some v => match n with O => Err ELOOP | S n' => chroot_walk n' sub (v ++ iter) end
      end
  end.
Proof.
  intros Hs. assert (filled_look sub = Some (Dir 0)) as E by (unfold filled_look; by rewrite Hs).
  destruct n, c; cbn; rewrite ?E; try done;
    unfold filled_look at 1; by destruct (link fs (root ++ sub ++ _)).
Qed.

Lemma strip_cur_walk n sub v iter :
  link fs (root ++ sub) = None -> chroot_walk n sub (strip_cur v ++ iter) = chroot_walk n sub (v ++ iter).
Proof. intros Hs. destruct v as [|[] v]; [done..| |done|done]. cbn. by rewrite chroot_walk_cons. Qed.

Lemma join_body p iter : Forall in_body iter -> join p iter = p ++ iter.
Proof. intros H. unfold join. destruct H as [|[] iter ? H]; try done; by destruct p; rewrite ?app_nil_r. Qed.

Lemma strip_cur_body v : wf_path v -> is_absolute v = false -> Forall in_body (strip_cur v).
Proof. destruct v as [|[] v]; cbn; intros; destruct_and?; repeat constructor; auto; done. Qed.

Lemma next_comp_strip k v iter :
  next_comp fs root k [] (strip_cur v ++ iter) = next_comp fs root k [] (v ++ iter).
Proof. by destruct v as [|[] v]. Qed.

(** The path of a restart, seen from the components that are left. *)
Lemma again_path sub v iter :
  wf_path v -> Forall in_body iter -> link_free fs (root ++ sub) ->
  exists sub' iter', (sub' = [] \/ sub' = sub) /\ Forall in_body iter' /\
    (forall n, chroot_walk n sub (v ++ iter) = chroot_walk n sub' iter') /\
    (forall k,
       next_comp fs root k []
         (if is_absolute v then join v iter else join (join (rel sub) v) iter) =
       next_comp fs root k sub' iter').
Proof.
  intros Hv Hi Hsub. assert (link fs (root ++ sub) = None) as Hs by by apply Hsub.
  destruct (is_absolute v) eqn:Ha.
  - destruct v as [|[] v]; try done. destruct Hv as [_ Hv]. exists [], (v ++ iter).
    split; [by left|]. split; [by apply Forall_app|]. split; [intros n; cbn; by rewrite chroot_walk_cons|].
    intros k. by rewrite join_body.
  - exists sub, (strip_cur v ++ iter). split; [by right|].
    split; [apply Forall_app; auto using strip_cur_body|].
    split; [intros n; by rewrite strip_cur_walk|].
    intros k. rewrite join_body by done. unfold join at 1. rewrite Ha.
    destruct sub as [|x sub]; [by rewrite next_comp_strip|].
    change (next_comp fs root k [] ((rel (x :: sub) ++ strip_cur v) ++ iter) =
            next_comp fs root k (x :: sub) (strip_cur v ++ iter)).
    by rewrite <- app_assoc, next_comp_again.
Qed.

Definition resume (b : nat) : option (Path -> result PathError (list name)) :=
  match b with O => None | S b' => Some (restart fs root b') end.

Lemma restart_unfold b curr : restart fs root b curr = next_comp fs root (resume b) [] curr.
Proof. by destruct b. Qed.

Lemma next_comp_walk b sub iter :
  wf_fs fs -> link_free fs (root ++ sub) -> Forall in_body iter ->
  next_comp fs root (resume b) sub iter = of_walk (chroot_walk b sub iter).
Proof.
  intros Hfs. revert sub iter. induction b as [b IHb] using lt_wf_ind.
  intros sub iter Hsub Hi. revert sub Hsub.
  induction Hi as [|c iter Hc Hi IH]; intros sub Hsub; [by destruct b|].
  rewrite chroot_walk_cons by by apply Hsub. destruct c as [| | | |x]; try done; cbn.
  { apply IH. by apply link_free_pop. }
  rewrite read_link_at by done. destruct (link fs _) as [v|] eqn:E.
  - destruct b as [|b]; [done|]. cbn [resume]. rewrite restart_unfold.
    assert (Hv : wf_path v).
    { unfold link in E. repeat case_match; simplify_eq. by eapply wf_links. }
    destruct (again_path sub v iter Hv Hi Hsub) as (sub' & iter' & Hs & Hb & Hw & Hn).
    rewrite Hn, Hw. apply IHb; [lia| |done].
    destruct Hs as [-> | ->]; [|done]. rewrite app_nil_r.
    eapply link_free_prefix; [done|]. by eexists.
  - apply IH. rewrite app_assoc. apply link_free_snoc; [done|]. by rewrite <- app_assoc.
Qed.

Lemma restart_walk b curr :
  wf_fs fs -> link_free fs root -> wf_path curr ->
  restart fs root b curr = of_walk (chroot_walk b [] curr).
Proof.
  intros Hfs Hroot Hc. rewrite restart_unfold.
  assert (Hr : link_free fs (root ++ [])) by (by rewrite app_nil_r).
  destruct curr as [|c t]; [by destruct b|]. destruct Hc as [Hc Ht].
  destruct c; try done; try (apply next_comp_walk; [done|done|by constructor]);
    rewrite chroot_walk_cons by (by apply Hr); cbn [next_comp]; by apply next_comp_walk.
Qed.

(** Where the walk of the kernel gets through, or runs out of links, the filled
    file system makes no difference, and neither do more links. *)
Lemma walk_filled n n' start todo :
  (n <= n')%nat ->
  match walk chroot_look n start todo with
  | Ok l => chroot_walk n' start todo = Ok l
  | Err ELOOP => n = n' -> chroot_walk n' start todo = Err ELOOP
  | Err _ => True
  end.
Proof.
  revert n' start todo. induction n as [n IHn] using lt_wf_ind. intros n' start todo Hn. revert start.
  assert (forall l d, chroot_look l = Some (Dir d) -> filled_look l = Some (Dir 0)) as Hdir.
  { intros l d. unfold chroot_look, filled_look, link. by intros ->. }
  assert (walk chroot_look n = walk_comps chroot_look (match n with O => None | S m => Some (walk chroot_look m) end)) as En by by destruct n.
  assert (chroot_walk n' = walk_comps filled_look (match n' with O => None | S m => Some (chroot_walk m) end)) as En' by by destruct n'.
  rewrite En, En' in *. induction todo as [|c todo IH]; intros start; [done|].
  destruct c as [| | | |x]; cbn [walk_comps]; [done|by apply IH|..];
    (destruct (chroot_look start) as [[d| |]|] eqn:Ed; [|done..]); rewrite (Hdir _ _ Ed); [by apply IH|by apply IH|].
  destruct (chroot_look (start ++ [x])) as [[d2| |v]|] eqn:Ex; [| | |done].
  - rewrite (Hdir _ _ Ex). by apply IH.
  - assert (filled_look (start ++ [x]) = Some (Dir 0)) as ->; [|by apply IH].
    unfold filled_look, link. unfold chroot_look in Ex. by rewrite Ex.
  - assert (filled_look (start ++ [x]) = Some (Link v)) as ->.
    { unfold filled_look, link. unfold chroot_look in Ex. by rewrite Ex. }
    destruct n as [|n]; [by intros <-|]. destruct n' as [|n']; [lia|].
    specialize (IHn n ltac:(lia) n' start (v ++ todo) ltac:(lia)).
    destruct (walk chroot_look n start (v ++ todo)) as [l|[]]; [done..|]. intros [= E]. by apply IHn.
Qed.
End resolver.

(** ** The directory builder *)

Lemma walk_comps_keeps fs k done todo r :
  (forall go d t r, k = Some go -> link_free fs d -> go d t = Ok r -> link_free fs r) ->
  link_free fs done -> walk_comps (fun l => fs !! l) k done todo = Ok r -> link_free fs r.
Proof.
  intros Hk. revert done. induction todo as [|c todo IH]; intros done H; cbn; [by intros [= <-]|].
  destruct c as [| | | |x]; [done| |destruct (fs !! done) as [[]|]; [|done..]..].
  - apply IH. eapply link_free_prefix; [done|]. apply prefix_nil.
  - by apply IH.
  - apply IH. eapply link_free_prefix; [done|]. apply removelast_prefix.
  - destruct (fs !! (done ++ [x])) as [[]|] eqn:E; [| | |done].
    + apply IH, link_free_snoc; [done|]. unfold link. by rewrite E.
    + apply IH, link_free_snoc; [done|]. unfold link. by rewrite E.
    + destruct k as [go|]; [|done]. by apply Hk.
Qed.

Lemma walk_keeps fs n done todo r :
  link_free fs done -> walk (fun l => fs !! l) n done todo = Ok r -> link_free fs r.
Proof.
  revert done todo r. induction n as [|n IH]; intros start todo r H;
    (apply walk_comps_keeps; [|done]); [done|]. intros go d t r' [= <-]. apply IH.
Qed.

Lemma open_at_spec ok fs dir p h :
  link_free fs dir -> open_at ok fs dir p = Some h -> link_free fs h /\ is_Some (fs !! h).
Proof.
  intros H. unfold open_at. destruct (namei fs dir p) as [l|] eqn:E; [|done].
  destruct (fs !! l) eqn:El; [|done]. destruct ok; [|done]. intros [= <-]. split; [by eapply walk_keeps|by eexists].
Qed.

(** A pinned directory: what the descriptor and the cached path agree on. *)
Definition pinned_ok (fs : FS) (p : PinnedPathBuf) : Prop :=
  target p = handle p /\ link_free fs (handle p) /\ dir_at fs (handle p) = true.

Definition pinned_at (l : list name) : PinnedPathBuf := mkPinned l l.

Lemma new_from_file_spec h orig v : new_from_file h orig = Ok v <-> h = orig /\ v = pinned_at orig.
Proof. unfold new_from_file. case_bool_decide; split; intros; destruct_and?; by simplify_eq. Qed.

Lemma open_child_spec ok fs p n v :
  pinned_ok fs p -> open_child ok fs p n = Ok v ->
  v = pinned_at (handle p ++ [n]) /\ link_free fs (handle v) /\ is_Some (fs !! handle v).
Proof.
  intros (Ht & Hf & _). unfold open_child.
  destruct (prepare_path_component n) as [m|]; [|done].
  destruct (open_at _ _ _ _) as [h|] eqn:E; [|done].
  intros [-> ->]%new_from_file_spec. rewrite Ht in *. split; [done|]. by eapply open_at_spec.
Qed.

Lemma prepare_same n m : prepare_path_component n = Ok m -> m = n.
Proof. unfold prepare_path_component. intros. repeat case_match; by simplify_eq. Qed.

Lemma open_child_dir ok fs p n m :
  pinned_ok fs p -> prepare_path_component n = Ok m -> dir_at fs (handle p ++ [n]) = true ->
  open_child ok fs p n = if ok then Ok (pinned_at (handle p ++ [n])) else Err Os.
Proof.
  intros (Ht & Hf & Hp) Hn Hd. unfold open_child. rewrite Hn, (prepare_same _ _ Hn).
  unfold open_at, namei, walk, walk_comps, MAXSYMLINKS. unfold dir_at in Hp, Hd.
  destruct (fs !! handle p) as [[]|]; try done. destruct (fs !! (_ ++ _)) as [[]|] eqn:E; try done.
  rewrite E. destruct ok; [|done]. apply new_from_file_spec. by rewrite Ht.
Qed.

(** The locations that a call made into directories, below [base] on the way
    down the names [comps]; all others are as they were. *)
Definition made (m : Z) (fs fs' : FS) (base comps : list name) : Prop :=
  forall l, fs' !! l = fs !! l \/
    (fs !! l = None /\ fs' !! l = Some (Dir m) /\
     exists k, k <> [] /\ k `prefix_of` comps /\ l = base ++ k).

Lemma made_refl m fs base comps : made m fs fs base comps.
Proof. intros l. by left. Qed.

Lemma made_child m fs base n comps :
  fs !! (base ++ [n]) = None -> made m fs (<[base ++ [n] := Dir m]> fs) base (n :: comps).
Proof.
  intros H l. destruct (decide (l = base ++ [n])) as [->|Hl]; [right|left; by rewrite lookup_insert_ne].
  rewrite lookup_insert_eq. split_and!; [done..|]. exists [n]. split_and!; [done|by exists comps|done].
Qed.

Lemma made_below m fs fs' base n comps :
  made m fs fs' (base ++ [n]) comps -> made m fs fs' base (n :: comps).
Proof.
  intros H l. destruct (H l) as [?|(? & ? & k & ? & ? & ->)]; [by left|right].
  split_and!; [done..|]. exists (n :: k). split_and!; [done|by apply prefix_cons|].
  by rewrite <- app_assoc.
Qed.

Lemma made_trans m fs1 fs2 fs3 base comps :
  made m fs1 fs2 base comps -> made m fs2 fs3 base comps -> made m fs1 fs3 base comps.
Proof.
  intros H1 H2 l. destruct (H2 l) as [E|(E1 & E2 & Hk)].
  - rewrite E. apply H1.
  - destruct (H1 l) as [E|(_ & E & _)]; [|congruence]. right. by rewrite <- E.
Qed.

Lemma made_link m fs fs' base comps l : made m fs fs' base comps -> link fs' l = link fs l.
Proof. intros H. unfold link. destruct (H l) as [->|(-> & -> & _)]; done. Qed.

Lemma made_link_free m fs fs' base comps l :
  made m fs fs' base comps -> link_free fs l -> link_free fs' l.
Proof. intros H Hl q Hq. rewrite (made_link _ _ _ _ _ _ H). by apply Hl. Qed.

Lemma made_pinned m fs fs' base comps p : made m fs fs' base comps -> pinned_ok fs p -> pinned_ok fs' p.
Proof.
  intros H (? & ? & Hd). split_and!; [done|by eapply made_link_free|].
  revert Hd. unfold dir_at. destruct (H (handle p)) as [->|(-> & -> & _)]; done.
Qed.

Lemma dir_at_insert fs l m : dir_at (<[l := Dir m]> fs) l = true.
Proof. unfold dir_at. by rewrite lookup_insert_eq. Qed.

(** [mkdir] either fails and changes nothing, or makes the child and pins it if
    it gets a descriptor for it. *)
Lemma mkdir_spec reok fs p n mo um ok r fs' :
  pinned_ok fs p -> mkdir reok fs p n mo um ok = (r, fs') ->
  (exists e, r = Err e /\ fs' = fs) \/
  (r = (if reok then Ok (pinned_at (handle p ++ [n])) else Err Os) /\ fs !! (handle p ++ [n]) = None /\
   fs' = <[handle p ++ [n] := Dir (Z.ldiff mo um)]> fs /\
   pinned_ok fs' (pinned_at (handle p ++ [n]))).
Proof.
  intros Hp. unfold mkdir, mkdirat. destruct (prepare_path_component n) as [m|] eqn:Hn; [|intros; simplify_eq; eauto].
  pose proof (prepare_same _ _ Hn) as ->.
  destruct (_ && _ && _) eqn:E; [|intros; simplify_eq; eauto].
  apply andb_true_iff in E as [_ Hnone%bool_decide_eq_true]. intros [= <- <-]. right.
  pose proof (made_child (Z.ldiff mo um) fs (handle p) n [] Hnone) as Hm.
  rewrite (open_child_dir _ _ _ _ n) by eauto using made_pinned, dir_at_insert.
  split_and!; [done..|]. split; [done|]. split; [|apply dir_at_insert].
  destruct Hp as (_ & Hf & _). apply link_free_snoc; [by eapply made_link_free|].
  apply link_dir, dir_at_insert.
Qed.

Lemma mkdir_succeeds fs p n m mo um :
  pinned_ok fs p -> prepare_path_component n = Ok m -> fs !! (handle p ++ [n]) = None ->
  exists fs', mkdir true fs p n mo um true = (Ok (pinned_at (handle p ++ [n])), fs').
Proof.
  intros Hp Hn Hnone. destruct (mkdir true fs p n mo um true) as [r fs'] eqn:E. exists fs'.
  destruct (mkdir_spec _ _ _ _ _ _ _ _ _ Hp E) as [(e & -> & ->)|(-> & _)]; [|done].
  unfold mkdir, mkdirat in E. pose proof Hp as (_ & _ & Hd).
  pose proof (prepare_same _ _ Hn) as ->. rewrite Hn, Hd, bool_decide_eq_true_2 in E by done.
  cbn in E. pose proof (made_child (Z.ldiff mo um) fs (handle p) n [] Hnone) as Hm.
  rewrite (open_child_dir _ _ _ _ n) in E by eauto using made_pinned, dir_at_insert.
  congruence.
Qed.

Section builder.
Context (b : ScopedDirBuilder) (os : sys).

Definition new_mode : Z := Z.ldiff (b_mode b) (umask os).

#[local] Ltac unchanged := intros; simplify_eq; split; [apply made_refl|done].

(** What the loop does from the directory [dir] on. *)
Lemma mkdir_loop_made comps fs dir r fs' :
  pinned_ok fs dir -> mkdir_loop b fs dir comps os = (r, fs') ->
  made new_mode fs fs' (handle dir) comps /\
  (forall d, r = Ok d -> pinned_ok fs' d /\ handle d = handle dir ++ comps).
Proof.
  revert fs dir. induction comps as [|n comps IH]; intros fs dir Hp; cbn.
  { intros [= <- <-]. split; [apply made_refl|]. intros d [= <-]. by rewrite app_nil_r. }
  destruct (open_child _ fs dir n) as [v|e] eqn:Eo.
  - destruct (open_child_spec _ _ _ _ _ Hp Eo) as (-> & Hv & _).
    destruct (negb (stat_ok _ _)); [unchanged|]. destruct (negb _) eqn:Ed; [unchanged|].
    destruct (_ && _); [unchanged|]. intros Hl.
    apply IH in Hl as [Hm Hd]; [|split; [done|split; [done|by apply negb_false_iff in Ed]]].
    split; [by apply made_below|]. intros d Hr. cbn in Hd.
    rewrite <- app_assoc in Hd. by apply Hd.
  - destruct (_ && _); [unchanged|].
    destruct (mkdir _ _ _ _ _ _ _) as [v fs1] eqn:Em.
    destruct (mkdir_spec _ _ _ _ _ _ _ _ _ Hp Em) as [(e' & -> & ->)|(-> & Hn & -> & Hv)];
      [unchanged|].
    destruct (reopened _ _); [|intros [= <- <-]; split; [by apply made_child|done]].
    intros Hl. apply IH in Hl as [Hm Hd]; [|done].
    split; [eapply made_trans; [by apply made_child|by apply made_below]|].
    intros d Hr. cbn in Hd. rewrite <- app_assoc in Hd. by apply Hd.
Qed.

(** Without [recursive] the call makes the last directory or nothing; when it
    makes the directory and fails, it got no descriptor for it. *)
Lemma mkdir_loop_single comps fs dir r fs' :
  b_recursive b = false -> comps <> [] ->
  pinned_ok fs dir -> mkdir_loop b fs dir comps os = (r, fs') ->
  (exists e, r = Err e /\ fs' = fs) \/
  (((exists d, r = Ok d) \/ r = Err Os /\ reopened os (handle dir ++ comps) = false) /\
   fs !! (handle dir ++ comps) = None /\ fs' = <[handle dir ++ comps := Dir new_mode]> fs).
Proof.
  intros Hrec Hne. revert fs dir. induction comps as [|n comps IH]; intros fs dir Hp; [done|]. cbn.
  rewrite Hrec. cbn [negb andb].
  destruct (open_child _ fs dir n) as [v|e] eqn:Eo.
  - destruct (open_child_spec _ _ _ _ _ Hp Eo) as (-> & Hv & _).
    destruct (negb (stat_ok _ _)); [intros; simplify_eq; eauto|].
    destruct (negb _) eqn:Ed; [intros; simplify_eq; eauto|].
    destruct comps as [|n' comps]; [intros; simplify_eq; eauto|]. intros Hl.
    apply IH in Hl; [|done|split; [done|split; [done|by apply negb_false_iff in Ed]]].
    cbn [handle pinned_at] in Hl. by rewrite <- app_assoc in Hl.
  - destruct comps as [|n' comps]; [|cbn; intros; simplify_eq; eauto]. cbn [negb].
    destruct (mkdir _ _ _ _ _ _ _) as [v fs1] eqn:Em.
    destruct (mkdir_spec _ _ _ _ _ _ _ _ _ Hp Em) as [(e' & -> & ->)|(-> & Hn & -> & Hv)];
      [intros; simplify_eq; eauto|].
    destruct (reopened _ _) eqn:Er; cbn [mkdir_loop]; intros [= <- <-]; right; split_and!; eauto.
Qed.

(** The system refuses nothing. *)
Definition unhindered : Prop :=
  dup_ok os = true /\ forall l, opened os l = true /\ stat_ok os l = true /\ allowed os l = true /\ reopened os l = true.

(** With [recursive] the call succeeds where only directories are in the way. *)
Lemma mkdir_loop_succeeds comps fs dir :
  b_recursive b = true -> unhindered -> pinned_ok fs dir ->
  (forall n, n ∈ comps -> prepare_path_component n = Ok n) ->
  (forall k, k `prefix_of` comps -> fs !! (handle dir ++ k) = None \/ dir_at fs (handle dir ++ k) = true) ->
  exists fs', mkdir_loop b fs dir comps os = (Ok (pinned_at (handle dir ++ comps)), fs').
Proof.
  intros Hrec [_ Hall]. revert fs dir.
  induction comps as [|n comps IH]; intros fs dir Hp Hn Hd; cbn.
  { exists fs. destruct dir, Hp as (Ht & _). cbn in *. by rewrite app_nil_r, Ht. }
  assert (Hnn : prepare_path_component n = Ok n) by (apply Hn; left).
  assert (Hsub : forall fs1, made new_mode fs fs1 (handle dir) (n :: comps) ->
    pinned_ok fs1 (pinned_at (handle dir ++ [n])) ->
    exists fs', mkdir_loop b fs1 (pinned_at (handle dir ++ [n])) comps os =
      (Ok (pinned_at (handle dir ++ n :: comps)), fs')).
  { intros fs1 Hm Hp1. destruct (IH fs1 (pinned_at (handle dir ++ [n]))) as [fs' E];
      [done|intros; apply Hn; by right| |].
    - intros k Hk. cbn. rewrite <- app_assoc.
      destruct (Hm (handle dir ++ n :: k)) as [E|(_ & E & _)]; cbn; unfold dir_at; rewrite E; [|by right].
      apply Hd. by apply prefix_cons.
    - exists fs'. cbn in E. by rewrite <- app_assoc in E. }
  rewrite Hrec. cbn [negb andb]. destruct (Hall (handle dir ++ [n])) as (-> & -> & -> & ->).
  destruct (Hd [n]) as [Hnone|Hdir]; [by exists comps| |].
  - assert (exists e, open_child true fs dir n = Err e) as [e ->].
    { destruct (open_child true fs dir n) as [v|e] eqn:Eo; [|by eexists].
      destruct (open_child_spec _ _ _ _ _ Hp Eo) as (-> & _ & [x Hx]). unfold pinned_at in Hx. cbn [handle] in Hx. congruence. }
    destruct (mkdir_succeeds fs dir n n (b_mode b) (umask os)) as [fs1 Em]; [done..|].
    rewrite Em. destruct (mkdir_spec _ _ _ _ _ _ _ _ _ Hp Em) as [(? & ? & _)|(_ & _ & -> & Hv)]; [done|].
    apply Hsub; [by apply made_child|done].
  - rewrite (open_child_dir _ _ _ _ n) by done. cbn [negb]. unfold is_dir. cbn [handle pinned_at]. rewrite Hdir.
    apply Hsub; [apply made_refl|]. split; [done|split; [|done]].
    destruct Hp as (_ & Hf & _). by apply link_free_snoc, link_dir.
Qed.
End builder.
