(* ===== verification/SafePathProps.v ===== *)
(** * Paths confined to a root directory: what the crate guarantees

    Resolving a path below a root gives what a process confined to that root by
    [chroot] gets, wherever it gets through ([scoped_resolve_chroot]); the joined
    path stays below the root and goes through no symbolic link
    ([scoped_join_contained]); the
    directory builder only adds directories below its root and reports what
    is there afterwards ([create_under_root]). *)
From S2P Require Import Prelude SafePath SafePathFacts.

(** ** The public operations *)

Section public.
Context (canonicalize : FS -> Path -> option (list name)).

Lemma from_path_spec ok fs l p :
  link fs [] = None -> from_path ok fs l = Ok p -> p = pinned_at l /\ link_free fs l /\ is_Some (fs !! l).
Proof.
  intros H0. unfold from_path. destruct (open_at _ _ _ _) as [h|] eqn:E; [|done].
  intros [-> ->]%new_from_file_spec. split; [done|]. eapply open_at_spec; [|done].
  intros q Hq%prefix_nil_inv. by subst.
Qed.

Lemma from_path_free ok fs l :
  fs_tree fs -> link_free fs l -> is_Some (fs !! l) -> from_path ok fs l = if ok then Ok (pinned_at l) else Err Os.
Proof.
  intros Ht Hf [x Hx]. unfold from_path, open_at. rewrite namei_abs, Hx by (done || by eexists).
  destruct ok; [|done]. by apply new_from_file_spec.
Qed.

Lemma do_scoped_resolve_free fs rootp u root sub :
  canonicalize_ok fs canonicalize -> fs_tree fs -> do_scoped_resolve canonicalize fs rootp u = Ok (root, sub) ->
  canonicalize fs rootp = Some root /\ link_free fs (root ++ sub).
Proof.
  intros [Hc _] Ht. unfold do_scoped_resolve. destruct (canonicalize fs rootp) as [root'|] eqn:E; [|done].
  destruct (restart _ _ _ _) as [p|] eqn:Er; [|done]. intros [= -> ->]. split; [done|].
  eapply restart_free; [done| |done]. by eapply Hc.
Qed.

Lemma ScopedDirBuilder_new_ok ok fs rootp b :
  canonicalize_ok fs canonicalize -> ScopedDirBuilder_new canonicalize ok fs rootp = Ok b ->
  pinned_ok fs (b_root b).
Proof.
  intros [Hc _]. unfold ScopedDirBuilder_new.
  destruct (canonicalize fs rootp) as [root|] eqn:E; [|done]. apply Hc in E as [E _].
  destruct (from_path ok fs root) as [p|] eqn:Ep; [|done].
  destruct (is_dir fs p) eqn:Ed; [|done]. intros [= <-].
  apply from_path_spec in Ep as (-> & _ & _); [|apply E, prefix_nil]. by split_and!.
Qed.

Lemma do_mkdir_made b fs path os r fs' :
  pinned_ok fs (b_root b) -> do_mkdir b fs path os = (r, fs') ->
  made (new_mode b os) fs fs' (handle (b_root b)) path /\
  (forall d, r = Ok d -> pinned_ok fs' d /\ handle d = handle (b_root b) ++ path) /\
  (b_recursive b = false ->
     (exists e, r = Err e /\ fs' = fs) \/
     (((exists d, r = Ok d) \/ r = Err Os /\ reopened os (handle (b_root b) ++ path) = false) /\
      fs !! (handle (b_root b) ++ path) = None /\
      fs' = <[handle (b_root b) ++ path := Dir (new_mode b os)]> fs)).
Proof.
  intros Hp. unfold do_mkdir, try_clone. destruct path as [|n path].
  { intros [= <- <-]. split; [apply made_refl|]. split.
    - intros d. repeat case_match; intros; simplify_eq. by rewrite app_nil_r.
    - intros ->. left. by eexists. }
  destruct (dup_ok os); [|intros [= <- <-]; split; [apply made_refl|split; [done|left; by eexists]]].
  intros Hl. destruct (mkdir_loop_made _ _ _ _ _ _ _ Hp Hl) as [Hm Hd].
  split; [done|split; [done|]]. intros Hr. by eapply mkdir_loop_single.
Qed.

Lemma scoped_resolve_below fs root u sub :
  canonicalize_ok fs canonicalize -> fs_tree fs -> link_free fs root -> is_Some (fs !! root) ->
  scoped_resolve canonicalize fs (abs root) u = Ok sub -> link_free fs (root ++ sub).
Proof.
  intros Hc Ht Hf Hs. unfold scoped_resolve. destruct (do_scoped_resolve _ _ _ _) as [[root' sub']|] eqn:E; [|done].
  intros [= ->]. apply do_scoped_resolve_free in E as [E ?]; [|done..].
  destruct Hc as [_ Hc]. rewrite Hc in E by done. by simplify_eq.
Qed.

(** C30: resolving an unsafe path below a root is the walk of a process confined
    to that root by chroot in a file system where everything that is not a
    symbolic link is a directory, with 255 links allowed: a name that does not
    exist is taken for a directory.  Wherever the walk in the file system itself
    gets through, with any limit of up to 255 links (the kernel has 40), it leads
    to the same place; and where it runs out of 255 links, resolving fails. *)
Theorem scoped_resolve_chroot fs rootp unsafe_path :
  canonicalize_ok fs canonicalize -> wf_fs fs -> wf_path unsafe_path ->
  match canonicalize fs rootp with
  | None => scoped_resolve canonicalize fs rootp unsafe_path = Err Canonicalize
  | Some root =>
      scoped_resolve canonicalize fs rootp unsafe_path =
        match walk (filled_look fs root) MAX_SYMLINK_DEPTH [] unsafe_path with
        | Ok sub => Ok sub
        | Err _ => Err TooManyLinks
        end /\
      (forall limit sub, (limit <= MAX_SYMLINK_DEPTH)%nat ->
         walk (chroot_look fs root) limit [] unsafe_path = Ok sub ->
         scoped_resolve canonicalize fs rootp unsafe_path = Ok sub) /\
      (walk (chroot_look fs root) MAX_SYMLINK_DEPTH [] unsafe_path = Err ELOOP ->
         scoped_resolve canonicalize fs rootp unsafe_path = Err TooManyLinks)
  end.
Proof.
  intros [Hc _] Hfs Hu. unfold scoped_resolve, do_scoped_resolve.
  destruct (canonicalize fs rootp) as [root|] eqn:E; [|done]. apply Hc in E as [E _].
  rewrite restart_walk by (done || apply Hfs). unfold chroot_walk, of_walk. split; [by destruct (walk _ _ _ _)|].
  split; [intros limit sub Hle Hw|intros Hw].
  - pose proof (walk_filled fs root limit MAX_SYMLINK_DEPTH [] unsafe_path Hle) as H. rewrite Hw in H.
    unfold chroot_walk in H. by rewrite H.
  - pose proof (walk_filled fs root MAX_SYMLINK_DEPTH MAX_SYMLINK_DEPTH [] unsafe_path ltac:(done)) as H. rewrite Hw in H.
    unfold chroot_walk in H. by rewrite H.
Qed.

(** C32: in a file system where only directories contain something, a path that
    scoped_join returns is below the canonical root and goes
    through no symbolic link; it is a fixed point of the call; and if something is
    there, the kernel walks the path to itself and a PinnedPathBuf of the same
    arguments pins exactly that place, or fails because the system opens nothing. *)
Theorem scoped_join_contained fs rootp unsafe_path p :
  canonicalize_ok fs canonicalize -> fs_tree fs ->
  scoped_join canonicalize fs rootp unsafe_path = Ok p ->
  exists root sub,
    canonicalize fs rootp = Some root /\ p = root ++ sub /\
    link_free fs p /\
    scoped_join canonicalize fs rootp (rel sub) = Ok p /\
    (is_Some (fs !! p) -> namei fs [] (abs p) = Ok p /\
       forall open_ok, PinnedPathBuf_new canonicalize open_ok fs rootp unsafe_path =
         if open_ok then Ok (pinned_at p) else Err Os).
Proof.
  intros Hc Ht Hj. pose proof Hj as Hj'. unfold scoped_join in Hj'.
  destruct (do_scoped_resolve _ _ _ _) as [[root sub]|] eqn:E; [|done]. injection Hj' as <-.
  destruct (do_scoped_resolve_free _ _ _ _ _ Hc Ht E) as [Er Hf]. exists root, sub.
  split_and!; [done..| |].
  - unfold scoped_join, do_scoped_resolve. rewrite Er, restart_unfold.
    rewrite <- (app_nil_r (rel sub)), next_comp_again by done. done.
  - intros Hs. split; [by apply namei_abs|]. intros ok. unfold PinnedPathBuf_new. rewrite Hj. by apply from_path_free.
Qed.

(** C36: creating a directory through a builder adds directories below the
    builder's root only, with the builder's mode, and changes nothing that was
    there.  On success the returned path pins the resolved place, a directory
    reached through no symbolic link.  Without [recursive] exactly that directory
    is new, and a failure leaves the file system as it was, with one exception:
    when the new directory is made but the system gives no descriptor for it, the
    call fails and the directory stays. *)
Theorem create_under_root ok fs rootp b0 m rec path os r fs' :
  canonicalize_ok fs canonicalize ->
  ScopedDirBuilder_new canonicalize ok fs rootp = Ok b0 ->
  let b := mode (recursive b0 rec) m in
  let base := handle (b_root b) in
  let new_dir := Dir (Z.ldiff (Z.land m 511) (umask os)) in
  create canonicalize b fs path os = (r, fs') ->
  (forall l, fs' !! l = fs !! l \/
     (fs !! l = None /\ fs' !! l = Some new_dir /\ exists k, k <> [] /\ l = base ++ k)) /\
  (forall d, r = Ok d -> exists sub,
     scoped_resolve canonicalize fs (abs base) path = Ok sub /\
     handle d = base ++ sub /\ target d = handle d /\ link_free fs' (handle d) /\
     dir_at fs' (handle d) = true /\
     (rec = false -> fs !! handle d = None /\ fs' = <[handle d := new_dir]> fs)) /\
  (rec = false -> forall e, r = Err e -> fs' = fs \/
     exists sub, scoped_resolve canonicalize fs (abs base) path = Ok sub /\ e = Os /\
       reopened os (base ++ sub) = false /\ fs !! (base ++ sub) = None /\ fs' = <[base ++ sub := new_dir]> fs).
Proof.
  intros Hc Hb b base new_dir. pose proof (ScopedDirBuilder_new_ok _ _ _ _ Hc Hb) as Hp.
  unfold create. change (handle (b_root b)) with base.
  destruct (scoped_resolve canonicalize fs (abs base) path) as [sub|e] eqn:E.
  2: { intros [= <- <-]. split; [intros l; by left|]. split; [done|]. intros _ e' _. by left. }
  intros Hd. destruct (do_mkdir_made b fs sub os r fs' Hp Hd) as (Hm & Hok & Hrec).
  split; [|split].
  - intros l. destruct (Hm l) as [?|(? & ? & k & ? & _ & ?)]; [by left|right].
    split; [done|split; [done|by exists k]].
  - intros d ->. destruct (Hok d eq_refl) as [(Ht & Hf & Hdir) Hh]. exists sub.
    do 5 (split; [done|]). intros Hr. destruct (Hrec Hr) as [(? & ? & _)|(_ & ? & ?)]; [done|].
    by rewrite Hh.
  - intros Hr e ->. destruct (Hrec Hr) as [(? & _ & ?)|([[? ?]|[[= ->] ?]] & ? & ?)]; [by left|done|].
    right. by exists sub.
Qed.

Lemma strip_prefix_app pre l : strip_prefix pre (pre ++ l) = Some l.
Proof. induction pre as [|x pre IH]; [by destruct l|]. cbn. by rewrite bool_decide_eq_true_2. Qed.

Lemma strip_prefix_inv pre l k : strip_prefix pre l = Some k -> l = pre ++ k.
Proof.
  revert l. induction pre as [|x pre IH]; intros [|y l]; cbn; try congruence.
  case_bool_decide; [|done]. intros Hk%IH. by subst.
Qed.

Lemma scoped_resolve_names fs root sub :
  canonicalize_ok fs canonicalize -> fs_tree fs -> is_Some (fs !! root) -> link_free fs (root ++ sub) ->
  scoped_resolve canonicalize fs (abs root) (rel sub) = Ok sub.
Proof.
  intros [_ Hc] Ht Hs Hf. unfold scoped_resolve, do_scoped_resolve.
  rewrite Hc; [|eapply link_free_prefix; [done|by eexists]|done]. rewrite restart_unfold.
  rewrite <- (app_nil_r (rel sub)), next_comp_again by done. done.
Qed.

(** Creating a directory by an absolute path is refused for a relative path and
    for one that does not resolve below the builder's root, without a change; in all
    other cases it is the creation of the rest of the resolved path, taken from the
    root of the builder. *)
Theorem create_unscoped_spec ok fs rootp b0 m rec path os :
  canonicalize_ok fs canonicalize -> fs_tree fs ->
  ScopedDirBuilder_new canonicalize ok fs rootp = Ok b0 ->
  let b := mode (recursive b0 rec) m in
  create_with_unscoped_path canonicalize b fs path os =
  if negb (is_absolute path) then (Err NotAbsolute, fs)
  else match scoped_join canonicalize fs [RootDir] path with
       | Err e => (Err e, fs)
       | Ok q =>
           match strip_prefix (handle (b_root b)) q with
           | None => (Err NotUnderRoot, fs)
           | Some sub => create canonicalize b fs (rel sub) os
           end
       end.
Proof.
  intros Hc Htree Hb b. destruct (ScopedDirBuilder_new_ok _ _ _ _ Hc Hb) as (Ht & Hf & Hd).
  unfold create_with_unscoped_path. destruct (negb _); [done|].
  change (target (b_root b)) with (target (b_root b0)). rewrite Ht.
  unfold scoped_join. destruct (do_scoped_resolve _ _ _ _) as [[root sub]|] eqn:E; [|done].
  apply do_scoped_resolve_free in E as [_ Hfree]; [|done..].
  change (handle (b_root b)) with (handle (b_root b0)).
  destruct (strip_prefix _ _) as [k|] eqn:Ek; [|done].
  apply strip_prefix_inv in Ek. rewrite Ek in Hfree. unfold create.
  change (handle (b_root b)) with (handle (b_root b0)).
  rewrite scoped_resolve_names; auto using dir_at_some.
Qed.

(** With [recursive], creating a path succeeds whenever it resolves, its names
    fit the system calls, only directories are in the way and the system refuses
    nothing; the resolved path is then a directory and is what is returned. *)
Theorem create_recursive_succeeds ok fs rootp b0 m path os sub :
  canonicalize_ok fs canonicalize ->
  ScopedDirBuilder_new canonicalize ok fs rootp = Ok b0 ->
  let b := mode (recursive b0 true) m in
  let base := handle (b_root b) in
  scoped_resolve canonicalize fs (abs base) path = Ok sub ->
  unhindered os ->
  (forall n, n ∈ sub -> prepare_path_component n = Ok n) ->
  (forall k, k `prefix_of` sub -> fs !! (base ++ k) = None \/ dir_at fs (base ++ k) = true) ->
  exists fs', create canonicalize b fs path os = (Ok (pinned_at (base ++ sub)), fs') /\
    dir_at fs' (base ++ sub) = true.
Proof.
  intros Hc Hb b base Hs Hos Hn Hd.
  pose proof (ScopedDirBuilder_new_ok _ _ _ _ Hc Hb) as Hp.
  assert (exists fs', do_mkdir b fs sub os = (Ok (pinned_at (base ++ sub)), fs')) as [fs' E].
  { unfold do_mkdir, try_clone. rewrite (proj1 Hos). destruct sub as [|n sub].
    - exists fs. destruct Hp as (Ht & _ & _). subst base b. destruct b0 as [[h t] ? ?].
      cbn in *. by rewrite app_nil_r, Ht.
    - by apply mkdir_loop_succeeds. }
  exists fs'. unfold create. change (handle (b_root b)) with base. rewrite Hs, E. split; [done|].
  destruct (do_mkdir_made b fs sub os _ fs' Hp E) as (_ & Hok & _).
  by destruct (Hok _ eq_refl) as [(_ & _ & ?) _].
Qed.
End public.

(** ** Witnesses *)

(** Opening a path tells its canonical form. *)
Definition demo_canonicalize (fs : FS) (p : Path) : option (list name) := open_at true fs [] p.

Lemma open_at_canonicalizes fs : fs_tree fs -> link fs [] = None -> canonicalize_ok fs demo_canonicalize.
Proof.
  intros Ht H0. assert (link_free fs []) by (intros q Hq%prefix_nil_inv; by subst). split.
  - intros p root E. by eapply open_at_spec.
  - intros root Hf Hs. unfold demo_canonicalize, open_at. rewrite namei_abs by done. by destruct Hs as [? ->].
Qed.

(** A root [/r] with a directory, and two links that lead out of it. *)
Definition demo_fs : FS :=
  <[[] := Dir 493]> (<[["r"] := Dir 493]> (<[["r"; "a"] := Dir 493]>
    (<[["r"; "out"] := Link (components "../../etc/./x")]> {[["r"; "abs"] := Link (components "/a/..//b")]}))).

(** What holds of the entries of [demo_fs] holds of every entry. *)
Lemma demo_fs_each (P : list name -> node -> Prop) :
  Forall (fun e => P e.1 e.2) (map_to_list demo_fs) -> forall l v, demo_fs !! l = Some v -> P l v.
Proof. intros HP l v Hl. rewrite Forall_forall in HP. by apply (HP (l, v)), elem_of_map_to_list. Qed.

Lemma demo_wf_fs : wf_fs demo_fs.
Proof.
  split.
  - intros l n [v Hv].
    assert (forall k w, demo_fs !! k = Some w -> k = [] \/ dir_at demo_fs (removelast k) = true) as H.
    { apply (demo_fs_each (fun k _ => k = [] \/ dir_at demo_fs (removelast k) = true)).
      vm_compute. repeat (constructor; [by first [left; reflexivity|right; reflexivity]|]). constructor. }
    destruct (H _ _ Hv) as [[]%app_nil|Hd]; [done|]. by rewrite removelast_last in Hd.
  - intros l t Hl. revert t Hl.
    assert (forall k w, demo_fs !! k = Some w -> forall t, w = Link t -> wf_path t) as H; [|intros t Hl; by eapply H].
    apply (demo_fs_each (fun _ w => forall t, w = Link t -> wf_path t)).
    vm_compute. repeat (constructor; [intros t Ht; cbn in Ht; first [discriminate Ht|injection Ht as <-; split; [done|by repeat constructor]]|]). constructor.
Qed.

Lemma demo_canonicalize_ok : canonicalize_ok demo_fs demo_canonicalize.
Proof. apply open_at_canonicalizes; [apply demo_wf_fs|done]. Qed.

Definition demo_sys : sys := mkSys 18 true (fun _ => true) (fun _ => true) (fun _ => true) (fun _ => true).
Definition demo_builder : ScopedDirBuilder := mkBuilder (pinned_at ["r"]) 511 false.

(** The link leads to [/etc], which the root does not have; the last path leads
    to a directory, where the walk in the file system itself gets through. *)
Lemma scoped_resolve_chroot_witness :
  scoped_resolve demo_canonicalize demo_fs (components "/r") (components "a/../out/y") = Ok ["etc"; "x"; "y"] /\
  scoped_resolve demo_canonicalize demo_fs (components "/r") (components "/../a/../a") = Ok ["a"].
Proof.
  pose proof (scoped_resolve_chroot demo_canonicalize demo_fs (components "/r") (components "a/../out/y")
    demo_canonicalize_ok demo_wf_fs (components_wf _)) as H1.
  pose proof (scoped_resolve_chroot demo_canonicalize demo_fs (components "/r") (components "/../a/../a")
    demo_canonicalize_ok demo_wf_fs (components_wf _)) as H2.
  replace (demo_canonicalize demo_fs (components "/r")) with (Some ["r"]) in * by (vm_compute; reflexivity).
  destruct H1 as [-> _], H2 as (_ & H2 & _). split; [vm_compute; reflexivity|].
  apply (H2 MAXSYMLINKS); [vm_compute; lia|vm_compute; reflexivity].
Defined.

Lemma scoped_join_contained_witness :
  exists root sub, demo_canonicalize demo_fs (components "/r") = Some root /\ ["r"; "a"] = root ++ sub /\
    link_free demo_fs ["r"; "a"] /\
    scoped_join demo_canonicalize demo_fs (components "/r") (rel sub) = Ok ["r"; "a"] /\
    (is_Some (demo_fs !! ["r"; "a"]) -> namei demo_fs [] (abs ["r"; "a"]) = Ok ["r"; "a"] /\
     forall open_ok, PinnedPathBuf_new demo_canonicalize open_ok demo_fs (components "/r") (components "../abs/../a") =
       if open_ok then Ok (pinned_at ["r"; "a"]) else Err Os).
Proof.
  apply (scoped_join_contained demo_canonicalize demo_fs (components "/r") (components "../abs/../a"));
    [apply demo_canonicalize_ok|apply demo_wf_fs|vm_compute; reflexivity].
Defined.

(** The directory is made; with no descriptor left for it the call fails. *)
Lemma create_under_root_witness :
  let os := mkSys 18 true (fun _ => true) (fun _ => true) (fun _ => true) (fun _ => false) in
  exists r fs', create demo_canonicalize (mode (recursive demo_builder false) 448) demo_fs (components "/a/n") os = (r, fs') /\
    r = Err Os /\ fs' <> demo_fs /\
    (fs' = demo_fs \/ exists sub, scoped_resolve demo_canonicalize demo_fs (abs ["r"]) (components "/a/n") = Ok sub /\
       Os = Os /\ reopened os (["r"] ++ sub) = false /\ demo_fs !! (["r"] ++ sub) = None /\
       fs' = <[["r"] ++ sub := Dir (Z.ldiff (Z.land 448 511) 18)]> demo_fs).
Proof.
  intros os. eexists _, _. split; [apply surjective_pairing|]. split; [vm_compute; reflexivity|].
  split; [intros H; apply (f_equal (lookup ["r"; "a"; "n"])) in H; vm_compute in H; discriminate|].
  apply (create_under_root demo_canonicalize true demo_fs (components "/r") demo_builder 448 false (components "/a/n") os
           (Err Os));
    [apply demo_canonicalize_ok|vm_compute; reflexivity|vm_compute; reflexivity|reflexivity|reflexivity].
Defined.

Lemma create_unscoped_spec_witness :
  create_with_unscoped_path demo_canonicalize (mode (recursive demo_builder true) 448) demo_fs (components "/etc/n") demo_sys
  = (Err NotUnderRoot, demo_fs).
Proof.
  rewrite (create_unscoped_spec demo_canonicalize true demo_fs (components "/r") demo_builder 448 true);
    [vm_compute; reflexivity|apply demo_canonicalize_ok|apply demo_wf_fs|vm_compute; reflexivity].
Defined.

Lemma create_recursive_succeeds_witness :
  exists fs', create demo_canonicalize (mode (recursive demo_builder true) 448) demo_fs (components "a/n/m") demo_sys
    = (Ok (pinned_at ["r"; "a"; "n"; "m"]), fs') /\ dir_at fs' ["r"; "a"; "n"; "m"] = true.
Proof.
  apply (create_recursive_succeeds demo_canonicalize true demo_fs (components "/r") demo_builder 448
           (components "a/n/m") demo_sys ["a"; "n"; "m"]);
    [apply demo_canonicalize_ok|vm_compute; reflexivity|vm_compute; reflexivity|by repeat split| |].
  - apply Forall_forall. repeat (constructor; [vm_compute; reflexivity|]). constructor.
  - intros k [k' Hk]. destruct k as [|? [|? [|? [|]]]]; simplify_eq/=;
      first [right; vm_compute; reflexivity | left; vm_compute; reflexivity].
Defined.
