(* ===== verification/PciPath.v ===== *)
(** * PCI paths of the shim and of the agent

    Model of src/runtime-rs/crates/hypervisor/src/device/pci_path.rs, which names
    the place of a device when the shim plugs it in, and of src/agent/src/pci.rs,
    which reads that name in the guest, with what they use of the standard
    library: [split], [join], [from_str_radix] and the formats [{:02x}] and
    [{:04x}].  A string is its UTF-8 bytes; [len] counts bytes and every
    separator is ASCII. *)
From stdpp Require Import strings.
From S2P Require Import Prelude.

(** ** The standard library *)

(** [char::to_digit(16)] *)
Definition hex_digit (c : Ascii.ascii) : option Z :=
  let n := Z.of_nat (Ascii.nat_of_ascii c) in
  if (48 <=? n) && (n <=? 57) then Some (n - 48)
  else if (97 <=? n) && (n <=? 102) then Some (n - 87)
  else if (65 <=? n) && (n <=? 70) then Some (n - 55)
  else None.

Fixpoint hex_digits (mx acc : Z) (s : string) : option Z :=
  match s with
  | EmptyString => Some acc
  | String c s' =>
      d ← hex_digit c;
      if acc * 16 + d <=? mx then hex_digits mx (acc * 16 + d) s' else None
  end.

Definition is_char (n : nat) (c : Ascii.ascii) : bool := Nat.eqb (Ascii.nat_of_ascii c) n.

(** At least one digit. *)
Definition hex_number (mx : Z) (s : string) : option Z :=
  match s with EmptyString => None | _ => hex_digits mx 0 s end.

(** [from_str_radix(s, 16)] of an unsigned type with maximum [mx]: a plus sign is
    accepted, a minus sign is not a digit. *)
Definition unsigned_from_hex (mx : Z) (s : string) : option Z :=
  match s with
  | String c s' => if is_char 43 c then hex_number mx s' else hex_number mx s
  | EmptyString => None
  end.

(** [isize::from_str_radix(s, 16)]; the digits after a minus sign may reach
    [isize::MIN]. *)
Definition isize_from_hex (s : string) : option Z :=
  match s with
  | String c s' =>
      if is_char 43 c then hex_number (2 ^ 63 - 1) s'
      else if is_char 45 c then Z.opp <$> hex_number (2 ^ 63) s'
      else hex_number (2 ^ 63 - 1) s
  | EmptyString => None
  end.

(** [str::split(c)]: the pieces between separators, at least one. *)
Fixpoint split_char (n : nat) (s : string) : string * list string :=
  match s with
  | EmptyString => (EmptyString, [])
  | String c s' =>
      let '(w, ws) := split_char n s' in
      if is_char n c then (EmptyString, w :: ws) else (String c w, ws)
  end.
Definition split (n : nat) (s : string) : list string :=
  let '(w, ws) := split_char n s in w :: ws.

(** [join] *)
Fixpoint join (sep : string) (l : list string) : string :=
  match l with
  | [] => EmptyString
  | [w] => w
  | w :: l' => String.append w (String.append sep (join sep l'))
  end.

(** A lower-case hexadecimal digit, and [{:0wx}] of a number below [16 ^ w]. *)
Definition lower_hex (d : Z) : Ascii.ascii :=
  Ascii.ascii_of_nat (Z.to_nat (if d <? 10 then d + 48 else d + 87)).
Fixpoint hexn (w : nat) (x : Z) : string :=
  match w with
  | O => EmptyString
  | S w' => String (lower_hex (x / 16 ^ Z.of_nat w' mod 16)) (hexn w' x)
  end.

Abbreviation SLASH := 47%nat.
Abbreviation DOT := 46%nat.
Abbreviation COLON := 58%nat.

(** [iter().map(f).collect::<Result<Vec<_>>>()] *)
Fixpoint collect {E A B} (f : A -> result E B) (l : list A) : result E (list B) :=
  match l with
  | [] => Ok []
  | a :: l' =>
      match f a with
      | Err e => Err e
      | Ok b => match collect f l' with Ok bs => Ok (b :: bs) | Err e => Err e end
      end
  end.

(** ** The shim: pci_path.rs *)

Inductive PciError := InvalidLength | InvalidNumber | ExceedsMax | EmptyPath | BadFormat | OutOfRange.

Definition PCI_SLOT_BITS : Z := 5.
Definition MAX_PCI_SLOTS : Z := 2 ^ PCI_SLOT_BITS - 1.

Record PciSlot := { slot_nr : Z }.
Record PciPath := { slots : list PciSlot }.

#[global] Instance PciSlot_eq : EqDecision PciSlot.
Proof. solve_decision. Defined.
#[global] Instance PciPath_eq : EqDecision PciPath.
Proof. solve_decision. Defined.

Definition PciSlot_from_str (s : string) : result PciError PciSlot :=
  if bool_decide (String.length s = 0%nat) || (2 <? Z.of_nat (String.length s)) then Err InvalidLength
  else match unsigned_from_hex u64_max s with
       | None => Err InvalidNumber
       | Some n => if 0 <? Z.shiftr n PCI_SLOT_BITS then Err ExceedsMax else Ok {| slot_nr := as_u8 n |}
       end.

Definition PciSlot_from_u32 (v : Z) : result PciError PciSlot :=
  if MAX_PCI_SLOTS <? v then Err ExceedsMax else Ok {| slot_nr := as_u8 v |}.

Definition PciPath_new (l : list PciSlot) : option PciPath :=
  match l with [] => None | _ => Some {| slots := l |} end.
Definition get_device_slot (p : PciPath) : option PciSlot := last (slots p).
Definition get_root_slot (p : PciPath) : option PciSlot := head (slots p).

(** [Display for PciPath] *)
Definition PciPath_to_string (p : PciPath) : string :=
  join "/" ((fun s => hexn 2 (slot_nr s)) <$> slots p).

Definition PciPath_from_u32 (v : Z) : result PciError PciPath :=
  match PciSlot_from_u32 v with Ok s => Ok {| slots := [s] |} | Err e => Err e end.

Definition PciPath_from_str (path : string) : result PciError PciPath :=
  if bool_decide (path = EmptyString) then Err EmptyPath
  else match collect PciSlot_from_str (split SLASH path) with
       | Ok l => Ok {| slots := l |}
       | Err e => Err e
       end.

(** ** The agent: pci.rs *)

Definition SLOT_MAX : Z := 2 ^ 5 - 1.
Definition FUNCTION_BITS : Z := 3.
Definition FUNCTION_MAX : Z := 2 ^ FUNCTION_BITS - 1.

Record SlotFn := { slotfn_nr : Z }.
Record Address := { addr_domain : Z; addr_bus : Z; addr_slotfn : SlotFn }.
Record Path := { path_slots : list SlotFn }.

(** [SlotFn::new]; [try_into::<u8>] fails outside of a byte. *)
Definition SlotFn_new (ss f : Z) : result PciError SlotFn :=
  if negb ((0 <=? ss) && (ss <=? u8_max) && (ss <=? SLOT_MAX)) then Err OutOfRange
  else if negb ((0 <=? f) && (f <=? u8_max) && (f <=? FUNCTION_MAX)) then Err OutOfRange
  else Ok {| slotfn_nr := Z.lor (as_u8 (Z.shiftl ss FUNCTION_BITS)) f |}.

Definition slot (s : SlotFn) : Z := Z.shiftr (slotfn_nr s) FUNCTION_BITS.
Definition function (s : SlotFn) : Z := Z.land (slotfn_nr s) FUNCTION_MAX.

Definition SlotFn_from_str (s : string) : result PciError SlotFn :=
  match split DOT s with
  | [] => Err BadFormat
  | sl :: rest =>
      match rest with
      | _ :: _ :: _ => Err BadFormat
      | _ =>
          match isize_from_hex sl with
          | None => Err InvalidNumber
          | Some ss =>
              match rest with
              | [] => SlotFn_new ss 0
              | f :: _ =>
                  match isize_from_hex f with
                  | None => Err InvalidNumber
                  | Some ff => SlotFn_new ss ff
                  end
              end
          end
      end
  end.

(** [Display for SlotFn]; the function number is one digit. *)
Definition SlotFn_to_string (s : SlotFn) : string :=
  String.append (hexn 2 (slot s)) (String.append "." (hexn 1 (function s))).

Definition Address_from_str (s : string) : result PciError Address :=
  match split COLON s with
  | [d; b; sf] =>
      match unsigned_from_hex u16_max d with
      | None => Err InvalidNumber
      | Some domain =>
          match unsigned_from_hex u8_max b with
          | None => Err InvalidNumber
          | Some bus =>
              match SlotFn_from_str sf with
              | Err e => Err e
              | Ok slotfn => Ok {| addr_domain := domain; addr_bus := bus; addr_slotfn := slotfn |}
              end
          end
      end
  | _ => Err BadFormat
  end.

Definition Address_to_string (a : Address) : string :=
  String.append (hexn 4 (addr_domain a))
    (String.append ":" (String.append (hexn 2 (addr_bus a))
      (String.append ":" (SlotFn_to_string (addr_slotfn a))))).

Definition Path_new (l : list SlotFn) : result PciError Path :=
  match l with [] => Err EmptyPath | _ => Ok {| path_slots := l |} end.

Definition Path_to_string (p : Path) : string := join "/" (SlotFn_to_string <$> path_slots p).

Definition Path_from_str (s : string) : result PciError Path :=
  match collect SlotFn_from_str (split SLASH s) with Ok l => Path_new l | Err e => Err e end.

(** ** Reading back what was printed *)

Lemma hexn_length w x : String.length (hexn w x) = w.
Proof. induction w; cbn; [done|by f_equal]. Qed.

Lemma lower_hex_code d : 0 <= d < 16 ->
  Z.of_nat (Ascii.nat_of_ascii (lower_hex d)) = if d <? 10 then d + 48 else d + 87.
Proof.
  intros Hd. unfold lower_hex. rewrite Ascii.nat_ascii_embedding; [|zcase; lia]. zcase; lia.
Qed.

Lemma hex_digit_lower d : 0 <= d < 16 -> hex_digit (lower_hex d) = Some d.
Proof.
  intros Hd. unfold hex_digit. rewrite lower_hex_code by done.
  destruct (d <? 10) eqn:E; zbool.
  - rewrite (proj2 (Z.leb_le 48 _)), (proj2 (Z.leb_le _ 57)) by lia. cbn. f_equal. lia.
  - rewrite (proj2 (Z.leb_gt (d + 87) 57)) by lia. rewrite andb_false_r.
    rewrite (proj2 (Z.leb_le 97 _)), (proj2 (Z.leb_le _ 102)) by lia. cbn. f_equal. lia.
Qed.

(** A printed digit is none of the signs and separators. *)
Lemma lower_hex_not d n : 0 <= d < 16 -> (n < 48)%nat \/ n = COLON -> is_char n (lower_hex d) = false.
Proof.
  intros Hd Hn. unfold is_char. apply Nat.eqb_neq. intros E. apply (f_equal Z.of_nat) in E.
  rewrite lower_hex_code in E by done. destruct (d <? 10) eqn:Ed; zbool; lia.
Qed.

Lemma digit_range x k : 0 <= x / k mod 16 < 16.
Proof. apply Z.mod_pos_bound. lia. Qed.

Lemma hex_digits_hexn mx w x acc :
  0 <= acc -> 0 <= x -> acc * 16 ^ Z.of_nat w + x mod 16 ^ Z.of_nat w <= mx ->
  hex_digits mx acc (hexn w x) = Some (acc * 16 ^ Z.of_nat w + x mod 16 ^ Z.of_nat w).
Proof.
  revert acc. induction w as [|w IH]; intros acc Ha Hx Hmx.
  { cbn. f_equal. rewrite Z.mod_1_r. lia. }
  cbn [hexn hex_digits]. rewrite hex_digit_lower by apply digit_range. cbn [mbind option_bind].
  assert (Hp : 0 < 16 ^ Z.of_nat w) by (apply Z.pow_pos_nonneg; lia).
  assert (Hs : 16 ^ Z.of_nat (S w) = 16 ^ Z.of_nat w * 16)
    by (rewrite Nat2Z.inj_succ, Z.pow_succ_r by lia; lia).
  assert (Hm : x mod 16 ^ Z.of_nat (S w) =
               x mod 16 ^ Z.of_nat w + 16 ^ Z.of_nat w * (x / 16 ^ Z.of_nat w mod 16)).
  { rewrite Hs. apply Z.rem_mul_r; lia. }
  pose proof (digit_range x (16 ^ Z.of_nat w)) as Hd.
  pose proof (Z.mod_pos_bound x (16 ^ Z.of_nat w) Hp) as Hr.
  set (d := x / 16 ^ Z.of_nat w mod 16) in *. set (p := 16 ^ Z.of_nat w) in *.
  rewrite Hm, Hs in Hmx |- *.
  rewrite (proj2 (Z.leb_le _ mx)) by nia.
  rewrite IH; [f_equal; lia|lia|done|lia].
Qed.

(** A number printed with [w > 0] digits is read back by every integer type that
    holds it. *)
Lemma hex_number_hexn mx w x : (0 < w)%nat -> 0 <= x < 16 ^ Z.of_nat w -> x <= mx ->
  hex_number mx (hexn w x) = Some x.
Proof.
  intros Hw Hx Hmx. destruct w as [|w]; [lia|]. unfold hex_number. cbn [hexn].
  change (String _ (hexn w x)) with (hexn (S w) x).
  rewrite hex_digits_hexn; rewrite ?Z.mod_small by done; (lia || f_equal; lia).
Qed.

Lemma unsigned_from_hexn mx w x : (0 < w)%nat -> 0 <= x < 16 ^ Z.of_nat w -> x <= mx ->
  unsigned_from_hex mx (hexn w x) = Some x.
Proof.
  intros Hw Hx Hmx. destruct w as [|w]; [lia|]. unfold unsigned_from_hex. cbn [hexn].
  rewrite lower_hex_not by (try apply digit_range; lia).
  change (String _ (hexn w x)) with (hexn (S w) x). by apply hex_number_hexn.
Qed.

Lemma isize_from_hexn w x : (0 < w)%nat -> 0 <= x < 16 ^ Z.of_nat w -> x <= 2 ^ 63 - 1 ->
  isize_from_hex (hexn w x) = Some x.
Proof.
  intros Hw Hx Hmx. destruct w as [|w]; [lia|]. unfold isize_from_hex. cbn [hexn].
  rewrite !lower_hex_not by (try apply digit_range; lia).
  change (String _ (hexn w x)) with (hexn (S w) x). by apply hex_number_hexn.
Qed.

(** ** Splitting what was joined *)

(** [free n s]: the separator does not occur. *)
Fixpoint free (n : nat) (s : string) : bool :=
  match s with EmptyString => true | String c s' => negb (is_char n c) && free n s' end.

Lemma free_app n s t : free n (String.append s t) = free n s && free n t.
Proof.
  induction s as [|c s IH]; [done|]. change (String.append (String c s) t) with (String c (String.append s t)).
  cbn [free]. by rewrite IH, andb_assoc.
Qed.

Lemma free_hexn n w x : (n < 48)%nat \/ n = COLON -> free n (hexn w x) = true.
Proof.
  intros Hn. induction w as [|w IH]; cbn; [done|].
  rewrite lower_hex_not by (done || apply digit_range). by rewrite IH.
Qed.

Lemma split_free n s : free n s = true -> split_char n s = (s, []).
Proof.
  induction s as [|c s IH]; cbn; [done|]. intros [Hc Hs]%andb_prop. rewrite IH by done.
  by destruct (is_char n c).
Qed.

Lemma split_app n c s t : free n s = true -> is_char n c = true ->
  split n (String.append s (String c t)) = s :: split n t.
Proof.
  intros Hs Hc. unfold split. induction s as [|a s IH].
  - change (String.append EmptyString (String c t)) with (String c t). cbn [split_char]. destruct (split_char n t). by rewrite Hc.
  - change (String.append (String a s) (String c t)) with (String a (String.append s (String c t))).
    cbn [split_char]. cbn [free] in Hs. apply andb_prop in Hs as [Ha Hs]. specialize (IH Hs).
    destruct (split_char n (String.append s (String c t))) as [w ws]. injection IH as -> ->.
    by destruct (is_char n a).
Qed.

Lemma split_single n s : free n s = true -> split n s = [s].
Proof. intros Hs. unfold split. by rewrite split_free. Qed.

Lemma split_join n c l : is_char n c = true -> l <> [] -> Forall (fun s => free n s = true) l ->
  split n (join (String c EmptyString) l) = l.
Proof.
  intros Hc Hl HF. induction HF as [|s l Hs HF IH]; [done|]. destruct l as [|t l].
  - cbn [join]. by apply split_single.
  - change (join _ (s :: t :: l)) with
      (String.append s (String c (join (String c EmptyString) (t :: l)))).
    rewrite split_app by done. by rewrite IH.
Qed.

Lemma collect_fmap {E A B C} (f : B -> result E C) (g : A -> B) (h : A -> C) l :
  Forall (fun a => f (g a) = Ok (h a)) l -> collect f (g <$> l) = Ok (h <$> l).
Proof. induction 1 as [|a l Ha HF IH]; cbn; [done|]. by rewrite Ha, IH. Qed.

Lemma collect_inv {E A B} (f : A -> result E B) l bs :
  collect f l = Ok bs -> Forall2 (fun a b => f a = Ok b) l bs.
Proof.
  revert bs. induction l as [|a l IH]; cbn; intros bs H; [by injection H as <-|].
  destruct (f a) as [b|e] eqn:Ea; [|done]. destruct (collect f l) as [bs'|e]; [|done].
  injection H as <-. constructor; [done|]. by apply IH.
Qed.

(** ** Ranges of what is read *)

Lemma hex_digit_range c d : hex_digit c = Some d -> 0 <= d < 16.
Proof. unfold hex_digit. repeat case_match; intros [= <-]; zbool; lia. Qed.

Lemma hex_digits_range mx s acc n : 0 <= acc <= mx -> hex_digits mx acc s = Some n -> 0 <= n <= mx.
Proof.
  revert acc. induction s as [|c s IH]; cbn [hex_digits]; intros acc Ha; [by intros [= <-]|].
  destruct (hex_digit c) as [d|] eqn:Ed; cbn [mbind option_bind]; [|done].
  apply hex_digit_range in Ed. destruct (_ <=? mx) eqn:El; [|done]. zbool. apply IH. lia.
Qed.

Lemma unsigned_from_hex_range mx s n : 0 <= mx -> unsigned_from_hex mx s = Some n -> 0 <= n <= mx.
Proof.
  intros Hmx. assert (Hn : forall t, hex_number mx t = Some n -> 0 <= n <= mx).
  { intros [|c t]; [done|]. apply hex_digits_range. lia. }
  destruct s as [|c s]; cbn [unsigned_from_hex]; [done|]. case_match; apply Hn.
Qed.
