(* ===== verification/PciPathProps.v ===== *)
(** * Properties of PCI paths

    What the shim prints, the shim and the agent read back. *)
From stdpp Require Import strings.
From S2P Require Import Prelude PciPath.

(** A path of slots of five bits, with at least one of them. *)
Definition path_ok (p : PciPath) : bool :=
  bool_decide (slots p <> []) && forallb (fun s => (0 <=? slot_nr s) && (slot_nr s <=? MAX_PCI_SLOTS)) (slots p).

Lemma path_ok_spec p :
  path_ok p = true <-> slots p <> [] /\ Forall (fun s => 0 <= slot_nr s <= 31) (slots p).
Proof.
  unfold path_ok. rewrite andb_true_iff, bool_decide_eq_true, forallb_forall, Forall_forall.
  change MAX_PCI_SLOTS with 31. split; intros [Hn HF]; (split; [done|]); intros s Hs.
  - apply list_elem_of_In, HF, andb_prop in Hs as [??]. zbool. lia.
  - apply list_elem_of_In, HF in Hs. apply andb_true_intro. split; apply Z.leb_le; lia.
Qed.

Lemma split_PciPath p : slots p <> [] ->
  split SLASH (PciPath_to_string p) = (fun s => hexn 2 (slot_nr s)) <$> slots p.
Proof.
  intros Hn. unfold PciPath_to_string. apply split_join; [done|by destruct (slots p)|].
  apply Forall_fmap, Forall_true. intros s. apply free_hexn. lia.
Qed.

Lemma PciSlot_hexn s : 0 <= slot_nr s <= 31 -> PciSlot_from_str (hexn 2 (slot_nr s)) = Ok s.
Proof.
  intros Hs. unfold PciSlot_from_str. rewrite hexn_length. cbn [bool_decide].
  rewrite unsigned_from_hexn by (change (16 ^ Z.of_nat 2) with 256; unfold u64_max; lia).
  cbn [orb bool_decide decide_rel]. rewrite Z.shiftr_div_pow2 by done.
  change (2 ^ PCI_SLOT_BITS) with 32. rewrite Z.div_small by lia. cbn.
  destruct s as [n]. cbn in *. unfold as_u8. by rewrite Z.mod_small by lia.
Qed.

Lemma PciSlot_from_str_range w s : PciSlot_from_str w = Ok s -> 0 <= slot_nr s <= 31.
Proof.
  unfold PciSlot_from_str. case_match; [done|].
  destruct (unsigned_from_hex _ _) as [n|] eqn:En; [|done].
  apply unsigned_from_hex_range in En; [|unfold u64_max; lia].
  destruct (0 <? _) eqn:E; [done|]. intros [= <-]. cbn. zbool.
  rewrite Z.shiftr_div_pow2 in E by done. change (2 ^ PCI_SLOT_BITS) with 32 in E.
  assert (n < 32) by (pose proof (Z_div_mod_eq_full n 32); pose proof (Z.mod_pos_bound n 32); lia).
  unfold as_u8. rewrite Z.mod_small; lia.
Qed.

Lemma slotfn_bits ss f : 0 <= ss <= 31 -> 0 <= f <= 7 ->
  SlotFn_new ss f = Ok {| slotfn_nr := ss * 8 + f |} /\
  slot {| slotfn_nr := ss * 8 + f |} = ss /\ function {| slotfn_nr := ss * 8 + f |} = f.
Proof.
  intros Hs Hf. unfold SlotFn_new, slot, function, u8_max, SLOT_MAX, FUNCTION_MAX, FUNCTION_BITS, as_u8.
  cbn [slotfn_nr]. rewrite !(proj2 (Z.leb_le _ _)) by lia. cbn [andb negb].
  rewrite Z.shiftl_mul_pow2, Z.shiftr_div_pow2 by lia. change (2 ^ 3) with 8.
  change (8 - 1) with (Z.ones 3). rewrite Z.land_ones by lia. change (2 ^ 3) with 8.
  rewrite (Z.mod_small (ss * 8)) by lia.
  assert (Hz : Z.land (ss * 8) f = 0).
  { change 8 with (2 ^ 3). rewrite <- Z.shiftl_mul_pow2 by lia.
    apply Z.bits_inj'. intros i Hi. rewrite Z.land_spec, Z.shiftl_spec, Z.bits_0 by lia.
    destruct (Z.lt_ge_cases i 3).
    - by rewrite (Z.testbit_neg_r ss) by lia.
    - rewrite (testbit_high f 3) by lia. apply andb_false_r. }
  assert (Hl : Z.lor (ss * 8) f = ss * 8 + f) by (by rewrite Z.add_nocarry_lxor, Z.lxor_lor).
  rewrite Hl. split; [done|]. split.
  - rewrite Z.div_add_l, (Z.div_small f) by lia. lia.
  - rewrite Z.add_comm, Z.mod_add, Z.mod_small by lia. done.
Qed.

Lemma SlotFn_split s : 0 <= slotfn_nr s <= u8_max ->
  0 <= slot s <= 31 /\ 0 <= function s <= 7 /\ s = {| slotfn_nr := slot s * 8 + function s |}.
Proof.
  destruct s as [n]. unfold slot, function, u8_max, FUNCTION_MAX, FUNCTION_BITS. cbn [slotfn_nr]. intros Hn.
  rewrite Z.shiftr_div_pow2 by lia. change (2 ^ 3 - 1) with (Z.ones 3). rewrite Z.land_ones by lia.
  change (2 ^ 3) with 8. pose proof (Z.mod_pos_bound n 8). pose proof (Z_div_mod_eq_full n 8).
  split; [lia|]. split; [lia|]. f_equal. lia.
Qed.

(** The agent reads a slot with or without its function. *)
Lemma SlotFn_read_slot ss : 0 <= ss <= 31 -> SlotFn_from_str (hexn 2 ss) = Ok {| slotfn_nr := ss * 8 + 0 |}.
Proof.
  intros Hs. unfold SlotFn_from_str. rewrite split_single by (apply free_hexn; lia).
  rewrite isize_from_hexn by (change (16 ^ Z.of_nat 2) with 256; lia). by apply slotfn_bits; lia.
Qed.

Lemma SlotFn_roundtrip s : 0 <= slotfn_nr s <= u8_max -> SlotFn_from_str (SlotFn_to_string s) = Ok s.
Proof.
  intros (Hs & Hf & E)%SlotFn_split. unfold SlotFn_from_str, SlotFn_to_string.
  change (String.append "." (hexn 1 (function s))) with (String (Ascii.ascii_of_nat DOT) (hexn 1 (function s))).
  rewrite split_app by (try apply free_hexn; done || lia).
  rewrite split_single by (apply free_hexn; lia).
  rewrite !isize_from_hexn by (change (16 ^ Z.of_nat 2) with 256; change (16 ^ Z.of_nat 1) with 16; lia).
  rewrite E at 3. by apply slotfn_bits.
Qed.

Lemma free_SlotFn n s : n = SLASH \/ n = COLON -> free n (SlotFn_to_string s) = true.
Proof.
  intros Hn. unfold SlotFn_to_string. rewrite !free_app, !free_hexn by lia.
  by destruct Hn as [-> | ->].
Qed.

(** The shim prints a PCI path and reads the same path back, exactly for the
    paths it can read at all: those with at least one slot, each of five bits. *)
Theorem shim_path_roundtrip (p : PciPath) :
  (path_ok p = true <-> PciPath_from_str (PciPath_to_string p) = Ok p) /\
  (path_ok p = true <-> exists s, PciPath_from_str s = Ok p).
Proof.
  assert (Hread : path_ok p = true -> PciPath_from_str (PciPath_to_string p) = Ok p).
  { intros [Hn HF]%path_ok_spec. unfold PciPath_from_str. rewrite bool_decide_eq_false_2.
    - rewrite split_PciPath by done. rewrite (collect_fmap _ _ id).
      + rewrite list_fmap_id. by destruct p.
      + eapply Forall_impl; [exact HF|]. intros s. apply PciSlot_hexn.
    - intros E. pose proof (split_PciPath p Hn) as Hs. rewrite E in Hs.
      destruct (slots p) as [|s l]; [done|]. injection Hs as Hs _.
      by apply (f_equal String.length) in Hs. }
  assert (Hok : forall s, PciPath_from_str s = Ok p -> path_ok p = true).
  { intros s. unfold PciPath_from_str. case_match; [done|].
    destruct (collect _ _) as [l|] eqn:El; [|done]. intros [= <-]. apply path_ok_spec. cbn.
    apply collect_inv in El. split.
    - unfold split in El. destruct (split_char SLASH s). by inversion El.
    - clear -El. induction El as [|w s' ws l Hw El IH]; constructor; [by eapply PciSlot_from_str_range|done]. }
  split; split; eauto. intros [s Hs]. eauto.
Qed.

(** The agent reads every path the shim prints, as the same slots with
    function 0. *)
Theorem agent_reads_shim_path (p : PciPath) (Hp : path_ok p = true) :
  exists q, Path_from_str (PciPath_to_string p) = Ok q /\
    slot <$> path_slots q = slot_nr <$> slots p /\ Forall (fun s => function s = 0) (path_slots q).
Proof.
  apply path_ok_spec in Hp as [Hn HF]. unfold Path_from_str. rewrite split_PciPath by done.
  rewrite (collect_fmap _ _ (fun s => {| slotfn_nr := slot_nr s * 8 + 0 |})).
  2: { eapply Forall_impl; [exact HF|]. intros s Hs. by apply SlotFn_read_slot. }
  exists {| path_slots := (fun s => {| slotfn_nr := slot_nr s * 8 + 0 |}) <$> slots p |}.
  split; [by destruct (slots p)|]. cbn [path_slots]. clear Hn.
  split; induction HF as [|s l Hs HF IH]; cbn [fmap list_fmap]; try done; constructor || f_equal;
    try done; by apply slotfn_bits.
Qed.

Lemma agent_reads_shim_path_witness :
  exists q, Path_from_str "01/0a/1f" = Ok q /\
    slot <$> path_slots q = [1; 10; 31] /\ Forall (fun s => function s = 0) (path_slots q).
Proof.
  exact (agent_reads_shim_path {| slots := [{| slot_nr := 1 |}; {| slot_nr := 10 |}; {| slot_nr := 31 |}] |} eq_refl).
Defined.

(** Every PCI address and every non-empty path of the agent is printed so
    that the agent reads it back. *)
Theorem agent_pci_roundtrip (a : Address) (p : Path)
    (Hd : in_u16 (addr_domain a)) (Hb : in_u8 (addr_bus a)) (Hs : in_u8 (slotfn_nr (addr_slotfn a)))
    (Hp : path_slots p <> []) (Hps : Forall (fun s => in_u8 (slotfn_nr s)) (path_slots p)) :
  Address_from_str (Address_to_string a) = Ok a /\ Path_from_str (Path_to_string p) = Ok p.
Proof.
  split.
  - unfold Address_from_str, Address_to_string.
    change (String.append ":" (SlotFn_to_string (addr_slotfn a)))
      with (String (Ascii.ascii_of_nat COLON) (SlotFn_to_string (addr_slotfn a))).
    set (t := String.append (hexn 2 (addr_bus a)) _).
    change (String.append ":" t) with (String (Ascii.ascii_of_nat COLON) t).
    rewrite split_app by (try apply free_hexn; done || lia). subst t.
    rewrite split_app by (try apply free_hexn; done || lia).
    rewrite split_single by (apply free_SlotFn; by right).
    rewrite !unsigned_from_hexn by (change (16 ^ Z.of_nat 4) with 65536; change (16 ^ Z.of_nat 2) with 256;
      unfold in_u16, in_u8, u16_max, u8_max in *; lia).
    rewrite SlotFn_roundtrip by done. by destruct a.
  - unfold Path_from_str, Path_to_string. rewrite split_join; [|done|by destruct (path_slots p)|].
    + rewrite (collect_fmap _ _ id), list_fmap_id; [|eapply Forall_impl; [exact Hps|]; intros s; apply SlotFn_roundtrip].
      destruct p as [[|s l]]; done.
    + apply Forall_fmap, Forall_true. intros s. apply free_SlotFn. by left.
Qed.

Lemma agent_pci_roundtrip_witness :
  Address_from_str "0001:0a:1f.7" = Ok {| addr_domain := 1; addr_bus := 10; addr_slotfn := {| slotfn_nr := 255 |} |} /\
  Path_from_str "02.0/1f.7" = Ok {| path_slots := [{| slotfn_nr := 16 |}; {| slotfn_nr := 255 |}] |}.
Proof.
  refine (agent_pci_roundtrip {| addr_domain := 1; addr_bus := 10; addr_slotfn := {| slotfn_nr := 255 |} |}
    {| path_slots := [{| slotfn_nr := 16 |}; {| slotfn_nr := 255 |}] |} _ _ _ _ _);
    repeat constructor; cbn; try done; unfold in_u16, in_u8, u16_max, u8_max; lia.
Defined.
