(* ===== verification/PcieTopology.v ===== *)
(** * The PCIe topology of a sandbox

    Model of src/runtime-rs/crates/hypervisor/src/device/topology.rs: the table
    of the devices on the root bus, keyed by the printed PCI path, and the tree
    of root ports, switches and switch ports on which VFIO devices are placed.
    Log lines and the field [root_port] of an endpoint, which nothing sets, are
    left out. *)
From stdpp Require Import strings pretty gmap.
From S2P Require Import Prelude Effects PciPath.

(** The order in which a [HashMap] visits its entries. *)
Class HashOrder := hash_iter : forall {K} `{Countable K} {V}, gmap K V -> list (K * V).
Class HashOrderLaws `{HashOrder} :=
  hash_iter_perm : forall {K} `{Countable K} {V} (m : gmap K V), hash_iter m ≡ₚ map_to_list m.

(** The errors of the device layer, one for each place that makes one; the
    context strings added on the way up are left out. *)
Inductive DevError :=
| PciPathFailed | PortExists | NoSuchPort | SwitchExists | NoSwitch | SwitchPortExists
| CountOverflow | NotAttached | NoPortType | NoAvailableNode | EndpointNotFound
| UnsupportedPort | UnsupportedDriver | NegativeIndex | IndexTooLarge | HostPathFailed
| VfioInitFailed | IdsExhausted | DeviceNotFound | UpdateUnsupported | HypervisorError (code : Z).

Definition DEFAULT_PCIE_ROOT_BUS : string := "pcie.0".
Definition PCIE_ROOT_BUS_SLOTS_CAPACITY : Z := 32.

Record PCIeEndpoint := { ep_device_id : string; ep_pci_path : PciPath; ep_device_type : string }.

Inductive PCIePort := NoPort | RootPort | SwitchPort.

Record SwitchDownPort := {
  swdp_id : Z; swdp_bus : string; swdp_allocated : bool; swdp_connected_device : option string
}.
Record PcieSwitch := { sw_id : Z; sw_bus : string; sw_ports : gmap Z SwitchDownPort }.
Record TopologyPortDevice := {
  tpd_id : Z; tpd_bus : string; tpd_allocated : bool; tpd_connected_switch : option PcieSwitch
}.

Inductive Strategy := SingleRootPort | MultipleRootPorts.
Inductive AvailableNode :=
| NodeRootPort (p : TopologyPortDevice)
| NodeSwitchPort (p : SwitchDownPort).

(** [PCIeTopology]; the root complex is its table of devices, its names are
    constants. *)
Record PCIeTopology := {
  tp_hypervisor_name : string;
  tp_root_bus_devices : gmap string PCIeEndpoint;
  tp_bridges : Z;
  tp_pcie_root_ports : Z;
  tp_pcie_switch_ports : Z;
  tp_hotplug_vfio_on_root_bus : bool;
  tp_pcie_port_devices : gmap Z TopologyPortDevice;
}.

Definition set_root_bus_devices (d : gmap string PCIeEndpoint) (t : PCIeTopology) : PCIeTopology :=
  {| tp_hypervisor_name := tp_hypervisor_name t; tp_root_bus_devices := d; tp_bridges := tp_bridges t;
     tp_pcie_root_ports := tp_pcie_root_ports t; tp_pcie_switch_ports := tp_pcie_switch_ports t;
     tp_hotplug_vfio_on_root_bus := tp_hotplug_vfio_on_root_bus t;
     tp_pcie_port_devices := tp_pcie_port_devices t |}.
Definition set_pcie_port_devices (d : gmap Z TopologyPortDevice) (t : PCIeTopology) : PCIeTopology :=
  {| tp_hypervisor_name := tp_hypervisor_name t; tp_root_bus_devices := tp_root_bus_devices t;
     tp_bridges := tp_bridges t; tp_pcie_root_ports := tp_pcie_root_ports t;
     tp_pcie_switch_ports := tp_pcie_switch_ports t;
     tp_hotplug_vfio_on_root_bus := tp_hotplug_vfio_on_root_bus t; tp_pcie_port_devices := d |}.

(** [TopologyConfigInfo] *)
Record TopologyConfigInfo := {
  tc_hypervisor_name : string; tc_default_bridges : Z; tc_pcie_root_port : Z; tc_pcie_switch_port : Z;
  tc_hotplug_vfio_on_root_bus : bool
}.

Definition PCIeTopology_new (config_info : option TopologyConfigInfo) : option PCIeTopology :=
  topo_config ← config_info;
  Some {| tp_hypervisor_name := tc_hypervisor_name topo_config; tp_root_bus_devices := ∅;
          tp_bridges := tc_default_bridges topo_config;
          tp_pcie_root_ports := tc_pcie_root_port topo_config;
          tp_pcie_switch_ports := tc_pcie_switch_port topo_config;
          tp_hotplug_vfio_on_root_bus := tc_hotplug_vfio_on_root_bus topo_config;
          tp_pcie_port_devices := ∅ |}.

(** [port_id] of root ports and of switch downstream ports. *)
Definition root_port_id (p : TopologyPortDevice) : string := String.append "rp" (pretty (tpd_id p)).
Definition switch_port_id (p : SwitchDownPort) : string := String.append "swdp" (pretty (swdp_id p)).

(** The closure [to_pcipath] of [insert_device]. *)
Definition to_pcipath (v : Z) : PciPath := {| slots := [{| slot_nr := as_u8 v |}] |}.

Section topology.
Context `{HashOrder}.
#[local] Abbreviation topo A := (eff PCIeTopology DevError A).

(** ** Devices on the root bus *)

(** [insert_device]: the first free slot.  The endpoint is changed in place. *)
Definition insert_device (ep : PCIeEndpoint) (t : PCIeTopology) : option (PciPath * PCIeEndpoint * PCIeTopology) :=
  let free i := bool_decide (tp_root_bus_devices t !! PciPath_to_string (to_pcipath i) = None) in
  allocated_slot ← List.find free (seqZ 0 PCIE_ROOT_BUS_SLOTS_CAPACITY);
  let pcipath := PciPath_to_string (to_pcipath allocated_slot) in
  let ep := {| ep_device_id := ep_device_id ep; ep_pci_path := to_pcipath allocated_slot;
               ep_device_type := ep_device_type ep |} in
  Some (to_pcipath allocated_slot, ep,
        set_root_bus_devices (<[pcipath := ep]> (tp_root_bus_devices t)) t).

(** [remove_device]: [retain] visits every entry; the answer is the last key
    removed. *)
Definition is_device (device_id : string) (kv : string * PCIeEndpoint) : bool :=
  bool_decide (ep_device_id kv.2 = device_id).
Definition remove_device (device_id : string) (t : PCIeTopology) : option string * PCIeTopology :=
  let d := tp_root_bus_devices t in
  (last (fst <$> List.filter (is_device device_id) (hash_iter d)),
   set_root_bus_devices (filter (fun kv => is_device device_id kv = false) d) t).

Definition update_device (ep : PCIeEndpoint) (t : PCIeTopology) : option PciPath * PCIeTopology :=
  let pci_addr := ep_pci_path ep in
  match tp_root_bus_devices t !! PciPath_to_string pci_addr with
  | Some _ => (None, t)
  | None =>
      let t := (remove_device (ep_device_id ep) t).2 in
      (Some pci_addr,
       set_root_bus_devices (<[PciPath_to_string pci_addr := ep]> (tp_root_bus_devices t)) t)
  end.

Definition find_device (device_id : string) (t : PCIeTopology) : bool :=
  List.existsb (is_device device_id) (hash_iter (tp_root_bus_devices t)).

Definition do_insert_or_update (pciep : PCIeEndpoint) : topo PciPath := fun t =>
  if negb (find_device (ep_device_id pciep) t) then
    match insert_device pciep t with
    | Some (pci_addr, _, t) => Ret (Ok pci_addr, t)
    | None => Ret (Err PciPathFailed, t)
    end
  else
    match update_device pciep t with
    | (Some pci_addr, t) => Ret (Ok pci_addr, t)
    | (None, t) => Ret (Ok (ep_pci_path pciep), t)
    end.

Definition do_add_pcie_endpoint (device_id : string) (allocated_pcipath : option PciPath) : topo PciPath :=
  do_insert_or_update {| ep_device_id := device_id; ep_pci_path := default {| slots := [] |} allocated_pcipath;
                         ep_device_type := "PCIe" |}.

(** ** Ports *)

Definition get_pcie_port (t : PCIeTopology) : option (PCIePort * Z) :=
  let r := tp_pcie_root_ports t in let s := tp_pcie_switch_ports t in
  if (0 <? r) && (0 <? s) then None
  else if (r =? 0) && (s =? 0) then Some (NoPort, 0)
  else if 0 <? r then Some (RootPort, r)
  else if 0 <? s then Some (SwitchPort, s)
  else None.

Definition put_port (port : Z) (p : TopologyPortDevice) : topo unit :=
  modify (fun t => set_pcie_port_devices (<[port := p]> (tp_pcie_port_devices t)) t).

(** [get_mut(&id).ok_or_else(..)] *)
Definition get_port (port : Z) : topo TopologyPortDevice :=
  t ← gets id;
  match tp_pcie_port_devices t !! port with Some p => mret p | None => throw NoSuchPort end.

Definition add_pcie_root_port (port : Z) : topo unit :=
  t ← gets id;
  match tp_pcie_port_devices t !! port with
  | Some _ => throw PortExists
  | None =>
      put_port port {| tpd_id := port; tpd_bus := DEFAULT_PCIE_ROOT_BUS; tpd_allocated := false;
                       tpd_connected_switch := None |}
  end.

Definition add_switch_to_root_port (root_port switch : Z) : topo unit :=
  p ← get_port root_port;
  match tpd_connected_switch p with
  | Some _ => throw SwitchExists
  | None =>
      put_port root_port
        {| tpd_id := tpd_id p; tpd_bus := tpd_bus p; tpd_allocated := true;
           tpd_connected_switch := Some {| sw_id := switch; sw_bus := String.append "rp" (pretty root_port);
                                           sw_ports := ∅ |} |}
  end.

Definition set_switch (sw : PcieSwitch) (p : TopologyPortDevice) : TopologyPortDevice :=
  {| tpd_id := tpd_id p; tpd_bus := tpd_bus p; tpd_allocated := tpd_allocated p;
     tpd_connected_switch := Some sw |}.
Definition set_ports (ports : gmap Z SwitchDownPort) (sw : PcieSwitch) : PcieSwitch :=
  {| sw_id := sw_id sw; sw_bus := sw_bus sw; sw_ports := ports |}.

Definition add_switch_port_to_switch (swup_bus : string) (root_port switch_port : Z) : topo unit :=
  p ← get_port root_port;
  match tpd_connected_switch p with
  | None => throw NoSwitch
  | Some sw =>
      match sw_ports sw !! switch_port with
      | Some _ => throw SwitchPortExists
      | None =>
          let new := {| swdp_id := switch_port; swdp_bus := swup_bus; swdp_allocated := false;
                        swdp_connected_device := None |} in
          put_port root_port (set_switch (set_ports (<[switch_port := new]> (sw_ports sw)) sw) p)
      end
  end.

Definition add_root_ports_on_bus (num_root_ports : Z) : topo unit :=
  for_each add_pcie_root_port (seqZ 0 num_root_ports).

(** A root port with its switch, as both strategies make them. *)
Definition add_root_port_with_switch (root_port : Z) : topo unit :=
  t ← gets id;
  _ ← (match tp_pcie_port_devices t !! root_port with
       | Some _ => mret tt
       | None => add_pcie_root_port root_port
       end);
  add_switch_to_root_port root_port root_port.

Definition add_switch_ports (root_port first num : Z) : topo unit :=
  for_each (add_switch_port_to_switch (String.append "swup" (pretty root_port)) root_port) (seqZ first num).

Definition add_switch_ports_single_root_port (num_switch_ports root_port : Z) : topo unit :=
  _ ← add_root_port_with_switch root_port;
  add_switch_ports root_port 1 num_switch_ports.

(** The loop over the switches; [total] counts the ports assigned so far. *)
Fixpoint add_switches (ports_per_switch remainder total : Z) (root_ports : list Z) : topo unit :=
  match root_ports with
  | [] => mret tt
  | root_port :: rest =>
      _ ← add_root_port_with_switch root_port;
      let ports_in_switch := if root_port <=? remainder then ports_per_switch + 1 else ports_per_switch in
      _ ← add_switch_ports root_port (total + 1) ports_in_switch;
      add_switches ports_per_switch remainder (total + ports_in_switch) rest
  end.

(** Division by zero panics. *)
Definition add_switch_ports_multiple_root_ports (num_switches num_switch_ports : Z) : topo unit :=
  if num_switches =? 0 then panic
  else add_switches (num_switch_ports / num_switches) (num_switch_ports mod num_switches) 0
         (seqZ 1 num_switches).

Definition add_switch_ports_with_strategy (num_switches num_switch_ports : Z) (strategy : Strategy) : topo unit :=
  match strategy with
  | SingleRootPort => add_switch_ports_single_root_port num_switch_ports 1
  | MultipleRootPorts => add_switch_ports_multiple_root_ports num_switches num_switch_ports
  end.

(** [find_available_node]: the first node, in the order of the maps, that is not
    allocated; it is marked as allocated. *)
Definition allocate_root_port (p : TopologyPortDevice) : TopologyPortDevice :=
  {| tpd_id := tpd_id p; tpd_bus := tpd_bus p; tpd_allocated := true;
     tpd_connected_switch := tpd_connected_switch p |}.
Definition allocate_switch_port (p : SwitchDownPort) : SwitchDownPort :=
  {| swdp_id := swdp_id p; swdp_bus := swdp_bus p; swdp_allocated := true;
     swdp_connected_device := swdp_connected_device p |}.

Definition switch_node (sw : PcieSwitch) : option (SwitchDownPort * PcieSwitch) :=
  '(k, p) ← List.find (fun kv => negb (swdp_allocated kv.2)) (hash_iter (sw_ports sw));
  Some (allocate_switch_port p, set_ports (<[k := allocate_switch_port p]> (sw_ports sw)) sw).

Definition port_node (p : TopologyPortDevice) : option (AvailableNode * TopologyPortDevice) :=
  if negb (tpd_allocated p) then Some (NodeRootPort (allocate_root_port p), allocate_root_port p)
  else sw ← tpd_connected_switch p;
       '(q, sw') ← switch_node sw;
       Some (NodeSwitchPort q, set_switch sw' p).

Fixpoint first_node (l : list (Z * TopologyPortDevice)) : option (AvailableNode * Z * TopologyPortDevice) :=
  match l with
  | [] => None
  | (k, p) :: l' =>
      match port_node p with
      | Some (node, p') => Some (node, k, p')
      | None => first_node l'
      end
  end.

Definition find_available_node : topo (option AvailableNode) :=
  t ← gets id;
  match first_node (hash_iter (tp_pcie_port_devices t)) with
  | None => mret None
  | Some (node, k, p) => _ ← put_port k p; mret (Some node)
  end.
End topology.
