(* ===== verification/DeviceDrivers.v ===== *)
(** * Device drivers of the shim

    Model of src/runtime-rs/crates/hypervisor/src/device/driver and
    device/mod.rs: the devices the shim plugs into a sandbox, with the trait
    [Device] they implement, and of the attach counters of device/util.rs.  The
    hypervisor behind the trait [Hypervisor]
    is an argument with a state of its own. *)
From stdpp Require Import strings pretty gmap.
From S2P Require Import Prelude Effects PciPath PcieTopology.

(** ** Devices *)

Inductive BlockDeviceAio := IoUring | Native | Threads.

Record BlockConfig := {
  bc_path_on_host : string; bc_is_readonly : bool; bc_no_drop : bool; bc_is_direct : option bool;
  bc_index : Z; bc_blkdev_aio : BlockDeviceAio; bc_driver_option : string; bc_virt_path : string;
  bc_pci_path : option PciPath; bc_scsi_addr : option string; bc_ccw_addr : option string;
  bc_attach_count : Z; bc_major : Z; bc_minor : Z; bc_queue_size : Z; bc_num_queues : Z
}.
Record BlockDevice := { blk_device_id : string; blk_attach_count : Z; blk_config : BlockConfig }.

Inductive VhostUserType := VuBlk | VuSCSI | VuNet | VuFS.
Record VhostUserConfig := {
  vu_dev_id : string; vu_socket_path : string; vu_mac_address : string; vu_tag : string; vu_cache_mode : string;
  vu_cache_size : Z; vu_device_type : VhostUserType; vu_driver_option : string; vu_pci_path : option PciPath;
  vu_index : Z; vu_queue_size : Z; vu_num_queues : Z; vu_virt_path : string
}.
Record VhostUserBlkDevice := {
  vub_device_id : string; vub_is_readonly : bool; vub_no_drop : bool; vub_driver_option : string;
  vub_attach_count : Z; vub_config : VhostUserConfig
}.
Record VhostUserNetDevice := { vun_device_id : string; vun_config : VhostUserConfig }.

Record NetworkConfig := {
  nc_index : Z; nc_host_dev_name : string; nc_virt_iface_name : string; nc_guest_mac : option (list Z);
  nc_queue_size : Z; nc_queue_num : Z; nc_use_shared_irq : option bool; nc_use_generic_irq : option bool;
  nc_allow_duplicate_mac : bool
}.
Record NetworkDevice := { net_device_id : string; net_config : NetworkConfig }.

Inductive ShareFsMountOperation := FsMount | FsUmount | FsUpdate.
Inductive ShareFsMountType := PASSTHROUGH | RAFS.
Record ShareFsMountConfig := {
  mc_source : string; mc_fstype : ShareFsMountType; mc_mount_point : string; mc_config : option string;
  mc_tag : string; mc_op : ShareFsMountOperation; mc_prefetch_list_path : option string
}.
Record ShareFsConfig := {
  fc_host_shared_path : string; fc_fs_type : string; fc_sock_path : string; fc_mount_tag : string;
  fc_queue_size : Z; fc_queue_num : Z; fc_options : list string; fc_mount_config : option ShareFsMountConfig
}.
Record ShareFsDevice := { fs_device_id : string; fs_config : ShareFsConfig }.

Inductive VfioBusMode := VfioMMIO | VfioPCI | VfioCCW.
Inductive VfioDeviceType := VfioError | VfioNormal | VfioMediatedPci | VfioMediatedAp.
Record HostDevice := {
  hd_hostdev_id : string; hd_sysfs_path : string; hd_domain : string; hd_bus_slot_func : string;
  hd_device_vendor_class : option (string * string * string); hd_vfio_type : VfioDeviceType;
  hd_guest_pci_path : option PciPath
}.
Record VfioConfig := {
  vc_host_path : string; vc_dev_type : string; vc_bus_type : string; vc_hostdev_prefix : string;
  vc_virt_path : option (Z * string)
}.
Record VfioDevice := {
  vf_device_id : string; vf_attach_count : Z; vf_bus_mode : VfioBusMode; vf_driver_type : string;
  vf_config : VfioConfig; vf_devices : list HostDevice; vf_device_options : list string;
  vf_port : PCIePort; vf_bus : string; vf_allocated : bool
}.

Record HybridVsockDevice := { hvs_id : string; hvs_guest_cid : Z; hvs_uds_path : string }.
Record VsockDevice := { vs_id : string; vs_guest_cid : Z }.

Inductive ProtectionDeviceConfig :=
| SevSnp (is_snp : bool) (cbitpos phys_addr_reduction : Z) (firmware : string) (host_data : option string)
| Se
| Tdx (id firmware : string) (qgs_port : Z) (mrconfigid : option string) (debug : bool).
Record ProtectionDevice := { pd_device_id : string; pd_config : ProtectionDeviceConfig }.

Record PortDeviceConfig := {
  pc_port_type : PCIePort; pc_total_ports : Z; pc_memsz_reserve : Z; pc_pref64_reserve : Z
}.
Record PCIePortDevice := {
  ppd_device_id : string; ppd_config : PortDeviceConfig; ppd_port_devices : gmap Z TopologyPortDevice
}.

Inductive DeviceType :=
| Block (d : BlockDevice)
| VhostUserBlk (d : VhostUserBlkDevice)
| Vfio (d : VfioDevice)
| Network (d : NetworkDevice)
| VhostUserNetwork (d : VhostUserNetDevice)
| ShareFs (d : ShareFsDevice)
| HybridVsock (d : HybridVsockDevice)
| Vsock (d : VsockDevice)
| Protection (d : ProtectionDevice)
| PortDevice (d : PCIePortDevice).

(** ** The hypervisor *)

Class Hypervisor (H : Type) := {
  hv_add_device : DeviceType -> eff H DevError DeviceType;
  hv_remove_device : DeviceType -> eff H DevError unit;
  hv_update_device : DeviceType -> eff H DevError unit;
}.

(** What a driver method works on: its device, the topology and the hypervisor. *)
Record Plug (D H : Type) := { pl_dev : D; pl_topo : option PCIeTopology; pl_hv : H }.
Arguments pl_dev {_ _}.
Arguments pl_topo {_ _}.
Arguments pl_hv {_ _}.

Definition set_dev {D D' H} (d : D') (p : Plug D H) : Plug D' H :=
  {| pl_dev := d; pl_topo := pl_topo p; pl_hv := pl_hv p |}.
Definition set_topo {D H} (t : option PCIeTopology) (p : Plug D H) : Plug D H :=
  {| pl_dev := pl_dev p; pl_topo := t; pl_hv := pl_hv p |}.
Definition set_hv {D H} (h : H) (p : Plug D H) : Plug D H :=
  {| pl_dev := pl_dev p; pl_topo := pl_topo p; pl_hv := h |}.

(** The trait [Device].  [detach] answers with the index to release. *)
Class Device (H D : Type) := {
  attach : eff (Plug D H) DevError unit;
  detach : eff (Plug D H) DevError (option Z);
  update : eff (Plug D H) DevError unit;
  get_device_info : D -> DeviceType;
}.

(** ** Attach counters (util.rs) *)

Definition do_increase_count : eff Z DevError bool :=
  c ← gets id;
  match checked_add u64_max c 1 with
  | None => throw CountOverflow
  | Some c' => _ ← modify (fun _ => c'); mret (negb (c' =? 1))
  end.

Definition do_decrease_count : eff Z DevError bool :=
  c ← gets id;
  match checked_sub c 1 with
  | None => throw NotAttached
  | Some c' => _ ← modify (fun _ => c'); mret (negb (c' =? 0))
  end.

Section drivers.
Context {HO : HashOrder} {H : Type} {HV : Hypervisor H}.
#[local] Abbreviation plug D A := (eff (Plug D H) DevError A).

Definition on_hv {D A} (m : eff H DevError A) : plug D A := zoom pl_hv set_hv m.
Definition on_dev {D A} (m : eff D DevError A) : plug D A := zoom pl_dev set_dev m.

(** ** virtio-blk *)

Definition set_blk_count (c : Z) (d : BlockDevice) : BlockDevice :=
  {| blk_device_id := blk_device_id d; blk_attach_count := c; blk_config := blk_config d |}.
Definition set_blk_config (c : BlockConfig) (d : BlockDevice) : BlockDevice :=
  {| blk_device_id := blk_device_id d; blk_attach_count := blk_attach_count d; blk_config := c |}.
Definition blk_count {A} (m : eff Z DevError A) : plug BlockDevice A :=
  on_dev (zoom blk_attach_count set_blk_count m).

Definition blk_attach : plug BlockDevice unit :=
  attached ← blk_count do_increase_count;
  if negb attached then
    d ← gets pl_dev;
    r ← attempt (on_hv (hv_add_device (Block d)));
    match r with
    | Ok dev =>
        match dev with
        | Block blk => modify (fun p => set_dev (set_blk_config (blk_config blk) (pl_dev p)) p)
        | _ => mret tt
        end
    | Err e => _ ← blk_count do_decrease_count; throw e
    end
  else mret tt.

Definition blk_detach : plug BlockDevice (option Z) :=
  in_use ← blk_count do_decrease_count;
  if negb in_use then
    d ← gets pl_dev;
    r ← attempt (on_hv (hv_remove_device (Block d)));
    match r with
    | Ok _ => p ← gets id; mret (Some (bc_index (blk_config (pl_dev p))))
    | Err e => _ ← blk_count do_increase_count; throw e
    end
  else mret None.

#[global] Instance Block_Device : Device H BlockDevice :=
  {| attach := blk_attach; detach := blk_detach; update := mret tt; get_device_info := Block |}.

(** ** vhost-user-blk *)

Definition set_vub_count (c : Z) (d : VhostUserBlkDevice) : VhostUserBlkDevice :=
  {| vub_device_id := vub_device_id d; vub_is_readonly := vub_is_readonly d; vub_no_drop := vub_no_drop d;
     vub_driver_option := vub_driver_option d; vub_attach_count := c; vub_config := vub_config d |}.
Definition vub_count {A} (m : eff Z DevError A) : plug VhostUserBlkDevice A :=
  on_dev (zoom vub_attach_count set_vub_count m).

Definition vub_attach : plug VhostUserBlkDevice unit :=
  attached ← vub_count do_increase_count;
  if negb attached then
    d ← gets pl_dev;
    r ← attempt (on_hv (hv_add_device (VhostUserBlk d)));
    match r with
    | Ok _ => mret tt
    | Err e => _ ← vub_count do_decrease_count; throw e
    end
  else mret tt.

Definition vub_detach : plug VhostUserBlkDevice (option Z) :=
  in_use ← vub_count do_decrease_count;
  if negb in_use then
    d ← gets pl_dev;
    r ← attempt (on_hv (hv_remove_device (VhostUserBlk d)));
    match r with
    | Ok _ => p ← gets id; mret (Some (vu_index (vub_config (pl_dev p))))
    | Err e => _ ← vub_count do_increase_count; throw e
    end
  else mret None.

#[global] Instance VhostUserBlk_Device : Device H VhostUserBlkDevice :=
  {| attach := vub_attach; detach := vub_detach; update := mret tt; get_device_info := VhostUserBlk |}.

(** ** Devices without a counter *)

(** [h.add_device(..)?; Ok(())] *)
Definition plain_attach {D} (info : D -> DeviceType) : plug D unit :=
  d ← gets pl_dev; _ ← on_hv (hv_add_device (info d)); mret tt.

(** virtio-net and vhost-user-net remove the device and answer with its index. *)
Definition net_detach : plug NetworkDevice (option Z) :=
  d ← gets pl_dev; _ ← on_hv (hv_remove_device (Network d)); mret (Some (nc_index (net_config d))).
Definition vun_detach : plug VhostUserNetDevice (option Z) :=
  d ← gets pl_dev; _ ← on_hv (hv_remove_device (VhostUserNetwork d)); mret (Some (vu_index (vun_config d))).

#[global] Instance Network_Device : Device H NetworkDevice :=
  {| attach := plain_attach Network; detach := net_detach; update := mret tt; get_device_info := Network |}.
#[global] Instance VhostUserNet_Device : Device H VhostUserNetDevice :=
  {| attach := plain_attach VhostUserNetwork; detach := vun_detach; update := mret tt;
     get_device_info := VhostUserNetwork |}.

Definition fs_update : plug ShareFsDevice unit :=
  d ← gets pl_dev; on_hv (hv_update_device (ShareFs d)).

#[global] Instance ShareFs_Device : Device H ShareFsDevice :=
  {| attach := plain_attach ShareFs; detach := mret None; update := fs_update; get_device_info := ShareFs |}.
#[global] Instance HybridVsock_Device : Device H HybridVsockDevice :=
  {| attach := plain_attach HybridVsock; detach := mret None; update := mret tt;
     get_device_info := HybridVsock |}.
#[global] Instance Vsock_Device : Device H VsockDevice :=
  {| attach := plain_attach Vsock; detach := mret None; update := mret tt; get_device_info := Vsock |}.
#[global] Instance Protection_Device : Device H ProtectionDevice :=
  {| attach := plain_attach Protection; detach := mret None; update := mret tt;
     get_device_info := Protection |}.

(** ** Port devices *)

(** A method of the topology, inside [if let Some(topology)]. *)
Definition on_topo {D A} (t : PCIeTopology) (m : eff PCIeTopology DevError A) : plug D A :=
  zoom (fun p => default t (pl_topo p)) (fun t' => set_topo (Some t')) m.

Definition port_attach : plug PCIePortDevice unit :=
  p ← gets id;
  match pl_topo p with
  | None => mret tt
  | Some t =>
      _ ← (match pc_port_type (ppd_config (pl_dev p)) with
           | RootPort => on_topo t (add_root_ports_on_bus (tp_pcie_root_ports t))
           | SwitchPort =>
               on_topo t (add_switch_ports_with_strategy (tp_pcie_switch_ports t) (tp_pcie_switch_ports t)
                            SingleRootPort)
           | NoPort => throw UnsupportedPort
           end);
      _ ← modify (fun p =>
            set_dev {| ppd_device_id := ppd_device_id (pl_dev p); ppd_config := ppd_config (pl_dev p);
                       ppd_port_devices := default ∅ (tp_pcie_port_devices <$> pl_topo p) |} p);
      plain_attach PortDevice
  end.

#[global] Instance PortDevice_Device : Device H PCIePortDevice :=
  {| attach := port_attach; detach := mret None; update := mret tt; get_device_info := PortDevice |}.

(** ** VFIO *)

Definition VfioBusMode_driver_type (bus_type mode : string) : string :=
  if bool_decide (bus_type = "ccw") then "vfio-ap"
  else if bool_decide (mode = "b") then "mmioblk" else "vfio-pci".

(** [VfioDevice::new]; [hostdevs] is what [initialize_vfio_device] finds in sysfs. *)
Definition VfioDevice_new (device_id : string) (c : VfioConfig) (hostdevs : result DevError (list HostDevice))
    : result DevError VfioDevice :=
  match hostdevs with
  | Err e => Err e
  | Ok l =>
      Ok {| vf_device_id := device_id; vf_attach_count := 0;
            vf_bus_mode := if bool_decide (vc_bus_type c = "ccw") then VfioCCW else VfioPCI;
            vf_driver_type := VfioBusMode_driver_type (vc_bus_type c) (vc_dev_type c);
            vf_config := c; vf_devices := l; vf_device_options := []; vf_port := NoPort;
            vf_bus := EmptyString; vf_allocated := false |}
  end.

Definition set_vf_count (c : Z) (d : VfioDevice) : VfioDevice :=
  {| vf_device_id := vf_device_id d; vf_attach_count := c; vf_bus_mode := vf_bus_mode d;
     vf_driver_type := vf_driver_type d; vf_config := vf_config d; vf_devices := vf_devices d;
     vf_device_options := vf_device_options d; vf_port := vf_port d; vf_bus := vf_bus d;
     vf_allocated := vf_allocated d |}.
Definition set_vf_bus (port : PCIePort) (bus : string) (d : VfioDevice) : VfioDevice :=
  {| vf_device_id := vf_device_id d; vf_attach_count := vf_attach_count d; vf_bus_mode := vf_bus_mode d;
     vf_driver_type := vf_driver_type d; vf_config := vf_config d; vf_devices := vf_devices d;
     vf_device_options := vf_device_options d; vf_port := port; vf_bus := bus; vf_allocated := true |}.
Definition set_vf_devices (l : list HostDevice) (opts : list string) (d : VfioDevice) : VfioDevice :=
  {| vf_device_id := vf_device_id d; vf_attach_count := vf_attach_count d; vf_bus_mode := vf_bus_mode d;
     vf_driver_type := vf_driver_type d; vf_config := vf_config d; vf_devices := l;
     vf_device_options := opts; vf_port := vf_port d; vf_bus := vf_bus d; vf_allocated := vf_allocated d |}.
(** [self.config = vfio.config; self.devices = vfio.devices; self.allocated = true] *)
Definition adopt_vfio (v d : VfioDevice) : VfioDevice :=
  {| vf_device_id := vf_device_id d; vf_attach_count := vf_attach_count d; vf_bus_mode := vf_bus_mode d;
     vf_driver_type := vf_driver_type d; vf_config := vf_config v; vf_devices := vf_devices v;
     vf_device_options := vf_device_options d; vf_port := vf_port d; vf_bus := vf_bus d; vf_allocated := true |}.
Definition vf_count {A} (m : eff Z DevError A) : plug VfioDevice A :=
  on_dev (zoom vf_attach_count set_vf_count m).

Definition set_guest_pci_path (path : PciPath) (h : HostDevice) : HostDevice :=
  {| hd_hostdev_id := hd_hostdev_id h; hd_sysfs_path := hd_sysfs_path h; hd_domain := hd_domain h;
     hd_bus_slot_func := hd_bus_slot_func h; hd_device_vendor_class := hd_device_vendor_class h;
     hd_vfio_type := hd_vfio_type h; hd_guest_pci_path := Some path |}.
Definition device_option (h : HostDevice) (path : PciPath) : string :=
  String.append (hd_domain h) (String.append ":" (String.append (hd_bus_slot_func h)
    (String.append "=" (PciPath_to_string path)))).

(** The loop over the host devices: [done] have their paths, [opts] is
    [device_options]. *)
Fixpoint register_hostdevs (t : PCIeTopology) (done : list HostDevice) (opts : list string)
    (todo : list HostDevice) : plug VfioDevice unit :=
  match todo with
  | [] => mret tt
  | h :: todo' =>
      d ← gets pl_dev;
      path ← on_topo t (do_add_pcie_endpoint (vf_device_id d) (hd_guest_pci_path h));
      let done' := done ++ [set_guest_pci_path path h] in
      let opts' := opts ++ [device_option h path] in
      _ ← modify (fun p => set_dev (set_vf_devices (done' ++ todo') opts' (pl_dev p)) p);
      register_hostdevs t done' opts' todo'
  end.

(** [if !self.allocated { .. }] of [register]. *)
Definition register_port (t : PCIeTopology) : plug VfioDevice unit :=
  match get_pcie_port t with
  | None => throw NoPortType
  | Some (port_type, _) =>
      avail ← (match port_type with
               | RootPort | SwitchPort => on_topo t find_available_node
               | NoPort => mret None
               end);
      match avail with
      | None => throw NoAvailableNode
      | Some node =>
          let bus := match node with NodeRootPort p => root_port_id p | NodeSwitchPort p => switch_port_id p end in
          modify (fun p => set_dev (set_vf_bus port_type bus (pl_dev p)) p)
      end
  end.

(** [register_pcie_device!] and [update_pcie_device!] with [register]. *)
Definition vf_register : plug VfioDevice unit :=
  p ← gets id;
  match pl_topo p with
  | None => mret tt
  | Some t =>
      match vf_bus_mode (pl_dev p) with
      | VfioPCI =>
          _ ← (if vf_allocated (pl_dev p) then mret tt else register_port t);
          _ ← modify (fun p => set_dev (set_vf_devices (vf_devices (pl_dev p)) [] (pl_dev p)) p);
          d ← gets pl_dev;
          register_hostdevs t [] [] (vf_devices d)
      | _ => mret tt
      end
  end.

(** [unregister_pcie_device!] with [unregister]. *)
Definition vf_unregister : plug VfioDevice unit :=
  p ← gets id;
  match pl_topo p with
  | None => mret tt
  | Some t =>
      let '(slot, t') := remove_device (vf_device_id (pl_dev p)) t in
      _ ← modify (set_topo (Some t'));
      match slot with Some _ => mret tt | None => throw EndpointNotFound end
  end.

(** [attach] after the registration. *)
Definition vf_plug_in : plug VfioDevice unit :=
  attached ← vf_count do_increase_count;
  if negb attached then
    d ← gets pl_dev;
    r ← attempt (on_hv (hv_add_device (Vfio d)));
    match r with
    | Ok dev =>
        _ ← (match dev with
             | Vfio v => modify (fun p => set_dev (adopt_vfio v (pl_dev p)) p)
             | _ => mret tt
             end);
        vf_register
    | Err e =>
        _ ← vf_count do_decrease_count;
        _ ← vf_unregister;
        throw e
    end
  else mret tt.

Definition vf_attach : plug VfioDevice unit := _ ← vf_register; vf_plug_in.

Definition vf_detach : plug VfioDevice (option Z) :=
  in_use ← vf_count do_decrease_count;
  if negb in_use then
    d ← gets pl_dev;
    r ← attempt (on_hv (hv_remove_device (Vfio d)));
    match r with
    | Ok _ => _ ← vf_unregister; mret (fst <$> vc_virt_path (vf_config d))
    | Err e => _ ← vf_count do_increase_count; throw e
    end
  else mret None.

#[global] Instance Vfio_Device : Device H VfioDevice :=
  {| attach := vf_attach; detach := vf_detach; update := mret tt; get_device_info := Vfio |}.

(** ** Dynamic dispatch *)

(** Run a driver method on a device of the sum. *)
Definition run_driver {D A} (inj : D -> DeviceType) (d : D) (m : plug D A) : plug DeviceType A := fun p =>
  match m (set_dev d p) with
  | Ret (r, p') => Ret (r, set_dev (inj (pl_dev p')) p')
  | Panic => Panic
  end.

(** The methods of [dyn Device]. *)
Definition dyn_call {A} (call : forall D, Device H D -> plug D A) : plug DeviceType A :=
  p ← gets id;
  match pl_dev p with
  | Block d => run_driver Block d (call _ _)
  | VhostUserBlk d => run_driver VhostUserBlk d (call _ _)
  | Vfio d => run_driver Vfio d (call _ _)
  | Network d => run_driver Network d (call _ _)
  | VhostUserNetwork d => run_driver VhostUserNetwork d (call _ _)
  | ShareFs d => run_driver ShareFs d (call _ _)
  | HybridVsock d => run_driver HybridVsock d (call _ _)
  | Vsock d => run_driver Vsock d (call _ _)
  | Protection d => run_driver Protection d (call _ _)
  | PortDevice d => run_driver PortDevice d (call _ _)
  end.

Definition dyn_attach : plug DeviceType unit := dyn_call (fun D _ => attach).
Definition dyn_detach : plug DeviceType (option Z) := dyn_call (fun D _ => detach).
Definition dyn_update : plug DeviceType unit := dyn_call (fun D _ => update).
End drivers.
