(* ===== verification/DeviceDriversFacts.v ===== *)
(** * Lemmas on the device drivers

    What attaching and detaching a device leave alone, and that the attach
    counter of a device says whether the hypervisor has agreed to add it. *)
From stdpp Require Import strings pretty gmap.
From S2P Require Import Prelude Effects PciPath PcieTopology DeviceDrivers.

(** ** Views of a device *)

Definition dev_id (d : DeviceType) : string :=
  match d with
  | Block d => blk_device_id d
  | VhostUserBlk d => vub_device_id d
  | Vfio d => vf_device_id d
  | Network d => net_device_id d
  | VhostUserNetwork d => vun_device_id d
  | ShareFs d => fs_device_id d
  | HybridVsock d => hvs_id d
  | Vsock d => vs_id d
  | Protection d => pd_device_id d
  | PortDevice d => ppd_device_id d
  end.

(** The attach counter, for the drivers that keep one. *)
Definition counter (d : DeviceType) : option Z :=
  match d with
  | Block d => Some (blk_attach_count d)
  | VhostUserBlk d => Some (vub_attach_count d)
  | Vfio d => Some (vf_attach_count d)
  | _ => None
  end.

(** The index of a drive and whether it is a pmem one. *)
Definition index_of (d : DeviceType) : option (bool * Z) :=
  match d with
  | Block d => Some (bool_decide (bc_driver_option (blk_config d) = "nvdimm"), bc_index (blk_config d))
  | VhostUserBlk d => Some (false, vu_index (vub_config d))
  | Vfio d => (fun v => (false, v.1)) <$> vc_virt_path (vf_config d)
  | _ => None
  end.

(** The path of a drive in the guest. *)
Definition virt_path_of (d : DeviceType) : option string :=
  match d with
  | Block d => Some (bc_virt_path (blk_config d))
  | VhostUserBlk d => Some (vu_virt_path (vub_config d))
  | Vfio d => snd <$> vc_virt_path (vf_config d)
  | _ => None
  end.

Definition is_network (d : DeviceType) : bool :=
  match d with Network _ | VhostUserNetwork _ => true | _ => false end.

(** What plugging a device in or out must not change. *)
Definition face (d : DeviceType) : string * option (bool * Z) * option string * bool * bool * option string :=
  (dev_id d, index_of d, virt_path_of d, is_network d, bool_decide (is_Some (counter d)),
   match d with Vfio d => Some (vc_dev_type (vf_config d)) | _ => None end).

(** ** What a hypervisor promises *)

(** The device an [add_device] answers with has the same index and guest path. *)
Definition add_frame (d d' : DeviceType) : Prop :=
  match d, d' with
  | Block b, Block b' =>
      bc_index (blk_config b') = bc_index (blk_config b) /\
      bc_driver_option (blk_config b') = bc_driver_option (blk_config b) /\
      bc_virt_path (blk_config b') = bc_virt_path (blk_config b)
  | Vfio v, Vfio v' => vf_config v' = vf_config v
  | _, _ => True
  end.

Class HypervisorFrame (H : Type) {HV : Hypervisor H} :=
  hv_add_frame d h d' h' : hv_add_device d h = Ret (Ok d', h') -> add_frame d d'.

(** Nothing more is asked of a hypervisor.  The counters are compared with a record
    of its answers, of which this is assumed below and shown for [Recorded]:
    [plugged] holds the devices that it agreed to add and has not agreed to remove
    since. *)
Class PlugLaws (H : Type) {HV : Hypervisor H} := {
  plugged : H -> gset string;
  hv_add_plug d h r h' : hv_add_device d h = Ret (r, h') ->
    plugged h' = match r with Ok _ => {[dev_id d]} ∪ plugged h | Err _ => plugged h end;
  hv_remove_plug d h r h' : hv_remove_device d h = Ret (r, h') ->
    plugged h' = match r with Ok _ => plugged h ∖ {[dev_id d]} | Err _ => plugged h end;
  hv_update_plug d h r h' : hv_update_device d h = Ret (r, h') -> plugged h' = plugged h;
}.

(** A hypervisor with the record of its acknowledgements; the calls are passed on. *)
Record Recorded (H : Type) := mkRecorded { rec_hv : H; rec_plugged : gset string }.
Arguments mkRecorded {_}.
Arguments rec_hv {_}.
Arguments rec_plugged {_}.

Definition record {H A} (m : eff H DevError A) (on_ok : gset string -> gset string) : eff (Recorded H) DevError A :=
  fun h => '(r, hv) ← m (rec_hv h);
    Ret (r, mkRecorded hv (match r with Ok _ => on_ok (rec_plugged h) | Err _ => rec_plugged h end)).

#[global] Instance Recorded_hypervisor {H} {HV : Hypervisor H} : Hypervisor (Recorded H) := {|
  hv_add_device d := record (hv_add_device d) (fun s => {[dev_id d]} ∪ s);
  hv_remove_device d := record (hv_remove_device d) (fun s => s ∖ {[dev_id d]});
  hv_update_device d := record (hv_update_device d) (fun s => s);
|}.

Lemma record_run {H A} (m : eff H DevError A) f h r h' : record m f h = Ret (r, h') ->
  m (rec_hv h) = Ret (r, rec_hv h') /\ rec_plugged h' = match r with Ok _ => f (rec_plugged h) | Err _ => rec_plugged h end.
Proof. unfold record. destruct (m (rec_hv h)) as [[r1 hv]|]; [|done]. cbn. by intros [= <- <-]. Qed.

#[global] Instance Recorded_frame {H} {HV : Hypervisor H} {HF : HypervisorFrame H} : HypervisorFrame (Recorded H).
Proof. intros d h d' h' [E _]%record_run. by eapply hv_add_frame. Qed.

#[global] Instance Recorded_laws {H} {HV : Hypervisor H} : PlugLaws (Recorded H).
Proof.
  refine {| plugged := rec_plugged |}.
  - by intros d h r h' [_ E]%record_run.
  - by intros d h r h' [_ E]%record_run.
  - intros d h r h' [_ E]%record_run. by destruct r.
Defined.

(** The answer of [detach] is an index to release. *)
Definition detach_answer (d : DeviceType) (r : result DevError (option Z)) : Prop :=
  match r with
  | Ok (Some i) => is_network d = true \/ snd <$> index_of d = Some i
  | _ => True
  end.

(** Counters. *)
Lemma wp_increase (Q : result DevError bool -> Z -> Prop) c :
  (c + 1 <= u64_max -> Q (Ok (negb (c + 1 =? 1))) (c + 1)) -> (u64_max < c + 1 -> Q (Err CountOverflow) c) ->
  wp do_increase_count Q c.
Proof.
  intros H1 H2. unfold do_increase_count, checked_add. wp_steps.
  destruct (_ <=? _) eqn:E; zbool; wp_steps; auto with lia.
Qed.

Lemma wp_decrease (Q : result DevError bool -> Z -> Prop) c :
  (1 <= c -> Q (Ok (negb (c - 1 =? 0))) (c - 1)) -> (c < 1 -> Q (Err NotAttached) c) ->
  wp do_decrease_count Q c.
Proof.
  intros H1 H2. unfold do_decrease_count, checked_sub. wp_steps.
  destruct (_ <=? _) eqn:E; zbool; wp_steps; auto with lia.
Qed.

Lemma run_decrease c : 1 <= c -> do_decrease_count c = Ret (Ok (negb (c - 1 =? 0)), c - 1).
Proof.
  intros Hc. unfold do_decrease_count, checked_sub. rewrite run_gets. cbn [id].
  by rewrite (proj2 (Z.leb_le 1 c)).
Qed.

(** ** What attaching and detaching leave alone *)

Lemma face_id d d' : face d' = face d -> dev_id d' = dev_id d.
Proof. intros Hf. exact (f_equal (fun x => x.1.1.1.1.1) Hf). Qed.

Section faces.
Context {HO : HashOrder} {H : Type} {HV : Hypervisor H} {HF : HypervisorFrame H}.

(** Placing a device in the topology changes neither the hypervisor nor what
    identifies the device. *)
Definition vf_core (p : Plug VfioDevice H) : H * string * Z * VfioConfig :=
  (pl_hv p, vf_device_id (pl_dev p), vf_attach_count (pl_dev p), vf_config (pl_dev p)).

Lemma on_topo_core {A} t (m : eff PCIeTopology DevError A) : keeps (same vf_core) (on_topo t m).
Proof. by apply keeps_zoom. Qed.

Lemma vf_register_core : keeps (same vf_core) vf_register.
Proof.
  assert (Hr : forall t l todo dn, keeps (same vf_core) (register_hostdevs t dn l todo)).
  { intros t l todo. revert l. induction todo as [|h todo IH]; intros l dn; cbn; [apply same_ret|].
    apply same_bind; [apply same_gets|intros d]. apply same_bind; [apply on_topo_core|intros path].
    apply same_bind; [by apply same_modify|intros _]. apply IH. }
  unfold vf_register, register_port.
  repeat first [apply same_ret | apply same_throw | apply same_gets | apply on_topo_core | apply Hr
               | (by apply same_modify) | (apply same_bind; [|intros ?]) | case_match].
Qed.

Lemma vf_unregister_core : keeps (same vf_core) vf_unregister.
Proof.
  unfold vf_unregister.
  repeat first [apply same_ret | apply same_throw | apply same_gets
               | (by apply same_modify) | (apply same_bind; [|intros ?]) | case_match].
Qed.

(** A driver method keeps the face of its device, and what [detach] answers is an
    index to release. *)
Definition face_kept {D} (inj : D -> DeviceType) (p p' : Plug D H) : Prop :=
  face (inj (pl_dev p')) = face (inj (pl_dev p)).
Definition attach_keeps {D} (inj : D -> DeviceType) (m : eff (Plug D H) DevError unit) : Prop :=
  forall p, wp m (fun _ p' => face_kept inj p p') p.
Definition detach_keeps {D} (inj : D -> DeviceType) (m : eff (Plug D H) DevError (option Z)) : Prop :=
  forall p, wp m (fun r p' => face_kept inj p p' /\ detach_answer (inj (pl_dev p)) r) p.

Lemma wp_add_frame d h (Q : result DevError DeviceType -> H -> Prop) :
  (forall h' d', add_frame d d' -> Q (Ok d') h') -> (forall h' e, Q (Err e) h') -> wp (hv_add_device d) Q h.
Proof. intros HOk HErr r h' E. destruct r as [d'|e]; [|by apply HErr]. apply HOk. by eapply hv_add_frame. Qed.

Lemma wp_any {S E A} (m : eff S E A) (Q : result E A -> S -> Prop) s : (forall r s', Q r s') -> wp m Q s.
Proof. by intros HQ r s' _. Qed.

Lemma blk_attach_keeps : attach_keeps Block blk_attach.
Proof.
  intros [d t h]. unfold blk_attach, blk_count, on_dev, on_hv.
  wp_steps. apply wp_increase; intros _; cbn; [|done]. destruct (_ =? _); cbn; wp_steps; [|done].
  apply wp_add_frame; cbn.
  - intros h' d' Hf. destruct d'; wp_steps; try done. destruct Hf as (E1 & E2 & E3). cbn in *.
    unfold face_kept, face. cbn. by rewrite E1, E2, E3.
  - intros h' e. wp_steps. by apply wp_decrease; intros _; cbn; wp_steps.
Qed.

Lemma blk_detach_keeps : detach_keeps Block blk_detach.
Proof.
  intros [d t h]. unfold blk_detach, blk_count, on_dev, on_hv.
  wp_steps. apply wp_decrease; intros _; cbn; [|done]. destruct (_ =? _); cbn; wp_steps; [|done].
  apply wp_any. intros [[]|e] h'; wp_steps; [split; [done|by right]|]. by apply wp_increase; intros _; cbn; wp_steps.
Qed.

Lemma vub_attach_keeps : attach_keeps VhostUserBlk vub_attach.
Proof.
  intros [d t h]. unfold vub_attach, vub_count, on_dev, on_hv.
  wp_steps. apply wp_increase; intros _; cbn; [|done]. destruct (_ =? _); cbn; wp_steps; [|done].
  apply wp_any. intros [d'|e] h'; wp_steps; [done|]. by apply wp_decrease; intros _; cbn; wp_steps.
Qed.

Lemma vub_detach_keeps : detach_keeps VhostUserBlk vub_detach.
Proof.
  intros [d t h]. unfold vub_detach, vub_count, on_dev, on_hv.
  wp_steps. apply wp_decrease; intros _; cbn; [|done]. destruct (_ =? _); cbn; wp_steps; [|done].
  apply wp_any. intros [[]|e] h'; wp_steps; [split; [done|by right]|]. by apply wp_increase; intros _; cbn; wp_steps.
Qed.

(** The face of a VFIO device is in its core. *)
Lemma vf_core_face (p p' : Plug VfioDevice H) : same vf_core p p' -> face_kept Vfio p p'.
Proof.
  unfold same, vf_core, face_kept, face. intros E. injection E as _ Ei _ Eg. cbn. by rewrite Ei, Eg.
Qed.

Lemma wp_core_face {A} (m : eff (Plug VfioDevice H) DevError A) p0 p : keeps (same vf_core) m -> face_kept Vfio p0 p ->
  wp m (fun _ p' => face_kept Vfio p0 p') p.
Proof.
  intros Hm Hp. eapply wp_mono; [by apply wp_keeps|]. intros r p' Hs. unfold face_kept in *.
  rewrite <- Hp. by apply vf_core_face.
Qed.

Lemma vf_attach_keeps : attach_keeps Vfio vf_attach.
Proof.
  intros p0. unfold vf_attach. wp_step. eapply wp_mono; [apply wp_core_face; [apply vf_register_core|done]|].
  intros r [d t h] Hp. destruct r; [|done]. unfold vf_plug_in, vf_count, on_dev, on_hv.
  wp_steps. apply wp_increase; intros _; cbn; [|done]. destruct (_ =? _); cbn; wp_steps; [|done].
  apply wp_add_frame; cbn.
  - intros h' d' Hf. destruct d'; wp_steps; (apply wp_core_face; [apply vf_register_core|]); try exact Hp.
    cbn in Hf. unfold face_kept, face in *. cbn in *. by rewrite Hf.
  - intros h' e. wp_steps. apply wp_decrease; intros _; cbn; wp_steps; [|exact Hp].
    eapply wp_mono; [apply wp_core_face; [apply vf_unregister_core|exact Hp]|]. intros r p' Hp'. by destruct r; wp_steps.
Qed.

Lemma vf_detach_keeps : detach_keeps Vfio vf_detach.
Proof.
  intros [d t h]. unfold vf_detach, vf_count, on_dev, on_hv.
  wp_steps. apply wp_decrease; intros _; cbn; [|done]. destruct (_ =? _); cbn; wp_steps; [|done].
  apply wp_any. intros [[]|e] h'; wp_steps; [|by apply wp_increase; intros _; cbn; wp_steps].
  eapply wp_mono; [apply (wp_core_face _ {| pl_dev := d; pl_topo := t; pl_hv := h |});
    [apply vf_unregister_core|done]|]. intros r p' Hp'. destruct r; wp_steps; (split; [done|]); [|done]. cbn.
  destruct (vc_virt_path (vf_config d)) as [[i s]|]; cbn; [by right|done].
Qed.

Lemma plain_attach_keeps {D} (inj : D -> DeviceType) : attach_keeps inj (plain_attach inj).
Proof. intros p. unfold plain_attach, on_hv. wp_steps. apply wp_any. by intros [] h'; wp_steps. Qed.

Lemma port_attach_keeps : attach_keeps PortDevice port_attach.
Proof.
  intros p. unfold port_attach. wp_steps. destruct (pl_topo p) as [t|] eqn:Et; cbn; rewrite ?Et; wp_steps; [|done].
  eapply (wp_mono _ (fun r p' => pl_dev p' = pl_dev p)).
  { destruct (pc_port_type _); [by wp_steps|..]; unfold on_topo; wp_step; by intros r t'. }
  intros r p1 Hd. destruct r; [|unfold face_kept; by rewrite Hd]. wp_steps.
  unfold plain_attach, on_hv. wp_steps. apply wp_any. intros [] h'; wp_steps; unfold face_kept, face; cbn; by rewrite Hd.
Qed.

Lemma net_detach_keeps : detach_keeps Network net_detach.
Proof. intros p. unfold net_detach, on_hv. wp_steps. apply wp_any. intros [] h'; wp_steps; split; try done. by left. Qed.
Lemma vun_detach_keeps : detach_keeps VhostUserNetwork vun_detach.
Proof. intros p. unfold vun_detach, on_hv. wp_steps. apply wp_any. intros [] h'; wp_steps; split; try done. by left. Qed.
Lemma no_detach_keeps {D} (inj : D -> DeviceType) : detach_keeps inj (mret None).
Proof. intros p. by wp_steps. Qed.

Lemma wp_run_driver {D A} (inj : D -> DeviceType) d (m : eff (Plug D H) DevError A) Q p :
  wp m (fun r p' => Q r (set_dev (inj (pl_dev p')) p')) (set_dev d p) -> wp (run_driver inj d m) Q p.
Proof.
  intros Hm r p' E. unfold run_driver in E. destruct (m (set_dev d p)) as [[r1 p1]|] eqn:E1; [|done].
  injection E as <- <-. by apply Hm.
Qed.

Lemma dyn_attach_keeps p : wp dyn_attach (fun _ p' => face (pl_dev p') = face (pl_dev p)) p.
Proof.
  assert (Hgo : forall D (inj : D -> DeviceType) d m, attach_keeps inj m -> pl_dev p = inj d ->
            wp (run_driver inj d m) (fun _ p' => face (pl_dev p') = face (pl_dev p)) p).
  { intros D inj d m Hm ->. apply wp_run_driver. eapply wp_mono; [apply Hm|done]. }
  unfold dyn_attach, dyn_call. wp_steps. cbn. destruct (pl_dev p) eqn:Hd; (eapply Hgo; [|done..]);
    auto using blk_attach_keeps, vub_attach_keeps, vf_attach_keeps, port_attach_keeps;
    match goal with |- attach_keeps ?inj _ => apply (plain_attach_keeps inj) end.
Qed.

Lemma dyn_detach_keeps p :
  wp dyn_detach (fun r p' => face (pl_dev p') = face (pl_dev p) /\ detach_answer (pl_dev p) r) p.
Proof.
  assert (Hgo : forall D (inj : D -> DeviceType) d m, detach_keeps inj m -> pl_dev p = inj d ->
            wp (run_driver inj d m) (fun r p' => face (pl_dev p') = face (pl_dev p) /\ detach_answer (pl_dev p) r) p).
  { intros D inj d m Hm ->. apply wp_run_driver. eapply wp_mono; [apply Hm|done]. }
  unfold dyn_detach, dyn_call. wp_steps. cbn. destruct (pl_dev p) eqn:Hd; (eapply Hgo; [|done..]);
    auto using blk_detach_keeps, vub_detach_keeps, vf_detach_keeps, net_detach_keeps, vun_detach_keeps;
    match goal with |- detach_keeps ?inj _ => apply (no_detach_keeps inj) end.
Qed.
End faces.

(** ** The counters and the record *)

Section drivers.
Context {HO : HashOrder} {H : Type} {HV : Hypervisor H} {HF : HypervisorFrame H} {HL : PlugLaws H}.

(** The counter agrees with the record. *)
Definition plug_ok (d : DeviceType) (h : H) : Prop :=
  forall c, counter d = Some c -> 0 <= c /\ (0 < c <-> dev_id d ∈ plugged h).

(** Other devices stay where they are. *)
Definition others_same (id : string) (h h' : H) : Prop :=
  forall x, x <> id -> (x ∈ plugged h' <-> x ∈ plugged h).

Lemma others_refl id h : others_same id h h.
Proof. done. Qed.

Lemma others_add d h r h' : hv_add_device d h = Ret (r, h') -> others_same (dev_id d) h h'.
Proof. intros E%hv_add_plug x Hx. rewrite E. destruct r; set_solver. Qed.

Lemma others_remove d h r h' : hv_remove_device d h = Ret (r, h') -> others_same (dev_id d) h h'.
Proof. intros E%hv_remove_plug x Hx. rewrite E. destruct r; set_solver. Qed.

(** The state after a driver method. *)
Definition attach_post (p p' : Plug DeviceType H) : Prop :=
  face (pl_dev p') = face (pl_dev p) /\ others_same (dev_id (pl_dev p)) (pl_hv p) (pl_hv p') /\
  (plug_ok (pl_dev p) (pl_hv p) -> plug_ok (pl_dev p') (pl_hv p')).

(** [attach_post] for a driver. *)
Definition drv_post {D} (inj : D -> DeviceType) (p p' : Plug D H) : Prop :=
  attach_post (set_dev (inj (pl_dev p)) p) (set_dev (inj (pl_dev p')) p').
Definition driver_ok {D A} (inj : D -> DeviceType) (m : eff (Plug D H) DevError A) : Prop :=
  forall p, wp m (fun _ p' => drv_post inj p p') p.

(** The hypervisor's answers. *)
Lemma wp_add d h (Q : result DevError DeviceType -> H -> Prop) :
  (forall h' d', add_frame d d' -> others_same (dev_id d) h h' -> dev_id d ∈ plugged h' -> Q (Ok d') h') ->
  (forall h' e, plugged h' = plugged h -> Q (Err e) h') -> wp (hv_add_device d) Q h.
Proof.
  intros HOk HErr r h' E. pose proof (hv_add_plug _ _ _ _ E) as Hp. destruct r as [d'|e]; [|by apply HErr].
  apply HOk; [by eapply hv_add_frame|by eapply others_add|set_solver].
Qed.

Lemma wp_remove d h (Q : result DevError unit -> H -> Prop) :
  (forall h', others_same (dev_id d) h h' -> (dev_id d ∉ plugged h') -> Q (Ok tt) h') ->
  (forall h' e, plugged h' = plugged h -> Q (Err e) h') -> wp (hv_remove_device d) Q h.
Proof.
  intros HOk HErr r h' E. pose proof (hv_remove_plug _ _ _ _ E) as Hp. destruct r as [[]|e]; [|by apply HErr].
  apply HOk; [by eapply others_remove|set_solver].
Qed.

Lemma post_counted {D} (inj : D -> DeviceType) p p' c c' :
  face (inj (pl_dev p')) = face (inj (pl_dev p)) ->
  counter (inj (pl_dev p)) = Some c -> counter (inj (pl_dev p')) = Some c' ->
  others_same (dev_id (inj (pl_dev p))) (pl_hv p) (pl_hv p') ->
  (0 <= c -> (0 < c <-> dev_id (inj (pl_dev p)) ∈ plugged (pl_hv p)) ->
   0 <= c' /\ (0 < c' <-> dev_id (inj (pl_dev p')) ∈ plugged (pl_hv p'))) -> drv_post inj p p'.
Proof.
  intros Hf Hc Hc' Ho Hi. split; [done|]. split; [done|]. intros Hok c2 Hc2. cbn in Hc2.
  destruct (Hok _ Hc). naive_solver.
Qed.

Lemma others_eq id h h' : plugged h' = plugged h -> others_same id h h'.
Proof. intros E x Hx. by rewrite E. Qed.

(** Finish a branch of a driver with a counter. *)
Ltac plug_iff :=
  repeat match goal with E : plugged _ = plugged _ |- _ => rewrite E end;
  first [ match goal with Hp : _ <-> ?X |- _ <-> ?X => rewrite <- Hp; lia end
        | by (split; intros ?; first [done | lia]) ].
Ltac counted :=
  eapply post_counted; cbn;
  [ try reflexivity | reflexivity | reflexivity | first [by apply others_eq | done]
  | let H0 := fresh in let Hp := fresh in intros H0 Hp; split; [lia | plug_iff] ].

Lemma blk_attach_ok : driver_ok Block blk_attach.
Proof.
  intros [d t h].
  unfold blk_attach, blk_count, on_dev, on_hv.
  wp_steps. apply wp_increase; intros Hc; cbn; [|by counted].
  destruct (Z.eqb_spec (blk_attach_count d + 1) 1) as [E|E]; cbn; wp_steps; [|by counted].
  apply wp_add; cbn.
  - intros h' d' Hf Ho Hin. destruct d'; wp_steps; cbn; counted.
    destruct Hf as (E1 & E2 & E3). cbn in *. unfold face. cbn. by rewrite E1, E2, E3.
  - intros h' e Ep. wp_steps. apply wp_decrease; intros Hc'; cbn in Hc' |- *; wp_steps; counted.
Qed.

Lemma blk_detach_ok : driver_ok Block blk_detach.
Proof.
  intros [d t h].
  unfold blk_detach, blk_count, on_dev, on_hv.
  wp_steps. apply wp_decrease; intros Hc; cbn in Hc |- *; [|counted].
  destruct (Z.eqb_spec (blk_attach_count d - 1) 0) as [E|E]; cbn; wp_steps; [|counted].
  apply wp_remove; cbn.
  - intros h' Ho Hin. wp_steps. cbn. counted.
  - intros h' e Ep. wp_steps. apply wp_increase; intros Hc'; unfold u64_max in Hc'; cbn in Hc' |- *; wp_steps; counted.
Qed.

Lemma vub_attach_ok : driver_ok VhostUserBlk vub_attach.
Proof.
  intros [d t h].
  unfold vub_attach, vub_count, on_dev, on_hv.
  wp_steps. apply wp_increase; intros Hc; cbn; [|by counted].
  destruct (Z.eqb_spec (vub_attach_count d + 1) 1) as [E|E]; cbn; wp_steps;
    [|by counted].
  apply wp_add; cbn.
  - intros h' d' Hf Ho Hin. wp_steps. counted.
  - intros h' e Ep. wp_steps. apply wp_decrease; intros Hc'; cbn in Hc' |- *; wp_steps; counted.
Qed.

Lemma vub_detach_ok : driver_ok VhostUserBlk vub_detach.
Proof.
  intros [d t h].
  unfold vub_detach, vub_count, on_dev, on_hv.
  wp_steps. apply wp_decrease; intros Hc; cbn in Hc |- *; [|counted].
  destruct (Z.eqb_spec (vub_attach_count d - 1) 0) as [E|E]; cbn; wp_steps; [|counted].
  apply wp_remove; cbn.
  - intros h' Ho Hin. wp_steps. cbn. counted.
  - intros h' e Ep. wp_steps. apply wp_increase; intros Hc'; unfold u64_max in Hc'; cbn in Hc' |- *; wp_steps; counted.
Qed.

Lemma post_refl {D} (inj : D -> DeviceType) p : drv_post inj p p.
Proof. done. Qed.

Lemma post_trans {D} (inj : D -> DeviceType) p1 p2 p3 :
  drv_post inj p1 p2 -> drv_post inj p2 p3 -> drv_post inj p1 p3.
Proof.
  intros (Hf & Ho & Hk) (Hf' & Ho' & Hk'). split; [by rewrite Hf'|]. split; [|by auto].
  intros x Hx. rewrite (Ho' x), (Ho x); [done|done|]. by rewrite (face_id _ _ Hf).
Qed.

(** The face of a VFIO device is in its core. *)
Lemma vf_core_post p p' : same vf_core p p' -> drv_post Vfio p p'.
Proof.
  unfold same, vf_core. destruct p as [d t h], p' as [d' t' h']. cbn. intros E. injection E as -> Ei Ec Eg.
  split; [|split; [done|]]; cbn.
  - unfold face. cbn. by rewrite Ei, Eg.
  - intros Hp c Hc. cbn in Hc. rewrite Ec in Hc. cbn. rewrite Ei. by apply Hp.
Qed.

Lemma wp_core {A} (m : eff (Plug VfioDevice H) DevError A) p0 p : keeps (same vf_core) m -> drv_post Vfio p0 p ->
  wp m (fun _ p' => drv_post Vfio p0 p') p.
Proof.
  intros Hm Hp. eapply wp_mono; [by apply wp_keeps|]. intros r p' Hs. eapply post_trans; [exact Hp|].
  by apply vf_core_post.
Qed.

Lemma vf_plug_in_ok : driver_ok Vfio vf_plug_in.
Proof.
  intros [d t h]. unfold vf_plug_in, vf_count, on_dev, on_hv.
  wp_steps. apply wp_increase; intros Hc; cbn; [|by counted].
  destruct (Z.eqb_spec (vf_attach_count d + 1) 1) as [E|E]; cbn; wp_steps; [|by counted].
  apply wp_add; cbn.
  - intros h' d' Hf Ho Hin. wp_steps. destruct d'; wp_steps; cbn; (apply wp_core; [apply vf_register_core|]); counted.
    cbn in Hf. unfold face. cbn. by rewrite Hf.
  - intros h' e Ep. wp_steps. apply wp_decrease; intros Hc'; cbn in Hc' |- *; wp_steps; [|counted].
    eapply wp_mono; [apply (wp_core _ {| pl_dev := d; pl_topo := t; pl_hv := h |});
      [apply vf_unregister_core|counted]|]. intros r p' Hp. by destruct r; wp_steps.
Qed.

Lemma vf_attach_ok : driver_ok Vfio vf_attach.
Proof.
  intros p. unfold vf_attach. wp_step. eapply wp_mono; [apply wp_core; [apply vf_register_core|apply post_refl]|].
  intros r p1 Hp. destruct r; [|done]. eapply wp_mono; [apply vf_plug_in_ok|]. intros r p'. by apply post_trans.
Qed.

Lemma vf_detach_ok : driver_ok Vfio vf_detach.
Proof.
  intros [d t h].
  unfold vf_detach, vf_count, on_dev, on_hv.
  wp_steps. apply wp_decrease; intros Hc; cbn in Hc |- *; [|counted].
  destruct (Z.eqb_spec (vf_attach_count d - 1) 0) as [E|E]; cbn; wp_steps; [|counted].
  apply wp_remove; cbn.
  - intros h' Ho Hin. wp_steps. eapply wp_mono; [apply (wp_core _ {| pl_dev := d; pl_topo := t; pl_hv := h |});
      [apply vf_unregister_core|counted]|]. intros r p' Hpost.
    by destruct r; wp_steps.
  - intros h' e Ep. wp_steps. apply wp_increase; intros Hc'; unfold u64_max in Hc'; cbn in Hc' |- *; wp_steps;
      counted.
Qed.

(** *** Devices without a counter *)

Lemma post_plain {D} (inj : D -> DeviceType) p p' :
  counter (inj (pl_dev p)) = None -> face (inj (pl_dev p')) = face (inj (pl_dev p)) ->
  others_same (dev_id (inj (pl_dev p))) (pl_hv p) (pl_hv p') -> drv_post inj p p'.
Proof.
  intros Hn Hf Ho. split; [done|]. split; [done|]. intros _ c Hc. cbn in Hc.
  apply (f_equal (fun x => x.1.2)) in Hf. cbn in Hf. rewrite Hn, Hc in Hf. done.
Qed.

Lemma wp_add_other d h (Q : result DevError DeviceType -> H -> Prop) :
  (forall r h', others_same (dev_id d) h h' -> Q r h') -> wp (hv_add_device d) Q h.
Proof. intros HQ r h' E. apply HQ. by eapply others_add. Qed.

Lemma plain_attach_ok {D} (inj : D -> DeviceType) : (forall d, counter (inj d) = None) ->
  driver_ok inj (plain_attach inj).
Proof.
  intros Hn p. unfold plain_attach, on_hv. wp_steps. apply wp_add_other. intros r h' Ho.
  destruct r; wp_steps; by apply post_plain.
Qed.

Lemma port_attach_ok : driver_ok PortDevice port_attach.
Proof.
  intros p.
  assert (Hr : forall p', pl_hv p' = pl_hv p -> ppd_device_id (pl_dev p') = ppd_device_id (pl_dev p) ->
            drv_post PortDevice p p').
  { intros p' Hh Hi. apply post_plain; [done| |by rewrite Hh]. unfold face. cbn. by rewrite Hi. }
  assert (Ht : forall t m, wp (on_topo t m) (fun (r : result DevError unit) p' =>
            pl_hv p' = pl_hv p /\ pl_dev p' = pl_dev p) p).
  { intros t m. unfold on_topo. wp_step. by intros r t'. }
  unfold port_attach. wp_steps. destruct (pl_topo p) as [t|] eqn:Et; cbn; rewrite ?Et; wp_steps; [|by apply Hr].
  eapply (wp_mono _ (fun r p' => pl_hv p' = pl_hv p /\ pl_dev p' = pl_dev p)).
  { destruct (pc_port_type _); [by wp_steps|apply Ht..]. }
  intros r p1 [Hh Hd]. destruct r; [|apply Hr; by rewrite ?Hd]. wp_steps.
  unfold plain_attach, on_hv. wp_steps. apply wp_add_other. intros r h' Ho. cbn in Ho.
  rewrite Hd, Hh in Ho. destruct r; wp_steps; (apply post_plain; [done| |done]); unfold face; cbn; by rewrite Hd.
Qed.

Lemma net_detach_ok : driver_ok Network net_detach.
Proof.
  intros p. unfold net_detach, on_hv. wp_steps. intros r h' E%others_remove.
  destruct r; wp_steps; by apply post_plain.
Qed.
Lemma vun_detach_ok : driver_ok VhostUserNetwork vun_detach.
Proof.
  intros p. unfold vun_detach, on_hv. wp_steps. intros r h' E%others_remove.
  destruct r; wp_steps; by apply post_plain.
Qed.
Lemma no_detach_ok {D} (inj : D -> DeviceType) : driver_ok inj (mret (@None Z)).
Proof. intros p. wp_steps. apply post_refl. Qed.

(** *** Dynamic dispatch *)

Lemma wp_dyn {D A} (inj : D -> DeviceType) d (m : eff (Plug D H) DevError A) p : driver_ok inj m -> pl_dev p = inj d ->
  wp (run_driver inj d m) (fun _ p' => attach_post p p') p.
Proof.
  intros Hm Hd. apply wp_run_driver. eapply wp_mono; [apply Hm|].
  intros r p' Hpost. unfold drv_post in Hpost. cbn in Hpost. rewrite <- Hd in Hpost.
  destruct p as [dv tp h]. cbn in Hd. by subst dv.
Qed.

Lemma dyn_attach_ok p : wp dyn_attach (fun _ p' => attach_post p p') p.
Proof.
  unfold dyn_attach, dyn_call. wp_steps. cbn. destruct (pl_dev p) eqn:Hd; (eapply wp_dyn; [|done..]);
    auto using blk_attach_ok, vub_attach_ok, vf_attach_ok, port_attach_ok;
    match goal with |- driver_ok ?inj _ => by apply (plain_attach_ok inj) end.
Qed.

Lemma dyn_detach_ok p : wp dyn_detach (fun _ p' => attach_post p p') p.
Proof.
  unfold dyn_detach, dyn_call. wp_steps. cbn. destruct (pl_dev p) eqn:Hd; (eapply wp_dyn; [|done..]);
    auto using blk_detach_ok, vub_detach_ok, vf_detach_ok, net_detach_ok, vun_detach_ok;
    match goal with |- driver_ok ?inj _ => apply (no_detach_ok inj) end.
Qed.
End drivers.
