(* ===== verification/DeviceManager.v ===== *)
(** * The device manager of the shim

    Model of src/runtime-rs/crates/hypervisor/src/device/device_manager.rs and
    of the drive names and host paths of device/util.rs.  The manager keeps the
    devices of a sandbox by identifier and hands out the indexes from which the
    guest names of drives are made.  Random bytes and the contents of sysfs are
    arguments ([NewEnv]). *)
From stdpp Require Import strings pretty gmap sorting.
From S2P Require Import Prelude Effects PciPath PcieTopology DeviceDrivers.

(** ** Names of drives (util.rs) *)

Definition as_i32 (x : Z) : Z := (x + 2 ^ 31) mod 2 ^ 32 - 2 ^ 31.

(** The loop of [get_virt_drive_name]: the letters in the order they are written
    to [disk_letters], and the index that is left. *)
Fixpoint drive_letters (suff_len : nat) (index : Z) : list Z * Z :=
  match suff_len with
  | O => ([], index)
  | S n =>
      if 0 <=? index then
        let '(rest, after) := drive_letters n (Z.quot index 26 - 1) in
        (97 + as_u8 (Z.rem index 26) :: rest, after)
      else ([], index)
  end.

Definition string_of_codes (l : list Z) : string :=
  String.string_of_list_ascii ((fun c => Ascii.ascii_of_nat (Z.to_nat c)) <$> l).

Definition get_virt_drive_name (index : Z) : result DevError string :=
  if index <? 0 then Err NegativeIndex
  else let '(letters, after) := drive_letters 30 index in
       if 0 <=? after then Err IndexTooLarge
       else Ok (String.append "vd" (string_of_codes (reverse letters))).

(** [get_host_path]; [uevent] is the name of the device in a uevent file. *)
Definition get_host_path (uevent : string -> result DevError string) (dev_type : string) (major minor : Z)
    : result DevError string :=
  let path comp :=
    match uevent (String.append "/sys/dev/" (String.append comp (String.append "/" (String.append (pretty major)
            (String.append ":" (String.append (pretty minor) "/uevent")))))) with
    | Ok dev_name => Ok (String.append "/dev/" dev_name)
    | Err e => Err e
    end in
  if bool_decide (dev_type = "c") || bool_decide (dev_type = "u") then path "char"
  else if bool_decide (dev_type = "b") then path "block"
  else Ok EmptyString.

(** ** Indexes *)

Record SharedInfo := {
  si_pmem_index : Z; si_block_index : Z; si_released_pmem_index : list Z; si_released_block_index : list Z
}.

Definition SharedInfo_new : SharedInfo :=
  {| si_pmem_index := 0; si_block_index := 0; si_released_pmem_index := []; si_released_block_index := [] |}.

(** The counter and the released indexes of a kind of device. *)
Definition si_index (is_pmem : bool) (si : SharedInfo) : Z :=
  if is_pmem then si_pmem_index si else si_block_index si.
Definition si_released (is_pmem : bool) (si : SharedInfo) : list Z :=
  if is_pmem then si_released_pmem_index si else si_released_block_index si.
Definition set_index (is_pmem : bool) (index : Z) (released : list Z) (si : SharedInfo) : SharedInfo :=
  if is_pmem then
    {| si_pmem_index := index; si_block_index := si_block_index si; si_released_pmem_index := released;
       si_released_block_index := si_released_block_index si |}
  else
    {| si_pmem_index := si_pmem_index si; si_block_index := index;
       si_released_pmem_index := si_released_pmem_index si; si_released_block_index := released |}.

(** [declare_index!]: [Vec::pop] takes from the end. *)
Definition declare_device_index (is_pmem : bool) : eff SharedInfo DevError Z := fun si =>
  let index := si_index is_pmem si in
  let released := si_released is_pmem si in
  match uadd u64_max index 1 with
  | Panic => Panic
  | Ret next =>
      match last released with
      | Some i => Ret (Ok i, set_index is_pmem next (removelast released) si)
      | None => Ret (Ok index, set_index is_pmem next released si)
      end
  end.

(** [release_index!]: push and sort in decreasing order. *)
Definition release_device_index (i : Z) (is_pmem : bool) (si : SharedInfo) : SharedInfo :=
  set_index is_pmem (si_index is_pmem si) (merge_sort (flip Z.le) (si_released is_pmem si ++ [i])) si.

(** ** The manager *)

Inductive DeviceConfig :=
| BlockCfg (c : BlockConfig)
| VhostUserBlkCfg (c : VhostUserConfig)
| NetworkCfg (c : NetworkConfig)
| VhostUserNetworkCfg (c : VhostUserConfig)
| ShareFsCfg (c : ShareFsConfig)
| VfioCfg (c : VfioConfig)
| VsockCfg (guest_cid : Z)
| HybridVsockCfg (guest_cid : Z) (uds_path : string)
| ProtectionDevCfg (c : ProtectionDeviceConfig)
| PortDeviceCfg (c : PortDeviceConfig).

(** What [new_device] asks the system: random bytes, uevent files and the host
    devices of a VFIO group. *)
Record NewEnv := {
  ne_random : nat -> list Z;
  ne_uevent : string -> result DevError string;
  ne_hostdevs : VfioConfig -> result DevError (list HostDevice)
}.

Record DeviceManager (H : Type) := {
  dm_devices : gmap string DeviceType; dm_hypervisor : H; dm_shared_info : SharedInfo;
  dm_topology : option PCIeTopology
}.
Arguments dm_devices {_}.
Arguments dm_hypervisor {_}.
Arguments dm_shared_info {_}.
Arguments dm_topology {_}.

Definition DeviceManager_new {H} (h : H) (topo_config : option TopologyConfigInfo) : DeviceManager H :=
  {| dm_devices := ∅; dm_hypervisor := h; dm_shared_info := SharedInfo_new;
     dm_topology := PCIeTopology_new topo_config |}.

Definition set_devices {H} (d : gmap string DeviceType) (s : DeviceManager H) : DeviceManager H :=
  {| dm_devices := d; dm_hypervisor := dm_hypervisor s; dm_shared_info := dm_shared_info s;
     dm_topology := dm_topology s |}.
Definition set_shared_info {H} (si : SharedInfo) (s : DeviceManager H) : DeviceManager H :=
  {| dm_devices := dm_devices s; dm_hypervisor := dm_hypervisor s; dm_shared_info := si;
     dm_topology := dm_topology s |}.

Definition set_hypervisor {H} (h : H) (s : DeviceManager H) : DeviceManager H :=
  {| dm_devices := dm_devices s; dm_hypervisor := h; dm_shared_info := dm_shared_info s;
     dm_topology := dm_topology s |}.

Definition is_nvdimm (c : BlockConfig) : bool := bool_decide (bc_driver_option c = "nvdimm").

(** [{:x}] of [RandomBytes]: no leading zero of a byte. *)
Definition hex_bytes (l : list Z) : string :=
  foldr (fun b s => String.append (if b <? 16 then hexn 1 b else hexn 2 b) s) EmptyString l.

(** The host path by which [find_device] knows a device. *)
Definition host_path_of (d : DeviceType) : option string :=
  match d with
  | Block d => Some (bc_path_on_host (blk_config d))
  | Vfio d => Some (vc_host_path (vf_config d))
  | VhostUserBlk d => Some (vu_socket_path (vub_config d))
  | Network d => Some (nc_host_dev_name (net_config d))
  | ShareFs d => Some (fc_host_shared_path (fs_config d))
  | VhostUserNetwork d => Some (vu_socket_path (vun_config d))
  | HybridVsock _ | Vsock _ | Protection _ | PortDevice _ => None
  end.

Section manager.
Context {HO : HashOrder} {H : Type} {HV : Hypervisor H}.
#[local] Abbreviation dm A := (eff (DeviceManager H) DevError A).

Definition release (i : Z) (is_pmem : bool) : dm unit :=
  modify (fun s => set_shared_info (release_device_index i is_pmem (dm_shared_info s)) s).
Definition forget (device_id : string) : dm unit :=
  modify (fun s => set_devices (delete device_id (dm_devices s)) s).

(** Lock a device and call one of its methods; the device stays in the map. *)
Definition with_device {A} (device_id : string) (d : DeviceType) (m : eff (Plug DeviceType H) DevError A)
    : dm (result DevError A) := fun s =>
  match m {| pl_dev := d; pl_topo := dm_topology s; pl_hv := dm_hypervisor s |} with
  | Panic => Panic
  | Ret (r, p) =>
      Ret (Ok r, {| dm_devices := <[device_id := pl_dev p]> (dm_devices s); dm_hypervisor := pl_hv p;
                    dm_shared_info := dm_shared_info s; dm_topology := pl_topo p |})
  end.

(** [self.devices.get(device_id)] *)
Definition lookup_device (device_id : string) : dm DeviceType :=
  s ← gets id;
  match dm_devices s !! device_id with Some d => mret d | None => throw DeviceNotFound end.

(** The release of the index of a device that could not be attached. *)
Definition release_failed (d : DeviceType) : dm unit :=
  match d with
  | Block d => release (bc_index (blk_config d)) (is_nvdimm (blk_config d))
  | Vfio d =>
      if bool_decide (vc_dev_type (vf_config d) = "b") then
        v ← expect (vc_virt_path (vf_config d)); release v.1 false
      else mret tt
  | VhostUserBlk d => release (vu_index (vub_config d)) false
  | _ => mret tt
  end.

Definition try_add_device (device_id : string) : dm unit :=
  d ← lookup_device device_id;
  result ← with_device device_id d dyn_attach;
  match result with
  | Ok _ => mret tt
  | Err e =>
      d ← lookup_device device_id;
      _ ← release_failed d;
      _ ← forget device_id;
      throw e
  end.

Definition try_remove_device (device_id : string) : dm unit :=
  d ← lookup_device device_id;
  result ← with_device device_id d dyn_detach;
  match result with
  | Ok index =>
      d ← lookup_device device_id;
      _ ← (match index with
           | Some i => release i (match d with Block blk => is_nvdimm (blk_config blk) | _ => false end)
           | None => mret tt
           end);
      forget device_id
  | Err e => throw e
  end.

Definition dm_get_device_info (device_id : string) : dm DeviceType := lookup_device device_id.

Definition dm_find_device (host_path : string) (s : DeviceManager H) : option string :=
  fst <$> List.find (fun kv => bool_decide (host_path_of kv.2 = Some host_path)) (hash_iter (dm_devices s)).

Definition get_dev_virt_path (dev_type : string) (is_pmem : bool) : dm (option (Z * string)) :=
  if bool_decide (dev_type = "b") then
    current_index ← zoom dm_shared_info set_shared_info (declare_device_index is_pmem);
    drive_name ←
      (if is_pmem then mret (String.append "pmem" (pretty current_index))
       else match get_virt_drive_name (as_i32 current_index) with Ok n => mret n | Err e => throw e end);
    mret (Some (current_index, String.append "/dev/" drive_name))
  else mret None.

Definition new_device_id (env : NewEnv) (s : DeviceManager H) : result DevError string :=
  match List.find (fun id => bool_decide (dm_devices s !! id = None)) (hex_bytes ∘ ne_random env <$> seq 0 5) with
  | Some id => Ok id
  | None => Err IdsExhausted
  end.

(** [VIRTIO_BLOCK_MMIO] and the other drivers a sandbox can name, in kata's own names. *)
Definition vhost_blk_driver (driver : string) : option string :=
  if bool_decide (driver = "virtio-blk-mmio") then Some "mmioblk"
  else if bool_decide (driver = "virtio-blk-pci") then Some "blk"
  else None.
Definition blk_driver (driver : string) : option (string * bool) :=
  if bool_decide (driver = "virtio-blk-mmio") then Some ("mmioblk", false)
  else if bool_decide (driver = "virtio-blk-pci") then Some ("blk", false)
  else if bool_decide (driver = "virtio-blk-ccw") then Some ("blk-ccw", false)
  else if bool_decide (driver = "virtio-pmem") then Some ("nvdimm", true)
  else if bool_decide (driver = "virtio-scsi") then Some ("scsi", false)
  else None.

Definition create_vhost_blk_device (c : VhostUserConfig) (device_id : string) : dm DeviceType :=
  match vhost_blk_driver (vu_driver_option c) with
  | None => throw UnsupportedDriver
  | Some driver =>
      virt_path ← get_dev_virt_path "b" false;
      let '(i, path) := default (vu_index c, vu_virt_path c) virt_path in
      mret (VhostUserBlk {| vub_device_id := device_id; vub_attach_count := 0;
        vub_is_readonly := false; vub_no_drop := false; vub_driver_option := EmptyString;
        vub_config := {| vu_dev_id := vu_dev_id c; vu_socket_path := vu_socket_path c;
          vu_mac_address := vu_mac_address c; vu_tag := vu_tag c; vu_cache_mode := vu_cache_mode c;
          vu_cache_size := vu_cache_size c; vu_device_type := vu_device_type c; vu_driver_option := driver;
          vu_pci_path := vu_pci_path c; vu_index := i; vu_queue_size := vu_queue_size c;
          vu_num_queues := vu_num_queues c; vu_virt_path := path |} |})
  end.

Definition create_block_device (env : NewEnv) (c : BlockConfig) (device_id : string) : dm DeviceType :=
  match blk_driver (bc_driver_option c) with
  | None => throw UnsupportedDriver
  | Some (driver, is_pmem) =>
      virt_path ← get_dev_virt_path "b" is_pmem;
      let '(i, path) := default (bc_index c, bc_virt_path c) virt_path in
      host_path ←
        (if bool_decide (bc_path_on_host c = EmptyString) then
           match get_host_path (ne_uevent env) "b" (bc_major c) (bc_minor c) with
           | Ok p => mret p
           | Err e => throw e
           end
         else mret (bc_path_on_host c));
      mret (Block {| blk_device_id := device_id; blk_attach_count := 0;
        blk_config := {| bc_path_on_host := host_path; bc_is_readonly := bc_is_readonly c;
          bc_no_drop := bc_no_drop c; bc_is_direct := bc_is_direct c; bc_index := i;
          bc_blkdev_aio := bc_blkdev_aio c; bc_driver_option := driver; bc_virt_path := path;
          bc_pci_path := bc_pci_path c; bc_scsi_addr := bc_scsi_addr c; bc_ccw_addr := bc_ccw_addr c;
          bc_attach_count := bc_attach_count c; bc_major := bc_major c; bc_minor := bc_minor c;
          bc_queue_size := bc_queue_size c; bc_num_queues := bc_num_queues c |} |})
  end.

Definition create_vfio_device (env : NewEnv) (c : VfioConfig) (device_id : string) : dm DeviceType :=
  virt_path ← get_dev_virt_path (vc_dev_type c) false;
  let c := {| vc_host_path := vc_host_path c; vc_dev_type := vc_dev_type c; vc_bus_type := vc_bus_type c;
              vc_hostdev_prefix := vc_hostdev_prefix c; vc_virt_path := virt_path |} in
  match VfioDevice_new device_id c (ne_hostdevs env c) with
  | Ok d => mret (Vfio d)
  | Err e => throw e
  end.

(** The host path under which [new_device] looks for the device first. *)
Definition config_host_path (c : DeviceConfig) : option string :=
  match c with
  | BlockCfg c => Some (bc_path_on_host c)
  | VfioCfg c => Some (vc_host_path c)
  | VhostUserBlkCfg c | VhostUserNetworkCfg c => Some (vu_socket_path c)
  | NetworkCfg c => Some (nc_host_dev_name c)
  | ShareFsCfg c => Some (fc_host_shared_path c)
  | HybridVsockCfg _ _ | VsockCfg _ | ProtectionDevCfg _ | PortDeviceCfg _ => None
  end.

Definition create_device (env : NewEnv) (c : DeviceConfig) (device_id : string) : dm DeviceType :=
  match c with
  | BlockCfg c => create_block_device env c device_id
  | VfioCfg c => create_vfio_device env c device_id
  | VhostUserBlkCfg c => create_vhost_blk_device c device_id
  | NetworkCfg c => mret (Network {| net_device_id := device_id; net_config := c |})
  | VhostUserNetworkCfg c => mret (VhostUserNetwork {| vun_device_id := device_id; vun_config := c |})
  | HybridVsockCfg cid uds =>
      mret (HybridVsock {| hvs_id := String.append "vsock-" device_id; hvs_guest_cid := cid; hvs_uds_path := uds |})
  | VsockCfg cid => mret (Vsock {| vs_id := device_id; vs_guest_cid := cid |})
  | ShareFsCfg c => mret (ShareFs {| fs_device_id := device_id; fs_config := c |})
  | ProtectionDevCfg c => mret (Protection {| pd_device_id := device_id; pd_config := c |})
  | PortDeviceCfg c =>
      mret (PortDevice {| ppd_device_id := device_id; ppd_config := c; ppd_port_devices := ∅ |})
  end.

Definition new_device (env : NewEnv) (c : DeviceConfig) : dm string :=
  s ← gets id;
  match new_device_id env s with
  | Err e => throw e
  | Ok device_id =>
      match config_host_path c ≫= fun path => dm_find_device path s with
      | Some device_matched_id => mret device_matched_id
      | None =>
          dev ← create_device env c device_id;
          _ ← modify (fun s => set_devices (<[device_id := dev]> (dm_devices s)) s);
          mret device_id
      end
  end.

(** [try_update_device]: the copy is updated, and replaces the device when the
    hypervisor agrees. *)
Definition set_mount_config (m : option ShareFsMountConfig) (d : ShareFsDevice) : ShareFsDevice :=
  {| fs_device_id := fs_device_id d;
     fs_config := {| fc_host_shared_path := fc_host_shared_path (fs_config d); fc_fs_type := fc_fs_type (fs_config d);
                     fc_sock_path := fc_sock_path (fs_config d); fc_mount_tag := fc_mount_tag (fs_config d);
                     fc_queue_size := fc_queue_size (fs_config d); fc_queue_num := fc_queue_num (fs_config d);
                     fc_options := fc_options (fs_config d); fc_mount_config := m |} |}.

Definition try_update_device (c : DeviceConfig) : dm unit :=
  match c with
  | ShareFsCfg c =>
      s ← gets id;
      match dm_find_device (fc_host_shared_path c) s with
      | None => throw DeviceNotFound
      | Some device_id =>
          target ← lookup_device device_id;
          match target with
          | ShareFs d =>
              let d := set_mount_config (fc_mount_config c) d in
              _ ← zoom (fun s => {| pl_dev := d; pl_topo := dm_topology s; pl_hv := dm_hypervisor s |})
                    (fun p => set_hypervisor (pl_hv p)) update;
              modify (fun s => set_devices (<[device_id := ShareFs d]> (dm_devices s)) s)
          | _ => throw UpdateUnsupported
          end
      end
  | _ => throw UpdateUnsupported
  end.

Definition do_handle_device (env : NewEnv) (c : DeviceConfig) : dm DeviceType :=
  device_id ← new_device env c;
  _ ← try_add_device device_id;
  dm_get_device_info device_id.

(** The manager as other tasks see it: it is locked for one method at a time, so
    the steps of two tasks that handle devices interleave. *)
Inductive dm_op := OpNew (env : NewEnv) (c : DeviceConfig) | OpAdd (id : string) | OpRemove (id : string)
| OpUpdate (c : DeviceConfig).

Definition dm_exec (op : dm_op) : dm unit :=
  match op with
  | OpNew env c => _ ← new_device env c; mret tt
  | OpAdd id => try_add_device id
  | OpRemove id => try_remove_device id
  | OpUpdate c => try_update_device c
  end.

(** The states reached by operations that satisfy [ok]. *)
Inductive dm_reach (ok : dm_op -> DeviceManager H -> Prop) : DeviceManager H -> Prop :=
| reach_new h topo_config : dm_reach ok (DeviceManager_new h topo_config)
| reach_step s op r s' : dm_reach ok s -> ok op s -> dm_exec op s = Ret (r, s') -> dm_reach ok s'.
End manager.
