(* ===== verification/DeviceManagerFacts.v ===== *)
(** * Facts about the device manager

    Drive names and the indexes they are made from, the invariants on indexes
    and attach counters, and the agreement of the counters with the answers of
    the hypervisor. *)
From stdpp Require Import strings pretty gmap sorting.
From S2P Require Import Prelude Effects PciPath PcieTopology DeviceDrivers DeviceManager DeviceDriversFacts.

(** ** Names *)

(** What the guest kernel means by a suffix: a number in base 26 without a zero.
    The letters are in the order the loop writes them, the last one first. *)
Fixpoint suffix_value (l : list Z) : Z :=
  match l with [] => 0 | c :: l' => (c - 96) + 26 * suffix_value l' end.

Definition letter (c : Z) : Prop := 97 <= c <= 122.

(** The index of the drive [vd<suffix>]. *)
Definition drive_index (name : string) : option Z :=
  match name with
  | String _ (String _ suffix) =>
      Some (suffix_value (reverse ((fun a => Z.of_nat (Ascii.nat_of_ascii a)) <$> String.list_ascii_of_string suffix)) - 1)
  | _ => None
  end.

Lemma drive_letters_step n i : 0 <= i ->
  drive_letters (S n) i =
    (97 + i mod 26 :: (drive_letters n (i / 26 - 1)).1, (drive_letters n (i / 26 - 1)).2).
Proof.
  intros Hi. cbn [drive_letters]. rewrite (proj2 (Z.leb_le 0 i)) by done.
  rewrite Z.quot_div_nonneg, Z.rem_mod_nonneg by lia. unfold as_u8.
  pose proof (Z.mod_pos_bound i 26). rewrite (Z.mod_small (i mod 26)) by lia.
  by destruct (drive_letters n (i / 26 - 1)).
Qed.

Lemma drive_letters_spec n i : -1 <= i < 26 ^ Z.of_nat n - 1 ->
  (drive_letters n i).2 = -1 /\ Forall letter (drive_letters n i).1 /\
  suffix_value (drive_letters n i).1 = i + 1.
Proof.
  revert i. induction n as [|n IH]; intros i Hi.
  { change (26 ^ Z.of_nat 0) with 1 in Hi. cbn. split; [lia|]. split; [constructor|lia]. }
  destruct (Z.lt_ge_cases i 0) as [Hn|Hn].
  { cbn [drive_letters]. rewrite (proj2 (Z.leb_gt 0 i)) by lia. cbn. split; [lia|]. split; [constructor|lia]. }
  rewrite drive_letters_step by lia. cbn [fst snd suffix_value].
  rewrite Nat2Z.inj_succ, Z.pow_succ_r in Hi by lia.
  pose proof (Z_div_mod_eq_full i 26). pose proof (Z.mod_pos_bound i 26).
  destruct (IH (i / 26 - 1)) as (E & HF & V); [lia|]. split; [done|]. split.
  - constructor; [unfold letter; lia|done].
  - rewrite V. lia.
Qed.

(** A suffix is what the loop makes of its value. *)
Lemma drive_letters_of_value n l : Forall letter l -> (length l <= n)%nat ->
  drive_letters n (suffix_value l - 1) = (l, -1).
Proof.
  intros HF. revert n. induction HF as [|c l Hc HF IH]; intros n Hn.
  { cbn [suffix_value]. destruct n; done. }
  destruct n as [|n]; [cbn in Hn; lia|]. cbn [suffix_value].
  assert (Hv : 0 <= suffix_value l).
  { clear -HF. induction HF as [|c l Hc HF IH]; cbn; [lia|]. unfold letter in Hc. lia. }
  unfold letter in Hc.
  assert (Hd : (c - 96 + 26 * suffix_value l - 1) / 26 = suffix_value l).
  { replace (c - 96 + 26 * suffix_value l - 1) with (suffix_value l * 26 + (c - 97)) by lia.
    rewrite Z.div_add_l, (Z.div_small (c - 97)) by lia. lia. }
  assert (Hm : (c - 96 + 26 * suffix_value l - 1) mod 26 = c - 97).
  { pose proof (Z_div_mod_eq_full (c - 96 + 26 * suffix_value l - 1) 26) as E. rewrite Hd in E. lia. }
  rewrite drive_letters_step, Hd, Hm, IH by (cbn in Hn; lia). cbn. f_equal. f_equal. lia.
Qed.

Lemma codes_of_string l : Forall letter l ->
  (fun a => Z.of_nat (Ascii.nat_of_ascii a)) <$> String.list_ascii_of_string (string_of_codes l) = l.
Proof.
  intros HF. unfold string_of_codes. rewrite String.list_ascii_of_string_of_list_ascii.
  induction HF as [|c l Hc HF IH]; cbn [fmap list_fmap]; [done|]. f_equal; [|done].
  unfold letter in Hc. rewrite Ascii.nat_ascii_embedding; lia.
Qed.

Lemma virt_drive_name_ok i : 0 <= i < 2 ^ 31 ->
  exists name, get_virt_drive_name i = Ok name /\ drive_index name = Some i.
Proof.
  intros Hi. unfold get_virt_drive_name. rewrite (proj2 (Z.ltb_ge i 0)) by lia.
  destruct (drive_letters_spec 30 i) as (E & HF & V).
  { split; [lia|]. eapply Z.lt_le_trans; [apply Hi|]. by vm_compute. }
  destruct (drive_letters 30 i) as [l r]. cbn in E, HF, V. subst r. cbn [Z.leb].
  eexists. split; [done|]. cbn [drive_index].
  change (drive_index (String.append "vd" (string_of_codes (reverse l)))) with
    (Some (suffix_value (reverse ((fun a => Z.of_nat (Ascii.nat_of_ascii a)) <$>
       String.list_ascii_of_string (string_of_codes (reverse l)))) - 1)).
  rewrite codes_of_string by (by apply Forall_reverse). rewrite reverse_involutive, V. f_equal. lia.
Qed.

(** The guest path of a drive of either kind, when the index has a name. *)
Definition virt_path (is_pmem : bool) (i : Z) : option string :=
  if is_pmem then Some (String.append "/dev/" (String.append "pmem" (pretty i)))
  else match get_virt_drive_name (as_i32 i) with Ok n => Some (String.append "/dev/" n) | Err _ => None end.

Lemma as_i32_small i : 0 <= i < 2 ^ 31 -> as_i32 i = i.
Proof. intros Hi. unfold as_i32. rewrite Z.mod_small; lia. Qed.

Lemma drive_name_head i n : get_virt_drive_name i = Ok n -> exists s, n = String (Ascii.ascii_of_nat 118) s.
Proof.
  unfold get_virt_drive_name. case_match; [done|]. destruct (drive_letters 30 i). case_match; [done|].
  intros [= <-]. by eexists.
Qed.

(** Guest paths are different for different indexes, as long as the index of a
    drive fits the 32-bit argument of [get_virt_drive_name]. *)
Lemma virt_path_inj p q i j s : (p = false -> 0 <= i < 2 ^ 31) -> (q = false -> 0 <= j < 2 ^ 31) ->
  virt_path p i = Some s -> virt_path q j = Some s -> p = q /\ i = j.
Proof.
  assert (Hname : forall i, 0 <= i < 2 ^ 31 -> exists n, virt_path false i = Some (String.append "/dev/" n) /\
            drive_index n = Some i /\ exists n', n = String (Ascii.ascii_of_nat 118) n').
  { intros k Hk. destruct (virt_drive_name_ok k Hk) as (n & En & Dn). exists n. unfold virt_path.
    rewrite as_i32_small, En by done. split; [done|]. split; [done|]. by eapply drive_name_head. }
  intros Hi Hj Ei Ej. destruct p, q.
  - cbn in Ei, Ej. injection Ei as <-. injection Ej as E. change (pretty j = pretty i) in E.
    split; [done|]. by apply (inj pretty) in E.
  - destruct (Hname j (Hj eq_refl)) as (n & En & _ & n' & ->). rewrite En, <- Ei in Ej. by injection Ej.
  - destruct (Hname i (Hi eq_refl)) as (n & En & _ & n' & ->). rewrite En, <- Ej in Ei. by injection Ei.
  - destruct (Hname i (Hi eq_refl)) as (n & En & Dn & _), (Hname j (Hj eq_refl)) as (n2 & En2 & Dn2 & _).
    rewrite En in Ei. rewrite En2 in Ej. injection Ei as <-. injection Ej as E. change (n2 = n) in E.
    split; [done|]. congruence.
Qed.

(** ** Indexes *)

Lemma si_index_set p q n l si : si_index p (set_index q n l si) = if decide (p = q) then n else si_index p si.
Proof. by destruct p, q. Qed.
Lemma si_released_set p q n l si :
  si_released p (set_index q n l si) = if decide (p = q) then l else si_released p si.
Proof. by destruct p, q. Qed.

Lemma release_perm i p si : si_released p (release_device_index i p si) ≡ₚ i :: si_released p si.
Proof.
  unfold release_device_index. rewrite si_released_set, decide_True by done.
  rewrite merge_sort_Permutation. by rewrite Permutation_app_comm.
Qed.

#[global] Instance flip_le_total : Total (flip Z.le).
Proof. intros a b. unfold flip. lia. Qed.

(** The released indexes are kept in decreasing order. *)
Lemma release_sorted i p si : Sorted (flip Z.le) (si_released p (release_device_index i p si)).
Proof.
  unfold release_device_index. rewrite si_released_set, decide_True by done.
  apply (Sorted_merge_sort (flip Z.le)).
Qed.

Lemma last_removelast {A} (l : list A) x : last l = Some x -> l = removelast l ++ [x].
Proof.
  intros Hx. destruct l as [|a l] using rev_ind; [done|]. clear IHl.
  rewrite last_snoc in Hx. injection Hx as ->. by rewrite List.removelast_last.
Qed.

Lemma release_index q i p si : si_index q (release_device_index i p si) = si_index q si.
Proof. unfold release_device_index. rewrite si_index_set. by case_decide; subst. Qed.

Lemma release_elem q j i p si :
  j ∈ si_released q (release_device_index i p si) <-> j ∈ si_released q si \/ (q = p /\ j = i).
Proof.
  destruct (decide (q = p)) as [->|Hq].
  - rewrite release_perm, elem_of_cons. naive_solver.
  - unfold release_device_index. rewrite si_released_set, decide_False by done. naive_solver.
Qed.

(** The end of the list is the smallest released index. *)
Lemma last_min l m : Sorted (flip Z.le) l -> last l = Some m -> forall j, j ∈ l -> m <= j.
Proof.
  intros Hs El j Hj. apply last_removelast in El. rewrite El in Hs, Hj.
  apply Sorted_StronglySorted in Hs; [|intros a b c; unfold flip; lia].
  apply elem_of_app in Hj as [Hj| ->%list_elem_of_singleton]; [|lia].
  eapply (StronglySorted_app_1_elem_of (flip Z.le)); [exact Hs|exact Hj|by left].
Qed.

(** * Invariants of the device manager

    The indexes of the drives in the manager are distinct, and the attach
    counters agree with the machine. *)

(** ** Indexes of drives *)

(** A pool of indexes: those released were declared before, and once. *)
Record idx_ok (is_pmem : bool) (si : SharedInfo) : Prop := {
  idx_nonneg : 0 <= si_index is_pmem si;
  idx_nodup : NoDup (si_released is_pmem si);
  idx_below i : i ∈ si_released is_pmem si -> 0 <= i < si_index is_pmem si;
}.

Definition dev_type_of (d : DeviceType) : option string :=
  match d with Vfio d => Some (vc_dev_type (vf_config d)) | _ => None end.

(** A drive has a declared index that is not released, and the path of that
    index; a VFIO device is a drive when its type is b. *)
Definition drive_ok (si : SharedInfo) (d : DeviceType) : Prop :=
  match index_of d with
  | Some (p, i) => 0 <= i < si_index p si /\ (i ∉ si_released p si) /\ virt_path_of d = virt_path p i
  | None => virt_path_of d = None
  end /\ (forall ty, dev_type_of d = Some ty -> (ty = "b" <-> is_Some (index_of d))).

Definition index_unique (m : gmap string DeviceType) : Prop :=
  forall id1 id2 d1 d2 x, m !! id1 = Some d1 -> m !! id2 = Some d2 ->
    index_of d1 = Some x -> index_of d2 = Some x -> id1 = id2.

Record drives_inv (si : SharedInfo) (m : gmap string DeviceType) : Prop := {
  di_pool p : idx_ok p si;
  di_drive id d : m !! id = Some d -> drive_ok si d;
  di_unique : index_unique m;
}.

(** No drive has the index. *)
Definition unused (m : gmap string DeviceType) (x : bool * Z) : Prop :=
  forall id d, m !! id = Some d -> index_of d <> Some x.

Lemma face_index d d' : face d' = face d -> index_of d' = index_of d.
Proof. intros Hf. exact (f_equal (fun x => x.1.1.1.1.2) Hf). Qed.

Lemma drive_ok_face si d d' : face d' = face d -> drive_ok si d -> drive_ok si d'.
Proof.
  intros Hf. unfold drive_ok. rewrite (face_index _ _ Hf).
  assert (virt_path_of d' = virt_path_of d) as -> by exact (f_equal (fun x => x.1.1.1.2) Hf).
  assert (dev_type_of d' = dev_type_of d) as -> by exact (f_equal snd Hf). done.
Qed.

Lemma inv_same_face si m id d d' : m !! id = Some d -> face d' = face d -> drives_inv si m ->
  drives_inv si (<[id := d']> m).
Proof.
  intros Hd Hf [Hp Hdr Hu]. pose proof (face_index _ _ Hf) as Hi. split; [done|..].
  - intros id2 d2 [[<- <-]|[Hne H2]]%lookup_insert_Some; [|by eapply Hdr].
    eapply drive_ok_face; [done|]. by eapply Hdr.
  - intros id1 id2 d1 d2 x [[<- <-]|[Hn1 H1]]%lookup_insert_Some [[<- <-]|[Hn2 H2]]%lookup_insert_Some Hx1 Hx2;
      try done; rewrite ?Hi in *; by eapply Hu.
Qed.

Lemma inv_delete si m id : drives_inv si m -> drives_inv si (delete id m).
Proof.
  intros [Hp Hdr Hu]. split; [done|..].
  - intros id2 d2 [? H2]%lookup_delete_Some. by eapply Hdr.
  - intros id1 id2 d1 d2 x [? H1]%lookup_delete_Some [? H2]%lookup_delete_Some. by eapply Hu.
Qed.

Lemma inv_insert si m id d : m !! id = None -> drive_ok si d -> (forall x, index_of d = Some x -> unused m x) ->
  drives_inv si m -> drives_inv si (<[id := d]> m).
Proof.
  intros Hn Hd Hun [Hp Hdr Hu]. split; [done|..].
  - intros id2 d2 [[<- <-]|[Hne H2]]%lookup_insert_Some; [done|by eapply Hdr].
  - intros id1 id2 d1 d2 x [[<- <-]|[Hn1 H1]]%lookup_insert_Some [[<- <-]|[Hn2 H2]]%lookup_insert_Some Hx1 Hx2.
    + done.
    + by destruct (Hun _ Hx1 _ _ H2).
    + by destruct (Hun _ Hx2 _ _ H1).
    + by eapply Hu.
Qed.

(** Releasing the index of a drive and forgetting the drive. *)
Lemma inv_release si m id d p i : m !! id = Some d -> index_of d = Some (p, i) -> drives_inv si m ->
  drives_inv (release_device_index i p si) (delete id m).
Proof.
  intros Hd Hi [Hp Hdr Hu]. pose proof (Hdr _ _ Hd) as [Hdd _]. rewrite Hi in Hdd. destruct Hdd as (Hr & Hni & _).
  split.
  - intros q. destruct (Hp q) as [H0 Hn Hb]. split; rewrite ?release_index; [done|..].
    + destruct (decide (q = p)) as [->|Hq].
      * rewrite release_perm. by apply NoDup_cons.
      * unfold release_device_index. by rewrite si_released_set, decide_False.
    + intros j [Hj|[-> ->]]%release_elem; [by apply Hb|done].
  - intros id2 d2 [Hne H2]%lookup_delete_Some. pose proof (Hdr _ _ H2) as [H2d H2t]. split; [|done].
    destruct (index_of d2) as [[q j]|] eqn:E2; [|done]. destruct H2d as (Hj & Hnj & Hv). rewrite release_index.
    split; [done|]. split; [|done]. intros [?|[-> ->]]%release_elem; [done|]. apply Hne. by eapply Hu.
  - intros id1 id2 d1 d2 x [? H1]%lookup_delete_Some [? H2]%lookup_delete_Some. by eapply Hu.
Qed.

(** Declaring an index: it is new, and the invariant holds with it outside of the
    released ones. *)
Lemma declare_ok p si m : drives_inv si m ->
  wp (declare_device_index p) (fun r si' => exists i, r = Ok i /\ drives_inv si' m /\
    0 <= i < si_index p si' /\ (i ∉ si_released p si') /\ unused m (p, i)) si.
Proof.
  intros [Hp Hdr Hu] r si' Hd. unfold declare_device_index, uadd in Hd.
  destruct (_ <=? _); [|done]. destruct (Hp p) as [H0 Hn Hb].
  assert (Hgen : forall i l, (forall j, j ∈ l -> j ∈ si_released p si) -> NoDup l -> (i ∉ l) -> 0 <= i <= si_index p si ->
            unused m (p, i) -> r = Ok i -> si' = set_index p (si_index p si + 1) l si ->
            exists i, r = Ok i /\ drives_inv si' m /\ 0 <= i < si_index p si' /\ (i ∉ si_released p si') /\ unused m (p, i)).
  { intros i l Hsub Hnd Hil Hi Hun -> ->. exists i. split; [done|].
    rewrite si_index_set, si_released_set, !decide_True by done. split; [|naive_solver lia]. split; [|..|done].
    - intros q. destruct (Hp q) as [Hq0 Hqn Hqb]. split; rewrite ?si_index_set, ?si_released_set;
        destruct (decide (q = p)) as [->|]; try done; [lia|]. intros j Hj. apply Hsub, Hb in Hj. lia.
    - intros id d Hm. destruct (Hdr _ _ Hm) as [Hd1 Hd2]. split; [|done].
      destruct (index_of d) as [[q j]|] eqn:Ej; [|done]. destruct Hd1 as (Hj & Hnj & Hv).
      rewrite si_index_set, si_released_set. destruct (decide (q = p)) as [->|]; [|done].
      split; [lia|]. split; [|done]. intros Hj'. by apply Hnj, Hsub. }
  destruct (last (si_released p si)) as [i|] eqn:El; injection Hd as <- <-.
  - apply last_removelast in El. rewrite El in Hn, Hb. apply NoDup_app in Hn as (Hn1 & Hn2 & _).
    eapply Hgen; [| |..|reflexivity|reflexivity]; [|exact Hn1|..].
    + intros j Hj. rewrite El. apply elem_of_app. by left.
    + intros Hi. apply (Hn2 i Hi). by left.
    + assert (0 <= i < si_index p si) by (apply Hb, elem_of_app; right; by left). lia.
    + intros id d Hm Ei. destruct (Hdr _ _ Hm) as [Hd1 _]. rewrite Ei in Hd1. destruct Hd1 as (_ & Hni & _).
      apply Hni. rewrite El. apply elem_of_app. right. by left.
  - eapply Hgen; [| |..|reflexivity|reflexivity]; [done|done|..|lia|].
    + intros Hi. apply Hb in Hi. lia.
    + intros id d Hm Ei. destruct (Hdr _ _ Hm) as [Hd1 _]. rewrite Ei in Hd1. lia.
Qed.

(** ** The operations keep the drives apart *)

Section drives.
Context {HO : HashOrder} {HOL : HashOrderLaws} {H : Type} {HV : Hypervisor H} {HF : HypervisorFrame H}.

Definition dm_inv (s : DeviceManager H) : Prop := drives_inv (dm_shared_info s) (dm_devices s).

Lemma wp_lookup id (Q : result DevError DeviceType -> DeviceManager H -> Prop) s :
  (forall d, dm_devices s !! id = Some d -> Q (Ok d) s) -> (dm_devices s !! id = None -> Q (Err DeviceNotFound) s) ->
  wp (lookup_device id) Q s.
Proof.
  intros H1 H2. unfold lookup_device. wp_steps. cbn. destruct (dm_devices s !! id); wp_steps; auto.
Qed.

(** The state after a driver method on the device [id]. *)
Definition driver_state (s : DeviceManager H) (id : string) (p : Plug DeviceType H) : DeviceManager H :=
  {| dm_devices := <[id := pl_dev p]> (dm_devices s); dm_hypervisor := pl_hv p;
     dm_shared_info := dm_shared_info s; dm_topology := pl_topo p |}.

Lemma wp_with_device {A} id d (m : eff (Plug DeviceType H) DevError A) Q s :
  wp m (fun r p => Q (Ok r) (driver_state s id p)) {| pl_dev := d; pl_topo := dm_topology s; pl_hv := dm_hypervisor s |} ->
  wp (with_device id d m) Q s.
Proof.
  intros Hm r s' E. unfold with_device in E. destruct (m _) as [[r1 p]|] eqn:E1; [|done].
  injection E as <- <-. by apply Hm.
Qed.

Lemma inv_driver_state s id d p : dm_devices s !! id = Some d -> face (pl_dev p) = face d -> dm_inv s ->
  dm_inv (driver_state s id p).
Proof. intros Hd Hf Hi. by eapply inv_same_face. Qed.

(** What [release_failed] releases is the index of the drive. *)
Lemma release_failed_spec si d (s : DeviceManager H) : drive_ok si d ->
  release_failed d s = match index_of d with Some (p, i) => release i p s | None => Ret (Ok tt, s) end.
Proof.
  intros [_ Ht]. destruct d; cbn; try done. specialize (Ht _ eq_refl). cbn in Ht.
  destruct (vc_virt_path (vf_config d)) as [[i v]|] eqn:Ev; cbn in Ht |- *.
  - by rewrite bool_decide_eq_true_2 by (apply Ht; eauto).
  - rewrite bool_decide_eq_false_2; [done|]. intros E. by destruct (proj1 Ht E).
Qed.

Lemma wp_release_failed d (s : DeviceManager H) Q : drive_ok (dm_shared_info s) d ->
  Q (Ok tt) (match index_of d with
             | Some (p, i) => set_shared_info (release_device_index i p (dm_shared_info s)) s
             | None => s
             end) -> wp (release_failed d) Q s.
Proof.
  intros Hd HQ r s' E. rewrite (release_failed_spec _ _ _ Hd) in E. by destruct (index_of d) as [[p i]|]; injection E as <- <-.
Qed.

Lemma try_add_inv id s : dm_inv s -> wp (try_add_device id) (fun _ s' => dm_inv s') s.
Proof.
  intros Hi. unfold try_add_device. wp_step. apply wp_lookup; [intros d Hd|done].
  wp_step. apply wp_with_device. eapply wp_mono; [apply dyn_attach_keeps|]. intros r p Hf. cbn in Hf.
  assert (Hi1 : dm_inv (driver_state s id p)) by (by eapply inv_driver_state).
  destruct r as [[]|e]; wp_steps; [done|].
  apply wp_lookup; [intros d1 Hd1|done]. wp_step. apply wp_release_failed; [by eapply (di_drive _ _ Hi1)|].
  unfold forget. wp_steps. destruct (index_of d1) as [[q i]|] eqn:Ei.
  - by apply (inv_release _ _ _ d1).
  - by apply inv_delete.
Qed.

(** What a failed [try_add_device] leaves. *)
Lemma try_add_failed id s d : dm_inv s -> dm_devices s !! id = Some d ->
  wp (try_add_device id) (fun r s' => forall e, r = Err e ->
    dm_devices s' = delete id (dm_devices s) /\
    dm_shared_info s' = match index_of d with
                        | Some (p, i) => release_device_index i p (dm_shared_info s)
                        | None => dm_shared_info s
                        end) s.
Proof.
  intros Hi Hd. unfold try_add_device. wp_step. apply wp_lookup; [intros d0 Hd0|congruence].
  assert (d0 = d) as -> by congruence.
  wp_step. apply wp_with_device. eapply wp_mono; [apply dyn_attach_keeps|]. intros r p Hf. cbn in Hf.
  assert (Hi1 : dm_inv (driver_state s id p)) by (by eapply inv_driver_state).
  destruct r as [[]|e]; wp_steps; [done|]. apply wp_lookup; [intros d1 Hd1|].
  2: { cbn. by rewrite lookup_insert_eq. }
  wp_step. apply wp_release_failed; [by eapply (di_drive _ _ Hi1)|]. unfold forget. wp_steps.
  cbn in Hd1. rewrite lookup_insert_eq in Hd1. injection Hd1 as <-. rewrite (face_index _ _ Hf).
  intros e' _. destruct (index_of d) as [[q i]|]; cbn; by rewrite delete_insert_eq.
Qed.

(** The kind of index that [try_remove_device] releases. *)
Lemma remove_pool d p i : index_of d = Some (p, i) ->
  (match d with Block blk => is_nvdimm (blk_config blk) | _ => false end) = p.
Proof.
  destruct d; cbn; try done; [naive_solver|naive_solver|].
  destruct (vc_virt_path _) as [[j v]|]; cbn; naive_solver.
Qed.

Lemma try_remove_inv id s : (forall d, dm_devices s !! id = Some d -> is_network d = false) -> dm_inv s ->
  wp (try_remove_device id) (fun _ s' => dm_inv s') s.
Proof.
  intros Hnet Hi. unfold try_remove_device. wp_step. apply wp_lookup; [intros d Hd|done].
  wp_step. apply wp_with_device. eapply wp_mono; [apply dyn_detach_keeps|]. intros r p [Hf Hans].
  cbn in Hf. assert (Hi1 : dm_inv (driver_state s id p)) by (by eapply inv_driver_state).
  destruct r as [o|e]; wp_steps; [|done].
  apply wp_lookup; [intros d1 Hd1|done].
  assert (Hd1' : d1 = pl_dev p) by (cbn in Hd1; rewrite lookup_insert_eq in Hd1; by injection Hd1). subst d1.
  destruct o as [i|]; unfold release, forget; wp_steps; [|by apply inv_delete].
  destruct Hans as [Hn|Hn]; cbn in Hn; [by rewrite (Hnet _ Hd) in Hn|].
  rewrite <- (face_index _ _ Hf) in Hn. destruct (index_of (pl_dev p)) as [[q j]|] eqn:Ei; [|done].
  injection Hn as ->. rewrite (remove_pool _ _ _ Ei). by apply (inv_release _ _ _ (pl_dev p)).
Qed.

(** The part of the manager that making a device does not touch. *)
Definition frame (s : DeviceManager H) := (dm_devices s, dm_hypervisor s, dm_topology s).

(** A new device: its index is declared and no other device has it. *)
Definition created (s s' : DeviceManager H) (r : result DevError DeviceType) : Prop :=
  dm_inv s' /\ frame s' = frame s /\
  match r with
  | Ok d => drive_ok (dm_shared_info s') d /\ forall x, index_of d = Some x -> unused (dm_devices s) x
  | Err _ => True
  end.

Lemma wp_virt_path ty p s : dm_inv s ->
  wp (get_dev_virt_path ty p) (fun r s' => dm_inv s' /\ frame s' = frame s /\
    match r with
    | Ok (Some (i, path)) => ty = "b" /\ virt_path p i = Some path /\ 0 <= i < si_index p (dm_shared_info s') /\
        (i ∉ si_released p (dm_shared_info s')) /\ unused (dm_devices s) (p, i)
    | Ok None => ty <> "b"
    | Err _ => True
    end) s.
Proof.
  intros Hi. unfold get_dev_virt_path. case_bool_decide as Hty; [|by wp_steps]. wp_steps.
  eapply wp_mono; [by apply declare_ok|]. intros r si' (i & -> & Hinv & Hr & Hn & Hun). wp_steps.
  destruct p; wp_steps; [done|]. destruct (get_virt_drive_name (as_i32 i)) eqn:En; wp_steps; [|done].
  split; [done|]. split; [done|]. split; [done|]. split; [|done]. unfold virt_path. by rewrite En.
Qed.

Lemma created_drive s s' p i path d : dm_inv s' -> frame s' = frame s ->
  virt_path p i = Some path /\ 0 <= i < si_index p (dm_shared_info s') /\
    (i ∉ si_released p (dm_shared_info s')) /\ unused (dm_devices s) (p, i) ->
  index_of d = Some (p, i) -> virt_path_of d = Some path -> (forall ty, dev_type_of d = Some ty -> ty = "b") ->
  created s s' (Ok d).
Proof.
  intros Hi Hf (Hv & Hr & Hn & Hun) H1 H2 H3. split; [done|]. split; [done|]. split; [split|].
  - by rewrite H1, H2, Hv.
  - intros ty Hty. rewrite H1. split; [by eexists|]. intros _. by apply H3.
  - rewrite H1. by intros x [= <-].
Qed.

Lemma created_plain s s' d : dm_inv s' -> frame s' = frame s ->
  index_of d = None -> virt_path_of d = None -> (forall ty, dev_type_of d = Some ty -> ty <> "b") ->
  created s s' (Ok d).
Proof.
  intros Hi Hf H1 H2 H3. split; [done|]. split; [done|]. split; [|by rewrite H1]. split; [by rewrite H1|].
  intros ty Hty. rewrite H1. split; [intros E; by destruct (H3 _ Hty)|by intros [? ?]].
Qed.

Lemma create_ok env c id s : dm_inv s -> wp (create_device env c id) (fun r s' => created s s' r) s.
Proof.
  intros Hi. destruct c; cbn [create_device]; try (by wp_steps; apply created_plain).
  - unfold create_block_device. destruct (blk_driver _) as [[drv p]|] eqn:Eb; wp_steps; [|done].
    eapply wp_mono; [by apply wp_virt_path|]. intros r s' (Hi' & Hfr & Hr).
    destruct r as [[[i path]|]|e]; [|by destruct Hr|done]. destruct Hr as (_ & Hr). cbn. wp_steps.
    assert (Hp : bool_decide (drv = "nvdimm") = p).
    { unfold blk_driver in Eb. repeat case_bool_decide; naive_solver. }
    destruct (bool_decide (bc_path_on_host c = _)); [destruct (get_host_path _ _ _ _)|]; wp_steps; [|done|];
      (eapply created_drive; [done|done|exact Hr|cbn; by rewrite Hp|done..]).
  - unfold create_vhost_blk_device. destruct (vhost_blk_driver _) as [drv|]; wp_steps; [|done].
    eapply wp_mono; [by apply wp_virt_path|]. intros r s' (Hi' & Hfr & Hr).
    destruct r as [[[i path]|]|e]; [|by destruct Hr|done]. destruct Hr as (_ & Hr). cbn. wp_steps.
    by eapply created_drive; [..|exact Hr| | |].
  - unfold create_vfio_device. wp_steps. eapply wp_mono; [by apply wp_virt_path|]. intros r s' (Hi' & Hfr & Hr).
    destruct r as [o|e]; [|done]. unfold VfioDevice_new. destruct (ne_hostdevs _ _) as [l|e]; wp_steps; [|done].
    destruct o as [[i path]|].
    + destruct Hr as (Hty & Hr). eapply created_drive; [done|done|exact Hr|done|done|]. by intros ty [= <-].
    + apply created_plain; try done. by intros ty [= <-].
Qed.

Lemma new_device_id_free env (s : DeviceManager H) id : new_device_id env s = Ok id ->
  dm_devices s !! id = None /\ exists k, (k < 5)%nat /\ id = hex_bytes (ne_random env k).
Proof.
  unfold new_device_id. destruct (List.find _ _) as [id'|] eqn:E; [|done]. intros [= <-].
  apply List.find_some in E as [Hin Hb]. apply bool_decide_eq_true in Hb. split; [done|].
  apply list_elem_of_In, list_elem_of_fmap in Hin as (k & -> & Hk). exists k. apply elem_of_seq in Hk. split; [lia|done].
Qed.

(** What [new_device] did: nothing but to declare indexes, or the new device too. *)
Lemma wp_new_device env c s : dm_inv s ->
  wp (new_device env c) (fun r s' => dm_inv s' /\
    (frame s' = frame s \/
     exists id d s1, new_device_id env s = Ok id /\ create_device env c id s = Ret (Ok d, s1) /\
       frame s' = (<[id := d]> (dm_devices s), dm_hypervisor s, dm_topology s))) s.
Proof.
  intros Hi. unfold new_device. wp_steps. cbn. destruct (new_device_id env s) as [id|e] eqn:Eid; wp_steps; [|by auto].
  destruct (_ ≫= _); wp_steps; [by auto|]. intros r s1 Ec.
  pose proof (create_ok env c id s Hi _ _ Ec) as (Hi1 & Hfr & Hd). destruct r as [d|e]; wp_steps; [|by auto].
  destruct (new_device_id_free _ _ _ Eid) as [Hn _]. destruct Hd as [Hok Hun].
  assert (Hfr' := Hfr). unfold frame in Hfr'. injection Hfr' as Hm Hh Ht. split.
  - apply inv_insert; [by rewrite Hm|done| |done]. by rewrite Hm.
  - right. exists id, d, s1. split; [done|]. split; [done|]. unfold frame. cbn. by rewrite Hm, Hh, Ht.
Qed.

Lemma find_device_in path (s : DeviceManager H) id : dm_find_device path s = Some id ->
  exists d, dm_devices s !! id = Some d /\ host_path_of d = Some path.
Proof.
  unfold dm_find_device. destruct (List.find _ _) as [[k d]|] eqn:E; [|done]. intros [= <-].
  apply List.find_some in E as [Hin Hb]. exists d. apply bool_decide_eq_true in Hb. split; [|done].
  apply elem_of_map_to_list. rewrite <- hash_iter_perm. by apply list_elem_of_In.
Qed.

(** [try_update_device] replaces the mount configuration of a shared file system. *)
Lemma wp_update_device c s :
  wp (try_update_device c) (fun _ s' =>
    dm_shared_info s' = dm_shared_info s /\
    (dm_hypervisor s' = dm_hypervisor s \/
     exists d r, hv_update_device d (dm_hypervisor s) = Ret (r, dm_hypervisor s')) /\
    (dm_devices s' = dm_devices s \/
     exists id d d', dm_devices s !! id = Some d /\ face d' = face d /\ counter d' = counter d /\
       dm_devices s' = <[id := d']> (dm_devices s))) s.
Proof.
  unfold try_update_device. destruct c; wp_steps; auto. cbn.
  destruct (dm_find_device _ s) as [id|]; wp_steps; auto.
  apply wp_lookup; [intros d Hd|by auto]. destruct d; wp_steps; auto. unfold update, ShareFs_Device, fs_update.
  wp_steps. unfold on_hv. wp_steps. intros r h' Eh. cbn in Eh.
  destruct r; wp_steps; cbn; (split; [done|]; split; [by eauto|]); [|by auto]. right.
  eexists id, _, _. split; [done|]. split; [|split; [|reflexivity]]; done.
Qed.

(** The operations that do not remove a network device keep the invariant. *)
Definition drive_op (op : dm_op) (s : DeviceManager H) : Prop :=
  match op with
  | OpRemove id => forall d, dm_devices s !! id = Some d -> is_network d = false
  | _ => True
  end.

Lemma exec_inv op s : drive_op op s -> dm_inv s -> wp (dm_exec op) (fun _ s' => dm_inv s') s.
Proof.
  intros Hop Hi. destruct op; cbn [dm_exec].
  - wp_step. eapply wp_mono; [by apply wp_new_device|]. intros r s' [Hi' _]. by destruct r; wp_steps.
  - by apply try_add_inv.
  - by apply try_remove_inv.
  - eapply wp_mono; [apply wp_update_device|]. intros r s' (Es & _ & Hd). unfold dm_inv. rewrite Es.
    destruct Hd as [-> | (id & d & d' & Hl & Hf & _ & ->)]; [done|]. by eapply inv_same_face.
Qed.

Lemma reach_inv (s : DeviceManager H) : dm_reach drive_op s -> dm_inv s.
Proof.
  induction 1 as [h tc|s op r s' _ IH Hop E].
  - split; [|done|done]. intros [|]; split; cbn; try lia; try apply NoDup_nil_2; intros i Hin; by apply elem_of_nil in Hin.
  - by eapply (exec_inv op s).
Qed.
End drives.

(** * The attach counters of the device manager agree with the record *)

(** Identifiers are hexadecimal; a hybrid vsock device has a prefix to its own. *)
Definition hex_key (id : string) : Prop := exists l, id = hex_bytes l.
Definition key_ok (id : string) (d : DeviceType) : Prop :=
  dev_id d = id \/ (counter d = None /\ exists x, dev_id d = String.append "vsock-" x).

Lemma hex_not_vsock l x : hex_bytes l <> String.append "vsock-" x.
Proof.
  assert (Hc : forall y k s, String (lower_hex (y / k mod 16)) s <> String.append "vsock-" x).
  { intros y k s E. pose proof (f_equal (fun t => match t with String c _ => Z.of_nat (Ascii.nat_of_ascii c) | _ => 0 end) E) as E'.
    change (Z.of_nat (Ascii.nat_of_ascii (lower_hex (y / k mod 16))) = 118) in E'.
    pose proof (digit_range y k) as Hd. rewrite lower_hex_code in E' by done.
    destruct (_ <? 10) eqn:El; zbool; lia. }
  destruct l as [|b l]; [done|]. cbn [hex_bytes foldr]. destruct (b <? 16); apply Hc.
Qed.

Lemma key_ne id id' d d' c : id <> id' -> key_ok id d -> key_ok id' d' -> hex_key id' -> counter d' = Some c ->
  dev_id d' <> dev_id d.
Proof.
  intros Hne Hk [->|[Hn _]] [l ->] Hc; [|congruence]. destruct Hk as [->|(_ & x & ->)]; [done|]. apply hex_not_vsock.
Qed.

Lemma face_key id d d' : face d' = face d -> key_ok id d -> key_ok id d'.
Proof.
  intros Hf [Hk|[Hn Hx]]; [left|right]; rewrite (face_id _ _ Hf); [done|]. split; [|done].
  apply (f_equal (fun x => x.1.2)) in Hf. cbn in Hf. rewrite Hn in Hf. by destruct (counter d').
Qed.

Section plug.
Context {HO : HashOrder} {HOL : HashOrderLaws} {H : Type} {HV : Hypervisor H} {HF : HypervisorFrame H} {HL : PlugLaws H}.

Definition plug_inv (m : gmap string DeviceType) (h : H) : Prop :=
  forall id d, m !! id = Some d -> plug_ok d h /\ key_ok id d /\ hex_key id.

Lemma plug_delete m h id : plug_inv m h -> plug_inv (delete id m) h.
Proof. intros Hi id2 d2 [? Hd]%lookup_delete_Some. by apply Hi. Qed.

(** A driver method on one device. *)
Lemma plug_driver (s : DeviceManager H) id d p : plug_inv (dm_devices s) (dm_hypervisor s) ->
  dm_devices s !! id = Some d ->
  attach_post {| pl_dev := d; pl_topo := dm_topology s; pl_hv := dm_hypervisor s |} p ->
  plug_inv (dm_devices (driver_state s id p)) (dm_hypervisor (driver_state s id p)).
Proof.
  intros Hi Hd (Hf & Ho & Hk). cbn in *. destruct (Hi _ _ Hd) as (Hp & Hkey & Hhex).
  intros id2 d2 [[<- <-]|[Hne H2]]%lookup_insert_Some.
  - split; [by apply Hk|]. split; [|done]. by eapply face_key.
  - destruct (Hi _ _ H2) as (Hp2 & Hkey2 & Hhex2). split; [|done].
    intros c Hc. rewrite (Ho (dev_id d2)); [by apply Hp2|]. by eapply key_ne.
Qed.

Lemma same_release i p : keeps (same (@frame H)) (release i p).
Proof. by apply same_modify. Qed.
Lemma same_release_failed d : keeps (same (@frame H)) (release_failed d).
Proof.
  destruct d; cbn; try apply same_ret; try apply same_release.
  case_match; [|apply same_ret]. apply same_bind; [apply same_expect|intros v; apply same_release].
Qed.

(** The invariant on the frame of a state. *)
Definition frame_inv (s : DeviceManager H) : Prop := plug_inv (dm_devices s) (dm_hypervisor s).

Lemma frame_inv_same s s' : frame s' = frame s -> frame_inv s -> frame_inv s'.
Proof. unfold frame, frame_inv. intros E. by injection E as -> -> _. Qed.

Lemma try_add_plug id s : frame_inv s -> wp (try_add_device id) (fun _ s' => frame_inv s') s.
Proof.
  intros Hi. unfold try_add_device. wp_step. apply wp_lookup; [intros d Hd|done].
  wp_step. apply wp_with_device. eapply wp_mono; [apply dyn_attach_ok|]. intros r p Hpost.
  pose proof (plug_driver s id d p Hi Hd Hpost) as Hi1.
  destruct r as [[]|e]; wp_steps; [done|]. apply wp_lookup; [intros d1 Hd1|done]. wp_step.
  eapply wp_mono; [apply wp_keeps, same_release_failed|]. intros r s1 Hs. apply (frame_inv_same _ _ Hs) in Hi1.
  destruct r; [|done]. unfold forget. wp_steps. by apply plug_delete.
Qed.

Lemma try_remove_plug id s : frame_inv s -> wp (try_remove_device id) (fun _ s' => frame_inv s') s.
Proof.
  intros Hi. unfold try_remove_device. wp_step. apply wp_lookup; [intros d Hd|done].
  wp_step. apply wp_with_device. eapply wp_mono; [apply dyn_detach_ok|]. intros r p Hpost.
  pose proof (plug_driver s id d p Hi Hd Hpost) as Hi1.
  destruct r as [o|e]; wp_steps; [|done]. apply wp_lookup; [intros d1 Hd1|done]. wp_step.
  eapply (wp_mono _ (fun _ s1 => frame s1 = frame (driver_state s id p))).
  { destruct o as [i|]; [|by wp_steps]. intros r s1. apply (same_release i). }
  intros r s1 Hs. apply (frame_inv_same _ _ Hs) in Hi1. destruct r; [|done]. unfold forget. wp_steps.
  by apply plug_delete.
Qed.

(** A new device is not attached. *)
Lemma same_virt_path ty p : keeps (same (@frame H)) (get_dev_virt_path ty p).
Proof.
  unfold get_dev_virt_path. case_match; [|apply same_ret]. apply same_bind; [by apply keeps_zoom|intros i].
  apply same_bind; [|intros n; apply same_ret]. destruct p; [apply same_ret|]. case_match; [apply same_ret|apply same_throw].
Qed.

Definition fresh_device (id : string) (s s' : DeviceManager H) (r : result DevError DeviceType) : Prop :=
  frame s' = frame s /\
  match r with Ok d => key_ok id d /\ (forall c, counter d = Some c -> c = 0) | Err _ => True end.

Lemma create_fresh env c id s : wp (create_device env c id) (fun r s' => fresh_device id s s' r) s.
Proof.
  destruct c; cbn [create_device].
  - unfold create_block_device. destruct (blk_driver _) as [[drv p]|]; wp_steps; [|done].
    eapply wp_mono; [apply wp_keeps, same_virt_path|]. intros r s' Hs. destruct r as [v|]; [|done].
    destruct (default _ v). wp_steps.
    destruct (bool_decide (bc_path_on_host c = _)); [destruct (get_host_path _ _ _ _)|]; wp_steps; [|done|];
      (split; [done|]; split; [by left|]; by intros ? [= <-]).
  - unfold create_vhost_blk_device. destruct (vhost_blk_driver _) as [drv|]; wp_steps; [|done].
    eapply wp_mono; [apply wp_keeps, same_virt_path|]. intros r s' Hs. destruct r as [v|]; [|done].
    destruct (default _ v). wp_steps. split; [done|]. split; [by left|]. by intros ? [= <-].
  - wp_steps. split; [done|]. split; [by left|done].
  - wp_steps. split; [done|]. split; [by left|done].
  - wp_steps. split; [done|]. split; [by left|done].
  - unfold create_vfio_device. wp_steps. eapply wp_mono; [apply wp_keeps, same_virt_path|]. intros r s' Hs.
    destruct r as [v|]; [|done]. unfold VfioDevice_new. destruct (ne_hostdevs _ _); wp_steps; [|done].
    split; [done|]. split; [by left|]. by intros ? [= <-].
  - wp_steps. split; [done|]. split; [by left|done].
  - wp_steps. split; [done|]. split; [right|done]. split; [done|]. by exists id.
  - wp_steps. split; [done|]. split; [by left|done].
  - wp_steps. split; [done|]. split; [by left|done].
Qed.

(** The random identifiers are not those of devices that were added. *)
Definition plug_op (op : dm_op) (s : DeviceManager H) : Prop :=
  match op with
  | OpNew env _ => forall k, (k < 5)%nat -> (hex_bytes (ne_random env k) ∉ plugged (dm_hypervisor s))
  | _ => True
  end.

Lemma new_device_plug env c s : plug_op (OpNew env c) s -> frame_inv s ->
  wp (new_device env c) (fun _ s' => frame_inv s') s.
Proof.
  intros Hop Hi. unfold new_device. wp_steps. cbn. destruct (new_device_id env s) as [id|e] eqn:Eid; wp_steps; [|done].
  destruct (_ ≫= _); wp_steps; [done|]. eapply wp_mono; [apply create_fresh|]. intros r s1 [Hs Hd].
  apply (frame_inv_same _ _ Hs) in Hi. destruct r as [d|e]; wp_steps; [|done]. destruct Hd as [Hk Hc].
  destruct (new_device_id_free _ _ _ Eid) as [Hn (k & Hk5 & Eh)].
  unfold frame_inv. cbn [set_devices dm_devices dm_hypervisor].
  intros id2 d2 [[<- <-]|[Hne H2]]%lookup_insert_Some; [|by apply Hi]. split; [|split; [done|by exists (ne_random env k)]].
  intros n Hcn. pose proof (Hc _ Hcn) as ->. split; [done|]. split; [lia|]. intros Hin. exfalso.
  apply (Hop k Hk5). unfold frame in Hs. injection Hs as _ Eh' _. rewrite <- Eh, <- Eh'.
  destruct Hk as [Ek|[Hno _]]; [|congruence]. by rewrite <- Ek.
Qed.

Lemma exec_plug op s : plug_op op s -> frame_inv s -> wp (dm_exec op) (fun _ s' => frame_inv s') s.
Proof.
  intros Hop Hi. destruct op; cbn [dm_exec].
  - wp_step. eapply wp_mono; [by apply new_device_plug|]. intros r s' Hi'. by destruct r; wp_steps.
  - by apply try_add_plug.
  - by apply try_remove_plug.
  - eapply wp_mono; [apply wp_update_device|]. intros r s' (_ & Hh & Hd).
    assert (Ep : plugged (dm_hypervisor s') = plugged (dm_hypervisor s)).
    { destruct Hh as [->|(d & r2 & Eh)]; [done|]. by eapply hv_update_plug. }
    assert (Hi' : plug_inv (dm_devices s) (dm_hypervisor s')).
    { intros id d Hl. destruct (Hi _ _ Hl) as (Hp & Hrest). split; [|done]. intros n Hn. rewrite Ep. by apply Hp. }
    destruct Hd as [Em|(id & d & d' & Hl & Hf & Hc & Em)]; unfold frame_inv; rewrite Em; [done|].
    intros id2 d2 [[<- <-]|[Hne H2]]%lookup_insert_Some; [|by apply Hi']. destruct (Hi' _ _ Hl) as (Hp & Hk & Hx).
    split; [|split; [by eapply face_key|done]]. intros n Hn. rewrite (face_id _ _ Hf). apply Hp. by rewrite <- Hc.
Qed.

Lemma reach_plug (s : DeviceManager H) : dm_reach plug_op s -> frame_inv s.
Proof.
  induction 1 as [h tc|s op r s' _ IH Hop E]; [by intros id d Hd|]. by eapply (exec_plug op s).
Qed.
End plug.
