(* ===== verification/DeviceDemo.v ===== *)
(** * A hypervisor and a hash order for the witnesses *)
From stdpp Require Import strings pretty gmap.
From S2P Require Import Prelude Effects PciPath PcieTopology DeviceDrivers DeviceManager DeviceDriversFacts.

#[global] Instance list_order : HashOrder := fun K _ _ V => map_to_list.
#[global] Instance list_order_laws : HashOrderLaws (H:=list_order).
Proof. by intros K ? ? V m. Qed.

(** It keeps the set of its devices, and refuses new ones when it is full. *)
Record Toy := { toy_devices : gset string; toy_full : bool }.

#[global] Instance Toy_hypervisor : Hypervisor Toy := {|
  hv_add_device d := fun h =>
    if toy_full h then Ret (Err (HypervisorError 1), h)
    else Ret (Ok d, {| toy_devices := {[dev_id d]} ∪ toy_devices h; toy_full := false |});
  hv_remove_device d := fun h =>
    Ret (Ok tt, {| toy_devices := toy_devices h ∖ {[dev_id d]}; toy_full := toy_full h |});
  hv_update_device d := fun h => Ret (Ok tt, h);
|}.

#[global] Instance Toy_frame : HypervisorFrame Toy.
Proof. intros d h d' h'. cbn. destruct (toy_full h); [done|]. intros [= <- _]. by destruct d. Qed.

(** A topology with one root port. *)
Definition demo_config : TopologyConfigInfo :=
  {| tc_hypervisor_name := "qemu"; tc_default_bridges := 1; tc_pcie_root_port := 1; tc_pcie_switch_port := 0;
     tc_hotplug_vfio_on_root_bus := true |}.

(** Drives, a network device and a VFIO device. *)
Definition demo_blk (path driver : string) : DeviceConfig :=
  BlockCfg {| bc_path_on_host := path; bc_is_readonly := false; bc_no_drop := false; bc_is_direct := None;
              bc_index := 0; bc_blkdev_aio := IoUring; bc_driver_option := driver; bc_virt_path := EmptyString;
              bc_pci_path := None; bc_scsi_addr := None; bc_ccw_addr := None; bc_attach_count := 0;
              bc_major := 8; bc_minor := 0; bc_queue_size := 128; bc_num_queues := 1 |}.
Definition demo_net : DeviceConfig :=
  NetworkCfg {| nc_index := 0; nc_host_dev_name := "tap0"; nc_virt_iface_name := "eth0"; nc_guest_mac := None;
                nc_queue_size := 0; nc_queue_num := 0; nc_use_shared_irq := None; nc_use_generic_irq := None;
                nc_allow_duplicate_mac := false |}.

(** The random bytes of a new device. *)
Definition demo_env (b : Z) : NewEnv :=
  {| ne_random := fun k => [b; Z.of_nat k]; ne_uevent := fun _ => Ok "sda"%string;
     ne_hostdevs := fun _ => Err VfioInitFailed |}.

(** The state after an operation that returns. *)
Definition after {H} {HV : Hypervisor H} (op : dm_op) (s : DeviceManager H) : DeviceManager H :=
  match dm_exec op s with Ret (_, s') => s' | Panic => s end.

Lemma after_reach {H} {HV : Hypervisor H} (ok : dm_op -> DeviceManager H -> Prop) op s : dm_reach ok s -> ok op s ->
  (match dm_exec op s with Ret _ => True | Panic => False end) -> dm_reach ok (after op s).
Proof.
  intros Hs Hop He. unfold after. destruct (dm_exec op s) as [[r s']|] eqn:E; [|done]. by eapply reach_step.
Qed.

(** A drive that is created, and attached once and twice. *)
Definition demo_start {H} (h : H) : DeviceManager H := DeviceManager_new h (Some demo_config).
Definition demo_new {H} {HV : Hypervisor H} (h : H) : DeviceManager H :=
  after (OpNew (demo_env 10) (demo_blk "/a" "virtio-blk-pci")) (demo_start h).
Definition demo_attached_once {H} {HV : Hypervisor H} (h : H) : DeviceManager H := after (OpAdd "a0") (demo_new h).

Lemma demo_once_reach {H} {HV : Hypervisor H} (h : H) ok :
  (forall env c, ok (OpNew env c) (demo_start h)) -> ok (OpAdd "a0") (demo_new h) ->
  (match dm_exec (OpNew (demo_env 10) (demo_blk "/a" "virtio-blk-pci")) (demo_start h) with
   | Ret _ => True | Panic => False end) ->
  (match dm_exec (OpAdd "a0") (demo_new h) with Ret _ => True | Panic => False end) ->
  dm_reach ok (demo_attached_once h).
Proof. intros H1 H2 H3 H4. apply after_reach; [apply after_reach; [constructor|apply H1|done]|apply H2|done]. Qed.

Definition toy : Toy := {| toy_devices := ∅; toy_full := false |}.
Definition demo_once : DeviceManager Toy := demo_attached_once toy.
Definition demo_twice : DeviceManager Toy := after (OpAdd "a0") demo_once.
(** Then a network device. *)
Definition demo_both : DeviceManager Toy := after (OpAdd "b0") (after (OpNew (demo_env 11) demo_net) demo_once).
(** A drive for a hypervisor that is full. *)
Definition demo_refused : DeviceManager Toy :=
  after (OpNew (demo_env 10) (demo_blk "/a" "virtio-blk-pci"))
    (DeviceManager_new {| toy_devices := ∅; toy_full := true |} None).
(** The drive of [demo_once] with the record of the answers. *)
Definition demo_recorded : DeviceManager (Recorded Toy) := demo_attached_once (mkRecorded toy ∅).

(** The guest path of a device. *)
Definition demo_path (id : string) (s : DeviceManager Toy) : option string := dm_devices s !! id ≫= virt_path_of.
