(* ===== verification/PcieTopologyProps.v ===== *)
(** * The PCIe topology: lemmas and properties *)
From stdpp Require Import strings pretty gmap.
From S2P Require Import Prelude Effects PciPath PcieTopology DeviceDemo.

(** An entry of the table is under its own path, and a device has one entry. *)
Record table_ok (m : gmap string PCIeEndpoint) : Prop := {
  tb_key k ep : m !! k = Some ep -> k = PciPath_to_string (ep_pci_path ep);
  tb_one k1 k2 ep1 ep2 : m !! k1 = Some ep1 -> m !! k2 = Some ep2 -> ep_device_id ep1 = ep_device_id ep2 -> k1 = k2;
}.

(** The name of a slot determines the slot. *)
Lemma slot_name_inj i j : 0 <= i < 256 -> 0 <= j < 256 ->
  PciPath_to_string (to_pcipath i) = PciPath_to_string (to_pcipath j) -> i = j.
Proof.
  intros Hi Hj. cbn. unfold as_u8. rewrite !(Z.mod_small _ (2 ^ 8)) by (change (2 ^ 8) with 256; lia).
  change (hexn 2 i = hexn 2 j -> i = j). intros E.
  pose proof (unsigned_from_hexn 255 2 i ltac:(lia) ltac:(change (16 ^ Z.of_nat 2) with 256; lia) ltac:(lia)) as Ei.
  pose proof (unsigned_from_hexn 255 2 j ltac:(lia) ltac:(change (16 ^ Z.of_nat 2) with 256; lia) ltac:(lia)) as Ej.
  rewrite E, Ej in Ei. by injection Ei.
Qed.

Section facts.
Context {HO : HashOrder} {HOL : HashOrderLaws}.

(** ** Looking for a device *)

Definition has_device (id : string) (m : gmap string PCIeEndpoint) : Prop :=
  exists k ep, m !! k = Some ep /\ ep_device_id ep = id.

Lemma is_device_true id kv : is_device id kv = true <-> ep_device_id kv.2 = id.
Proof. apply bool_decide_eq_true. Qed.

Lemma find_device_spec id t : find_device id t = true <-> has_device id (tp_root_bus_devices t).
Proof.
  unfold find_device. rewrite List.existsb_exists. split.
  - intros ([k ep] & Hin & Hd%is_device_true). exists k, ep. split; [|done].
    apply elem_of_map_to_list. rewrite <- hash_iter_perm. by apply list_elem_of_In.
  - intros (k & ep & Hk & Hd). exists (k, ep). split; [|by apply is_device_true].
    apply list_elem_of_In. rewrite hash_iter_perm. by apply elem_of_map_to_list.
Qed.

Lemma find_device_false id t : find_device id t = false <-> ~ has_device id (tp_root_bus_devices t).
Proof. rewrite <- find_device_spec. by destruct (find_device id t). Qed.

(** ** Inserting *)

(** The table after the first free slot went to the device. *)
Definition new_endpoint (id : string) (i : Z) : PCIeEndpoint :=
  {| ep_device_id := id; ep_pci_path := to_pcipath i; ep_device_type := "PCIe" |}.
Definition slot_free (t : PCIeTopology) (i : Z) : Prop :=
  tp_root_bus_devices t !! PciPath_to_string (to_pcipath i) = None.
#[global] Instance slot_free_dec t i : Decision (slot_free t i) := _.

Lemma find_slot_spec t :
  match List.find (fun i => bool_decide (slot_free t i)) (seqZ 0 32) with
  | Some i => 0 <= i < 32 /\ slot_free t i /\ forall j, 0 <= j < i -> ~ slot_free t j
  | None => forall j, 0 <= j < 32 -> ~ slot_free t j
  end.
Proof.
  assert (Hgen : forall n a, 0 <= n ->
    match List.find (fun i => bool_decide (slot_free t i)) (seqZ a n) with
    | Some i => a <= i < a + n /\ slot_free t i /\ forall j, a <= j < i -> ~ slot_free t j
    | None => forall j, a <= j < a + n -> ~ slot_free t j
    end).
  { intros n a Hn. revert a. pattern n. apply natlike_ind; [| |done].
    - intros a. cbn. intros j Hj. lia.
    - intros m Hm IH a. rewrite (seqZ_cons a (Z.succ m)) by lia. cbn [List.find].
      case_bool_decide as Hf; [split; [lia|]; split; [done|lia]|].
      rewrite Z.pred_succ. specialize (IH (Z.succ a)). destruct (List.find _ _) as [i|].
      + destruct IH as (Hi & Hfi & Hmin). split; [lia|]. split; [done|]. intros j Hj.
        destruct (Z.eq_dec j a) as [->|]; [done|]. apply Hmin. lia.
      + intros j Hj. destruct (Z.eq_dec j a) as [->|]; [done|]. apply IH. lia. }
  pose proof (Hgen 32 0) as Hg. destruct (List.find _ _); [|apply Hg; lia]. apply Hg. lia.
Qed.

(** A device that is not in the table gets the lowest free slot, or an error when
    the bus is full. *)
Lemma add_new_endpoint id path t : find_device id t = false ->
  (exists i, 0 <= i < 32 /\ slot_free t i /\ (forall j, 0 <= j < i -> ~ slot_free t j) /\
     do_add_pcie_endpoint id path t =
       Ret (Ok (to_pcipath i), set_root_bus_devices
         (<[PciPath_to_string (to_pcipath i) := new_endpoint id i]> (tp_root_bus_devices t)) t)) \/
  ((forall j, 0 <= j < 32 -> ~ slot_free t j) /\ do_add_pcie_endpoint id path t = Ret (Err PciPathFailed, t)).
Proof.
  intros Hf. unfold do_add_pcie_endpoint, do_insert_or_update. cbn [ep_device_id]. rewrite Hf. cbn [negb].
  unfold insert_device. pose proof (find_slot_spec t) as Hs.
  change (List.find _ (seqZ 0 PCIE_ROOT_BUS_SLOTS_CAPACITY)) with
    (List.find (fun i => bool_decide (slot_free t i)) (seqZ 0 32)).
  destruct (List.find _ _) as [i|]; cbn [mbind option_bind]; [left|right]; [|done].
  destruct Hs as (Hi & Hfi & Hmin). by exists i.
Qed.

(** A device that is in the table keeps its slot when the path it names is taken,
    by itself or by another device, and moves to the path otherwise. *)
Lemma add_known_endpoint id path t : find_device id t = true ->
  do_add_pcie_endpoint id path t =
    Ret (Ok (default {| slots := [] |} path),
         match tp_root_bus_devices t !! PciPath_to_string (default {| slots := [] |} path) with
         | Some _ => t
         | None =>
             set_root_bus_devices
               (<[PciPath_to_string (default {| slots := [] |} path) :=
                  {| ep_device_id := id; ep_pci_path := default {| slots := [] |} path; ep_device_type := "PCIe" |}]>
                 (filter (fun kv => is_device id kv = false) (tp_root_bus_devices t))) t
         end).
Proof.
  intros Hf. unfold do_add_pcie_endpoint, do_insert_or_update. cbn [ep_device_id]. rewrite Hf. cbn [negb].
  unfold update_device. cbn [ep_pci_path ep_device_id].
  by destruct (tp_root_bus_devices t !! PciPath_to_string (default {| slots := [] |} path)).
Qed.

(** ** Removing *)

Lemma remove_lookup id (m : gmap string PCIeEndpoint) k ep :
  filter (fun kv => is_device id kv = false) m !! k = Some ep <-> m !! k = Some ep /\ ep_device_id ep <> id.
Proof.
  rewrite map_lookup_filter_Some. cbn. unfold is_device. cbn. by rewrite bool_decide_eq_false.
Qed.

Lemma remove_answer id t : (remove_device id t).1 = None <-> ~ has_device id (tp_root_bus_devices t).
Proof.
  rewrite <- find_device_spec. unfold remove_device, find_device. cbn [fst].
  induction (hash_iter (tp_root_bus_devices t)) as [|kv l IH]; [done|]. cbn.
  destruct (is_device id kv); cbn; [|done]. split; [|done].
  intros E. apply last_None in E. done.
Qed.

Lemma remove_answer_key id t k : has_device id (tp_root_bus_devices t) ->
  (forall k' ep, tp_root_bus_devices t !! k' = Some ep -> ep_device_id ep = id -> k' = k) ->
  (remove_device id t).1 = Some k.
Proof.
  intros Hd Huniq. destruct ((remove_device id t).1) as [k'|] eqn:E; [|by apply remove_answer in E].
  f_equal. cbn in E. apply last_Some_elem_of, list_elem_of_fmap in E as ([k2 ep] & -> & Hin).
  apply list_elem_of_In, List.filter_In in Hin as [Hin Hid%is_device_true]. cbn in *.
  eapply Huniq; [|done]. apply elem_of_map_to_list. rewrite <- hash_iter_perm. by apply list_elem_of_In.
Qed.

Lemma remove_ok id m : table_ok m -> table_ok (filter (fun kv => is_device id kv = false) m).
Proof.
  intros [Hk Ho]. split.
  - intros k ep [Hl _]%remove_lookup. by apply Hk.
  - intros k1 k2 ep1 ep2 [H1 _]%remove_lookup [H2 _]%remove_lookup. by apply (Ho _ _ _ _ H1 H2).
Qed.

Lemma insert_ok m ep : table_ok m -> ~ has_device (ep_device_id ep) m ->
  table_ok (<[PciPath_to_string (ep_pci_path ep) := ep]> m).
Proof.
  intros [Hk Ho] Hn. split.
  - intros k ep' [[<- <-]|[_ Hl]]%lookup_insert_Some; [done|by apply Hk].
  - intros k1 k2 ep1 ep2 [[<- <-]|[_ H1]]%lookup_insert_Some [[<- <-]|[_ H2]]%lookup_insert_Some E; [done|..].
    + destruct Hn. by exists k2, ep2.
    + destruct Hn. by exists k1, ep1.
    + by apply (Ho _ _ _ _ H1 H2).
Qed.

(** Every call keeps the table in order. *)
Lemma add_endpoint_ok id path t r t' : table_ok (tp_root_bus_devices t) ->
  do_add_pcie_endpoint id path t = Ret (r, t') -> table_ok (tp_root_bus_devices t').
Proof.
  intros Hok E. destruct (find_device id t) eqn:Ef.
  - rewrite add_known_endpoint in E by done. injection E as _ <-. case_match; [done|]. cbn [set_root_bus_devices tp_root_bus_devices].
    apply (insert_ok _ {| ep_device_id := id; ep_pci_path := default {| slots := [] |} path; ep_device_type := "PCIe" |}).
    + by apply remove_ok.
    + cbn. intros (k & ep & Hl & Hid). by apply remove_lookup in Hl as [_ ?].
  - destruct (add_new_endpoint id path t Ef) as [(i & _ & _ & _ & Ei)|[_ Ei]]; rewrite Ei in E; injection E as _ <-; [|done].
    apply (insert_ok _ (new_endpoint id i)); [done|]. by apply find_device_false.
Qed.
End facts.

(** * Properties of the PCIe topology *)

Section props.
Context {HO : HashOrder} {HOL : HashOrderLaws}.

(** The topologies that the drivers can make. *)
Inductive topo_reach : PCIeTopology -> Prop :=
| topo_start config t : PCIeTopology_new (Some config) = Some t -> topo_reach t
| topo_add id path t r t' : topo_reach t -> do_add_pcie_endpoint id path t = Ret (r, t') -> topo_reach t'
| topo_remove id t : topo_reach t -> topo_reach (remove_device id t).2
| topo_find t r t' : topo_reach t -> find_available_node t = Ret (r, t') -> topo_reach t'
| topo_root_ports n t r t' : topo_reach t -> add_root_ports_on_bus n t = Ret (r, t') -> topo_reach t'
| topo_switch_ports n k strategy t r t' :
    topo_reach t -> add_switch_ports_with_strategy n k strategy t = Ret (r, t') -> topo_reach t'.

(** Work on the ports leaves the table of devices alone. *)
Lemma put_port_table port p : keeps (same tp_root_bus_devices) (put_port port p).
Proof. by apply same_modify. Qed.
Lemma get_port_table port : keeps (same tp_root_bus_devices) (get_port port).
Proof. unfold get_port. eff_walk. Qed.
Lemma find_node_table : keeps (same tp_root_bus_devices) find_available_node.
Proof.
  unfold find_available_node. apply same_bind; [apply same_gets|intros t].
  destruct (first_node _) as [[[node k] p]|]; [|apply same_ret].
  apply same_bind; [apply put_port_table|intros _; apply same_ret].
Qed.
Lemma root_port_table port : keeps (same tp_root_bus_devices) (add_pcie_root_port port).
Proof.
  unfold add_pcie_root_port. apply same_bind; [apply same_gets|intros t].
  case_match; [apply same_throw|apply put_port_table].
Qed.
Lemma switch_port_table bus r p : keeps (same tp_root_bus_devices) (add_switch_port_to_switch bus r p).
Proof.
  unfold add_switch_port_to_switch. apply same_bind; [apply get_port_table|intros q].
  repeat case_match; try apply same_throw; apply put_port_table.
Qed.
Lemma with_switch_table r : keeps (same tp_root_bus_devices) (add_root_port_with_switch r).
Proof.
  unfold add_root_port_with_switch, add_switch_to_root_port. apply same_bind; [apply same_gets|intros t].
  apply same_bind; [case_match; [apply same_ret|apply root_port_table]|intros _].
  apply same_bind; [apply get_port_table|intros q]. case_match; [apply same_throw|apply put_port_table].
Qed.
Lemma strategy_table n k st : keeps (same tp_root_bus_devices) (add_switch_ports_with_strategy n k st).
Proof.
  assert (Hp : forall r f m, keeps (same tp_root_bus_devices) (add_switch_ports r f m)).
  { intros r f m. apply same_for_each. intros p. apply switch_port_table. }
  destruct st; cbn.
  - apply same_bind; [apply with_switch_table|intros _; apply Hp].
  - unfold add_switch_ports_multiple_root_ports. case_match; [apply keeps_panic|].
    generalize (k / n) (k mod n) 0 (seqZ 1 n). intros a b c l. revert c.
    induction l as [|r l IH]; intros c; cbn; [apply same_ret|]. apply same_bind; [apply with_switch_table|intros _].
    apply same_bind; [apply Hp|intros _; apply IH].
Qed.

Lemma reach_table t : topo_reach t -> table_ok (tp_root_bus_devices t).
Proof.
  induction 1 as [c t E|id path t r t' _ IH E|id t _ IH|t r t' _ IH E|n t r t' _ IH E|n k st t r t' _ IH E].
  - injection E as <-. by split.
  - by eapply add_endpoint_ok.
  - by apply remove_ok.
  - by rewrite (find_node_table _ _ _ E).
  - rewrite (same_for_each tp_root_bus_devices _ _ root_port_table _ _ _ E). done.
  - by rewrite (strategy_table _ _ _ _ _ _ E).
Qed.

(** Whatever devices are placed, moved and removed and whatever ports are
    made, two entries of the root bus have different PCI paths and belong to
    different devices. *)
Theorem endpoints_exclusive t k1 k2 ep1 ep2 (Ht : topo_reach t)
    (H1 : tp_root_bus_devices t !! k1 = Some ep1) (H2 : tp_root_bus_devices t !! k2 = Some ep2)
    (Hsame : ep_pci_path ep1 = ep_pci_path ep2 \/ ep_device_id ep1 = ep_device_id ep2) : k1 = k2.
Proof.
  destruct (reach_table t Ht) as [Hk Ho]. destruct Hsame as [E|E].
  - by rewrite (Hk _ _ H1), (Hk _ _ H2), E.
  - by eapply Ho.
Qed.

(** Placing a device that is not on the root bus takes the lowest free slot of
    the 32 and nothing else, and fails, without a change, exactly when there is
    none; removing the device restores the topology. *)
Theorem endpoint_slot_roundtrip id path t (Hn : find_device id t = false) :
  match do_add_pcie_endpoint id path t with
  | Ret (Ok p, t') =>
      exists i, p = to_pcipath i /\ 0 <= i < PCIE_ROOT_BUS_SLOTS_CAPACITY /\ slot_free t i /\
        (forall j, 0 <= j < i -> ~ slot_free t j) /\
        (forall j, 0 <= j < PCIE_ROOT_BUS_SLOTS_CAPACITY -> j <> i -> (slot_free t' j <-> slot_free t j)) /\
        ~ slot_free t' i /\ find_device id t' = true /\
        remove_device id t' = (Some (PciPath_to_string p), t)
  | Ret (Err _, t') => t' = t /\ forall j, 0 <= j < PCIE_ROOT_BUS_SLOTS_CAPACITY -> ~ slot_free t j
  | Panic => False
  end.
Proof.
  destruct (add_new_endpoint id path t Hn) as [(i & Hi & Hfree & Hmin & ->)|[Hall ->]]; [|done].
  apply find_device_false in Hn. set (k := PciPath_to_string (to_pcipath i)).
  set (t' := set_root_bus_devices _ t). change PCIE_ROOT_BUS_SLOTS_CAPACITY with 32. exists i.
  assert (Hk : tp_root_bus_devices t' !! k = Some (new_endpoint id i)) by apply lookup_insert_eq.
  assert (Hf : find_device id t' = true).
  { apply find_device_spec. by exists k, (new_endpoint id i). }
  split; [done|]. split; [done|]. split; [done|]. split; [done|]. split; [|split; [|split; [done|]]].
  - intros j Hj Hne. unfold slot_free. change (tp_root_bus_devices t') with (<[k := new_endpoint id i]> (tp_root_bus_devices t)).
    rewrite lookup_insert_ne; [done|]. intros E. apply Hne. by apply slot_name_inj in E; lia.
  - unfold slot_free. fold k. by rewrite Hk.
  - assert (Ht : (remove_device id t').2 = t).
    { cbn. rewrite map_filter_insert_False by (cbn; unfold is_device; by rewrite bool_decide_eq_true_2).
      rewrite delete_id by done. rewrite map_filter_id; [by destruct t|].
      intros k' ep Hl. cbn. unfold is_device. cbn. apply bool_decide_eq_false. intros E. apply Hn. by exists k', ep. }
    rewrite (surjective_pairing (remove_device id t')), Ht. f_equal.
    apply remove_answer_key; [by apply find_device_spec|].
    subst t'. cbn [set_root_bus_devices tp_root_bus_devices].
    intros k' ep [[<- <-]|[Hne Hl]]%lookup_insert_Some Hid; [done|]. destruct Hn. by exists k', ep.
Qed.
End props.

(** The topology with one root port, and two devices placed on it. *)
Definition demo_topo : PCIeTopology :=
  {| tp_hypervisor_name := "qemu"; tp_root_bus_devices := ∅; tp_bridges := 1; tp_pcie_root_ports := 1;
     tp_pcie_switch_ports := 0; tp_hotplug_vfio_on_root_bus := true; tp_pcie_port_devices := ∅ |}.
Definition demo_add (id : string) (t : PCIeTopology) : PCIeTopology :=
  match do_add_pcie_endpoint id None t with Ret (_, t') => t' | Panic => t end.

Lemma endpoints_exclusive_witness :
  topo_reach (demo_add "b" (demo_add "a" demo_topo)) /\ "01"%string = "01"%string.
Proof.
  assert (Hr : topo_reach (demo_add "b" (demo_add "a" demo_topo))).
  { apply (topo_add "b" None (demo_add "a" demo_topo) (Ok (to_pcipath 1))); [|vm_compute; reflexivity].
    apply (topo_add "a" None demo_topo (Ok (to_pcipath 0))); [|vm_compute; reflexivity].
    exact (topo_start demo_config demo_topo eq_refl). }
  split; [exact Hr|].
  exact (endpoints_exclusive (demo_add "b" (demo_add "a" demo_topo)) "01" "01" (new_endpoint "b" 1) (new_endpoint "b" 1)
           Hr eq_refl eq_refl (or_introl eq_refl)).
Defined.

Lemma endpoint_slot_roundtrip_witness :
  find_device "b" (demo_add "a" demo_topo) = false /\
  exists i, to_pcipath 1 = to_pcipath i /\ slot_free (demo_add "a" demo_topo) i /\
    remove_device "b" (demo_add "b" (demo_add "a" demo_topo)) = (Some "01"%string, demo_add "a" demo_topo).
Proof.
  assert (Hn : find_device "b" (demo_add "a" demo_topo) = false) by reflexivity. split; [exact Hn|].
  destruct (endpoint_slot_roundtrip "b" None (demo_add "a" demo_topo) Hn) as (i & E & Hi & Hf & _ & _ & _ & _ & Hr).
  exists i. split; [exact E|]. split; [exact Hf|]. exact Hr.
Defined.
