(* ===== verification/VfioProps.v ===== *)
(** * Properties of VFIO devices in the PCIe topology *)
From stdpp Require Import strings pretty gmap.
From S2P Require Import Prelude Effects PciPath PcieTopology PcieTopologyProps DeviceDrivers DeviceManager DeviceDriversFacts DeviceDemo.

(** ** Ports *)

Definition switch_full (sw : PcieSwitch) : Prop := forall j q, sw_ports sw !! j = Some q -> swdp_allocated q = true.
(** No port can take a device. *)
Definition ports_full (t : PCIeTopology) : Prop :=
  forall k p, tp_pcie_port_devices t !! k = Some p -> tpd_allocated p = true /\
    forall sw, tpd_connected_switch p = Some sw -> switch_full sw.

Abbreviation no_path := {| slots := [] |}.

Section vfio.
Context {HO : HashOrder} {HOL : HashOrderLaws} {H : Type} {HV : Hypervisor H}.

Lemma port_node_full p : tpd_allocated p = true -> (forall sw, tpd_connected_switch p = Some sw -> switch_full sw) ->
  port_node p = None.
Proof.
  intros Ha Hsw. unfold port_node. rewrite Ha. cbn. destruct (tpd_connected_switch p) as [sw|]; [|done].
  specialize (Hsw sw eq_refl). cbn. unfold switch_node. destruct (List.find _ _) as [[j q]|] eqn:E; [|done].
  apply List.find_some in E as [Hin Hf]. apply list_elem_of_In in Hin. rewrite hash_iter_perm in Hin.
  apply elem_of_map_to_list, Hsw in Hin. cbn in Hf. by rewrite Hin in Hf.
Qed.

Lemma find_node_full t : ports_full t -> find_available_node t = Ret (Ok None, t).
Proof.
  intros Hf. unfold find_available_node. rewrite run_gets. cbn [id].
  assert (Hl : forall l, (forall k p, (k, p) ∈ l -> tp_pcie_port_devices t !! k = Some p) -> first_node l = None).
  { induction l as [|[k p] l IH]; intros Hin; cbn; [done|]. destruct (Hf k p) as [Ha Hs]; [apply Hin; by left|].
    rewrite (port_node_full p Ha Hs). apply IH. intros k' p' Hk. apply Hin. by right. }
  rewrite Hl; [done|]. intros k p. rewrite hash_iter_perm. apply elem_of_map_to_list.
Qed.

(** A VFIO device on PCI that has no port yet. *)
Definition needs_port (q : Plug VfioDevice H) (t : PCIeTopology) : Prop :=
  pl_topo q = Some t /\ vf_bus_mode (pl_dev q) = VfioPCI /\ vf_allocated (pl_dev q) = false.

Lemma attach_full q t : needs_port q t -> ports_full t -> exists e, vf_attach q = Ret (Err e, q).
Proof.
  destruct q as [d topo h]. intros (Ht & Hb & Ha) Hf. cbn in Ht, Hb, Ha. subst topo.
  assert (Hr : exists e, register_port t {| pl_dev := d; pl_topo := Some t; pl_hv := h |} =
                          Ret (Err e, {| pl_dev := d; pl_topo := Some t; pl_hv := h |})).
  { unfold register_port. destruct (get_pcie_port t) as [[ty n]|]; [|by eexists]. exists NoAvailableNode.
    assert (Hn : (match ty with RootPort | SwitchPort => on_topo t find_available_node | NoPort => mret None end)
                   {| pl_dev := d; pl_topo := Some t; pl_hv := h |} =
                 Ret (Ok None, {| pl_dev := d; pl_topo := Some t; pl_hv := h |})).
    { destruct ty; [done|..]; unfold on_topo; (erewrite run_zoom; [|by apply find_node_full]); done. }
    by rewrite (run_ok_bind _ _ _ _ _ Hn). }
  destruct Hr as [e He]. exists e. unfold vf_attach, vf_register. apply run_err_bind. rewrite run_gets. cbn [id pl_topo pl_dev].
  rewrite Hb, Ha. by apply run_err_bind.
Qed.

Definition ports_of (p : Plug VfioDevice H) : option (gmap Z TopologyPortDevice) :=
  tp_pcie_port_devices <$> pl_topo p.

Lemma detach_ports : keeps (same ports_of) vf_detach.
Proof.
  assert (Hc : forall A (m : eff Z DevError A), keeps (same ports_of) (vf_count m)) by (intros A m; by apply keeps_zoom).
  unfold vf_detach. apply same_bind; [apply Hc|intros b]. destruct (negb b); [|apply same_ret].
  apply same_bind; [apply same_gets|intros d]. apply same_bind; [apply keeps_attempt; by apply keeps_zoom|intros r].
  destruct r as [u|e]; [|apply same_bind; [apply Hc|intros ?; apply same_throw]].
  apply same_bind; [|intros ?; apply same_ret]. intros p r p' E. unfold vf_unregister in E. rewrite run_gets in E. cbn [id] in E.
  unfold same, ports_of. destruct (pl_topo p) as [t|] eqn:Et; [|by injection E as _ <-; rewrite Et].
  destruct (remove_device (vf_device_id (pl_dev p)) t) as [sl t'] eqn:Er.
  assert (tp_pcie_port_devices t' = tp_pcie_port_devices t) as Hp by (unfold remove_device in Er; by injection Er as _ <-).
  destruct sl; injection E as _ <-; cbn; by rewrite Hp.
Qed.

(** Detaching a VFIO device does not give its port back.  With every port
    taken, no device can be attached any more, whatever was detached. *)
Theorem detach_keeps_port (p p' : Plug VfioDevice H) r t (Ht : pl_topo p = Some t) (Hf : ports_full t)
    (Hd : vf_detach p = Ret (r, p')) :
  exists t', pl_topo p' = Some t' /\ forall q, needs_port q t' -> exists e, vf_attach q = Ret (Err e, q).
Proof.
  pose proof (detach_ports _ _ _ Hd) as Hs. unfold same, ports_of in Hs. rewrite Ht in Hs. cbn in Hs.
  destruct (pl_topo p') as [t'|]; [|done]. injection Hs as Hs. exists t'. split; [done|].
  intros q Hq. eapply attach_full; [done|]. unfold ports_full. by rewrite Hs.
Qed.

(** ** Devices with several functions *)

(** What finding a port leaves: the table of devices and the device's identity. *)
Definition placed (p : Plug VfioDevice H) (p' : Plug VfioDevice H) : Prop :=
  tp_root_bus_devices <$> pl_topo p' = tp_root_bus_devices <$> pl_topo p /\
  vf_device_id (pl_dev p') = vf_device_id (pl_dev p) /\ vf_devices (pl_dev p') = vf_devices (pl_dev p).

Lemma register_port_placed t p : pl_topo p = Some t -> wp (register_port t) (fun _ p' => placed p p') p.
Proof.
  intros Ht. unfold register_port. destruct (get_pcie_port t) as [[ty n]|]; wp_steps; [|done].
  eapply (wp_mono _ (fun _ p' => placed p p')).
  - destruct ty; wp_steps; [done|..]; (apply wp_zoom; rewrite Ht; intros r t' E; apply find_node_table in E;
      unfold same in E; cbn in E; unfold placed; cbn; rewrite Ht; cbn; by rewrite E).
  - intros r p' Hp. destruct r as [[node|]|e]; wp_steps; done.
Qed.

(** The outcome of the loop for a device with two functions that have no path. *)
Definition two_functions (p' : Plug VfioDevice H) : Prop :=
  exists i t', 0 <= i < PCIE_ROOT_BUS_SLOTS_CAPACITY /\ pl_topo p' = Some t' /\
    hd_guest_pci_path <$> vf_devices (pl_dev p') = [Some (to_pcipath i); Some no_path] /\ slot_free t' i.

Lemma slot_name_nonempty i : PciPath_to_string (to_pcipath i) <> EmptyString.
Proof. done. Qed.

Lemma register_two t0 p t h1 h2 : pl_topo p = Some t ->
  hd_guest_pci_path h1 = None -> hd_guest_pci_path h2 = None ->
  find_device (vf_device_id (pl_dev p)) t = false -> tp_root_bus_devices t !! EmptyString = None ->
  wp (register_hostdevs t0 [] [] [h1; h2]) (fun r p' => r = Ok tt -> two_functions p') p.
Proof.
  intros Ht H1 H2 Hn He. cbn [register_hostdevs app]. wp_steps. unfold on_topo. wp_steps. rewrite Ht, H1.
  set (id := vf_device_id (pl_dev p)) in *.
  destruct (add_new_endpoint id None t Hn) as [(i & Hi & Hfree & Hmin & E)|[_ E]];
    intros r t1 E1; change (default t0 (Some t)) with t in E1; rewrite E in E1; injection E1 as <- <-; [|done].
  set (k := PciPath_to_string (to_pcipath i)). set (t1 := set_root_bus_devices _ t).
  wp_steps. cbn [pl_topo set_dev set_topo pl_dev]. rewrite H2.
  change (vf_device_id (set_vf_devices _ _ (pl_dev p))) with id.
  assert (Hk : tp_root_bus_devices t1 !! k = Some (new_endpoint id i)) by apply lookup_insert_eq.
  assert (Hf1 : find_device id t1 = true) by (apply find_device_spec; by exists k, (new_endpoint id i)).
  intros r t2 E2. change (default t0 (Some t1)) with t1 in E2. rewrite (add_known_endpoint id None t1 Hf1) in E2.
  change (PciPath_to_string (default no_path None)) with EmptyString in E2.
  assert (Hem : tp_root_bus_devices t1 !! EmptyString = None).
  { unfold t1. cbn [set_root_bus_devices tp_root_bus_devices]. by rewrite lookup_insert_ne. }
  rewrite Hem in E2. injection E2 as <- <-. wp_steps. intros _. eexists i, _. split; [done|]. split; [reflexivity|].
  split; [done|]. unfold slot_free. cbn [set_root_bus_devices tp_root_bus_devices]. fold k.
  rewrite lookup_insert_ne by done. destruct (filter _ _ !! k) as [ep|] eqn:Ek; [|done].
  apply remove_lookup in Ek as [Ek Hid]. change (tp_root_bus_devices t1 !! k = Some ep) in Ek. rewrite Hk in Ek. by injection Ek as <-.
Qed.

(** Of a VFIO device with two functions only the second keeps its entry on the
    root bus, under an empty PCI path: the slot given to the first function is
    free again when the device is registered, although the function keeps it. *)
Theorem multifunction_loses_slot (p p' : Plug VfioDevice H) t h1 h2 (Ht : pl_topo p = Some t)
    (Hb : vf_bus_mode (pl_dev p) = VfioPCI) (Hdev : vf_devices (pl_dev p) = [h1; h2])
    (H1 : hd_guest_pci_path h1 = None) (H2 : hd_guest_pci_path h2 = None)
    (Hn : find_device (vf_device_id (pl_dev p)) t = false)
    (He : tp_root_bus_devices t !! EmptyString = None) (Hr : vf_register p = Ret (Ok tt, p')) :
  exists i t', 0 <= i < PCIE_ROOT_BUS_SLOTS_CAPACITY /\ pl_topo p' = Some t' /\
    hd_guest_pci_path <$> vf_devices (pl_dev p') = [Some (to_pcipath i); Some no_path] /\ slot_free t' i.
Proof.
  assert (Hwp : wp vf_register (fun r p' => r = Ok tt -> two_functions p') p); [|by apply (Hwp _ _ Hr)].
  unfold vf_register. wp_steps. cbn [id]. rewrite Ht, Hb. wp_steps.
  eapply (wp_mono _ (fun _ p' => placed p p')).
  { destruct (vf_allocated _); [by wp_steps|by apply register_port_placed]. }
  intros r p1 (Hp1 & Hp2 & Hp3). destruct r as [[]|e]; [|done]. wp_steps. cbn [pl_dev set_dev set_vf_devices vf_devices].
  rewrite Hp3, Hdev. rewrite Ht in Hp1. cbn in Hp1. destruct (pl_topo p1) as [t1|] eqn:Et1; [|done]. injection Hp1 as Hp1.
  eapply register_two; [exact Et1|done|done|..].
  - cbn [pl_dev set_dev]. change (vf_device_id (set_vf_devices _ _ (pl_dev p1))) with (vf_device_id (pl_dev p1)).
    rewrite Hp2. apply find_device_false. rewrite Hp1. by apply find_device_false.
  - by rewrite Hp1.
Qed.
End vfio.

(** ** Witnesses *)

(** A device of one and of two functions; a topology with one root port, made and
    taken. *)
Definition demo_fn (bdf : string) : HostDevice :=
  {| hd_hostdev_id := bdf; hd_sysfs_path := EmptyString; hd_domain := "0000"; hd_bus_slot_func := bdf;
     hd_device_vendor_class := None; hd_vfio_type := VfioNormal; hd_guest_pci_path := None |}.
Definition demo_vfio (id : string) (l : list HostDevice) : VfioDevice :=
  {| vf_device_id := id; vf_attach_count := 0; vf_bus_mode := VfioPCI; vf_driver_type := "vfio-pci";
     vf_config := {| vc_host_path := "/dev/vfio/1"; vc_dev_type := "c"; vc_bus_type := "pci";
                     vc_hostdev_prefix := "vfio"; vc_virt_path := None |};
     vf_devices := l; vf_device_options := []; vf_port := NoPort; vf_bus := EmptyString; vf_allocated := false |}.
Definition demo_ports : PCIeTopology :=
  match add_root_ports_on_bus 1 demo_topo with Ret (_, t) => t | Panic => demo_topo end.
Definition demo_plug (d : VfioDevice) (t : PCIeTopology) : Plug VfioDevice Toy :=
  {| pl_dev := d; pl_topo := Some t; pl_hv := {| toy_devices := ∅; toy_full := false |} |}.
Definition demo_attached : Plug VfioDevice Toy :=
  match vf_attach (demo_plug (demo_vfio "a" [demo_fn "04:00.0"]) demo_ports) with
  | Ret (_, p) => p
  | Panic => demo_plug (demo_vfio "a" []) demo_ports
  end.

Lemma detach_keeps_port_witness :
  exists p' t', vf_detach demo_attached = Ret (Ok None, p') /\ pl_topo p' = Some t' /\
    exists e, vf_attach (demo_plug (demo_vfio "b" [demo_fn "05:00.0"]) t') =
      Ret (Err e, demo_plug (demo_vfio "b" [demo_fn "05:00.0"]) t').
Proof.
  destruct (vf_detach demo_attached) as [[r p']|] eqn:Hd; [|vm_compute in Hd; discriminate].
  assert (Hr : r = Ok None) by (vm_compute in Hd; congruence). subst r.
  destruct (pl_topo demo_attached) as [t|] eqn:Ht; [|vm_compute in Ht; discriminate].
  destruct (detach_keeps_port demo_attached p' (Ok None) t Ht) as (t' & Ht' & Hall); [|exact Hd|].
  - vm_compute in Ht. injection Ht as <-. intros k p Hl. apply elem_of_map_to_list in Hl. vm_compute in Hl.
    apply list_elem_of_singleton in Hl. injection Hl as _ ->. split; [reflexivity|]. intros sw Hsw. discriminate.
  - exists p', t'. split; [reflexivity|]. split; [exact Ht'|]. apply Hall. repeat split.
Defined.

Lemma multifunction_loses_slot_witness :
  exists p' i t', vf_register (demo_plug (demo_vfio "a" [demo_fn "04:00.0"; demo_fn "04:00.1"]) demo_ports) = Ret (Ok tt, p') /\
    pl_topo p' = Some t' /\ hd_guest_pci_path <$> vf_devices (pl_dev p') = [Some (to_pcipath i); Some no_path] /\
    slot_free t' i.
Proof.
  destruct (vf_register (demo_plug (demo_vfio "a" [demo_fn "04:00.0"; demo_fn "04:00.1"]) demo_ports)) as [[r p']|] eqn:Hr;
    [|vm_compute in Hr; discriminate].
  assert (Er : r = Ok tt) by (vm_compute in Hr; congruence). subst r.
  assert (Hn : find_device "a" demo_ports = false) by (vm_compute; reflexivity).
  destruct (multifunction_loses_slot
              (demo_plug (demo_vfio "a" [demo_fn "04:00.0"; demo_fn "04:00.1"]) demo_ports) p' demo_ports (demo_fn "04:00.0") (demo_fn "04:00.1") eq_refl eq_refl eq_refl eq_refl
              eq_refl Hn eq_refl Hr) as (i & t' & _ & Ht & Hd & Hs).
  exists p', i, t'. split; [reflexivity|]. split; [exact Ht|]. split; [exact Hd|exact Hs].
Defined.
