(* ===== verification/DeviceManagerProps.v ===== *)
(** * Properties of the device manager *)
From stdpp Require Import strings pretty gmap sorting.
From S2P Require Import Prelude Effects PciPath PcieTopology DeviceDrivers DeviceManager DeviceManagerFacts DeviceDriversFacts DeviceDemo.

(** The names of drives are the numbers from 0 up in base 26 without a zero:
    every index of 31 bits has a name, from which the index can be read back,
    and every suffix of letters for such an index is the name made for it. *)
Theorem drive_name_bijection (i : Z) (l : list Z) (Hi : 0 <= i < 2 ^ 31)
    (Hl : l <> []) (Hlen : (length l <= 30)%nat) (Hlet : Forall letter l) (Hv : suffix_value l - 1 < 2 ^ 31) :
  (exists name, get_virt_drive_name i = Ok name /\ drive_index name = Some i) /\
  get_virt_drive_name (suffix_value l - 1) = Ok (String.append "vd" (string_of_codes (reverse l))).
Proof.
  split; [by apply virt_drive_name_ok|]. unfold get_virt_drive_name.
  rewrite drive_letters_of_value by done. rewrite (proj2 (Z.ltb_ge _ 0)); [done|].
  destruct l as [|c l]; [done|]. apply Forall_cons in Hlet as [Hc Hlet]. cbn. unfold letter in Hc.
  assert (0 <= suffix_value l); [|lia].
  clear -Hlet. induction Hlet as [|c l Hc Hlet IH]; cbn; [lia|]. unfold letter in Hc. lia.
Qed.

Lemma drive_name_bijection_witness :
  (exists name, get_virt_drive_name 701 = Ok name /\ drive_index name = Some 701) /\
  get_virt_drive_name 26 = Ok "vdaa"%string.
Proof.
  exact (drive_name_bijection 701 [97; 97] ltac:(lia) ltac:(done) ltac:(cbn; lia)
           ltac:(repeat constructor; unfold letter; lia) ltac:(cbn; lia)).
Defined.

Section props.
Context {HO : HashOrder} {HOL : HashOrderLaws} {H : Type} {HV : Hypervisor H} {HF : HypervisorFrame H}.

(** C29: as long as no network device is removed through the manager and no more
    than 2^31 indexes were declared, no two devices have the same path in the
    guest, however the calls of concurrent tasks interleave. *)
Theorem drive_paths_unique (s : DeviceManager H) id1 id2 d1 d2 path (Hr : dm_reach drive_op s)
    (Hb : si_block_index (dm_shared_info s) <= 2 ^ 31)
    (H1 : dm_devices s !! id1 = Some d1) (H2 : dm_devices s !! id2 = Some d2)
    (Hp1 : virt_path_of d1 = Some path) (Hp2 : virt_path_of d2 = Some path) : id1 = id2.
Proof.
  destruct (reach_inv s Hr) as [_ Hdr Hu].
  destruct (Hdr _ _ H1) as [Hd1 _], (Hdr _ _ H2) as [Hd2 _].
  destruct (index_of d1) as [[p i]|] eqn:E1; [|congruence].
  destruct (index_of d2) as [[q j]|] eqn:E2; [|congruence].
  destruct Hd1 as (Hi & _ & Hv1), Hd2 as (Hj & _ & Hv2).
  assert (Hpq : p = q /\ i = j).
  { eapply (virt_path_inj p q i j path); [intros ->; cbn in Hi; lia|intros ->; cbn in Hj; lia|congruence|congruence]. }
  destruct Hpq as [-> ->]. by eapply Hu.
Qed.

(** C34: the attach counter of every device in the manager is positive exactly when
    the hypervisor has agreed to add the device and has not agreed to remove it
    since: this holds for every hypervisor, after any interleaving of calls, failed
    ones included, if the random identifiers are none of devices so added. *)
Theorem attach_count_refines (s : DeviceManager (Recorded H)) id d c (Hr : dm_reach plug_op s)
    (Hd : dm_devices s !! id = Some d) (Hc : counter d = Some c) :
  0 <= c /\ (0 < c <-> id ∈ rec_plugged (dm_hypervisor s)).
Proof.
  destruct (reach_plug s Hr _ _ Hd) as (Hp & Hk & _). destruct Hk as [<- | [Hn _]]; [by apply Hp|congruence].
Qed.

(** When a device cannot be attached, the manager forgets it, gives back its
    index, and leaves the other devices and indexes as they were. *)
Theorem failed_add_restores (s s' : DeviceManager H) id d e (Hr : dm_reach drive_op s)
    (Hd : dm_devices s !! id = Some d) (Ha : try_add_device id s = Ret (Err e, s')) :
  dm_devices s' = delete id (dm_devices s) /\
  (forall p, si_index p (dm_shared_info s') = si_index p (dm_shared_info s)) /\
  forall p i, i ∈ si_released p (dm_shared_info s') <->
    i ∈ si_released p (dm_shared_info s) \/ index_of d = Some (p, i).
Proof.
  destruct (try_add_failed id s d (reach_inv s Hr) Hd _ _ Ha e eq_refl) as [Hm Hs].
  split; [done|]. rewrite Hs. destruct (index_of d) as [[p i]|]; [|naive_solver]. split.
  - intros q. apply release_index.
  - intros q j. rewrite release_elem. naive_solver.
Qed.

(** A block device that two users attached is forgotten at the first removal:
    the call succeeds without asking the hypervisor, which keeps the device; its
    index is not released, and the second user's removal fails. *)
Theorem shared_removal_forgets (s : DeviceManager H) dev d (Hd : dm_devices s !! dev = Some (Block d))
    (Hc : 2 <= blk_attach_count d) :
  exists s', try_remove_device dev s = Ret (Ok tt, s') /\ dm_devices s' = delete dev (dm_devices s) /\
    dm_hypervisor s' = dm_hypervisor s /\ dm_shared_info s' = dm_shared_info s /\
    try_remove_device dev s' = Ret (Err DeviceNotFound, s').
Proof.
  assert (Hdet : with_device dev (Block d) dyn_detach s =
    Ret (Ok (Ok None), driver_state s dev
      {| pl_dev := Block (set_blk_count (blk_attach_count d - 1) d); pl_topo := dm_topology s; pl_hv := dm_hypervisor s |})).
  { unfold with_device, dyn_detach, dyn_call. rewrite run_gets. cbn [pl_dev id]. unfold run_driver, detach, Block_Device, blk_detach.
    erewrite run_ok_bind.
    2: { apply run_zoom, run_zoom, run_decrease. cbn. lia. }
    cbn [pl_dev set_dev].
    rewrite (proj2 (Z.eqb_neq (blk_attach_count d - 1) 0)) by lia. done. }
  eexists. split; [|split; [|split; [|split]]].
  - unfold try_remove_device. erewrite run_ok_bind.
    2: { unfold lookup_device. rewrite run_gets. cbn [id]. rewrite Hd. reflexivity. }
    erewrite run_ok_bind by exact Hdet. cbv beta iota. erewrite run_ok_bind.
    2: { unfold lookup_device. rewrite run_gets. cbn [id driver_state dm_devices]. rewrite lookup_insert_eq. reflexivity. }
    reflexivity.
  - cbn. by rewrite delete_insert_eq.
  - done.
  - done.
  - apply run_err_bind. unfold lookup_device. rewrite run_gets. cbn [id set_devices dm_devices].
    by rewrite lookup_delete_eq.
Qed.

(** Removing a network device pushes its index, which is not an index of
    drives, to the released drive indexes; the next drive gets it when it is the
    smallest one, also if a drive in use has it. *)
Theorem network_removal_frees_drive_index (s s' : DeviceManager H) id n
    (Hd : dm_devices s !! id = Some (Network n)) (Hr : try_remove_device id s = Ret (Ok tt, s'))
    (Hmin : Forall (fun j => nc_index (net_config n) <= j) (si_released_block_index (dm_shared_info s)))
    (Hroom : si_block_index (dm_shared_info s) < u64_max) :
  dm_devices s' = delete id (dm_devices s) /\
  exists si', declare_device_index false (dm_shared_info s') = Ret (Ok (nc_index (net_config n)), si').
Proof.
  assert (Hwp : wp (try_remove_device id) (fun r s' => forall u, r = Ok u ->
            dm_devices s' = delete id (dm_devices s) /\
            dm_shared_info s' = release_device_index (nc_index (net_config n)) false (dm_shared_info s)) s).
  { unfold try_remove_device. wp_step. apply wp_lookup; [intros d Hd'|congruence]. assert (d = Network n) as -> by congruence.
    wp_step. apply wp_with_device. unfold dyn_detach, dyn_call. wp_steps. cbn. apply wp_run_driver.
    unfold net_detach, on_hv. wp_steps. intros r h' _. destruct r; wp_steps; [|done].
    apply wp_lookup; [intros d Hd2|by intros _]. cbn in Hd2. rewrite lookup_insert_eq in Hd2. injection Hd2 as <-.
    unfold release, forget. wp_steps. intros _ _. cbn. by rewrite delete_insert_eq. }
  destruct (Hwp _ _ Hr tt eq_refl) as [Hm Hs]. split; [done|]. rewrite Hs. set (i := nc_index (net_config n)) in *.
  pose proof (release_sorted i false (dm_shared_info s)) as Hsort.
  assert (Hin : i ∈ si_released false (release_device_index i false (dm_shared_info s))) by (apply release_elem; by right).
  destruct (last (si_released false (release_device_index i false (dm_shared_info s)))) as [m|] eqn:El.
  2: { apply last_None in El. rewrite El in Hin. by apply elem_of_nil in Hin. }
  assert (m = i) as ->.
  { pose proof (last_min _ _ Hsort El i Hin). apply last_Some_elem_of, release_elem in El as [Hel|[_ ?]]; [|done].
    rewrite Forall_forall in Hmin. specialize (Hmin m Hel). lia. }
  unfold declare_device_index. rewrite release_index, uadd_Ret by (cbn; lia). rewrite El. by eexists.
Qed.
End props.

(** Taking a released index also advances the counter, so that the index the
    counter stood at is never handed out. *)
Theorem reused_index_skips_one (p : bool) si si' i (Hok : idx_ok p si) (Hne : si_released p si <> [])
    (Hd : declare_device_index p si = Ret (Ok i, si')) :
  i < si_index p si /\ si_index p si' = si_index p si + 1 /\ (si_index p si ∉ si_released p si').
Proof.
  destruct Hok as [H0 Hn Hb]. unfold declare_device_index, uadd in Hd. destruct (_ <=? _); [|done].
  destruct (last (si_released p si)) as [j|] eqn:El; [|by apply last_None in El]. injection Hd as <- <-.
  pose proof (last_removelast _ _ El) as Er. rewrite si_index_set, si_released_set, !decide_True by done.
  split; [apply Hb; by apply last_Some_elem_of|]. split; [done|]. intros Hin.
  assert (Hin' : si_index p si ∈ si_released p si) by (rewrite Er; apply elem_of_app; by left). apply Hb in Hin'. lia.
Qed.

(** ** Witnesses *)

Lemma drive_paths_unique_witness :
  demo_path "a0" demo_once = Some "/dev/vda"%string /\ "a0"%string = "a0"%string.
Proof.
  assert (Hr : dm_reach drive_op demo_once) by (apply demo_once_reach; done).
  split; [vm_compute; reflexivity|].
  destruct (dm_devices demo_once !! "a0"%string) as [d|] eqn:Hd; [|vm_compute in Hd; discriminate].
  apply (drive_paths_unique demo_once "a0" "a0" d d "/dev/vda" Hr); [vm_compute; discriminate|exact Hd|exact Hd|..];
    vm_compute in Hd; injection Hd as <-; reflexivity.
Defined.

Lemma attach_count_refines_witness :
  exists d, dm_devices demo_recorded !! "a0"%string = Some d /\ counter d = Some 1 /\
    0 <= 1 /\ (0 < 1 <-> "a0"%string ∈ rec_plugged (dm_hypervisor demo_recorded)).
Proof.
  assert (Hr : dm_reach plug_op demo_recorded).
  { apply demo_once_reach; [|done..]. intros env c k _. apply not_elem_of_empty. }
  destruct (dm_devices demo_recorded !! "a0"%string) as [d|] eqn:Hd; [|vm_compute in Hd; discriminate].
  assert (Hc : counter d = Some 1) by (vm_compute in Hd; injection Hd as <-; reflexivity).
  exists d. split; [reflexivity|]. split; [exact Hc|]. exact (attach_count_refines demo_recorded "a0" d 1 Hr Hd Hc).
Defined.

Lemma failed_add_restores_witness :
  exists d s', dm_devices demo_refused !! "a0"%string = Some d /\
    try_add_device "a0" demo_refused = Ret (Err (HypervisorError 1), s') /\
    dm_devices s' = delete "a0"%string (dm_devices demo_refused) /\ 0 ∈ si_released false (dm_shared_info s').
Proof.
  assert (Hr : dm_reach drive_op demo_refused) by (apply after_reach; [constructor|done|done]).
  destruct (dm_devices demo_refused !! "a0"%string) as [d|] eqn:Hd; [|vm_compute in Hd; discriminate].
  assert (Hi : index_of d = Some (false, 0)) by (vm_compute in Hd; injection Hd as <-; reflexivity).
  destruct (try_add_device "a0" demo_refused) as [[[u|e] s']|] eqn:Ha; [vm_compute in Ha; discriminate| |vm_compute in Ha; discriminate].
  assert (He : e = HypervisorError 1).
  { apply (f_equal (fun o => match o with Ret (Err e, _) => Some e | _ => None end)) in Ha. vm_compute in Ha. congruence. }
  destruct (failed_add_restores demo_refused s' "a0" d e Hr Hd Ha) as (Hm & _ & Hrel).
  exists d, s'. rewrite He. split; [reflexivity|]. split; [reflexivity|]. split; [exact Hm|].
  apply Hrel. right. exact Hi.
Defined.

Lemma shared_removal_forgets_witness :
  exists s', try_remove_device "a0" demo_twice = Ret (Ok tt, s') /\
    "a0"%string ∈ toy_devices (dm_hypervisor s') /\ try_remove_device "a0" s' = Ret (Err DeviceNotFound, s').
Proof.
  destruct (dm_devices demo_twice !! "a0"%string) as [d|] eqn:Hd; [|vm_compute in Hd; discriminate].
  destruct d as [d| | | | | | | | |]; try (vm_compute in Hd; discriminate).
  destruct (shared_removal_forgets demo_twice "a0" d Hd) as (s' & H1 & _ & Hh & _ & H2).
  { vm_compute in Hd. injection Hd as <-. cbn. lia. }
  exists s'. split; [exact H1|]. split; [|exact H2]. rewrite Hh. apply (bool_decide_unpack _). vm_compute. exact I.
Defined.

(** After the removal of the network device a second drive has the path of the
    first one. *)
Lemma network_removal_frees_drive_index_witness :
  (exists s' si', try_remove_device "b0" demo_both = Ret (Ok tt, s') /\
     declare_device_index false (dm_shared_info s') = Ret (Ok 0, si')) /\
  let s2 := after (OpNew (demo_env 12) (demo_blk "/b" "virtio-blk-pci")) (after (OpRemove "b0") demo_both) in
  demo_path "a0" s2 = Some "/dev/vda"%string /\ demo_path "c0" s2 = Some "/dev/vda"%string.
Proof.
  split; [|split; vm_compute; reflexivity].
  destruct (dm_devices demo_both !! "b0"%string) as [d|] eqn:Hd; [|vm_compute in Hd; discriminate].
  destruct d as [| | |n| | | | | |]; try (vm_compute in Hd; discriminate).
  assert (Hn : nc_index (net_config n) = 0) by (vm_compute in Hd; injection Hd as <-; reflexivity).
  destruct (try_remove_device "b0" demo_both) as [[[[]|e] s']|] eqn:Hr; [|vm_compute in Hr; discriminate..].
  destruct (network_removal_frees_drive_index demo_both s' "b0" n Hd Hr) as [_ [si' E]].
  - vm_compute. constructor.
  - vm_compute. reflexivity.
  - exists s', si'. split; [reflexivity|]. rewrite <- Hn. exact E.
Defined.

Lemma reused_index_skips_one_witness :
  let si := {| si_pmem_index := 0; si_block_index := 1; si_released_pmem_index := []; si_released_block_index := [0] |} in
  exists si', declare_device_index false si = Ret (Ok 0, si') /\ 0 < 1 /\ si_index false si' = 2 /\
    (1 ∉ si_released false si').
Proof.
  intros si. destruct (declare_device_index false si) as [[r si']|] eqn:Hd; [|vm_compute in Hd; discriminate].
  exists si'. assert (Hr : r = Ok 0) by (vm_compute in Hd; congruence). subst r. split; [reflexivity|].
  refine (reused_index_skips_one false si si' 0 _ _ Hd); [|discriminate].
  split; cbn; [lia|apply NoDup_singleton|]. intros i ->%list_elem_of_singleton. lia.
Defined.
