(* ===== verification/Bits.v ===== *)
(** * Bit fields and bytes

    Lemmas on the bitwise operations of machine words, on fields of a register
    and on little-endian byte strings, shared by the PCI components. *)
From S2P Require Import Prelude.

(** The bits of a complement at 8, 16, 32 and 64 bits. *)
Lemma testbit_max w i : 0 <= w -> 0 <= i -> Z.testbit (2 ^ w - 1) i = (i <? w).
Proof. intros Hw Hi. rewrite Z.sub_1_r, <- Z.ones_equiv. by apply Z.testbit_ones_nonneg. Qed.

Lemma testbit_unot w x i : 0 <= w -> 0 <= i -> Z.testbit (unot (2 ^ w - 1) x) i = xorb (Z.testbit x i) (i <? w).
Proof. intros. unfold unot. by rewrite Z.lxor_spec, testbit_max. Qed.

Lemma testbit_unot32 x i : 0 <= i -> Z.testbit (unot u32_max x) i = xorb (Z.testbit x i) (i <? 32).
Proof. apply (testbit_unot 32). lia. Qed.

Lemma testbit_unot64 x i : 0 <= i -> Z.testbit (unot u64_max x) i = xorb (Z.testbit x i) (i <? 64).
Proof. apply (testbit_unot 64). lia. Qed.

Lemma testbit_unot16 x i : 0 <= i -> Z.testbit (unot u16_max x) i = xorb (Z.testbit x i) (i <? 16).
Proof. apply (testbit_unot 16). lia. Qed.

Lemma testbit_mod w x i : 0 <= w -> 0 <= i -> Z.testbit (x mod 2 ^ w) i = (i <? w) && Z.testbit x i.
Proof.
  intros Hw Hi. destruct (Z.ltb_spec i w); [by rewrite Z.mod_pow2_bits_low|].
  by rewrite Z.mod_pow2_bits_high by lia.
Qed.

(** Bits above the width of a word. *)
Lemma testbit_u32 x i : in_u32 x -> 32 <= i -> Z.testbit x i = false.
Proof. intros Hx Hi. apply (testbit_high x 32); ulia. Qed.
Lemma testbit_u64 x i : in_u64 x -> 64 <= i -> Z.testbit x i = false.
Proof. intros Hx Hi. apply (testbit_high x 64); ulia. Qed.

(** A number is below [2^w] when its bits from [w] on are clear. *)
Lemma bits_below x w : 0 <= w -> 0 <= x -> (forall i, w <= i -> Z.testbit x i = false) -> x < 2 ^ w.
Proof.
  intros Hw Hx Hb. destruct (Z.eq_dec x 0) as [->|Hne]; [apply Z.pow_pos_nonneg; lia|].
  apply Z.log2_lt_pow2; [lia|]. destruct (Z.lt_ge_cases (Z.log2 x) w) as [|Hge]; [done|].
  apply Hb in Hge. rewrite Z.bit_log2 in Hge by lia. done.
Qed.

Lemma land_range w x y : 0 <= w -> 0 <= x < 2 ^ w -> 0 <= y -> 0 <= Z.land x y < 2 ^ w.
Proof.
  intros Hw Hx Hy. assert (0 <= Z.land x y) by (apply Z.land_nonneg; lia). split; [done|].
  apply bits_below; [done..|]. intros i Hi. by rewrite Z.land_spec, (testbit_high x w).
Qed.

Lemma lor_range w x y : 0 <= w -> 0 <= x < 2 ^ w -> 0 <= y < 2 ^ w -> 0 <= Z.lor x y < 2 ^ w.
Proof.
  intros Hw Hx Hy. assert (0 <= Z.lor x y) by (apply Z.lor_nonneg; lia). split; [done|].
  apply bits_below; [done..|]. intros i Hi. by rewrite Z.lor_spec, (testbit_high x w), (testbit_high y w).
Qed.

Lemma unot_range w x : 0 <= w -> 0 <= x < 2 ^ w -> 0 <= unot (2 ^ w - 1) x < 2 ^ w.
Proof.
  intros Hw Hx. assert (0 <= unot (2 ^ w - 1) x) by (unfold unot; apply Z.lxor_nonneg; lia). split; [done|].
  apply bits_below; [done..|]. intros i Hi. rewrite testbit_unot, (testbit_high x w) by lia.
  by destruct (Z.ltb_spec i w); [lia|].
Qed.

Lemma in_u32_iff x : in_u32 x <-> 0 <= x < 2 ^ 32.
Proof. ulia. Qed.

Lemma land_u32 x y : in_u32 x -> 0 <= y -> in_u32 (Z.land x y).
Proof. rewrite !in_u32_iff. intros. by apply land_range. Qed.
Lemma land_u32_r x y : 0 <= x -> in_u32 y -> in_u32 (Z.land x y).
Proof. rewrite Z.land_comm. intros. by apply land_u32. Qed.
Lemma lor_u32 x y : in_u32 x -> in_u32 y -> in_u32 (Z.lor x y).
Proof. rewrite !in_u32_iff. intros. by apply lor_range. Qed.
Lemma unot_u32 x : in_u32 x -> in_u32 (unot u32_max x).
Proof. rewrite !in_u32_iff. apply (unot_range 32). lia. Qed.
Lemma as_u32_u32 x : in_u32 (as_u32 x).
Proof. unfold as_u32. pose proof (Z.mod_pos_bound x (2 ^ 32)). ulia. Qed.
Lemma as_u32_id x : in_u32 x -> as_u32 x = x.
Proof. unfold as_u32. intros. apply Z.mod_small. ulia. Qed.
Lemma as_u16_id x : in_u16 x -> as_u16 x = x.
Proof. unfold as_u16. intros. apply Z.mod_small. ulia. Qed.
Lemma as_u8_id x : in_u8 x -> as_u8 x = x.
Proof. unfold as_u8. intros. apply Z.mod_small. ulia. Qed.

Create HintDb u32 discriminated.
#[export] Hint Resolve land_u32 lor_u32 unot_u32 as_u32_u32 : u32.

(** Case analysis on the bits of an equation between words; the bits of the
    constants are decided by [cbn] on the index when it is bounded. *)
Ltac zbits i :=
  apply Z.bits_inj'; intros i ?;
  repeat rewrite ?Z.land_spec, ?Z.lor_spec, ?Z.lxor_spec, ?Z.bits_0;
  rewrite ?testbit_unot32, ?testbit_unot64, ?testbit_unot16 by lia.

(** ** Bits within a mask *)

(** [sub_bits a b]: every bit of [a] is a bit of [b]. *)
Definition sub_bits (a b : Z) : Prop := Z.land a b = a.

Lemma sub_bits_testbit a b i : sub_bits a b -> Z.testbit a i = true -> Z.testbit b i = true.
Proof. unfold sub_bits. intros H Ha. rewrite <- H, Z.land_spec in Ha. by apply andb_true_iff in Ha as [_ ?]. Qed.

Lemma sub_bits_refl a : sub_bits a a.
Proof. apply Z.land_diag. Qed.

Lemma sub_bits_0 b : sub_bits 0 b.
Proof. apply Z.land_0_l. Qed.

(** Replacing bits within [w] keeps the others. *)
Lemma merge_keeps x v m w :
  in_u32 w -> sub_bits m w ->
  Z.land (Z.lor (Z.land x (unot u32_max w)) (Z.land v m)) (unot u32_max w) = Z.land x (unot u32_max w).
Proof.
  intros Hw Hs. zbits i. destruct (Z.testbit m i) eqn:Em.
  - rewrite (sub_bits_testbit _ _ _ Hs Em), andb_true_r.
    destruct (Z.ltb_spec i 32); cbn; [by rewrite !andb_false_r|].
    apply sub_bits_testbit with (i := i) in Hs; [|done]. by rewrite (testbit_u32 w) in Hs.
  - rewrite andb_false_r, orb_false_r. by destruct (Z.testbit x i), (xorb _ _).
Qed.

(** The bits within [w] are then those of [v] within [m]. *)
Lemma merge_takes x v m w :
  in_u32 w -> sub_bits m w -> Z.land (Z.lor (Z.land x (unot u32_max w)) (Z.land v m)) w = Z.land v m.
Proof.
  intros Hw Hs. zbits i. destruct (Z.testbit w i) eqn:Ew.
  - rewrite andb_true_r. destruct (Z.ltb_spec i 32); cbn; [by rewrite andb_false_r|].
    by rewrite (testbit_u32 w) in Ew.
  - rewrite andb_false_r. destruct (Z.testbit m i) eqn:Em; [|by rewrite andb_false_r].
    by rewrite (sub_bits_testbit _ _ _ Hs Em) in Ew.
Qed.

Lemma land_idem x m : Z.land (Z.land x m) m = Z.land x m.
Proof. by rewrite <- Z.land_assoc, Z.land_diag. Qed.

(** ** Powers of two *)

Lemma testbit_pow2_mask k i : 0 <= k <= 32 -> 0 <= i -> Z.testbit (2 ^ 32 - 2 ^ k) i = (k <=? i) && (i <? 32).
Proof.
  intros Hk Hi. replace (2 ^ 32 - 2 ^ k) with (Z.shiftl (2 ^ (32 - k) - 1) k).
  - rewrite Z.shiftl_spec by done. destruct (Z.leb_spec k i); cbn.
    + rewrite testbit_max by lia. by destruct (Z.ltb_spec (i - k) (32 - k)), (Z.ltb_spec i 32); try lia.
    + by rewrite Z.testbit_neg_r by lia.
  - rewrite Z.shiftl_mul_pow2 by lia. rewrite Z.mul_sub_distr_r, <- Z.pow_add_r by lia.
    f_equal; [f_equal; lia|lia].
Qed.

(** The complement of the low [k] bits. *)
Lemma unot_pred_pow2 k : 0 <= k <= 32 -> unot u32_max (2 ^ k - 1) = 2 ^ 32 - 2 ^ k.
Proof.
  intros Hk. apply Z.bits_inj'. intros i Hi.
  rewrite testbit_unot32, testbit_max, testbit_pow2_mask by lia.
  by destruct (Z.ltb_spec i k), (Z.leb_spec k i), (Z.ltb_spec i 32); try lia.
Qed.

(** Two halves next to each other. *)
Lemma lor_shiftl_add a b w : 0 <= w -> 0 <= b < 2 ^ w -> Z.lor (Z.shiftl a w) b = a * 2 ^ w + b.
Proof.
  intros Hw Hb. assert (Z.land (Z.shiftl a w) b = 0) as E.
  { zbits i. destruct (Z.lt_ge_cases i w); [by rewrite Z.shiftl_spec_low|]. rewrite (testbit_high b w) by lia. apply andb_false_r. }
  rewrite <- Z.lxor_lor, <- Z.add_nocarry_lxor by done. by rewrite Z.shiftl_mul_pow2.
Qed.

(** ** Little-endian bytes *)

Lemma le_write_length n v : length (le_write n v) = n.
Proof. revert v. induction n; intros; cbn; [done|]. by f_equal. Qed.

Lemma le_read_write n v : 0 <= v < 2 ^ (8 * Z.of_nat n) -> le_read (le_write n v) = v.
Proof.
  revert v. induction n as [|n IH]; intros v Hv; cbn [le_write le_read]; [cbn in Hv; lia|].
  rewrite IH.
  - pose proof (Z.div_mod v 256). lia.
  - replace (8 * Z.of_nat (S n)) with (8 + 8 * Z.of_nat n) in Hv by lia.
    rewrite Z.pow_add_r in Hv by lia. split; [apply Z.div_pos; lia|]. apply Z.div_lt_upper_bound; lia.
Qed.

Lemma le_write_read data : Forall (fun b => 0 <= b < 256) data -> le_write (length data) (le_read data) = data.
Proof.
  induction data as [|b data IH]; intros Hd; [done|]. apply Forall_cons in Hd as [Hb Hd].
  cbn [length le_read le_write]. f_equal.
  - rewrite Z.mul_comm, Z.mod_add by lia. apply Z.mod_small; lia.
  - rewrite Z.mul_comm, Z.div_add, Z.div_small by lia. by apply IH.
Qed.

Lemma le_read_bound data : Forall (fun b => 0 <= b < 256) data -> 0 <= le_read data < 2 ^ (8 * Z.of_nat (length data)).
Proof.
  induction data as [|b data IH]; intros Hd; [cbn; lia|]. apply Forall_cons in Hd as [Hb Hd].
  specialize (IH Hd). cbn [le_read length]. replace (8 * Z.of_nat (S (length data))) with (8 + 8 * Z.of_nat (length data)) by lia.
  rewrite Z.pow_add_r by lia. lia.
Qed.
