(* ===== verification/PciBus.v ===== *)
(** * The PCI bus

    Model of src/dragonball/dbs_pci/src/bus.rs: the address ranges that the VMM
    assigns to a bus and that the devices on it allocate from, and the table of
    the devices by slot.  The errors are those of lib.rs.  A device is reached
    through a reference counted pointer; here the table holds a reference
    (a number) into the store of all devices, which is part of the state. *)
From S2P Require Import Prelude IntervalTree DeviceResources IoManager Effects.

Inductive PciError :=
| ActivateFailure (e : IoError)
| InvalidResource (r : Resource)
| InvalidBusId (id : Z)
| NoResources
| CapabilityEmpty
| CapabilitySpaceFull (len : Z)
| BarInUse (bar : Z)
| BarInvalid (bar : Z)
| BarSizeInvalid (size : Z)
| BarAddressInvalid (addr size : Z)
| BarInvalid64 (bar : Z)
| BarInUse64 (bar : Z)
| RomBarInvalid (bar : Z)
| RomBarInUse (bar : Z)
| RomBarSizeInvalid (size : Z)
| RomBarAddressInvalid (addr size : Z)
| InvalidParameter.

Definition fill_config_data (data : list Z) : list Z := map (fun _ => 0xff) data.

(** ** Resources of the bus *)

Record PciBusContent := mkBusContent {
  bus_resources : option DeviceResources;
  ioport_resources : IntervalTree unit;
  iomem_resources : IntervalTree unit;
}.

Definition PciBusContent_new : PciBusContent := mkBusContent None it_new it_new.

Definition put_ioport (t : IntervalTree unit) (s : PciBusContent) : PciBusContent :=
  mkBusContent (bus_resources s) t (iomem_resources s).
Definition put_iomem (t : IntervalTree unit) (s : PciBusContent) : PciBusContent :=
  mkBusContent (bus_resources s) (ioport_resources s) t.

#[local] Abbreviation bus_eff := (eff PciBusContent PciError).

(** The body of the loop of [assign_resources]. *)
Definition assign_resource (res : Resource) : bus_eff unit :=
  match res with
  | PioAddressRange base size =>
      if size =? 0 then throw (InvalidResource res) else
      match checked_add u16_max base (size - 1) with
      | None => throw (InvalidResource res)
      | Some last =>
          s ← gets id;
          t ← lift_outcome (r ← Range_new base last; it_insert (ioport_resources s) r None);
          modify (put_ioport t)
      end
  | MmioAddressRange base size =>
      if size =? 0 then throw (InvalidResource res) else
      match checked_add u64_max base (size - 1) with
      | None => throw (InvalidResource res)
      | Some last =>
          s ← gets id;
          t ← lift_outcome (r ← Range_new base last; it_insert (iomem_resources s) r None);
          modify (put_iomem t)
      end
  | _ => mret tt
  end.

Definition assign_resources (resources : DeviceResources) : bus_eff unit :=
  _ ← for_each assign_resource (dr_entries resources);
  modify (fun s => mkBusContent (Some resources) (ioport_resources s) (iomem_resources s)).

(** [free_all_resource] on one entry; the port arithmetic is on 16 bits. *)
Definition free_one_resource (res : Resource) : bus_eff unit :=
  s ← gets id;
  match res with
  | PioAddressRange base size =>
      t ← lift_outcome (e ← uadd u16_max base size; e ← usub e 1; r ← Range_new base e;
                it_free (ioport_resources s) r);
      modify (put_ioport t.2)
  | MmioAddressRange base size =>
      t ← lift_outcome (e ← uadd u64_max base size; e ← usub e 1; r ← Range_new base e;
                it_free (iomem_resources s) r);
      modify (put_iomem t.2)
  | _ => mret tt
  end.

Definition free_all_resource (resources : DeviceResources) : bus_eff unit :=
  for_each free_one_resource (get_all_resources resources).

Definition bus_free_resources (resources : DeviceResources) : bus_eff unit := free_all_resource resources.

Definition bus_constraint (range : option (Z * Z)) (align size : Z) : Constraint :=
  let constraint := with_align (Constraint_new size) align in
  match range with
  | Some (mn, mx) => with_max (with_min constraint mn) mx
  | None => constraint
  end.

(** One request: the resource that answers it, [None] when there is none. *)
Definition allocate_request (req : ResourceConstraint) : bus_eff (option (option Resource)) :=
  s ← gets id;
  match req with
  | RC_PioAddress range align size =>
      t ← lift_outcome (it_allocate (ioport_resources s) (bus_constraint range align size));
      _ ← modify (put_ioport t.2);
      match t.1 with
      | Some r => len ← lift_outcome (Range_len r); mret (Some (Some (PioAddressRange (as_u16 (r_min r)) (as_u16 len))))
      | None => mret None
      end
  | RC_MmioAddress range align size =>
      t ← lift_outcome (it_allocate (iomem_resources s) (bus_constraint range align size));
      _ ← modify (put_iomem t.2);
      match t.1 with
      | Some r => len ← lift_outcome (Range_len r); mret (Some (Some (MmioAddressRange (r_min r) len)))
      | None => mret None
      end
  | _ => mret (Some None)
  end.

Fixpoint allocate_loop (constraints : list ResourceConstraint) (resources : DeviceResources)
    : bus_eff DeviceResources :=
  match constraints with
  | [] => mret resources
  | req :: constraints' =>
      o ← allocate_request req;
      match o with
      | Some (Some res) => allocate_loop constraints' (dr_append resources res)
      | Some None => allocate_loop constraints' resources
      | None => _ ← free_all_resource resources; throw NoResources
      end
  end.

Definition bus_allocate_resources (constraints : list ResourceConstraint) : bus_eff DeviceResources :=
  allocate_loop constraints dr_new.

(** ** Devices on the bus *)

Record PciBus := mkPciBus { bus_id : Z; bus_state : PciBusContent; bus_devices : IntervalTree nat }.

Definition put_bus_devices (t : IntervalTree nat) (b : PciBus) : PciBus := mkPciBus (bus_id b) (bus_state b) t.
Definition put_bus_state (s : PciBusContent) (b : PciBus) : PciBus := mkPciBus (bus_id b) s (bus_devices b).

(** The device id is the slot of the device. *)
Definition assign_default_device_id : outcome (IntervalTree nat) :=
  r ← Range_new 0x0 0x1f; it_insert it_new r None.

Definition PciBus_new (id : Z) : outcome PciBus :=
  t ← assign_default_device_id; Ret (mkPciBus id PciBusContent_new t).

Definition allocate_device_id (device_id : option Z) (b : PciBus) : outcome (option Z * PciBus) :=
  let constraint := with_align (Constraint_new 1) 1 in
  let constraint := match device_id with
                    | Some id => with_max (with_min constraint id) id
                    | None => constraint
                    end in
  '(o, t) ← it_allocate (bus_devices b) constraint;
  Ret (option_map (fun e => as_u8 (r_min e)) o, put_bus_devices t b).

Definition free_device_id (device_id : Z) (b : PciBus) : outcome (option nat * PciBus) :=
  if 0x1f <? device_id then Ret (None, b) else
  r ← Range_new device_id device_id;
  '(o, t) ← it_free (bus_devices b) r;
  Ret (o, put_bus_devices t b).

(** What the trait [PciDevice] asks of a device [D].  A write may allocate from
    the bus, which the device reaches through a weak reference. *)
Class PciDevice (D : Type) := {
  pci_device_id : D -> Z;
  pci_read_config : D -> Z -> list Z -> outcome (list Z);
  pci_write_config : Z -> list Z -> D * PciBusContent -> outcome (D * PciBusContent);
}.

Section devices.
Context {D : Type} `{PciDevice D}.

(** [register_device]: the update of a slot that was not allocated changes
    nothing when the slot is part of a larger free range, and panics when it is the
    only free one there; a slot that has a device makes the assertion panic. *)
Definition register_device (dev : nat) (d : D) (b : PciBus) : outcome PciBus :=
  r ← Range_new (pci_device_id d) (pci_device_id d);
  '(old, t) ← it_update (bus_devices b) r dev;
  match old with None => Ret (put_bus_devices t b) | Some _ => Panic end.

Definition get_device (device_id : Z) (b : PciBus) : outcome (option nat) :=
  if 0x1f <? device_id then Ret None else
  r ← Range_new device_id device_id;
  Ret (match it_get (bus_devices b) r with Some (Valued d) => Some d | _ => None end).

(** [true] when the access is refused; the length of the data is looked at last. *)
Definition check_pci_cfg_valid (dev func offset data_len : Z) : outcome bool :=
  if (0x1f <? dev) || negb (func =? 0) || (0x1000 <=? offset) then Ret true else
  m ← usub data_len 1;
  Ret (negb (Z.land (Z.land offset (as_u32 m)) 0x3 =? 0)).

Definition bus_read_config (dev func offset : Z) (data : list Z) (b : PciBus) (store : gmap nat D)
    : outcome (list Z) :=
  refused ← check_pci_cfg_valid dev func offset (Z.of_nat (length data));
  if (refused : bool) then Ret (fill_config_data data) else
  r ← Range_new dev dev;
  match it_get (bus_devices b) r with
  | Some (Valued h) => d ← unwrap (store !! h); pci_read_config d offset data
  | _ => Ret (fill_config_data data)
  end.

Definition bus_write_config (dev func offset : Z) (data : list Z) (b : PciBus) (store : gmap nat D)
    : outcome (PciBus * gmap nat D) :=
  refused ← check_pci_cfg_valid dev func offset (Z.of_nat (length data));
  if (refused : bool) then Ret (b, store) else
  r ← Range_new dev dev;
  match it_get (bus_devices b) r with
  | Some (Valued h) =>
      d ← unwrap (store !! h);
      '(d, s) ← pci_write_config offset data (d, bus_state b);
      Ret (put_bus_state s b, <[h := d]> store)
  | _ => Ret (b, store)
  end.
End devices.
