(* ===== verification/PciConfig.v ===== *)
(** * The PCI configuration space of a device

    Model of src/dragonball/dbs_pci/src/configuration.rs: the 64 registers with
    their writable bits, the base address registers (BARs) with the sizing
    protocol and the move of their resources on the bus, the list of
    capabilities, and the accesses of one, two and four bytes.  The bus is
    reached through a weak reference: [None] stands for a bus that is gone.  A
    capability is only reached through the list that owns it, and its reads do
    not change it. *)
From S2P Require Import Prelude IntervalTree DeviceResources Effects InterruptManager PciBus.

(** ** Counting bits *)

Fixpoint pos_ctz (p : positive) : Z := match p with xO q => 1 + pos_ctz q | _ => 0 end.
Fixpoint pos_ones (p : positive) : Z :=
  match p with xO q => pos_ones q | xI q => 1 + pos_ones q | xH => 1 end.

(** [trailing_zeros] and [count_ones] of a 64-bit value. *)
Definition trailing_zeros (x : Z) : Z := match x with Zpos p => pos_ctz p | _ => 64 end.
Definition count_ones (x : Z) : Z := match x with Zpos p => pos_ones p | _ => 0 end.

(** ** Data *)

Abbreviation NUM_CONFIGURATION_REGISTERS := 64%nat.
Abbreviation NUM_BAR_REGS := 6.
Abbreviation STATUS_REG := 1.
Abbreviation BAR0_REG := 4.
Abbreviation ROM_BAR_REG := 12.
Abbreviation CAPABILITY_LIST_HEAD_REG := 13.
Abbreviation INTERRUPT_LINE_PIN_REG := 15.
Abbreviation STATUS_REG_CAPABILITIES_USED_MASK := 0x00100000.
Abbreviation BAR_IO_ADDR_MASK := 0xfffffffc.
Abbreviation BAR_MEM_ADDR_MASK := 0xfffffff0.
Abbreviation ROM_BAR_ADDR_MASK := 0xfffff800.
Abbreviation FIRST_CAPABILITY_OFFSET := 0x40.
Abbreviation CAPABILITY_MAX_OFFSET := 0xc0.

Inductive PciHeaderType := HeaderDevice | HeaderBridge | HeaderCardBus.

#[global] Instance PciHeaderType_eq_dec : EqDecision PciHeaderType.
Proof. solve_decision. Defined.

Inductive PciClassCode :=
| TooOld | MassStorage | NetworkController | DisplayController | MultimediaController | MemoryController
| BridgeDevice | SimpleCommunicationController | BaseSystemPeripheral | InputDevice | DockingStation
| Processor | SerialBusController | WirelessController | IntelligentIoController
| SatelliteCommunicationController | EncryptionController | DataAcquisitionSignalProcessing | OtherClass.

Definition class_register_value (c : PciClassCode) : Z :=
  match c with
  | TooOld => 0x00 | MassStorage => 0x01 | NetworkController => 0x02 | DisplayController => 0x03
  | MultimediaController => 0x04 | MemoryController => 0x05 | BridgeDevice => 0x06
  | SimpleCommunicationController => 0x07 | BaseSystemPeripheral => 0x08 | InputDevice => 0x09
  | DockingStation => 0x0a | Processor => 0x0b | SerialBusController => 0x0c | WirelessController => 0x0d
  | IntelligentIoController => 0x0e | SatelliteCommunicationController => 0x0f
  | EncryptionController => 0x10 | DataAcquisitionSignalProcessing => 0x11 | OtherClass => 0xff
  end.

Inductive PciCapabilityId :=
| ListID | PowerManagement | AcceleratedGraphicsPort | VitalProductData | SlotIdentification
| MessageSignalledInterrupts | CompactPCIHotSwap | PCIX | HyperTransport | VendorSpecific | Debugport
| CompactPCICentralResourceControl | PCIStandardHotPlugController | BridgeSubsystemVendorDeviceID
| AGPTargetPCIPCIbridge | SecureDevice | PCIExpress | MSIX | SATADataIndexConf | PCIAdvancedFeatures
| PCIEnhancedAllocation.

Definition capability_ids : list PciCapabilityId :=
  [ListID; PowerManagement; AcceleratedGraphicsPort; VitalProductData; SlotIdentification;
   MessageSignalledInterrupts; CompactPCIHotSwap; PCIX; HyperTransport; VendorSpecific; Debugport;
   CompactPCICentralResourceControl; PCIStandardHotPlugController; BridgeSubsystemVendorDeviceID;
   AGPTargetPCIPCIbridge; SecureDevice; PCIExpress; MSIX; SATADataIndexConf; PCIAdvancedFeatures;
   PCIEnhancedAllocation].

#[global] Instance PciCapabilityId_eq_dec : EqDecision PciCapabilityId.
Proof. solve_decision. Defined.

(** [From<u8>]: the position in the list, [ListID] for an unknown value. *)
Definition PciCapabilityId_from (c : Z) : PciCapabilityId :=
  if (0 <=? c) && (c <? 21) then nth (Z.to_nat c) capability_ids ListID else ListID.

(** [id as u8] *)
Definition capability_id_value (i : PciCapabilityId) : Z :=
  match i with
  | ListID => 0 | PowerManagement => 0x01 | AcceleratedGraphicsPort => 0x02 | VitalProductData => 0x03
  | SlotIdentification => 0x04 | MessageSignalledInterrupts => 0x05 | CompactPCIHotSwap => 0x06
  | PCIX => 0x07 | HyperTransport => 0x08 | VendorSpecific => 0x09 | Debugport => 0x0a
  | CompactPCICentralResourceControl => 0x0b | PCIStandardHotPlugController => 0x0c
  | BridgeSubsystemVendorDeviceID => 0x0d | AGPTargetPCIPCIbridge => 0x0e | SecureDevice => 0x0f
  | PCIExpress => 0x10 | MSIX => 0x11 | SATADataIndexConf => 0x12 | PCIAdvancedFeatures => 0x13
  | PCIEnhancedAllocation => 0x14
  end.

(** The trait [PciCapability]. *)
Class PciCapability (C : Type) := {
  cap_len : C -> Z;
  set_next_cap : Z -> C -> C;
  cap_u8 : C -> Z -> Z;
  cap_u16 : C -> Z -> Z;
  cap_u32 : C -> Z -> Z;
  cap_set_u8 : Z -> Z -> C -> C;
  cap_set_u16 : Z -> Z -> C -> C;
  cap_set_u32 : Z -> Z -> C -> C;
  pci_capability_type : C -> PciCapabilityId;
}.

(** The default methods of the trait, from the accesses of one byte. *)
Definition default_read_u16 (read_u8 : Z -> Z) (offset : Z) : Z :=
  Z.lor (read_u8 offset) (as_u16 (Z.shiftl (read_u8 (offset + 1)) 8)).
Definition default_read_u32 (read_u16 : Z -> Z) (offset : Z) : Z :=
  Z.lor (read_u16 offset) (as_u32 (Z.shiftl (read_u16 (offset + 2)) 16)).
Definition default_write_u16 {C} (write_u8 : Z -> Z -> C -> C) (offset value : Z) (c : C) : C :=
  write_u8 (offset + 1) (as_u8 (Z.shiftr value 8)) (write_u8 offset (as_u8 value) c).
Definition default_write_u32 {C} (write_u16 : Z -> Z -> C -> C) (offset value : Z) (c : C) : C :=
  write_u16 (offset + 2) (as_u16 (Z.shiftr value 16)) (write_u16 offset (as_u16 value) c).

Inductive PciInterruptPin := IntA | IntB | IntC | IntD.

Definition pin_to_mask (p : PciInterruptPin) : Z :=
  match p with IntA => 1 | IntB => 2 | IntC => 3 | IntD => 4 end.

Inductive PciBarRegionType := Memory32BitRegion | IoRegion | Memory64BitRegion | Memory64BitRegionUpper.

#[global] Instance PciBarRegionType_eq_dec : EqDecision PciBarRegionType.
Proof. solve_decision. Defined.

(** [bar_type as u32] *)
Definition region_type_value (t : PciBarRegionType) : Z :=
  match t with
  | Memory32BitRegion => 0 | IoRegion => 0x01 | Memory64BitRegion => 0x04 | Memory64BitRegionUpper => 0x80
  end.

Inductive PciBarPrefetchable := NotPrefetchable | Prefetchable.

Definition prefetchable_value (p : PciBarPrefetchable) : Z :=
  match p with NotPrefetchable => 0 | Prefetchable => 0x08 end.

Record PciBarConfiguration := mkBarConfiguration {
  c_bar_idx : Z; c_bar_type : PciBarRegionType; c_prefetchable : PciBarPrefetchable; c_addr : Z; c_bar_size : Z }.

Definition PciBarConfiguration_new (bar_idx size : Z) (bar_type : PciBarRegionType) (p : PciBarPrefetchable)
    : PciBarConfiguration := mkBarConfiguration bar_idx bar_type p 0 size.
Definition PciBarConfiguration_default : PciBarConfiguration :=
  mkBarConfiguration 0 Memory64BitRegion NotPrefetchable 0 0.
Definition set_bar_type (t : PciBarRegionType) (c : PciBarConfiguration) : outcome PciBarConfiguration :=
  if bool_decide (t = Memory64BitRegionUpper) then Panic
  else Ret (mkBarConfiguration (c_bar_idx c) t (c_prefetchable c) (c_addr c) (c_bar_size c)).
Definition set_prefetchable (p : PciBarPrefetchable) (c : PciBarConfiguration) : PciBarConfiguration :=
  mkBarConfiguration (c_bar_idx c) (c_bar_type c) p (c_addr c) (c_bar_size c).
Definition set_bar_index (i : Z) (c : PciBarConfiguration) : outcome PciBarConfiguration :=
  if i <=? NUM_BAR_REGS then Ret (mkBarConfiguration i (c_bar_type c) (c_prefetchable c) (c_addr c) (c_bar_size c))
  else Panic.
Definition set_address (a : Z) (c : PciBarConfiguration) : PciBarConfiguration :=
  mkBarConfiguration (c_bar_idx c) (c_bar_type c) (c_prefetchable c) a (c_bar_size c).
Definition set_size (s : Z) (c : PciBarConfiguration) : PciBarConfiguration :=
  mkBarConfiguration (c_bar_idx c) (c_bar_type c) (c_prefetchable c) (c_addr c) s.

Record BarProgrammingParams := mkBarParams {
  p_bar_idx : Z; p_bar_type : PciBarRegionType; p_old_base : Z; p_new_base : Z; p_len : Z }.

Definition to_resources (p : BarProgrammingParams) (old : bool) : outcome DeviceResources :=
  let base := if old then p_old_base p else p_new_base p in
  match p_bar_type p with
  | IoRegion => Ret (dr_append dr_new (PioAddressRange (as_u16 base) (as_u16 (p_len p))))
  | Memory32BitRegion | Memory64BitRegion => Ret (dr_append dr_new (MmioAddressRange base (p_len p)))
  | Memory64BitRegionUpper => Panic
  end.

Record PciBarState := mkBarState { b_addr : Z; b_size : Z; b_type : option PciBarRegionType; b_allocated : bool }.

Definition PciBarState_default : PciBarState := mkBarState 0 0 None false.

Definition bar_mask (b : PciBarState) : outcome Z :=
  match b_type b with
  | None => Ret 0
  | Some IoRegion | Some Memory32BitRegion => m ← usub (b_size b) 1; Ret (unot u32_max m)
  | Some Memory64BitRegion => Ret (if b_size b =? 0 then 0 else unot u32_max (b_size b - 1))
  | Some Memory64BitRegionUpper => Ret (if b_size b =? 0 then 0xffffffff else unot u32_max (b_size b - 1))
  end.

(** The capability of Nvidia GPUs for peer-to-peer accesses. *)
Record Vp2pCap := mkVp2p {
  vp_id : Z; vp_next : Z; vp_length : Z; vp_sig_1 : Z; vp_sig_2 : Z; vp_sig_3 : Z; vp_clique_id : Z }.

Definition Vp2pCap_new (clique_id : Z) : Vp2pCap :=
  mkVp2p (capability_id_value VendorSpecific) 0 8 0x50 0x32 0x50 (as_u8 (Z.shiftl (Z.land clique_id 0xf) 3)).

Definition vp2p_read_u8 (c : Vp2pCap) (offset : Z) : Z :=
  if offset =? 0 then vp_id c else if offset =? 1 then vp_next c else if offset =? 2 then vp_length c
  else if offset =? 3 then vp_sig_1 c else if offset =? 4 then vp_sig_2 c else if offset =? 5 then vp_sig_3 c
  else if offset =? 6 then Z.land (vp_clique_id c) 0xff else 0.

#[global] Instance vp2p_capability : PciCapability Vp2pCap := {|
  cap_len _ := 8;
  set_next_cap n c := mkVp2p (vp_id c) n (vp_length c) (vp_sig_1 c) (vp_sig_2 c) (vp_sig_3 c) (vp_clique_id c);
  cap_u8 := vp2p_read_u8;
  cap_u16 c := default_read_u16 (vp2p_read_u8 c);
  cap_u32 c := default_read_u32 (default_read_u16 (vp2p_read_u8 c));
  cap_set_u8 _ _ c := c;
  cap_set_u16 := default_write_u16 (fun _ _ c => c);
  cap_set_u32 := default_write_u32 (default_write_u16 (fun _ _ c => c));
  pci_capability_type _ := VendorSpecific;
|}.

(** ** The configuration space *)

Section config.
Context {C : Type} {PC : PciCapability C}.

Record PciConfiguration := mkConfiguration {
  header_type : PciHeaderType;
  registers : list Z;
  writable_bits : list Z;
  bars : list PciBarState;
  bar_programming_params : option BarProgrammingParams;
  capabilities : list (Z * Z * C);
}.

(** [registers[i]], [writable_bits[i]] and [bars[i]] at an index in range. *)
Definition reg (c : PciConfiguration) (i : Z) : Z := nth (Z.to_nat i) (registers c) 0.
Definition wbits (c : PciConfiguration) (i : Z) : Z := nth (Z.to_nat i) (writable_bits c) 0.
Definition bar (c : PciConfiguration) (i : Z) : PciBarState := nth (Z.to_nat i) (bars c) PciBarState_default.

Definition set_reg (i v : Z) (c : PciConfiguration) : PciConfiguration :=
  mkConfiguration (header_type c) (<[Z.to_nat i := v]> (registers c)) (writable_bits c) (bars c)
    (bar_programming_params c) (capabilities c).
Definition set_wbits (i v : Z) (c : PciConfiguration) : PciConfiguration :=
  mkConfiguration (header_type c) (registers c) (<[Z.to_nat i := v]> (writable_bits c)) (bars c)
    (bar_programming_params c) (capabilities c).
Definition set_bar (i : Z) (b : PciBarState) (c : PciConfiguration) : PciConfiguration :=
  mkConfiguration (header_type c) (registers c) (writable_bits c) (<[Z.to_nat i := b]> (bars c))
    (bar_programming_params c) (capabilities c).
Definition set_params (p : option BarProgrammingParams) (c : PciConfiguration) : PciConfiguration :=
  mkConfiguration (header_type c) (registers c) (writable_bits c) (bars c) p (capabilities c).
Definition set_caps (l : list (Z * Z * C)) (c : PciConfiguration) : PciConfiguration :=
  mkConfiguration (header_type c) (registers c) (writable_bits c) (bars c) (bar_programming_params c) l.

Definition bar_addr (c : PciConfiguration) (i : Z) : Z := b_addr (bar c i).
Definition bar_size (c : PciConfiguration) (i : Z) : Z := b_size (bar c i).
Definition bar_type (c : PciConfiguration) (i : Z) : option PciBarRegionType := b_type (bar c i).
Definition bar_used (c : PciConfiguration) (i : Z) : bool :=
  match bar_type c i with Some _ => true | None => false end.
Definition bar_allocated (c : PciConfiguration) (i : Z) : bool := b_allocated (bar c i).
Definition set_bar_addr (i a : Z) (c : PciConfiguration) : PciConfiguration :=
  set_bar i (mkBarState a (bar_size c i) (bar_type c i) (bar_allocated c i)) c.
Definition set_bar_allocated (i : Z) (v : bool) (c : PciConfiguration) : PciConfiguration :=
  set_bar i (mkBarState (bar_addr c i) (bar_size c i) (bar_type c i) v) c.

(** *** Capabilities *)

Definition next_dword (offset len : Z) : Z := Z.land (offset + len + 3) (unot u64_max 3).

Definition next_cap_offset (caps : list (Z * Z * C)) : Z :=
  match last caps with
  | None => FIRST_CAPABILITY_OFFSET
  | Some (offset, len, _) => next_dword offset len
  end.

Definition add_capability (cap : C) : eff PciConfiguration PciError Z :=
  let total_len := cap_len cap in
  if total_len <=? 2 then throw CapabilityEmpty else
  caps ← gets capabilities;
  let cap_offset := next_cap_offset caps in
  match checked_add u64_max cap_offset total_len with
  | None => throw (CapabilitySpaceFull total_len)
  | Some end_offset =>
      if CAPABILITY_MAX_OFFSET <? end_offset then throw (CapabilitySpaceFull total_len) else
      _ ← modify (fun c => set_reg STATUS_REG (Z.lor (reg c STATUS_REG) STATUS_REG_CAPABILITIES_USED_MASK) c);
      value ← gets (fun c => reg c CAPABILITY_LIST_HEAD_REG);
      _ ← modify (fun c => set_reg CAPABILITY_LIST_HEAD_REG
             (Z.lor (Z.land (reg c CAPABILITY_LIST_HEAD_REG) (unot u32_max 0xff)) (as_u32 cap_offset)) c);
      _ ← modify (fun c => set_caps (capabilities c ++ [(cap_offset, total_len, set_next_cap (as_u8 value) cap)]) c);
      mret cap_offset
  end.

(** The first capability that covers an offset, with the offset in it. *)
Fixpoint find_cap (offset : Z) (caps : list (Z * Z * C)) : option (Z * C) :=
  match caps with
  | [] => None
  | (base, len, cap) :: caps' =>
      if (base <=? offset) && (offset <? base + len) then Some (offset - base, cap) else find_cap offset caps'
  end.

Definition cap_read_u8 (c : PciConfiguration) (offset : Z) : bool * Z :=
  match find_cap offset (capabilities c) with Some (o, cap) => (true, cap_u8 cap o) | None => (false, 0xff) end.
Definition cap_read_u16 (c : PciConfiguration) (offset : Z) : bool * Z :=
  match find_cap offset (capabilities c) with Some (o, cap) => (true, cap_u16 cap o) | None => (false, 0xffff) end.
Definition cap_read_u32 (c : PciConfiguration) (offset : Z) : bool * Z :=
  match find_cap offset (capabilities c) with Some (o, cap) => (true, cap_u32 cap o) | None => (false, 0xffffffff) end.

(** The loop of the writes: the first capability that covers the offset is
    changed, [None] when there is none. *)
Fixpoint update_cap (offset : Z) (f : Z -> C -> C) (caps : list (Z * Z * C)) : option (list (Z * Z * C)) :=
  match caps with
  | [] => None
  | (base, len, cap) :: caps' =>
      if (base <=? offset) && (offset <? base + len) then Some ((base, len, f (offset - base) cap) :: caps')
      else (fun l => (base, len, cap) :: l) <$> update_cap offset f caps'
  end.

(** *** Creation *)

(** [PciConfiguration::new]; [box] makes the trait object of the capability. *)
Definition PciConfiguration_new (box : Vp2pCap -> C) (vendor_id device_id : Z) (class_code : PciClassCode)
    (subclass : Z) (programming_interface : option Z) (header : PciHeaderType)
    (subsystem_vendor_id subsystem_id : Z) (clique_id : option Z) : outcome (result PciError PciConfiguration) :=
  if bool_decide (header <> HeaderDevice) then Panic else
  let pi := default 0 programming_interface in
  let registers :=
    <[0%nat := Z.lor (as_u32 (Z.shiftl device_id 16)) vendor_id]>
    (<[2%nat := Z.lor (Z.lor (as_u32 (Z.shiftl (class_register_value class_code) 24)) (as_u32 (Z.shiftl subclass 16)))
                      (as_u32 (Z.shiftl pi 8))]>
    (<[11%nat := Z.lor (as_u32 (Z.shiftl subsystem_id 16)) subsystem_vendor_id]>
      (repeat 0 NUM_CONFIGURATION_REGISTERS))) in
  let writable_bits :=
    <[1%nat := 0x0000ffff]> (<[3%nat := 0x000000ff]> (<[15%nat := 0x000000ff]>
      (repeat 0 NUM_CONFIGURATION_REGISTERS))) in
  let configuration := mkConfiguration header registers writable_bits (repeat PciBarState_default 7) None [] in
  match clique_id with
  | None => Ret (Ok configuration)
  | Some id =>
      '(r, configuration) ← add_capability (box (Vp2pCap_new id)) configuration;
      Ret (match r with Ok _ => Ok configuration | Err e => Err e end)
  end.

Definition set_irq (line : Z) (pin : PciInterruptPin) (c : PciConfiguration) : PciConfiguration :=
  let r := Z.land (reg c INTERRUPT_LINE_PIN_REG) 0xffff0000 in
  set_reg INTERRUPT_LINE_PIN_REG (Z.lor r (Z.lor (Z.shiftl (pin_to_mask pin) 8) line)) c.

(** *** Reads *)

Definition read_u32 (c : PciConfiguration) (offset : Z) : bool * Z :=
  let reg_idx := Z.shiftr offset 2 in
  if negb (Z.land offset 0x3 =? 0) || (256 <=? offset) then (false, 0xffffffff)
  else if reg_idx <? 4 then (true, reg c reg_idx)
  else if bool_decide (header_type c = HeaderDevice) && (reg_idx <? 16) then (true, reg c reg_idx)
  else
    let '(handled, value) := cap_read_u32 c offset in
    if handled then (true, value) else (false, reg c reg_idx).

Definition read_u16 (c : PciConfiguration) (offset : Z) : bool * Z :=
  if negb (Z.land offset 0x1 =? 0) || (256 <=? offset) then (false, 0xffff)
  else
    let '(handled, value) := cap_read_u16 c offset in
    if handled then (true, value) else
    let '(handled, value) := read_u32 c (Z.land offset (unot u64_max 0x3)) in
    (handled, as_u16 (Z.shiftr value (Z.land (as_u32 offset) 0x2 * 8))).

Definition read_u8 (c : PciConfiguration) (offset : Z) : bool * Z :=
  if 256 <=? offset then (false, 0xff)
  else
    let '(handled, value) := cap_read_u8 c offset in
    if handled then (true, value) else
    let '(handled, value) := read_u16 c (Z.land offset (unot u64_max 0x1)) in
    (handled, as_u8 (Z.shiftr value (Z.land (as_u16 offset) 0x1 * 8))).

(** [read_config]: the bytes that the buffer [data] holds afterwards. *)
Definition read_config (c : PciConfiguration) (offset : Z) (data : list Z) : list Z :=
  let len := length data in
  if (2 <=? trailing_zeros offset) && Nat.eqb len 4 then le_write 4 (read_u32 c offset).2
  else if (1 <=? trailing_zeros offset) && Nat.eqb len 2 then le_write 2 (read_u16 c offset).2
  else if Nat.eqb len 1 then [(read_u8 c offset).2]
  else map (fun _ => 0xff) data.

(** *** Base address registers *)

(** The address of a BAR. *)
Definition get_device_bar_addr (c : PciConfiguration) (bar_idx : Z) : outcome Z :=
  if bool_decide (header_type c <> HeaderDevice) then Panic
  else if negb (bar_idx <=? 6) then Panic
  else Ret (match bar_type c bar_idx with
            | None | Some Memory64BitRegionUpper => 0
            | Some Memory64BitRegion => Z.lor (bar_addr c bar_idx) (Z.shiftl (bar_addr c (bar_idx + 1)) 32)
            | Some _ => bar_addr c bar_idx
            end).

(** The checks of the type of a new BAR; the upper half of a 64-bit BAR gets its
    own register. *)
Definition check_bar_type (config : PciBarConfiguration) (end_addr : Z) : eff PciConfiguration PciError unit :=
  let idx := c_bar_idx config in
  match c_bar_type config with
  | IoRegion =>
      if (c_bar_size config <? 0x4) || (u32_max <? c_bar_size config) then throw (BarSizeInvalid (c_bar_size config))
      else if u32_max <? end_addr then throw (BarAddressInvalid (c_addr config) (c_bar_size config)) else mret tt
  | Memory32BitRegion =>
      if (c_bar_size config <? 0x10) || (u32_max <? c_bar_size config) then throw (BarSizeInvalid (c_bar_size config))
      else if u32_max <? end_addr then throw (BarAddressInvalid (c_addr config) (c_bar_size config)) else mret tt
  | Memory64BitRegion =>
      if NUM_BAR_REGS <=? idx + 1 then throw (BarInvalid64 idx) else
      used ← gets (fun c => bar_used c (idx + 1));
      if (used : bool) then throw (BarInUse64 idx) else
      let upper := as_u32 (Z.shiftr (c_addr config) 32) in
      _ ← modify (set_reg (BAR0_REG + idx + 1) upper);
      _ ← modify (set_wbits (BAR0_REG + idx + 1) 0xffffffff);
      modify (set_bar (idx + 1)
        (mkBarState upper (as_u32 (Z.shiftr (c_bar_size config) 32)) (Some Memory64BitRegionUpper) false))
  | Memory64BitRegionUpper => panic
  end.

Definition bar_flags (config : PciBarConfiguration) : Z * Z :=
  match c_bar_type config with
  | IoRegion => (BAR_IO_ADDR_MASK, region_type_value IoRegion)
  | t => (BAR_MEM_ADDR_MASK, Z.lor (prefetchable_value (c_prefetchable config)) (region_type_value t))
  end.

Definition add_device_bar (config : PciBarConfiguration) : eff PciConfiguration PciError Z :=
  let idx := c_bar_idx config in
  c ← gets id;
  if bool_decide (header_type c <> HeaderDevice) then throw (BarInvalid idx) else
  if NUM_BAR_REGS <=? idx then throw (BarInvalid idx) else
  if bar_used c idx then throw (BarInUse idx) else
  if negb (count_ones (c_bar_size config) =? 1) then throw (BarSizeInvalid (c_bar_size config)) else
  match checked_add u64_max (c_addr config) (c_bar_size config - 1) with
  | None => throw (BarAddressInvalid (c_addr config) (c_bar_size config))
  | Some end_addr =>
      _ ← check_bar_type config end_addr;
      let '(mask, lower_bits) := bar_flags config in
      let value := Z.lor (Z.land (as_u32 (c_addr config)) mask) lower_bits in
      _ ← modify (set_reg (BAR0_REG + idx) value);
      _ ← modify (set_wbits (BAR0_REG + idx) mask);
      _ ← modify (set_bar idx (mkBarState (Z.land value mask) (as_u32 (c_bar_size config)) (Some (c_bar_type config)) false));
      mret idx
  end.

Definition add_device_rom_bar (config : PciBarConfiguration) (active : Z) : eff PciConfiguration PciError Z :=
  let idx := c_bar_idx config in
  c ← gets id;
  if bool_decide (header_type c <> HeaderDevice) then throw (BarInvalid idx) else
  if negb (idx =? NUM_BAR_REGS) then throw (RomBarInvalid idx) else
  if bar_used c NUM_BAR_REGS then throw (RomBarInUse idx) else
  if negb (count_ones (c_bar_size config) =? 1) || (Z.land (c_bar_size config) ROM_BAR_ADDR_MASK =? 0)
  then throw (RomBarSizeInvalid (c_bar_size config)) else
  let base := Z.land (c_addr config) (unot u64_max (unot u32_max ROM_BAR_ADDR_MASK)) in
  match checked_add u64_max base (c_bar_size config - 1) with
  | None => throw (RomBarAddressInvalid (c_addr config) (c_bar_size config))
  | Some end_addr =>
      if u32_max <? end_addr then throw (RomBarAddressInvalid (c_addr config) (c_bar_size config)) else
      m ← lift_outcome (usub (as_u32 (c_bar_size config)) 1);
      let mask := Z.land ROM_BAR_ADDR_MASK (unot u32_max m) in
      let value := Z.lor (Z.land (as_u32 (c_addr config)) mask) active in
      _ ← modify (set_reg ROM_BAR_REG value);
      _ ← modify (set_wbits ROM_BAR_REG mask);
      _ ← modify (set_bar NUM_BAR_REGS
            (mkBarState (Z.land value mask) (as_u32 (c_bar_size config)) (Some Memory32BitRegion) false));
      mret idx
  end.

(** [get_bar_programming_params] takes the parameters out. *)
Definition get_bar_programming_params (c : PciConfiguration) : option BarProgrammingParams * PciConfiguration :=
  (bar_programming_params c, set_params None c).

Definition is_bar_reg (reg_idx : Z) : bool := (BAR0_REG <=? reg_idx) && (reg_idx <? BAR0_REG + NUM_BAR_REGS).

Definition is_device_bar_addr_changed (c : PciConfiguration) (reg_idx : Z) : bool :=
  let value := reg c reg_idx in
  let mask := wbits c reg_idx in
  if is_bar_reg reg_idx then negb (bar_addr c (reg_idx - BAR0_REG) =? Z.land value mask)
  else if reg_idx =? ROM_BAR_REG then negb (bar_addr c NUM_BAR_REGS =? Z.land value mask)
  else false.

(** The move of a BAR that a register change means, with the new address noted
    in the state of the BAR. *)
Definition detect_bar_programming (reg_idx : Z) (c : PciConfiguration)
    : option BarProgrammingParams * PciConfiguration :=
  if is_bar_reg reg_idx then
    let bar_idx := reg_idx - BAR0_REG in
    let mask := wbits c reg_idx in
    let value := Z.land (reg c reg_idx) mask in
    match bar_type c bar_idx with
    | None | Some Memory64BitRegion => (None, c)
    | Some Memory64BitRegionUpper =>
        let mask2 := wbits c (reg_idx - 1) in
        if negb (Z.land value mask =? bar_addr c bar_idx)
           || negb (Z.land (reg c (reg_idx - 1)) mask2 =? bar_addr c (bar_idx - 1))
        then
          let old_base := Z.lor (Z.shiftl (bar_addr c bar_idx) 32) (bar_addr c (bar_idx - 1)) in
          let new_base := Z.lor (Z.shiftl (Z.land value mask) 32) (Z.land (reg c (reg_idx - 1)) mask2) in
          let len := Z.lor (Z.shiftl (bar_size c bar_idx) 32) (bar_size c (bar_idx - 1)) in
          (Some (mkBarParams (bar_idx - 1) Memory64BitRegion old_base new_base len),
           set_bar_addr (bar_idx - 1) (reg c (reg_idx - 1)) (set_bar_addr bar_idx value c))
        else (None, c)
    | Some bar_ty =>
        if negb (Z.land value mask =? bar_addr c bar_idx) then
          let c := set_bar_addr bar_idx value c in
          (Some (mkBarParams bar_idx bar_ty (bar_addr c bar_idx) (Z.land value mask) (bar_size c bar_idx)), c)
        else (None, c)
    end
  else if (reg_idx =? ROM_BAR_REG) && bar_used c NUM_BAR_REGS then
    if is_device_bar_addr_changed c reg_idx then
      let value := Z.land (reg c reg_idx) (wbits c reg_idx) in
      (Some (mkBarParams NUM_BAR_REGS Memory32BitRegion (bar_addr c NUM_BAR_REGS) value (bar_size c NUM_BAR_REGS)),
       set_bar_addr NUM_BAR_REGS value c)
    else (None, c)
  else (None, c).

(** The configuration with the bus that it may call. *)
#[local] Abbreviation cfg_eff := (eff (PciConfiguration * option PciBusContent) PciError).

Definition cfg {A} (f : PciConfiguration -> A) : cfg_eff A := gets (fun s => f s.1).
Definition upd_cfg (f : PciConfiguration -> PciConfiguration) : cfg_eff unit := modify (fun s => (f s.1, s.2)).

(** [self.bus.upgrade().unwrap()] and a call on it. *)
Definition on_bus {A} (m : eff PciBusContent PciError A) : cfg_eff A := fun s =>
  match s.2 with
  | None => Panic
  | Some b => match m b with Ret (r, b') => Ret (r, (s.1, Some b')) | Panic => Panic end
  end.

Definition allocate_bar_resource (param : BarProgrammingParams) : cfg_eff unit :=
  if p_new_base param =? 0 then mret tt else
  allocated ← cfg (fun c => bar_allocated c (p_bar_idx param));
  if (allocated : bool) then panic else
  last ← lift_outcome (e ← uadd u64_max (p_new_base param) (p_len param); usub e 1);
  constraint ← match p_bar_type param with
    | IoRegion => mret (pio_with_constraints (as_u16 (p_len param)) (Some (as_u16 (p_new_base param), as_u16 last)) 1)
    | Memory32BitRegion | Memory64BitRegion =>
        mret (mmio_with_constraints (p_len param) (Some (p_new_base param, last)) 1)
    | Memory64BitRegionUpper => panic
    end;
  r ← attempt (on_bus (bus_allocate_resources [constraint]));
  match r with
  | Err _ => mret tt
  | Ok _ => upd_cfg (set_bar_allocated (p_bar_idx param) true)
  end.

Definition free_bar_resource (param : BarProgrammingParams) : cfg_eff unit :=
  allocated ← cfg (fun c => bar_allocated c (p_bar_idx param));
  if (allocated : bool) then
    res ← match p_bar_type param with
      | Memory32BitRegion | Memory64BitRegion => mret (MmioAddressRange (p_old_base param) (p_len param))
      | IoRegion => mret (PioAddressRange (as_u16 (p_old_base param)) (as_u16 (p_len param)))
      | Memory64BitRegionUpper => panic
      end;
    _ ← on_bus (bus_free_resources (dr_append dr_new res));
    upd_cfg (set_bar_allocated (p_bar_idx param) false)
  else mret tt.

Definition write_device_bar_reg (reg_idx value : Z) : cfg_eff bool :=
  let probing := value =? 0xffffffff in
  c ← cfg id;
  mask ← (if probing then
            lift_outcome (bar_mask (bar c (if reg_idx =? ROM_BAR_REG then NUM_BAR_REGS else reg_idx - BAR0_REG)))
          else mret (wbits c reg_idx));
  _ ← upd_cfg (set_reg reg_idx (Z.lor (Z.land (reg c reg_idx) (unot u32_max (wbits c reg_idx))) (Z.land value mask)));
  _ ← (if probing then mret tt else
       c ← cfg id;
       let '(param, c) := detect_bar_programming reg_idx c in
       _ ← upd_cfg (fun _ => c);
       match param with
       | None => mret tt
       | Some param =>
           _ ← free_bar_resource param;
           _ ← allocate_bar_resource param;
           pending ← cfg bar_programming_params;
           match pending with
           | Some _ => panic
           | None => upd_cfg (set_params (Some param))
           end
       end);
  mret true.

(** *** Writes *)

(** [registers[i] = registers[i] & !mask | value & mask] *)
Definition merge_reg (i mask value : Z) (c : PciConfiguration) : PciConfiguration :=
  set_reg i (Z.lor (Z.land (reg c i) (unot u32_max mask)) (Z.land value mask)) c.

(** A write to the capabilities: whether one of them covers the offset. *)
Definition cap_write (offset : Z) (f : Z -> C -> C) : cfg_eff bool :=
  caps ← cfg capabilities;
  match update_cap offset f caps with
  | Some caps' => _ ← upd_cfg (set_caps caps'); mret true
  | None => mret false
  end.
Definition cap_write_u8 (offset value : Z) : cfg_eff bool := cap_write offset (fun o => cap_set_u8 o value).
Definition cap_write_u16 (offset value : Z) : cfg_eff bool := cap_write offset (fun o => cap_set_u16 o value).
Definition cap_write_u32 (offset value : Z) : cfg_eff bool := cap_write offset (fun o => cap_set_u32 o value).

(** [write_u32]; the writable bits are looked up before the offset is checked. *)
Definition write_u32 (offset value : Z) : cfg_eff bool :=
  let reg_idx := Z.shiftr offset 2 in
  c ← cfg id;
  mask ← expect (at_index (writable_bits c) reg_idx);
  if negb (Z.land offset 0x3 =? 0) || (256 <=? offset) then mret false else
  if (reg_idx =? 0) || (reg_idx =? 2) then mret true else
  if (reg_idx =? 1) || (reg_idx =? 3) then _ ← upd_cfg (merge_reg reg_idx mask value); mret true else
  let device_reg := bool_decide (header_type c = HeaderDevice) && (reg_idx <? 16) in
  if device_reg && (is_bar_reg reg_idx || (reg_idx =? ROM_BAR_REG)) then write_device_bar_reg reg_idx value else
  if device_reg && ((reg_idx =? 0xa) || (reg_idx =? 0xb) || (reg_idx =? 0xd) || (reg_idx =? 0xe)) then mret true else
  if device_reg && (reg_idx =? 0xf) then _ ← upd_cfg (merge_reg reg_idx mask value); mret true else
  handled ← cap_write_u32 offset value;
  if (handled : bool) then mret true else
  _ ← upd_cfg (merge_reg reg_idx mask value); mret false.

Definition write_u16 (offset value : Z) : cfg_eff bool :=
  if negb (Z.land offset 0x1 =? 0) || (256 <=? offset) then mret false else
  handled ← cap_write_u16 offset value;
  if (handled : bool) then mret true else
  c ← cfg id;
  let aligned := Z.land offset (unot u64_max 0x3) in
  let mask := as_u32 (Z.shiftl 0xffff (Z.shiftl (Z.land (as_u32 offset) 0x2) 3)) in
  let old := Z.land (read_u32 c aligned).2 (unot u32_max mask) in
  write_u32 aligned (Z.lor old (Z.land value mask)).

Definition write_u8 (offset value : Z) : cfg_eff bool :=
  if 256 <=? offset then mret false else
  handled ← cap_write_u8 offset value;
  if (handled : bool) then mret true else
  c ← cfg id;
  let aligned := Z.land offset (unot u64_max 0x3) in
  let mask := as_u32 (Z.shiftl 0xff (Z.shiftl (Z.land (as_u32 offset) 0x3) 3)) in
  let old := Z.land (read_u32 c aligned).2 (unot u32_max mask) in
  write_u32 aligned (Z.lor old (Z.land value mask)).

Definition write_config (offset : Z) (data : list Z) : cfg_eff unit :=
  let len := length data in
  if (2 <=? trailing_zeros offset) && Nat.eqb len 4 then _ ← write_u32 offset (le_read data); mret tt
  else if (1 <=? trailing_zeros offset) && Nat.eqb len 2 then _ ← write_u16 offset (le_read data); mret tt
  else if Nat.eqb len 1 then _ ← write_u8 offset (nth 0 data 0); mret tt
  else mret tt.
End config.

Arguments PciConfiguration : clear implicits.
