(* ===== verification/PciMsi.v ===== *)
(** * MSI and MSI-X capabilities and their working state

    Model of src/dragonball/dbs_pci/src/msix.rs and msi.rs: the capabilities
    that the guest reads and writes ([MsixCap], [MsiCap]), and the state that
    drives the interrupt manager of the device ([MsixState], [MsiState]).  The
    targets are x86_64 and little endian. *)
From S2P Require Import Prelude DeviceResources Effects InterruptManager PciConfig.

(** ** MSI-X *)

Abbreviation MAX_MSIX_VECTORS_PER_DEVICE := 2048.
Abbreviation MSIX_TABLE_BIR_MASK := 0x7.
Abbreviation MSIX_OFFSET_MASK := 0xfffffff8.
Abbreviation MSIX_TABLE_SIZE_MASK := 0x7ff.
Abbreviation FUNCTION_MASK_MASK := 0x4000.
Abbreviation MSIX_ENABLE_MASK := 0x8000.

Record MsixCap := mkMsixCap { mx_cap_id : Z; mx_cap_next : Z; mx_msg_ctl : Z; mx_table : Z; mx_pba : Z }.

Definition MsixCap_new (table_pci_bar table_size table_off pba_pci_bar pba_off : Z) : outcome MsixCap :=
  if table_size <? MAX_MSIX_VECTORS_PER_DEVICE then
    msg_ctl ← usub table_size 1;
    Ret (mkMsixCap (capability_id_value MSIX) 0 msg_ctl
           (Z.lor (Z.land table_off MSIX_OFFSET_MASK) (Z.land table_pci_bar MSIX_TABLE_BIR_MASK))
           (Z.lor (Z.land pba_off MSIX_OFFSET_MASK) (Z.land pba_pci_bar MSIX_TABLE_BIR_MASK)))
  else Panic.

Definition msix_set_msg_ctl (data : Z) (c : MsixCap) : MsixCap :=
  mkMsixCap (mx_cap_id c) (mx_cap_next c)
    (Z.lor (Z.land (mx_msg_ctl c) (unot u16_max (Z.lor FUNCTION_MASK_MASK MSIX_ENABLE_MASK)))
           (Z.land data (Z.lor FUNCTION_MASK_MASK MSIX_ENABLE_MASK)))
    (mx_table c) (mx_pba c).

Definition msix_cap_masked (c : MsixCap) : bool := Z.land (Z.shiftr (mx_msg_ctl c) 14) 0x1 =? 0x1.
Definition msix_cap_enabled (c : MsixCap) : bool := Z.land (Z.shiftr (mx_msg_ctl c) 15) 0x1 =? 0x1.
Definition table_offset (c : MsixCap) : Z := Z.land (mx_table c) MSIX_OFFSET_MASK.
Definition pba_offset (c : MsixCap) : Z := Z.land (mx_pba c) MSIX_OFFSET_MASK.
Definition table_bir (c : MsixCap) : Z := Z.land (mx_table c) MSIX_TABLE_BIR_MASK.
Definition pba_bir (c : MsixCap) : Z := Z.land (mx_pba c) MSIX_TABLE_BIR_MASK.
Definition table_size (c : MsixCap) : Z := Z.land (mx_msg_ctl c) MSIX_TABLE_SIZE_MASK + 1.

(** [as_slice]: the bytes of the packed structure. *)
Definition msix_bytes (c : MsixCap) : list Z :=
  [mx_cap_id c; mx_cap_next c] ++ le_write 2 (mx_msg_ctl c) ++ le_write 4 (mx_table c) ++ le_write 4 (mx_pba c).

Definition msix_read_u8 (c : MsixCap) (offset : Z) : Z :=
  if offset <? 0xc then nth (Z.to_nat offset) (msix_bytes c) 0 else 0xff.
Definition msix_write_u8 (offset value : Z) (c : MsixCap) : MsixCap :=
  if offset =? 3 then msix_set_msg_ctl (as_u16 (Z.shiftl value 8)) c else c.

#[global] Instance msix_capability : PciCapability MsixCap := {|
  cap_len _ := 0xc;
  set_next_cap n c := mkMsixCap (mx_cap_id c) n (mx_msg_ctl c) (mx_table c) (mx_pba c);
  cap_u8 := msix_read_u8;
  cap_u16 c := default_read_u16 (msix_read_u8 c);
  cap_u32 c := default_read_u32 (default_read_u16 (msix_read_u8 c));
  cap_set_u8 := msix_write_u8;
  cap_set_u16 := default_write_u16 msix_write_u8;
  cap_set_u32 := default_write_u32 (default_write_u16 msix_write_u8);
  pci_capability_type _ := MSIX;
|}.

Record MsixTableEntry := mkEntry { msg_addr_lo : Z; msg_addr_hi : Z; msg_data : Z; vector_ctl : Z }.

Definition MsixTableEntry_default : MsixTableEntry := mkEntry 0 0 0 0.
Definition entry_masked (e : MsixTableEntry) : bool := Z.land (vector_ctl e) 0x1 =? 0x1.

(** The bytes of an entry and the entry that they make. *)
Definition entry_bytes (e : MsixTableEntry) : list Z :=
  le_write 4 (msg_addr_lo e) ++ le_write 4 (msg_addr_hi e) ++ le_write 4 (msg_data e) ++ le_write 4 (vector_ctl e).
Definition entry_of_bytes (l : list Z) : MsixTableEntry :=
  mkEntry (le_read (take 4 l)) (le_read (take 4 (drop 4 l))) (le_read (take 4 (drop 8 l))) (le_read (take 4 (drop 12 l))).

Record MsixState := mkMsixState { table_entries : list MsixTableEntry; msix_masked : bool; msix_enabled : bool }.

Definition MsixState_new (msix_vectors : Z) : outcome MsixState :=
  if msix_vectors <=? MAX_MSIX_VECTORS_PER_DEVICE
  then Ret (mkMsixState (repeat MsixTableEntry_default (Z.to_nat msix_vectors)) false false) else Panic.

Section msix.
Context {G K : Type} `{InterruptSourceGroup G K}.

(** A method of the state with the interrupt manager of the device. *)
#[local] Abbreviation dim_eff := (eff (DeviceInterruptManager G * K) errno).
#[local] Abbreviation msix_eff := (eff (MsixState * (DeviceInterruptManager G * K)) errno).

Definition mgr {A} (m : dim_eff A) : msix_eff A := zoom snd (fun t s => (s.1, t)) m.

(** The three calls that hand a message to the interrupt manager. *)
Definition set_message (idx : Z) (e : MsixTableEntry) : dim_eff unit :=
  _ ← set_msi_high_address idx (msg_addr_hi e);
  _ ← set_msi_low_address idx (msg_addr_lo e);
  set_msi_data idx (msg_data e).

(** [self.table_entries.iter().enumerate()] *)
Definition indexed (l : list MsixTableEntry) : list (Z * MsixTableEntry) :=
  imap (fun i e => (Z.of_nat i, e)) l.

(** The vectors of a group one after another. *)
Definition mask_if (p : MsixTableEntry -> bool) (f : G -> Z -> K -> result errno unit * K) (group : G)
    (l : list MsixTableEntry) : dim_eff unit :=
  for_each (fun '(idx, vector) => if p vector then sys_call (f group idx) else mret tt) (indexed l).

Definition set_msg_ctl (reg : Z) : msix_eff unit :=
  s ← gets fst;
  let new_masked := negb (Z.land reg FUNCTION_MASK_MASK =? 0) in
  let new_enabled := negb (Z.land reg MSIX_ENABLE_MASK =? 0) in
  if eqb (msix_enabled s) new_enabled && eqb (msix_masked s) new_masked then mret tt else
  let entries := table_entries s in
  _ ← mgr (match msix_enabled s, new_enabled with
       | false, true =>
           _ ← reset_dim;
           _ ← set_working_mode PciMsixIrq;
           _ ← for_each (fun '(idx, vector) => set_message idx vector) (indexed entries);
           _ ← enable;
           o ← get_group;
           group ← expect o;
           mask_if (fun vector => new_masked || entry_masked vector) group_mask group entries
       | true, false => reset_dim
       | true, true =>
           o ← get_group;
           group ← expect o;
           if msix_masked s && negb new_masked then
             mask_if (fun vector => negb (entry_masked vector)) group_unmask group entries
           else if negb (msix_masked s) && new_masked then
             mask_if (fun vector => negb (entry_masked vector)) group_mask group entries
           else mret tt
       | false, false => mret tt
       end);
  modify (fun t => (mkMsixState (table_entries t.1) new_masked new_enabled, t.2)).

(** [read_table]: the bytes read, a panic beyond the table. *)
Definition read_table (s : MsixState) (offset : Z) (data : list Z) : outcome (list Z) :=
  let index := offset / 16 in
  let modulo := offset mod 16 in
  let len := Z.of_nat (length data) in
  if negb (len <=? 8) then Panic else
  if modulo + len <=? 16 then
    config ← unwrap (at_index (table_entries s) index);
    Ret (take (length data) (drop (Z.to_nat modulo) (entry_bytes config)))
  else Ret (map (fun _ => 0xff) data).

(** [copy_from_slice] into a part of the bytes. *)
Definition splice (l : list Z) (at_ : nat) (data : list Z) : list Z :=
  take at_ l ++ data ++ drop (at_ + length data) l.

Definition write_table (offset : Z) (data : list Z) : msix_eff unit :=
  let index := offset / 16 in
  let modulo := offset mod 16 in
  let len := Z.of_nat (length data) in
  if negb ((len <=? 8) && (modulo + len <=? 0x10)) then panic else
  s ← gets fst;
  old ← expect (at_index (table_entries s) index);
  let config := entry_of_bytes (splice (entry_bytes old) (Z.to_nat modulo) data) in
  _ ← modify (fun t => (mkMsixState (<[Z.to_nat index := config]> (table_entries t.1)) (msix_masked t.1) (msix_enabled t.1), t.2));
  if msix_enabled s then
    _ ← (if modulo <? 0xc then mgr (_ ← set_message index config; update index) else mret tt);
    if (0xc <=? modulo + len) && negb (msix_masked s) then
      o ← mgr get_group;
      group ← expect o;
      if negb (entry_masked old) && entry_masked config then mgr (sys_call (group_mask group index))
      else if entry_masked old && negb (entry_masked config) then mgr (sys_call (group_unmask group index))
      else mret tt
    else mret tt
  else mret tt.

(** The loop of [read_pba] over the interrupts of the bytes asked for. *)
Fixpoint pba_loop (entries : list MsixTableEntry) (group : G) (offset idx : Z) (n : nat) (data : list Z)
    : dim_eff (list Z) :=
  match n with
  | O => mret data
  | S n' =>
      e ← expect (at_index entries idx);
      pending ← (if entry_masked e then sys_call (fun k => let '(b, k) := group_pending group idx k in (Ok b, k))
                 else mret false);
      let pos := Z.to_nat (idx / 8 - offset) in
      pba_loop entries group offset (idx + 1) n'
        (if (pending : bool) then <[pos := Z.lor (nth pos data 0) (Z.shiftl 1 (idx mod 8))]> data else data)
  end.

Definition read_pba (offset : Z) (data : list Z) : msix_eff (list Z) :=
  if negb (Z.of_nat (length data) <=? 8) then panic else
  let zeros := map (fun _ => 0) data in
  s ← gets fst;
  if msix_enabled s then
    o ← mgr get_group;
    group ← expect o;
    start ← lift_outcome (umul u32_max (as_u32 offset) 8);
    stop ← lift_outcome (uadd u32_max start (Z.of_nat (length data) * 8));
    mgr (pba_loop (table_entries s) group (as_u32 offset) start
      (Z.to_nat (Z.min stop (group_len group) - start)) zeros)
  else mret zeros.
End msix.

(** ** MSI *)

Abbreviation MSI_CTL_ENABLE := 0x1.
Abbreviation MSI_CTL_MULTI_MSG_ENABLE := 0x70.
Abbreviation MSI_CTL_64_BITS := 0x80.
Abbreviation MSI_CTL_PER_VECTOR := 0x100.
Abbreviation MSI_MSG_CTL_OFFSET := 0x2.
Abbreviation MSI_MSG_ADDR_LO_OFFSET := 0x4.
Abbreviation MSI_MSG_ADDR_LO_MASK := 0xfffffffc.

(** The number of vectors is a power of two in a field of three bits. *)
Definition vectors_of_field (field : Z) : Z := if 5 <? field then 0 else Z.shiftl 1 field.
Definition msi_num_enabled_vectors (msg_ctl : Z) : Z := vectors_of_field (Z.land (Z.shiftr msg_ctl 4) 0x7).
Definition msi_num_supported_vectors (msg_ctl : Z) : Z := vectors_of_field (Z.land (Z.shiftr msg_ctl 1) 0x7).

Definition ctl_enabled (msg_ctl : Z) : bool := Z.land msg_ctl MSI_CTL_ENABLE =? MSI_CTL_ENABLE.
Definition addr_64_bits (msg_ctl : Z) : bool := Z.land msg_ctl MSI_CTL_64_BITS =? MSI_CTL_64_BITS.
Definition per_vector_mask (msg_ctl : Z) : bool := Z.land msg_ctl MSI_CTL_PER_VECTOR =? MSI_CTL_PER_VECTOR.

(** [msg_ctl & !(ENABLE | MULTI_MSG_ENABLE) | value & (ENABLE | MULTI_MSG_ENABLE)] *)
Definition merge_ctl (msg_ctl value : Z) : Z :=
  let mask := Z.lor MSI_CTL_ENABLE MSI_CTL_MULTI_MSG_ENABLE in
  Z.lor (Z.land msg_ctl (unot u16_max mask)) (Z.land value mask).

Section msi.
Context {G K : Type} `{InterruptSourceGroup G K}.

Record MsiCap := mkMsiCap {
  ms_cap_id_next : Z; ms_msg_ctl : Z; ms_msg_addr_lo : Z; ms_msg_addr_hi : Z; ms_msg_data : Z;
  ms_mask_bits : Z; ms_pending_bits : Z; ms_group : option G }.

Definition MsiCap_new (next msg_ctl : Z) : MsiCap :=
  mkMsiCap (Z.lor (as_u16 (Z.shiftl next 8)) (capability_id_value MessageSignalledInterrupts))
    (Z.land msg_ctl (unot u16_max MSI_CTL_ENABLE)) 0 0 0 0 0 None.

Definition set_group (g : option G) (c : MsiCap) : MsiCap :=
  mkMsiCap (ms_cap_id_next c) (ms_msg_ctl c) (ms_msg_addr_lo c) (ms_msg_addr_hi c) (ms_msg_data c)
    (ms_mask_bits c) (ms_pending_bits c) g.
Definition put_msi_ctl (v : Z) (c : MsiCap) : MsiCap :=
  mkMsiCap (ms_cap_id_next c) v (ms_msg_addr_lo c) (ms_msg_addr_hi c) (ms_msg_data c)
    (ms_mask_bits c) (ms_pending_bits c) (ms_group c).
Definition put_msi_addr_lo (v : Z) (c : MsiCap) : MsiCap :=
  mkMsiCap (ms_cap_id_next c) (ms_msg_ctl c) v (ms_msg_addr_hi c) (ms_msg_data c)
    (ms_mask_bits c) (ms_pending_bits c) (ms_group c).
Definition put_msi_addr_hi (v : Z) (c : MsiCap) : MsiCap :=
  mkMsiCap (ms_cap_id_next c) (ms_msg_ctl c) (ms_msg_addr_lo c) v (ms_msg_data c)
    (ms_mask_bits c) (ms_pending_bits c) (ms_group c).
Definition put_msi_data (v : Z) (c : MsiCap) : MsiCap :=
  mkMsiCap (ms_cap_id_next c) (ms_msg_ctl c) (ms_msg_addr_lo c) (ms_msg_addr_hi c) v
    (ms_mask_bits c) (ms_pending_bits c) (ms_group c).
Definition put_mask_bits (v : Z) (c : MsiCap) : MsiCap :=
  mkMsiCap (ms_cap_id_next c) (ms_msg_ctl c) (ms_msg_addr_lo c) (ms_msg_addr_hi c) (ms_msg_data c)
    v (ms_pending_bits c) (ms_group c).

Definition vector_masked (c : MsiCap) (vector : Z) : bool :=
  if negb (per_vector_mask (ms_msg_ctl c)) then false
  else Z.land (Z.shiftr (ms_mask_bits c) vector) 0x1 =? 1.

Definition msi_size (c : MsiCap) : Z :=
  0xa + (if addr_64_bits (ms_msg_ctl c) then 0x4 else 0) + (if per_vector_mask (ms_msg_ctl c) then 0xa else 0).

(** The offsets of the data, of the upper address and of the mask bits. *)
Definition get_offset_info (c : MsiCap) : Z * option Z * option Z :=
  if addr_64_bits (ms_msg_ctl c)
  then (0xc, Some 0x8, if per_vector_mask (ms_msg_ctl c) then Some 0x10 else None)
  else (0x8, None, if per_vector_mask (ms_msg_ctl c) then Some 0xc else None).

(** Whether [x] is [k] bytes into an optional field. *)
Definition in_field (o : option Z) (k x : Z) : bool := match o with Some b => x =? b + k | None => false end.

(** [get_pending_state]: the pending bits of the masked vectors, from the state
    of the interrupt group when the guest reads them. *)
Definition get_pending_state (pending : G -> Z -> bool) (c : MsiCap) (data : list Z) (offset : Z) : list Z :=
  let zeros := map (fun _ => 0) data in
  match ms_group c with
  | Some group =>
      if ctl_enabled (ms_msg_ctl c) && per_vector_mask (ms_msg_ctl c) then
        let start := offset * 8 in
        let stop := Z.min ((offset + Z.of_nat (length data)) * 8) (group_len group) in
        foldl (fun data i =>
            let idx := start + Z.of_nat i in
            let pos := Z.to_nat (idx / 8 - offset) in
            if vector_masked c idx && pending group idx
            then <[pos := Z.lor (nth pos data 0) (Z.shiftl 1 (idx mod 8))]> data else data)
          zeros (seq 0 (Z.to_nat (stop - start)))
      else zeros
  | None => zeros
  end.

(** [MsiCap::read] into a buffer. *)
Definition msi_read (pending : G -> Z -> bool) (c : MsiCap) (x : Z) (data : list Z) : list Z :=
  let '(msg_data_offset, addr_hi_offset, mask_bits_offset) := get_offset_info c in
  let mask k := in_field mask_bits_offset k x in
  match length data with
  | 1%nat =>
      if x =? 0 then [as_u8 (ms_cap_id_next c)]
      else if x =? 1 then [as_u8 (Z.shiftr (ms_cap_id_next c) 8)]
      else if mask 0 then [as_u8 (ms_mask_bits c)]
      else if mask 1 then [as_u8 (Z.shiftr (ms_mask_bits c) 8)]
      else if mask 2 then [as_u8 (Z.shiftr (ms_mask_bits c) 16)]
      else if mask 3 then [as_u8 (Z.shiftr (ms_mask_bits c) 24)]
      else if mask 4 then get_pending_state pending c data 0
      else if mask 5 then get_pending_state pending c data 1
      else if mask 6 then get_pending_state pending c data 2
      else if mask 7 then get_pending_state pending c data 3
      else data
  | 2%nat =>
      if x =? 0 then le_write 2 (ms_cap_id_next c)
      else if x =? MSI_MSG_CTL_OFFSET then le_write 2 (ms_msg_ctl c)
      else if x =? msg_data_offset then le_write 2 (ms_msg_data c)
      else if mask 0 then le_write 2 (as_u16 (ms_mask_bits c))
      else if mask 2 then le_write 2 (as_u16 (Z.shiftr (ms_mask_bits c) 16))
      else if mask 4 then get_pending_state pending c data 0
      else if mask 6 then get_pending_state pending c data 2
      else data
  | 4%nat =>
      if x =? 0 then le_write 4 (Z.lor (ms_cap_id_next c) (as_u32 (Z.shiftl (ms_msg_ctl c) 16)))
      else if x =? MSI_MSG_ADDR_LO_OFFSET then le_write 4 (ms_msg_addr_lo c)
      else if in_field addr_hi_offset 0 x then le_write 4 (ms_msg_addr_hi c)
      else if x =? msg_data_offset then le_write 4 (ms_msg_data c)
      else if mask 0 then le_write 4 (ms_mask_bits c)
      else if mask 4 then get_pending_state pending c data 0
      else data
  | _ => data
  end.

(** [MsiCap::write]; the bits that the guest must not change stay. *)
Definition msi_write (x : Z) (data : list Z) (c : MsiCap) : MsiCap :=
  let '(msg_data_offset, addr_hi_offset, mask_bits_offset) := get_offset_info c in
  let mask k := in_field mask_bits_offset k x in
  let value := le_read data in
  let bits := ms_mask_bits c in
  match length data with
  | 1%nat =>
      if mask 0 then put_mask_bits (Z.lor value (Z.land bits 0xffffff00)) c
      else if mask 1 then put_mask_bits (Z.lor (Z.shiftl value 8) (Z.land bits 0xffff00ff)) c
      else if mask 2 then put_mask_bits (Z.lor (Z.shiftl value 16) (Z.land bits 0xff00ffff)) c
      else if mask 3 then put_mask_bits (Z.lor (Z.shiftl value 24) (Z.land bits 0x00ffffff)) c
      else c
  | 2%nat =>
      if x =? MSI_MSG_CTL_OFFSET then put_msi_ctl (merge_ctl (ms_msg_ctl c) value) c
      else if x =? msg_data_offset then put_msi_data value c
      else if mask 0 then put_mask_bits (Z.lor value (Z.land bits 0xffff0000)) c
      else if mask 2 then put_mask_bits (Z.lor (Z.shiftl value 16) (Z.land bits 0x0000ffff)) c
      else c
  | 4%nat =>
      if x =? 0 then put_msi_ctl (merge_ctl (ms_msg_ctl c) (as_u16 (Z.shiftr value 16))) c
      else if x =? MSI_MSG_ADDR_LO_OFFSET then put_msi_addr_lo (Z.land value MSI_MSG_ADDR_LO_MASK) c
      else if in_field addr_hi_offset 0 x then put_msi_addr_hi value c
      else if x =? msg_data_offset then put_msi_data (as_u16 value) c
      else if mask 0 then put_mask_bits value c
      else c
  | _ => c
  end.

(** [PciCapability for MsiCap]; [pending] answers for the interrupt groups. *)
Definition msi_capability (pending : G -> Z -> bool) : PciCapability MsiCap := {|
  cap_len := msi_size;
  set_next_cap n c :=
    mkMsiCap (Z.lor (Z.land (ms_cap_id_next c) 0xff) (as_u16 (Z.shiftl n 8))) (ms_msg_ctl c) (ms_msg_addr_lo c)
      (ms_msg_addr_hi c) (ms_msg_data c) (ms_mask_bits c) (ms_pending_bits c) (ms_group c);
  cap_u8 c x := le_read (msi_read pending c x [0]);
  cap_u16 c x := le_read (msi_read pending c x [0; 0]);
  cap_u32 c x := le_read (msi_read pending c x [0; 0; 0; 0]);
  cap_set_u8 x v := msi_write x [v];
  cap_set_u16 x v := msi_write x (le_write 2 v);
  cap_set_u32 x v := msi_write x (le_write 4 v);
  pci_capability_type _ := MessageSignalledInterrupts;
|}.

Record MsiState := mkMsiState { mst_msg_ctl : Z; mst_addr_lo : Z; mst_addr_hi : Z; mst_data : Z; mst_mask_bits : Z }.

Definition MsiState_new (msg_ctl : Z) : MsiState :=
  mkMsiState (Z.land msg_ctl (unot u16_max MSI_CTL_ENABLE)) 0 0 0 0.

#[local] Abbreviation dim_eff := (eff (DeviceInterruptManager G * K) errno).
#[local] Abbreviation msi_eff := (eff (MsiState * (DeviceInterruptManager G * K)) errno).

Definition msi_mgr {A} (m : dim_eff A) : msi_eff A := zoom snd (fun t s => (s.1, t)) m.
Definition upd_msi_state (f : MsiState -> MsiState) : msi_eff unit := modify (fun t => (f t.1, t.2)).
Definition put_state_ctl (v : Z) (s : MsiState) : MsiState :=
  mkMsiState v (mst_addr_lo s) (mst_addr_hi s) (mst_data s) (mst_mask_bits s).

(** The vectors [0..n] one after another. *)
Definition each_vector (n : Z) (f : Z -> dim_eff unit) : dim_eff unit :=
  for_each f (map Z.of_nat (seq 0 (Z.to_nat n))).

Definition set_vector_message (s : MsiState) (idx : Z) : dim_eff unit :=
  _ ← set_msi_high_address idx (mst_addr_hi s);
  _ ← set_msi_low_address idx (mst_addr_lo s);
  data ← lift_outcome (uadd u32_max (mst_data s) idx);
  set_msi_data idx data.

Definition update_msi_ctl (value : Z) : msi_eff unit :=
  s ← gets fst;
  match ctl_enabled (mst_msg_ctl s), negb (Z.land value MSI_CTL_ENABLE =? 0) with
  | false, true =>
      if msi_num_supported_vectors (mst_msg_ctl s) <? msi_num_enabled_vectors value then mret tt else
      _ ← msi_mgr (
        _ ← reset_dim;
        _ ← set_working_mode PciMsiIrq;
        _ ← each_vector (msi_num_enabled_vectors (mst_msg_ctl s)) (set_vector_message s);
        _ ← enable;
        o ← get_group;
        group ← expect o;
        each_vector (msi_num_enabled_vectors (mst_msg_ctl s)) (fun idx =>
          if negb (Z.land (Z.shiftr (mst_mask_bits s) idx) 0x1 =? 0) then sys_call (group_mask group idx) else mret tt));
      upd_msi_state (fun s => put_state_ctl (merge_ctl (mst_msg_ctl s) value) s)
  | true, false =>
      _ ← msi_mgr reset_dim;
      upd_msi_state (fun s => put_state_ctl (merge_ctl (mst_msg_ctl s) value) s)
  | true, true => mret tt
  | false, false => upd_msi_state (fun s => put_state_ctl (merge_ctl (mst_msg_ctl s) value) s)
  end.

Definition update_msi_msg : msi_eff unit :=
  s ← gets fst;
  if ctl_enabled (mst_msg_ctl s) then
    msi_mgr (each_vector (msi_num_enabled_vectors (mst_msg_ctl s)) (fun idx =>
      _ ← set_vector_message s idx; update idx))
  else mret tt.

Definition update_msi_mask (mask : Z) : msi_eff unit :=
  s ← gets fst;
  _ ← (if ctl_enabled (mst_msg_ctl s) then
         msi_mgr (each_vector (msi_num_enabled_vectors (mst_msg_ctl s)) (fun idx =>
           let old := Z.land (Z.shiftr (mst_mask_bits s) idx) 0x1 in
           let new := Z.land (Z.shiftr mask idx) 0x1 in
           if (old =? 0) && (new =? 1) then o ← get_group; group ← expect o; sys_call (group_mask group idx)
           else if (old =? 1) && (new =? 0) then o ← get_group; group ← expect o; sys_call (group_unmask group idx)
           else mret tt))
       else mret tt);
  upd_msi_state (fun s => mkMsiState (mst_msg_ctl s) (mst_addr_lo s) (mst_addr_hi s) (mst_data s) mask).

Definition synchronize_state (cap : MsiCap) : msi_eff unit :=
  s ← gets fst;
  _ ← (if negb (mst_msg_ctl s =? ms_msg_ctl cap) then update_msi_ctl (ms_msg_ctl cap) else mret tt);
  s ← gets fst;
  _ ← (if negb (mst_addr_lo s =? ms_msg_addr_lo cap) || negb (mst_data s =? ms_msg_data cap)
          || (addr_64_bits (ms_msg_ctl cap) && negb (mst_addr_hi s =? ms_msg_addr_hi cap))
       then
         _ ← upd_msi_state (fun s => mkMsiState (mst_msg_ctl s) (ms_msg_addr_lo cap) (ms_msg_addr_hi cap)
                (ms_msg_data cap) (mst_mask_bits s));
         update_msi_msg
       else mret tt);
  s ← gets fst;
  if per_vector_mask (ms_msg_ctl cap) && negb (mst_mask_bits s =? ms_mask_bits cap)
  then update_msi_mask (ms_mask_bits cap) else mret tt.

Definition msi_disable : msi_eff unit :=
  s ← gets fst;
  if ctl_enabled (mst_msg_ctl s)
  then update_msi_ctl (Z.land (mst_msg_ctl s) (unot u16_max MSI_CTL_ENABLE)) else mret tt.
End msi.

Arguments MsiCap : clear implicits.
