(* ===== verification/KvmIrq.v ===== *)
(** * Interrupt groups over KVM

    Model of src/dragonball/dbs_interrupt/src/kvm (mod.rs, msi_generic.rs,
    msi_irq.rs, legacy_irq.rs) for x86_64 and of notifier.rs: the table of
    interrupt routes of the virtual machine, and the groups of legacy and of
    message signalled interrupts that bind event files to interrupts in KVM.
    KVM and the event files are parameters. *)
From S2P Require Import Prelude DeviceResources Effects InterruptManager.

Abbreviation MAX_IRQS := 1024.
Abbreviation MAX_LEGACY_IRQS := 24.
Abbreviation DEFAULT_MAX_MSI_IRQS_PER_DEVICE := 256.

(** A route: to a pin of an interrupt chip, or a message. *)
Inductive RoutingTarget := IrqChip (chip pin : Z) | MsiMessage (address_lo address_hi data : Z) (devid : option Z).
Record RoutingEntry := mkRoute { r_gsi : Z; r_target : RoutingTarget }.

Abbreviation KVM_IRQCHIP_PIC_MASTER := 0.
Abbreviation KVM_IRQCHIP_PIC_SLAVE := 1.
Abbreviation KVM_IRQCHIP_IOAPIC := 2.
Abbreviation KVM_IRQ_ROUTING_IRQCHIP := 1.
Abbreviation KVM_IRQ_ROUTING_MSI := 2.

(** The calls on the VM file and on event files.  The routes go to KVM all at
    once and in any order.  Making an event file succeeds. *)
Class KvmIrqOps (K : Type) := {
  register_irqfd : nat -> Z -> K -> result errno unit * K;
  unregister_irqfd : nat -> Z -> K -> result errno unit * K;
  set_gsi_routing : gmap Z RoutingEntry -> K -> result errno unit * K;
  efd_new : K -> nat * K;
  efd_read : nat -> K -> result errno Z * K;
  efd_write : nat -> Z -> K -> result errno unit * K;
}.

(** The two kinds of groups; the messages of a group, which a mutex protects,
    are kept by the event file that they belong to. *)
Inductive KvmGroup := LegacyGroup (base : Z) (irqfd : nat) | MsiGroup (base count : Z) (irqfds : list nat).

Section kvm.
Context {K : Type} `{KvmIrqOps K}.

(** [KvmIrqManagerObj] and [KvmIrqRouting] with the state of KVM. *)
Record KvmWorld := mkWorld {
  routes : gmap Z RoutingEntry;
  irq_groups : gmap Z KvmGroup;
  max_msi_irqs : Z;
  group_configs : gmap nat MsiIrqSourceConfig;
  kvm : K;
}.

Definition put_routes (r : gmap Z RoutingEntry) (w : KvmWorld) : KvmWorld :=
  mkWorld r (irq_groups w) (max_msi_irqs w) (group_configs w) (kvm w).
Definition put_groups (g : gmap Z KvmGroup) (w : KvmWorld) : KvmWorld :=
  mkWorld (routes w) g (max_msi_irqs w) (group_configs w) (kvm w).
Definition put_configs (c : gmap nat MsiIrqSourceConfig) (w : KvmWorld) : KvmWorld :=
  mkWorld (routes w) (irq_groups w) (max_msi_irqs w) c (kvm w).
Definition put_kvm (k : K) (w : KvmWorld) : KvmWorld :=
  mkWorld (routes w) (irq_groups w) (max_msi_irqs w) (group_configs w) k.

Definition KvmIrqManager_new (k : K) : KvmWorld := mkWorld ∅ ∅ DEFAULT_MAX_MSI_IRQS_PER_DEVICE ∅ k.
Definition set_max_msi_irqs (n : Z) (w : KvmWorld) : KvmWorld :=
  mkWorld (routes w) (irq_groups w) n (group_configs w) (kvm w).

(** Methods that do not panic. *)
#[local] Abbreviation io := (fun A : Type => KvmWorld -> result errno A * KvmWorld).

Definition vm {A} (f : K -> result errno A * K) : io A := fun w =>
  let '(r, k) := f (kvm w) in (r, put_kvm k w).
Definition seq_io {A B} (m : io A) (f : A -> io B) : io B := fun w =>
  match m w with (Ok a, w') => f a w' | (Err e, w') => (Err e, w') end.

(** ** Routes *)

Definition hash_key (e : RoutingEntry) : Z :=
  let '(ty, chip) := match r_target e with
                     | IrqChip chip _ => (KVM_IRQ_ROUTING_IRQCHIP, chip)
                     | MsiMessage _ _ _ _ => (KVM_IRQ_ROUTING_MSI, 0)
                     end in
  Z.lor (Z.lor (Z.shiftl chip 48) (Z.shiftl ty 32)) (r_gsi e).

Definition set_routing : io unit := fun w => vm (set_gsi_routing (routes w)) w.

Definition insert_route (e : RoutingEntry) (r : gmap Z RoutingEntry) : gmap Z RoutingEntry := <[hash_key e := e]> r.

(** Every entry is checked before the first one is added. *)
Fixpoint check_routes (entries : list RoutingEntry) (r : gmap Z RoutingEntry) : result errno unit :=
  match entries with
  | [] => Ok tt
  | e :: entries' =>
      if MAX_IRQS <=? r_gsi e then Err EINVAL
      else match r !! hash_key e with
           | Some _ => Err EEXIST
           | None => check_routes entries' r
           end
  end.

Definition routing_add (entries : list RoutingEntry) : io unit := fun w =>
  match check_routes entries (routes w) with
  | Err e => (Err e, w)
  | Ok _ => set_routing (put_routes (foldl (fun r e => insert_route e r) (routes w) entries) w)
  end.

Definition routing_remove (entries : list RoutingEntry) : io unit := fun w =>
  set_routing (put_routes (foldl (fun r e => delete (hash_key e) r) (routes w) entries) w).

Definition routing_modify (e : RoutingEntry) : io unit := fun w =>
  match routes w !! hash_key e with
  | None => (Err ENOENT, w)
  | Some _ => set_routing (put_routes (insert_route e (routes w)) w)
  end.

(** [initialize_legacy]: the two PICs and the first IOAPIC. *)
Definition legacy_routes : list RoutingEntry :=
  map (fun i => mkRoute i (IrqChip KVM_IRQCHIP_PIC_MASTER i)) [0; 1; 3; 4; 5; 6; 7] ++
  map (fun i => mkRoute i (IrqChip KVM_IRQCHIP_PIC_SLAVE (i - 8))) [8; 9; 10; 11; 12; 13; 14; 15] ++
  map (fun i => mkRoute i (IrqChip KVM_IRQCHIP_IOAPIC (if i =? 0 then 2 else i)))
    [0; 1; 3; 4; 5; 6; 7; 8; 9; 10; 11; 12; 13; 14; 15; 16; 17; 18; 19; 20; 21; 22; 23].

Definition routing_initialize : io unit := fun w =>
  set_routing (put_routes (foldl (fun r e => insert_route e r) (routes w) legacy_routes) w).

(** ** Groups *)

Definition new_msi_routing_entry (gsi : Z) (c : MsiIrqSourceConfig) : RoutingEntry :=
  mkRoute gsi (MsiMessage (low_addr c) (high_addr c) (msi_data c) (msi_device_id c)).

(** The entries of the messages from [gsi] on; a legacy configuration is refused. *)
Fixpoint msi_entries (gsi : Z) (configs : list InterruptSourceConfig) : result errno (list RoutingEntry) :=
  match configs with
  | [] => Ok []
  | MsiIrqConfig c :: configs' =>
      match msi_entries (gsi + 1) configs' with
      | Ok l => Ok (new_msi_routing_entry gsi c :: l)
      | Err e => Err e
      end
  | LegacyIrqConfig :: _ => Err EINVAL
  end.
Definition create_msi_routing_entries (base : Z) (configs : list InterruptSourceConfig)
    : result errno (list RoutingEntry) :=
  match checked_add u32_max base (Z.of_nat (length configs)) with
  | None => Err EINVAL
  | Some _ => msi_entries base configs
  end.

(** A loop over the event files of a group, with the number of each interrupt. *)
Fixpoint for_irqfds (f : nat -> Z -> io unit) (gsi : Z) (fds : list nat) : io unit :=
  match fds with
  | [] => fun w => (Ok tt, w)
  | fd :: fds' => seq_io (f fd gsi) (fun _ => for_irqfds f (gsi + 1) fds')
  end.

Definition bind_irqfd (fd : nat) (gsi : Z) : io unit := vm (register_irqfd fd gsi).
Definition unbind_irqfd (fd : nat) (gsi : Z) : io unit := vm (unregister_irqfd fd gsi).

Definition msi_config_of (w : KvmWorld) (fd : nat) : MsiIrqSourceConfig :=
  default MsiIrqSourceConfig_default (group_configs w !! fd).

(** [MsiIrq::enable]: routes that are already there are left alone. *)
Definition msi_enable (base count : Z) (irqfds : list nat) (configs : list InterruptSourceConfig) : io unit := fun w =>
  if negb (Z.of_nat (length configs) =? count) then (Err EINVAL, w) else
  match create_msi_routing_entries base configs with
  | Err e => (Err e, w)
  | Ok entries =>
      match routing_add entries w with
      | (Err EEXIST, w) | (Ok _, w) => for_irqfds bind_irqfd base irqfds w
      | (Err e, w) => (Err e, w)
      end
  end.

Definition msi_group_disable (base : Z) (irqfds : list nat) : io unit :=
  seq_io (for_irqfds unbind_irqfd base irqfds) (fun _ w =>
    routing_remove (imap (fun i fd => new_msi_routing_entry (base + Z.of_nat i) (msi_config_of w fd)) irqfds) w).

Definition msi_update (base count : Z) (irqfds : list nat) (index : Z) (config : InterruptSourceConfig) : io unit := fun w =>
  match at_index irqfds index, config with
  | Some fd, MsiIrqConfig c =>
      let old := msi_config_of w fd in
      let new := mkMsiConfig (high_addr c) (low_addr c) (msi_data c) (msg_ctl old) (msi_device_id c) in
      routing_modify (new_msi_routing_entry (base + index) new) (put_configs (<[fd := new]> (group_configs w)) w)
  | _, _ => (Err EINVAL, w)
  end.

(** Masking takes the event file out of KVM. *)
Definition kvm_mask (bind : nat -> Z -> io unit) (g : KvmGroup) (index : Z) : io unit := fun w =>
  match g with
  | LegacyGroup base fd => if 1 <? index then (Err EINVAL, w) else bind fd (base + index) w
  | MsiGroup base _ fds =>
      match at_index fds index with Some fd => bind fd (base + index) w | None => (Err EINVAL, w) end
  end.

(** The count of an event file, read and written back. *)
Definition peek (fd : nat) (w : KvmWorld) : bool * KvmWorld :=
  match efd_read fd (kvm w) with
  | (Err _, k) => (false, put_kvm k w)
  | (Ok count, k) =>
      if count =? 0 then (false, put_kvm k w) else (true, put_kvm (efd_write fd count k).2 w)
  end.

Definition kvm_get_pending_state (g : KvmGroup) (index : Z) (w : KvmWorld) : bool * KvmWorld :=
  match g with
  | LegacyGroup _ fd => if 1 <? index then (false, w) else peek fd w
  | MsiGroup _ _ fds => match at_index fds index with Some fd => peek fd w | None => (false, w) end
  end.

Definition kvm_notifier (g : KvmGroup) (index : Z) : option nat :=
  match g with
  | LegacyGroup _ fd => if index =? 0 then Some fd else None
  | MsiGroup _ _ fds => at_index fds index
  end.

Definition kvm_trigger (g : KvmGroup) (index : Z) : io unit := fun w =>
  match kvm_notifier g index with Some fd => vm (efd_write fd 1) w | None => (Err EINVAL, w) end.

(** Event files for [n] interrupts, each with an empty message. *)
Fixpoint new_msi_configs (n : nat) (w : KvmWorld) : list nat * KvmWorld :=
  match n with
  | O => ([], w)
  | S n' =>
      let '(fd, k) := efd_new (kvm w) in
      let '(fds, w) := new_msi_configs n' (put_configs (<[fd := MsiIrqSourceConfig_default]> (group_configs w)) (put_kvm k w)) in
      (fd :: fds, w)
  end.

Definition MsiIrq_new (base count : Z) : io KvmGroup := fun w =>
  if (max_msi_irqs w <? count) || (MAX_IRQS <=? base) || (MAX_IRQS <? base + count) then (Err EINVAL, w) else
  let '(fds, w) := new_msi_configs (Z.to_nat count) w in (Ok (MsiGroup base count fds), w).

Definition LegacyIrq_new (base count : Z) : io KvmGroup := fun w =>
  if negb (count =? 1) || (MAX_LEGACY_IRQS <=? base) then (Err EINVAL, w) else
  let '(fd, k) := efd_new (kvm w) in (Ok (LegacyGroup base fd), put_kvm k w).

Definition kvm_create_group (ty : InterruptSourceType) (base count : Z) : io KvmGroup :=
  seq_io (match ty with LegacyIrqSource => LegacyIrq_new base count | MsiIrqSource => MsiIrq_new base count end)
    (fun g w => (Ok g, put_groups (<[base := g]> (irq_groups w)) w)).

Definition group_base (g : KvmGroup) : Z := match g with LegacyGroup base _ => base | MsiGroup base _ _ => base end.

Definition kvm_destroy_group (g : KvmGroup) (w : KvmWorld) : KvmWorld :=
  put_groups (delete (group_base g) (irq_groups w)) w.

(** The traits [InterruptSourceGroup] and [InterruptManager] of these groups. *)
#[global] Instance kvm_source_group : InterruptSourceGroup KvmGroup KvmWorld := {|
  group_type g := match g with LegacyGroup _ _ => LegacyIrqSource | MsiGroup _ _ _ => MsiIrqSource end;
  group_len g := match g with LegacyGroup _ _ => 1 | MsiGroup _ count _ => count end;
  group_enable g configs w :=
    match g with
    | LegacyGroup base fd => if Nat.eqb (length configs) 1 then bind_irqfd fd base w else (Err EINVAL, w)
    | MsiGroup base count fds => msi_enable base count fds configs w
    end;
  group_disable g w :=
    match g with
    | LegacyGroup base fd => unbind_irqfd fd base w
    | MsiGroup base _ fds => msi_group_disable base fds w
    end;
  group_update g index config w :=
    match g with
    | LegacyGroup _ _ => if index =? 0 then (Ok tt, w) else (Err EINVAL, w)
    | MsiGroup base count fds => msi_update base count fds index config w
    end;
  group_mask := kvm_mask unbind_irqfd;
  group_unmask := kvm_mask bind_irqfd;
  group_pending := kvm_get_pending_state;
  create_group := kvm_create_group;
|}.

(** ** Notifiers *)

Abbreviation VIRTQ_MSI_NO_VECTOR := 0xffff.

(** The vector that a virtio device was given for its configuration changes or
    for one of its queues; the index of the queue panics out of range. *)
Inductive VirtioInterruptType := ConfigInterrupt | QueueInterrupt (queue : Z).

Definition msix_vector (config_vector : Z) (queue_vectors : list Z) (ty : VirtioInterruptType) : outcome Z :=
  match ty with
  | ConfigInterrupt => Ret config_vector
  | QueueInterrupt q => unwrap (at_index queue_vectors q)
  end.

Definition msix_notify (config_vector : Z) (queue_vectors : list Z) (g : KvmGroup) (ty : VirtioInterruptType)
    (w : KvmWorld) : outcome (result errno unit * KvmWorld) :=
  vector ← msix_vector config_vector queue_vectors ty;
  Ret (if vector =? VIRTQ_MSI_NO_VECTOR then (Ok tt, w) else kvm_trigger g vector w).
End kvm.

Arguments KvmWorld : clear implicits.
