(* ===== verification/PciRoot.v ===== *)
(** * The PCI root device and the root bus

    Model of src/dragonball/dbs_pci/src/root_device.rs (the two ways to reach a
    configuration space: the ports 0xCF8 and 0xCFC, and the memory window),
    root_bus.rs (the host bridge in slot 0) and pci_address.rs.  The buses and
    the devices are shared objects; the root device holds references to the
    buses and a bus holds references to its devices. *)
From S2P Require Import Prelude IntervalTree DeviceResources Effects PciBus PciConfig.

(** ** Addresses *)

Record PciAddress := mkPciAddress { pa_bus : Z; pa_dev : Z; pa_func : Z }.

Definition PciAddress_new (bus dev func : Z) : result PciError PciAddress :=
  if (0x1f <? dev) || (0x7 <? func) then Err InvalidParameter else Ok (mkPciAddress bus dev func).

(** [Ord]: by bus, then by device, then by function. *)
Definition PciAddress_cmp (a b : PciAddress) : comparison :=
  match pa_bus a ?= pa_bus b with
  | Eq => match pa_dev a ?= pa_dev b with
          | Eq => pa_func a ?= pa_func b
          | c => c
          end
  | c => c
  end.

(** (bus, device, function, offset) of the register CONFIG_ADDRESS. *)
Definition parse_ioport_address (address : Z) : Z * Z * Z * Z :=
  let bus_number := Z.land (Z.shiftr address 16) 0x00ff in
  let device_number := Z.land (Z.shiftr address 11) 0x1f in
  let function_number := Z.land (Z.shiftr address 8) 0x07 in
  let register_number := Z.lor (Z.land (Z.shiftr address 0) 0xff) (Z.land (Z.shiftr address 16) 0xf00) in
  (bus_number, device_number, function_number, Z.land register_number (unot u32_max 0x3)).

(** The same of an offset in the memory window. *)
Definition parse_mmio_address (address : Z) : Z * Z * Z * Z :=
  let addr := as_u32 address in
  (Z.land (Z.shiftr addr 20) 0xff, Z.land (Z.shiftr addr 15) 0x1f, Z.land (Z.shiftr addr 12) 0x7, Z.land addr 0xfff).

Definition check_alignment_valid (len offset : Z) : bool :=
  ((len =? 4) || (len =? 2) || (len =? 1)) && (Z.land offset (len - 1) =? 0).

(** ** The root device *)

Record PciRootDevice := mkRoot {
  max_bus_id : Z;
  ioport_base : Z;
  root_mmio_base : Z;
  root_mmio_size : Z;
  root_resources : DeviceResources;
  io_addr : Z;
  buses : gmap Z nat;
}.

Definition put_io_addr (v : Z) (r : PciRootDevice) : PciRootDevice :=
  mkRoot (max_bus_id r) (ioport_base r) (root_mmio_base r) (root_mmio_size r) (root_resources r) v (buses r).

(** [create]; a port range of another size or a memory window that is too small
    is an assertion. *)
Definition root_create (max_id : Z) (resources : DeviceResources) : outcome (result PciError PciRootDevice) :=
  ports ← match get_pio_address_ranges resources with
          | [] => Ret (Ok None)
          | [(base, size)] => if size =? 8 then Ret (Ok (Some base)) else Panic
          | _ => Ret (Err NoResources)
          end;
  match ports with
  | Err e => Ret (Err e)
  | Ok ports =>
      mmio ← match get_mmio_address_ranges resources with
             | [] => Ret (Ok None)
             | [(base, size)] => if Z.shiftl max_id 20 <=? size then Ret (Ok (Some (base, size))) else Panic
             | _ => Ret (Err NoResources)
             end;
      match mmio with
      | Err e => Ret (Err e)
      | Ok mmio =>
          match ports, mmio with
          | None, None => Ret (Err NoResources)
          | _, _ =>
              let '(mbase, msize) := default (0, 0) mmio in
              Ret (Ok (mkRoot max_id (default 0 ports) mbase msize resources 0 ∅))
          end
      end
  end.

Definition add_bus (bus : nat) (id : Z) (r : PciRootDevice) : result PciError PciRootDevice :=
  if max_bus_id r <? id then Err (InvalidBusId id)
  else Ok (mkRoot (max_bus_id r) (ioport_base r) (root_mmio_base r) (root_mmio_size r) (root_resources r) (io_addr r)
             (<[id := bus]> (buses r))).

Definition get_bus_by_id (id : Z) (r : PciRootDevice) : option nat :=
  if max_bus_id r <? id then None else buses r !! id.

Section access.
Context {D : Type} `{PciDevice D}.

(** The root device with all buses and all devices. *)
Record PciSystem := mkSystem { sys_root : PciRootDevice; sys_buses : gmap nat PciBus; sys_devs : gmap nat D }.

(** The bus with a number, when there is one, with its reference. *)
Definition find_bus (s : PciSystem) (b : Z) : option (nat * PciBus) :=
  match buses (sys_root s) !! b with
  | Some r => (fun bus => (r, bus)) <$> sys_buses s !! r
  | None => None
  end.

(** An access at (bus, device, function, offset), [None] when there is no bus. *)
Definition read_at (s : PciSystem) (b d f o : Z) (data : list Z) : option (outcome (list Z)) :=
  match find_bus s b with
  | Some (_, bus) => Some (bus_read_config d f o data bus (sys_devs s))
  | None => None
  end.
Definition write_at (s : PciSystem) (b d f o : Z) (data : list Z) : option (outcome PciSystem) :=
  match find_bus s b with
  | Some (r, bus) => Some (
      '(bus, devs) ← bus_write_config d f o data bus (sys_devs s);
      Ret (mkSystem (sys_root s) (<[r := bus]> (sys_buses s)) devs))
  | None => None
  end.

(** [DeviceIo::read] and [write] *)
Definition root_read (s : PciSystem) (offset : Z) (data : list Z) : outcome (list Z) :=
  if check_alignment_valid (Z.of_nat (length data)) offset then
    let '(b, d, f, o) := parse_mmio_address offset in
    default (Ret (fill_config_data data)) (read_at s b d f o data)
  else Ret (fill_config_data data).

Definition root_write (s : PciSystem) (offset : Z) (data : list Z) : outcome PciSystem :=
  if check_alignment_valid (Z.of_nat (length data)) offset then
    let '(b, d, f, o) := parse_mmio_address offset in
    default (Ret s) (write_at s b d f o data)
  else Ret s.

(** [pio_read]: the address register at the offsets 0 to 3, the data register at
    4 to 7 when the enable bit of the address is set. *)
Definition root_pio_read (s : PciSystem) (offset : Z) (data : list Z) : outcome (list Z) :=
  let len := length data in
  let addr := io_addr (sys_root s) in
  if negb (check_alignment_valid (Z.of_nat len) offset) then Ret (fill_config_data data)
  else if offset <=? 3 then Ret (le_write len (Z.shiftr addr (Z.shiftl offset 3)))
  else if offset <=? 7 then
    if negb (Z.land addr 0x80000000 =? 0) then
      let '(b, d, f, o) := parse_ioport_address addr in
      default (Ret (fill_config_data data)) (read_at s b d f (Z.lor o (Z.land offset 0x3)) data)
    else Ret (fill_config_data data)
  else Ret (fill_config_data data).

Definition root_pio_write (s : PciSystem) (offset : Z) (data : list Z) : outcome PciSystem :=
  let len := Z.of_nat (length data) in
  let addr := io_addr (sys_root s) in
  if negb (check_alignment_valid len offset) then Ret s
  else if offset <=? 3 then
    let shift := Z.land offset 0x3 * 8 in
    let addr :=
      if len =? 4 then le_read data
      else if len =? 2 then
        Z.lor (Z.land addr (unot u32_max (as_u32 (Z.shiftl 0xffff shift)))) (as_u32 (Z.shiftl (le_read data) shift))
      else Z.lor (Z.land addr (unot u32_max (as_u32 (Z.shiftl 0xff shift)))) (as_u32 (Z.shiftl (le_read data) shift)) in
    Ret (mkSystem (put_io_addr addr (sys_root s)) (sys_buses s) (sys_devs s))
  else if offset <=? 7 then
    if negb (Z.land addr 0x80000000 =? 0) then
      let '(b, d, f, o) := parse_ioport_address addr in
      default (Ret s) (write_at s b d f (Z.lor o (Z.land offset 0x3)) data)
    else Ret s
  else Ret s.

(** Any access of the guest to the root device. *)
Inductive RootAccess :=
| PioRead (offset : Z) (data : list Z) | PioWrite (offset : Z) (data : list Z)
| MmioRead (offset : Z) (data : list Z) | MmioWrite (offset : Z) (data : list Z).

Definition root_access (a : RootAccess) (s : PciSystem) : outcome PciSystem :=
  match a with
  | PioRead offset data => _ ← root_pio_read s offset data; Ret s
  | PioWrite offset data => root_pio_write s offset data
  | MmioRead offset data => _ ← root_read s offset data; Ret s
  | MmioWrite offset data => root_write s offset data
  end.

Fixpoint root_run (l : list RootAccess) (s : PciSystem) : outcome PciSystem :=
  match l with
  | [] => Ret s
  | a :: l' => s ← root_access a s; root_run l' s
  end.
End access.

Arguments PciSystem : clear implicits.

(** ** The host bridge *)

Abbreviation VENDOR_ID_INTEL := 0x8086.
Abbreviation DEVICE_ID_INTEL_VIRT_PCIE_HOST := 0x0d57.
Abbreviation PCI_ROOT_DEVICE_ID := 0.

Record PciHostBridge := mkHostBridge { hb_id : Z; hb_config : PciConfiguration Vp2pCap }.

Definition PciHostBridge_new (id : Z) : outcome (result PciError PciHostBridge) :=
  r ← PciConfiguration_new (fun c => c) VENDOR_ID_INTEL DEVICE_ID_INTEL_VIRT_PCIE_HOST BridgeDevice 0x00 None
        HeaderDevice 0 0 None;
  Ret (match r with Ok c => Ok (mkHostBridge id c) | Err e => Err e end).

(** A configuration space as the state of a device on a bus that is there. *)
Definition config_write {C} {PC : PciCapability C} (offset : Z) (data : list Z) (s : PciConfiguration C * PciBusContent)
    : outcome (PciConfiguration C * PciBusContent) :=
  '(_, (c, b)) ← write_config offset data (s.1, Some s.2);
  b ← unwrap b;
  Ret (c, b).

#[global] Instance host_bridge_device : PciDevice PciHostBridge := {|
  pci_device_id := hb_id;
  pci_read_config d offset data := Ret (read_config (hb_config d) offset data);
  pci_write_config offset data s :=
    '(c, b) ← config_write offset data (hb_config s.1, s.2);
    Ret (mkHostBridge (hb_id s.1) c, b);
|}.

(** [create_pci_root_bus]; [dev] is the reference of the new host bridge. *)
Definition create_pci_root_bus (id : Z) (dev : nat) : outcome (result PciError (PciBus * PciHostBridge)) :=
  bus ← PciBus_new id;
  '(o, bus) ← allocate_device_id (Some PCI_ROOT_DEVICE_ID) bus;
  match o with
  | None => Ret (Err NoResources)
  | Some slot =>
      r ← PciHostBridge_new slot;
      match r with
      | Err e => Ret (Err e)
      | Ok bridge => bus ← register_device dev bridge bus; Ret (Ok (bus, bridge))
      end
  end.
