(* ===== verification/PciConfigFacts.v ===== *)
(** * The configuration space: invariant and accesses

    The invariant of a configuration space, that every access of the guest keeps
    it and the read-only bits, what the sizing protocol of the base address
    registers answers, and the chain of capabilities. *)
From S2P Require Import Prelude Bits IntervalTree DeviceResources Effects InterruptManager PciBus PciConfig.

(** ** Counting bits *)

Lemma pos_ctz_spec p k : 0 <= k -> (k <=? pos_ctz p) = (Zpos p mod 2 ^ k =? 0).
Proof.
  revert k. induction p as [p IH|p IH|]; intros k Hk; cbn [pos_ctz].
  - destruct (Z.eq_dec k 0) as [->|]; [by rewrite Z.pow_0_r, Z.mod_1_r|].
    destruct (Z.eqb_spec (Zpos p~1 mod 2 ^ k) 0) as [E|]; [|zcase; lia]. exfalso.
    apply Z.mod_divide in E as [q E]; [|apply Z.pow_nonzero; lia].
    replace k with (1 + (k - 1)) in E by lia. rewrite Z.pow_add_r, Z.pow_1_r in E by lia.
    assert (Zpos p~1 = 2 * (q * 2 ^ (k - 1))) by (rewrite E; ring). lia.
  - destruct (Z.eq_dec k 0) as [->|].
    { rewrite Z.pow_0_r, Z.mod_1_r. pose proof (IH 0 ltac:(lia)) as E. rewrite Z.pow_0_r, Z.mod_1_r in E.
      zbool. apply Z.leb_le. change (0 =? 0) with true in E. apply Z.leb_le in E. lia. }
    replace k with (1 + (k - 1)) at 2 by lia. rewrite Z.pow_add_r, Z.pow_1_r by lia.
    rewrite Pos2Z.inj_xO, Z.mul_mod_distr_l by lia.
    replace (2 * (Zpos p mod 2 ^ (k - 1)) =? 0) with (Zpos p mod 2 ^ (k - 1) =? 0) by (repeat zcase; lia).
    rewrite <- IH by lia. repeat zcase; lia.
  - destruct (Z.eq_dec k 0) as [->|]; [by rewrite Z.pow_0_r, Z.mod_1_r|].
    rewrite Z.mod_small; [repeat zcase; lia|]. split; [lia|].
    replace k with (1 + (k - 1)) by lia. rewrite Z.pow_add_r by lia.
    pose proof (Z.pow_pos_nonneg 2 (k - 1)). lia.
Qed.

Lemma trailing_zeros_spec x k : 0 <= k <= 64 -> 0 <= x -> (k <=? trailing_zeros x) = (x mod 2 ^ k =? 0).
Proof.
  intros Hk Hx. destruct x as [|p|p]; [|by apply pos_ctz_spec; lia|lia]. cbn [trailing_zeros].
  rewrite Z.mod_0_l by (apply Z.pow_nonzero; lia). repeat zcase; lia.
Qed.

Lemma pos_ones_pow2 p : pos_ones p = 1 -> exists k, 0 <= k /\ Zpos p = 2 ^ k.
Proof.
  assert (forall q, 1 <= pos_ones q) as Hge by (intros q; induction q; cbn; lia).
  induction p as [p IH|p IH|]; cbn [pos_ones]; intros Hp.
  - pose proof (Hge p). lia.
  - destruct (IH Hp) as (k & Hk & E). exists (1 + k). split; [lia|].
    by rewrite Pos2Z.inj_xO, E, Z.pow_add_r by lia.
  - exists 0. done.
Qed.

Lemma count_ones_pow2 x : count_ones x = 1 -> exists k, 0 <= k /\ x = 2 ^ k.
Proof. destruct x; [done|apply pos_ones_pow2|done]. Qed.

(** ** The layout of the capabilities

    One after the other from an offset on, each on a dword, up to the end of the
    capability area. *)
Fixpoint layout (lo : Z) (l : list (Z * Z)) : Prop :=
  match l with
  | [] => True
  | (base, len) :: l' =>
      base = lo /\ 2 < len /\ base + len <= CAPABILITY_MAX_OFFSET /\ layout (next_dword base len) l'
  end.

Definition layout_end (lo : Z) (l : list (Z * Z)) : Z :=
  match last l with Some (base, len) => next_dword base len | None => lo end.

Lemma layout_app lo l base len :
  layout lo (l ++ [(base, len)]) <->
  layout lo l /\ base = layout_end lo l /\ 2 < len /\ base + len <= CAPABILITY_MAX_OFFSET.
Proof.
  revert lo. induction l as [|[b n] l IH]; intros lo; [cbn; tauto|].
  cbn [app layout]. rewrite IH.
  assert (layout_end lo ((b, n) :: l) = layout_end (next_dword b n) l) as ->; [|tauto].
  unfold layout_end. by destruct l as [|e l] using rev_ind; [|rewrite app_comm_cons, !last_snoc].
Qed.

Lemma next_dword_spec o n : 0 <= o + n < 2 ^ 63 -> o + n <= next_dword o n < o + n + 4 /\ next_dword o n mod 4 = 0.
Proof.
  intros Hr. unfold next_dword. set (x := o + n + 3).
  assert (Z.land x (unot u64_max 3) = Z.shiftl (Z.shiftr x 2) 2) as ->.
  { zbits i. destruct (Z.ltb_spec i 2).
    - rewrite Z.shiftl_spec_low by done. assert (i = 0 \/ i = 1) as [->| ->] by lia; apply andb_false_r.
    - rewrite Z.shiftl_spec, Z.shiftr_spec by lia. replace (i - 2 + 2) with i by lia.
      rewrite (testbit_high 3 2) by (cbn; lia). cbn [xorb]. destruct (Z.ltb_spec i 64); [by rewrite andb_true_r|].
      rewrite (testbit_high x 64) by (unfold x; lia). done. }
  rewrite Z.shiftl_mul_pow2, Z.shiftr_div_pow2 by lia. change (2 ^ 2) with 4.
  pose proof (Z.div_mod x 4). pose proof (Z.mod_pos_bound x 4).
  split; [unfold x in *; lia|]. apply Z.mod_mul. lia.
Qed.

Lemma layout_bounds lo l :
  0 <= lo <= CAPABILITY_MAX_OFFSET -> lo mod 4 = 0 -> layout lo l ->
  Forall (fun e => lo <= e.1 /\ e.1 mod 4 = 0 /\ 2 < e.2 /\ e.1 + e.2 <= CAPABILITY_MAX_OFFSET) l /\
  lo <= layout_end lo l <= CAPABILITY_MAX_OFFSET /\ layout_end lo l mod 4 = 0.
Proof.
  revert lo. induction l as [|[b n] l IH]; intros lo Hlo Hm; cbn [layout]; [by unfold layout_end; cbn; repeat split; try lia|].
  intros (-> & Hn & Hb & Hl). destruct (next_dword_spec lo n) as [Hr Hd]; [lia|].
  pose proof (Z.div_mod (next_dword lo n) 4). destruct (IH (next_dword lo n)) as (Hall & He & Hem); [lia|done..|].
  assert (layout_end lo ((lo, n) :: l) = layout_end (next_dword lo n) l) as ->.
  { unfold layout_end. by destruct l as [|e l] using rev_ind; [|rewrite app_comm_cons, !last_snoc]. }
  split; [|split; [lia|done]]. constructor; [cbn; lia|]. eapply Forall_impl; [exact Hall|]. cbn. intros e He'. lia.
Qed.

Section facts.
Context {C : Type} {PC : PciCapability C}.
Implicit Types (c : PciConfiguration C).

(** ** Registers *)

Lemma nth_insert {A} (l : list A) i j v d :
  (i < length l)%nat -> nth j (<[i := v]> l) d = if Nat.eqb i j then v else nth j l d.
Proof.
  intros Hi. rewrite !nth_lookup. destruct (Nat.eqb_spec i j) as [<-|Hne].
  - by rewrite list_lookup_insert_eq.
  - by rewrite list_lookup_insert_ne.
Qed.

Lemma nth_Forall {A} (P : A -> Prop) l i d : Forall P l -> P d -> P (nth i l d).
Proof. intros Hl Hd. rewrite nth_lookup. destruct (l !! i) eqn:E; [|done]. by eapply Forall_lookup. Qed.

(** The BAR behind a register, and back. *)
Definition bar_reg (i : Z) : Z := if i =? NUM_BAR_REGS then ROM_BAR_REG else BAR0_REG + i.

(** The bits that the sizing protocol shows are bits that the guest may write. *)
Definition bar_ok c (i : Z) : Prop := exists m, bar_mask (bar c i) = Ret m /\ sub_bits m (wbits c (bar_reg i)).

Record cfg_ok c : Prop := {
  ok_header : header_type c = HeaderDevice;
  ok_regs : length (registers c) = 64%nat /\ Forall in_u32 (registers c);
  ok_wbits : length (writable_bits c) = 64%nat /\ Forall in_u32 (writable_bits c);
  ok_bars : length (bars c) = 7%nat /\ forall i, 0 <= i <= 6 -> bar_ok c i;
  ok_upper i : 0 <= i <= 6 -> b_type (bar c i) = Some Memory64BitRegionUpper ->
    1 <= i <= 5 /\ b_type (bar c (i - 1)) = Some Memory64BitRegion;
  ok_caps : layout FIRST_CAPABILITY_OFFSET (capabilities c).*1;
}.

(** What the guest does not change. *)
Record ro_same c c' : Prop := {
  ro_wbits : writable_bits c' = writable_bits c;
  ro_regs i : 0 <= i < 64 ->
    Z.land (reg c' i) (unot u32_max (wbits c i)) = Z.land (reg c i) (unot u32_max (wbits c i));
  ro_bars i : 0 <= i <= 6 -> b_type (bar c' i) = b_type (bar c i) /\ b_size (bar c' i) = b_size (bar c i);
  ro_caps : (capabilities c').*1 = (capabilities c).*1;
}.

Lemma ro_same_refl c : ro_same c c.
Proof. by split. Qed.

Lemma ro_same_trans c1 c2 c3 : ro_same c1 c2 -> ro_same c2 c3 -> ro_same c1 c3.
Proof.
  intros [W1 R1 B1 C1] [W2 R2 B2 C2]. split; [congruence| | |congruence].
  - intros i Hi. unfold wbits in *. rewrite <- R1, <- W1 by done. by apply R2.
  - intros i Hi. destruct (B1 i Hi), (B2 i Hi). split; congruence.
Qed.

(** One step of the guest. *)
Definition guest_step c c' : Prop := cfg_ok c -> cfg_ok c' /\ ro_same c c'.

Lemma guest_step_refl c : guest_step c c.
Proof. intros H. split; [done|apply ro_same_refl]. Qed.
Lemma guest_step_trans c1 c2 c3 : guest_step c1 c2 -> guest_step c2 c3 -> guest_step c1 c3.
Proof.
  intros H1 H2 Hok. destruct (H1 Hok) as [Hok2 R1], (H2 Hok2) as [Hok3 R2]. split; [done|by eapply ro_same_trans].
Qed.

Lemma reg_set c i j v : length (registers c) = 64%nat -> 0 <= i < 64 -> 0 <= j ->
  reg (set_reg i v c) j = if i =? j then v else reg c j.
Proof.
  intros Hl Hi Hj. unfold reg, set_reg. cbn [registers]. rewrite nth_insert by lia.
  destruct (Z.eqb_spec i j) as [->|]; [by rewrite Nat.eqb_refl|].
  by destruct (Nat.eqb_spec (Z.to_nat i) (Z.to_nat j)); [lia|].
Qed.

Lemma bar_set c i j b : length (bars c) = 7%nat -> 0 <= i <= 6 -> 0 <= j ->
  bar (set_bar i b c) j = if i =? j then b else bar c j.
Proof.
  intros Hl Hi Hj. unfold bar, set_bar. cbn [bars]. rewrite nth_insert by lia.
  destruct (Z.eqb_spec i j) as [->|]; [by rewrite Nat.eqb_refl|].
  by destruct (Nat.eqb_spec (Z.to_nat i) (Z.to_nat j)); [lia|].
Qed.

Lemma reg_u32 c i : cfg_ok c -> in_u32 (reg c i).
Proof. intros Hok. apply (nth_Forall in_u32); [apply ok_regs, Hok|ulia]. Qed.
Lemma wbits_u32 c i : cfg_ok c -> in_u32 (wbits c i).
Proof. intros Hok. apply (nth_Forall in_u32); [apply ok_wbits, Hok|ulia]. Qed.

Lemma sub_bits_u32 m w : in_u32 w -> sub_bits m w -> in_u32 m.
Proof.
  unfold sub_bits. intros Hw <-. assert (0 <= Z.land m w) by (apply Z.land_nonneg; right; ulia).
  apply in_u32_iff. split; [done|]. apply bits_below; [lia|done|]. intros i Hi.
  rewrite Z.land_spec, (testbit_u32 w) by done. apply andb_false_r.
Qed.

(** *** Steps that keep the read-only parts *)

Lemma step_merge c i m v :
  0 <= i < 64 -> sub_bits m (wbits c i) -> 0 <= v ->
  guest_step c (set_reg i (Z.lor (Z.land (reg c i) (unot u32_max (wbits c i))) (Z.land v m)) c).
Proof.
  intros Hi Hs Hv Hok. pose proof (wbits_u32 c i Hok). pose proof (reg_u32 c i Hok).
  pose proof (sub_bits_u32 m (wbits c i) ltac:(done) Hs).
  assert (in_u32 (Z.lor (Z.land (reg c i) (unot u32_max (wbits c i))) (Z.land v m))).
  { apply lor_u32; [apply land_u32; [done|apply unot_u32; done]|by apply land_u32_r]. }
  split.
  - destruct Hok as [? [Hl Hr] ? ? ? ?]. split; try done. split; [cbn; by rewrite length_insert|].
    by apply Forall_insert.
  - split; try done. intros j Hj. rewrite reg_set by (try apply ok_regs; done || lia).
    destruct (Z.eqb_spec i j) as [<-|]; [by apply merge_keeps|done].
Qed.

Lemma step_set_bar c i b :
  0 <= i <= 6 -> b_type b = b_type (bar c i) -> b_size b = b_size (bar c i) -> guest_step c (set_bar i b c).
Proof.
  intros Hi Ht Hz Hok. pose proof (ok_bars _ Hok) as [Hl Hb].
  assert (forall j, 0 <= j <= 6 -> b_type (bar (set_bar i b c) j) = b_type (bar c j) /\
            b_size (bar (set_bar i b c) j) = b_size (bar c j)) as Hsame.
  { intros j Hj. rewrite bar_set by (done || lia). by destruct (Z.eqb_spec i j) as [<-|]. }
  split; [|by split].
  destruct Hok as [? ? ? ? Hu ?]. split; try done.
  - split; [cbn; by rewrite length_insert|].
    intros j Hj. destruct (Hb j Hj) as (m & Hm & Hs), (Hsame j Hj) as [E1 E2]. exists m. split; [|done].
    unfold bar_mask in *. by rewrite E1, E2.
  - intros j Hj. destruct (Hsame j Hj) as [-> _]. intros E. destruct (Hu j Hj E) as [? E'].
    destruct (Hsame (j - 1) ltac:(lia)) as [-> _]. done.
Qed.

Lemma step_set_params c p : guest_step c (set_params p c).
Proof. intros Hok. split; [by destruct Hok; split|by split]. Qed.

Lemma step_set_caps c l : l.*1 = (capabilities c).*1 -> guest_step c (set_caps l c).
Proof.
  intros Hl Hok. split; [|by split]. destruct Hok as [? ? ? ? ? Hc]. split; try done. cbn. by rewrite Hl.
Qed.

Lemma step_set_bar_addr c i a : 0 <= i <= 6 -> guest_step c (set_bar_addr i a c).
Proof. intros Hi. by apply step_set_bar. Qed.
Lemma step_set_bar_allocated c i v : 0 <= i <= 6 -> guest_step c (set_bar_allocated i v c).
Proof. intros Hi. by apply step_set_bar. Qed.

Lemma update_cap_fst offset f (l l' : list (Z * Z * C)) : update_cap offset f l = Some l' -> l'.*1 = l.*1.
Proof.
  revert l'. induction l as [|[[base len] cap] l IH]; cbn; intros l' E; [done|].
  destruct (_ && _); [by injection E as <-|]. destruct (update_cap offset f l); [|done].
  injection E as <-. cbn. f_equal. by apply IH.
Qed.

Lemma step_detect c reg_idx : 0 <= reg_idx -> guest_step c (detect_bar_programming reg_idx c).2.
Proof.
  intros Hr Hok. pose proof (ok_upper _ Hok (reg_idx - BAR0_REG)) as Hu. revert Hok. fold (guest_step c).
  unfold detect_bar_programming, is_bar_reg, bar_type in *.
  destruct ((BAR0_REG <=? reg_idx) && (reg_idx <? BAR0_REG + NUM_BAR_REGS)) eqn:Eb; zbool.
  - destruct (b_type (bar c (reg_idx - BAR0_REG))) as [[]|]; try case_match; cbn [snd];
      try (apply guest_step_refl || (apply step_set_bar_addr; lia)).
    destruct Hu as [? _]; [lia|done|]. eapply guest_step_trans; apply step_set_bar_addr; lia.
  - repeat case_match; cbn [snd]; try apply guest_step_refl. apply step_set_bar_addr. lia.
Qed.

Lemma detect_index c reg_idx p :
  cfg_ok c -> 0 <= reg_idx -> (detect_bar_programming reg_idx c).1 = Some p -> 0 <= p_bar_idx p <= 6.
Proof.
  intros Hok Hr. pose proof (ok_upper _ Hok (reg_idx - BAR0_REG)) as Hu.
  unfold detect_bar_programming, is_bar_reg, bar_type in *.
  destruct ((BAR0_REG <=? reg_idx) && (reg_idx <? BAR0_REG + NUM_BAR_REGS)) eqn:Eb; zbool.
  - destruct (b_type (bar c (reg_idx - BAR0_REG))) as [[]|]; try case_match; cbn [fst]; try done;
      intros [= <-]; cbn [p_bar_idx]; try lia.
    destruct Hu as [? _]; [lia|done|lia].
  - repeat case_match; cbn [fst]; try done. intros [= <-]. cbn. lia.
Qed.

(** *** The methods *)

(** The configuration with its bus. *)
#[local] Abbreviation St := (PciConfiguration C * option PciBusContent)%type.

(** [guest m]: from any state, the method is a step of the guest. *)
Definition guest {A} (m : eff St PciError A) : Prop := forall s, wp m (fun _ s' => guest_step s.1 s'.1) s.

Lemma wp_on_bus {A} (m : eff PciBusContent PciError A) (Q : result PciError A -> St -> Prop) s :
  (forall b r b', s.2 = Some b -> m b = Ret (r, b') -> Q r (s.1, Some b')) -> wp (on_bus m) Q s.
Proof.
  intros HQ r s' Hr. unfold on_bus in Hr. destruct (s.2) as [b|] eqn:Eb; [|done].
  destruct (m b) as [[r0 b']|] eqn:Em; [|done]. injection Hr as <- <-. by eapply HQ.
Qed.

Lemma guest_free p : 0 <= p_bar_idx p <= 6 -> guest (free_bar_resource p).
Proof.
  intros Hi s. unfold free_bar_resource, cfg, upd_cfg. wp_steps.
  destruct (bar_allocated _ _); [|wp_steps; apply guest_step_refl].
  destruct (p_bar_type p); wp_steps; apply wp_on_bus; intros b r b' Eb Em;
    (destruct r; [wp_steps; by apply step_set_bar_allocated|apply guest_step_refl]).
Qed.

Lemma guest_allocate p : 0 <= p_bar_idx p <= 6 -> guest (allocate_bar_resource p).
Proof.
  intros Hi s. unfold allocate_bar_resource, cfg, upd_cfg.
  destruct (_ =? 0); [wp_steps; apply guest_step_refl|]. wp_steps.
  destruct (bar_allocated _ _); [apply wp_panic|]. wp_steps. apply wp_lift. intros last _.
  destruct (p_bar_type p); wp_steps; apply wp_on_bus; intros b r b' Eb Em;
    (destruct r; wp_steps; [by apply step_set_bar_allocated|apply guest_step_refl]).
Qed.

Lemma guest_intro {A} (m : eff St PciError A) :
  (forall s, cfg_ok s.1 -> wp m (fun _ s' => guest_step s.1 s'.1) s) -> guest m.
Proof. intros Hm s r s' E Hok. by apply (Hm s Hok r s' E). Qed.

(** The mask of the sizing protocol, and the mask of an ordinary write. *)
Lemma probe_mask c reg_idx m :
  cfg_ok c -> is_bar_reg reg_idx = true \/ reg_idx = ROM_BAR_REG ->
  bar_mask (bar c (if reg_idx =? ROM_BAR_REG then NUM_BAR_REGS else reg_idx - BAR0_REG)) = Ret m ->
  sub_bits m (wbits c reg_idx).
Proof.
  intros Hok Hr Hm. unfold is_bar_reg in Hr. set (i := if reg_idx =? ROM_BAR_REG then NUM_BAR_REGS else reg_idx - BAR0_REG) in *.
  assert (0 <= i <= 6 /\ bar_reg i = reg_idx) as [Hi Ei].
  { unfold bar_reg, i. destruct Hr as [Hr| ->]; zbool; [|done].
    destruct (Z.eqb_spec reg_idx ROM_BAR_REG); [lia|]. destruct (Z.eqb_spec (reg_idx - BAR0_REG) NUM_BAR_REGS); lia. }
  destruct (ok_bars _ Hok) as [_ Hb]. destruct (Hb i Hi) as (m' & Em & Hs). rewrite Hm in Em.
  injection Em as <-. by rewrite Ei in Hs.
Qed.

Lemma guest_write_bar reg_idx v :
  0 <= reg_idx < 64 -> is_bar_reg reg_idx = true \/ reg_idx = ROM_BAR_REG -> 0 <= v -> guest (write_device_bar_reg reg_idx v).
Proof.
  intros Hi Hr Hv. apply guest_intro. intros s Hok.
  unfold write_device_bar_reg, cfg, upd_cfg. wp_steps.
  assert (forall m, sub_bits m (wbits s.1 reg_idx) ->
    guest_step s.1 (set_reg reg_idx (Z.lor (Z.land (reg s.1 reg_idx) (unot u32_max (wbits s.1 reg_idx))) (Z.land v m)) s.1)) as Hstep
    by (intros; by apply step_merge).
  destruct (v =? 0xffffffff).
  { apply wp_lift. intros m Hm. wp_steps. apply Hstep. by eapply probe_mask. }
  wp_steps. set (c1 := set_reg _ _ _). cbn [fst snd id].
  assert (guest_step s.1 c1) as H1 by (apply Hstep, sub_bits_refl). clearbody c1.
  pose proof (step_detect c1 reg_idx ltac:(lia)) as H2.
  pose proof (detect_index c1 reg_idx) as Hx.
  destruct (detect_bar_programming reg_idx c1) as [[p|] c2]; cbn [fst snd] in *; wp_steps; cbn [fst].
  2: { by eapply guest_step_trans. }
  assert (guest_step s.1 c2) as H3 by (by eapply guest_step_trans).
  assert (0 <= p_bar_idx p <= 6) as Hp by (apply Hx; [by apply H1|lia|done]).
  eapply wp_mono; [by apply guest_free|]. intros r1 s1 G1. cbn [fst] in G1.
  assert (guest_step s.1 s1.1) as H4 by (by eapply guest_step_trans). destruct r1; [|done].
  wp_steps. eapply wp_mono; [by apply guest_allocate|]. intros r2 s2 G2.
  assert (guest_step s.1 s2.1) as H5 by (by eapply guest_step_trans). destruct r2; [|done].
  wp_steps. destruct (bar_programming_params s2.1); wp_steps; cbn [fst].
  eapply guest_step_trans; [done|apply step_set_params].
Qed.

Lemma at_index_nth {A} (l : list A) i x d :
  at_index l i = Some x -> nth (Z.to_nat i) l d = x /\ i < Z.of_nat (length l).
Proof.
  unfold at_index. destruct (Z.ltb_spec i (Z.of_nat (length l))); [|done]. intros E.
  by rewrite nth_lookup, E.
Qed.

Lemma guest_cap_write offset f : guest (cap_write offset f).
Proof.
  intros s. unfold cap_write, cfg, upd_cfg. wp_steps.
  destruct (update_cap offset f (capabilities s.1)) as [l|] eqn:E; wp_steps; [|apply guest_step_refl].
  apply step_set_caps. by eapply update_cap_fst.
Qed.

Lemma guest_write_u32 offset v : 0 <= offset -> 0 <= v -> guest (write_u32 offset v).
Proof.
  intros Ho Hv. apply guest_intro. intros s Hok. unfold write_u32, cfg, upd_cfg. wp_steps.
  apply wp_expect. intros mask Hm. cbn [id] in *. pose proof (ok_wbits _ Hok) as [Hl _].
  apply at_index_nth with (d := 0) in Hm as [<- Hlt]. rewrite Hl in Hlt.
  fold (wbits s.1 (Z.shiftr offset 2)).
  assert (0 <= Z.shiftr offset 2) by (by apply Z.shiftr_nonneg).
  assert (guest_step s.1 (merge_reg (Z.shiftr offset 2) (wbits s.1 (Z.shiftr offset 2)) v s.1)) as Hmerge
    by (apply step_merge; [lia|apply sub_bits_refl|done]).
  wp_if; [wp_steps; apply guest_step_refl|].
  wp_if; [wp_steps; apply guest_step_refl|].
  wp_if; [wp_steps; apply Hmerge|].
  wp_if.
  { eapply wp_mono; [apply guest_write_bar|done]; [lia| |done]. apply andb_true_iff in E2 as [_ E2].
    apply orb_true_iff in E2 as [|E2]; [by left|right; by zbool]. }
  wp_if; [wp_steps; apply guest_step_refl|].
  wp_if; [wp_steps; apply Hmerge|].
  wp_steps. eapply wp_mono; [apply guest_cap_write|]. intros [h|e] s1 H1; [|done].
  destruct h; wp_steps; [done|]. eapply guest_step_trans; [apply H1|].
  destruct (H1 Hok) as [Hok1 Hro]. unfold merge_reg.
  assert (wbits s.1 (Z.shiftr offset 2) = wbits s1.1 (Z.shiftr offset 2)) as -> by (unfold wbits; by rewrite (ro_wbits _ _ Hro)).
  apply step_merge; [lia|apply sub_bits_refl|done].
Qed.

Lemma merged_nonneg old value mask : 0 <= mask < 2 ^ 32 -> 0 <= Z.lor (Z.land old (unot u32_max mask)) (Z.land value mask).
Proof.
  intros Hm. apply Z.lor_nonneg. split; apply Z.land_nonneg; right; [|lia].
  apply (unot_range 32); lia.
Qed.

Lemma guest_write_u16 offset v : 0 <= offset -> guest (write_u16 offset v).
Proof.
  intros Ho s. unfold write_u16, cfg. wp_if; [wp_steps; apply guest_step_refl|]. wp_steps.
  eapply wp_mono; [apply guest_cap_write|]. intros [[]|e] s1 H1; wp_steps; [done| |done].
  eapply wp_mono; [apply guest_write_u32|].
  - apply Z.land_nonneg. by left.
  - apply merged_nonneg. pose proof (as_u32_u32 (Z.shiftl 0xffff (Z.shiftl (Z.land (as_u32 offset) 0x2) 3))). ulia.
  - intros r s2 H2. by eapply guest_step_trans.
Qed.

Lemma guest_write_u8 offset v : 0 <= offset -> guest (write_u8 offset v).
Proof.
  intros Ho s. unfold write_u8, cfg. wp_if; [wp_steps; apply guest_step_refl|]. wp_steps.
  eapply wp_mono; [apply guest_cap_write|]. intros [[]|e] s1 H1; wp_steps; [done| |done].
  eapply wp_mono; [apply guest_write_u32|].
  - apply Z.land_nonneg. by left.
  - apply merged_nonneg. pose proof (as_u32_u32 (Z.shiftl 0xff (Z.shiftl (Z.land (as_u32 offset) 0x3) 3))). ulia.
  - intros r s2 H2. by eapply guest_step_trans.
Qed.

Lemma guest_write_config offset data : 0 <= offset -> Forall (fun b => 0 <= b < 256) data -> guest (write_config offset data).
Proof.
  intros Ho Hd s. pose proof (le_read_bound _ Hd). unfold write_config.
  repeat (wp_if; [wp_steps; (eapply wp_mono;
    [(apply guest_write_u32 + apply guest_write_u16 + apply guest_write_u8); lia|]);
    intros [?|?] s1 H1; wp_steps; done|]).
  wp_steps. apply guest_step_refl.
Qed.
End facts.

#[export] Hint Resolve reg_u32 wbits_u32 : u32.

(** ** Parts of the configuration that a method does not touch *)

Section parts.
Context {C B : Type} {PC : PciCapability C} (f : PciConfiguration C -> B).
#[local] Abbreviation St := (PciConfiguration C * option PciBusContent)%type.

Definition part (s : St) : B := f s.1.

Lemma keeps_on_bus {A} (m : eff PciBusContent PciError A) : keeps (same part) (on_bus m).
Proof.
  intros [c [b|]] r s' H; [|done]. unfold on_bus in H. cbn in H. destruct (m b) as [[r1 b']|]; [|done].
  by injection H as _ <-.
Qed.
Lemma keeps_lift {A} (o : outcome A) : keeps (same part) (lift_outcome o : eff St PciError A).
Proof. intros s r s' H. unfold lift_outcome in H. destruct o; [|done]. by injection H as _ <-. Qed.
Lemma keeps_cfg {A} (g : PciConfiguration C -> A) : keeps (same part) (cfg g).
Proof. apply same_gets. Qed.
Lemma keeps_upd g : (forall c, f (g c) = f c) -> keeps (same part) (upd_cfg g).
Proof. intros Hf. apply same_modify. intros s. apply Hf. Qed.

Context (Hset : forall i b c, f (set_bar i b c) = f c).

#[local] Hint Resolve keeps_on_bus keeps_lift keeps_cfg : eff.
#[local] Hint Extern 2 (keeps (same part) (upd_cfg _)) => (apply keeps_upd; intros; apply Hset) : eff.

Lemma keeps_allocate p : keeps (same part) (allocate_bar_resource (C:=C) p).
Proof. unfold allocate_bar_resource. eff_walk. Qed.
Lemma keeps_free p : keeps (same part) (free_bar_resource (C:=C) p).
Proof. unfold free_bar_resource. eff_walk. Qed.

Lemma detect_part reg_idx c : f (detect_bar_programming reg_idx c).2 = f c.
Proof. unfold detect_bar_programming, set_bar_addr. repeat case_match; cbn [snd]; by rewrite ?Hset. Qed.
End parts.

Lemma detect_none {C} (reg_idx : Z) (c c' : PciConfiguration C) : detect_bar_programming reg_idx c = (None, c') -> c' = c.
Proof. unfold detect_bar_programming. repeat case_match; naive_solver. Qed.

#[export] Hint Resolve keeps_on_bus keeps_lift keeps_cfg : eff.
