(* ===== verification/PciConfigBuild.v ===== *)
(** * The configuration spaces that devices build

    A device makes its configuration space with [PciConfiguration::new] and adds
    base address registers and capabilities; every space built that way satisfies
    the invariant, and its list of capabilities leads to all of them. *)
From S2P Require Import Prelude Bits IntervalTree DeviceResources Effects InterruptManager PciBus PciConfig PciConfigFacts.

Section build.
Context {C : Type} {PC : PciCapability C}.
Implicit Types (c : PciConfiguration C).

(** A request for a BAR: machine words, and at least 16 bytes for a 64-bit BAR, as
    PCI demands.  The code does not check the latter (see [small_wide_bar_leaks]). *)
Definition bar_request (r : PciBarConfiguration) : Prop :=
  0 <= c_bar_idx r <= 255 /\ in_u64 (c_addr r) /\ in_u64 (c_bar_size r) /\
  (c_bar_type r = Memory64BitRegion -> 16 <= c_bar_size r).

Inductive built : PciConfiguration C -> Prop :=
| built_new box vendor device class subclass pi sub_vendor sub clique c :
    in_u16 vendor -> in_u16 sub_vendor ->
    PciConfiguration_new box vendor device class subclass pi HeaderDevice sub_vendor sub clique = Ret (Ok c) ->
    built c
| built_bar request r c c' :
    built c -> bar_request request -> add_device_bar request c = Ret (r, c') -> built c'
| built_rom request active r c c' :
    built c -> bar_request request -> in_u32 active -> add_device_rom_bar request active c = Ret (r, c') -> built c'
| built_cap cap r c c' : built c -> add_capability cap c = Ret (r, c') -> built c'
| built_irq line pin c : built c -> in_u8 line -> built (set_irq line pin c).

Lemma set_reg_ok c i v : in_u32 v -> cfg_ok c -> cfg_ok (set_reg i v c).
Proof.
  intros Hv [H1 [H2 H2'] H3 H4 H5 H6]. split; try done. split; cbn [set_reg registers].
  - by rewrite length_insert.
  - by apply Forall_insert.
Qed.

(** *** Capabilities *)

Lemma next_cap_offset_layout (caps : list (Z * Z * C)) :
  next_cap_offset caps = layout_end FIRST_CAPABILITY_OFFSET caps.*1.
Proof. unfold next_cap_offset, layout_end. rewrite fmap_last. by destruct (last caps) as [[[b n] cap]|]. Qed.

Lemma add_capability_ok cap c : cfg_ok c -> wp (add_capability cap) (fun _ c' => cfg_ok c') c.
Proof.
  intros Hok. unfold add_capability. wp_if; [by wp_steps|]. wp_steps. rewrite next_cap_offset_layout.
  destruct (layout_bounds FIRST_CAPABILITY_OFFSET (capabilities c).*1) as (_ & He & _); [lia|done|apply Hok|].
  unfold checked_add. destruct (_ <=? u64_max) eqn:Eo; [|by wp_steps]. wp_if; [by wp_steps|]. wp_steps. zbool.
  set (c1 := set_reg _ _ (set_reg _ _ c)). assert (cfg_ok c1) as Hok1.
  { unfold c1. apply set_reg_ok; [|apply set_reg_ok; [|done]].
    - apply lor_u32; [|apply as_u32_u32]. apply land_u32; [|by cbn]. apply reg_u32, set_reg_ok; [|done].
      apply lor_u32; [by apply reg_u32|ulia].
    - apply lor_u32; [by apply reg_u32|ulia]. }
  destruct Hok1 as [H1 H2 H3 H4 H5 H6]. split; try done. cbn. rewrite fmap_app. cbn.
  apply layout_app. split; [done|]. split; [done|]. cbn in *. lia.
Qed.

(** *** A new configuration space *)

Lemma Forall_const {A} (P : A -> Prop) x n : P x -> Forall P (repeat x n).
Proof. intros. by induction n; constructor. Qed.

Lemma fresh_ok r0 r2 r11 :
  in_u32 r0 -> in_u32 r2 -> in_u32 r11 ->
  cfg_ok (mkConfiguration HeaderDevice (<[0%nat := r0]> (<[2%nat := r2]> (<[11%nat := r11]> (repeat 0 64))))
    (<[1%nat := 0x0000ffff]> (<[3%nat := 0x000000ff]> (<[15%nat := 0x000000ff]> (repeat 0 64))))
    (repeat PciBarState_default 7) None ([] : list (Z * Z * C))).
Proof.
  intros H0 H2 H11. split; cbn [header_type registers writable_bits bars capabilities]; [done|..].
  - split; [done|]. repeat apply Forall_insert; try done. apply Forall_const. ulia.
  - split; [done|]. repeat apply Forall_insert; try ulia. apply Forall_const. ulia.
  - split; [done|]. intros i Hi. exists 0. split; [|apply sub_bits_0].
    unfold bar. cbn [bars]. by rewrite nth_repeat.
  - intros i Hi. unfold bar. cbn [bars]. by rewrite nth_repeat.
  - done.
Qed.

Lemma configuration_new_ok box vendor device class subclass pi sub_vendor sub clique c :
  in_u16 vendor -> in_u16 sub_vendor ->
  PciConfiguration_new box vendor device class subclass pi HeaderDevice sub_vendor sub clique = Ret (Ok c) -> cfg_ok c.
Proof.
  intros Hv Hs E. unfold PciConfiguration_new in E. rewrite bool_decide_false in E by auto. cbv zeta in E.
  match type of E with context [mkConfiguration HeaderDevice ?r ?w ?b None []] =>
    assert (cfg_ok (mkConfiguration HeaderDevice r w b None ([] : list (Z * Z * C)))) as Hok end.
  { apply fresh_ok; repeat apply lor_u32; try apply as_u32_u32; ulia. }
  destruct clique as [id|]; [|by injection E as <-].
  apply outcome_bind_Ret in E as ([[o|e] c'] & E1 & E2); [|done]. injection E2 as <-.
  by apply (add_capability_ok _ _ Hok) in E1.
Qed.

(** *** Base address registers *)

(** What adding a BAR does to its register and its state. *)
Definition place (i v w : Z) (b : PciBarState) c : PciConfiguration C :=
  set_bar i b (set_wbits (bar_reg i) w (set_reg (bar_reg i) v c)).

Lemma wbits_set c i j v : length (writable_bits c) = 64%nat -> 0 <= i < 64 -> 0 <= j ->
  wbits (set_wbits i v c) j = if i =? j then v else wbits c j.
Proof.
  intros Hl Hi Hj. unfold wbits, set_wbits. cbn [writable_bits]. rewrite nth_insert by lia.
  destruct (Z.eqb_spec i j) as [->|]; [by rewrite Nat.eqb_refl|].
  by destruct (Nat.eqb_spec (Z.to_nat i) (Z.to_nat j)); [lia|].
Qed.

(** The sizes of the arrays. *)
Record sized c : Prop := {
  sz_regs : length (registers c) = 64%nat;
  sz_wbits : length (writable_bits c) = 64%nat;
  sz_bars : length (bars c) = 7%nat;
}.
Lemma ok_sized c : cfg_ok c -> sized c.
Proof. intros [_ [? _] [? _] [? _] _ _]. by split. Qed.
Lemma place_sized c i v w b : sized c -> sized (place i v w b c).
Proof. intros []. by split; cbn; rewrite length_insert. Qed.
#[local] Hint Resolve ok_sized place_sized : core.

Lemma bar_reg_range i : 0 <= i <= 6 -> 0 <= bar_reg i < 64.
Proof. unfold bar_reg. intros. zcase; lia. Qed.

Lemma bar_reg_inj i j : 0 <= i <= 6 -> 0 <= j <= 6 -> (bar_reg i =? bar_reg j) = (i =? j).
Proof.
  unfold bar_reg. intros. destruct (Z.eqb_spec i 6), (Z.eqb_spec j 6), (Z.eqb_spec i j); zcase; first [done|lia].
Qed.

Lemma place_bar c i v w b j : sized c -> 0 <= i <= 6 -> 0 <= j -> bar (place i v w b c) j = if i =? j then b else bar c j.
Proof. intros Hc Hi Hj. unfold place. by rewrite bar_set by (try done; apply Hc). Qed.

Lemma place_wbits c i v w b j : sized c -> 0 <= i <= 6 -> 0 <= j ->
  wbits (place i v w b c) j = if bar_reg i =? j then w else wbits c j.
Proof.
  intros Hc Hi Hj. pose proof (bar_reg_range i Hi).
  change (wbits (place i v w b c) j) with (wbits (set_wbits (bar_reg i) w (set_reg (bar_reg i) v c)) j).
  by rewrite wbits_set by (try done; apply Hc).
Qed.

Lemma place_reg c i v w b j : sized c -> 0 <= i <= 6 -> 0 <= j ->
  reg (place i v w b c) j = if bar_reg i =? j then v else reg c j.
Proof.
  intros Hc Hi Hj. change (reg (place i v w b c) j) with (reg (set_reg (bar_reg i) v c) j).
  pose proof (bar_reg_range i Hi). apply reg_set; [apply Hc|done..].
Qed.

Lemma place_ok c i v w b :
  cfg_ok c -> 0 <= i <= 6 -> in_u32 v -> in_u32 w -> b_type (bar c i) = None ->
  (exists m, bar_mask b = Ret m /\ sub_bits m w) ->
  (b_type b = Some Memory64BitRegionUpper -> 1 <= i <= 5 /\ b_type (bar c (i - 1)) = Some Memory64BitRegion) ->
  cfg_ok (place i v w b c).
Proof.
  intros Hok Hi Hv Hw Hfree Hm Hup. pose proof Hok as [H1 [H2 H2'] [H3 H3'] [H4 H4'] H5 H6]. split; try done.
  - cbn. rewrite length_insert. split; [done|]. by apply Forall_insert.
  - cbn. rewrite length_insert. split; [done|]. by apply Forall_insert.
  - split; [cbn; by rewrite length_insert|]. intros j Hj. unfold bar_ok. pose proof (bar_reg_range j Hj).
    rewrite place_bar, place_wbits, bar_reg_inj by (auto; lia). destruct (Z.eqb_spec i j) as [->|]; [done|by apply H4'].
  - intros j Hj. rewrite place_bar by (auto; lia). destruct (Z.eqb_spec i j) as [->|Hne].
    + intros Hb. destruct (Hup Hb) as [Hr Hl]. split; [done|]. rewrite place_bar by (auto; lia).
      destruct (Z.eqb_spec j (j - 1)); [lia|done].
    + intros Hb. destruct (H5 j Hj Hb) as [Hr Hl]. split; [done|]. rewrite place_bar by (auto; lia).
      destruct (Z.eqb_spec i (j - 1)) as [->|]; [congruence|done].
Qed.

Lemma place_comm c i v w b j v' w' b' :
  0 <= i <= 6 -> 0 <= j <= 6 -> i <> j -> place i v w b (place j v' w' b' c) = place j v' w' b' (place i v w b c).
Proof.
  intros Hi Hj Hne. assert (Z.to_nat (bar_reg i) <> Z.to_nat (bar_reg j)).
  { pose proof (bar_reg_inj i j Hi Hj). pose proof (bar_reg_range i Hi). pose proof (bar_reg_range j Hj).
    destruct (Z.eqb_spec i j); [done|]. zbool. lia. }
  unfold place, set_bar, set_wbits, set_reg. cbn. f_equal; apply list_insert_insert_ne; lia.
Qed.

(** The masks of the three kinds of BARs. *)
Lemma size_mask k : 0 <= k <= 31 -> usub (as_u32 (2 ^ k)) 1 = Ret (2 ^ k - 1).
Proof.
  intros Hk. pose proof (Z.pow_pos_nonneg 2 k). pose proof (Z.pow_lt_mono_r 2 k 32).
  rewrite as_u32_id by ulia. unfold usub. zcase; [done|lia].
Qed.

Lemma pow2_mask_sub j k : 0 <= j <= k -> k <= 32 -> sub_bits (2 ^ 32 - 2 ^ k) (2 ^ 32 - 2 ^ j).
Proof.
  intros Hj Hk. apply Z.bits_inj'. intros i Hi. rewrite Z.land_spec, !testbit_pow2_mask by lia.
  by repeat zcase; try lia.
Qed.

Lemma mask_ok k j addr t :
  0 <= j <= k -> k <= 31 -> t <> Memory64BitRegionUpper ->
  exists m, bar_mask (mkBarState addr (as_u32 (2 ^ k)) (Some t) false) = Ret m /\ sub_bits m (2 ^ 32 - 2 ^ j).
Proof.
  intros Hj Hk Ht. exists (2 ^ 32 - 2 ^ k). split; [|apply pow2_mask_sub; lia].
  pose proof (Z.pow_pos_nonneg 2 k). pose proof (Z.pow_lt_mono_r 2 k 32).
  unfold bar_mask; cbn [b_type b_size]; destruct t; try done; rewrite ?size_mask by lia; cbn;
    rewrite ?unot_pred_pow2 by lia; try done.
  rewrite as_u32_id by ulia. zcase; [lia|]. by rewrite unot_pred_pow2 by lia.
Qed.

Lemma mask64_ok k addr addr' :
  4 <= k <= 63 ->
  (exists m, bar_mask (mkBarState addr (as_u32 (2 ^ k)) (Some Memory64BitRegion) false) = Ret m /\
     sub_bits m BAR_MEM_ADDR_MASK) /\
  (exists m, bar_mask (mkBarState addr' (as_u32 (Z.shiftr (2 ^ k) 32)) (Some Memory64BitRegionUpper) false) = Ret m /\
     sub_bits m 0xffffffff).
Proof.
  intros Hk. rewrite Z.shiftr_div_pow2 by lia. destruct (Z.lt_ge_cases k 32) as [Hlt|Hge].
  - split; [apply (mask_ok k 4); lia || done|]. pose proof (Z.pow_lt_mono_r 2 k 32).
    rewrite Z.div_small by (pose proof (Z.pow_pos_nonneg 2 k); lia). by exists 0xffffffff.
  - replace k with (k - 32 + 32) by lia. rewrite Z.pow_add_r, Z.div_mul by lia. split.
    + exists 0. split; [|apply sub_bits_0]. unfold as_u32. by rewrite Z.mod_mul.
    + pose proof (Z.pow_pos_nonneg 2 (k - 32)). pose proof (Z.pow_lt_mono_r 2 (k - 32) 32).
      exists (2 ^ 32 - 2 ^ (k - 32)). split; [|apply (pow2_mask_sub 0); lia].
      unfold bar_mask. cbn [b_type b_size]. rewrite as_u32_id by ulia. zcase; [lia|]. by rewrite unot_pred_pow2 by lia.
Qed.

(** The result of [add_device_bar]. *)
Definition bar_value (r : PciBarConfiguration) : Z :=
  Z.lor (Z.land (as_u32 (c_addr r)) (bar_flags r).1) (bar_flags r).2.
Definition lower_state (r : PciBarConfiguration) : PciBarState :=
  mkBarState (Z.land (bar_value r) (bar_flags r).1) (as_u32 (c_bar_size r)) (Some (c_bar_type r)) false.
Definition upper_state (r : PciBarConfiguration) : PciBarState :=
  mkBarState (as_u32 (Z.shiftr (c_addr r) 32)) (as_u32 (Z.shiftr (c_bar_size r) 32)) (Some Memory64BitRegionUpper) false.
Definition with_upper (r : PciBarConfiguration) c : PciConfiguration C :=
  match c_bar_type r with
  | Memory64BitRegion => place (c_bar_idx r + 1) (as_u32 (Z.shiftr (c_addr r) 32)) 0xffffffff (upper_state r) c
  | _ => c
  end.
Definition with_bar (r : PciBarConfiguration) c : PciConfiguration C :=
  place (c_bar_idx r) (bar_value r) (bar_flags r).1 (lower_state r) (with_upper r c).

(** What the checks of a new BAR ensure. *)
Record bar_fits (r : PciBarConfiguration) (k : Z) c : Prop := {
  bf_idx : 0 <= c_bar_idx r < NUM_BAR_REGS;
  bf_free : b_type (bar c (c_bar_idx r)) = None;
  bf_size : c_bar_size r = 2 ^ k;
  bf_kind : match c_bar_type r with
            | IoRegion => 2 <= k <= 31
            | Memory32BitRegion => 4 <= k <= 31
            | Memory64BitRegion =>
                4 <= k <= 63 /\ c_bar_idx r + 1 < NUM_BAR_REGS /\ b_type (bar c (c_bar_idx r + 1)) = None
            | Memory64BitRegionUpper => False
            end;
}.

Lemma bar_used_false c i : bar_used c i = false <-> b_type (bar c i) = None.
Proof. unfold bar_used, bar_type. by destruct (b_type (bar c i)). Qed.

Lemma size_exponent s : in_u64 s -> count_ones s = 1 -> exists k, 0 <= k <= 63 /\ s = 2 ^ k.
Proof.
  intros Hs (k & Hk & ->)%count_ones_pow2. exists k. split; [|done].
  destruct (Z.lt_ge_cases k 64); [lia|]. pose proof (Z.pow_le_mono_r 2 64 k). ulia.
Qed.

Lemma exponent_bounds j k m : 0 <= k -> 0 <= j -> 2 ^ j <= 2 ^ k -> 2 ^ k <= 2 ^ m - 1 -> 0 <= m -> j <= k < m.
Proof.
  intros Hk Hj H1 H2 Hm. split.
  - destruct (Z.le_gt_cases j k); [done|]. pose proof (Z.pow_lt_mono_r 2 k j). lia.
  - destruct (Z.lt_ge_cases k m); [done|]. pose proof (Z.pow_le_mono_r 2 m k). lia.
Qed.

Lemma check_bar_type_spec r k ea c :
  bar_request r -> c_bar_idx r < NUM_BAR_REGS -> b_type (bar c (c_bar_idx r)) = None ->
  0 <= k -> c_bar_size r = 2 ^ k ->
  wp (check_bar_type r ea) (fun res c' => match res with Ok _ => c' = with_upper r c /\ bar_fits r k c | Err _ => c' = c end) c.
Proof.
  intros (Hi & Ha & Hs & H64) Hidx Hfree Hk Ek. unfold check_bar_type, with_upper. destruct (c_bar_type r) eqn:Et.
  - wp_if; [by wp_steps|]. wp_if; [by wp_steps|]. wp_steps. split; [done|]. apply orb_false_iff in E as [E E']. zbool.
    split; [lia|done..|]. rewrite Et. destruct (exponent_bounds 4 k 32); ulia.
  - wp_if; [by wp_steps|]. wp_if; [by wp_steps|]. wp_steps. split; [done|]. apply orb_false_iff in E as [E E']. zbool.
    split; [lia|done..|]. rewrite Et. destruct (exponent_bounds 2 k 32); ulia.
  - wp_if; [by wp_steps|]. wp_steps. wp_if; [by wp_steps|]. wp_steps. zbool. apply bar_used_false in E0. split.
    + unfold place, bar_reg, upper_state. destruct (Z.eqb_spec (c_bar_idx r + 1) 6); [lia|].
      by replace (BAR0_REG + c_bar_idx r + 1) with (BAR0_REG + (c_bar_idx r + 1)) by lia.
    + split; [lia|done..|]. rewrite Et. specialize (H64 eq_refl).
      destruct (exponent_bounds 4 k 64); [ulia..|]. split; [ulia|]. by split; [lia|].
  - wp_steps.
Qed.

Lemma add_device_bar_spec r c :
  bar_request r ->
  wp (add_device_bar r)
    (fun res c' => match res with Ok _ => c' = with_bar r c /\ exists k, bar_fits r k c | Err _ => c' = c end) c.
Proof.
  intros Hr. pose proof Hr as (Hi & _ & Hs & _). unfold add_device_bar. wp_steps.
  do 4 (wp_if; [by wp_steps|]). destruct (checked_add _ _ _) as [ea|]; [|by wp_steps].
  wp_steps. zbool. unfold id in *. apply bar_used_false in E1.
  apply negb_false_iff, Z.eqb_eq in E2. destruct (size_exponent _ Hs E2) as (k & Hk & Ek).
  eapply wp_mono; [by apply (check_bar_type_spec r k); lia || done|].
  intros [[]|e] c1; [|done]. intros [-> Hf].
  destruct (bar_flags r) as [mask flags] eqn:Ef. wp_steps. split; [|by exists k].
  unfold with_bar, place, bar_value, lower_state, bar_value, bar_reg. rewrite Ef. cbn [fst snd].
  by destruct (Z.eqb_spec (c_bar_idx r) 6); [lia|].
Qed.

Lemma bar_flags_u32 r : in_u32 (bar_flags r).1 /\ in_u32 (bar_flags r).2.
Proof. unfold bar_flags. destruct (c_bar_type r), (c_prefetchable r); split; by split; vm_compute. Qed.

Lemma bar_value_u32 r : in_u32 (bar_value r).
Proof.
  destruct (bar_flags_u32 r). apply lor_u32; [|done]. apply land_u32; [apply as_u32_u32|ulia].
Qed.

Lemma with_bar_ok r k c : cfg_ok c -> bar_fits r k c -> cfg_ok (with_bar r c).
Proof.
  intros Hok [Hi Hf Es Hk]. pose proof (bar_value_u32 r). destruct (bar_flags_u32 r) as [Hm _].
  unfold with_bar, with_upper. unfold bar_flags in *. destruct (c_bar_type r) eqn:Et.
  - apply place_ok; try done; unfold lower_state; rewrite ?Et, ?Es; [lia|apply (mask_ok k 4); lia || done|done].
  - apply place_ok; try done; unfold lower_state; rewrite ?Et, ?Es; [lia|apply (mask_ok k 2); lia || done|done].
  - destruct Hk as (Hk & Hi1 & Hf1). destruct (mask64_ok k (Z.land (bar_value r) BAR_MEM_ADDR_MASK)
      (as_u32 (Z.shiftr (c_addr r) 32)) Hk) as [Hlo Hup].
    rewrite place_comm by lia. apply place_ok; try lia; [|apply as_u32_u32|ulia|..].
    + apply place_ok; try done; unfold lower_state, bar_flags; rewrite ?Et, ?Es; [lia|done..].
    + rewrite place_bar by (auto; lia). by destruct (Z.eqb_spec (c_bar_idx r) (c_bar_idx r + 1)); [lia|].
    + unfold upper_state. by rewrite Es.
    + intros _. split; [lia|]. rewrite place_bar by (auto; lia).
      destruct (Z.eqb_spec (c_bar_idx r) (c_bar_idx r + 1 - 1)); [|lia]. unfold lower_state. by rewrite Et.
  - done.
Qed.

(** *** The ROM BAR *)

Definition rom_mask (r : PciBarConfiguration) : Z := Z.land ROM_BAR_ADDR_MASK (unot u32_max (c_bar_size r - 1)).
Definition rom_value (r : PciBarConfiguration) (active : Z) : Z := Z.lor (Z.land (as_u32 (c_addr r)) (rom_mask r)) active.
Definition with_rom (r : PciBarConfiguration) (active : Z) c : PciConfiguration C :=
  place NUM_BAR_REGS (rom_value r active) (rom_mask r)
    (mkBarState (Z.land (rom_value r active) (rom_mask r)) (as_u32 (c_bar_size r)) (Some Memory32BitRegion) false) c.

Lemma rom_exponent k : 0 <= k <= 63 -> Z.land (2 ^ k) ROM_BAR_ADDR_MASK <> 0 -> 11 <= k <= 31.
Proof.
  intros Hk Hne. destruct (Z.le_gt_cases 11 k), (Z.le_gt_cases k 31); [lia|exfalso; apply Hne..].
  all: change ROM_BAR_ADDR_MASK with (2 ^ 32 - 2 ^ 11); apply Z.bits_inj'; intros i Hi;
    rewrite Z.land_spec, testbit_pow2_mask, Z.pow2_bits_eqb, Z.bits_0 by lia; repeat zcase; lia || done.
Qed.

Lemma rom_mask_eq r k : 11 <= k <= 31 -> c_bar_size r = 2 ^ k -> rom_mask r = 2 ^ 32 - 2 ^ k.
Proof.
  intros Hk E. unfold rom_mask. rewrite E, unot_pred_pow2 by lia. rewrite Z.land_comm. apply (pow2_mask_sub 11); lia.
Qed.

Lemma add_device_rom_bar_spec r active c :
  bar_request r ->
  wp (add_device_rom_bar r active)
    (fun res c' => match res with
       | Ok _ => c' = with_rom r active c /\ b_type (bar c NUM_BAR_REGS) = None /\
                 exists k, 11 <= k <= 31 /\ c_bar_size r = 2 ^ k
       | Err _ => c' = c
       end) c.
Proof.
  intros (Hi & Ha & Hs & _). unfold add_device_rom_bar. wp_steps. do 4 (wp_if; [by wp_steps|]).
  destruct (checked_add _ _ _) as [ea|]; [|by wp_steps]. wp_if; [by wp_steps|].
  apply bar_used_false in E1. apply orb_false_iff in E2 as [E2 E2']. apply negb_false_iff, Z.eqb_eq in E2. zbool.
  destruct (size_exponent _ Hs E2) as (k & Hk & Ek). rewrite Ek in E2'. apply rom_exponent in E2'; [|done].
  wp_steps. rewrite Ek, size_mask by lia. apply wp_lift. intros m [= <-]. wp_steps.
  split; [|split; [done|by exists k]]. unfold with_rom, place, rom_value, rom_mask. by rewrite Ek.
Qed.

Lemma with_rom_ok r active c k :
  cfg_ok c -> in_u32 active -> b_type (bar c NUM_BAR_REGS) = None -> 11 <= k <= 31 -> c_bar_size r = 2 ^ k ->
  cfg_ok (with_rom r active c).
Proof.
  intros Hok Ha Hf Hk Ek. unfold with_rom, rom_value. rewrite (rom_mask_eq r k), Ek by done.
  pose proof (Z.pow_lt_mono_r 2 k 32). pose proof (Z.pow_pos_nonneg 2 k).
  apply place_ok; try done; [|ulia|apply (mask_ok k k); lia || done].
  apply lor_u32; [|done]. apply land_u32; [apply as_u32_u32|lia].
Qed.

Lemma set_irq_ok line pin c : in_u8 line -> cfg_ok c -> cfg_ok (set_irq line pin c).
Proof.
  intros Hl Hok. apply set_reg_ok; [|done]. pose proof (reg_u32 c INTERRUPT_LINE_PIN_REG Hok).
  apply lor_u32; [apply land_u32; [done|by cbn]|]. apply lor_u32; [by destruct pin; split; vm_compute|ulia].
Qed.

(** Every configuration space that a device builds satisfies the invariant. *)
Lemma built_ok c : built c -> cfg_ok c.
Proof.
  induction 1 as [box vendor device class subclass pi sv sub clique c Hv Hs E|r res c c' _ IH Hr E
                 |r active res c c' _ IH Hr Ha E|cap res c c' _ IH E|line pin c _ IH Hl].
  - exact (configuration_new_ok _ _ _ _ _ _ _ _ _ _ Hv Hs E).
  - apply (add_device_bar_spec r c Hr) in E. destruct res; [|by subst]. destruct E as (-> & k & Hf).
    by eapply with_bar_ok.
  - apply (add_device_rom_bar_spec r active c Hr) in E. destruct res; [|by subst]. destruct E as (-> & Hf & k & Hk & Ek).
    by eapply with_rom_ok.
  - by apply (add_capability_ok cap c IH) in E.
  - by apply set_irq_ok.
Qed.
End build.

#[export] Hint Resolve ok_sized place_sized : core.

(** * The list of capabilities

    The laws of a capability that the configuration space relies on, and the
    chain of capabilities that a guest finds: it starts at the byte 0x34 and ends
    at a next pointer of zero, it visits every capability, and no write of the
    guest changes it. *)

(** The id and the next pointer are the first two bytes of a capability. *)
Class PciCapabilityHead (C : Type) {PC : PciCapability C} := {
  next_cap_set n c : in_u8 n -> cap_u8 (set_next_cap n c) 1 = n;
  next_cap_id n c : cap_u8 (set_next_cap n c) 0 = cap_u8 c 0;
}.

(** The guest writes neither of them. *)
Class PciCapabilityLaws (C : Type) {PC : PciCapability C} := {
  laws_head :: PciCapabilityHead C;
  cap_set_u8_head i o v c : (i = 0 \/ i = 1) -> 0 <= o -> cap_u8 (cap_set_u8 o v c) i = cap_u8 c i;
  cap_set_u16_head i o v c : (i = 0 \/ i = 1) -> 0 <= o -> cap_u8 (cap_set_u16 o v c) i = cap_u8 c i;
  cap_set_u32_head i o v c : (i = 0 \/ i = 1) -> 0 <= o -> cap_u8 (cap_set_u32 o v c) i = cap_u8 c i;
}.

Section chain.
Context {C : Type} {PC : PciCapability C} {PH : PciCapabilityHead C}.
Implicit Types (c : PciConfiguration C) (l : list (Z * Z * C)).

(** The offset of the last capability, where the chain starts. *)
Definition chain_head (prev : Z) l : Z := match last l with Some (base, _, _) => base | None => prev end.

Fixpoint linked (prev : Z) l : Prop :=
  match l with
  | [] => True
  | (base, _, cap) :: l' => cap_u8 cap 1 = prev /\ linked base l'
  end.

Lemma linked_app prev l base len cap :
  linked prev (l ++ [(base, len, cap)]) <-> linked prev l /\ cap_u8 cap 1 = chain_head prev l.
Proof.
  revert prev. induction l as [|[[b n] cap'] l IH]; intros prev; [cbn; tauto|]. cbn [app linked]. rewrite IH.
  assert (chain_head prev ((b, n, cap') :: l) = chain_head b l) as ->; [|tauto].
  unfold chain_head. by destruct l as [|e l] using rev_ind; [|rewrite app_comm_cons, !last_snoc].
Qed.

Record chain_ok c : Prop := {
  ch_wbits : wbits c CAPABILITY_LIST_HEAD_REG = 0;
  ch_head : reg c CAPABILITY_LIST_HEAD_REG = chain_head 0 (capabilities c);
  ch_links : linked 0 (capabilities c);
}.

Lemma chain_head_range l :
  layout FIRST_CAPABILITY_OFFSET l.*1 -> 0 <= chain_head 0 l <= CAPABILITY_MAX_OFFSET.
Proof.
  intros (Hall & _ & _)%layout_bounds; [|lia|done]. unfold chain_head. destruct (last l) as [[[b n] cap]|] eqn:El; [|lia].
  apply last_Some in El as [l' ->]. rewrite fmap_app in Hall. apply Forall_app in Hall as [_ Hall].
  apply Forall_cons in Hall as [Hb _]. cbn in Hb. lia.
Qed.

Lemma chain_head_snoc prev l base len cap : chain_head prev (l ++ [(base, len, cap)]) = base.
Proof. unfold chain_head. by rewrite last_snoc. Qed.

Lemma add_capability_chain cap c :
  cfg_ok c -> chain_ok c -> wp (add_capability cap) (fun _ c' => chain_ok c') c.
Proof.
  intros Hok Hch. pose proof Hch as [Hw Hh Hl]. unfold add_capability. wp_if; [by wp_steps|]. wp_steps. rewrite next_cap_offset_layout.
  destruct (layout_bounds FIRST_CAPABILITY_OFFSET (capabilities c).*1) as (_ & He & _); [lia|done|apply Hok|].
  pose proof (chain_head_range _ (ok_caps _ Hok)) as Hr.
  unfold checked_add. destruct (_ <=? u64_max) eqn:Eo; [|by wp_steps]. wp_if; [by wp_steps|]. wp_steps.
  rewrite !(reg_set c) by (lia || apply Hok). change (STATUS_REG =? CAPABILITY_LIST_HEAD_REG) with false. cbn iota.
  set (c1 := set_reg STATUS_REG _ c). split.
  - done.
  - cbn [capabilities set_caps set_reg]. rewrite chain_head_snoc.
    change (reg (set_caps ?l ?c) ?i) with (reg c i). rewrite (reg_set c1).
    + rewrite Z.eqb_refl, Hh, as_u32_id by ulia.
      replace (Z.land (chain_head 0 (capabilities c)) (unot u32_max 0xff)) with 0; [done|].
      zbits i. change 0xff with (2 ^ 8 - 1). rewrite testbit_max by lia. destruct (Z.ltb_spec i 8).
      * destruct (Z.ltb_spec i 32); [|lia]. by rewrite andb_false_r.
      * rewrite (testbit_high _ 8); [done|lia..].
    + unfold c1. cbn. rewrite length_insert. apply Hok.
    + lia.
    + lia.
  - cbn [capabilities set_caps set_reg]. unfold c1. cbn [capabilities set_caps set_reg]. apply linked_app. split; [done|].
    rewrite next_cap_set by (unfold as_u8; pose proof (Z.mod_pos_bound (reg c 13) (2 ^ 8)); ulia).
    rewrite Hh. apply as_u8_id. ulia.
Qed.

Lemma place_chain c i v w b :
  sized c -> 0 <= i <= 6 -> chain_ok c -> chain_ok (place i v w b c).
Proof.
  intros Hc Hi [Hw Hh Hl]. assert (bar_reg i <> CAPABILITY_LIST_HEAD_REG) by (unfold bar_reg; zcase; lia).
  pose proof (bar_reg_range i Hi). split; [| |done].
  - rewrite place_wbits by (auto; lia). destruct (Z.eqb_spec (bar_reg i) CAPABILITY_LIST_HEAD_REG); [done|apply Hw].
  - rewrite place_reg by (auto; lia). by destruct (Z.eqb_spec (bar_reg i) CAPABILITY_LIST_HEAD_REG).
Qed.

Lemma with_bar_chain r k c : cfg_ok c -> bar_fits r k c -> chain_ok c -> chain_ok (with_bar r c).
Proof.
  intros Hok [Hi Hf Es Hk] Hch. unfold with_bar, with_upper.
  destruct (c_bar_type r); repeat (apply place_chain; [auto|lia|]); done.
Qed.

Lemma with_rom_chain r active c : cfg_ok c -> chain_ok c -> chain_ok (with_rom r active c).
Proof. intros Hok Hch. apply place_chain; [auto|lia|done]. Qed.

Lemma set_irq_chain line pin c : cfg_ok c -> chain_ok c -> chain_ok (set_irq line pin c).
Proof.
  intros Hok [Hw Hh Hl]. split; [done| |done]. unfold set_irq. by rewrite reg_set by (lia || apply Hok).
Qed.

Lemma configuration_new_chain box vendor device class subclass pi sub_vendor sub clique c :
  in_u16 vendor -> in_u16 sub_vendor ->
  PciConfiguration_new box vendor device class subclass pi HeaderDevice sub_vendor sub clique = Ret (Ok c) -> chain_ok c.
Proof.
  intros Hv Hs E. unfold PciConfiguration_new in E. rewrite bool_decide_false in E by auto. cbv zeta in E.
  match type of E with context [mkConfiguration HeaderDevice ?r ?w ?b None []] =>
    set (c0 := mkConfiguration HeaderDevice r w b None ([] : list (Z * Z * C))) in E end.
  assert (cfg_ok c0) as Hok by (apply fresh_ok; repeat apply lor_u32; try apply as_u32_u32; ulia).
  assert (chain_ok c0) as Hch by done.
  destruct clique as [id|]; [|by injection E as <-].
  apply outcome_bind_Ret in E as ([[o|e] c'] & E1 & E2); [|done]. injection E2 as <-.
  by apply (add_capability_chain _ _ Hok Hch) in E1.
Qed.

Lemma built_chain c : built c -> chain_ok c.
Proof.
  induction 1 as [box vendor device class subclass pi sv sub clique c Hv Hs E|r res c c' Hc%built_ok IH Hr E
                 |r active res c c' Hc%built_ok IH Hr Ha E|cap res c c' Hc%built_ok IH E|line pin c Hc%built_ok IH Hl].
  - exact (configuration_new_chain _ _ _ _ _ _ _ _ _ _ Hv Hs E).
  - apply (add_device_bar_spec r c Hr) in E. destruct res; [|by subst]. destruct E as (-> & k & Hf).
    by eapply with_bar_chain.
  - apply (add_device_rom_bar_spec r active c Hr) in E. destruct res; [|by subst]. destruct E as (-> & _).
    by apply with_rom_chain.
  - by apply (add_capability_chain cap c Hc IH) in E.
  - by apply set_irq_chain.
Qed.

(** ** The walk of a guest *)

(** The offsets and the ids of the capabilities from an offset on, at most
    [fuel] of them. *)
Fixpoint walk (fuel : nat) c (offset : Z) : list (Z * Z) :=
  match fuel with
  | O => []
  | S fuel =>
      if offset =? 0 then []
      else (offset, (read_u8 c offset).2) :: walk fuel c (read_u8 c (offset + 1)).2
  end.

(** From the pointer in the header; the capability area has room for 32. *)
Definition walk_capabilities c : list (Z * Z) := walk 32 c (read_u8 c 0x34).2.

Lemma find_cap_below offset lo l :
  layout lo l.*1 -> 0 <= lo <= CAPABILITY_MAX_OFFSET -> lo mod 4 = 0 -> offset < lo -> find_cap offset l = None.
Proof.
  intros Hl Hlo Hm Ho. destruct (layout_bounds lo l.*1) as (Hall & _); [done..|]. clear Hl.
  induction l as [|[[b n] cap] l IH]; [done|]. apply Forall_cons in Hall as [Hb Hall]. cbn in *.
  destruct (Z.leb_spec b offset); [lia|]. by apply IH.
Qed.

Lemma find_cap_at lo l1 b n cap l2 o :
  0 <= lo <= CAPABILITY_MAX_OFFSET -> lo mod 4 = 0 ->
  layout lo (l1 ++ (b, n, cap) :: l2).*1 -> 0 <= o < n -> find_cap (b + o) (l1 ++ (b, n, cap) :: l2) = Some (o, cap).
Proof.
  revert lo. induction l1 as [|[[b' n'] cap'] l1 IH]; intros lo Hlo Hm Hl Ho; cbn [app find_cap].
  - destruct (Z.leb_spec b (b + o)); [|lia]. destruct (Z.ltb_spec (b + o) (b + n)); [|lia]. cbn. do 2 f_equal. lia.
  - cbn in Hl. destruct Hl as (-> & Hn & Hb & Hl). destruct (next_dword_spec lo n') as [Hr Hd]; [lia|].
    pose proof (Z.div_mod (next_dword lo n') 4).
    destruct (layout_bounds (next_dword lo n') (l1 ++ (b, n, cap) :: l2).*1) as (Hall & _); [lia|done..|].
    rewrite fmap_app in Hall. apply Forall_app in Hall as [_ Hall]. apply Forall_cons in Hall as [Hb' _]. cbn in Hb'.
    destruct (Z.ltb_spec (b + o) (lo + n')); [lia|]. rewrite andb_false_r. apply (IH (next_dword lo n')); lia || done.
Qed.

Lemma read_head c : cfg_ok c -> chain_ok c -> (read_u8 c 0x34).2 = chain_head 0 (capabilities c).
Proof.
  intros Hok [_ Hh _]. pose proof (chain_head_range _ (ok_caps _ Hok)) as Hr.
  assert (find_cap 0x34 (capabilities c) = None) as Hf by (eapply find_cap_below; [apply Hok|lia|done|lia]).
  unfold read_u8, cap_read_u8, read_u16, cap_read_u16, read_u32.
  change (256 <=? 0x34) with false. change (Z.land 0x34 (unot u64_max 0x1)) with 0x34.
  change (Z.land 0x34 (unot u64_max 0x3)) with 0x34. cbn iota. rewrite !Hf.
  change (negb (Z.land 0x34 0x1 =? 0) || (256 <=? 0x34)) with false.
  change (negb (Z.land 0x34 0x3 =? 0) || (256 <=? 0x34)) with false. cbn iota. change (Z.shiftr 0x34 2) with 13. change (13 <? 4) with false.
  rewrite (ok_header _ Hok), bool_decide_true, Hh by done. cbn [andb snd]. change (13 <? 16) with true. cbn [snd].
  change (Z.land (as_u32 0x34) 0x2 * 8) with 0. change (Z.land (as_u16 0x34) 0x1 * 8) with 0.
  rewrite !Z.shiftr_0_r, as_u16_id, as_u8_id by ulia. done.
Qed.

Lemma read_cap_byte c l1 b n cap l2 o :
  cfg_ok c -> capabilities c = l1 ++ (b, n, cap) :: l2 -> 0 <= o < n -> (read_u8 c (b + o)).2 = cap_u8 cap o.
Proof.
  intros Hok El Ho. pose proof (ok_caps _ Hok) as Hl.
  destruct (layout_bounds FIRST_CAPABILITY_OFFSET (capabilities c).*1) as (Hall & _); [lia|done..|].
  rewrite El in Hl, Hall. rewrite fmap_app in Hall. apply Forall_app in Hall as [_ [Hb _]%Forall_cons]. cbn in Hb.
  unfold read_u8, cap_read_u8. destruct (Z.leb_spec 256 (b + o)); [lia|].
  rewrite El, (find_cap_at FIRST_CAPABILITY_OFFSET) by (lia || done). done.
Qed.

(** The offset and the id of every capability, the last one first. *)
Definition chain_of l : list (Z * Z) := rev (map (fun '(b, _, cap) => (b, cap_u8 cap 0)) l).

Lemma walk_prefix c l1 l2 fuel :
  cfg_ok c -> capabilities c = l1 ++ l2 -> linked 0 l1 -> (length l1 <= fuel)%nat ->
  walk fuel c (chain_head 0 l1) = chain_of l1.
Proof.
  intros Hok. revert l2 fuel. induction l1 as [|[[b n] cap] l1 IH] using rev_ind; intros l2 fuel El Hlk Hf.
  { by destruct fuel. }
  apply linked_app in Hlk as [Hlk Hnext]. rewrite length_app in Hf. cbn in Hf. rewrite <- app_assoc in El. cbn in El.
  destruct (layout_bounds FIRST_CAPABILITY_OFFSET (capabilities c).*1) as (Hall & _); [lia|done|apply Hok|].
  rewrite El, fmap_app in Hall. apply Forall_app in Hall as [_ [Hb _]%Forall_cons]. cbn in Hb.
  rewrite chain_head_snoc. destruct fuel as [|fuel]; [lia|]. cbn [walk]. destruct (Z.eqb_spec b 0); [lia|].
  rewrite (read_cap_byte c l1 b n cap l2 1) by (lia || done).
  replace b with (b + 0) at 2 by lia. rewrite (read_cap_byte c l1 b n cap l2 0) by (lia || done).
  unfold chain_of. rewrite map_app, rev_app_distr. cbn [map rev app]. f_equal. rewrite Hnext. by eapply IH; [|done|lia].
Qed.

Lemma layout_room lo (l : list (Z * Z)) :
  0 <= lo <= CAPABILITY_MAX_OFFSET -> lo mod 4 = 0 -> layout lo l -> 4 * Z.of_nat (length l) <= CAPABILITY_MAX_OFFSET - lo.
Proof.
  revert lo. induction l as [|[b n] l IH]; intros lo Hlo Hm; cbn [layout length]; [lia|].
  intros (-> & Hn & Hb & Hl). destruct (next_dword_spec lo n) as [Hr Hd]; [lia|].
  pose proof (Z.div_mod (next_dword lo n) 4). pose proof (Z.div_mod lo 4). specialize (IH (next_dword lo n) ltac:(lia) Hd Hl). lia.
Qed.

Lemma walk_all c : cfg_ok c -> chain_ok c -> walk_capabilities c = chain_of (capabilities c).
Proof.
  intros Hok Hch. unfold walk_capabilities. rewrite read_head by done.
  pose proof (layout_room FIRST_CAPABILITY_OFFSET (capabilities c).*1 ltac:(lia) eq_refl (ok_caps _ Hok)) as Hroom.
  rewrite length_fmap in Hroom. apply (walk_prefix c _ []); [done|by rewrite app_nil_r|apply Hch|lia].
Qed.

End chain.

Section caps.
Context {C : Type} {PC : PciCapability C} {PL : PciCapabilityLaws C}.
Implicit Types (c : PciConfiguration C) (l : list (Z * Z * C)).
#[local] Abbreviation St := (PciConfiguration C * option PciBusContent)%type.

(** ** Writes of the guest *)

(** A capability that a write of the guest changed. *)
Definition same_heads (e e' : Z * Z * C) : Prop :=
  e'.1 = e.1 /\ cap_u8 e'.2 0 = cap_u8 e.2 0 /\ cap_u8 e'.2 1 = cap_u8 e.2 1.
Definition heads_kept (s s' : St) : Prop := Forall2 same_heads (capabilities s.1) (capabilities s'.1).

Lemma same_heads_refl l : Forall2 same_heads l l.
Proof. induction l; by constructor. Qed.
Lemma heads_trans s1 s2 s3 : heads_kept s1 s2 -> heads_kept s2 s3 -> heads_kept s1 s3.
Proof.
  unfold heads_kept. generalize (capabilities s1.1), (capabilities s2.1), (capabilities s3.1).
  intros l1 l2 l3 H12. revert l3. induction H12 as [|e1 e2 l1 l2 (E1 & E2 & E3) _ IH]; intros l3 H23; inv H23; constructor.
  - unfold same_heads in *. intuition congruence.
  - by apply IH.
Qed.

(** Methods that do not touch the capabilities. *)
#[local] Abbreviation caps_of := (part (C:=C) capabilities).
Lemma heads_of_same {A} (m : eff St PciError A) : keeps (same caps_of) m -> keeps heads_kept m.
Proof.
  intros Hm s r s' H. specialize (Hm s r s' H). unfold same, part in Hm. unfold heads_kept. rewrite Hm.
  apply same_heads_refl.
Qed.

#[local] Hint Extern 2 (keeps (same caps_of) (upd_cfg _)) => (apply keeps_upd; reflexivity) : eff.

Lemma keeps_write_bar reg_idx v : keeps (same caps_of) (write_device_bar_reg (C:=C) reg_idx v).
Proof.
  intros s. change (wp (write_device_bar_reg reg_idx v) (fun _ => same caps_of s) s).
  unfold write_device_bar_reg, cfg, upd_cfg. wp_steps. eapply wp_mono with (P := fun _ => same caps_of s).
  { apply wp_keeps. eff_walk. }
  intros [mask|e] s1 H1; [|done]. wp_steps.
  eapply wp_mono with (P := fun _ => same caps_of s).
  2:{ intros [|] s2 H2; [by wp_steps|done]. }
  wp_if; [by wp_steps|]. wp_steps. cbn [fst snd].
  match goal with |- context [detect_bar_programming ?r ?c0] => pose proof (detect_part capabilities (fun _ _ _ => eq_refl) r c0) as Hd;
    destruct (detect_bar_programming r c0) as [param c2] end.
  wp_steps. eapply wp_mono; [apply wp_keeps with (R := same caps_of); destruct param; [|apply same_ret]|].
  - apply same_bind; [by apply keeps_free|intros _]. apply same_bind; [by apply keeps_allocate|intros _].
    eff_walk. by apply same_modify.
  - intros r s2 H2. unfold same, part in *. cbn in *. congruence.
Qed.
#[local] Hint Resolve keeps_write_bar : eff.

(** A write to the capabilities through one of the accesses. *)
Lemma heads_cap_write offset (f : Z -> C -> C) :
  (forall o cap, 0 <= o -> cap_u8 (f o cap) 0 = cap_u8 cap 0 /\ cap_u8 (f o cap) 1 = cap_u8 cap 1) ->
  keeps heads_kept (cap_write offset f).
Proof.
  intros Hf s. change (wp (cap_write offset f) (fun _ => heads_kept s) s). unfold cap_write, cfg, upd_cfg. wp_steps.
  destruct (update_cap offset f (capabilities s.1)) as [l'|] eqn:E; wp_steps; [|apply same_heads_refl].
  unfold heads_kept. cbn [fst capabilities set_caps]. revert l' E.
  induction (capabilities s.1) as [|[[b n] cap] l IH]; cbn; intros l' E; [done|].
  destruct ((b <=? offset) && (offset <? b + n)) eqn:Eb.
  - injection E as <-. constructor; [|apply same_heads_refl]. apply andb_true_iff in Eb as [Eb _]. zbool.
    destruct (Hf (offset - b) cap) as [H0 H1]; [lia|]. by split.
  - destruct (update_cap offset f l); [|done]. injection E as <-. constructor; [done|]. by apply IH.
Qed.

Lemma heads_bind {A B} (m : eff St PciError A) (k : A -> eff St PciError B) :
  keeps heads_kept m -> (forall a, keeps heads_kept (k a)) -> keeps heads_kept (m ≫= k).
Proof. apply keeps_bind, heads_trans. Qed.

Lemma heads_write_u32 offset v : keeps heads_kept (write_u32 (C:=C) offset v).
Proof.
  unfold write_u32. apply heads_bind; [apply heads_of_same; eff_walk|intros c].
  apply heads_bind; [apply heads_of_same; eff_walk|intros mask].
  do 6 (case_match; [apply heads_of_same; eff_walk|]).
  apply heads_bind; [apply heads_cap_write; intros; by rewrite !cap_set_u32_head by auto|].
  intros []; apply heads_of_same; eff_walk.
Qed.

Lemma heads_write_u16 offset v : keeps heads_kept (write_u16 (C:=C) offset v).
Proof.
  unfold write_u16. case_match; [apply heads_of_same; eff_walk|].
  apply heads_bind; [apply heads_cap_write; intros; by rewrite !cap_set_u16_head by auto|].
  intros []; [apply heads_of_same; eff_walk|].
  apply heads_bind; [apply heads_of_same; eff_walk|intros c]. apply heads_write_u32.
Qed.

Lemma heads_write_u8 offset v : keeps heads_kept (write_u8 (C:=C) offset v).
Proof.
  unfold write_u8. case_match; [apply heads_of_same; eff_walk|].
  apply heads_bind; [apply heads_cap_write; intros; by rewrite !cap_set_u8_head by auto|].
  intros []; [apply heads_of_same; eff_walk|].
  apply heads_bind; [apply heads_of_same; eff_walk|intros c]. apply heads_write_u32.
Qed.

Lemma heads_write_config offset data : keeps heads_kept (write_config (C:=C) offset data).
Proof.
  unfold write_config. repeat case_match; try (apply heads_of_same; by eff_walk); apply heads_bind;
    auto using heads_write_u32, heads_write_u16, heads_write_u8; intros _; apply heads_of_same; eff_walk.
Qed.

(** The chain after writes of the guest. *)
Lemma chain_kept c c' :
  cfg_ok c -> cfg_ok c' -> ro_same c c' -> Forall2 same_heads (capabilities c) (capabilities c') -> chain_ok c ->
  chain_ok c' /\ chain_of (capabilities c') = chain_of (capabilities c).
Proof.
  intros Hok Hok' Hro Hf [Hw Hh Hl]. assert (chain_head 0 (capabilities c') = chain_head 0 (capabilities c)) as Hhead.
  { unfold chain_head. pose proof (ro_caps _ _ Hro) as Hc. pose proof (fmap_last fst (capabilities c')) as E1.
    rewrite Hc, fmap_last in E1. destruct (last (capabilities c)) as [[[b n] cap]|], (last (capabilities c')) as [[[b' n'] cap']|];
      cbn in E1; congruence. }
  split; [split|].
  - unfold wbits. by rewrite (ro_wbits _ _ Hro).
  - rewrite Hhead, <- Hh. pose proof (ro_regs _ _ Hro CAPABILITY_LIST_HEAD_REG ltac:(lia)) as E. rewrite Hw in E.
    change (unot u32_max 0) with (Z.ones 32) in E. rewrite !Z.land_ones in E by lia.
    pose proof (reg_u32 c 13 Hok). pose proof (reg_u32 c' 13 Hok'). rewrite !Z.mod_small in E by ulia. done.
  - clear - Hf Hl. revert Hl. generalize 0. induction Hf as [|[[b n] cap] [[b' n'] cap'] l l' (E1 & E2 & E3) _ IH]; [done|].
    cbn in *. injection E1 as -> ->. intros prev [H1 H2]. split; [congruence|auto].
  - unfold chain_of. f_equal. clear - Hf. induction Hf as [|[[b n] cap] [[b' n'] cap'] l l' (E1 & E2 & E3) _ IH]; [done|].
    cbn in *. injection E1 as -> ->. by rewrite E2, IH.
Qed.
End caps.
