(* ===== verification/PciBars.v ===== *)
(** * The sizing protocol of the base address registers

    A guest learns the size of a BAR by writing all ones to its register,
    reading it back and restoring it.  The registers of a new configuration
    space agree with the state of the BARs; the protocol answers the size and
    leaves no trace. *)
From S2P Require Import Prelude Bits IntervalTree DeviceResources Effects InterruptManager PciBus PciConfig PciConfigFacts PciConfigBuild.

Section bars.
Context {C : Type} {PC : PciCapability C}.
Implicit Types (c : PciConfiguration C).
#[local] Abbreviation St := (PciConfiguration C * option PciBusContent)%type.

(** What the register and the state of a BAR say. *)
Definition bar_shape c (i : Z) : Prop :=
  match b_type (bar c i) with
  | None => True
  | Some t =>
      b_addr (bar c i) = Z.land (reg c (bar_reg i)) (wbits c (bar_reg i)) /\
      match t with
      | IoRegion | Memory32BitRegion =>
          exists j k, 2 <= j <= k /\ k <= 31 /\ wbits c (bar_reg i) = 2 ^ 32 - 2 ^ j /\ b_size (bar c i) = 2 ^ k
      | Memory64BitRegion =>
          wbits c (bar_reg i) = BAR_MEM_ADDR_MASK /\ 0 <= i < 5 /\ b_type (bar c (i + 1)) = Some Memory64BitRegionUpper /\
          exists k, 4 <= k <= 63 /\ b_size (bar c i) = as_u32 (2 ^ k) /\ b_size (bar c (i + 1)) = as_u32 (Z.shiftr (2 ^ k) 32)
      | Memory64BitRegionUpper => wbits c (bar_reg i) = 0xffffffff
      end
  end.
Definition bars_shape c : Prop := forall i, 0 <= i <= 6 -> bar_shape c i.

Lemma place_shape c i v w b j :
  sized c -> 0 <= i <= 6 -> 0 <= j <= 6 -> i <> j ->
  (b_type (bar c j) = Some Memory64BitRegion -> i <> j + 1) -> bar_shape c j -> bar_shape (place i v w b c) j.
Proof.
  intros Hc Hi Hj Hne Hf. pose proof (bar_reg_range j Hj). pose proof (bar_reg_inj i j Hi Hj) as Einj.
  unfold bar_shape. rewrite place_bar, place_wbits, place_reg by (auto; lia).
  rewrite Einj. destruct (Z.eqb_spec i j); [done|]. destruct (b_type (bar c j)) as [[]|]; try done.
  intros (Ha & Hw & Hr & Ht & Hk). rewrite place_bar by (auto; lia).
  destruct (Z.eqb_spec i (j + 1)) as [->|]; [by destruct Hf|done].
Qed.

(** The new BAR itself. *)
Lemma place_shape_self c i v j k t :
  sized c -> 0 <= i <= 6 -> 2 <= j <= k -> k <= 31 -> t = IoRegion \/ t = Memory32BitRegion ->
  bar_shape (place i v (2 ^ 32 - 2 ^ j) (mkBarState (Z.land v (2 ^ 32 - 2 ^ j)) (as_u32 (2 ^ k)) (Some t) false) c) i.
Proof.
  intros Hc Hi Hj Hk Ht. pose proof (bar_reg_range i Hi). pose proof (Z.pow_lt_mono_r 2 k 32). pose proof (Z.pow_pos_nonneg 2 k).
  unfold bar_shape. rewrite place_bar, place_wbits, place_reg, !Z.eqb_refl by (auto; lia).
  cbn [b_type b_addr b_size]. rewrite as_u32_id by ulia.
  destruct Ht as [-> | ->]; (split; [done|]); exists j, k; (split; [lia|split; [lia|done]]).
Qed.

Definition kind_exp (t : PciBarRegionType) : Z := match t with IoRegion => 2 | _ => 4 end.
Lemma bar_flags_pow r : (bar_flags r).1 = 2 ^ 32 - 2 ^ kind_exp (c_bar_type r).
Proof. unfold bar_flags. by destruct (c_bar_type r). Qed.

(** A 64-bit BAR takes two registers. *)
Lemma place64_shape r k c i :
  sized c -> bar_fits r k c -> c_bar_type r = Memory64BitRegion -> 0 <= i <= 6 ->
  (b_type (bar c i) = Some Memory64BitRegion -> c_bar_idx r <> i + 1) -> bar_shape c i ->
  bar_shape (with_bar r c) i.
Proof.
  intros Hc [Hidx Hf Es Hk] Et Hi H64 Hsh. unfold with_bar, with_upper. rewrite Et in *.
  destruct Hk as (Hk & Hi1 & Hf1). set (x := c_bar_idx r) in *.
  destruct (Z.eq_dec i x) as [->|Hx]; [|destruct (Z.eq_dec i (x + 1)) as [->|Hx1]].
  - unfold bar_shape. pose proof (bar_reg_range x Hi). rewrite !place_bar, place_wbits, place_reg, !Z.eqb_refl by (auto; lia).
    destruct (Z.eqb_spec x (x + 1)); [lia|]. unfold lower_state, upper_state. cbn [b_type b_addr b_size]. rewrite Et, Es.
    split; [done|]. split; [by unfold bar_flags; rewrite Et|]. split; [lia|]. split; [done|]. by exists k.
  - apply place_shape; try lia; auto.
    unfold bar_shape. pose proof (bar_reg_range (x + 1) Hi). rewrite place_bar, place_wbits, place_reg, !Z.eqb_refl by (auto; lia).
    unfold upper_state. cbn [b_type b_addr b_size]. split; [|done]. change 0xffffffff with (Z.ones 32).
    rewrite Z.land_ones by lia. rewrite Z.mod_small; [done|]. pose proof (as_u32_u32 (Z.shiftr (c_addr r) 32)). ulia.
  - apply place_shape; try lia; auto.
    + rewrite place_bar by (auto; lia). by destruct (Z.eqb_spec (x + 1) i); [lia|].
    + apply place_shape; try lia; auto.
Qed.

Lemma free_not_upper r k c i :
  bar_fits r k c -> bar_shape c i -> b_type (bar c i) = Some Memory64BitRegion -> c_bar_idx r <> i + 1.
Proof.
  intros [_ Hf _ _] Hsh Ht. unfold bar_shape in Hsh. rewrite Ht in Hsh. intros E. rewrite E in Hf.
  destruct Hsh as (_ & _ & _ & Hu & _). congruence.
Qed.

Lemma with_bar_shape r k c : cfg_ok c -> bar_fits r k c -> bars_shape c -> bars_shape (with_bar r c).
Proof.
  intros Hok Hfits Hsh i Hi. pose proof (free_not_upper r k c i Hfits (Hsh i Hi)) as H64. pose proof (Hsh i Hi) as Hi'.
  destruct (c_bar_type r) eqn:Et; [..|by destruct Hfits as [_ _ _ Hk]; rewrite Et in Hk].
  3: { by apply (place64_shape r k); auto. }
  all: destruct Hfits as [Hidx Hf Es Hk]; unfold with_bar, with_upper, lower_state; rewrite bar_flags_pow, Et, Es in *;
    (destruct (Z.eq_dec i (c_bar_idx r)) as [->|]; [apply place_shape_self|apply place_shape]); cbn [kind_exp]; auto; lia.
Qed.

Lemma shape_same c c' :
  bars c' = bars c -> writable_bits c' = writable_bits c ->
  (forall i, 0 <= i <= 6 -> reg c' (bar_reg i) = reg c (bar_reg i)) -> bars_shape c -> bars_shape c'.
Proof.
  intros Hb Hw Hr Hsh i Hi. specialize (Hsh i Hi). unfold bar_shape, bar, wbits in *. by rewrite Hb, Hw, Hr.
Qed.

Lemma set_reg_shape c i v :
  sized c -> 0 <= i < 64 -> (forall j, 0 <= j <= 6 -> bar_reg j <> i) -> bars_shape c -> bars_shape (set_reg i v c).
Proof.
  intros Hc Hi Hne. apply shape_same; [done..|]. intros j Hj. pose proof (bar_reg_range j Hj).
  rewrite reg_set by (lia || apply Hc). destruct (Z.eqb_spec i (bar_reg j)) as [->|]; [by destruct (Hne j Hj)|done].
Qed.

Lemma bar_reg_ne j : 0 <= j <= 6 -> bar_reg j <> STATUS_REG /\ bar_reg j <> CAPABILITY_LIST_HEAD_REG /\ bar_reg j <> INTERRUPT_LINE_PIN_REG.
Proof. unfold bar_reg. intros. zcase; lia. Qed.

Lemma add_capability_shape cap c : sized c -> bars_shape c -> wp (add_capability cap) (fun _ c' => bars_shape c') c.
Proof.
  intros Hc Hsh. unfold add_capability. wp_if; [by wp_steps|]. wp_steps. case_match; [|by wp_steps].
  wp_if; [by wp_steps|]. wp_steps. eapply shape_same with (c := set_reg _ _ (set_reg _ _ c)); [done..|].
  apply set_reg_shape; [by destruct Hc; split; cbn; rewrite ?length_insert|lia|intros j Hj; by apply bar_reg_ne|].
  apply set_reg_shape; [done|lia|intros j Hj; by apply bar_reg_ne|done].
Qed.

Lemma fresh_shape r0 r2 r11 :
  bars_shape (mkConfiguration HeaderDevice (<[0%nat := r0]> (<[2%nat := r2]> (<[11%nat := r11]> (repeat 0 64))))
    (<[1%nat := 0x0000ffff]> (<[3%nat := 0x000000ff]> (<[15%nat := 0x000000ff]> (repeat 0 64))))
    (repeat PciBarState_default 7) None ([] : list (Z * Z * C))).
Proof. intros i Hi. unfold bar_shape, bar. cbn [bars]. by rewrite nth_repeat. Qed.

Lemma configuration_new_shape box vendor device class subclass pi header sub_vendor sub clique c :
  PciConfiguration_new box vendor device class subclass pi header sub_vendor sub clique = Ret (Ok c) -> bars_shape c.
Proof.
  unfold PciConfiguration_new. case_bool_decide; [done|]. cbv zeta.
  assert (header = HeaderDevice) as -> by (destruct (decide (header = HeaderDevice)); [done|tauto]).
  destruct clique as [id|]; [|intros [= <-]; apply fresh_shape].
  intros ([[o|e] c'] & E1 & E2)%outcome_bind_Ret; [|done]. injection E2 as <-.
  apply add_capability_shape in E1; [done|by split|apply fresh_shape].
Qed.

Lemma with_rom_shape r active c k :
  cfg_ok c -> b_type (bar c NUM_BAR_REGS) = None -> 11 <= k <= 31 -> c_bar_size r = 2 ^ k -> bars_shape c ->
  bars_shape (with_rom r active c).
Proof.
  intros Hok Hf Hk Ek Hsh i Hi. unfold with_rom, rom_value. rewrite (rom_mask_eq r k), Ek by done.
  destruct (Z.eq_dec i NUM_BAR_REGS) as [->|]; [apply place_shape_self; auto; lia|].
  apply place_shape; auto; try lia. intros Ht E. specialize (Hsh i Hi). unfold bar_shape in Hsh. rewrite Ht in Hsh. lia.
Qed.

Lemma built_shape c : built c -> bars_shape c.
Proof.
  induction 1 as [box vendor device class subclass pi sv sub clique c Hv Hs E|r res c c' Hc%built_ok IH Hr E
                 |r active res c c' Hc%built_ok IH Hr Ha E|cap res c c' Hc%built_ok IH E|line pin c Hc%built_ok IH Hl].
  - by eapply configuration_new_shape.
  - apply (add_device_bar_spec r c Hr) in E. destruct res; [|by subst]. destruct E as (-> & k & Hf).
    by eapply with_bar_shape.
  - apply (add_device_rom_bar_spec r active c Hr) in E. destruct res; [|by subst]. destruct E as (-> & Hf & k & Hk & Ek).
    by eapply with_rom_shape.
  - by apply (add_capability_shape cap c (ok_sized _ Hc) IH) in E.
  - apply set_reg_shape; [auto|lia|intros j Hj; by apply bar_reg_ne|done].
Qed.

(** ** Writes to the register of a BAR *)

Lemma at_index_ok {A} (l : list A) i d : 0 <= i < Z.of_nat (length l) -> at_index l i = Some (nth (Z.to_nat i) l d).
Proof.
  intros Hi. unfold at_index. destruct (Z.ltb_spec i (Z.of_nat (length l))); [|lia].
  rewrite nth_lookup. destruct (lookup_lt_is_Some_2 l (Z.to_nat i)) as [x ->]; [lia|done].
Qed.

Lemma bar_offset i : 0 <= i <= 6 ->
  Z.shiftr (4 * bar_reg i) 2 = bar_reg i /\ Z.land (4 * bar_reg i) 0x3 = 0 /\ 4 * bar_reg i < 256.
Proof.
  intros Hi. pose proof (bar_reg_range i Hi). rewrite Z.shiftr_div_pow2 by lia. change (2 ^ 2) with 4.
  replace (4 * bar_reg i) with (bar_reg i * 4) by lia. rewrite Z.div_mul by lia. split; [done|]. split; [|lia].
  change 3 with (Z.ones 2). rewrite Z.land_ones by lia. by apply Z.mod_mul.
Qed.

Lemma write_bar_eq c bus i v :
  cfg_ok c -> 0 <= i <= 6 -> write_u32 (4 * bar_reg i) v (c, bus) = write_device_bar_reg (bar_reg i) v (c, bus).
Proof.
  intros Hok Hi. destruct (bar_offset i Hi) as (E1 & E2 & E3). pose proof (bar_reg_range i Hi).
  unfold write_u32, cfg. rewrite run_gets. cbn [fst]. unfold id. rewrite E1.
  rewrite (at_index_ok _ _ 0) by (destruct (ok_wbits _ Hok) as [-> _]; lia).
  erewrite run_ok_bind by done. rewrite E2. cbn [negb orb Z.eqb]. destruct (Z.leb_spec 256 (4 * bar_reg i)); [lia|].
  rewrite (ok_header _ Hok), bool_decide_true by done. unfold is_bar_reg.
  assert (4 <= bar_reg i < 10 \/ bar_reg i = 12) as [Hr|Hr] by (unfold bar_reg; zcase; lia).
  - repeat (zcase; try lia). done.
  - by rewrite Hr.
Qed.

Lemma read_bar_eq c i :
  cfg_ok c -> 0 <= i <= 6 -> read_u32 c (4 * bar_reg i) = (true, reg c (bar_reg i)).
Proof.
  intros Hok Hi. destruct (bar_offset i Hi) as (E1 & E2 & E3). pose proof (bar_reg_range i Hi).
  unfold read_u32. rewrite E1, E2. cbn [negb orb Z.eqb]. destruct (Z.leb_spec 256 (4 * bar_reg i)); [lia|].
  rewrite (ok_header _ Hok), bool_decide_true by done.
  assert (bar_reg i < 16) by (unfold bar_reg; zcase; lia). by repeat (zcase; try lia).
Qed.

Lemma bar_of_reg i : 0 <= i <= 6 -> (if bar_reg i =? ROM_BAR_REG then NUM_BAR_REGS else bar_reg i - BAR0_REG) = i.
Proof. intros Hi. unfold bar_reg. destruct (Z.eqb_spec i 6); zcase; lia. Qed.

(** All ones show the size. *)
Lemma probe_write c bus i m :
  bar_mask (bar c i) = Ret m -> 0 <= i <= 6 ->
  write_device_bar_reg (bar_reg i) 0xffffffff (c, bus) =
  Ret (Ok true, (set_reg (bar_reg i) (Z.lor (Z.land (reg c (bar_reg i)) (unot u32_max (wbits c (bar_reg i)))) (Z.land 0xffffffff m)) c, bus)).
Proof.
  intros Hm Hi. unfold write_device_bar_reg. cbn [Z.eqb Pos.eqb]. unfold cfg. rewrite run_gets. cbn [fst]. unfold id.
  rewrite bar_of_reg, Hm by done. done.
Qed.

(** The address that is there is not a move. *)
Lemma detect_unchanged c i : cfg_ok c -> bars_shape c -> 0 <= i <= 6 -> detect_bar_programming (bar_reg i) c = (None, c).
Proof.
  intros Hok Hsh Hi. pose proof (Hsh i Hi) as Hi'. unfold detect_bar_programming, is_device_bar_addr_changed, is_bar_reg.
  unfold bar_addr, bar_type, bar_used, bar_shape in *. unfold bar_reg in *. destruct (Z.eqb_spec i 6) as [->|Hne].
  - cbn [andb Z.leb Z.ltb Z.compare Pos.compare Pos.compare_cont]. cbn [Z.eqb Pos.eqb andb].
    unfold bar_type. destruct (b_type (bar c 6)) as [t|]; [|done]. destruct Hi' as [-> _]. by rewrite Z.eqb_refl.
  - destruct ((BAR0_REG <=? BAR0_REG + i) && (BAR0_REG + i <? BAR0_REG + NUM_BAR_REGS)) eqn:E.
    2: { apply andb_false_iff in E. zbool. destruct E; zbool; lia. }
    replace (BAR0_REG + i - BAR0_REG) with i by lia. destruct (b_type (bar c i)) as [[]|] eqn:Et; try done.
    1,2: destruct Hi' as [-> _]; by rewrite land_idem, Z.eqb_refl.
    destruct (ok_upper _ Hok i Hi Et) as [Hr Ht]. pose proof (Hsh (i - 1) ltac:(lia)) as Hlo. unfold bar_shape, bar_reg in Hlo.
    rewrite Ht in Hlo. destruct Hlo as [-> _], Hi' as [-> _]. destruct (Z.eqb_spec (i - 1) 6); [lia|].
    replace (BAR0_REG + (i - 1)) with (BAR0_REG + i - 1) by lia. by rewrite land_idem, !Z.eqb_refl.
Qed.

Lemma set_reg_set i v v' c : set_reg i v (set_reg i v' c) = set_reg i v c.
Proof. unfold set_reg. cbn. by rewrite list_insert_insert_eq. Qed.
Lemma set_reg_id i c : sized c -> 0 <= i < 64 -> set_reg i (reg c i) c = c.
Proof.
  intros Hc Hi. unfold set_reg, reg. rewrite list_insert_id; [by destruct c|].
  destruct (lookup_lt_is_Some_2 (registers c) (Z.to_nat i)) as [x Ex]; [destruct Hc; lia|]. by rewrite (nth_lookup_Some _ _ _ _ Ex).
Qed.

(** Writing a register back. *)
Lemma merge_same x w : in_u32 x -> Z.lor (Z.land x (unot u32_max w)) (Z.land x w) = x.
Proof.
  intros Hx. zbits i. destruct (Z.ltb_spec i 32); [by destruct (Z.testbit x i), (Z.testbit w i)|].
  by rewrite (testbit_u32 x).
Qed.

Lemma restore_write c bus i v :
  cfg_ok c -> bars_shape c -> 0 <= i <= 6 -> reg c (bar_reg i) <> 0xffffffff ->
  Z.land v (unot u32_max (wbits c (bar_reg i))) = Z.land (reg c (bar_reg i)) (unot u32_max (wbits c (bar_reg i))) ->
  write_device_bar_reg (bar_reg i) (reg c (bar_reg i)) (set_reg (bar_reg i) v c, bus) = Ret (Ok true, (c, bus)).
Proof.
  intros Hok Hsh Hi Hne Hv. pose proof (bar_reg_range i Hi). pose proof (ok_sized _ Hok) as Hc.
  unfold write_device_bar_reg, cfg, upd_cfg. destruct (Z.eqb_spec (reg c (bar_reg i)) 0xffffffff); [done|].
  rewrite run_gets. cbn [fst]. unfold id. erewrite run_ok_bind by done. erewrite run_ok_bind by done. cbn [fst snd].
  rewrite reg_set, Z.eqb_refl by (lia || apply Hc). change (wbits (set_reg ?i ?v c) ?j) with (wbits c j).
  rewrite Hv, merge_same, set_reg_set, set_reg_id by (auto; by apply reg_u32).
  erewrite run_ok_bind; [done|]. rewrite run_gets. cbn [fst]. by rewrite detect_unchanged.
Qed.

(** The protocol of a guest on one register. *)
Definition size_probe (offset : Z) : eff St PciError Z :=
  old ← cfg (fun c => (read_u32 c offset).2);
  _ ← write_u32 offset 0xffffffff;
  value ← cfg (fun c => (read_u32 c offset).2);
  _ ← write_u32 offset old;
  mret value.

Lemma size_probe_run c bus i :
  cfg_ok c -> bars_shape c -> 0 <= i <= 6 -> reg c (bar_reg i) <> 0xffffffff ->
  exists m value, bar_mask (bar c i) = Ret m /\ size_probe (4 * bar_reg i) (c, bus) = Ret (Ok value, (c, bus)) /\
    Z.land value (wbits c (bar_reg i)) = m /\ in_u32 value.
Proof.
  intros Hok Hsh Hi Hne. destruct (ok_bars _ Hok) as [_ Hm]. destruct (Hm i Hi) as (m & Em & Hs). clear Hm.
  pose proof (bar_reg_range i Hi). pose proof (wbits_u32 c (bar_reg i) Hok) as Hw. pose proof (sub_bits_u32 _ _ Hw Hs) as Hm32.
  set (value := Z.lor (Z.land (reg c (bar_reg i)) (unot u32_max (wbits c (bar_reg i)))) (Z.land 0xffffffff m)).
  exists m, value. split; [done|]. assert (Z.land 0xffffffff m = m) as Ef.
  { rewrite Z.land_comm. change 0xffffffff with (Z.ones 32). rewrite Z.land_ones by lia. apply Z.mod_small. ulia. }
  assert (in_u32 value) as Hv.
  { apply lor_u32; [|by rewrite Ef]. apply land_u32; [by apply reg_u32|]. pose proof (unot_u32 _ Hw). ulia. }
  split; [|split; [unfold value; by rewrite merge_takes|done]].
  unfold size_probe, cfg. rewrite run_gets. cbn [fst]. erewrite run_ok_bind.
  2: { rewrite write_bar_eq by done. by apply probe_write. }
  assert (cfg_ok (set_reg (bar_reg i) value c)) as Hok' by (by apply set_reg_ok).
  rewrite run_gets. cbn [fst]. rewrite !read_bar_eq by done. cbn [snd]. erewrite run_ok_bind.
  2: { rewrite write_bar_eq by done. apply restore_write; try done. by apply merge_keeps. }
  rewrite reg_set by (lia || apply Hok). by rewrite Z.eqb_refl.
Qed.

(** ** The size from the masks *)

Lemma small_mask b m k :
  b_type b = Some IoRegion \/ b_type b = Some Memory32BitRegion -> b_size b = 2 ^ k -> 0 <= k <= 31 ->
  bar_mask b = Ret m -> m = 2 ^ 32 - b_size b.
Proof.
  intros Ht Es Hk. pose proof (Z.pow_pos_nonneg 2 k).
  assert (usub (b_size b) 1 = Ret (2 ^ k - 1)) as Eu by (rewrite Es; unfold usub; zcase; [done|lia]).
  unfold bar_mask. destruct Ht as [-> | ->]; rewrite Eu, Es; cbn [mbind outcome_bind]; rewrite unot_pred_pow2 by lia;
    by intros [= <-].
Qed.

Lemma wide_mask lo hi ml mh k :
  b_type lo = Some Memory64BitRegion -> b_type hi = Some Memory64BitRegionUpper -> 4 <= k <= 63 ->
  b_size lo = as_u32 (2 ^ k) -> b_size hi = as_u32 (Z.shiftr (2 ^ k) 32) ->
  bar_mask lo = Ret ml -> bar_mask hi = Ret mh ->
  Z.lor (Z.shiftl mh 32) ml = 2 ^ 64 - 2 ^ k /\ Z.lor (Z.shiftl (b_size hi) 32) (b_size lo) = 2 ^ k.
Proof.
  intros Tl Th Hk El Eh. unfold bar_mask. rewrite Tl, Th, El, Eh, Z.shiftr_div_pow2 by lia. clear El Eh Tl Th.
  destruct (Z.lt_ge_cases k 32) as [Hlt|Hge].
  - pose proof (Z.pow_pos_nonneg 2 k). pose proof (Z.pow_lt_mono_r 2 k 32). rewrite Z.div_small by lia.
    change (as_u32 0) with 0. rewrite (as_u32_id (2 ^ k)) by ulia. destruct (Z.eqb_spec (2 ^ k) 0); [lia|].
    rewrite unot_pred_pow2 by lia. intros [= <-] [= <-]. rewrite !lor_shiftl_add by lia. split; [lia|done].
  - set (j := k - 32). replace k with (j + 32) by lia. assert (0 <= j <= 31) by lia. clearbody j. clear Hge Hk k.
    pose proof (Z.pow_pos_nonneg 2 j). pose proof (Z.pow_lt_mono_r 2 j 32).
    rewrite Z.pow_add_r, Z.div_mul by lia. replace (as_u32 (2 ^ j * 2 ^ 32)) with 0 by (unfold as_u32; by rewrite Z.mod_mul).
    rewrite (as_u32_id (2 ^ j)) by ulia. destruct (Z.eqb_spec (2 ^ j) 0); [lia|]. rewrite unot_pred_pow2 by lia.
    cbn [Z.eqb]. intros [= <-] [= <-]. rewrite !lor_shiftl_add by lia. split; lia.
Qed.

(** ** Moves *)

Lemma infallible_free_all l : infallible (free_all_resource l).
Proof. unfold free_all_resource. apply infallible_for_each. intros res. unfold free_one_resource. infallible. Qed.

Lemma infallible_on_bus {A} (m : eff PciBusContent PciError A) : infallible m -> infallible (on_bus (C:=C) m).
Proof.
  intros Hm [c [b|]] r s' H; [|done]. unfold on_bus in H. cbn in H. destruct (m b) as [[r1 b']|] eqn:E; [|done].
  injection H as <- _. by eapply Hm.
Qed.

Lemma infallible_free p : infallible (free_bar_resource (C:=C) p).
Proof.
  unfold free_bar_resource, cfg, upd_cfg. infallible. all: apply infallible_on_bus, infallible_free_all.
Qed.
Lemma infallible_allocate p : infallible (allocate_bar_resource (C:=C) p).
Proof. unfold allocate_bar_resource, cfg, upd_cfg. infallible. Qed.

(** The register after a write of the guest. *)
Definition written c (i v : Z) : PciConfiguration C := merge_reg (bar_reg i) (wbits c (bar_reg i)) v c.

(** A write of a value that is not all ones. *)
Lemma write_bar_run c bus i v :
  v <> 0xffffffff ->
  wp (write_device_bar_reg (bar_reg i) v)
    (fun r s' => r = Ok true /\
       match detect_bar_programming (bar_reg i) (written c i v) with
       | (Some p, _) => bar_programming_params c = None /\ bar_programming_params s'.1 = Some p
       | (None, c') => s' = (c', bus)
       end) (c, bus).
Proof.
  intros Hv. unfold write_device_bar_reg, cfg, upd_cfg. destruct (Z.eqb_spec v 0xffffffff); [done|].
  wp_steps. cbn [fst snd id]. change (set_reg (bar_reg i) _ c) with (written c i v). unfold id.
  pose proof (detect_part (C:=C) bar_programming_params (fun _ _ _ => eq_refl) (bar_reg i) (written c i v)) as Hp.
  destruct (detect_bar_programming (bar_reg i) (written c i v)) as [[p|] c2]; wp_steps; [|done].
  cbn [snd] in Hp. change (bar_programming_params (written c i v)) with (bar_programming_params c) in Hp.
  eapply wp_mono; [apply wp_infallible; [apply infallible_free|by apply (keeps_free bar_programming_params)]|].
  intros r s1 [[a ->] H1]. wp_steps.
  eapply wp_mono; [apply wp_infallible; [apply infallible_allocate|by apply (keeps_allocate bar_programming_params)]|].
  intros r s2 [[a' ->] H2]. wp_steps. unfold same, part in *. cbn [fst] in *.
  destruct (bar_programming_params s2.1); wp_steps. split; [done|]. split; [congruence|done].
Qed.

(** The address bits of the register after the write. *)
Lemma written_address c i v j :
  cfg_ok c -> 0 <= i <= 6 -> 0 <= j <= 6 ->
  Z.land (reg (written c i v) (bar_reg j)) (wbits c (bar_reg j)) =
  if i =? j then Z.land v (wbits c (bar_reg i)) else Z.land (reg c (bar_reg j)) (wbits c (bar_reg j)).
Proof.
  intros Hok Hi Hj. pose proof (bar_reg_range i Hi). pose proof (bar_reg_range j Hj). unfold written, merge_reg.
  rewrite reg_set by (lia || apply Hok). rewrite bar_reg_inj by done. destruct (Z.eqb_spec i j) as [<-|]; [|done].
  apply merge_takes; [by apply wbits_u32|apply sub_bits_refl].
Qed.

(** The move that a write of [v] to the register of BAR [i] means, [None] for
    none. *)
Definition move c (i v : Z) : option BarProgrammingParams :=
  let new := Z.land v (wbits c (bar_reg i)) in
  match bar_type c i with
  | None => None
  | Some t =>
      if i =? NUM_BAR_REGS then
        if new =? bar_addr c i then None
        else Some (mkBarParams i Memory32BitRegion (bar_addr c i) new (bar_size c i))
      else
        match t with
        | Memory64BitRegion => None
        | Memory64BitRegionUpper =>
            let low := Z.land (reg c (bar_reg (i - 1))) (wbits c (bar_reg (i - 1))) in
            if (new =? bar_addr c i) && (low =? bar_addr c (i - 1)) then None
            else Some (mkBarParams (i - 1) Memory64BitRegion (Z.lor (Z.shiftl (bar_addr c i) 32) (bar_addr c (i - 1)))
                   (Z.lor (Z.shiftl new 32) low) (Z.lor (Z.shiftl (bar_size c i) 32) (bar_size c (i - 1))))
        | _ => if new =? bar_addr c i then None else Some (mkBarParams i t new new (bar_size c i))
        end
  end.

Lemma detect_move c i v :
  cfg_ok c -> 0 <= i <= 6 -> (detect_bar_programming (bar_reg i) (written c i v)).1 = move c i v.
Proof.
  intros Hok Hi. pose proof (fun j => written_address c i v j Hok Hi) as Hw. pose proof (Hw i Hi) as Hwi. rewrite Z.eqb_refl in Hwi.
  unfold detect_bar_programming, move, is_device_bar_addr_changed, is_bar_reg, bar_used. cbv zeta.
  change (wbits (written c i v)) with (wbits c). change (bar_type (written c i v)) with (bar_type c).
  change (bar_addr (written c i v)) with (bar_addr c). change (bar_size (written c i v)) with (bar_size c).
  rewrite Hwi. destruct (Z.eqb_spec i 6) as [->|Hne].
  - change (bar_reg 6) with 12 in *. cbn [andb Z.leb Z.ltb Z.compare Pos.compare Pos.compare_cont Z.eqb Pos.eqb].
    destruct (bar_type c 6) as [t|]; [|done]. rewrite (Z.eqb_sym (bar_addr c 6)).
    destruct (Z.land v (wbits c 12) =? bar_addr c 6); done.
  - assert (bar_reg i = 4 + i) as Er by (unfold bar_reg; by destruct (Z.eqb_spec i 6)). rewrite Er in *.
    replace (4 + i - 4) with i by lia. destruct ((4 <=? 4 + i) && (4 + i <? 4 + 6)) eqn:E.
    2: { apply andb_false_iff in E. destruct E; zbool; lia. }
    rewrite land_idem. destruct (bar_type c i) as [[]|] eqn:Et; try done.
    1,2: destruct (Z.land v (wbits c (4 + i)) =? bar_addr c i); [done|]; cbn [negb fst];
      unfold set_bar_addr, bar_addr, bar_size; rewrite bar_set, Z.eqb_refl by (lia || apply Hok); done.
    destruct (ok_upper _ Hok i Hi Et) as [Hr Ht]. pose proof (Hw (i - 1) ltac:(lia)) as Hlo.
    destruct (Z.eqb_spec i (i - 1)); [lia|]. assert (bar_reg (i - 1) = 4 + i - 1) as Er' by (unfold bar_reg; zcase; lia).
    rewrite Er' in *. rewrite Hlo, <- negb_andb.
    by destruct (Z.land v _ =? _), (Z.land (reg c _) _ =? _).
Qed.
End bars.
