(* ===== verification/PciConfigProps.v ===== *)
(** * Properties of the configuration space, with a small device

    The device of the witnesses has a vendor specific capability, a 64-bit base
    address register (0 and 1), a 32-bit one (2) and a ROM. *)
From S2P Require Import Prelude Bits IntervalTree DeviceResources Effects InterruptManager PciBus PciConfig PciConfigFacts PciConfigBuild PciBars.

#[global] Instance vp2p_laws : PciCapabilityLaws Vp2pCap.
Proof. by split. Qed.

#[local] Abbreviation Cfg := (PciConfiguration Vp2pCap).

Definition ok_of {A} (o : outcome (result PciError A * Cfg)) (d : Cfg) : Cfg :=
  match o with Ret (_, c) => c | Panic => d end.

Definition demo_base : Cfg :=
  Eval vm_compute in
  match PciConfiguration_new (fun c => c) 0x1af4 0x1042 MassStorage 0x80 None HeaderDevice 0 0 (Some 3) with
  | Ret (Ok c) => c
  | _ => mkConfiguration HeaderDevice [] [] [] None []
  end.
Definition bar64 : PciBarConfiguration := mkBarConfiguration 0 Memory64BitRegion Prefetchable 0x140000000 0x80000.
Definition bar32 : PciBarConfiguration := mkBarConfiguration 2 Memory32BitRegion NotPrefetchable 0xd0000000 0x1000.
Definition bar_rom : PciBarConfiguration := mkBarConfiguration 6 Memory32BitRegion NotPrefetchable 0xe0000000 0x10000.
Definition demo1 : Cfg := Eval vm_compute in ok_of (add_device_bar bar64 demo_base) demo_base.
Definition demo2 : Cfg := Eval vm_compute in ok_of (add_device_bar bar32 demo1) demo1.
Definition demo : Cfg := Eval vm_compute in ok_of (add_device_rom_bar bar_rom 1 demo2) demo2.

Definition demo_bus : PciBusContent :=
  Eval vm_compute in
  match assign_resources (mkDeviceResources [MmioAddressRange 0xd0000000 0x20000000; MmioAddressRange 0x100000000 0x100000000])
          PciBusContent_new with
  | Ret (_, s) => s
  | Panic => PciBusContent_new
  end.

Lemma demo_base_built : built demo_base.
Proof.
  apply (built_new (fun c => c) 0x1af4 0x1042 MassStorage 0x80 None 0 0 (Some 3)); [ulia..|by vm_compute].
Defined.
Lemma demo_built : built demo.
Proof.
  eapply (built_rom bar_rom 1 _ demo2); [|split; cbn; ulia|ulia|by vm_compute].
  eapply (built_bar bar32 _ demo1); [|split; cbn; ulia|by vm_compute].
  eapply (built_bar bar64 _ demo_base); [apply demo_base_built|split; cbn; ulia|by vm_compute].
Defined.

(** The guest enables the device, writes to read-only registers and moves the
    64-bit BAR. *)
Definition demo_writes : list (Z * list Z) :=
  [(0x04, [0x07; 0; 0; 0]); (0x00, [1; 2; 3; 4]); (0x34, [0xff; 0; 0; 0]); (0x41, [0xee]); (0x10, [0; 0; 0; 0x60]); (0x14, [1; 0; 0; 0])].

(** * Properties of the configuration space

    What the guest can and cannot do to the configuration space of a device, the
    answers of the sizing protocol, the chain of capabilities, and the moves of
    base address registers. *)

Section props.
Context {C : Type} {PC : PciCapability C}.
Implicit Types (c : PciConfiguration C) (bus : option PciBusContent).

(** A sequence of writes of the guest, each with its offset and its bytes. *)
Definition guest_writes (ws : list (Z * list Z)) : eff (PciConfiguration C * option PciBusContent) PciError unit :=
  for_each (fun w => write_config w.1 w.2) ws.
Definition guest_write (w : Z * list Z) : Prop := 0 <= w.1 /\ Forall (fun b => 0 <= b < 256) w.2.

Lemma guest_writes_step ws s : Forall guest_write ws -> wp (guest_writes ws) (fun _ s' => guest_step s.1 s'.1) s.
Proof.
  intros Hws. revert s. induction Hws as [|[o d] ws [Ho Hd] _ IH]; intros s.
  - apply wp_ret, guest_step_refl.
  - apply wp_bind. eapply wp_mono; [by apply (guest_write_config o d)|]. intros [[]|e] s1 H1; [|done].
    eapply wp_mono; [apply IH|]. intros r s2 H2. by eapply guest_step_trans.
Qed.

(** C13: In every configuration space that a device builds with the constructor,
    base address registers (64-bit ones of at least 16 bytes, the least that PCI
    allows), a ROM register, capabilities and an interrupt pin, no sequence of configuration writes of the guest changes a bit of a register
    outside the writable bits, the writable bits, the type and size of a base
    address register, or the place of a capability. *)
Theorem readonly_bits_stable c bus ws r c' bus' :
  built c -> Forall guest_write ws -> guest_writes ws (c, bus) = Ret (r, (c', bus')) ->
  writable_bits c' = writable_bits c /\
  (forall i, 0 <= i < 64 ->
     Z.land (reg c' i) (unot u32_max (wbits c i)) = Z.land (reg c i) (unot u32_max (wbits c i))) /\
  (forall i, 0 <= i <= 6 -> bar_type c' i = bar_type c i /\ bar_size c' i = bar_size c i) /\
  (capabilities c').*1 = (capabilities c).*1.
Proof.
  intros Hb Hws Hrun. apply (guest_writes_step ws _ Hws) in Hrun. destruct (Hrun (built_ok _ Hb)) as [_ [H1 H2 H3 H4]].
  split; [done|]. split; [apply H2|]. split; [apply H3|done].
Qed.


(** From the pointer in the header, a guest that follows the next pointers
    finds every capability that the device added, with its id and the last one
    first, and stops; no configuration writes of the guest change what it finds. *)
Theorem capability_chain_complete {PL : PciCapabilityLaws C} c bus ws r c' bus' :
  built c -> Forall guest_write ws -> guest_writes ws (c, bus) = Ret (r, (c', bus')) ->
  walk_capabilities c' = chain_of (capabilities c).
Proof.
  intros Hb Hws Hrun. pose proof (built_ok _ Hb) as Hok. pose proof (built_chain _ Hb) as Hch.
  assert (heads_kept (c, bus) (c', bus')) as Hh.
  { eapply (keeps_for_each heads_kept); [| |intros w; apply heads_write_config|exact Hrun].
    - intros s. apply same_heads_refl.
    - apply heads_trans. }
  apply (guest_writes_step ws _ Hws) in Hrun. destruct (Hrun Hok) as [Hok' Hro].
  destruct (chain_kept c c' Hok Hok' Hro Hh Hch) as [Hch' <-]. by apply walk_all.
Qed.

(** A write of the guest to the register of a base address register that
    is not a size question either moves nothing, and then only the register
    changes, or records the move that [move] describes.  For a 64-bit pair and for
    the ROM the old base is the address before; for a 32-bit or I/O register the
    recorded old base is the new one. *)
Theorem bar_move_recorded c bus i v r c' bus' :
  cfg_ok c -> 0 <= i <= 6 -> v <> 0xffffffff -> write_u32 (4 * bar_reg i) v (c, bus) = Ret (r, (c', bus')) ->
  r = Ok true /\
  match move c i v with
  | None => c' = merge_reg (bar_reg i) (wbits c (bar_reg i)) v c /\ bus' = bus
  | Some p => bar_programming_params c' = Some p
  end.
Proof.
  intros Hok Hi Hv Hrun. rewrite write_bar_eq in Hrun by done. apply (write_bar_run c bus i v Hv) in Hrun as [-> Hrun].
  split; [done|]. pose proof (detect_move c i v Hok Hi) as Hd. pose proof (detect_none (bar_reg i) (written c i v)) as Hn.
  destruct (detect_bar_programming (bar_reg i) (written c i v)) as [[p|] c2]; cbn in Hd; rewrite <- Hd; [apply Hrun|].
  injection Hrun as -> ->. split; [|done]. by apply Hn.
Qed.

(** The recorded move has to be taken out by the device before the next
    one: while one is recorded, every further write that moves a base address
    register panics. *)
Theorem second_bar_move_panics c bus i v p q :
  cfg_ok c -> 0 <= i <= 6 -> v <> 0xffffffff -> bar_programming_params c = Some p -> move c i v = Some q ->
  write_u32 (4 * bar_reg i) v (c, bus) = Panic.
Proof.
  intros Hok Hi Hv Hp Hm. rewrite write_bar_eq by done. pose proof (detect_move c i v Hok Hi) as Hd.
  destruct (write_device_bar_reg (bar_reg i) v (c, bus)) as [[r s]|] eqn:Hrun; [|done].
  apply (write_bar_run c bus i v Hv) in Hrun as [_ Hrun].
  destruct (detect_bar_programming (bar_reg i) (written c i v)) as [[q'|] c2]; cbn in Hd; [|congruence].
  destruct Hrun. congruence.
Qed.
End props.

(** The bound on the size of 64-bit base address registers in [readonly_bits_stable]
    is needed: [add_device_bar] takes one of 8 bytes, and the sizing question then
    sets its prefetchable bit, which is not a writable one. *)
Theorem small_wide_bar_leaks :
  let small := mkBarConfiguration 0 Memory64BitRegion NotPrefetchable 0x140000000 8 in
  exists c c' : Cfg, add_device_bar small demo_base = Ret (Ok 0, c) /\
    write_config 0x10 [0xff; 0xff; 0xff; 0xff] (c, None) = Ret (Ok tt, (c', None)) /\
    Z.testbit (wbits c 4) 3 = false /\ Z.testbit (reg c 4) 3 = false /\ Z.testbit (reg c' 4) 3 = true.
Proof. do 2 eexists. split; [vm_compute; reflexivity|]. split; [vm_compute; reflexivity|]. by split; [|split]. Qed.

(** ** Witnesses *)

Lemma demo_guest_writes : Forall guest_write demo_writes.
Proof. repeat constructor; cbn; lia. Defined.

Definition demo_after : result PciError unit * (PciConfiguration Vp2pCap * option PciBusContent) :=
  Eval vm_compute in
  match guest_writes demo_writes (demo, Some demo_bus) with
  | Ret (r, s) => (r, s)
  | Panic => (Err NoResources, (demo, None))
  end.

Lemma readonly_bits_stable_witness :
  demo_after.1 = Ok tt /\ Z.land (reg demo_after.2.1 0) (unot u32_max (wbits demo 0)) = 0x10421af4.
Proof.
  split; [done|].
  destruct (readonly_bits_stable demo (Some demo_bus) demo_writes demo_after.1 demo_after.2.1 demo_after.2.2) as (_ & H & _);
    [apply demo_built|apply demo_guest_writes|by vm_compute|].
  rewrite H; [done|lia].
Defined.


Lemma capability_chain_complete_witness : walk_capabilities demo_after.2.1 = [(0x40, 0x09)].
Proof.
  rewrite (capability_chain_complete demo (Some demo_bus) demo_writes demo_after.1 demo_after.2.1 demo_after.2.2);
    [by vm_compute|apply demo_built|apply demo_guest_writes|by vm_compute].
Defined.

(** The 32-bit BAR moves from 0xd0000000 to 0xd0001000, and the recorded old base
    is 0xd0001000. *)
Definition demo_moved : PciConfiguration Vp2pCap * option PciBusContent :=
  Eval vm_compute in
  match write_u32 0x18 0xd0001000 (demo, Some demo_bus) with Ret (_, s) => s | Panic => (demo, None) end.

Lemma bar_move_recorded_witness :
  bar_programming_params demo_moved.1 = Some (mkBarParams 2 Memory32BitRegion 0xd0001000 0xd0001000 0x1000).
Proof.
  apply (bar_move_recorded demo (Some demo_bus) 2 0xd0001000 (Ok true) demo_moved.1 demo_moved.2);
    [apply built_ok, demo_built|lia|done|by vm_compute].
Defined.

Lemma second_bar_move_panics_witness : write_u32 0x18 0xd0002000 demo_moved = Panic.
Proof.
  destruct demo_moved as [c bus] eqn:E. apply (f_equal fst) in E as Ec. cbn [fst] in Ec. subst c.
  apply (second_bar_move_panics demo_moved.1 bus 2 0xd0002000 (mkBarParams 2 Memory32BitRegion 0xd0001000 0xd0001000 0x1000)
           (mkBarParams 2 Memory32BitRegion 0xd0002000 0xd0002000 0x1000)); [|lia|done|by vm_compute..].
  pose proof (guest_write_u32 (PC := vp2p_capability) 0x18 0xd0001000 ltac:(lia) ltac:(lia) (demo, Some demo_bus) (Ok true) demo_moved
    ltac:(by vm_compute)) as H. apply H. apply built_ok, demo_built.
Defined.
