(* ===== verification/PciRootProps.v ===== *)
(** * The PCI root: facts and properties

    Field extraction from the addresses of the two mechanisms, the device that
    an access reaches, and the host bridge; then the properties. *)
From S2P Require Import Prelude Bits IntervalTree DeviceResources Effects InterruptManager PciBus PciConfig PciConfigFacts PciConfigBuild PciBars PciRoot.

(** ** Fields of an address *)

Lemma land_field x m n : 0 <= m -> 0 <= n -> Z.land x (Z.shiftl (Z.ones n) m) = (x / 2 ^ m mod 2 ^ n) * 2 ^ m.
Proof.
  intros Hm Hn. rewrite <- Z.shiftl_mul_pow2, <- Z.shiftr_div_pow2, <- Z.land_ones by done.
  zbits i. destruct (Z.lt_ge_cases i m); [by rewrite !Z.shiftl_spec_low, andb_false_r|].
  rewrite !Z.shiftl_spec, Z.land_spec, Z.shiftr_spec by lia. by replace (i - m + m) with i by lia.
Qed.

Lemma lor_add_field x y k : 0 <= k -> 0 <= x < 2 ^ k -> Z.lor x (y * 2 ^ k) = x + y * 2 ^ k.
Proof. intros Hk Hx. rewrite Z.lor_comm, <- Z.shiftl_mul_pow2, lor_shiftl_add, Z.shiftl_mul_pow2 by done. lia. Qed.

Lemma clear_low2 x : in_u32 x -> Z.land x (unot u32_max 3) = x / 4 * 4.
Proof.
  intros Hx. assert (Z.land x (unot u32_max 3) = Z.land x (Z.shiftl (Z.ones 30) 2)) as -> by done.
  rewrite land_field by lia. change (2 ^ 2) with 4. rewrite Z.mod_small; [done|]. split; [apply Z.div_pos; ulia|].
  apply Z.div_lt_upper_bound; ulia.
Qed.

(** The value of CONFIG_ADDRESS and the offset in the memory window for a
    register [o] of (bus, device, function). *)
Definition config_address (b d f o : Z) : Z := 2 ^ 31 + (o / 256) * 2 ^ 24 + b * 2 ^ 16 + d * 2 ^ 11 + f * 2 ^ 8 + o mod 256 / 4 * 4.
Definition window_offset (b d f o : Z) : Z := b * 2 ^ 20 + d * 2 ^ 15 + f * 2 ^ 12 + o.

Definition address_ok (b d f o : Z) : Prop := 0 <= b < 256 /\ 0 <= d < 32 /\ 0 <= f < 8 /\ 0 <= o < 4096.

Lemma div_add_l q r k : 0 < k -> 0 <= r < k -> (q * k + r) / k = q.
Proof. intros Hk Hr. rewrite Z.div_add_l by lia. rewrite Z.div_small by lia. lia. Qed.
Lemma mod_add_l q r k : 0 < k -> 0 <= r < k -> (q * k + r) mod k = r.
Proof. intros Hk Hr. rewrite Z.add_comm, Z.mod_add by lia. by apply Z.mod_small. Qed.

Lemma parse_window b d f o : address_ok b d f o -> parse_mmio_address (window_offset b d f o) = (b, d, f, o).
Proof.
  intros (Hb & Hd & Hf & Ho). unfold parse_mmio_address, window_offset.
  rewrite as_u32_id by ulia. rewrite !Z.shiftr_div_pow2 by lia.
  change 0xff with (Z.ones 8). change 0x1f with (Z.ones 5). change 0x7 with (Z.ones 3). change 0xfff with (Z.ones 12).
  rewrite !Z.land_ones by lia. f_equal; [f_equal; [f_equal|]|].
  - replace (b * 2 ^ 20 + d * 2 ^ 15 + f * 2 ^ 12 + o) with (b * 2 ^ 20 + (d * 2 ^ 15 + f * 2 ^ 12 + o)) by lia.
    rewrite div_add_l by lia. apply Z.mod_small; lia.
  - replace (b * 2 ^ 20 + d * 2 ^ 15 + f * 2 ^ 12 + o) with ((b * 2 ^ 5 + d) * 2 ^ 15 + (f * 2 ^ 12 + o)) by lia.
    rewrite div_add_l by lia. apply mod_add_l; lia.
  - replace (b * 2 ^ 20 + d * 2 ^ 15 + f * 2 ^ 12 + o) with (((b * 2 ^ 5 + d) * 2 ^ 3 + f) * 2 ^ 12 + o) by lia.
    rewrite div_add_l by lia. apply mod_add_l; lia.
  - replace (b * 2 ^ 20 + d * 2 ^ 15 + f * 2 ^ 12 + o) with (((b * 2 ^ 5 + d) * 2 ^ 3 + f) * 2 ^ 12 + o) by lia.
    apply mod_add_l; lia.
Qed.

Lemma parse_config_address b d f o :
  address_ok b d f o -> parse_ioport_address (config_address b d f o) = (b, d, f, o / 4 * 4).
Proof.
  intros (Hb & Hd & Hf & Ho). unfold parse_ioport_address, config_address. rewrite !Z.shiftr_div_pow2, Z.div_1_r by lia.
  set (hi := o / 256). set (lo := o mod 256). assert (o = 256 * hi + lo) as Eo by (apply Z.div_mod; lia).
  assert (0 <= lo < 256) by (apply Z.mod_pos_bound; lia). assert (0 <= hi < 16) by lia. clearbody hi lo. subst o.
  set (q := lo / 4). pose proof (Z.div_mod lo 4 ltac:(lia)). pose proof (Z.mod_pos_bound lo 4 ltac:(lia)). fold q in H1.
  assert (0 <= q < 64) by lia.
  set (a := 2 ^ 31 + hi * 2 ^ 24 + b * 2 ^ 16 + d * 2 ^ 11 + f * 2 ^ 8 + q * 4).
  assert (a / 2 ^ 16 = (2 ^ 7 + hi) * 2 ^ 8 + b) as E16.
  { replace a with (((2 ^ 7 + hi) * 2 ^ 8 + b) * 2 ^ 16 + (d * 2 ^ 11 + f * 2 ^ 8 + q * 4)) by (unfold a; lia). apply div_add_l; lia. }
  change 0x00ff with (Z.ones 8). change 0x1f with (Z.ones 5). change 0x07 with (Z.ones 3). change 0xff with (Z.ones 8).
  rewrite !Z.land_ones by lia. change 0xf00 with (Z.shiftl (Z.ones 4) 8). rewrite land_field by lia. rewrite E16.
  rewrite div_add_l, mod_add_l by lia. replace ((2 ^ 7 + hi) mod 2 ^ 4) with hi.
  2: { replace (2 ^ 7 + hi) with (8 * 2 ^ 4 + hi) by lia. symmetry. apply mod_add_l; lia. }
  assert (a / 2 ^ 11 = (((2 ^ 7 + hi) * 2 ^ 8 + b) * 2 ^ 5 + d)) as ->.
  { replace a with ((((2 ^ 7 + hi) * 2 ^ 8 + b) * 2 ^ 5 + d) * 2 ^ 11 + (f * 2 ^ 8 + q * 4)) by (unfold a; lia). apply div_add_l; lia. }
  assert (a / 2 ^ 8 = ((((2 ^ 7 + hi) * 2 ^ 8 + b) * 2 ^ 5 + d) * 2 ^ 3 + f)) as ->.
  { replace a with (((((2 ^ 7 + hi) * 2 ^ 8 + b) * 2 ^ 5 + d) * 2 ^ 3 + f) * 2 ^ 8 + q * 4) by (unfold a; lia). apply div_add_l; lia. }
  assert (a mod 2 ^ 8 = q * 4) as ->.
  { replace a with (((((2 ^ 7 + hi) * 2 ^ 8 + b) * 2 ^ 5 + d) * 2 ^ 3 + f) * 2 ^ 8 + q * 4) by (unfold a; lia). apply mod_add_l; lia. }
  rewrite !mod_add_l by lia. f_equal. rewrite lor_add_field by lia. rewrite clear_low2 by ulia.
  replace (q * 4 + hi * 2 ^ 8) with ((hi * 2 ^ 6 + q) * 4 + 0) by lia. rewrite div_add_l by lia.
  replace (256 * hi + lo) with ((hi * 2 ^ 6 + q) * 4 + lo mod 4) by lia. by rewrite div_add_l by lia.
Qed.

(** The access widths and their alignment. *)
Lemma alignment_mod4 len x y : x mod 4 = y mod 4 -> check_alignment_valid len x = check_alignment_valid len y.
Proof.
  intros E. unfold check_alignment_valid. destruct ((len =? 4) || (len =? 2) || (len =? 1)) eqn:El; [|done].
  assert (len = 4 \/ len = 2 \/ len = 1) as [-> |[-> | ->]].
  { apply orb_true_iff in El as [[El|El]%orb_true_iff|El]; zbool; auto. }
  - change (4 - 1) with (Z.ones 2). rewrite !Z.land_ones by lia. cbn [andb]. by change (2 ^ 2) with 4; rewrite E.
  - change (2 - 1) with (Z.ones 1). rewrite !Z.land_ones by lia. change (2 ^ 1) with 2. cbn [andb].
    rewrite <- (Z.mod_mod_divide x 4 2), <- (Z.mod_mod_divide y 4 2), E by (by exists 2). done.
  - by rewrite !Z.land_0_r.
Qed.

Lemma register_split o : 0 <= o -> Z.lor (o / 4 * 4) (Z.land (4 + o mod 4) 0x3) = o.
Proof.
  intros Ho. pose proof (Z.mod_pos_bound o 4 ltac:(lia)). pose proof (Z.div_mod o 4 ltac:(lia)).
  change 0x3 with (Z.ones 2). rewrite Z.land_ones by lia. change (2 ^ 2) with 4.
  replace (4 + o mod 4) with (1 * 4 + o mod 4) by lia. rewrite mod_add_l by lia.
  rewrite Z.lor_comm. change 4 with (2 ^ 2) at 3. rewrite lor_add_field by lia. lia.
Qed.

Lemma config_address_enabled b d f o : address_ok b d f o -> (Z.land (config_address b d f o) 0x80000000 =? 0) = false.
Proof.
  intros (Hb & Hd & Hf & Ho). change 0x80000000 with (Z.shiftl (Z.ones 1) 31). rewrite land_field by lia.
  assert (config_address b d f o / 2 ^ 31 = 1) as ->; [|done].
  unfold config_address. pose proof (Z.div_mod o 256 ltac:(lia)). pose proof (Z.mod_pos_bound o 256 ltac:(lia)).
  pose proof (Z.div_mod (o mod 256) 4 ltac:(lia)). pose proof (Z.mod_pos_bound (o mod 256) 4 ltac:(lia)).
  replace (2 ^ 31 + o / 256 * 2 ^ 24 + b * 2 ^ 16 + d * 2 ^ 11 + f * 2 ^ 8 + o mod 256 / 4 * 4)
    with (1 * 2 ^ 31 + (o / 256 * 2 ^ 24 + b * 2 ^ 16 + d * 2 ^ 11 + f * 2 ^ 8 + o mod 256 / 4 * 4)) by lia.
  apply div_add_l; lia.
Qed.

Lemma config_address_u32 b d f o : address_ok b d f o -> 0 <= config_address b d f o < 2 ^ 32.
Proof.
  intros (Hb & Hd & Hf & Ho). unfold config_address. pose proof (Z.div_mod o 256 ltac:(lia)). pose proof (Z.mod_pos_bound o 256 ltac:(lia)).
  pose proof (Z.div_mod (o mod 256) 4 ltac:(lia)). pose proof (Z.mod_pos_bound (o mod 256) 4 ltac:(lia)). lia.
Qed.

Lemma parse_mmio_range offset :
  let '(b, d, f, o) := parse_mmio_address offset in address_ok b d f o /\ o mod 4 = offset mod 4.
Proof.
  unfold parse_mmio_address. cbv zeta. change 0xff with (Z.ones 8). change 0x1f with (Z.ones 5). change 0x7 with (Z.ones 3).
  change 0xfff with (Z.ones 12). rewrite !Z.land_ones by lia. split.
  - split_and!; apply Z.mod_pos_bound; lia.
  - rewrite (Z.mod_mod_divide _ (2 ^ 12) 4) by (by exists (2 ^ 10)). apply Z.mod_mod_divide. by exists (2 ^ 30).
Qed.

Lemma parse_ioport_range addr :
  let '(b, d, f, o) := parse_ioport_address addr in address_ok b d f o /\ o mod 4 = 0.
Proof.
  unfold parse_ioport_address. cbv zeta. change 0x00ff with (Z.ones 8). change 0x1f with (Z.ones 5). change 0x07 with (Z.ones 3).
  change 0xff with (Z.ones 8). change 0xf00 with (Z.shiftl (Z.ones 4) 8). rewrite land_field, !Z.land_ones by lia.
  set (lo := Z.shiftr addr 0 mod 2 ^ 8). set (hi := Z.shiftr addr 16 / 2 ^ 8 mod 2 ^ 4).
  assert (0 <= lo < 2 ^ 8) by (apply Z.mod_pos_bound; lia). assert (0 <= hi < 2 ^ 4) by (apply Z.mod_pos_bound; lia).
  rewrite lor_add_field, clear_low2 by ulia. split; [|apply Z.mod_mul; lia].
  pose proof (Z.div_mod (lo + hi * 2 ^ 8) 4 ltac:(lia)). pose proof (Z.mod_pos_bound (lo + hi * 2 ^ 8) 4 ltac:(lia)).
  split_and!; try (apply Z.mod_pos_bound; lia); lia.
Qed.

(** The byte of the data port selects a byte of the register. *)
Lemma ioport_register o offset :
  0 <= o < 4096 -> o mod 4 = 0 ->
  0 <= Z.lor o (Z.land offset 0x3) < 4096 /\ Z.lor o (Z.land offset 0x3) mod 4 = offset mod 4.
Proof.
  intros Ho Hm. change 0x3 with (Z.ones 2). rewrite Z.land_ones by lia. change (2 ^ 2) with 4.
  pose proof (Z.mod_pos_bound offset 4 ltac:(lia)). pose proof (Z.div_mod o 4 ltac:(lia)) as E. rewrite Hm in E.
  replace o with (o / 4 * 2 ^ 2) by lia. rewrite Z.lor_comm, lor_add_field by lia. change (2 ^ 2) with 4.
  rewrite Z.mod_add, Z.mod_mod by lia. split; [lia|done].
Qed.

Section mechanisms.
Context {D : Type} `{PciDevice D}.
Implicit Types (s : PciSystem D).

(** The state with another value in CONFIG_ADDRESS. *)
Definition with_addr (a : Z) s : PciSystem D := mkSystem (put_io_addr a (sys_root s)) (sys_buses s) (sys_devs s).

Lemma set_config_address s b d f o :
  address_ok b d f o ->
  root_pio_write s 0 (le_write 4 (config_address b d f o)) = Ret (with_addr (config_address b d f o) s).
Proof.
  intros Ha. unfold root_pio_write. rewrite le_write_length. cbn [negb Z.of_nat Pos.of_succ_nat Pos.succ].
  change (check_alignment_valid 4 0) with true. cbn [negb]. change (0 <=? 3) with true. change (4 =? 4) with true. cbn iota.
  rewrite le_read_write; [done|]. by apply config_address_u32.
Qed.

Lemma window_mod4 b d f o : window_offset b d f o mod 4 = o mod 4.
Proof.
  unfold window_offset. replace (b * 2 ^ 20 + d * 2 ^ 15 + f * 2 ^ 12 + o) with (o + (b * 2 ^ 18 + d * 2 ^ 13 + f * 2 ^ 10) * 4) by lia.
  apply Z.mod_add. lia.
Qed.
Lemma port_mod4 o : (4 + o mod 4) mod 4 = o mod 4.
Proof. replace (4 + o mod 4) with (o mod 4 + 1 * 4) by lia. rewrite Z.mod_add, Z.mod_mod by lia. done. Qed.

(** The data port reaches the register that the window reaches. *)
Lemma data_port_read s b d f o data :
  address_ok b d f o ->
  root_pio_read (with_addr (config_address b d f o) s) (4 + o mod 4) data = root_read s (window_offset b d f o) data.
Proof.
  intros Ha. pose proof Ha as (_ & _ & _ & Ho). unfold root_pio_read, root_read. cbn [with_addr sys_root put_io_addr io_addr].
  rewrite (alignment_mod4 _ (4 + o mod 4) o), (alignment_mod4 _ (window_offset b d f o) o) by auto using port_mod4, window_mod4.
  destruct (check_alignment_valid _ o); cbn [negb]; [|done]. pose proof (Z.mod_pos_bound o 4 ltac:(lia)).
  destruct (Z.leb_spec (4 + o mod 4) 3); [lia|]. destruct (Z.leb_spec (4 + o mod 4) 7); [|lia].
  rewrite config_address_enabled, parse_config_address, parse_window, register_split by (done || lia). done.
Qed.

Lemma data_port_write s b d f o data :
  address_ok b d f o ->
  root_pio_write (with_addr (config_address b d f o) s) (4 + o mod 4) data =
  (s' ← root_write s (window_offset b d f o) data; Ret (with_addr (config_address b d f o) s')).
Proof.
  intros Ha. pose proof Ha as (_ & _ & _ & Ho). unfold root_pio_write, root_write. cbn [with_addr sys_root put_io_addr io_addr].
  rewrite (alignment_mod4 _ (4 + o mod 4) o), (alignment_mod4 _ (window_offset b d f o) o) by auto using port_mod4, window_mod4.
  destruct (check_alignment_valid _ o); cbn [negb]; [|done]. pose proof (Z.mod_pos_bound o 4 ltac:(lia)).
  destruct (Z.leb_spec (4 + o mod 4) 3); [lia|]. destruct (Z.leb_spec (4 + o mod 4) 7); [|lia].
  rewrite config_address_enabled, parse_config_address, parse_window, register_split by (done || lia). cbn [negb].
  unfold write_at, find_bus. cbn [with_addr sys_root sys_buses sys_devs put_io_addr buses].
  destruct (buses (sys_root s) !! b) as [r|]; [|done]. destruct (sys_buses s !! r) as [bus|]; [|done]. cbn.
  by destruct (bus_write_config d f o data bus (sys_devs s)) as [[bus' devs]|].
Qed.

(** ** The device that an access reaches *)

(** (bus, device, function, offset) of a configuration access, [None] for an
    access to CONFIG_ADDRESS and for one that is refused. *)
Definition target (a : RootAccess) s : option (Z * Z * Z * Z) :=
  let pio offset (data : list Z) :=
    let addr := io_addr (sys_root s) in
    if check_alignment_valid (Z.of_nat (length data)) offset && (3 <? offset) && (offset <=? 7)
       && negb (Z.land addr 0x80000000 =? 0)
    then let '(b, d, f, o) := parse_ioport_address addr in Some (b, d, f, Z.lor o (Z.land offset 0x3))
    else None in
  let mmio offset (data : list Z) :=
    if check_alignment_valid (Z.of_nat (length data)) offset then Some (parse_mmio_address offset) else None in
  match a with
  | PioRead offset data | PioWrite offset data => pio offset data
  | MmioRead offset data | MmioWrite offset data => mmio offset data
  end.

Definition access_data (a : RootAccess) : list Z :=
  match a with PioRead _ data | PioWrite _ data | MmioRead _ data | MmioWrite _ data => data end.
Definition is_write (a : RootAccess) : bool := match a with PioWrite _ _ | MmioWrite _ _ => true | _ => false end.

(** The device in a slot of a bus. *)
Definition device_at s (b d : Z) : option nat :=
  match find_bus s b with
  | Some (_, bus) => match it_get (bus_devices bus) (mkRange d d) with Some (Valued h) => Some h | _ => None end
  | None => None
  end.

(** What an access does, by its target. *)
Lemma write_access a s :
  is_write a = true ->
  match target a s with
  | Some (b, d, f, o) => root_access a s = default (Ret s) (write_at s b d f o (access_data a))
  | None => exists x, root_access a s = Ret (with_addr x s)
  end.
Proof.
  destruct a as [| offset data| |offset data]; intros Hw; try done; cbn [target root_access access_data].
  - unfold root_pio_write. destruct (check_alignment_valid _ offset); cbn [negb andb].
    2: { exists (io_addr (sys_root s)). by destruct s as [[] ? ?]. }
    destruct (Z.leb_spec offset 3), (Z.ltb_spec 3 offset); try lia; cbn [andb]; [by eexists|].
    destruct (offset <=? 7); cbn [andb]; [|exists (io_addr (sys_root s)); by destruct s as [[] ? ?]].
    destruct (negb _); [|exists (io_addr (sys_root s)); by destruct s as [[] ? ?]].
    by destruct (parse_ioport_address _) as [[[b d] f] o].
  - unfold root_write. destruct (check_alignment_valid _ offset); [|exists (io_addr (sys_root s)); by destruct s as [[] ? ?]].
    by destruct (parse_mmio_address offset) as [[[b d] f] o].
Qed.

(** The fields of a target are in range and as aligned as the access. *)
Lemma target_range a s b d f o :
  target a s = Some (b, d, f, o) ->
  address_ok b d f o /\ check_alignment_valid (Z.of_nat (length (access_data a))) o = true.
Proof.
  destruct a as [offset data|offset data|offset data|offset data]; cbn [target access_data].
  1,2: destruct (check_alignment_valid _ offset) eqn:Ea; [|done]; destruct (_ && negb _); [|done];
    pose proof (parse_ioport_range (io_addr (sys_root s))) as Hr;
    destruct (parse_ioport_address _) as [[[b' d'] f'] o']; intros [= -> -> -> <-];
    destruct Hr as [(Hb & Hd & Hf & Ho) Hm]; destruct (ioport_register o' offset Ho Hm) as [H1 H2]; split; [done|];
    rewrite <- Ea; by apply alignment_mod4.
  all: destruct (check_alignment_valid _ offset) eqn:Ea; [|done]; pose proof (parse_mmio_range offset) as Hr;
    destruct (parse_mmio_address offset) as [[[b' d'] f'] o']; intros [= -> -> -> ->]; split; [tauto|];
    rewrite <- Ea; apply alignment_mod4, Hr.
Qed.

Lemma read_access_same a s s' : is_write a = false -> root_access a s = Ret s' -> s' = s.
Proof.
  destruct a as [offset data| |offset data|]; intros Hr; try done; cbn [root_access];
    intros (x & _ & [= <-])%outcome_bind_Ret; done.
Qed.
End mechanisms.

(** ** A device without base address registers and capabilities *)

Section plain.
Context {C : Type} {PC : PciCapability C}.
Implicit Types (c : PciConfiguration C) (bus : option PciBusContent).

Ltac branch :=
  lazymatch goal with |- exists _ _, (if ?b then _ else _) _ = _ => let E := fresh "Eb" in destruct b eqn:E end.

Record plain c : Prop := {
  pl_ok : cfg_ok c;
  pl_bars i : 0 <= i <= 6 -> b_type (bar c i) = None;
  pl_caps : capabilities c = [];
}.

Lemma plain_step c c' : plain c -> guest_step c c' -> plain c'.
Proof.
  intros [Hok Hb Hc] Hs. destruct (Hs Hok) as [Hok' Hro]. split; [done| |].
  - intros i Hi. destruct (ro_bars _ _ Hro i Hi) as [-> _]. by apply Hb.
  - pose proof (ro_caps _ _ Hro) as E. rewrite Hc in E. by destruct (capabilities c').
Qed.

Lemma plain_bar_write c bus reg_idx v :
  plain c -> is_bar_reg reg_idx = true \/ reg_idx = ROM_BAR_REG ->
  exists c', write_device_bar_reg reg_idx v (c, bus) = Ret (Ok true, (c', bus)).
Proof.
  intros [Hok Hb Hc] Hr. set (i := if reg_idx =? ROM_BAR_REG then NUM_BAR_REGS else reg_idx - BAR0_REG).
  assert (0 <= i <= 6) as Hi.
  { unfold i, is_bar_reg in *. destruct (Z.eqb_spec reg_idx 12); [lia|]. destruct Hr as [Hr| ->]; [|lia].
    apply andb_true_iff in Hr as [? ?]. zbool. lia. }
  assert (bar_mask (bar c i) = Ret 0) as Hm by (unfold bar_mask; by rewrite Hb).
  assert (forall w, detect_bar_programming reg_idx (set_reg reg_idx w c) = (None, set_reg reg_idx w c)) as Hd.
  { intros w. unfold detect_bar_programming, bar_used, bar_type. change (bar (set_reg reg_idx w c)) with (bar c).
    destruct (is_bar_reg reg_idx) eqn:Er.
    - replace (reg_idx - BAR0_REG) with i; [by rewrite Hb|]. unfold i. destruct (Z.eqb_spec reg_idx 12) as [->|]; [done|done].
    - destruct Hr as [Hr| ->]; [done|]. by rewrite Hb by lia. }
  unfold write_device_bar_reg, cfg, upd_cfg. rewrite run_gets. cbn [fst]. unfold id. destruct (v =? 0xffffffff).
  - fold i. rewrite Hm. by eexists.
  - erewrite run_ok_bind by done. erewrite run_ok_bind by done. cbn [fst snd]. erewrite run_ok_bind; [by eexists|].
    rewrite run_gets. cbn [fst snd]. by rewrite Hd.
Qed.

Lemma plain_write_u32 c bus offset v :
  plain c -> 0 <= offset < 256 -> exists r c', write_u32 offset v (c, bus) = Ret (Ok r, (c', bus)).
Proof.
  intros Hp Ho. pose proof Hp as [Hok Hb Hc]. unfold write_u32, cfg. rewrite run_gets. cbn [fst]. unfold id.
  assert (0 <= Z.shiftr offset 2 < 64).
  { rewrite Z.shiftr_div_pow2 by lia. change (2 ^ 2) with 4. pose proof (Z.div_mod offset 4). pose proof (Z.mod_pos_bound offset 4). lia. }
  rewrite (at_index_ok _ _ 0) by (destruct (ok_wbits _ Hok) as [-> _]; lia). erewrite run_ok_bind by done.
  unfold upd_cfg, cap_write_u32, cap_write, cfg.
  do 3 (branch; [by eexists _, _|]). branch.
  { apply andb_true_iff in Eb2 as [_ Eb2]. destruct (plain_bar_write c bus (Z.shiftr offset 2) v Hp) as [c' E']; [|eauto].
    apply orb_true_iff in Eb2 as [|]; [by left|zbool; by right]. }
  do 2 (branch; [by eexists _, _|]). rewrite bind_assoc, run_gets. cbn [fst]. rewrite Hc. by eexists _, _.
Qed.

Lemma plain_write_partial c bus offset (f : Z -> C -> C) v :
  plain c -> 0 <= offset < 256 ->
  exists r c', (handled ← cap_write offset f; if (handled : bool) then mret true else
    c ← cfg id; write_u32 (Z.land offset (unot u64_max 0x3)) (v c)) (c, bus) = Ret (Ok r, (c', bus)).
Proof.
  intros Hp Ho. unfold cap_write, cfg. rewrite bind_assoc, run_gets. cbn [fst]. rewrite (pl_caps _ Hp).
  cbn [update_cap]. erewrite run_ok_bind by done. cbn iota. rewrite run_gets. apply plain_write_u32; [done|].
  split; [apply Z.land_nonneg; lia|]. pose proof (land_range 8 offset (unot u64_max 3) ltac:(lia) ltac:(lia) ltac:(by cbn)). lia.
Qed.

Lemma plain_write_u16 c bus offset v : plain c -> 0 <= offset -> exists r c', write_u16 offset v (c, bus) = Ret (Ok r, (c', bus)).
Proof.
  intros Hp Ho. unfold write_u16. destruct (negb _ || (256 <=? offset)) eqn:Er; [by eexists _, _|].
  apply orb_false_iff in Er as [_ Er]. zbool.
  set (mask := as_u32 (Z.shiftl 0xffff (Z.shiftl (Z.land (as_u32 offset) 0x2) 3))).
  apply (plain_write_partial c bus offset (fun o => cap_set_u16 o v)
    (fun c => Z.lor (Z.land (read_u32 c (Z.land offset (unot u64_max 3))).2 (unot u32_max mask)) (Z.land v mask)) Hp). lia.
Qed.

Lemma plain_write_u8 c bus offset v : plain c -> 0 <= offset -> exists r c', write_u8 offset v (c, bus) = Ret (Ok r, (c', bus)).
Proof.
  intros Hp Ho. unfold write_u8. destruct (Z.leb_spec 256 offset); [by eexists _, _|].
  set (mask := as_u32 (Z.shiftl 0xff (Z.shiftl (Z.land (as_u32 offset) 0x3) 3))).
  apply (plain_write_partial c bus offset (fun o => cap_set_u8 o v)
    (fun c => Z.lor (Z.land (read_u32 c (Z.land offset (unot u64_max 3))).2 (unot u32_max mask)) (Z.land v mask)) Hp). lia.
Qed.

(** A dword beyond the 256 bytes: the writable bits are looked up out of range. *)
Lemma write_u32_beyond c bus offset v : cfg_ok c -> 256 <= offset -> write_u32 offset v (c, bus) = Panic.
Proof.
  intros Hok Ho. unfold write_u32, cfg. rewrite run_gets. cbn [fst]. unfold id.
  assert (64 <= Z.shiftr offset 2).
  { rewrite Z.shiftr_div_pow2 by lia. change (2 ^ 2) with 4. apply Z.div_le_lower_bound; lia. }
  apply run_panic_bind. unfold at_index. destruct (ok_wbits _ Hok) as [-> _]. by destruct (Z.ltb_spec (Z.shiftr offset 2) (Z.of_nat 64)); [lia|].
Qed.

(** That is the only write of a configuration space without BARs and capabilities
    that panics. *)
Lemma plain_write_config c bus offset data :
  plain c -> 0 <= offset ->
  if (2 <=? trailing_zeros offset) && Nat.eqb (length data) 4 && (256 <=? offset)
  then write_config offset data (c, bus) = Panic
  else exists r c', write_config offset data (c, bus) = Ret (Ok r, (c', bus)).
Proof.
  intros Hp Ho. unfold write_config.
  destruct ((2 <=? trailing_zeros offset) && Nat.eqb (length data) 4); cbn [andb].
  { destruct (Z.leb_spec 256 offset); [apply run_panic_bind, write_u32_beyond; [apply Hp|done]|].
    destruct (plain_write_u32 c bus offset (le_read data) Hp) as (r & c' & E); [lia|].
    rewrite (run_ok_bind _ _ _ _ _ E). by eexists _, _. }
  branch.
  { destruct (plain_write_u16 c bus offset (le_read data) Hp Ho) as (r & c' & E). rewrite (run_ok_bind _ _ _ _ _ E). by eexists _, _. }
  branch; [|by eexists _, _].
  destruct (plain_write_u8 c bus offset (nth 0 data 0) Hp Ho) as (r & c' & E). rewrite (run_ok_bind _ _ _ _ _ E). by eexists _, _.
Qed.
End plain.

(** * Properties of the PCI root

    The two ways to a configuration space agree, an access reaches one device
    only, and the accesses of the guest to a root bus with the host bridge panic
    for one kind of write only. *)

Section routing.
Context {D : Type} `{PciDevice D}.
Implicit Types (s : PciSystem D).

(** C15: For every bus, device, function and register, writing CONFIG_ADDRESS and
    then accessing the data port at the byte of the register answers the same read
    and does the same write as the access at the offset in the memory window; the
    port mechanism changes only the address register besides. *)
Theorem config_mechanisms_agree s b d f o data :
  address_ok b d f o ->
  exists s1,
    root_pio_write s 0 (le_write 4 (config_address b d f o)) = Ret s1 /\
    root_pio_read s1 (4 + o mod 4) data = root_read s (window_offset b d f o) data /\
    root_pio_write s1 (4 + o mod 4) data =
      (s' ← root_write s (window_offset b d f o) data; Ret (with_addr (config_address b d f o) s')).
Proof.
  intros Ha. exists (with_addr (config_address b d f o) s). split; [by apply set_config_address|].
  split; [by apply data_port_read|by apply data_port_write].
Qed.

(** What one write does on a bus. *)
Lemma bus_write_local d f o data bus store bus' store' :
  bus_write_config d f o data bus store = Ret (bus', store') ->
  bus_devices bus' = bus_devices bus /\
  forall h, store' !! h <> store !! h -> f = 0 /\ it_get (bus_devices bus) (mkRange d d) = Some (Valued h).
Proof.
  unfold bus_write_config. intros (refused & Ec & E)%outcome_bind_Ret. destruct refused; [by injection E as <- <-|].
  apply outcome_bind_Ret in E as (r & Er & E).
  assert (r = mkRange d d) as ->.
  { unfold Range_new in Er. destruct (_ || _); [done|]. by injection Er as <-. }
  destruct (it_get (bus_devices bus) (mkRange d d)) as [[| |h]|] eqn:Eg; try (by injection E as <- <-).
  apply outcome_bind_Ret in E as (dev & _ & E). apply outcome_bind_Ret in E as ([dev' st] & _ & E). injection E as <- <-.
  split; [done|]. intros h' Hne. destruct (decide (h = h')) as [->|]; [|by rewrite lookup_insert_ne in Hne].
  split; [|done]. unfold check_pci_cfg_valid in Ec. destruct (_ || _) eqn:Eo; [done|].
  apply orb_false_iff in Eo as [Eo _]. apply orb_false_iff in Eo as [_ Eo]. by apply negb_false_iff, Z.eqb_eq in Eo.
Qed.

(** An access of the guest to the root device changes no table of devices
    and at most one device: the one in the slot that the access addresses, at
    function 0. *)
Theorem config_access_isolated a s s' :
  root_access a s = Ret s' ->
  buses (sys_root s') = buses (sys_root s) /\
  (forall r, bus_devices <$> sys_buses s' !! r = bus_devices <$> sys_buses s !! r) /\
  (forall h, sys_devs s' !! h <> sys_devs s !! h ->
     exists b d o, is_write a = true /\ target a s = Some (b, d, 0, o) /\ device_at s b d = Some h).
Proof.
  intros Hrun. destruct (is_write a) eqn:Ew; [|by apply read_access_same in Hrun as ->].
  pose proof (write_access a s Ew) as Ha. destruct (target a s) as [[[[b d] f] o]|].
  2: { destruct Ha as [x Hx]. rewrite Hx in Hrun. by injection Hrun as <-. }
  rewrite Ha in Hrun. unfold write_at, find_bus in Hrun. unfold device_at, find_bus.
  destruct (buses (sys_root s) !! b) as [r|] eqn:Eb; [|by injection Hrun as <-].
  destruct (sys_buses s !! r) as [bus|] eqn:Er; [|by injection Hrun as <-]. cbn in Hrun.
  apply outcome_bind_Ret in Hrun as ([bus' devs] & Ew' & [= <-]). apply bus_write_local in Ew' as [Hd Hs]. cbn.
  split; [done|]. split.
  - intros r'. destruct (decide (r = r')) as [<-|]; [|by rewrite lookup_insert_ne].
    rewrite lookup_insert_eq, Er. cbn. by rewrite Hd.
  - intros h Hne. destruct (Hs h Hne) as [-> Hg]. exists b, d, o. rewrite Eb. cbn. rewrite Er. cbn. by rewrite Hg.
Qed.
End routing.

(** ** The root bus with the host bridge *)

Definition access_ok (a : RootAccess) : Prop :=
  match a with
  | PioRead offset data | PioWrite offset data | MmioRead offset data | MmioWrite offset data =>
      0 <= offset /\ Forall (fun b => 0 <= b < 256) data
  end.

(** The root device, the root bus at number 0 and the host bridge, after any
    accesses of the guest. *)
Inductive host_reachable : PciSystem PciHostBridge -> Prop :=
| host_start max_id res root0 root bus bridge bref dref :
    root_create max_id res = Ret (Ok root0) ->
    create_pci_root_bus 0 dref = Ret (Ok (bus, bridge)) ->
    add_bus bref 0 root0 = Ok root ->
    host_reachable (mkSystem root {[bref := bus]} {[dref := bridge]})
| host_step a s s' : host_reachable s -> access_ok a -> root_access a s = Ret s' -> host_reachable s'.

(** A dword write to the host bridge beyond the 256 bytes. *)
Definition extended_write (a : RootAccess) (s : PciSystem PciHostBridge) : bool :=
  is_write a && Nat.eqb (length (access_data a)) 4 &&
  match target a s with
  | Some (b, d, f, o) => (b =? 0) && (d =? 0) && (f =? 0) && (256 <=? o)
  | None => false
  end.

(** The slots of the root bus. *)
Definition host_slots (dref : nat) : IntervalTree nat :=
  mkIntervalTree (Node (mkRange 0 0) (Valued dref) Leaf (Node (mkRange 1 31) Free Leaf Leaf 1 31) 2 31).

Lemma host_slot dref d :
  0 <= d < 32 -> match it_get (host_slots dref) (mkRange d d) with
                 | Some (Valued h) => d = 0 /\ h = dref
                 | _ => d <> 0
                 end.
Proof.
  intros Hd. assert (d = 0 \/ d <> 0) as [->|Hne] by lia; [done|].
  unfold it_get, host_slots. cbn [root search]. unfold Range_cmp. cbn [r_min r_max].
  destruct (Z.compare_spec 0 d); try lia. destruct (Z.compare_spec 1 d); try done.
  destruct (Z.compare_spec 31 d); subst; done.
Qed.

Record host_ok (bref dref : nat) (s : PciSystem PciHostBridge) : Prop := {
  ho_buses : buses (sys_root s) = {[0 := bref]};
  ho_bus : exists bus, sys_buses s = {[bref := bus]} /\ bus_devices bus = host_slots dref;
  ho_dev : exists bridge, sys_devs s = {[dref := bridge]} /\ plain (hb_config bridge);
}.

Lemma fresh_plain (c : PciConfiguration Vp2pCap) :
  PciConfiguration_new (fun c => c) VENDOR_ID_INTEL DEVICE_ID_INTEL_VIRT_PCIE_HOST BridgeDevice 0x00 None HeaderDevice 0 0 None
    = Ret (Ok c) -> plain c.
Proof.
  intros E. split.
  - by apply (configuration_new_ok _ _ _ _ _ _ _ _ _ _) in E; [|ulia..].
  - vm_compute in E. injection E as <-. intros i Hi. unfold bar. cbn [bars].
    by apply (nth_Forall (fun b => b_type b = None)); [repeat constructor|].
  - vm_compute in E. by injection E as <-.
Qed.
Lemma host_start_ok max_id res root0 root bus bridge bref dref :
  root_create max_id res = Ret (Ok root0) -> create_pci_root_bus 0 dref = Ret (Ok (bus, bridge)) ->
  add_bus bref 0 root0 = Ok root -> host_ok bref dref (mkSystem root {[bref := bus]} {[dref := bridge]}).
Proof.
  intros Hr Hb Ha. split; cbn.
  - unfold add_bus in Ha. destruct (_ <? _); [done|]. injection Ha as <-. cbn.
    assert (buses root0 = ∅) as ->; [|done]. unfold root_create in Hr.
    apply outcome_bind_Ret in Hr as ([ports|e] & _ & Hr); [|done]. apply outcome_bind_Ret in Hr as ([mmio|e] & _ & Hr); [|done].
    destruct ports, mmio as [[mb ms]|]; cbn in Hr; by inv Hr.
  - exists bus. split; [done|]. vm_compute in Hb. by injection Hb as <- _.
  - exists bridge. split; [done|]. vm_compute in Hb. injection Hb as _ <-. apply fresh_plain. by vm_compute.
Qed.

(** The check of the bus passes what the root device lets through. *)
Lemma cfg_valid b d f o len :
  address_ok b d f o -> check_alignment_valid len o = true -> check_pci_cfg_valid d f o len = Ret (negb (f =? 0)).
Proof.
  intros (_ & Hd & Hf & Ho) Hal. unfold check_alignment_valid in Hal. apply andb_true_iff in Hal as [Hlen Hal].
  unfold check_pci_cfg_valid. destruct (Z.ltb_spec 0x1f d); [lia|]. destruct (Z.leb_spec 0x1000 o); [lia|].
  rewrite orb_false_r. cbn [orb]. destruct (Z.eqb_spec f 0); cbn [negb]; [|done]. zbool.
  assert (len = 4 \/ len = 2 \/ len = 1) as El.
  { apply orb_true_iff in Hlen as [[Hlen|Hlen]%orb_true_iff|Hlen]; zbool; auto. }
  unfold usub. destruct (Z.leb_spec 1 len); [|lia]. cbn [mbind outcome_bind]. rewrite as_u32_id by ulia. by rewrite Hal.
Qed.

Lemma aligned_dword o : 0 <= o -> check_alignment_valid 4 o = true -> (2 <=? trailing_zeros o) = true.
Proof.
  intros Ho Hal. rewrite trailing_zeros_spec by lia. unfold check_alignment_valid in Hal. cbn [Z.eqb Pos.eqb orb andb] in Hal.
  change (4 - 1) with (Z.ones 2) in Hal. by rewrite Z.land_ones in Hal by lia.
Qed.

(** One write on the root bus. *)
Lemma host_bus_write dref bus bridge b d f o data :
  bus_devices bus = host_slots dref -> plain (hb_config bridge) ->
  address_ok b d f o -> check_alignment_valid (Z.of_nat (length data)) o = true -> Forall (fun x => 0 <= x < 256) data ->
  if Nat.eqb (length data) 4 && ((d =? 0) && (f =? 0) && (256 <=? o))
  then bus_write_config d f o data bus {[dref := bridge]} = Panic
  else exists bus' bridge', bus_write_config d f o data bus {[dref := bridge]} = Ret (bus', {[dref := bridge']}) /\
         bus_devices bus' = host_slots dref /\ plain (hb_config bridge').
Proof.
  intros Hdevs Hpl Ha Hal Hdata. pose proof Ha as (_ & Hd & Hf & Ho). unfold bus_write_config.
  rewrite (cfg_valid b) by done. cbn [mbind outcome_bind]. destruct (Z.eqb_spec f 0) as [->|]; cbn [negb].
  2: { rewrite andb_false_r, andb_false_l, andb_false_r. by exists bus, bridge. }
  unfold Range_new. destruct ((d <? d) || ((d =? 0) && (d =? u64_max))) eqn:Er.
  { apply orb_true_iff in Er as [Er|Er]; [zbool; lia|]. apply andb_true_iff in Er as [E1 E2]. zbool. subst. done. }
  cbn [mbind outcome_bind]. rewrite Hdevs. pose proof (host_slot dref d Hd) as Hs.
  destruct (it_get (host_slots dref) (mkRange d d)) as [[| |h]|].
  1,2,4: destruct (Z.eqb_spec d 0); [done|]; rewrite !andb_false_l, andb_false_r; by exists bus, bridge.
  destruct Hs as [-> ->]. rewrite lookup_singleton_eq. cbn [unwrap mbind outcome_bind pci_write_config host_bridge_device fst snd].
  unfold config_write. cbn [fst snd Z.eqb andb].
  pose proof (plain_write_config (hb_config bridge) (Some (bus_state bus)) o data Hpl ltac:(lia)) as Hw.
  assert ((2 <=? trailing_zeros o) && (length data =? 4)%nat = (length data =? 4)%nat) as El.
  { destruct (Nat.eqb_spec (length data) 4) as [E|]; [|apply andb_false_r]. rewrite E in Hal.
    by rewrite (aligned_dword o ltac:(lia) Hal). }
  rewrite El in Hw. destruct ((length data =? 4)%nat && (256 <=? o)); [by rewrite Hw|].
  destruct Hw as (r & c' & Hw). rewrite Hw. cbn [mbind outcome_bind unwrap]. eexists _, (mkHostBridge _ c').
  split; [by rewrite insert_singleton_eq|]. split; [done|]. cbn [hb_config].
  apply (plain_step _ _ Hpl). by apply (guest_write_config o data ltac:(lia) Hdata) in Hw.
Qed.

Lemma host_bus_read dref bus bridge b d f o data :
  bus_devices bus = host_slots dref -> address_ok b d f o -> check_alignment_valid (Z.of_nat (length data)) o = true ->
  exists data', bus_read_config d f o data bus {[dref := bridge]} = Ret data'.
Proof.
  intros Hdevs Ha Hal. pose proof Ha as (_ & Hd & Hf & Ho). unfold bus_read_config.
  rewrite (cfg_valid b) by done. cbn [mbind outcome_bind]. destruct (negb (f =? 0)); [by eexists|].
  unfold Range_new. destruct ((d <? d) || ((d =? 0) && (d =? u64_max))) eqn:Er.
  { apply orb_true_iff in Er as [Er|Er]; [zbool; lia|]. apply andb_true_iff in Er as [E1 E2]. zbool. subst. done. }
  cbn [mbind outcome_bind]. rewrite Hdevs. pose proof (host_slot dref d Hd) as Hs.
  destruct (it_get (host_slots dref) (mkRange d d)) as [[| |h]|]; try by eexists.
  destruct Hs as [-> ->]. rewrite lookup_singleton_eq. by eexists.
Qed.

Lemma host_read bref dref s a :
  host_ok bref dref s -> is_write a = false -> exists s', root_access a s = Ret s'.
Proof.
  intros [Hbs (bus & Ebus & Hdevs) (bridge & Edev & Hpl)] Hw.
  assert (forall b d f o data, address_ok b d f o -> check_alignment_valid (Z.of_nat (length data)) o = true ->
    exists x, default (Ret (fill_config_data data)) (read_at s b d f o data) = Ret x) as Hread.
  { intros b d f o data Ha Hal. unfold read_at, find_bus. rewrite Hbs.
    destruct (decide (b = 0)) as [->|]; [|rewrite lookup_singleton_ne by done; by eexists].
    rewrite lookup_singleton_eq, Ebus, lookup_singleton_eq, Edev. cbn. by eapply host_bus_read. }
  pose proof (fun b d f o => target_range a s b d f o) as Ht.
  destruct a as [offset data| |offset data|]; try done; cbn [root_access target access_data] in *.
  - unfold root_pio_read. destruct (check_alignment_valid _ offset); cbn [negb andb] in *; [|by eexists].
    destruct (Z.leb_spec offset 3), (Z.ltb_spec 3 offset); try lia; [by eexists|]. cbn [andb] in *.
    destruct (offset <=? 7); cbn [andb] in *; [|by eexists]. destruct (negb _); [|by eexists].
    destruct (parse_ioport_address _) as [[[b d] f] o]. destruct (Ht _ _ _ _ eq_refl) as [Ha Hal].
    destruct (Hread _ _ _ _ data Ha Hal) as [x ->]. by eexists.
  - unfold root_read. destruct (check_alignment_valid _ offset); [|by eexists].
    destruct (parse_mmio_address offset) as [[[b d] f] o]. destruct (Ht _ _ _ _ eq_refl) as [Ha Hal].
    destruct (Hread _ _ _ _ data Ha Hal) as [x ->]. by eexists.
Qed.

Lemma host_access bref dref s a :
  host_ok bref dref s -> access_ok a ->
  if extended_write a s then root_access a s = Panic
  else exists s', root_access a s = Ret s' /\ host_ok bref dref s'.
Proof.
  intros Hok Ha. unfold extended_write. destruct (is_write a) eqn:Ew.
  2: { destruct (host_read _ _ _ a Hok Ew) as [s' E]. exists s'. split; [done|]. by apply read_access_same in E as ->. }
  cbn [andb]. pose proof (write_access a s Ew) as Hw. pose proof (target_range a s) as Ht.
  pose proof Hok as [Hbs (bus & Ebus & Hdevs) (bridge & Edev & Hpl)].
  destruct (target a s) as [[[[b d] f] o]|].
  2: { destruct Hw as [x Hx]. rewrite andb_false_r. eexists. split; [done|]. split; [done|by exists bus|by exists bridge]. }
  destruct (Ht b d f o eq_refl) as [Hadr Hal]. rewrite Hw. unfold write_at, find_bus. rewrite Hbs.
  assert (Forall (fun x => 0 <= x < 256) (access_data a)) as Hdata by (destruct a; apply Ha).
  destruct (Z.eqb_spec b 0) as [->|].
  2: { rewrite !andb_false_l, andb_false_r, lookup_singleton_ne by done. by exists s. }
  rewrite lookup_singleton_eq, Ebus, lookup_singleton_eq, Edev. cbn [fmap option_fmap option_map default].
  pose proof (host_bus_write dref bus bridge 0 d f o (access_data a) Hdevs Hpl Hadr Hal Hdata) as Hbw.
  rewrite andb_true_l. destruct (_ && _); [by cbn; rewrite Hbw|].
  destruct Hbw as (bus' & bridge' & Hbw & Hdevs' & Hpl'). cbn. rewrite Hbw. cbn. eexists. split; [done|].
  split; cbn; [done| |by exists bridge']. exists bus'. split; [by rewrite insert_singleton_eq|done].
Qed.

Lemma host_reachable_ok s : host_reachable s -> exists bref dref, host_ok bref dref s.
Proof.
  induction 1 as [max_id res root0 root bus bridge bref dref Hr Hb Ha|a s s' _ (bref & dref & IH) Ha Hs].
  - exists bref, dref. by eapply host_start_ok.
  - exists bref, dref. pose proof (host_access _ _ _ a IH Ha) as H. destruct (extended_write a s); [congruence|].
    destruct H as (s1 & E & H). congruence.
Qed.

(** C26: On a root bus with the host bridge, from every state that accesses of
    the guest lead to, an access panics exactly when it is a write of four bytes
    to the host bridge at an offset of 256 or more. *)
Theorem host_bridge_panics_exactly s a :
  host_reachable s -> access_ok a -> root_access a s = Panic <-> extended_write a s = true.
Proof.
  intros (bref & dref & Hok)%host_reachable_ok Ha. pose proof (host_access _ _ _ a Hok Ha) as H.
  destruct (extended_write a s); [done|]. destruct H as (s' & E & _). split; congruence.
Qed.

(** ** Witnesses *)

Definition demo_root0 : PciRootDevice :=
  Eval vm_compute in
  match root_create 0 (mkDeviceResources [PioAddressRange 0xcf8 8; MmioAddressRange 0xe0000000 0x1000000]) with
  | Ret (Ok r) => r
  | _ => mkRoot 0 0 0 0 dr_new 0 ∅
  end.
Definition demo_root : PciRootDevice := match add_bus 3 0 demo_root0 with Ok r => r | Err _ => demo_root0 end.
Definition demo_host : option (PciBus * PciHostBridge) :=
  Eval vm_compute in match create_pci_root_bus 0 7 with Ret (Ok p) => Some p | _ => None end.
Definition demo_system : PciSystem PciHostBridge :=
  match demo_host with
  | Some (bus, bridge) => mkSystem demo_root {[3%nat := bus]} {[7%nat := bridge]}
  | None => mkSystem demo_root ∅ ∅
  end.
(** CONFIG_ADDRESS selects the dword at 0x104 of the host bridge. *)
Definition demo_selected : PciSystem PciHostBridge := with_addr (config_address 0 0 0 0x104) demo_system.

Lemma demo_reachable : host_reachable demo_system.
Proof.
  apply (host_start 0 (mkDeviceResources [PioAddressRange 0xcf8 8; MmioAddressRange 0xe0000000 0x1000000]) demo_root0);
    by vm_compute.
Defined.

Lemma config_mechanisms_agree_witness :
  exists s1, root_pio_write demo_system 0 (le_write 4 (config_address 0 0 0 2)) = Ret s1 /\
    root_pio_read s1 6 [0; 0] = Ret [0x57; 0x0d].
Proof.
  destruct (config_mechanisms_agree demo_system 0 0 0 2 [0; 0]) as (s1 & H1 & H2 & _); [by repeat split|].
  exists s1. split; [exact H1|]. change 6 with (4 + 2 mod 4). rewrite H2. by vm_compute.
Defined.

Lemma config_access_isolated_witness :
  exists s', root_access (MmioWrite 4 [7; 0; 0; 0]) demo_system = Ret s' /\ buses (sys_root s') = {[0 := 3%nat]}.
Proof.
  eexists. split; [by vm_compute|].
  destruct (config_access_isolated (MmioWrite 4 [7; 0; 0; 0]) demo_system _ ltac:(by vm_compute)) as [H _]. exact H.
Defined.

Lemma host_bridge_panics_exactly_witness :
  extended_write (PioWrite 4 [0; 0; 0; 0]) demo_selected = true /\
  root_access (PioWrite 4 [0; 0; 0; 0]) demo_selected = Panic.
Proof.
  split; [by vm_compute|]. apply (host_bridge_panics_exactly demo_selected (PioWrite 4 [0; 0; 0; 0])); [|cbn|by vm_compute].
  - apply (host_step (PioWrite 0 (le_write 4 (config_address 0 0 0 0x104))) demo_system); [apply demo_reachable| |by vm_compute].
    split; [lia|]. repeat constructor; vm_compute; done.
  - split; [lia|]. repeat constructor; lia.
Defined.
