(* ===== verification/MsixFacts.v ===== *)
(** * MSI-X over KVM: lemmas

    What KVM promises about event files and routes, and what the methods of an
    MSI group and of the interrupt manager of a device do to them when they
    succeed. *)
From S2P Require Import Prelude Bits DeviceResources Effects InterruptManager PciConfig PciMsi KvmIrq.

(** The documented behaviour of the calls on KVM that succeed: the event files
    that are bound to interrupts, and the routes.  Setting the routes does not
    fail with [EEXIST], and a new event file is not bound. *)
Class KvmIrqLaws (K : Type) `{KvmIrqOps K} := {
  bound : K -> gset (nat * Z);
  kvm_routes : K -> gmap Z RoutingEntry;
  register_ok fd gsi k k' :
    register_irqfd fd gsi k = (Ok tt, k') -> bound k' = {[(fd, gsi)]} ∪ bound k /\ kvm_routes k' = kvm_routes k;
  unregister_ok fd gsi k k' :
    unregister_irqfd fd gsi k = (Ok tt, k') -> bound k' = bound k ∖ {[(fd, gsi)]} /\ kvm_routes k' = kvm_routes k;
  routing_ok r k k' : set_gsi_routing r k = (Ok tt, k') -> kvm_routes k' = r /\ bound k' = bound k;
  routing_err r k k' : set_gsi_routing r k = (Err EEXIST, k') -> False;
  efd_fresh k fd k' :
    efd_new k = (fd, k') -> (forall gsi, (fd, gsi) ∉ bound k) /\ bound k' = bound k /\ kvm_routes k' = kvm_routes k;
}.

(** A loop over a list with its indices. *)
Lemma wp_indexed_from {S E A} (F : Z * A -> eff S E unit) (l : list A) (I : nat -> S -> Prop) k s :
  (forall i a s, l !! i = Some a -> I (k + i)%nat s ->
     wp (F (Z.of_nat (k + i), a)) (fun r s' => r = Ok tt -> I (Datatypes.S (k + i)) s') s) ->
  I k s ->
  wp (for_each F (imap (fun i e => (Z.of_nat (k + i), e)) l)) (fun r s' => r = Ok tt -> I (k + length l)%nat s') s.
Proof.
  revert k s. induction l as [|a l IH]; intros k s HF HI.
  - apply wp_ret. intros _. by rewrite Nat.add_0_r.
  - cbn [imap for_each length]. apply wp_bind. pose proof (HF 0%nat a s eq_refl) as H0. rewrite !Nat.add_0_r in *.
    eapply wp_mono; [by apply H0|]. intros [[]|e] s1 H1; [|done]. specialize (H1 eq_refl).
    replace (k + Datatypes.S (length l))%nat with (Datatypes.S k + length l)%nat by lia.
    rewrite (imap_ext _ (fun i e => (Z.of_nat (Datatypes.S k + i), e))).
    2: { intros i e _. cbn. by replace (k + Datatypes.S i)%nat with (Datatypes.S (k + i)) by lia. }
    apply IH; [|done]. intros i a' s2 Ha HI2. pose proof (HF (Datatypes.S i) a' s2 Ha) as H2.
    replace (k + Datatypes.S i)%nat with (Datatypes.S k + i)%nat in H2 by lia. by apply H2.
Qed.

Lemma wp_indexed {S E} (F : Z * MsixTableEntry -> eff S E unit) (l : list MsixTableEntry) (I : nat -> S -> Prop) s :
  (forall i a s, l !! i = Some a -> I i s -> wp (F (Z.of_nat i, a)) (fun r s' => r = Ok tt -> I (Datatypes.S i) s') s) ->
  I 0%nat s -> wp (for_each F (indexed l)) (fun r s' => r = Ok tt -> I (length l) s') s.
Proof. apply (wp_indexed_from F l I 0 s). Qed.

Lemma at_index_nat {A} (l : list A) (i : nat) : at_index l (Z.of_nat i) = l !! i.
Proof.
  unfold at_index. rewrite Nat2Z.id. destruct (Z.ltb_spec (Z.of_nat i) (Z.of_nat (length l))); [done|].
  symmetry. apply lookup_ge_None. lia.
Qed.

(** ** The bytes of a table entry *)

Definition entry_ok (e : MsixTableEntry) : Prop :=
  in_u32 (msg_addr_lo e) /\ in_u32 (msg_addr_hi e) /\ in_u32 (msg_data e) /\ in_u32 (vector_ctl e).

Lemma entry_bytes_length e : length (entry_bytes e) = 16%nat.
Proof. unfold entry_bytes. by rewrite !length_app, !le_write_length. Qed.

Lemma le_read_write4 v : in_u32 v -> le_read (le_write 4 v) = v.
Proof. intros. apply le_read_write. cbn. ulia. Qed.

Lemma entry_roundtrip e : entry_ok e -> entry_of_bytes (entry_bytes e) = e.
Proof.
  intros (H1 & H2 & H3 & H4). unfold entry_of_bytes, entry_bytes. destruct e as [lo hi dt ctl]. cbn [msg_addr_lo msg_addr_hi msg_data vector_ctl] in *.
  f_equal; rewrite <- le_read_write4 by done; f_equal; cbn; done.
Qed.

Lemma splice_before l at_ data k m :
  (k + m <= at_)%nat -> (at_ <= length l)%nat -> take m (drop k (splice l at_ data)) = take m (drop k l).
Proof.
  intros Hk Hl. unfold splice. rewrite drop_app_le by (rewrite length_take; lia).
  rewrite take_app_le by (rewrite length_drop, length_take; lia). rewrite !take_drop_commute, take_take. f_equal. f_equal. lia.
Qed.

Lemma splice_after l at_ data k m :
  (at_ + length data <= k)%nat -> (at_ <= length l)%nat -> take m (drop k (splice l at_ data)) = take m (drop k l).
Proof.
  intros Hk Hl. unfold splice. f_equal. rewrite drop_app_ge by (rewrite length_take; lia).
  rewrite drop_app_ge by (rewrite length_take; lia). rewrite drop_drop, length_take. f_equal. lia.
Qed.

Lemma splice_bytes l at_ data :
  Forall (fun b => 0 <= b < 256) l -> Forall (fun b => 0 <= b < 256) data -> Forall (fun b => 0 <= b < 256) (splice l at_ data).
Proof. intros Hl Hd. unfold splice. rewrite !Forall_app. split_and!; [by apply Forall_take|done|by apply Forall_drop]. Qed.

Lemma le_write_bytes k v : Forall (fun b => 0 <= b < 256) (le_write k v).
Proof. revert v. induction k; intros v; cbn; constructor; [apply Z.mod_pos_bound; lia|done]. Qed.

Lemma entry_bytes_bytes e : Forall (fun b => 0 <= b < 256) (entry_bytes e).
Proof. unfold entry_bytes. rewrite !Forall_app. split_and!; apply le_write_bytes. Qed.

Lemma le_read_take4 l : Forall (fun b => 0 <= b < 256) l -> in_u32 (le_read (take 4 l)).
Proof.
  intros Hl. pose proof (le_read_bound (take 4 l) (Forall_take _ _ _ Hl)) as H. rewrite length_take in H.
  assert (2 ^ (8 * Z.of_nat (4 `min` length l)) <= 2 ^ 32) by (apply Z.pow_le_mono_r; lia). ulia.
Qed.

Lemma entry_of_bytes_ok l : Forall (fun b => 0 <= b < 256) l -> entry_ok (entry_of_bytes l).
Proof. intros Hl. split_and!; cbn; apply le_read_take4; repeat apply Forall_drop; done. Qed.

(** A write to a part of an entry. *)
Definition written_entry (old : MsixTableEntry) (modulo : Z) (data : list Z) : MsixTableEntry :=
  entry_of_bytes (splice (entry_bytes old) (Z.to_nat modulo) data).

Lemma written_entry_ok old modulo data : Forall (fun b => 0 <= b < 256) data -> entry_ok (written_entry old modulo data).
Proof. intros Hd. apply entry_of_bytes_ok, splice_bytes; [apply entry_bytes_bytes|done]. Qed.

Lemma written_message old modulo data :
  entry_ok old -> 12 <= modulo <= 16 ->
  msg_addr_lo (written_entry old modulo data) = msg_addr_lo old /\ msg_addr_hi (written_entry old modulo data) = msg_addr_hi old /\
  msg_data (written_entry old modulo data) = msg_data old.
Proof.
  intros Hok Hm. rewrite <- (entry_roundtrip old Hok) at 2 4 6. unfold written_entry, entry_of_bytes.
  cbn [msg_addr_lo msg_addr_hi msg_data].
  change (take 4 (splice ?l ?a ?d)) with (take 4 (drop 0 (splice l a d))).
  rewrite !splice_before by (rewrite ?entry_bytes_length; lia). done.
Qed.

Lemma written_ctl old modulo data :
  entry_ok old -> 0 <= modulo -> modulo + Z.of_nat (length data) <= 12 ->
  vector_ctl (written_entry old modulo data) = vector_ctl old.
Proof.
  intros Hok Hm Hl. rewrite <- (entry_roundtrip old Hok) at 2. unfold written_entry, entry_of_bytes. cbn [vector_ctl].
  rewrite splice_after by (rewrite ?entry_bytes_length; lia). done.
Qed.

Section facts.
Context {K : Type} `{HK : KvmIrqOps K} {LK : KvmIrqLaws K}.
Implicit Types (w : KvmWorld K).

(** ** The world of KVM *)

(** KVM knows the routes of the table. *)
Definition synced w : Prop := kvm_routes (kvm w) = routes w.

(** Nothing but the bindings changed. *)
Definition same_routes w w' : Prop := routes w' = routes w /\ kvm_routes (kvm w') = kvm_routes (kvm w).

Lemma bind_ok fd gsi w w' :
  bind_irqfd fd gsi w = (Ok tt, w') -> same_routes w w' /\ bound (kvm w') = {[(fd, gsi)]} ∪ bound (kvm w).
Proof.
  unfold bind_irqfd, vm. destruct (register_irqfd fd gsi (kvm w)) as [r k'] eqn:E. intros [= -> <-].
  apply register_ok in E as [E1 E2]. by repeat split.
Qed.
Lemma unbind_ok fd gsi w w' :
  unbind_irqfd fd gsi w = (Ok tt, w') -> same_routes w w' /\ bound (kvm w') = bound (kvm w) ∖ {[(fd, gsi)]}.
Proof.
  unfold unbind_irqfd, vm. destruct (unregister_irqfd fd gsi (kvm w)) as [r k'] eqn:E. intros [= -> <-].
  apply unregister_ok in E as [E1 E2]. by repeat split.
Qed.

(** All event files of a group. *)
Lemma seq_io_ok {A B} (m : KvmWorld K -> result errno A * KvmWorld K) (f : A -> KvmWorld K -> result errno B * KvmWorld K) w b w' :
  seq_io m f w = (Ok b, w') -> exists a w1, m w = (Ok a, w1) /\ f a w1 = (Ok b, w').
Proof. unfold seq_io. destruct (m w) as [[a|e] w1]; [|done]. eauto. Qed.

Lemma bind_all_ok gsi fds w w' :
  for_irqfds bind_irqfd gsi fds w = (Ok tt, w') ->
  same_routes w w' /\
  forall p, p ∈ bound (kvm w') <-> p ∈ bound (kvm w) \/ exists i fd, fds !! i = Some fd /\ p = (fd, gsi + Z.of_nat i).
Proof.
  revert gsi w. induction fds as [|fd fds IH]; intros gsi w; cbn [for_irqfds].
  - intros [= <-]. split; [done|]. intros p. split; [by left|]. intros [|(i & fd & Hi & _)]; done.
  - intros ([] & w1 & E1 & E2)%seq_io_ok. apply bind_ok in E1 as [[R1 R2] B1]. destruct (IH _ _ E2) as [[R3 R4] B2].
    split; [split; congruence|]. intros p. rewrite B2, B1, elem_of_union, elem_of_singleton. split.
    + intros [[->|]|(i & fd' & Hi & ->)]; [right; exists 0%nat, fd|by left|right; exists (S i), fd'];
        (split; [done|]); f_equal; lia.
    + intros [|([|i] & fd' & Hi & ->)]; [by left; right|left; left|right; exists i, fd'].
      * injection Hi as ->. f_equal. lia.
      * split; [done|]. f_equal. lia.
Qed.

Lemma unbind_all_ok gsi fds w w' :
  for_irqfds unbind_irqfd gsi fds w = (Ok tt, w') ->
  same_routes w w' /\
  forall p, p ∈ bound (kvm w') <-> p ∈ bound (kvm w) /\ ~ exists i fd, fds !! i = Some fd /\ p = (fd, gsi + Z.of_nat i).
Proof.
  revert gsi w. induction fds as [|fd fds IH]; intros gsi w; cbn [for_irqfds].
  - intros [= <-]. split; [done|]. intros p. split; [|tauto]. intros Hp. split; [done|]. intros (i & fd & Hi & _). done.
  - intros ([] & w1 & E1 & E2)%seq_io_ok. apply unbind_ok in E1 as [[R1 R2] B1]. destruct (IH _ _ E2) as [[R3 R4] B2].
    split; [split; congruence|]. intros p. rewrite B2, B1, elem_of_difference, elem_of_singleton. split.
    + intros [[Hp Hne] Hn]. split; [done|]. intros ([|i] & fd' & Hi & ->).
      * apply Hne. injection Hi as ->. f_equal. lia.
      * apply Hn. exists i, fd'. split; [done|]. f_equal. lia.
    + intros [Hp Hn]. split; [split; [done|]|].
      * intros ->. apply Hn. exists 0%nat, fd. split; [done|]. f_equal. lia.
      * intros (i & fd' & Hi & ->). apply Hn. exists (S i), fd'. split; [done|]. f_equal. lia.
Qed.

(** ** Routes of messages *)

Definition msi_key (gsi : Z) : Z := Z.lor (Z.shiftl KVM_IRQ_ROUTING_MSI 32) gsi.

Lemma hash_key_msi gsi c : hash_key (new_msi_routing_entry gsi c) = msi_key gsi.
Proof. done. Qed.

Lemma msi_key_inj a b : 0 <= a < 2 ^ 32 -> 0 <= b < 2 ^ 32 -> msi_key a = msi_key b -> a = b.
Proof. intros Ha Hb. unfold msi_key. rewrite !lor_shiftl_add by lia. lia. Qed.

Lemma msi_entries_lookup gsi configs l :
  msi_entries gsi configs = Ok l ->
  length l = length configs /\
  forall i e, l !! i = Some e -> exists c, configs !! i = Some (MsiIrqConfig c) /\ e = new_msi_routing_entry (gsi + Z.of_nat i) c.
Proof.
  revert gsi l. induction configs as [|[|c] configs IH]; intros gsi l; cbn [msi_entries]; [by intros [= <-]|done|].
  destruct (msi_entries (gsi + 1) configs) as [l'|] eqn:E; [|done]. intros [= <-]. destruct (IH _ _ E) as [Hl Hi].
  split; [cbn; by rewrite Hl|]. intros [|i] e He.
  - injection He as <-. exists c. split; [done|]. f_equal. lia.
  - destruct (Hi i e He) as (c' & Hc & ->). exists c'. split; [done|]. f_equal. lia.
Qed.

Lemma foldl_insert_other (l : list RoutingEntry) (r : gmap Z RoutingEntry) k :
  (forall e, e ∈ l -> hash_key e <> k) -> foldl (fun r e => insert_route e r) r l !! k = r !! k.
Proof.
  revert r. induction l as [|e l IH]; intros r Hl; cbn [foldl]; [done|].
  rewrite IH by (intros; apply Hl; by right). unfold insert_route. rewrite lookup_insert_ne; [done|]. apply Hl. left.
Qed.

Lemma foldl_insert_at (l : list RoutingEntry) (r : gmap Z RoutingEntry) i e :
  l !! i = Some e -> (forall j e', l !! j = Some e' -> hash_key e' = hash_key e -> j = i) ->
  foldl (fun r e => insert_route e r) r l !! hash_key e = Some e.
Proof.
  revert r i. induction l as [|e' l IH]; intros r i Hi Hinj; [done|]. cbn [foldl]. destruct i as [|i].
  - injection Hi as ->. rewrite foldl_insert_other; [unfold insert_route; by rewrite lookup_insert_eq|].
    intros e1 (j & Hj)%list_elem_of_lookup E. by apply (Hinj (S j)) in E.
  - apply (IH _ i); [done|]. intros j e1 Hj E. assert (S j = S i) by (by apply (Hinj (S j) e1)). lia.
Qed.

Lemma foldl_delete_in (l : list RoutingEntry) (r : gmap Z RoutingEntry) k :
  (exists e, e ∈ l /\ hash_key e = k) \/ r !! k = None -> foldl (fun r e => delete (hash_key e) r) r l !! k = None.
Proof.
  revert r. induction l as [|e l IH]; intros r H; cbn [foldl].
  - destruct H as [(e & He & _)|]; [by apply not_elem_of_nil in He|done].
  - apply IH. destruct H as [(e' & He & <-)|H].
    + apply elem_of_cons in He as [->|He]; [right; apply lookup_delete_eq|left; eauto].
    + right. by rewrite lookup_delete_None; right.
Qed.

Lemma check_routes_ok l (r : gmap Z RoutingEntry) :
  (forall e, e ∈ l -> r_gsi e < MAX_IRQS /\ r !! hash_key e = None) -> check_routes l r = Ok tt.
Proof.
  induction l as [|e l IH]; intros Hl; [done|]. cbn [check_routes]. destruct (Hl e) as [Hg Hn]; [left|].
  destruct (Z.leb_spec MAX_IRQS (r_gsi e)); [lia|]. rewrite Hn. apply IH. intros. apply Hl. by right.
Qed.

(** Setting the routes of the table. *)
Lemma set_routing_ok w w' :
  set_routing w = (Ok tt, w') -> routes w' = routes w /\ synced w' /\ bound (kvm w') = bound (kvm w).
Proof.
  unfold set_routing, vm, synced. destruct (set_gsi_routing (routes w) (kvm w)) as [r k'] eqn:E. intros [= -> <-].
  apply routing_ok in E as [E1 E2]. done.
Qed.

(** ** A group of MSI interrupts *)

Section group.
Context (base : Z) (n : nat) (fds : list nat).
Context (Hlen : length fds = n) (Hbase : 0 <= base) (Hmax : base + Z.of_nat n <= MAX_IRQS).

#[local] Abbreviation g := (MsiGroup base (Z.of_nat n) fds).

(** Whether the event file of a vector is bound to its interrupt. *)
Definition bound_at w (i : nat) : Prop := exists fd, fds !! i = Some fd /\ (fd, base + Z.of_nat i) ∈ bound (kvm w).
(** The route of a vector. *)
Definition route_at w (i : nat) : option RoutingEntry := routes w !! msi_key (base + Z.of_nat i).

Lemma key_inj i j : (i < n)%nat -> (j < n)%nat -> msi_key (base + Z.of_nat i) = msi_key (base + Z.of_nat j) -> i = j.
Proof. intros Hi Hj E. apply msi_key_inj in E; lia. Qed.

(** What [enable] does: every vector has its message as its route and is bound. *)
Lemma msi_enable_ok configs w w' :
  synced w -> (forall i, (i < n)%nat -> route_at w i = None) ->
  msi_enable base (Z.of_nat n) fds configs w = (Ok tt, w') ->
  synced w' /\
  forall i, (i < n)%nat -> bound_at w' i /\
    exists c, configs !! i = Some (MsiIrqConfig c) /\ route_at w' i = Some (new_msi_routing_entry (base + Z.of_nat i) c).
Proof.
  intros Hsync Hfree. unfold msi_enable. destruct (Z.eqb_spec (Z.of_nat (length configs)) (Z.of_nat n)) as [El|]; cbn [negb]; [|done].
  unfold create_msi_routing_entries. destruct (checked_add _ _ _); [|done].
  destruct (msi_entries base configs) as [l|] eqn:Em; [|done]. apply msi_entries_lookup in Em as [Hl Hent].
  unfold routing_add. rewrite check_routes_ok.
  2: { intros e (i & Hi)%list_elem_of_lookup. pose proof (lookup_lt_Some _ _ _ Hi). destruct (Hent i e Hi) as (c & _ & ->).
       rewrite hash_key_msi. split; [cbn; lia|]. apply Hfree. lia. }
  set (w0 := put_routes _ w). destruct (set_routing w0) as [[[]|e] w1] eqn:Es.
  - apply set_routing_ok in Es as (R1 & S1 & B1). intros [[R2 R3] B2]%bind_all_ok.
    split; [unfold synced in *; congruence|]. intros i Hi.
    destruct (lookup_lt_is_Some_2 fds i) as [fd Hfd]; [lia|]. destruct (lookup_lt_is_Some_2 l i) as [e He]; [lia|].
    destruct (Hent i e He) as (c & Hc & ->). split.
    + exists fd. split; [done|]. apply B2. right. eauto.
    + exists c. split; [done|]. unfold route_at. rewrite R2, R1. unfold w0. cbn [routes put_routes].
      rewrite <- (hash_key_msi _ c). eapply foldl_insert_at; [exact He|]. intros j e' Hj.
      pose proof (lookup_lt_Some _ _ _ Hj). destruct (Hent j e' Hj) as (c' & _ & ->). rewrite !hash_key_msi. intros E.
      apply key_inj in E; lia.
  - destruct e; try done. unfold set_routing, vm in Es. destruct (set_gsi_routing _ _) as [r k'] eqn:Er. injection Es as -> <-.
    by apply routing_err in Er.
Qed.

(** What [disable] does: no vector has a route or is bound. *)
Lemma msi_disable_ok w w' :
  msi_group_disable base fds w = (Ok tt, w') ->
  synced w' /\ forall i, (i < n)%nat -> ~ bound_at w' i /\ route_at w' i = None.
Proof.
  unfold msi_group_disable. intros ([] & w1 & E1 & E2)%seq_io_ok. apply unbind_all_ok in E1 as [_ B1].
  unfold routing_remove in E2. apply set_routing_ok in E2 as (R2 & S2 & B2). split; [done|]. intros i Hi. split.
  - intros (fd & Hfd & Hb). rewrite B2 in Hb. apply B1 in Hb as [_ Hn]. apply Hn. eauto.
  - unfold route_at. rewrite R2. cbn [routes put_routes]. apply foldl_delete_in. left.
    destruct (lookup_lt_is_Some_2 fds i) as [fd Hfd]; [lia|].
    exists (new_msi_routing_entry (base + Z.of_nat i) (msi_config_of w1 fd)). split; [|done].
    apply list_elem_of_lookup. exists i. rewrite list_lookup_imap, Hfd. done.
Qed.

(** Masking and unmasking one vector. *)
Lemma msix_mask_ok i w w' :
  (i < n)%nat -> kvm_mask unbind_irqfd g (Z.of_nat i) w = (Ok tt, w') ->
  same_routes w w' /\ forall j, bound_at w' j <-> bound_at w j /\ j <> i.
Proof.
  intros Hi. unfold kvm_mask. rewrite at_index_nat. destruct (fds !! i) as [fd|] eqn:Hfd; [|done].
  intros [Hr Hb]%unbind_ok. split; [done|]. intros j. unfold bound_at. rewrite Hb. split.
  - intros (fd' & Hj & [Hin Hne]%elem_of_difference). split; [eauto|]. intros ->. apply Hne, elem_of_singleton. congruence.
  - intros [(fd' & Hj & Hin) Hne]. exists fd'. split; [done|]. apply elem_of_difference. split; [done|].
    intros E%elem_of_singleton. apply Hne. injection E. lia.
Qed.

Lemma unmask_ok i w w' :
  (i < n)%nat -> kvm_mask bind_irqfd g (Z.of_nat i) w = (Ok tt, w') ->
  same_routes w w' /\ forall j, bound_at w' j <-> bound_at w j \/ j = i.
Proof.
  intros Hi. unfold kvm_mask. rewrite at_index_nat. destruct (fds !! i) as [fd|] eqn:Hfd; [|done].
  intros [Hr Hb]%bind_ok. split; [done|]. intros j. unfold bound_at. rewrite Hb. split.
  - intros (fd' & Hj & [E%elem_of_singleton|Hin]%elem_of_union); [right; injection E; lia|left; eauto].
  - intros [(fd' & Hj & Hin)| ->]; [exists fd'|exists fd]; (split; [done|]); apply elem_of_union; [by right|].
    left. by apply elem_of_singleton.
Qed.

(** A new message for one vector. *)
Lemma msi_update_ok i c w w' :
  (i < n)%nat -> msi_update base (Z.of_nat n) fds (Z.of_nat i) (MsiIrqConfig c) w = (Ok tt, w') ->
  synced w' /\ bound (kvm w') = bound (kvm w) /\
  forall j, (j < n)%nat -> route_at w' j =
    if Nat.eqb j i then Some (new_msi_routing_entry (base + Z.of_nat i) c) else route_at w j.
Proof.
  intros Hi. unfold msi_update. rewrite at_index_nat. destruct (fds !! i) as [fd|] eqn:Hfd; [|done].
  unfold routing_modify. case_match; [|done]. intros (R1 & S1 & B1)%set_routing_ok. split; [done|]. split; [done|].
  intros j Hj. unfold route_at. rewrite R1. cbn [routes put_routes put_configs]. unfold insert_route. rewrite hash_key_msi.
  destruct (Nat.eqb_spec j i) as [->|Hne]; [by rewrite lookup_insert_eq|].
  rewrite lookup_insert_ne; [done|]. intros E. apply key_inj in E; lia.
Qed.

(** ** The interrupt manager of the device *)

#[local] Abbreviation Dim := (DeviceInterruptManager KvmGroup).
#[local] Abbreviation dim_eff := (eff (Dim * KvmWorld K) errno).

Lemma wp_sys_call {A} (f : KvmWorld K -> result errno A * KvmWorld K) (Q : result errno A -> Dim * KvmWorld K -> Prop) s :
  (forall r w', f s.2 = (r, w') -> Q r (s.1, w')) -> wp (sys_call f : dim_eff A) Q s.
Proof. intros HQ r s' E. unfold sys_call in E. destruct (f s.2) as [r1 w1] eqn:Ef. injection E as <- <-. by apply HQ. Qed.

(** The message of a table entry in a configuration. *)
Definition has_message (c : MsiIrqSourceConfig) (e : MsixTableEntry) : Prop :=
  high_addr c = msg_addr_hi e /\ low_addr c = msg_addr_lo e /\ msi_data c = msg_data e.

Definition is_msi (c : InterruptSourceConfig) : Prop := match c with MsiIrqConfig _ => True | LegacyIrqConfig => False end.

Lemma msix_update_msi_ok i f s :
  wp (update_msi (Z.of_nat i) f : dim_eff unit) (fun r s' => r = Ok tt ->
    exists c, msi_config s.1 !! i = Some (MsiIrqConfig c) /\
      s' = (set_msi_config (<[i := MsiIrqConfig (f c)]> (msi_config s.1)) s.1, s.2)) s.
Proof.
  unfold update_msi, dim, upd. wp_steps. unfold id. rewrite at_index_nat.
  destruct (msi_config s.1 !! i) as [[|c]|] eqn:E; wp_steps; [done| |done]. intros _. exists c. split; [done|].
  by rewrite Nat2Z.id.
Qed.

Lemma set_message_ok i e s :
  wp (set_message (Z.of_nat i) e : dim_eff unit) (fun r s' => r = Ok tt ->
    exists c, has_message c e /\ (i < length (msi_config s.1))%nat /\
      s' = (set_msi_config (<[i := MsiIrqConfig c]> (msi_config s.1)) s.1, s.2)) s.
Proof.
  unfold set_message. wp_steps. eapply wp_mono; [apply msix_update_msi_ok|]. intros [[]|?] s1 H1; [|done].
  destruct (H1 eq_refl) as (c1 & L1 & ->). clear H1. wp_steps. pose proof (lookup_lt_Some _ _ _ L1).
  eapply wp_mono; [apply msix_update_msi_ok|]. intros [[]|?] s2 H2; [|done].
  destruct (H2 eq_refl) as (c2 & L2 & ->). clear H2. cbn in L2. rewrite list_lookup_insert_eq in L2 by done. injection L2 as <-.
  eapply wp_mono; [apply msix_update_msi_ok|]. intros [[]|?] s3 H3; [|done]. intros _.
  destruct (H3 eq_refl) as (c3 & L3 & ->). clear H3. cbn in L3. rewrite !list_insert_insert_eq in L3.
  rewrite list_lookup_insert_eq in L3 by done. injection L3 as <-. eexists. split; [|split; [done|]].
  2: { unfold set_msi_config. cbn. by rewrite !list_insert_insert_eq. }
  done.
Qed.

(** All messages of the table. *)
Definition messages_set (d : Dim) (l : list MsixTableEntry) (k : nat) (s' : Dim * KvmWorld K) w : Prop :=
  exists cs, s' = (set_msi_config cs d, w) /\ length cs = length (msi_config d) /\
    (Forall is_msi (msi_config d) -> Forall is_msi cs) /\
    forall i e, (i < k)%nat -> l !! i = Some e -> exists c, cs !! i = Some (MsiIrqConfig c) /\ has_message c e.

Lemma messages_ok l d w :
  wp (for_each (fun '(idx, vector) => set_message idx vector) (indexed l) : dim_eff unit)
    (fun r s' => r = Ok tt -> messages_set d l (length l) s' w) (d, w).
Proof.
  apply (wp_indexed _ l (fun k s' => messages_set d l k s' w)).
  - intros i a s Ha (cs & -> & Hl & Hm & Hi). eapply wp_mono; [apply set_message_ok|]. intros r s' H Hr.
    destruct (H Hr) as (c & Hc & Hlt & ->). cbn [fst snd msi_config set_msi_config] in *.
    exists (<[i := MsiIrqConfig c]> cs). split; [done|]. rewrite length_insert. split; [done|]. split.
    + intros Hd. by apply Forall_insert; [apply Hm|].
    + intros j e Hj He. destruct (decide (j = i)) as [->|Hne].
      * exists c. split; [by apply list_lookup_insert_eq|]. congruence.
      * rewrite list_lookup_insert_ne by done. apply Hi; [lia|done].
  - exists (msi_config d). split; [by destruct d|]. split; [done|]. split; [done|]. intros i e Hi. lia.
Qed.

(** Masking the vectors of a kind. *)
Lemma mask_loop_ok p l s :
  (length l <= n)%nat ->
  wp (mask_if p group_mask g l : dim_eff unit)
    (fun r s' => r = Ok tt -> s'.1 = s.1 /\ same_routes s.2 s'.2 /\
       forall j, bound_at s'.2 j <-> bound_at s.2 j /\ ~ (exists e, l !! j = Some e /\ p e = true)) s.
Proof.
  intros Hl. unfold mask_if. eapply wp_mono.
  - apply (wp_indexed _ l (fun k s' => s'.1 = s.1 /\ same_routes s.2 s'.2 /\
       forall j, bound_at s'.2 j <-> bound_at s.2 j /\ ~ ((j < k)%nat /\ exists e, l !! j = Some e /\ p e = true))).
    2: { split; [done|]. split; [done|]. intros j. split; [|tauto]. intros. split; [done|]. lia. }
    intros i a s1 Ha (E1 & [R1 R2] & B1). pose proof (lookup_lt_Some _ _ _ Ha). wp_if.
    + apply wp_sys_call. intros r w' Em Hr. subst r. apply msix_mask_ok in Em as [[R3 R4] B2]; [|lia].
      split; [done|]. cbn [snd]. split; [split; congruence|]. intros j. rewrite B2, B1. split.
      * intros [[Hb Hn] Hne]. split; [done|]. intros [Hlt He]. apply Hn. split; [lia|done].
      * intros [Hb Hn]. split; [|intros ->; apply Hn; eauto]. split; [done|]. intros [Hlt He]. apply Hn. auto with lia.
    + wp_steps. intros _. split; [done|]. split; [done|]. intros j. rewrite B1. split; intros [Hb Hn]; split; try done.
      * intros [Hlt (e & He & Hp)]. apply Hn. split; [|eauto]. destruct (decide (j = i)) as [->|]; [congruence|lia].
      * intros [Hlt He]. apply Hn. auto with lia.
  - intros r s' Hs Hr. destruct (Hs Hr) as (H1 & H2 & H3). split; [done|]. split; [done|]. intros j. rewrite H3.
    split; intros [Hb Hn]; split; try done; [intros (e & He & Hp)|intros [_ He]]; apply Hn; [|done].
    split; [by apply lookup_lt_Some in He|eauto].
Qed.

Lemma unmask_loop_ok p l s :
  (length l <= n)%nat ->
  wp (mask_if p group_unmask g l : dim_eff unit)
    (fun r s' => r = Ok tt -> s'.1 = s.1 /\ same_routes s.2 s'.2 /\
       forall j, bound_at s'.2 j <-> bound_at s.2 j \/ (exists e, l !! j = Some e /\ p e = true)) s.
Proof.
  intros Hl. unfold mask_if. eapply wp_mono.
  - apply (wp_indexed _ l (fun k s' => s'.1 = s.1 /\ same_routes s.2 s'.2 /\
       forall j, bound_at s'.2 j <-> bound_at s.2 j \/ ((j < k)%nat /\ exists e, l !! j = Some e /\ p e = true))).
    2: { split; [done|]. split; [done|]. intros j. split; [tauto|]. intros [|]; [done|lia]. }
    intros i a s1 Ha (E1 & [R1 R2] & B1). pose proof (lookup_lt_Some _ _ _ Ha). wp_if.
    + apply wp_sys_call. intros r w' Em Hr. subst r. apply unmask_ok in Em as [[R3 R4] B2]; [|lia].
      split; [done|]. cbn [snd]. split; [split; congruence|]. intros j. rewrite B2, B1. split.
      * intros [[Hb|[Hlt He]]| ->]; [by left|right; auto with lia|right; eauto].
      * intros [Hb|[Hlt He]]; [tauto|]. destruct (decide (j = i)); [tauto|]. left. right. auto with lia.
    + wp_steps. intros _. split; [done|]. split; [done|]. intros j. rewrite B1. split; (intros [Hb|[Hlt He]]; [by left|right]).
      * auto with lia.
      * split; [|done]. destruct (decide (j = i)) as [->|]; [|lia]. destruct He as (e & He & Hp). congruence.
  - intros r s' Hs Hr. destruct (Hs Hr) as (H1 & H2 & H3). split; [done|]. split; [done|]. intros j. rewrite H3.
    split; (intros [Hb|He]; [by left|right]); [tauto|]. split; [|done]. destruct He as (e & He & _). by apply lookup_lt_Some in He.
Qed.
End group.
End facts.
