(* ===== verification/MsixProps.v ===== *)
(** * MSI-X over KVM

    The message that KVM delivers for a vector of a device is the one that the
    MSI-X table says, exactly when MSI-X is on and neither the function nor the
    vector is masked, after any writes of the guest to the control word and to
    the table that succeed. *)
From S2P Require Import Prelude Bits DeviceResources Effects InterruptManager PciConfig PciMsi KvmIrq MsixFacts.

(** What the table asks for: the message of a vector that is on. *)
Definition msix_delivers (st : MsixState) (i : nat) : option (Z * Z * Z) :=
  match table_entries st !! i with
  | Some e =>
      if msix_enabled st && negb (msix_masked st) && negb (entry_masked e)
      then Some (msg_addr_lo e, msg_addr_hi e, msg_data e) else None
  | None => None
  end.

(** What happens when the device signals the event file of a vector: nothing when
    it is not bound, otherwise the message of the route. *)
Definition kvm_delivers {K} `{KvmIrqLaws K} (base : Z) (fds : list nat) (w : KvmWorld K) (i : nat) : option (Z * Z * Z) :=
  match fds !! i with
  | Some fd =>
      if bool_decide ((fd, base + Z.of_nat i) ∈ bound (kvm w)) then
        match kvm_routes (kvm w) !! msi_key (base + Z.of_nat i) with
        | Some (mkRoute _ (MsiMessage lo hi data _)) => Some (lo, hi, data)
        | _ => None
        end
      else None
  | None => None
  end.

Section refinement.
Context {K : Type} `{HK : KvmIrqOps K} {LK : KvmIrqLaws K}.
Context (base : Z) (n : nat) (fds : list nat).
Context (Hlen : length fds = n) (Hbase : 0 <= base) (Hmax : base + Z.of_nat n <= MAX_IRQS).

#[local] Abbreviation g := (MsiGroup base (Z.of_nat n) fds).
#[local] Abbreviation Dim := (DeviceInterruptManager KvmGroup).
#[local] Abbreviation World := (KvmWorld K).
#[local] Abbreviation dim_eff := (eff (Dim * World) errno).
#[local] Abbreviation St := (MsixState * (Dim * World))%type.

(** The manager of a device with an MSI-X group. *)
Record manager_ok (d : Dim) (on : bool) : Prop := {
  mo_group : at_index (intr_groups d) (idx_of d PciMsixIrq) = Some g;
  mo_room : (n <= length (msi_config d))%nat;
  mo_msi : Forall is_msi (msi_config d);
  mo_active : activated d = on;
  mo_mode : on = true -> dim_mode d = PciMsixIrq /\ current_idx d = idx_of d PciMsixIrq;
}.

Definition route_matches (w : World) (i : nat) (e : MsixTableEntry) : Prop :=
  exists c, has_message c e /\ route_at base w i = Some (new_msi_routing_entry (base + Z.of_nat i) c).

(** The vectors when MSI-X is on, and when it is off. *)
Definition vectors_on (l : list MsixTableEntry) (masked : bool) (w : World) : Prop :=
  forall i e, l !! i = Some e ->
    (bound_at base fds w i <-> masked = false /\ entry_masked e = false) /\ route_matches w i e.
Definition vectors_off (w : World) : Prop :=
  forall i, (i < n)%nat -> ~ bound_at base fds w i /\ route_at base w i = None.

Record msix_inv (s : St) : Prop := {
  mi_len : length (table_entries s.1) = n;
  mi_entries : Forall entry_ok (table_entries s.1);
  mi_mgr : manager_ok s.2.1 (msix_enabled s.1);
  mi_sync : synced s.2.2;
  mi_vectors : if msix_enabled s.1 then vectors_on (table_entries s.1) (msix_masked s.1) s.2.2 else vectors_off s.2.2;
}.

(** *** The manager *)

Lemma mode_disabled_ok d w :
  activated d = false ->
  wp (set_working_mode Disabled : dim_eff unit) (fun r s' => r = Ok tt -> s' = (set_dim_mode Disabled d, w)) (d, w).
Proof.
  intros Ha. unfold set_working_mode, dim, upd. wp_steps. cbn [fst]. unfold id. rewrite Ha. case_bool_decide as Em.
  - rewrite andb_false_r. rewrite bool_decide_false by auto. wp_steps. done.
  - wp_steps. intros _. assert (dim_mode d = Disabled) as E by (destruct (dim_mode d); naive_solver). destruct d. cbn in E. by subst.
Qed.

Lemma mode_msix_ok d w :
  activated d = false -> dim_mode d = Disabled ->
  wp (set_working_mode PciMsixIrq : dim_eff unit) (fun r s' => r = Ok tt ->
    s' = (set_dim_mode PciMsixIrq (set_current_idx (idx_of d PciMsixIrq) d), w)) (d, w).
Proof.
  intros Ha Hm. unfold set_working_mode, dim, upd. wp_steps. cbn [fst]. unfold id. rewrite Ha, Hm.
  rewrite (bool_decide_true (PciMsixIrq <> Disabled)) by done. rewrite (bool_decide_false (Disabled <> Disabled)) by auto.
  cbn [andb]. wp_steps. done.
Qed.

(** Back to no mode. *)
Definition off (d : Dim) : Dim := set_dim_mode Disabled (set_activated false d).

Lemma off_ok d on : manager_ok d on -> manager_ok (off d) false.
Proof. intros [H1 H2 H3 H4 H5]. by split. Qed.

Lemma reset_off_ok d w : activated d = false -> wp (reset_dim : dim_eff unit) (fun r s' => r = Ok tt -> s' = (off d, w)) (d, w).
Proof.
  intros Ha. unfold reset_dim, dim. wp_steps. cbn [fst]. unfold id. rewrite Ha. wp_steps.
  eapply wp_mono; [by apply mode_disabled_ok|]. intros r s' H Hr. rewrite (H Hr). unfold off. by destruct d; cbn in Ha; subst.
Qed.

Lemma reset_on_ok d w :
  manager_ok d true ->
  wp (reset_dim : dim_eff unit) (fun r s' => r = Ok tt -> s'.1 = off d /\ synced s'.2 /\ vectors_off s'.2) (d, w).
Proof.
  intros [H1 H2 H3 H4 H5]. destruct (H5 eq_refl) as [Em Ec]. unfold reset_dim, dim, upd. wp_steps. cbn [fst]. unfold id. rewrite H4.
  wp_steps. apply wp_expect. intros g' Hg. rewrite Ec, H1 in Hg. injection Hg as <-. apply wp_sys_call. intros r w' Hd.
  destruct r as [[]|]; [|done]. cbn [fst snd] in *. apply (msi_disable_ok base n fds Hlen) in Hd as [Hs Hv].
  eapply wp_mono; [by apply mode_disabled_ok|]. intros r s' H Hr. rewrite (H Hr). done.
Qed.

(** The messages of the table as configurations. *)
Definition configs_match (cs : list InterruptSourceConfig) (l : list MsixTableEntry) : Prop :=
  forall i e, l !! i = Some e -> exists c, cs !! i = Some (MsiIrqConfig c) /\ has_message c e.

Lemma msix_enable_ok d w l :
  length l = n -> activated d = false -> dim_mode d = PciMsixIrq -> current_idx d = idx_of d PciMsixIrq ->
  at_index (intr_groups d) (idx_of d PciMsixIrq) = Some g -> (n <= length (msi_config d))%nat ->
  configs_match (msi_config d) l -> synced w -> vectors_off w ->
  wp (enable : dim_eff unit) (fun r s' => r = Ok tt ->
    s'.1 = set_activated true d /\ synced s'.2 /\
    forall i e, l !! i = Some e -> bound_at base fds s'.2 i /\ route_matches s'.2 i e) (d, w).
Proof.
  intros Hl Ha Hm Hc Hg Hroom Hcs Hs Hoff. unfold enable, dim, upd. wp_steps. cbn [fst]. unfold id. rewrite Ha, Hm.
  rewrite (bool_decide_false (PciMsixIrq = Disabled)) by done. cbn [andb]. wp_steps. cbn [fst]. rewrite Hm.
  rewrite (bool_decide_false (PciMsixIrq = Disabled)) by done. wp_steps. apply wp_expect. intros g' Hg'. rewrite Hc, Hg in Hg'.
  injection Hg' as <-. wp_steps. apply wp_expect. intros configs Hconf. cbn [get_configs] in Hconf. rewrite Hg in Hconf.
  cbn [group_len kvm_source_group] in Hconf. destruct (Z.leb_spec (Z.of_nat n) (Z.of_nat (length (msi_config d)))); [|done].
  injection Hconf as <-. rewrite Nat2Z.id. wp_steps. apply wp_sys_call. intros r w' He. destruct r as [[]|]; [|done]. wp_steps.
  intros _. cbn [fst snd] in *. split; [done|]. cbn [group_enable kvm_source_group] in He.
  apply (msi_enable_ok base n fds Hlen Hbase Hmax) in He as [Hs' Hv]; [|done|intros i Hi; by apply Hoff].
  split; [done|]. intros i e Hi. pose proof (lookup_lt_Some _ _ _ Hi). destruct (Hv i) as [Hb (c & Hci & Hr)]; [lia|].
  split; [done|]. exists c. split; [|done]. rewrite lookup_take_lt in Hci by lia.
  destruct (Hcs i e Hi) as (c' & Hc' & Hmsg). congruence.
Qed.

Lemma msix_get_group_ok d w (Q : result errno (option KvmGroup) -> Dim * World -> Prop) :
  manager_ok d true -> Q (Ok (Some g)) (d, w) -> wp (get_group : dim_eff _) Q (d, w).
Proof.
  intros [H1 H2 H3 H4 H5] HQ. destruct (H5 eq_refl) as [Em Ec]. unfold get_group, dim. wp_steps. cbn [fst]. unfold id.
  rewrite H4, Em. rewrite (bool_decide_false (PciMsixIrq = Disabled)) by done. cbn [negb orb]. wp_steps. apply wp_expect.
  intros g' Hg. rewrite Ec, H1 in Hg. injection Hg as <-. by wp_steps.
Qed.

(** Masking leaves the routes. *)
Lemma route_matches_same w w' i e : same_routes w w' -> route_matches w i e -> route_matches w' i e.
Proof. intros [Hr _] (c & Hc & He). exists c. split; [done|]. unfold route_at in *. by rewrite Hr. Qed.
Lemma synced_same (w w' : World) : same_routes w w' -> synced w -> synced w'.
Proof. intros [H1 H2] H3. unfold synced in *. congruence. Qed.

(** From off to on. *)
Lemma turn_on_ok l masked d w :
  length l = n -> manager_ok d false -> synced w -> vectors_off w ->
  wp (_ ← reset_dim;
      _ ← set_working_mode PciMsixIrq;
      _ ← for_each (fun '(idx, vector) => set_message idx vector) (indexed l);
      _ ← enable;
      o ← get_group;
      group ← expect o;
      mask_if (fun vector => masked || entry_masked vector) group_mask group l : dim_eff unit)
    (fun r s' => r = Ok tt -> manager_ok s'.1 true /\ synced s'.2 /\ vectors_on l masked s'.2) (d, w).
Proof.
  intros Hl Hm Hs Hoff. pose proof (off_ok _ _ Hm) as [H1 H2 H3 H4 H5]. wp_steps.
  eapply wp_mono; [apply reset_off_ok, Hm|]. intros [[]|?] s1 E1; [|done]. rewrite (E1 eq_refl). clear s1 E1. wp_steps.
  eapply wp_mono; [by apply mode_msix_ok|]. intros [[]|?] s1 E1; [|done]. rewrite (E1 eq_refl). clear s1 E1. wp_steps.
  eapply wp_mono; [by apply (messages_ok n fds)|]. intros [[]|?] s1 E1; [|done].
  destruct (E1 eq_refl) as (cs & -> & Hcl & Hcm & Hcs). clear E1. cbn [msi_config set_dim_mode set_current_idx off set_activated] in Hcl, Hcm.
  wp_steps. eapply wp_mono.
  { apply (msix_enable_ok _ _ l); try done; [cbn; by rewrite Hcl|]. intros i e Hi. cbn. apply Hcs; [by apply lookup_lt_Some in Hi|done]. }
  intros [[]|?] [d2 w2] E2; [|done]. cbn [fst snd] in E2. destruct (E2 eq_refl) as (-> & Hs2 & Hv2). clear E2. wp_steps.
  match goal with |- wp get_group _ (?d2, _) => assert (manager_ok d2 true) as Hm2 end.
  { split; [done|cbn; by rewrite Hcl|by apply Hcm|done|done]. }
  apply msix_get_group_ok; [done|]. wp_steps. apply wp_expect. intros ? [= <-]. eapply wp_mono; [apply (mask_loop_ok base n fds); lia|].
  intros r [d3 w3] E3 Hr. cbn [fst snd] in E3. destruct (E3 Hr) as (-> & Hsr & Hb). cbn [fst snd] in *.
  split; [done|]. split; [by eapply synced_same|]. intros i e Hi. destruct (Hv2 i e Hi) as [Hbi Hri].
  split; [|by eapply route_matches_same]. rewrite Hb. split.
  - intros [_ Hn]. destruct (masked || entry_masked e) eqn:Em; [by destruct Hn; eauto|]. by apply orb_false_iff in Em.
  - intros [-> Hne]. split; [done|]. intros (e' & He' & Hp). cbn in Hp. congruence.
Qed.

(** The function mask changes while MSI-X is on. *)
Lemma function_mask_ok l masked new_masked d w :
  length l = n -> manager_ok d true -> synced w -> vectors_on l masked w ->
  wp (o ← get_group;
      group ← expect o;
      if masked && negb new_masked then mask_if (fun vector => negb (entry_masked vector)) group_unmask group l
      else if negb masked && new_masked then mask_if (fun vector => negb (entry_masked vector)) group_mask group l
      else mret tt : dim_eff unit)
    (fun r s' => r = Ok tt -> manager_ok s'.1 true /\ synced s'.2 /\ vectors_on l new_masked s'.2) (d, w).
Proof.
  intros Hl Hm Hs Hon. wp_steps. apply msix_get_group_ok; [done|]. wp_steps. apply wp_expect. intros ? [= <-]. destruct masked, new_masked; cbn [andb negb].
  - wp_steps. done.
  - eapply wp_mono; [apply (unmask_loop_ok base n fds); lia|]. intros r [d1 w1] E Hr. cbn [fst snd] in E. destruct (E Hr) as (-> & Hsr & Hb).
    cbn [fst snd] in *. split; [done|]. split; [by eapply synced_same|]. intros i e Hi. destruct (Hon i e Hi) as [Hbi Hri].
    split; [|by eapply route_matches_same]. rewrite Hb, Hbi. split.
    + intros [[]|(e' & He' & Hp)]; [done|]. split; [done|]. rewrite Hi in He'. injection He' as <-. by apply negb_true_iff in Hp.
    + intros [_ Hne]. right. exists e. by rewrite Hne.
  - eapply wp_mono; [apply (mask_loop_ok base n fds); lia|]. intros r [d1 w1] E Hr. cbn [fst snd] in E. destruct (E Hr) as (-> & Hsr & Hb).
    cbn [fst snd] in *. split; [done|]. split; [by eapply synced_same|]. intros i e Hi. destruct (Hon i e Hi) as [Hbi Hri].
    split; [|by eapply route_matches_same]. rewrite Hb, Hbi. split; [|by intros []].
    intros [[_ Hne] Hn]. destruct Hn. exists e. by rewrite Hne.
  - wp_steps. done.
Qed.

Lemma set_msg_ctl_ok reg s : msix_inv s -> wp (set_msg_ctl reg) (fun r s' => r = Ok tt -> msix_inv s') s.
Proof.
  destruct s as [st [d w]]. intros [Hl He Hm Hs Hv]. cbn [fst snd] in *. unfold set_msg_ctl. wp_steps. cbn [fst].
  set (masked := negb (Z.land reg FUNCTION_MASK_MASK =? 0)). set (on := negb (Z.land reg MSIX_ENABLE_MASK =? 0)).
  wp_if; [wp_steps; intros _; by split|]. wp_steps. unfold mgr. apply wp_zoom. cbn [fst snd].
  assert (forall m : dim_eff unit, wp m (fun r s' => r = Ok tt -> manager_ok s'.1 on /\ synced s'.2 /\
      (if on then vectors_on (table_entries st) masked s'.2 else vectors_off s'.2)) (d, w) ->
    wp m (fun r t => match r with
       | Ok _ => wp (modify (fun t => (mkMsixState (table_entries t.1) masked on, t.2)) : eff St errno unit)
                   (fun r s' => r = Ok tt -> msix_inv s') (st, t)
       | Err e => Err e = Ok tt -> msix_inv (st, t)
       end) (d, w)) as Hfin.
  { intros m H. eapply wp_mono; [exact H|]. intros [[]|?] [d1 w1] E1; [|done]. destruct (E1 eq_refl) as (H1 & H2 & H3). wp_steps. by split. }
  destruct (msix_enabled st) eqn:Eon, on; apply Hfin.
  - by apply function_mask_ok.
  - eapply wp_mono; [by apply reset_on_ok|]. intros r [d1 w1] E1 Hr. cbn [fst snd] in E1. destruct (E1 Hr) as (-> & H2 & H3). cbn [fst snd] in *.
    split; [by eapply off_ok|done].
  - by apply turn_on_ok.
  - wp_steps. done.
Qed.

(** *** Writes to the table *)

Lemma msix_update_ok i c d w :
  (i < n)%nat -> manager_ok d true -> msi_config d !! i = Some (MsiIrqConfig c) ->
  wp (update (Z.of_nat i) : dim_eff unit) (fun r s' => r = Ok tt ->
    s'.1 = d /\ synced s'.2 /\ bound (kvm s'.2) = bound (kvm w) /\
    forall j, (j < n)%nat -> route_at base s'.2 j =
      if Nat.eqb j i then Some (new_msi_routing_entry (base + Z.of_nat i) c) else route_at base w j) (d, w).
Proof.
  intros Hi [H1 H2 H3 H4 H5] Hc. destruct (H5 eq_refl) as [Em Ec]. unfold update, dim. wp_steps. cbn [fst]. unfold id.
  rewrite H4, Em. cbn [negb]. wp_steps. apply wp_expect. intros g' Hg. rewrite Ec, H1 in Hg. injection Hg as <-. wp_if; [by wp_steps|].
  wp_steps. rewrite at_index_nat, Hc. apply wp_expect. intros c' [= <-]. apply wp_sys_call. intros r w' Hu Hr. subst r.
  cbn [group_update kvm_source_group fst snd] in *. apply (msi_update_ok base n fds Hlen Hbase Hmax) in Hu; [|done]. tauto.
Qed.

(** The new message of a vector reaches its route. *)
Lemma new_message_ok i e d w :
  (i < n)%nat -> manager_ok d true ->
  wp (_ ← set_message (Z.of_nat i) e; update (Z.of_nat i) : dim_eff unit) (fun r s' => r = Ok tt ->
    manager_ok s'.1 true /\ synced s'.2 /\ bound (kvm s'.2) = bound (kvm w) /\ route_matches s'.2 i e /\
    forall j, (j < n)%nat -> j <> i -> route_at base s'.2 j = route_at base w j) (d, w).
Proof.
  intros Hi Hm. wp_steps. eapply wp_mono; [by apply set_message_ok|]. intros [[]|?] s1 E1; [|done].
  destruct (E1 eq_refl) as (c & Hc & Hlt & ->). clear E1. cbn [fst snd] in *.
  assert (manager_ok (set_msi_config (<[i := MsiIrqConfig c]> (msi_config d)) d) true) as Hm'.
  { destruct Hm as [H1 H2 H3 H4 H5]. split; try done; cbn; [by rewrite length_insert|by apply Forall_insert]. }
  eapply wp_mono; [apply (msix_update_ok i c); [done..|cbn; by apply list_lookup_insert_eq]|].
  intros r [d2 w2] E2 Hr. cbn [fst snd] in E2. destruct (E2 Hr) as (-> & Hs & Hb & Hrt). cbn [fst snd].
  split; [done|]. split; [done|]. split; [done|]. split.
  - exists c. split; [done|]. rewrite Hrt by done. by rewrite Nat.eqb_refl.
  - intros j Hj Hne. rewrite Hrt by done. by destruct (Nat.eqb_spec j i).
Qed.

(** The vectors other than the written one. *)
Lemma other_vectors l masked i e w w' :
  length l = n -> (i < n)%nat -> vectors_on l masked w ->
  (forall j, j <> i -> bound_at base fds w' j <-> bound_at base fds w j) ->
  (forall j, (j < n)%nat -> j <> i -> route_at base w' j = route_at base w j) ->
  (bound_at base fds w' i <-> masked = false /\ entry_masked e = false) -> route_matches w' i e ->
  vectors_on (<[i := e]> l) masked w'.
Proof.
  intros Hl Hi Hon Hb Hr Hbi Hri j e' Hj. destruct (decide (j = i)) as [->|Hne].
  - rewrite list_lookup_insert_eq in Hj by lia. by injection Hj as <-.
  - rewrite list_lookup_insert_ne in Hj by done. destruct (Hon j e' Hj) as [Hbj (c & Hc & Hrj)].
    rewrite Hb by done. split; [done|]. exists c. split; [done|]. rewrite Hr; [done| |done]. apply lookup_lt_Some in Hj. lia.
Qed.

(** The message of vector [i] is [e] in [w], all else is as in [w0]. *)
Record message_placed (i : nat) (e : MsixTableEntry) (w0 w : World) : Prop := {
  mp_sync : synced w;
  mp_bound : bound (kvm w) = bound (kvm w0);
  mp_route : route_matches w i e;
  mp_other j : (j < n)%nat -> j <> i -> route_at base w j = route_at base w0 j;
}.

(** A change of the binding of that vector. *)
Lemma placed_vectors l masked i e w0 w w' :
  length l = n -> (i < n)%nat -> vectors_on l masked w0 -> message_placed i e w0 w -> same_routes w w' ->
  (forall j, j <> i -> bound_at base fds w' j <-> bound_at base fds w j) ->
  (bound_at base fds w' i <-> masked = false /\ entry_masked e = false) ->
  synced w' /\ vectors_on (<[i := e]> l) masked w'.
Proof.
  intros Hl Hi Hon [H1 H2 H3 H4] Hsr Hb Hbi. split; [by eapply synced_same|].
  apply (other_vectors l masked i e w0); try done; [|intros j Hj Hne|by eapply route_matches_same].
  - intros j Hne. rewrite Hb by done. unfold bound_at. by rewrite H2.
  - rewrite <- H4 by done. unfold route_at. by destruct Hsr as [-> _].
Qed.

(** The mask bit of the written entry. *)
Lemma vector_mask_ok l i old e d w0 w st :
  length l = n -> l !! i = Some old -> manager_ok d true -> vectors_on l false w0 -> message_placed i e w0 w ->
  wp (o ← mgr get_group;
      group ← expect o;
      if negb (entry_masked old) && entry_masked e then mgr (sys_call (group_mask group (Z.of_nat i)))
      else if entry_masked old && negb (entry_masked e) then mgr (sys_call (group_unmask group (Z.of_nat i)))
      else mret tt : eff St errno unit)
    (fun r s' => r = Ok tt -> s'.1 = st /\ manager_ok s'.2.1 true /\ synced s'.2.2 /\ vectors_on (<[i := e]> l) false s'.2.2)
    (st, (d, w)).
Proof.
  intros Hl Hi Hm Hon Hp. pose proof (lookup_lt_Some _ _ _ Hi) as Hlt.
  assert (bound_at base fds w i <-> entry_masked old = false) as Hbi.
  { unfold bound_at. rewrite (mp_bound _ _ _ _ Hp). destruct (Hon i old Hi) as [Hb _]. unfold bound_at in Hb. tauto. }
  unfold mgr. wp_steps. apply msix_get_group_ok; [done|]. wp_steps. apply wp_expect. intros ? [= <-]. wp_if; [|wp_if].
  - apply andb_true_iff in E as [E1%negb_true_iff E2]. apply wp_zoom, wp_sys_call. intros r w' Hk Hr'. subst r. cbn [fst snd] in *.
    apply (msix_mask_ok base n fds) in Hk as [Hsr Hb]; [|done|lia]. split; [done|]. split; [done|].
    apply (placed_vectors l false i e w0 w); try done; [lia|intros j Hne; rewrite Hb; tauto|rewrite Hb; split; [tauto|intros []; congruence]].
  - apply andb_true_iff in E0 as [E1 E2%negb_true_iff]. apply wp_zoom, wp_sys_call. intros r w' Hk Hr'. subst r. cbn [fst snd] in *.
    apply (unmask_ok base n fds) in Hk as [Hsr Hb]; [|done|lia]. split; [done|]. split; [done|].
    apply (placed_vectors l false i e w0 w); try done; [lia|intros j Hne; rewrite Hb; tauto|rewrite Hb; split; auto].
  - wp_steps. intros _. split; [done|]. split; [done|]. apply (placed_vectors l false i e w0 w); try done; [lia|].
    rewrite Hbi. revert E E0. destruct (entry_masked old), (entry_masked e); cbn; intuition congruence.
Qed.

(** The message of the written entry. *)
Lemma written_message_ok l masked i old modulo data d w st :
  l !! i = Some old -> (i < n)%nat -> entry_ok old -> 0 <= modulo < 16 -> manager_ok d true -> synced w -> vectors_on l masked w ->
  wp (if modulo <? 0xc
      then mgr (_ ← set_message (Z.of_nat i) (written_entry old modulo data); update (Z.of_nat i))
      else mret tt : eff St errno unit)
    (fun r s' => r = Ok tt -> s'.1 = st /\ manager_ok s'.2.1 true /\ message_placed i (written_entry old modulo data) w s'.2.2)
    (st, (d, w)).
Proof.
  intros Hi Hlt Hok Hmod Hm Hs Hon. wp_if; zbool.
  - unfold mgr. apply wp_zoom. eapply wp_mono; [by apply new_message_ok|]. intros r [d1 w1] E1 Hr.
    destruct (E1 Hr) as (H1 & H2 & H3 & H4 & H5). by split.
  - wp_steps. intros _. split; [done|]. split; [done|]. destruct (Hon i old Hi) as [_ (c & Hc & Hr)]. split; try done.
    exists c. split; [|done]. destruct (written_message old modulo data Hok) as (E1 & E2 & E3); [lia|].
    unfold has_message in *. by rewrite E1, E2, E3.
Qed.

Lemma write_table_ok offset data s :
  0 <= offset -> Forall (fun b => 0 <= b < 256) data -> msix_inv s ->
  wp (write_table offset data) (fun r s' => r = Ok tt -> msix_inv s') s.
Proof.
  destruct s as [st [d w]]. intros Ho Hd [Hl He Hm Hs Hv]. cbn [fst snd] in *. unfold write_table.
  pose proof (Z.mod_pos_bound offset 16 ltac:(lia)) as Hmod. set (modulo := offset mod 16) in *.
  wp_if; [wp_steps|]. apply negb_false_iff, andb_true_iff in E as [_ Ew]. zbool. wp_steps. cbn [fst]. apply wp_expect. intros old Hold.
  assert (exists i, offset / 16 = Z.of_nat i) as [i Ei] by (exists (Z.to_nat (offset / 16)); pose proof (Z.div_pos offset 16); lia).
  rewrite Ei in *. rewrite at_index_nat in Hold. rewrite Nat2Z.id. pose proof (lookup_lt_Some _ _ _ Hold) as Hlt.
  change (entry_of_bytes (splice (entry_bytes old) (Z.to_nat modulo) data)) with (written_entry old modulo data).
  set (e := written_entry old modulo data). assert (entry_ok old) as Hok by (by eapply Forall_lookup).
  assert (entry_ok e) as Hoke by (by apply written_entry_ok). wp_steps. cbn [fst snd].
  set (st1 := mkMsixState (<[i := e]> (table_entries st)) (msix_masked st) (msix_enabled st)).
  assert (length (table_entries st1) = n) as Hl1 by (cbn; by rewrite length_insert).
  assert (Forall entry_ok (table_entries st1)) as He1 by (cbn; by apply Forall_insert).
  destruct (msix_enabled st) eqn:Eon; [|wp_steps; intros _; by split; cbn; rewrite ?Eon].
  wp_steps. eapply wp_mono; [apply (written_message_ok (table_entries st) (msix_masked st)); try done; lia|].
  fold e. intros [[]|?] [st' [d1 w1]] E1; [|done]. cbn [fst snd] in E1. destruct (E1 eq_refl) as (-> & Hm1 & Hp). clear E1. cbn [fst snd] in *. wp_if.
  - apply andb_true_iff in E as [_ Em%negb_true_iff]. rewrite Em in Hv.
    eapply wp_mono; [by apply (vector_mask_ok (table_entries st) i old e d1 w w1)|].
    intros r [st2 [d2 w2]] E2 Hr. cbn [fst snd] in E2. destruct (E2 Hr) as (-> & Hm2 & Hs2 & Hv2). split; try done. cbn. by rewrite Em.
  - wp_steps. intros _. split; try done; [apply Hp|]. cbn.
    apply (placed_vectors (table_entries st) _ i e w w1 w1); try done; [lia|].
    unfold bound_at. rewrite (mp_bound _ _ _ _ Hp). destruct (Hv i old Hold) as [Hb _]. unfold bound_at in Hb. rewrite Hb.
    destruct (msix_masked st); [intuition congruence|]. rewrite andb_true_r in E. zbool.
    assert (entry_masked e = entry_masked old) as ->; [|done]. unfold entry_masked, e. rewrite written_ctl by (done || lia). done.
Qed.

(** *** The theorem *)

(** What the guest does to MSI-X: writes to the control word and to the table. *)
Inductive MsixOp := SetMsgCtl (reg : Z) | WriteTable (offset : Z) (data : list Z).

Definition msix_op (o : MsixOp) : eff St errno unit :=
  match o with SetMsgCtl reg => set_msg_ctl reg | WriteTable offset data => write_table offset data end.
Definition msix_op_ok (o : MsixOp) : Prop :=
  match o with SetMsgCtl _ => True | WriteTable offset data => 0 <= offset /\ Forall (fun b => 0 <= b < 256) data end.

Lemma msix_ops_ok ops s :
  Forall msix_op_ok ops -> msix_inv s -> wp (for_each msix_op ops) (fun r s' => r = Ok tt -> msix_inv s') s.
Proof.
  intros Hops. revert s. induction Hops as [|o ops Ho _ IH]; intros s Hs; [by apply wp_ret|]. cbn [for_each]. apply wp_bind.
  eapply wp_mono.
  - destruct o as [reg|offset data]; cbn [msix_op]; [by apply set_msg_ctl_ok|]. by apply write_table_ok; [apply Ho..|].
  - intros [[]|?] s1 H1; [|done]. by apply IH, H1.
Qed.

Lemma inv_delivers s i : msix_inv s -> (i < n)%nat -> kvm_delivers base fds s.2.2 i = msix_delivers s.1 i.
Proof.
  destruct s as [st [d w]]. intros [Hl He Hm Hs Hv] Hi. cbn [fst snd] in *. unfold kvm_delivers, msix_delivers.
  destruct (lookup_lt_is_Some_2 (table_entries st) i) as [e Hei]; [lia|]. destruct (lookup_lt_is_Some_2 fds i) as [fd Hfd]; [lia|].
  rewrite Hei, Hfd. destruct (msix_enabled st); cbn [andb].
  - destruct (Hv i e Hei) as [Hb (c & (E1 & E2 & E3) & Hr)]. unfold route_at in Hr. unfold synced in Hs. rewrite Hs, Hr. cbn.
    rewrite E1, E2, E3. unfold bound_at in Hb. rewrite Hfd in Hb.
    case_bool_decide as Ebd; destruct (msix_masked st) eqn:Em, (entry_masked e) eqn:Ee; cbn; try done; exfalso.
    1-3: destruct Hb as [Hb _]; destruct Hb as [? ?]; [by exists fd|done].
    destruct Hb as [_ Hb]. destruct Hb as (fd' & [= <-] & Hin); done.
  - destruct (Hv i Hi) as [Hn _]. case_bool_decide; [|done]. destruct Hn. by exists fd.
Qed.
End refinement.

(** ** Creation *)

Section creation.
Context {K : Type} `{HK : KvmIrqOps K} {LK : KvmIrqLaws K}.
#[local] Abbreviation Dim := (DeviceInterruptManager KvmGroup).
#[local] Abbreviation World := (KvmWorld K).
#[local] Abbreviation dim_eff := (eff (Dim * World) errno).

(** Creating groups binds nothing and sets no routes. *)
Definition quiet (w w' : World) : Prop :=
  routes w' = routes w /\ kvm_routes (kvm w') = kvm_routes (kvm w) /\ bound (kvm w') = bound (kvm w).

Lemma msix_quiet_trans (w1 w2 w3 : World) : quiet w1 w2 -> quiet w2 w3 -> quiet w1 w3.
Proof. unfold quiet. intuition congruence. Qed.

Lemma new_msi_configs_ok k (w : World) fds w' :
  new_msi_configs k w = (fds, w') ->
  quiet w w' /\ length fds = k /\ forall i fd gsi, fds !! i = Some fd -> (fd, gsi) ∉ bound (kvm w).
Proof.
  revert w fds w'. induction k as [|k IH]; intros w fds w'; cbn [new_msi_configs]; [by intros [= <- <-]|].
  destruct (efd_new (kvm w)) as [fd k1] eqn:Ef. apply efd_fresh in Ef as (Hf & Hb & Hr).
  destruct (new_msi_configs k _) as [fds1 w1] eqn:E1. intros [= <- <-]. apply IH in E1 as ((Q1 & Q2 & Q3) & Hl & Hn).
  cbn [routes kvm put_configs put_kvm] in *. split; [unfold quiet; intuition congruence|]. split; [cbn; by rewrite Hl|].
  intros [|i] fd' gsi Hi; [injection Hi as <-; apply Hf|]. rewrite <- Hb. by eapply Hn.
Qed.

Lemma create_group_ok ty base count (w w' : World) grp :
  kvm_create_group ty base count w = (Ok grp, w') ->
  quiet w w' /\
  (ty = MsiIrqSource -> exists fds, grp = MsiGroup base count fds /\ length fds = Z.to_nat count /\ base + count <= MAX_IRQS /\
     forall i fd gsi, fds !! i = Some fd -> (fd, gsi) ∉ bound (kvm w)).
Proof.
  unfold kvm_create_group. intros (g1 & w1 & E1 & [= -> <-])%seq_io_ok. destruct ty.
  - split; [|done]. unfold LegacyIrq_new in E1. destruct (_ || _); [done|]. destruct (efd_new (kvm w)) as [fd k1] eqn:Ef.
    apply efd_fresh in Ef as (_ & Hb & Hr). by injection E1 as <- <-.
  - unfold MsiIrq_new in E1. destruct (_ || _) eqn:Ec; [done|]. apply orb_false_iff in Ec as [_ Ec]. zbool.
    destruct (new_msi_configs (Z.to_nat count) w) as [fds w2] eqn:En. injection E1 as <- <-.
    apply new_msi_configs_ok in En as (Hq & Hl & Hn). split; [done|]. intros _. exists fds. done.
Qed.

(** A manager that is being created. *)
Record fresh_manager (d : Dim) : Prop := {
  fm_active : activated d = false;
  fm_modes : length (mode2idx d) = 5%nat;
  fm_msi : Forall is_msi (msi_config d);
}.

Lemma resize_msi k (d : Dim) :
  Forall is_msi (msi_config d) ->
  Forall is_msi (msi_config (resize_msi_config_space k d)) /\ k <= Z.of_nat (length (msi_config (resize_msi_config_space k d))).
Proof.
  intros Hd. unfold resize_msi_config_space. destruct (Z.ltb_spec (Z.of_nat (length (msi_config d))) k); [|split; [done|lia]].
  cbn [msi_config set_msi_config]. split; [|rewrite repeat_length; lia]. induction (Z.to_nat k); constructor; [done|done].
Qed.

Lemma add_group_ok m ty base count d w :
  fresh_manager d ->
  wp (add_group m ty base count : dim_eff unit) (fun r s' => r = Ok tt -> fresh_manager s'.1 /\ quiet w s'.2) (d, w).
Proof.
  intros [H1 H2 H3]. unfold add_group, upd. wp_steps. apply wp_sys_call. intros [grp|e] w' Hc; [|done]. wp_steps. intros _.
  apply create_group_ok in Hc as [Hq _]. cbn [fst snd] in *. split; [|done].
  split; cbn [activated mode2idx msi_config]; rewrite ?length_insert; destruct ty; try done.
  - unfold resize_msi_config_space. by destruct (_ <? _).
  - unfold resize_msi_config_space. by destruct (_ <? _).
  - by apply resize_msi.
Qed.

(** The group for MSI-X comes last. *)
Lemma add_msix_ok base n d w :
  fresh_manager d ->
  wp (add_group PciMsixIrq MsiIrqSource base (Z.of_nat n) : dim_eff unit) (fun r s' => r = Ok tt ->
    exists fds, manager_ok base n fds s'.1 false /\ quiet w s'.2 /\ length fds = n /\ base + Z.of_nat n <= MAX_IRQS /\
      forall i fd gsi, fds !! i = Some fd -> (fd, gsi) ∉ bound (kvm w)) (d, w).
Proof.
  intros [H1 H2 H3]. unfold add_group, upd. wp_steps. apply wp_sys_call. intros [grp|e] w' Hc; [|done]. wp_steps. intros _.
  change (kvm_create_group MsiIrqSource base (Z.of_nat n) w = (Ok grp, w')) in Hc.
  apply create_group_ok in Hc as [Hq Hg]. destruct (Hg eq_refl) as (fds & -> & Hl & Hmax & Hn). cbn [fst snd] in *. exists fds.
  rewrite Nat2Z.id in Hl. split; [|done]. destruct (resize_msi (Z.of_nat n) d H3) as [Hm Hr].
  assert (mode2idx (resize_msi_config_space (Z.of_nat n) d) = mode2idx d /\
          intr_groups (resize_msi_config_space (Z.of_nat n) d) = intr_groups d /\
          activated (resize_msi_config_space (Z.of_nat n) d) = activated d) as (E1 & E2 & E3).
  { unfold resize_msi_config_space. by destruct (_ <? _). }
  split; cbn [intr_groups mode2idx msi_config activated group_len kvm_source_group]; [|lia|done|congruence|done].
  unfold idx_of. cbn [mode2idx]. rewrite E1, E2. cbn [mode_index].
  rewrite nth_lookup, list_lookup_insert_eq by (rewrite H2; lia). cbn [default]. unfold id. rewrite at_index_nat.
  rewrite lookup_app_r by lia. by rewrite Nat.sub_diag.
Qed.
End creation.
(** The manager of a new device, with its MSI-X group. *)
Lemma dim_new_ok {K} `{LK : KvmIrqLaws K} resources base n (w : KvmWorld K) d w' :
  get_pci_msix_irqs resources = Some (base, Z.of_nat n) ->
  DIM_new resources (DIM_empty, w) = Ret (Ok tt, (d, w')) ->
  exists fds, manager_ok base n fds d false /\ quiet w w' /\ length fds = n /\ base + Z.of_nat n <= MAX_IRQS /\
    forall i fd gsi, fds !! i = Some fd -> (fd, gsi) ∉ bound (kvm w).
Proof.
  intros Hr Hnew. assert (fresh_manager (DIM_empty (G:=KvmGroup))) as Hf0 by (by split; [|done|constructor]).
  assert (forall m ty (o : option (Z * Z)) d1 w1, fresh_manager d1 ->
    wp (match o with Some (b, c) => add_group m ty b c | None => mret tt end : eff (DeviceInterruptManager KvmGroup * KvmWorld K) errno unit)
      (fun r s' => r = Ok tt -> fresh_manager s'.1 /\ quiet w1 s'.2) (d1, w1)) as Hopt.
  { intros m ty [[b c]|] d1 w1 H1; [by apply add_group_ok|]. apply wp_ret. done. }
  revert Hnew. unfold DIM_new. rewrite Hr.
  assert (match get_legacy_irq resources with Some irq => add_group LegacyIrqMode LegacyIrqSource irq 1 | None => mret tt end =
    (match option_map (fun irq => (irq, 1)) (get_legacy_irq resources) with
     | Some (b, c) => add_group LegacyIrqMode LegacyIrqSource b c | None => mret tt end
     : eff (DeviceInterruptManager KvmGroup * KvmWorld K) errno unit)) as -> by (by destruct (get_legacy_irq resources)).
  match goal with |- ?m _ = _ -> _ => assert (wp m (fun r s' => r = Ok tt -> exists fds, manager_ok base n fds s'.1 false /\
    quiet w s'.2 /\ length fds = n /\ base + Z.of_nat n <= MAX_IRQS /\
    forall i fd gsi, fds !! i = Some fd -> (fd, gsi) ∉ bound (kvm w)) (DIM_empty, w)) as Hwp end.
  2: { intros E. by apply Hwp in E; auto. }
  apply wp_bind. eapply wp_mono; [by apply Hopt|]. intros [[]|?] [d1 w1] H1; [|done]. destruct (H1 eq_refl) as [Hf1 Q1].
  apply wp_bind. eapply wp_mono; [by apply Hopt|]. intros [[]|?] [d2 w2] H2; [|done]. destruct (H2 eq_refl) as [Hf2 Q2].
  apply wp_bind. eapply wp_mono; [by apply Hopt|]. intros [[]|?] [d3 w3] H3; [|done]. destruct (H3 eq_refl) as [Hf3 Q3].
  cbn [fst snd] in *. eapply wp_mono; [by apply add_msix_ok|]. intros r s' H4 Hr4. destruct (H4 Hr4) as (fds & A1 & A2 & A3 & A4 & A5).
  exists fds. split; [done|]. pose proof (msix_quiet_trans _ _ _ Q1 (msix_quiet_trans _ _ _ Q2 Q3)) as (_ & _ & Hb). rewrite Hb in A5.
  split; [|done]. eapply msix_quiet_trans; [|exact A2]. eapply msix_quiet_trans; [exact Q1|]. by eapply msix_quiet_trans.
Qed.

(** C17: MSI-X over KVM refines the MSI-X table.  A new device gets an MSI-X group
    of [n] interrupts from [base] on, for which KVM has no routes yet, and its
    table has [n] entries.  After every sequence of writes to the control word and
    to the table that succeed, the message that KVM delivers when the device
    signals a vector is the one that the table asks for: the address and the data
    of the entry when MSI-X is on and neither the function nor the entry is masked,
    and none otherwise. *)
Theorem msix_delivery_refines {K} `{LK : KvmIrqLaws K} resources base n ops st (w0 : KvmWorld K) d w st' d' w' :
  get_pci_msix_irqs resources = Some (base, Z.of_nat n) -> 0 <= base ->
  synced w0 -> (forall i, (i < n)%nat -> routes w0 !! msi_key (base + Z.of_nat i) = None) ->
  DIM_new resources (DIM_empty, w0) = Ret (Ok tt, (d, w)) -> MsixState_new (Z.of_nat n) = Ret st ->
  Forall msix_op_ok ops -> for_each msix_op ops (st, (d, w)) = Ret (Ok tt, (st', (d', w'))) ->
  exists fds, at_index (intr_groups d) (idx_of d PciMsixIrq) = Some (MsiGroup base (Z.of_nat n) fds) /\
    forall i, (i < n)%nat -> kvm_delivers base fds w' i = msix_delivers st' i.
Proof.
  intros Hres Hbase Hs0 Hroutes Hnew Hst Hops Hrun.
  destruct (dim_new_ok _ _ _ _ _ _ Hres Hnew) as (fds & Hm & (Q1 & Q2 & Q3) & Hlen & Hmax & Hfresh).
  exists fds. split; [apply Hm|]. intros i Hi.
  assert (msix_inv base n fds (st, (d, w))) as Hinv.
  { unfold MsixState_new in Hst. destruct (_ <=? _); [|done]. injection Hst as <-. rewrite Nat2Z.id.
    split; cbn [fst snd table_entries msix_enabled]; [apply repeat_length| |done|unfold synced in *; congruence|].
    - clear. induction n; constructor; [split_and!; cbn; ulia|done].
    - intros j Hj. split; [|unfold route_at; rewrite Q1; by apply Hroutes].
      intros (fd & Hfd & Hin). rewrite Q3 in Hin. by apply Hfresh with (gsi := base + Z.of_nat j) in Hfd. }
  apply (msix_ops_ok base n fds Hlen Hbase Hmax ops _ Hops Hinv) in Hrun.
  by apply (inv_delivers base n fds Hlen (st', (d', w'))); [apply Hrun|].
Qed.

(** ** A small KVM *)

Record DemoKvm := mkDemoKvm { dk_bound : gset (nat * Z); dk_routes : gmap Z RoutingEntry; dk_used : gset nat }.

#[local] Instance demo_kvm_ops : KvmIrqOps DemoKvm := {|
  register_irqfd fd gsi k := (Ok tt, mkDemoKvm ({[(fd, gsi)]} ∪ dk_bound k) (dk_routes k) (dk_used k));
  unregister_irqfd fd gsi k := (Ok tt, mkDemoKvm (dk_bound k ∖ {[(fd, gsi)]}) (dk_routes k) (dk_used k));
  set_gsi_routing r k := (Ok tt, mkDemoKvm (dk_bound k) r (dk_used k));
  efd_new k := let fd := fresh (dk_used k ∪ set_map fst (dk_bound k)) in
               (fd, mkDemoKvm (dk_bound k) (dk_routes k) ({[fd]} ∪ dk_used k));
  efd_read fd k := (Err EOTHER, k);
  efd_write fd v k := (Ok tt, k);
|}.

#[local] Instance demo_kvm_laws : KvmIrqLaws DemoKvm.
Proof.
  refine {| bound := dk_bound; kvm_routes := dk_routes |}.
  - by intros fd gsi k k' [= <-].
  - by intros fd gsi k k' [= <-].
  - by intros r k k' [= <-].
  - by intros r k k' [=].
  - intros k fd k' [= <- <-]. split; [|done]. intros gsi Hin.
    apply (is_fresh (dk_used k ∪ set_map fst (dk_bound k))), elem_of_union. right. apply elem_of_map. by eexists (_, gsi).
Defined.

Definition demo_world : KvmWorld DemoKvm := KvmIrqManager_new (mkDemoKvm ∅ ∅ ∅).
Definition demo_resources : DeviceResources := mkDeviceResources [MsiIrq PciMsix 32 2].

(** The guest fills in the first entry, masks the second one and turns MSI-X on. *)
Definition demo_ops : list MsixOp :=
  [WriteTable 0 [0; 0; 0xe0; 0xfe; 0; 0; 0; 0]; WriteTable 8 [0x41; 0; 0; 0]; WriteTable 0x1c [1; 0; 0; 0]; SetMsgCtl 0x8000].

Definition demo_created : DeviceInterruptManager KvmGroup * KvmWorld DemoKvm :=
  match DIM_new demo_resources (DIM_empty, demo_world) with Ret (_, s) => s | Panic => (DIM_empty, demo_world) end.
Definition demo_table : MsixState := mkMsixState (repeat MsixTableEntry_default 2) false false.
Definition demo_run : MsixState * (DeviceInterruptManager KvmGroup * KvmWorld DemoKvm) :=
  match for_each msix_op demo_ops (demo_table, demo_created) with Ret (_, s) => s | Panic => (demo_table, demo_created) end.

Lemma msix_delivery_refines_witness :
  exists fds, kvm_delivers 32 fds demo_run.2.2 0 = Some (0xfee00000, 0, 0x41) /\ kvm_delivers 32 fds demo_run.2.2 1 = None.
Proof.
  destruct (msix_delivery_refines (K := DemoKvm) demo_resources 32 2 demo_ops demo_table demo_world demo_created.1 demo_created.2
    demo_run.1 demo_run.2.1 demo_run.2.2) as (fds & _ & H).
  - reflexivity.
  - lia.
  - reflexivity.
  - intros i Hi. reflexivity.
  - vm_compute. reflexivity.
  - reflexivity.
  - repeat constructor; cbn; lia.
  - vm_compute. reflexivity.
  - exists fds. rewrite (H 0%nat) by lia. rewrite (H 1%nat) by lia. split; vm_compute; reflexivity.
Defined.
