(* ===== verification/PciCommonConfig.v ===== *)
(** * The common configuration of virtio PCI devices

    Model of src/dragonball/dbs_pci/src/pci_common_config.rs: the registers of
    the common configuration structure, with one function for every width of
    an access.  The queues and the virtio device belong to the transport, which
    hands them to every access. *)
From S2P Require Import Prelude DeviceResources Effects InterruptManager MmioData.

(** The registers, and the vectors that the notifiers of the queues share. *)
Record VirtioPciCommonConfig := mkCommonConfig {
  cc_driver_status : Z;
  cc_config_generation : Z;
  cc_device_feature_select : Z;
  cc_driver_feature_select : Z;
  cc_queue_select : Z;
  cc_msix_config : Z;
  cc_msix_queues : list Z;
}.

Definition cc_put_status (v : Z) (c : VirtioPciCommonConfig) : VirtioPciCommonConfig :=
  mkCommonConfig v (cc_config_generation c) (cc_device_feature_select c) (cc_driver_feature_select c)
    (cc_queue_select c) (cc_msix_config c) (cc_msix_queues c).
Definition cc_put_device_select (v : Z) (c : VirtioPciCommonConfig) : VirtioPciCommonConfig :=
  mkCommonConfig (cc_driver_status c) (cc_config_generation c) v (cc_driver_feature_select c)
    (cc_queue_select c) (cc_msix_config c) (cc_msix_queues c).
Definition cc_put_driver_select (v : Z) (c : VirtioPciCommonConfig) : VirtioPciCommonConfig :=
  mkCommonConfig (cc_driver_status c) (cc_config_generation c) (cc_device_feature_select c) v
    (cc_queue_select c) (cc_msix_config c) (cc_msix_queues c).
Definition cc_put_queue_select (v : Z) (c : VirtioPciCommonConfig) : VirtioPciCommonConfig :=
  mkCommonConfig (cc_driver_status c) (cc_config_generation c) (cc_device_feature_select c) (cc_driver_feature_select c)
    v (cc_msix_config c) (cc_msix_queues c).
Definition cc_put_msix_config (v : Z) (c : VirtioPciCommonConfig) : VirtioPciCommonConfig :=
  mkCommonConfig (cc_driver_status c) (cc_config_generation c) (cc_device_feature_select c) (cc_driver_feature_select c)
    (cc_queue_select c) v (cc_msix_queues c).
Definition cc_put_msix_queues (v : list Z) (c : VirtioPciCommonConfig) : VirtioPciCommonConfig :=
  mkCommonConfig (cc_driver_status c) (cc_config_generation c) (cc_device_feature_select c) (cc_driver_feature_select c)
    (cc_queue_select c) (cc_msix_config c) v.

Section common_config.
Context {G V Q K : Type} `{QueueT Q K} `{VirtioDevice V G Q K}.

#[local] Abbreviation Queues := (list (VirtioQueueConfig G Q)).

(** What a write may change: the registers, the queues and the device. *)
#[local] Abbreviation cc_eff := (eff (VirtioPciCommonConfig * Queues * V) False).

Definition cc_with_queue {U} (c : VirtioPciCommonConfig) (qs : Queues) (f : Q -> U) : option U :=
  match at_index qs (cc_queue_select c) with Some q => Some (f (queue q)) | None => None end.

Definition cc_with_queue_mut (f : Q -> Q) : cc_eff unit :=
  modify (fun '(c, qs, v) =>
    (c, match at_index qs (cc_queue_select c) with
        | Some q =>
            <[Z.to_nat (cc_queue_select c) := mkQueueConfig (f (queue q)) (q_eventfd q) (q_notifier q) (q_index q)]> qs
        | None => qs
        end, v)).

Definition cc_upd (f : VirtioPciCommonConfig -> VirtioPciCommonConfig) : cc_eff unit :=
  modify (fun '(c, qs, v) => (f c, qs, v)).

Definition read_common_config_byte (c : VirtioPciCommonConfig) (offset : Z) : Z :=
  if offset =? 0x14 then cc_driver_status c
  else if offset =? 0x15 then cc_config_generation c
  else 0.

Definition write_common_config_byte (offset value : Z) : cc_eff unit :=
  if offset =? 0x14 then cc_upd (cc_put_status value) else mret tt.

(** The vector of the selected queue is taken by an index that panics. *)
Definition read_common_config_word (c : VirtioPciCommonConfig) (qs : Queues) (offset : Z) : outcome Z :=
  if offset =? 0x10 then Ret (cc_msix_config c)
  else if offset =? 0x12 then Ret (as_u16 (Z.of_nat (length qs)))
  else if offset =? 0x16 then Ret (cc_queue_select c)
  else if offset =? 0x18 then Ret (default 0 (cc_with_queue c qs (q_max_size (K:=K))))
  else if offset =? 0x1a then unwrap (at_index (cc_msix_queues c) (cc_queue_select c))
  else if offset =? 0x1c then Ret (Z.b2z (default false (cc_with_queue c qs (q_ready (K:=K)))))
  else if offset =? 0x1e then Ret (cc_queue_select c)
  else Ret 0.

Definition write_common_config_word (offset value : Z) : cc_eff unit :=
  if offset =? 0x10 then cc_upd (cc_put_msix_config value)
  else if offset =? 0x16 then cc_upd (cc_put_queue_select value)
  else if offset =? 0x18 then cc_with_queue_mut (q_set_size (K:=K) value)
  else if offset =? 0x1a then
    c ← gets (fun s => s.1.1);
    _ ← expect (at_index (cc_msix_queues c) (cc_queue_select c));
    cc_upd (cc_put_msix_queues (<[Z.to_nat (cc_queue_select c) := value]> (cc_msix_queues c)))
  else if offset =? 0x1c then cc_with_queue_mut (q_set_ready (K:=K) (value =? 1))
  else mret tt.

Definition read_common_config_dword (c : VirtioPciCommonConfig) (v : V) (offset : Z) : Z :=
  if offset =? 0x00 then cc_device_feature_select c
  else if offset =? 0x04 then
    if cc_device_feature_select c <? 2 then get_avail_features (Q:=Q) (G:=G) (K:=K) v (cc_device_feature_select c) else 0
  else if offset =? 0x08 then cc_driver_feature_select c
  else 0.

Definition write_common_config_dword (offset value : Z) : cc_eff unit :=
  if offset =? 0x00 then cc_upd (cc_put_device_select value)
  else if offset =? 0x08 then cc_upd (cc_put_driver_select value)
  else if offset =? 0x0c then
    modify (fun '(c, qs, v) =>
      (c, qs, if cc_driver_feature_select c <? 2
              then dev_set_acked_features (Q:=Q) (G:=G) (K:=K) (cc_driver_feature_select c) value v else v))
  else if offset =? 0x20 then cc_with_queue_mut (q_set_desc_table_address (K:=K) (Some value) None)
  else if offset =? 0x24 then cc_with_queue_mut (q_set_desc_table_address (K:=K) None (Some value))
  else if offset =? 0x28 then cc_with_queue_mut (q_set_avail_ring_address (K:=K) (Some value) None)
  else if offset =? 0x2c then cc_with_queue_mut (q_set_avail_ring_address (K:=K) None (Some value))
  else if offset =? 0x30 then cc_with_queue_mut (q_set_used_ring_address (K:=K) (Some value) None)
  else if offset =? 0x34 then cc_with_queue_mut (q_set_used_ring_address (K:=K) None (Some value))
  else mret tt.

Definition read_common_config_qword : Z := 0.

Definition write_common_config_qword (offset value : Z) : cc_eff unit :=
  let low := Some (as_u32 (Z.land value 0xffffffff)) in
  let high := Some (as_u32 (Z.shiftr value 32)) in
  if offset =? 0x20 then cc_with_queue_mut (q_set_desc_table_address (K:=K) low high)
  else if offset =? 0x28 then cc_with_queue_mut (q_set_avail_ring_address (K:=K) low high)
  else if offset =? 0x30 then cc_with_queue_mut (q_set_used_ring_address (K:=K) low high)
  else mret tt.

(** [read]: the bytes that the buffer holds afterwards. *)
Definition cc_read (c : VirtioPciCommonConfig) (qs : Queues) (v : V) (offset : Z) (data : list Z) : outcome (list Z) :=
  if negb (Nat.leb (length data) 8) then Panic else
  match length data with
  | 1%nat => Ret [read_common_config_byte c offset]
  | 2%nat => w ← read_common_config_word c qs offset; Ret (le_write 2 w)
  | 4%nat => Ret (le_write 4 (read_common_config_dword c v offset))
  | 8%nat => Ret (le_write 8 read_common_config_qword)
  | _ => Ret data
  end.

Definition cc_write (offset : Z) (data : list Z) : cc_eff unit :=
  if negb (Nat.leb (length data) 8) then panic else
  match length data with
  | 1%nat => write_common_config_byte offset (le_read data)
  | 2%nat => write_common_config_word offset (le_read data)
  | 4%nat => write_common_config_dword offset (le_read data)
  | 8%nat => write_common_config_qword offset (le_read data)
  | _ => mret tt
  end.
End common_config.
