(* ===== verification/VirtioPci.v ===== *)
(** * The virtio PCI transport

    Model of src/dragonball/dbs_pci/src/virtio_pci.rs: the capabilities that
    tell the driver where the structures lie in the BAR, the construction of
    the device and its BARs, the accesses to the BAR with the activation and
    the reset that they lead to, and the accesses to the configuration space.
    A method holds the locks that it needs from its start to its end, so here an
    access is one step; the order in which it takes the locks is the subject of
    [VirtioPciLocks].  The state [K] holds what the calls to KVM, to the
    interrupt groups and to the device change. *)
From S2P Require Import Prelude DeviceResources Effects InterruptManager MmioData MmioTransport PciBus PciConfig PciMsi PciCommonConfig.

(** ** Capabilities *)

Inductive PciCapabilityType := CapCommon | CapNotify | CapIsr | CapDevice | CapPci | CapDeviceAux | CapDriverAux | CapSharedMemory.

Definition capability_type_value (t : PciCapabilityType) : Z :=
  match t with
  | CapCommon => 1 | CapNotify => 2 | CapIsr => 3 | CapDevice => 4 | CapPci => 5
  | CapDeviceAux => 20 | CapDriverAux => 21 | CapSharedMemory => 8
  end.

Record VirtioPciCap := mkVirtioPciCap {
  vc_cap_id : Z; vc_cap_next : Z; vc_cap_len : Z; vc_cfg_type : Z; vc_pci_bar : Z; vc_id : Z;
  vc_padding : Z * Z; vc_offset : Z; vc_length : Z }.
Record VirtioPciNotifyCap := mkNotifyCap { nc_cap : VirtioPciCap; nc_notify_off_multiplier : Z }.
Record VirtioPciCap64 := mkCap64 { c64_cap : VirtioPciCap; c64_offset_hi : Z; c64_length_hi : Z }.

Definition VirtioPciCap_new (cfg_type : PciCapabilityType) (pci_bar offset length : Z) : VirtioPciCap :=
  mkVirtioPciCap (capability_id_value VendorSpecific) 0 16 (capability_type_value cfg_type) pci_bar 0 (0, 0) offset length.
Definition VirtioPciNotifyCap_new (cfg_type : PciCapabilityType) (pci_bar offset length multiplier : Z) : VirtioPciNotifyCap :=
  mkNotifyCap
    (mkVirtioPciCap (capability_id_value VendorSpecific) 0 20 (capability_type_value cfg_type) pci_bar 0 (0, 0) offset length)
    multiplier.
Definition VirtioPciCap64_new (cfg_type : PciCapabilityType) (pci_bar id offset length : Z) : VirtioPciCap64 :=
  mkCap64
    (mkVirtioPciCap (capability_id_value VendorSpecific) 0 24 (capability_type_value cfg_type) pci_bar id (0, 0)
       (as_u32 offset) (as_u32 length))
    (as_u32 (Z.shiftr offset 32)) (as_u32 (Z.shiftr length 32)).

(** The trait [ByteValued] of packed structures: the structure as its bytes. *)
Class ByteValued (A : Type) := { as_slice : A -> list Z; of_slice : list Z -> A }.

#[global] Instance cap_bytes : ByteValued VirtioPciCap := {|
  as_slice c :=
    [vc_cap_id c; vc_cap_next c; vc_cap_len c; vc_cfg_type c; vc_pci_bar c; vc_id c; (vc_padding c).1; (vc_padding c).2]
    ++ le_write 4 (vc_offset c) ++ le_write 4 (vc_length c);
  of_slice l :=
    let b i := nth i l 0 in
    mkVirtioPciCap (b 0%nat) (b 1%nat) (b 2%nat) (b 3%nat) (b 4%nat) (b 5%nat) (b 6%nat, b 7%nat)
      (le_read (take 4 (drop 8 l))) (le_read (take 4 (drop 12 l)));
|}.
#[global] Instance notify_cap_bytes : ByteValued VirtioPciNotifyCap := {|
  as_slice c := as_slice (nc_cap c) ++ le_write 4 (nc_notify_off_multiplier c);
  of_slice l := mkNotifyCap (of_slice (take 16 l)) (le_read (take 4 (drop 16 l)));
|}.
#[global] Instance cap64_bytes : ByteValued VirtioPciCap64 := {|
  as_slice c := as_slice (c64_cap c) ++ le_write 4 (c64_offset_hi c) ++ le_write 4 (c64_length_hi c);
  of_slice l := mkCap64 (of_slice (take 16 l)) (le_read (take 4 (drop 16 l))) (le_read (take 4 (drop 20 l)));
|}.

(** The methods that the macro [impl_pci_capability] gives every structure. *)
Section bytes.
Context {A : Type} `{ByteValued A}.

Definition slice_len (c : A) : Z := Z.of_nat (length (as_slice c)).
Definition slice_read_u8 (c : A) (offset : Z) : Z :=
  if offset <? slice_len c then nth (Z.to_nat offset) (as_slice c) 0 else 0xff.
Definition slice_write_u8 (offset value : Z) (c : A) : A :=
  if offset <? slice_len c then of_slice (<[Z.to_nat offset := value]> (as_slice c)) else c.
End bytes.

Definition set_cap_next (next : Z) (c : VirtioPciCap) : VirtioPciCap :=
  mkVirtioPciCap (vc_cap_id c) next (vc_cap_len c) (vc_cfg_type c) (vc_pci_bar c) (vc_id c) (vc_padding c)
    (vc_offset c) (vc_length c).

(** The trait objects in the configuration space of a virtio device. *)
Inductive VirtioCapability :=
| BoxVp2p (c : Vp2pCap) | BoxCap (c : VirtioPciCap) | BoxNotify (c : VirtioPciNotifyCap)
| BoxCap64 (c : VirtioPciCap64) | BoxMsix (c : MsixCap).

Definition vcap_len (c : VirtioCapability) : Z :=
  match c with
  | BoxVp2p c => cap_len c | BoxCap c => slice_len c | BoxNotify c => slice_len c | BoxCap64 c => slice_len c
  | BoxMsix c => cap_len c
  end.
Definition vcap_set_next (next : Z) (c : VirtioCapability) : VirtioCapability :=
  match c with
  | BoxVp2p c => BoxVp2p (set_next_cap next c)
  | BoxCap c => BoxCap (set_cap_next next c)
  | BoxNotify c => BoxNotify (mkNotifyCap (set_cap_next next (nc_cap c)) (nc_notify_off_multiplier c))
  | BoxCap64 c => BoxCap64 (mkCap64 (set_cap_next next (c64_cap c)) (c64_offset_hi c) (c64_length_hi c))
  | BoxMsix c => BoxMsix (set_next_cap next c)
  end.
Definition vcap_read_u8 (c : VirtioCapability) (offset : Z) : Z :=
  match c with
  | BoxVp2p c => cap_u8 c offset
  | BoxCap c => slice_read_u8 c offset
  | BoxNotify c => slice_read_u8 c offset
  | BoxCap64 c => slice_read_u8 c offset
  | BoxMsix c => cap_u8 c offset
  end.
Definition vcap_write_u8 (offset value : Z) (c : VirtioCapability) : VirtioCapability :=
  match c with
  | BoxVp2p c => BoxVp2p (cap_set_u8 offset value c)
  | BoxCap c => BoxCap (slice_write_u8 offset value c)
  | BoxNotify c => BoxNotify (slice_write_u8 offset value c)
  | BoxCap64 c => BoxCap64 (slice_write_u8 offset value c)
  | BoxMsix c => BoxMsix (cap_set_u8 offset value c)
  end.
Definition vcap_type (c : VirtioCapability) : PciCapabilityId :=
  match c with
  | BoxVp2p c => pci_capability_type c
  | BoxCap c => PciCapabilityId_from (vc_cap_id c)
  | BoxNotify c => PciCapabilityId_from (vc_cap_id (nc_cap c))
  | BoxCap64 c => PciCapabilityId_from (vc_cap_id (c64_cap c))
  | BoxMsix c => pci_capability_type c
  end.

#[global] Instance virtio_capability : PciCapability VirtioCapability := {|
  cap_len := vcap_len;
  set_next_cap := vcap_set_next;
  cap_u8 := vcap_read_u8;
  cap_u16 c := default_read_u16 (vcap_read_u8 c);
  cap_u32 c := default_read_u32 (default_read_u16 (vcap_read_u8 c));
  cap_set_u8 := vcap_write_u8;
  cap_set_u16 := default_write_u16 vcap_write_u8;
  cap_set_u32 := default_write_u32 (default_write_u16 vcap_write_u8);
  pci_capability_type := vcap_type;
|}.

(** ** The device *)

Abbreviation COMMON_CONFIG_BAR_OFFSET := 0x0000.
Abbreviation COMMON_CONFIG_SIZE := 56.
Abbreviation ISR_CONFIG_BAR_OFFSET := 0x2000.
Abbreviation ISR_CONFIG_SIZE := 1.
Abbreviation DEVICE_CONFIG_BAR_OFFSET := 0x4000.
Abbreviation DEVICE_CONFIG_SIZE := 0x1000.
Abbreviation NOTIFICATION_BAR_OFFSET := 0x6000.
Abbreviation NOTIFICATION_SIZE := 0x1000.
Abbreviation MSIX_TABLE_BAR_OFFSET := 0x8000.
Abbreviation MSIX_TABLE_SIZE := 0x40000.
Abbreviation MSIX_PBA_BAR_OFFSET := 0x48000.
Abbreviation MSIX_PBA_SIZE := 0x800.
Abbreviation CAPABILITY_BAR_SIZE := 0x80000.
Abbreviation VIRTIO_COMMON_BAR_INDEX := 0.
Abbreviation VIRTIO_SHM_BAR_INDEX := 2.
Abbreviation NOTIFY_OFF_MULTIPLIER := 4.
Abbreviation VIRTIO_PCI_VENDOR_ID := 0x1af4.
Abbreviation VIRTIO_PCI_DEVICE_ID_BASE := 0x1040.
Abbreviation VIRTQ_MSI_NO_VECTOR := 0xffff.
Abbreviation TYPE_NET := 1.
Abbreviation TYPE_BLOCK := 2.

Inductive VirtioPciDeviceError :=
| InvalidMsixResource | CreateEventFd (e : errno) | CapabilitiesSetup (e : PciError) | CreatePciConfiguration (e : PciError)
| CreateInterruptManager (e : errno) | SetInterruptWorkingMode (e : errno) | MissingSettingBarResource
| InvalidResource (r : Resource) | AddDeviceBar (e : PciError) | IoRegistrationFailed (a : Z) (e : PciError)
| InvalidInterruptGroup | InvalidDeviceAuxSize (n : Z) | VirtioQueue (e : TransportError) | SetResource (e : TransportError)
| BusIsDropped.

Section device.
Context {G V Q K : Type} `{InterruptSourceGroup G K} `{Vm K} `{QueueT Q K} `{VirtioDevice V G Q K}.

Record VirtioPciDevice := mkVirtioPci {
  vp_dev_id : Z;
  vp_device : V;
  vp_queues : list (VirtioQueueConfig G Q);
  vp_device_resource : DeviceResources;
  vp_shm_regions : option VirtioSharedMemoryList;
  vp_has_ctrl_queue : bool;
  vp_configuration : PciConfiguration VirtioCapability;
  vp_common_config : VirtioPciCommonConfig;
  vp_device_activated : bool;
  vp_ioevent_registered : bool;
  vp_interrupt_status : Z;
  vp_msix_state : MsixState;
  vp_intr_mgr : DeviceInterruptManager G;
  vp_msix_num : Z;
  vp_msix_cap_reg_idx : Z;
  vp_settings_bar : Z;
  vp_setting_bar_res : Resource;
  vp_use_64bit_bar : bool;
  vp_bar_regions : list PciBarConfiguration;
}.

(** The setters of the fields that change after the construction. *)
Definition vput_device (v : V) (d : VirtioPciDevice) : VirtioPciDevice :=
  mkVirtioPci (vp_dev_id d) v (vp_queues d) (vp_device_resource d) (vp_shm_regions d) (vp_has_ctrl_queue d) (vp_configuration d)
    (vp_common_config d) (vp_device_activated d) (vp_ioevent_registered d) (vp_interrupt_status d) (vp_msix_state d) (vp_intr_mgr d)
    (vp_msix_num d) (vp_msix_cap_reg_idx d) (vp_settings_bar d) (vp_setting_bar_res d) (vp_use_64bit_bar d) (vp_bar_regions d).
Definition vput_queues (v : list (VirtioQueueConfig G Q)) (d : VirtioPciDevice) : VirtioPciDevice :=
  mkVirtioPci (vp_dev_id d) (vp_device d) v (vp_device_resource d) (vp_shm_regions d) (vp_has_ctrl_queue d) (vp_configuration d)
    (vp_common_config d) (vp_device_activated d) (vp_ioevent_registered d) (vp_interrupt_status d) (vp_msix_state d) (vp_intr_mgr d)
    (vp_msix_num d) (vp_msix_cap_reg_idx d) (vp_settings_bar d) (vp_setting_bar_res d) (vp_use_64bit_bar d) (vp_bar_regions d).
Definition vput_shm_regions (v : option VirtioSharedMemoryList) (d : VirtioPciDevice) : VirtioPciDevice :=
  mkVirtioPci (vp_dev_id d) (vp_device d) (vp_queues d) (vp_device_resource d) v (vp_has_ctrl_queue d) (vp_configuration d)
    (vp_common_config d) (vp_device_activated d) (vp_ioevent_registered d) (vp_interrupt_status d) (vp_msix_state d) (vp_intr_mgr d)
    (vp_msix_num d) (vp_msix_cap_reg_idx d) (vp_settings_bar d) (vp_setting_bar_res d) (vp_use_64bit_bar d) (vp_bar_regions d).
Definition vput_configuration (v : PciConfiguration VirtioCapability) (d : VirtioPciDevice) : VirtioPciDevice :=
  mkVirtioPci (vp_dev_id d) (vp_device d) (vp_queues d) (vp_device_resource d) (vp_shm_regions d) (vp_has_ctrl_queue d) v
    (vp_common_config d) (vp_device_activated d) (vp_ioevent_registered d) (vp_interrupt_status d) (vp_msix_state d) (vp_intr_mgr d)
    (vp_msix_num d) (vp_msix_cap_reg_idx d) (vp_settings_bar d) (vp_setting_bar_res d) (vp_use_64bit_bar d) (vp_bar_regions d).
Definition vput_common_config (v : VirtioPciCommonConfig) (d : VirtioPciDevice) : VirtioPciDevice :=
  mkVirtioPci (vp_dev_id d) (vp_device d) (vp_queues d) (vp_device_resource d) (vp_shm_regions d) (vp_has_ctrl_queue d) (vp_configuration d)
    v (vp_device_activated d) (vp_ioevent_registered d) (vp_interrupt_status d) (vp_msix_state d) (vp_intr_mgr d)
    (vp_msix_num d) (vp_msix_cap_reg_idx d) (vp_settings_bar d) (vp_setting_bar_res d) (vp_use_64bit_bar d) (vp_bar_regions d).
Definition vput_device_activated (v : bool) (d : VirtioPciDevice) : VirtioPciDevice :=
  mkVirtioPci (vp_dev_id d) (vp_device d) (vp_queues d) (vp_device_resource d) (vp_shm_regions d) (vp_has_ctrl_queue d) (vp_configuration d)
    (vp_common_config d) v (vp_ioevent_registered d) (vp_interrupt_status d) (vp_msix_state d) (vp_intr_mgr d)
    (vp_msix_num d) (vp_msix_cap_reg_idx d) (vp_settings_bar d) (vp_setting_bar_res d) (vp_use_64bit_bar d) (vp_bar_regions d).
Definition vput_ioevent_registered (v : bool) (d : VirtioPciDevice) : VirtioPciDevice :=
  mkVirtioPci (vp_dev_id d) (vp_device d) (vp_queues d) (vp_device_resource d) (vp_shm_regions d) (vp_has_ctrl_queue d) (vp_configuration d)
    (vp_common_config d) (vp_device_activated d) v (vp_interrupt_status d) (vp_msix_state d) (vp_intr_mgr d)
    (vp_msix_num d) (vp_msix_cap_reg_idx d) (vp_settings_bar d) (vp_setting_bar_res d) (vp_use_64bit_bar d) (vp_bar_regions d).
Definition vput_interrupt_status (v : Z) (d : VirtioPciDevice) : VirtioPciDevice :=
  mkVirtioPci (vp_dev_id d) (vp_device d) (vp_queues d) (vp_device_resource d) (vp_shm_regions d) (vp_has_ctrl_queue d) (vp_configuration d)
    (vp_common_config d) (vp_device_activated d) (vp_ioevent_registered d) v (vp_msix_state d) (vp_intr_mgr d)
    (vp_msix_num d) (vp_msix_cap_reg_idx d) (vp_settings_bar d) (vp_setting_bar_res d) (vp_use_64bit_bar d) (vp_bar_regions d).
Definition vput_msix_state (v : MsixState) (d : VirtioPciDevice) : VirtioPciDevice :=
  mkVirtioPci (vp_dev_id d) (vp_device d) (vp_queues d) (vp_device_resource d) (vp_shm_regions d) (vp_has_ctrl_queue d) (vp_configuration d)
    (vp_common_config d) (vp_device_activated d) (vp_ioevent_registered d) (vp_interrupt_status d) v (vp_intr_mgr d)
    (vp_msix_num d) (vp_msix_cap_reg_idx d) (vp_settings_bar d) (vp_setting_bar_res d) (vp_use_64bit_bar d) (vp_bar_regions d).
Definition vput_intr_mgr (v : DeviceInterruptManager G) (d : VirtioPciDevice) : VirtioPciDevice :=
  mkVirtioPci (vp_dev_id d) (vp_device d) (vp_queues d) (vp_device_resource d) (vp_shm_regions d) (vp_has_ctrl_queue d) (vp_configuration d)
    (vp_common_config d) (vp_device_activated d) (vp_ioevent_registered d) (vp_interrupt_status d) (vp_msix_state d) v
    (vp_msix_num d) (vp_msix_cap_reg_idx d) (vp_settings_bar d) (vp_setting_bar_res d) (vp_use_64bit_bar d) (vp_bar_regions d).
Definition vput_msix_cap_reg_idx (v : Z) (d : VirtioPciDevice) : VirtioPciDevice :=
  mkVirtioPci (vp_dev_id d) (vp_device d) (vp_queues d) (vp_device_resource d) (vp_shm_regions d) (vp_has_ctrl_queue d) (vp_configuration d)
    (vp_common_config d) (vp_device_activated d) (vp_ioevent_registered d) (vp_interrupt_status d) (vp_msix_state d) (vp_intr_mgr d)
    (vp_msix_num d) v (vp_settings_bar d) (vp_setting_bar_res d) (vp_use_64bit_bar d) (vp_bar_regions d).
Definition vput_settings_bar (v : Z) (d : VirtioPciDevice) : VirtioPciDevice :=
  mkVirtioPci (vp_dev_id d) (vp_device d) (vp_queues d) (vp_device_resource d) (vp_shm_regions d) (vp_has_ctrl_queue d) (vp_configuration d)
    (vp_common_config d) (vp_device_activated d) (vp_ioevent_registered d) (vp_interrupt_status d) (vp_msix_state d) (vp_intr_mgr d)
    (vp_msix_num d) (vp_msix_cap_reg_idx d) v (vp_setting_bar_res d) (vp_use_64bit_bar d) (vp_bar_regions d).
Definition vput_bar_regions (v : list PciBarConfiguration) (d : VirtioPciDevice) : VirtioPciDevice :=
  mkVirtioPci (vp_dev_id d) (vp_device d) (vp_queues d) (vp_device_resource d) (vp_shm_regions d) (vp_has_ctrl_queue d) (vp_configuration d)
    (vp_common_config d) (vp_device_activated d) (vp_ioevent_registered d) (vp_interrupt_status d) (vp_msix_state d) (vp_intr_mgr d)
    (vp_msix_num d) (vp_msix_cap_reg_idx d) (vp_settings_bar d) (vp_setting_bar_res d) (vp_use_64bit_bar d) v.

(** *** Effects *)

#[local] Abbreviation St := (VirtioPciDevice * K)%type.

Definition vp {E A} (f : VirtioPciDevice -> A) : eff St E A := gets (fun s => f s.1).
Definition vp_upd {E} (f : VirtioPciDevice -> VirtioPciDevice) : eff St E unit := modify (fun s => (f s.1, s.2)).
Definition vp_sys {A} (f : K -> result errno A * K) : eff St errno A := fun s =>
  let '(r, k) := f s.2 in Ret (r, (s.1, k)).

(** A call whose result is dropped. *)
Definition vp_ignore {E E' A} (m : eff St E A) : eff St E' unit := _ ← attempt m; mret tt.

(** Methods of the interrupt manager, of the MSI-X state with it, of the
    configuration space and of the virtio device. *)
Definition vp_intr {A} (m : eff (DeviceInterruptManager G * K) errno A) : eff St errno A :=
  zoom (fun s => (vp_intr_mgr s.1, s.2)) (fun t s => (vput_intr_mgr t.1 s.1, t.2)) m.
Definition vp_msix {A} (m : eff (MsixState * (DeviceInterruptManager G * K)) errno A) : eff St errno A :=
  zoom (fun s => (vp_msix_state s.1, (vp_intr_mgr s.1, s.2)))
       (fun t s => (vput_msix_state t.1 (vput_intr_mgr t.2.1 s.1), t.2.2)) m.
Definition vp_config {A} (m : eff (PciConfiguration VirtioCapability) PciError A) : eff St PciError A :=
  zoom (fun s => vp_configuration s.1) (fun c s => (vput_configuration c s.1, s.2)) m.
Definition vp_on_device {E A} (f : V -> K -> result E A * V * K) : eff St E A := fun s =>
  let '(r, v, k) := f (vp_device s.1) s.2 in Ret (r, (vput_device v s.1, k)).

(** ** Construction *)

Definition device_class (ty : Z) : PciClassCode * Z :=
  if ty =? TYPE_NET then (NetworkController, 0x00)
  else if ty =? TYPE_BLOCK then (MassStorage, 0x80)
  else (OtherClass, 0xff).

Definition vp_new (resource : DeviceResources) (dev_id : Z) (v : V) (use_64bit_bar : bool) (setting_bar_res : Resource)
    : eff K VirtioPciDeviceError VirtioPciDevice :=
  '(qs, has_ctrl_queue) ← map_err VirtioQueue (create_queues v);
  match get_pci_msix_irqs resource with
  | None => throw InvalidMsixResource
  | Some (_, size) =>
      msix_state ← lift_outcome (MsixState_new (as_u16 size));
      im ← (fun k => match DIM_new resource (DIM_empty, k) with
            | Panic => Panic
            | Ret (Err e, (_, k)) => Ret (Err (CreateInterruptManager e), k)
            | Ret (Ok _, (im, k)) =>
                match set_working_mode PciMsixIrq (im, k) with
                | Panic => Panic
                | Ret (Err e, (_, k)) => Ret (Err (SetInterruptWorkingMode e), k)
                | Ret (Ok _, (im, k)) => Ret (Ok im, k)
                end
            end);
      let num_queues := (length (queue_max_sizes (Q:=Q) (G:=G) (K:=K) v) + Nat.b2n has_ctrl_queue)%nat in
      let ty := device_type (Q:=Q) (G:=G) (K:=K) v in
      pci_device_id ← lift_outcome (uadd u16_max VIRTIO_PCI_DEVICE_ID_BASE (as_u16 ty));
      let '(class, subclass) := device_class ty in
      r ← lift_outcome (PciConfiguration_new BoxVp2p VIRTIO_PCI_VENDOR_ID pci_device_id class subclass None HeaderDevice 0 0 None);
      match r with
      | Err e => throw (CreatePciConfiguration e)
      | Ok configuration =>
          let common_config := mkCommonConfig 0 0 0 0 0 VIRTQ_MSI_NO_VECTOR (repeat VIRTQ_MSI_NO_VECTOR num_queues) in
          mret (mkVirtioPci dev_id v qs resource None has_ctrl_queue configuration common_config false false 0
                  msix_state im (as_u16 size) 0 0 setting_bar_res use_64bit_bar [])
      end
  end.

Definition get_interrupt_requirements (v : V) (requests : list ResourceConstraint) : list ResourceConstraint :=
  let has_ctrl_queue := Nat.b2n (0 <? ctrl_queue_max_sizes (Q:=Q) (G:=G) (K:=K) v) in
  requests ++ [RC_PciMsixIrq (as_u32 (Z.of_nat (length (queue_max_sizes (Q:=Q) (G:=G) (K:=K) v) + has_ctrl_queue + 1)))].

Definition vp_add_cap (c : VirtioCapability) : eff St VirtioPciDeviceError Z :=
  map_err CapabilitiesSetup (vp_config (add_capability c)).

Definition add_pci_capabilities (settings_bar : Z) : eff St VirtioPciDeviceError unit :=
  _ ← vp_add_cap (BoxCap (VirtioPciCap_new CapCommon settings_bar COMMON_CONFIG_BAR_OFFSET COMMON_CONFIG_SIZE));
  _ ← vp_add_cap (BoxCap (VirtioPciCap_new CapIsr settings_bar ISR_CONFIG_BAR_OFFSET ISR_CONFIG_SIZE));
  _ ← vp_add_cap (BoxCap (VirtioPciCap_new CapDevice settings_bar DEVICE_CONFIG_BAR_OFFSET DEVICE_CONFIG_SIZE));
  _ ← vp_add_cap (BoxNotify (VirtioPciNotifyCap_new CapNotify settings_bar NOTIFICATION_BAR_OFFSET NOTIFICATION_SIZE
                               NOTIFY_OFF_MULTIPLIER));
  msix_num ← vp vp_msix_num;
  _ ← (if 0 <? msix_num then
         msix_cap ← lift_outcome (MsixCap_new settings_bar msix_num MSIX_TABLE_BAR_OFFSET settings_bar MSIX_PBA_BAR_OFFSET);
         cap_offset ← vp_add_cap (BoxMsix msix_cap);
         vp_upd (vput_msix_cap_reg_idx (as_u32 (cap_offset / 4)))
       else mret tt);
  vp_upd (vput_settings_bar settings_bar).

(** The capabilities of the shared memory regions. *)
Definition add_shm_capabilities (regions : list VirtioSharedMemory) : eff St VirtioPciDeviceError unit :=
  for_each (fun '(idx, shm) =>
    _ ← vp_add_cap (BoxCap64 (VirtioPciCap64_new CapSharedMemory VIRTIO_SHM_BAR_INDEX (as_u8 (Z.of_nat idx))
                                (shm_offset shm) (shm_len shm)));
    mret tt) (imap pair regions).

Definition alloc_bars : eff St VirtioPciDeviceError unit :=
  res ← vp vp_setting_bar_res;
  match res with
  | MmioAddressRange base _ =>
      wide ← vp vp_use_64bit_bar;
      bar ← lift_outcome (set_bar_index VIRTIO_COMMON_BAR_INDEX PciBarConfiguration_default);
      bar ← lift_outcome (set_bar_type (if (wide : bool) then Memory64BitRegion else Memory32BitRegion)
                            (set_size CAPABILITY_BAR_SIZE (set_address base bar)));
      _ ← map_err AddDeviceBar (vp_config (add_device_bar bar));
      _ ← add_pci_capabilities VIRTIO_COMMON_BAR_INDEX;
      resource ← vp vp_device_resource;
      shm_regions ← map_err SetResource (vp_on_device (dev_set_resource (Q:=Q) (G:=G) resource));
      _ ← (match shm_regions with
           | Some shm_list =>
               shm ← lift_outcome (set_bar_index VIRTIO_SHM_BAR_INDEX PciBarConfiguration_default);
               let shm := set_prefetchable Prefetchable (set_size (shm_list_len shm_list) (set_address (guest_addr shm_list) shm)) in
               _ ← map_err (IoRegistrationFailed (guest_addr shm_list)) (vp_config (add_device_bar shm));
               _ ← add_shm_capabilities (region_list shm_list);
               vp_upd (vput_shm_regions (Some shm_list))
           | None => mret tt
           end);
      vp_upd (vput_bar_regions [bar])
  | r => throw (InvalidResource r)
  end.

(** [move_bar], on the regions of the device. *)
Definition move_bar (old_base new_base : Z) (d : VirtioPciDevice) : VirtioPciDevice :=
  vput_bar_regions (map (fun b => if c_addr b =? old_base then set_address new_base b else b) (vp_bar_regions d)) d.

(** ** Activation and reset *)

Definition is_driver_ready (d : VirtioPciDevice) : bool :=
  let ready_bits := Z.lor (Z.lor (Z.lor DEVICE_ACKNOWLEDGE DEVICE_DRIVER) DEVICE_DRIVER_OK) DEVICE_FEATURES_OK in
  let status := cc_driver_status (vp_common_config d) in
  (status =? ready_bits) && (Z.land status DEVICE_FAILED =? 0).

Definition is_driver_init (d : VirtioPciDevice) : bool := cc_driver_status (vp_common_config d) =? DEVICE_INIT.

Definition needs_activation (d : VirtioPciDevice) : bool := negb (vp_device_activated d) && is_driver_ready d.

Definition config_bar_addr (d : VirtioPciDevice) : outcome Z :=
  get_device_bar_addr (vp_configuration d) (vp_settings_bar d).

(** The notification address of a queue. *)
Definition notify_addr (base : Z) (i : nat) : outcome Z :=
  notify_base ← uadd u64_max base NOTIFICATION_BAR_OFFSET;
  uadd u64_max notify_base (Z.of_nat i * NOTIFY_OFF_MULTIPLIER).

Definition vp_register_ioevent : eff St errno unit :=
  d ← vp id;
  base ← lift_outcome (config_bar_addr d);
  _ ← for_each (fun '(i, q) =>
        addr ← lift_outcome (notify_addr base i);
        vp_sys (register_ioevent (q_eventfd q) addr NoDatamatch)) (imap pair (vp_queues d));
  vp_upd (vput_ioevent_registered true).

Definition vp_unregister_ioevent {E} : eff St E unit :=
  d ← vp id;
  if vp_ioevent_registered d then
    base ← lift_outcome (config_bar_addr d);
    _ ← for_each (fun '(i, q) =>
          addr ← lift_outcome (notify_addr base i);
          vp_ignore (vp_sys (unregister_ioevent (q_eventfd q) addr NoDatamatch))) (imap pair (vp_queues d));
    vp_upd (vput_ioevent_registered false)
  else mret tt.

Definition vp_check_queues_valid (s : St) : bool :=
  forallb (fun c => q_is_valid s.2 (queue c)) (vp_queues s.1).

(** The queues with the notifiers that look up the vector of the driver. *)
Definition vp_queue_configs (group : G) (qs : list (VirtioQueueConfig G Q)) : list (VirtioQueueConfig G Q) :=
  map (fun q => mkQueueConfig (queue q) (q_eventfd q) (MsixNotifier group (Some (q_index q))) (q_index q)) qs.

Definition vp_activate : eff St ActivateError unit :=
  s ← gets id;
  if vp_device_activated s.1 then mret tt else
  if negb (vp_check_queues_valid s) then throw InvalidQueueConfig else
  _ ← map_err ActivateIOError vp_register_ioevent;
  _ ← map_err ActivateIOError (vp_intr enable);
  d ← vp id;
  o ← map_err ActivateIOError (vp_intr get_group);
  match o with
  | None => throw ActivateVirtioPci
  | Some group =>
      let qs := vp_queue_configs group (vp_queues d) in
      let '(qs, ctrl_queue) := if vp_has_ctrl_queue d then (removelast qs, last qs) else (qs, None) in
      let config := mkDeviceConfig (vp_device_resource d) qs ctrl_queue (MsixNotifier group None) (vp_shm_regions d) in
      _ ← vp_on_device (dev_activate config);
      vp_upd (vput_device_activated true)
  end.

Definition vp_upd_cc {E} (f : VirtioPciCommonConfig -> VirtioPciCommonConfig) : eff St E unit :=
  vp_upd (fun d => vput_common_config (f (vp_common_config d)) d).

Definition reset_queue (c : VirtioQueueConfig G Q) : VirtioQueueConfig G Q :=
  mkQueueConfig (q_reset (K:=K) (queue c)) (q_eventfd c) (q_notifier c) (q_index c).

(** The end of [write_bar]: activation and reset after a change of the status. *)
Definition try_activate {E} : eff St E unit :=
  d ← vp id;
  if needs_activation d then
    r ← attempt vp_activate;
    match r with
    | Err _ => vp_upd_cc (cc_put_status DEVICE_FAILED)
    | Ok _ => mret tt
    end
  else mret tt.

Definition try_reset {E} : eff St E unit :=
  d ← vp id;
  if vp_device_activated d && is_driver_init d then
    r ← attempt (vp_on_device dev_reset);
    match r with
    | Err _ => vp_upd_cc (cc_put_status DEVICE_FAILED)
    | Ok _ =>
        _ ← vp_upd (vput_device_activated false);
        _ ← vp_upd (fun d => vput_queues (map reset_queue (vp_queues d)) d);
        _ ← vp_unregister_ioevent;
        vp_upd_cc (cc_put_queue_select 0)
    end
  else mret tt.

(** ** The BAR *)

Definition in_region (start size offset : Z) : bool := (start <=? offset) && (offset <? start + size).

(** [read_bar]: the bytes that the buffer holds afterwards. *)
Definition read_bar {E} (offset : Z) (data : list Z) : eff St E (list Z) :=
  d ← vp id;
  if offset <? COMMON_CONFIG_BAR_OFFSET + COMMON_CONFIG_SIZE then
    lift_outcome (cc_read (K:=K) (vp_common_config d) (vp_queues d) (vp_device d) (offset - COMMON_CONFIG_BAR_OFFSET) data)
  else if in_region ISR_CONFIG_BAR_OFFSET ISR_CONFIG_SIZE offset then
    match data with
    | [] => mret data
    | _ :: rest => _ ← vp_upd (vput_interrupt_status 0); mret (as_u8 (vp_interrupt_status d) :: rest)
    end
  else if in_region DEVICE_CONFIG_BAR_OFFSET DEVICE_CONFIG_SIZE offset then
    let '(data', v) := dev_read_config (Q:=Q) (G:=G) (K:=K) (offset - DEVICE_CONFIG_BAR_OFFSET) data (vp_device d) in
    _ ← vp_upd (vput_device v);
    mret data'
  else if in_region NOTIFICATION_BAR_OFFSET NOTIFICATION_SIZE offset then mret data
  else if in_region MSIX_TABLE_BAR_OFFSET MSIX_TABLE_SIZE offset then
    lift_outcome (read_table (vp_msix_state d) (offset - MSIX_TABLE_BAR_OFFSET) data)
  else if in_region MSIX_PBA_BAR_OFFSET MSIX_PBA_SIZE offset then
    r ← attempt (vp_msix (read_pba (offset - MSIX_PBA_BAR_OFFSET) data));
    mret (match r with Ok data' => data' | Err _ => data end)
  else mret data.

(** The first part of [write_bar]: the write itself. *)
Definition write_region {E} (offset : Z) (data : list Z) : eff St E unit :=
  d ← vp id;
  if offset <? COMMON_CONFIG_BAR_OFFSET + COMMON_CONFIG_SIZE then
    match cc_write (K:=K) (offset - COMMON_CONFIG_BAR_OFFSET) data (vp_common_config d, vp_queues d, vp_device d) with
    | Panic => panic
    | Ret (_, (c, qs, v)) => vp_upd (fun d => vput_common_config c (vput_queues qs (vput_device v d)))
    end
  else if in_region ISR_CONFIG_BAR_OFFSET ISR_CONFIG_SIZE offset then
    match data with
    | [] => mret tt
    | v :: _ => vp_upd (fun d => vput_interrupt_status (Z.land (vp_interrupt_status d) (unot u64_max v)) d)
    end
  else if in_region DEVICE_CONFIG_BAR_OFFSET DEVICE_CONFIG_SIZE offset then
    vp_upd (vput_device (dev_write_config (Q:=Q) (G:=G) (K:=K) (offset - DEVICE_CONFIG_BAR_OFFSET) data (vp_device d)))
  else if in_region NOTIFICATION_BAR_OFFSET NOTIFICATION_SIZE offset then mret tt
  else if in_region MSIX_TABLE_BAR_OFFSET MSIX_TABLE_SIZE offset then
    vp_ignore (vp_msix (write_table (offset - MSIX_TABLE_BAR_OFFSET) data))
  else mret tt.

Definition write_bar {E} (offset : Z) (data : list Z) : eff St E unit :=
  _ ← write_region offset data;
  _ ← try_activate;
  try_reset.

(** ** The configuration space *)

(** The part of [write_config] that hands the message control to MSI-X. *)
Definition msix_control_write {E} (offset : Z) (data : list Z) : eff St E unit :=
  d ← vp id;
  let reg_idx := Z.shiftr offset 2 in
  let reg_in_offset := Z.land offset 0x3 in
  if vp_msix_cap_reg_idx d =? 0 then panic else
  if vp_msix_cap_reg_idx d =? reg_idx then
    if (reg_in_offset =? 2) && Nat.eqb (length data) 2 then vp_ignore (vp_msix (set_msg_ctl (le_read data)))
    else if (reg_in_offset =? 0) && Nat.eqb (length data) 4 then
      vp_ignore (vp_msix (set_msg_ctl (as_u16 (Z.shiftr (le_read data) 16))))
    else mret tt
  else mret tt.

(** The configuration space is written with the bus that the device is on. *)
Definition vp_config_space {A} (m : eff (PciConfiguration VirtioCapability * option PciBusContent) PciError A)
    : eff (St * option PciBusContent) PciError A :=
  zoom (fun t => (vp_configuration t.1.1, t.2)) (fun u t => ((vput_configuration u.1 t.1.1, t.1.2), u.2)) m.

Definition vp_write_config {E} (offset : Z) (data : list Z) : eff (St * option PciBusContent) E unit :=
  _ ← zoom fst (fun s t => (s, t.2)) (msix_control_write offset data);
  _ ← attempt (vp_config_space (write_config offset data));
  mret tt.

Definition vp_read_config (d : VirtioPciDevice) (offset : Z) (data : list Z) : list Z :=
  read_config (vp_configuration d) offset data.

Definition vp_remove {E} : eff St E unit :=
  fun s => let '(v, k) := dev_remove (Q:=Q) (G:=G) (vp_device s.1) s.2 in Ret (Ok tt, (vput_device v s.1, k)).

Definition vp_get_assigned_resources (d : VirtioPciDevice) : DeviceResources := vp_device_resource d.
Definition vp_get_trapped_io_resources (d : VirtioPciDevice) : DeviceResources := dr_append dr_new (vp_setting_bar_res d).
End device.

Arguments VirtioPciDevice : clear implicits.
