(* ===== verification/VirtioPciLocks.v ===== *)
(** * The locks of the virtio PCI transport

    The accesses of several vCPUs to one device run at the same time and meet
    at the mutexes of [VirtioPciDevice] (src/dragonball/dbs_pci/src/virtio_pci.rs).
    Here every access is the sequence of the locks that it takes and drops, in
    the order of the source, and the vCPUs interleave.  The locks of the
    interrupt groups and of the virtio devices are taken and dropped inside
    calls that take none of these locks. *)
From S2P Require Import Prelude VirtioPci.

Inductive Lock := StateLock | CommonConfigLock | DeviceLock | VectorsLock | MsixStateLock | IntrMgrLock | ConfigurationLock.

#[global] Instance Lock_eq_dec : EqDecision Lock.
Proof. solve_decision. Defined.

Inductive Action := Acquire (l : Lock) | Release (l : Lock).

(** A lock that is held while [inner] runs. *)
Definition holding (l : Lock) (inner : list Action) : list Action := Acquire l :: inner ++ [Release l].
Definition touch (l : Lock) : list Action := holding l [].

(** ** The accesses *)

(** [VirtioPciCommonConfig::read] and [write] with the locks that they take
    inside: the device for the features, the vectors for the queue vector. *)
Definition cc_read_locks (offset : Z) (len : nat) : list Action :=
  match len with
  | 2%nat => if offset =? 0x1a then touch VectorsLock else []
  | 4%nat => if offset =? 0x04 then touch DeviceLock else []
  | _ => []
  end.
Definition cc_write_locks (offset : Z) (len : nat) (acks : bool) : list Action :=
  match len with
  | 2%nat => if offset =? 0x1a then touch VectorsLock else []
  | 4%nat => if (offset =? 0x0c) && acks then touch DeviceLock else []
  | _ => []
  end.

Definition read_bar_locks (offset : Z) (len : nat) : list Action :=
  if offset <? COMMON_CONFIG_BAR_OFFSET + COMMON_CONFIG_SIZE then
    holding StateLock (holding CommonConfigLock (cc_read_locks (offset - COMMON_CONFIG_BAR_OFFSET) len))
  else if in_region ISR_CONFIG_BAR_OFFSET ISR_CONFIG_SIZE offset then []
  else if in_region DEVICE_CONFIG_BAR_OFFSET DEVICE_CONFIG_SIZE offset then touch DeviceLock
  else if in_region NOTIFICATION_BAR_OFFSET NOTIFICATION_SIZE offset then []
  else if in_region MSIX_TABLE_BAR_OFFSET MSIX_TABLE_SIZE offset then touch MsixStateLock
  else if in_region MSIX_PBA_BAR_OFFSET MSIX_PBA_SIZE offset then holding MsixStateLock (touch IntrMgrLock)
  else [].

Definition write_region_locks (offset : Z) (len : nat) (acks : bool) : list Action :=
  if offset <? COMMON_CONFIG_BAR_OFFSET + COMMON_CONFIG_SIZE then
    holding CommonConfigLock (holding StateLock (cc_write_locks (offset - COMMON_CONFIG_BAR_OFFSET) len acks))
  else if in_region ISR_CONFIG_BAR_OFFSET ISR_CONFIG_SIZE offset then []
  else if in_region DEVICE_CONFIG_BAR_OFFSET DEVICE_CONFIG_SIZE offset then touch DeviceLock
  else if in_region NOTIFICATION_BAR_OFFSET NOTIFICATION_SIZE offset then []
  else if in_region MSIX_TABLE_BAR_OFFSET MSIX_TABLE_SIZE offset then holding MsixStateLock (touch IntrMgrLock)
  else [].

(** [activate] up to the step that fails, or to its end: the queues are not
    valid, the ioevents or the interrupts are refused, there is no interrupt
    group, or the device itself is asked to activate.  [state] is dropped before
    the device is activated, [config] at the end. *)
Inductive ActivationEnd := AtQueues | AtIoevents | AtInterrupts | AtGroup | AtDevice.

Definition activate_locks (e : ActivationEnd) : list Action :=
  let queues := touch StateLock in
  let ioevents := queues ++ touch ConfigurationLock ++ touch StateLock in
  let interrupts := ioevents ++ touch IntrMgrLock in
  match e with
  | AtQueues => queues
  | AtIoevents => ioevents
  | AtInterrupts => interrupts
  | AtGroup => interrupts ++ holding StateLock (holding CommonConfigLock (touch IntrMgrLock))
  | AtDevice =>
      interrupts ++ [Acquire StateLock; Acquire CommonConfigLock] ++ touch IntrMgrLock
      ++ [Release StateLock] ++ touch DeviceLock ++ [Release CommonConfigLock]
  end.

(** The reset of an active device; when the device refuses, the status is set. *)
Definition reset_locks (ok : bool) : list Action :=
  holding DeviceLock
    (if ok then touch StateLock ++ touch ConfigurationLock ++ touch StateLock ++ touch CommonConfigLock
     else touch CommonConfigLock).

(** What [write_bar] does after the write itself: the device is not ready or
    stays active, it is activated, with success when the status is looked at
    again and with a failure when it is set, or it is reset. *)
Inductive AfterWrite := Stays | Activates (e : ActivationEnd) | Resets (ok : bool).

Definition after_write_locks (a : AfterWrite) : list Action :=
  match a with
  | Stays => touch CommonConfigLock
  | Activates e => touch CommonConfigLock ++ activate_locks e ++ touch CommonConfigLock
  | Resets ok => touch CommonConfigLock ++ reset_locks ok
  end.

Definition write_bar_locks (offset : Z) (len : nat) (acks : bool) (a : AfterWrite) : list Action :=
  write_region_locks offset len acks ++ after_write_locks a.

(** [write_config]; the register of the MSI-X capability has the index [cap]. *)
Definition write_config_locks (cap offset : Z) : list Action :=
  (if cap =? Z.shiftr offset 2 then holding MsixStateLock (touch IntrMgrLock) else []) ++ touch ConfigurationLock.
Definition read_config_locks : list Action := touch ConfigurationLock.

(** An access of a vCPU and its locks. *)
Inductive Access :=
| ReadBar (offset : Z) (len : nat)
| WriteBar (offset : Z) (len : nat) (acks : bool) (after : AfterWrite)
| ReadConfig
| WriteConfig (offset : Z).

Definition access_locks (cap : Z) (a : Access) : list Action :=
  match a with
  | ReadBar offset len => read_bar_locks offset len
  | WriteBar offset len acks after => write_bar_locks offset len acks after
  | ReadConfig => read_config_locks
  | WriteConfig offset => write_config_locks cap offset
  end.

(** ** Interleaving *)

(** A vCPU: the locks that it holds and the actions that it still has to do. *)
Record Thread := mkThread { held : list Lock; todo : list Action }.

Definition is_held (l : Lock) (ts : list Thread) : Prop := exists t, t ∈ ts /\ l ∈ held t.

Inductive step : list Thread -> list Thread -> Prop :=
| step_acquire ts i t l rest :
    ts !! i = Some t -> todo t = Acquire l :: rest -> ~ is_held l ts ->
    step ts (<[i := mkThread (l :: held t) rest]> ts)
| step_release ts i t l rest :
    ts !! i = Some t -> todo t = Release l :: rest ->
    step ts (<[i := mkThread (filter (fun l' => l' <> l) (held t)) rest]> ts).

Definition start (ps : list (list Action)) : list Thread := map (mkThread []) ps.
Definition finished (ts : list Thread) : Prop := forall t, t ∈ ts -> todo t = [].
Definition deadlocked (ts : list Thread) : Prop := ~ finished ts /\ forall ts', ~ step ts ts'.

(** ** Ordered locks *)

(** The order in which the reads of the BAR take the locks. *)
Definition rank (l : Lock) : nat :=
  match l with
  | StateLock => 0 | CommonConfigLock => 1 | DeviceLock => 2 | VectorsLock => 3
  | MsixStateLock => 4 | IntrMgrLock => 5 | ConfigurationLock => 6
  end.

(** The rest of a program takes a lock only above those that it holds, and holds
    none at its end. *)
Fixpoint ordered (hs : list Lock) (p : list Action) : bool :=
  match p with
  | [] => bool_decide (hs = [])
  | Acquire l :: p' => forallb (fun h => Nat.ltb (rank h) (rank l)) hs && ordered (l :: hs) p'
  | Release l :: p' => ordered (filter (fun h => h <> l) hs) p'
  end.

Definition thread_ok (t : Thread) : Prop := ordered (held t) (todo t) = true.

Lemma step_ok ts ts' : step ts ts' -> Forall thread_ok ts -> Forall thread_ok ts'.
Proof.
  intros Hs Hok. destruct Hs as [ts i t l rest Ht Hl _|ts i t l rest Ht Hl]; apply Forall_insert; try done;
    rewrite Forall_lookup in Hok; specialize (Hok _ _ Ht); unfold thread_ok in *; rewrite Hl in Hok; cbn in *; [|done].
  by apply andb_true_iff in Hok as [_ ?].
Qed.

Lemma held_unfinished t l : thread_ok t -> l ∈ held t -> exists a rest, todo t = a :: rest.
Proof.
  unfold thread_ok. destruct (todo t) as [|a rest]; [|eauto]. cbn. intros ->%bool_decide_eq_true ?%elem_of_nil. done.
Qed.

Lemma acquire_above t l l' rest : thread_ok t -> l ∈ held t -> todo t = Acquire l' :: rest -> (rank l < rank l')%nat.
Proof.
  unfold thread_ok. intros Ht Hl E. rewrite E in Ht. cbn in Ht. apply andb_true_iff in Ht as [Ht _].
  rewrite forallb_forall in Ht. apply list_elem_of_In in Hl. apply Ht, Nat.ltb_lt in Hl. done.
Qed.

(** A thread that waits waits for one that holds a higher lock. *)
Lemma progress ts : Forall thread_ok ts -> forall n t a rest,
  t ∈ ts -> todo t = a :: rest -> (match a with Acquire l => 7 - rank l | Release _ => 0 end <= n)%nat ->
  exists ts', step ts ts'.
Proof.
  intros Hok. induction n as [|n IH]; intros t a rest Ht Ea Hn;
    pose proof Ht as [i Hi]%list_elem_of_lookup; (destruct a as [l|l]; [|by eauto using step_release]).
  { destruct l; cbn in Hn; lia. }
  destruct (decide (Exists (fun t' => l ∈ held t') ts)) as [Hh|Hh].
  2:{ eexists. eapply step_acquire; [done..|]. intros (t' & ? & ?). apply Hh, Exists_exists. eauto. }
  apply Exists_exists in Hh as (t' & Ht' & Hl). assert (Ho : thread_ok t') by (by eapply Forall_forall).
  destruct (held_unfinished _ _ Ho Hl) as (a' & rest' & Ea').
  apply (IH t' a' rest' Ht' Ea'). destruct a' as [l'|l']; [|lia].
  pose proof (acquire_above _ _ _ _ Ho Hl Ea'). lia.
Qed.

(** What is left to do. *)
Definition work (ts : list Thread) : nat := sum_list_with (fun t => length (todo t)) ts.

Lemma work_insert ts i t t' : ts !! i = Some t -> (length (todo t') < length (todo t) -> work (<[i := t']> ts) < work ts)%nat.
Proof.
  unfold work. revert i. induction ts as [|u ts IH]; intros [|i]; cbn; intros Hi Hlt; simplify_eq; [lia|].
  apply Nat.add_lt_mono_l. by apply IH.
Qed.

Lemma step_work ts ts' : step ts ts' -> (work ts' < work ts)%nat.
Proof. intros [ts0 i t l rest Hi E _|ts0 i t l rest Hi E]; apply (work_insert _ _ _ _ Hi); rewrite E; cbn; lia. Qed.

Lemma unfinished_thread ts : finished ts \/ exists t a rest, t ∈ ts /\ todo t = a :: rest.
Proof.
  induction ts as [|t ts [IH|(u & a & rest & Hu & E)]]; [left; by intros ? ?%elem_of_nil| |].
  - destruct (todo t) as [|a rest] eqn:E; [left|right; exists t, a, rest; split; [left|done]].
    intros u [->|Hu]%elem_of_cons; auto.
  - right. exists u, a, rest. split; [by right|done].
Qed.

Lemma ordered_finishes ts : Forall thread_ok ts -> exists ts', rtc step ts ts' /\ finished ts'.
Proof.
  remember (work ts) as n eqn:En. revert ts En. induction n as [n IH] using lt_wf_ind. intros ts -> Hok.
  destruct (unfinished_thread ts) as [?|(t & a & rest & Ht & E)]; [eauto using rtc_refl|].
  destruct (progress ts Hok _ t a rest Ht E (Nat.le_refl _)) as [ts1 Hs].
  destruct (IH _ (step_work _ _ Hs) ts1 eq_refl (step_ok _ _ Hs Hok)) as (ts' & Hr & Hf).
  exists ts'. eauto using rtc_l.
Qed.

Lemma reachable_ok ts ts' : rtc step ts ts' -> Forall thread_ok ts -> Forall thread_ok ts'.
Proof. induction 1; eauto using step_ok. Qed.

Lemma finished_not_deadlocked ts ts' : rtc step ts ts' -> finished ts' -> ~ deadlocked ts.
Proof. intros Hr Hf [Hn Hs]. inversion Hr; subst; [by apply Hn|by eapply Hs]. Qed.

(** ** The accesses of the vCPUs *)

(** An access that does not write the common configuration and does not make
    the device start or stop. *)
Definition quiet (a : Access) : bool :=
  match a with
  | WriteBar offset _ _ Stays => negb (offset <? COMMON_CONFIG_BAR_OFFSET + COMMON_CONFIG_SIZE)
  | WriteBar _ _ _ _ => false
  | _ => true
  end.

Lemma quiet_ordered cap a : quiet a = true -> ordered [] (access_locks cap a) = true.
Proof.
  destruct a as [offset len|offset len acks after| |offset]; cbn [quiet access_locks]; intros Hq.
  - unfold read_bar_locks. repeat case_match; try done. unfold cc_read_locks. repeat case_match; done.
  - destruct after; [|done..]. unfold write_bar_locks, write_region_locks.
    destruct (offset <? _); [done|]. repeat case_match; done.
  - done.
  - unfold write_config_locks. by case_match.
Qed.

(** C16: whatever reads of the BAR and of the configuration space, and writes
    to the MSI-X table, to the device configuration, to the ISR and
    configuration registers run at the same time on any number of vCPUs, they
    can always be completed: from every state that their interleaving reaches,
    all of them finish, so they never deadlock. *)
Theorem quiet_accesses_finish (cap : Z) (accesses : list Access) (ts : list Thread) :
  forallb quiet accesses = true -> rtc step (start (map (access_locks cap) accesses)) ts ->
  (exists ts', rtc step ts ts' /\ finished ts') /\ ~ deadlocked ts.
Proof.
  intros Hq Hr. destruct (ordered_finishes ts) as (ts' & Hs & Hf); [|by eauto using finished_not_deadlocked].
  eapply reachable_ok; [done|]. unfold start. rewrite !Forall_map. apply Forall_forall. intros a Ha.
  rewrite forallb_forall in Hq. apply quiet_ordered, Hq. by apply list_elem_of_In.
Qed.

Lemma quiet_accesses_finish_witness :
  let accesses := [ReadBar 0x04 4; WriteBar 0x8000 4 false Stays; WriteConfig 0x98; ReadBar 0x48000 8] in
  forallb quiet accesses = true /\ ~ deadlocked (start (map (access_locks 0x26) accesses)).
Proof. intros accesses. split; [done|].
  by apply (quiet_accesses_finish 0x26 accesses _ eq_refl (rtc_refl _ _)).
Defined.

(** Two vCPUs that hold what the other one wants. *)
Lemma embrace l1 l2 r1 r2 : l1 <> l2 -> deadlocked [mkThread [l1] (Acquire l2 :: r1); mkThread [l2] (Acquire l1 :: r2)].
Proof.
  intros Hne. split.
  - intros Hf. specialize (Hf (mkThread [l1] (Acquire l2 :: r1)) ltac:(left)). done.
  - intros ts' Hs. inversion Hs as [ts i t l rest Hi E Hh|ts i t l rest Hi E]; subst;
      destruct i as [|[|i]]; cbn in Hi; simplify_eq; cbn in E; simplify_eq; apply Hh.
    + eexists. split; [right; left|]. left.
    + eexists. split; [left|]. left.
Qed.

(** The steps of one vCPU, while the other one has not started. *)
Lemma first_step h p q ts :
  (exists l rest, p = Acquire l :: rest /\ (l ∉ h) /\ rtc step [mkThread (l :: h) rest; mkThread [] q] ts) \/
  (exists l rest, p = Release l :: rest /\ rtc step [mkThread (filter (fun l' => l' <> l) h) rest; mkThread [] q] ts) ->
  rtc step [mkThread h p; mkThread [] q] ts.
Proof.
  intros [(l & rest & -> & Hl & Hr)|(l & rest & -> & Hr)]; eapply rtc_l.
  - eapply (step_acquire _ 0); [done..|].
    intros (t & Hin & Ht). apply elem_of_cons in Hin as [->|Hin]; [done|].
    apply elem_of_cons in Hin as [->|Hin]; [|by apply elem_of_nil in Hin]. by apply elem_of_nil in Ht.
  - done.
  - by eapply (step_release _ 0).
  - done.
Qed.

Ltac run_first :=
  apply first_step;
  first [ left; eexists _, _; split; [reflexivity|split; [set_solver|]] | right; eexists _, _; split; [reflexivity|] ]; cbn.

(** A pair of programs of which one takes [l1], then [l2] and the other one [l2],
    then [l1]. *)
Lemma crossed_locks l1 l2 r1 r2 : l1 <> l2 ->
  exists ts, rtc step (start [Acquire l1 :: Acquire l2 :: r1; Acquire l2 :: Acquire l1 :: r2]) ts /\ deadlocked ts.
Proof.
  intros Hne. eexists. split.
  - apply first_step. left. eexists _, _. split; [done|]. split; [apply not_elem_of_nil|].
    eapply rtc_l; [|apply rtc_refl]. eapply (step_acquire _ 1); [done..|].
    intros (t & [->|[->|[]%elem_of_nil]%elem_of_cons]%elem_of_cons & Ht); set_solver.
  - by apply embrace.
Qed.

(** A read of the common configuration takes the lock of the state, then
    the one of the registers, and a write takes them in the other order: for
    every such read and write on two vCPUs there is an interleaving after which
    neither of them can go on. *)
Theorem common_config_deadlock (cap offset offset' : Z) (len len' : nat) (acks : bool) (after : AfterWrite) :
  offset < COMMON_CONFIG_SIZE -> offset' < COMMON_CONFIG_SIZE ->
  exists ts,
    rtc step (start (map (access_locks cap) [ReadBar offset len; WriteBar offset' len' acks after])) ts /\ deadlocked ts.
Proof.
  intros H1 H2. cbn [map access_locks]. unfold read_bar_locks, write_bar_locks, write_region_locks, holding.
  replace (offset <? _) with true by (symmetry; apply Z.ltb_lt; lia).
  replace (offset' <? _) with true by (symmetry; apply Z.ltb_lt; lia). cbn [app].
  by apply crossed_locks.
Qed.

Lemma common_config_deadlock_witness :
  exists ts,
    rtc step (start (map (access_locks 0x26) [ReadBar 0x14 1; WriteBar 0x16 2 false Stays])) ts /\ deadlocked ts.
Proof. apply (common_config_deadlock 0x26 0x14 0x16 1 2 false Stays); lia. Defined.

(** Two writes meet in the same way: while the write that sets the driver
    status activates the device, which takes the lock of the state before the
    one of the registers, a write to the common configuration by another vCPU
    can leave both of them waiting. *)
Theorem activation_deadlock (cap offset : Z) (len : nat) (acks : bool) (after : AfterWrite) :
  offset < COMMON_CONFIG_SIZE ->
  exists ts,
    rtc step (start (map (access_locks cap) [WriteBar 0x14 1 false (Activates AtDevice); WriteBar offset len acks after])) ts
    /\ deadlocked ts.
Proof.
  intros H1. cbn [map access_locks]. unfold write_bar_locks at 2, write_region_locks, holding.
  replace (offset <? _) with true by (symmetry; apply Z.ltb_lt; lia). cbn [app].
  match goal with |- context [start [?p; Acquire _ :: Acquire _ :: ?q]] =>
    destruct (crossed_locks StateLock CommonConfigLock) with (r1 := drop 16 p) (r2 := q) as (ts & Hr & Hd); [done|] end.
  exists ts. split; [|done]. etrans; [|exact Hr]. do 14 run_first. apply rtc_refl.
Qed.

Lemma activation_deadlock_witness :
  exists ts,
    rtc step (start (map (access_locks 0x26) [WriteBar 0x14 1 false (Activates AtDevice); WriteBar 0x16 2 false Stays])) ts
    /\ deadlocked ts.
Proof. apply (activation_deadlock 0x26 0x16 2 false Stays); lia. Defined.
