(* ===== verification/VirtioPciProps.v ===== *)
(** * The virtio PCI transport: capabilities and properties

    What a driver finds in the configuration space of a device after its
    construction: it follows the list of capabilities and reads from each of
    them where a structure lies.  The properties follow. *)
From S2P Require Import Prelude Bits IntervalTree DeviceResources Effects InterruptManager MmioData MmioTransport PciBus PciConfig PciConfigFacts PciConfigBuild PciBars PciMsi PciCommonConfig VirtioPci.

(** ** Reading a capability *)

Section reads.
Context {C : Type} {PC : PciCapability C}.
Implicit Types (c : PciConfiguration C).

Lemma cap_place c l1 b n cap l2 :
  cfg_ok c -> capabilities c = l1 ++ (b, n, cap) :: l2 -> 0x40 <= b /\ b + n <= 0xc0 /\ b mod 4 = 0.
Proof.
  intros Hok El. pose proof (ok_caps _ Hok) as Hl.
  destruct (layout_bounds FIRST_CAPABILITY_OFFSET (capabilities c).*1) as (Hall & _); [lia|done..|].
  rewrite El in Hall. rewrite fmap_app in Hall. apply Forall_app in Hall as [_ [Hb _]%Forall_cons]. cbn in Hb. lia.
Qed.

Lemma find_cap_place c l1 b n cap l2 o :
  cfg_ok c -> capabilities c = l1 ++ (b, n, cap) :: l2 -> 0 <= o < n -> find_cap (b + o) (capabilities c) = Some (o, cap).
Proof. intros Hok El Ho. pose proof (ok_caps _ Hok). rewrite El in *. by apply (find_cap_at FIRST_CAPABILITY_OFFSET). Qed.

Lemma land_low x k : 0 <= k -> x mod 2 ^ k = 0 -> Z.land x (Z.ones k) = 0.
Proof. intros. by rewrite Z.land_ones. Qed.

Lemma read_cap_word c l1 b n cap l2 o :
  cfg_ok c -> capabilities c = l1 ++ (b, n, cap) :: l2 -> 0 <= o < n -> o mod 2 = 0 -> (read_u16 c (b + o)).2 = cap_u16 cap o.
Proof.
  intros Hok El Ho Hm. destruct (cap_place c l1 b n cap l2 Hok El) as (Hb & Hn & Hb4).
  unfold read_u16, cap_read_u16. change 0x1 with (Z.ones 1) at 1. rewrite land_low by (lia || (pose proof (Z.div_mod b 4); pose proof (Z.div_mod o 2); Z.div_mod_to_equations; lia)).
  destruct (Z.leb_spec 256 (b + o)); [lia|]. by rewrite (find_cap_place c l1 b n cap l2 o).
Qed.

Lemma read_cap_dword c l1 b n cap l2 o :
  cfg_ok c -> capabilities c = l1 ++ (b, n, cap) :: l2 -> 0 <= o < n -> o mod 4 = 0 -> (read_u32 c (b + o)).2 = cap_u32 cap o.
Proof.
  intros Hok El Ho Hm. destruct (cap_place c l1 b n cap l2 Hok El) as (Hb & Hn & Hb4).
  unfold read_u32, cap_read_u32. change 0x3 with (Z.ones 2) at 1. rewrite land_low by (lia || (Z.div_mod_to_equations; lia)).
  destruct (Z.leb_spec 256 (b + o)); [lia|]. cbn [Z.eqb negb orb].
  assert (16 <= Z.shiftr (b + o) 2) by (rewrite Z.shiftr_div_pow2 by lia; change (2 ^ 2) with 4; Z.div_mod_to_equations; lia).
  destruct (Z.ltb_spec (Z.shiftr (b + o) 2) 4); [lia|]. destruct (Z.ltb_spec (Z.shiftr (b + o) 2) 16); [lia|].
  rewrite andb_false_r. by rewrite (find_cap_place c l1 b n cap l2 o).
Qed.

(** ** What the driver finds *)

(** A capability as a driver understands it. *)
Inductive Structure :=
| VirtioStructure (ty bar id offset length : Z)
| MsixStructure (control table pba : Z)
| OtherStructure (id : Z).

(** The fields of a capability through accesses of one, two and four bytes; a
    shared memory region has the upper halves of its place behind. *)
Definition parse_structure (byte word dword : Z -> Z) : Structure :=
  let id := byte 0 in
  if id =? capability_id_value VendorSpecific then
    let ty := byte 3 in
    let high o := if ty =? capability_type_value CapSharedMemory then 2 ^ 32 * dword o else 0 in
    VirtioStructure ty (byte 4) (byte 5) (dword 8 + high 16) (dword 12 + high 20)
  else if id =? capability_id_value MSIX then MsixStructure (word 2) (dword 4) (dword 8)
  else OtherStructure id.

Definition structure_at c (base : Z) : Structure :=
  parse_structure
    (fun o => le_read (read_config c (base + o) [0]))
    (fun o => le_read (read_config c (base + o) [0; 0]))
    (fun o => le_read (read_config c (base + o) [0; 0; 0; 0])).

Definition driver_structures c : list Structure := map (fun '(base, _) => structure_at c base) (walk_capabilities c).

(** The same fields, taken from the capability itself. *)
Definition structure_of (cap : C) : Structure := parse_structure (cap_u8 cap) (cap_u16 cap) (cap_u32 cap).

(** A capability with all the fields that are read, and accesses that give
    machine words. *)
Record readable (n : Z) (cap : C) : Prop := {
  rd_head : 12 <= n;
  rd_virtio : cap_u8 cap 0 = capability_id_value VendorSpecific -> 16 <= n;
  rd_shm : cap_u8 cap 0 = capability_id_value VendorSpecific ->
           cap_u8 cap 3 = capability_type_value CapSharedMemory -> 24 <= n;
  rd_word o : in_u16 (cap_u16 cap o);
  rd_dword o : in_u32 (cap_u32 cap o);
}.

Lemma structure_read c l1 b n cap l2 :
  cfg_ok c -> capabilities c = l1 ++ (b, n, cap) :: l2 -> readable n cap -> structure_at c b = structure_of cap.
Proof.
  intros Hok El [Hh Hv Hs Hw Hd]. destruct (cap_place c l1 b n cap l2 Hok El) as (Hb & Hn & Hb4).
  assert (forall o, 0 <= o < n -> le_read (read_config c (b + o) [0]) = cap_u8 cap o) as H1.
  { intros o Ho. unfold read_config. cbn [length Nat.eqb]. rewrite !andb_false_r. cbn [le_read].
    rewrite (read_cap_byte c l1 b n cap l2 o) by done. lia. }
  assert (forall o, 0 <= o < n -> o mod 2 = 0 -> le_read (read_config c (b + o) [0; 0]) = cap_u16 cap o) as H2.
  { intros o Ho Hm. unfold read_config. cbn [length Nat.eqb]. rewrite andb_false_r, andb_true_r.
    rewrite trailing_zeros_spec by lia. destruct (Z.eqb_spec ((b + o) mod 2 ^ 1) 0); [|Z.div_mod_to_equations; lia].
    rewrite (read_cap_word c l1 b n cap l2 o) by done. apply le_read_write. pose proof (Hw o). cbn. ulia. }
  assert (forall o, 0 <= o < n -> o mod 4 = 0 -> le_read (read_config c (b + o) [0; 0; 0; 0]) = cap_u32 cap o) as H4.
  { intros o Ho Hm. unfold read_config. cbn [length Nat.eqb]. rewrite andb_true_r.
    rewrite trailing_zeros_spec by lia. destruct (Z.eqb_spec ((b + o) mod 2 ^ 2) 0); [|Z.div_mod_to_equations; lia].
    rewrite (read_cap_dword c l1 b n cap l2 o) by done. apply le_read_write. pose proof (Hd o). cbn. ulia. }
  unfold structure_at, structure_of, parse_structure. rewrite (H1 0) by lia.
  destruct (Z.eqb_spec (cap_u8 cap 0) (capability_id_value VendorSpecific)) as [E|_].
  - specialize (Hv E). rewrite !H1 by lia. rewrite !(H4 8), !(H4 12) by (lia || done).
    destruct (Z.eqb_spec (cap_u8 cap 3) (capability_type_value CapSharedMemory)) as [E'|_]; [|done].
    specialize (Hs E E'). by rewrite !H4 by (lia || done).
  - destruct (cap_u8 cap 0 =? capability_id_value MSIX); [|done].
    by rewrite !H4, H2 by (lia || done).
Qed.

Lemma structures_read {PH : PciCapabilityHead C} c :
  cfg_ok c -> chain_ok c -> Forall (fun '(_, n, cap) => readable n cap) (capabilities c) ->
  driver_structures c = rev (map (fun '(_, _, cap) => structure_of cap) (capabilities c)).
Proof.
  intros Hok Hch Hr. unfold driver_structures. rewrite walk_all by done. unfold chain_of.
  rewrite map_rev, map_map. f_equal. apply map_ext_in. intros [[b n] cap] (l1 & l2 & El)%in_split.
  rewrite Forall_forall in Hr. eapply structure_read; [done..|]. apply (Hr (b, n, cap)). rewrite El. set_solver.
Qed.
End reads.

(** ** The capabilities of virtio *)

#[global] Instance virtio_cap_head : PciCapabilityHead VirtioCapability.
Proof. split; intros n [c|c|c|c|c]; done. Qed.

Definition in_byte (b : Z) : Prop := 0 <= b < 256.
Definition byte_cap (c : VirtioPciCap) : Prop :=
  in_byte (vc_cap_id c) /\ in_byte (vc_cap_next c) /\ in_byte (vc_cap_len c) /\ in_byte (vc_cfg_type c) /\
  in_byte (vc_pci_bar c) /\ in_byte (vc_id c) /\ in_byte (vc_padding c).1 /\ in_byte (vc_padding c).2.
Definition cap_in_bytes (c : VirtioCapability) : Prop :=
  match c with
  | BoxVp2p _ => False
  | BoxCap c => byte_cap c
  | BoxNotify c => byte_cap (nc_cap c)
  | BoxCap64 c => byte_cap (c64_cap c)
  | BoxMsix c => in_byte (mx_cap_id c) /\ in_byte (mx_cap_next c)
  end.

Lemma le_write_in_bytes n v : Forall in_byte (le_write n v).
Proof.
  revert v. induction n as [|n IH]; intros v; constructor; [|apply IH]. pose proof (Z.mod_pos_bound v 256). unfold in_byte. lia.
Qed.
Lemma nth_byte l i : Forall in_byte l -> in_byte (nth i l 0).
Proof. intros. apply nth_Forall; [done|]. unfold in_byte. lia. Qed.
Lemma cap_slice_bytes c : byte_cap c -> Forall in_byte (as_slice c).
Proof.
  intros (H1 & H2 & H3 & H4 & H5 & H6 & H7 & H8). cbn [as_slice cap_bytes]. rewrite !Forall_app.
  split; [repeat (apply Forall_cons; split; [done|]); constructor|]. split; apply le_write_in_bytes.
Qed.
Lemma slice_read_byte {A} `{ByteValued A} (c : A) o : Forall in_byte (as_slice c) -> in_byte (slice_read_u8 c o).
Proof. intros Hc. unfold slice_read_u8. case_match; [by apply nth_byte|unfold in_byte; lia]. Qed.

Lemma virtio_cap_byte c o : cap_in_bytes c -> in_byte (vcap_read_u8 c o).
Proof.
  destruct c as [c|c|c|c|c]; cbn [cap_in_bytes vcap_read_u8]; [done|..].
  - intros Hc. by apply slice_read_byte, cap_slice_bytes.
  - intros Hc. apply slice_read_byte. cbn [as_slice notify_cap_bytes]. apply Forall_app. split; [by apply cap_slice_bytes|apply le_write_in_bytes].
  - intros Hc. apply slice_read_byte. cbn [as_slice cap64_bytes]. rewrite !Forall_app. split; [by apply cap_slice_bytes|split; apply le_write_in_bytes].
  - intros [H1 H2]. cbn. unfold msix_read_u8. case_match; [|unfold in_byte; lia]. apply nth_byte. unfold msix_bytes.
    rewrite !Forall_app. split; [repeat (apply Forall_cons; split; [done|]); constructor|split_and!; apply le_write_in_bytes].
Qed.

Lemma default_u16 (f : Z -> Z) o : (forall o, in_byte (f o)) -> in_u16 (default_read_u16 f o).
Proof.
  intros Hf. unfold default_read_u16. enough (0 <= Z.lor (f o) (as_u16 (Z.shiftl (f (o + 1)) 8)) < 2 ^ 16) by ulia.
  apply lor_range; [lia| |apply Z.mod_pos_bound; lia]. pose proof (Hf o). unfold in_byte in *. lia.
Qed.
Lemma default_u32 (f : Z -> Z) o : (forall o, in_u16 (f o)) -> in_u32 (default_read_u32 f o).
Proof.
  intros Hf. unfold default_read_u32. enough (0 <= Z.lor (f o) (as_u32 (Z.shiftl (f (o + 2)) 16)) < 2 ^ 32) by ulia.
  apply lor_range; [lia| |apply Z.mod_pos_bound; lia]. pose proof (Hf o). ulia.
Qed.

(** Little endian words through the accesses of one byte. *)
Lemma word_of_bytes (f : Z -> Z) o v :
  in_u16 v -> f o = v mod 256 -> f (o + 1) = (v / 256) mod 256 -> default_read_u16 f o = v.
Proof.
  intros Hv E0 E1. unfold default_read_u16. rewrite E0, E1, Z.lor_comm. pose proof (Z.div_mod v 256).
  pose proof (Z.mod_pos_bound v 256). rewrite (Z.mod_small (v / 256)) by (Z.div_mod_to_equations; ulia).
  rewrite as_u16_id by (rewrite Z.shiftl_mul_pow2 by lia; Z.div_mod_to_equations; ulia).
  rewrite lor_shiftl_add by lia. lia.
Qed.

Lemma dword_of_bytes (f : Z -> Z) o v :
  in_u32 v -> f o = v mod 256 -> f (o + 1) = (v / 256) mod 256 -> f (o + 2) = (v / 256 / 256) mod 256 ->
  f (o + 3) = (v / 256 / 256 / 256) mod 256 -> default_read_u32 (default_read_u16 f) o = v.
Proof.
  intros Hv E0 E1 E2 E3. unfold default_read_u32. rewrite (word_of_bytes f o (v mod 65536)).
  2:{ pose proof (Z.mod_pos_bound v 65536). ulia. }
  2:{ rewrite E0. Z.div_mod_to_equations. lia. }
  2:{ rewrite E1. Z.div_mod_to_equations. lia. }
  rewrite (word_of_bytes f (o + 2) (v / 65536)).
  2:{ Z.div_mod_to_equations. ulia. }
  2:{ rewrite E2. Z.div_mod_to_equations. lia. }
  2:{ replace (o + 2 + 1) with (o + 3) by lia. rewrite E3. Z.div_mod_to_equations. lia. }
  rewrite Z.lor_comm, as_u32_id by (rewrite Z.shiftl_mul_pow2 by lia; Z.div_mod_to_equations; ulia).
  pose proof (Z.mod_pos_bound v 65536). rewrite lor_shiftl_add by lia. Z.div_mod_to_equations. lia.
Qed.

(** A capability as the device adds it, linked into the list. *)
Definition linked_cap (e : Z * Z * VirtioCapability) (cap : VirtioCapability) : Prop :=
  e.1.2 = cap_len cap /\ exists n, in_byte n /\ e.2 = set_next_cap n cap.

Lemma linked_bytes n cap : in_byte n -> cap_in_bytes cap -> cap_in_bytes (set_next_cap n cap).
Proof. intros Hn. destruct cap; cbn; unfold byte_cap; cbn; tauto. Qed.

Lemma linked_structure n cap : structure_of (set_next_cap n cap) = structure_of cap.
Proof. by destruct cap. Qed.

(** The id, the type and the length fit together. *)
Definition shaped (cap : VirtioCapability) : Prop :=
  match cap with
  | BoxVp2p _ => False
  | BoxCap c => vc_cfg_type c <> capability_type_value CapSharedMemory
  | BoxNotify c => vc_cfg_type (nc_cap c) <> capability_type_value CapSharedMemory
  | BoxCap64 _ => True
  | BoxMsix c => mx_cap_id c = capability_id_value MSIX
  end.

Lemma linked_readable e cap : cap_in_bytes cap -> shaped cap -> linked_cap e cap -> readable e.1.2 e.2.
Proof.
  intros Hb Hs (En & n & Hn & Ec). rewrite En, Ec. pose proof (linked_bytes n cap Hn Hb) as Hb'. split.
  - by destruct cap.
  - destruct cap as [|c|c|c|c]; try done. cbn in Hs |- *. change (Z.to_nat 0) with 0%nat. cbn iota. congruence.
  - destruct cap as [|c|c|c|c]; try done. cbn in Hs |- *. change (Z.to_nat 0) with 0%nat. cbn iota. congruence.
  - intros o. apply default_u16. intros. by apply virtio_cap_byte.
  - intros o. apply default_u32. intros. apply default_u16. intros. by apply virtio_cap_byte.
Qed.

(** ** Construction *)

Lemma wp_map_err {S E E' A} (g : E -> E') (m : eff S E A) (P : result E' A -> S -> Prop) s :
  wp m (fun r => P (match r with Ok a => Ok a | Err e => Err (g e) end)) s -> wp (map_err g m) P s.
Proof. intros Hm r s' [(a & E1 & ->)|(e & E1 & ->)]%map_err_inv; by apply Hm in E1. Qed.

(** A configuration space with exactly these capabilities. *)
Definition caps_are (c : PciConfiguration VirtioCapability) (l : list VirtioCapability) : Prop :=
  built c /\ Forall2 linked_cap (capabilities c) l.

Lemma add_capability_are cap c l :
  caps_are c l ->
  wp (add_capability cap) (fun r c' => match r with
    | Ok offset => caps_are c' (l ++ [cap]) /\ offset = next_cap_offset (capabilities c)
    | Err _ => True end) c.
Proof.
  intros [Hb Hl] r c' Hrun. assert (built c') as Hb' by (by eapply built_cap). revert Hrun.
  enough (wp (add_capability cap) (fun r c' => match r with
    | Ok offset => Forall2 linked_cap (capabilities c') (l ++ [cap]) /\ offset = next_cap_offset (capabilities c)
    | Err _ => True end) c) as Hw.
  { intros Hrun%Hw. destruct r; [|done]. by destruct Hrun. }
  unfold add_capability. wp_if; [by wp_steps|]. wp_steps.
  destruct (checked_add _ _ _); [|by wp_steps]. wp_if; [by wp_steps|]. wp_steps. split; [|done].
  cbn [capabilities set_caps set_reg]. apply Forall2_app; [done|]. repeat constructor. cbn.
  eexists. split; [|done]. by apply (Z.mod_pos_bound _ 256).
Qed.

(** Where the capabilities are. *)
Fixpoint places (lo : Z) (lens : list Z) : list (Z * Z) :=
  match lens with [] => [] | n :: lens' => (lo, n) :: places (next_dword lo n) lens' end.

Lemma layout_places lo l : layout lo l -> l = places lo l.*2.
Proof. revert lo. induction l as [|[b n] l IH]; intros lo; [done|]. cbn. intros (-> & _ & _ & Hl). f_equal. by apply IH. Qed.

Lemma caps_are_places c l : caps_are c l -> (capabilities c).*1 = places FIRST_CAPABILITY_OFFSET (map cap_len l).
Proof.
  intros [Hb Hl]. rewrite (layout_places FIRST_CAPABILITY_OFFSET (capabilities c).*1) by apply built_ok, Hb. f_equal.
  induction Hl as [|e cap es caps (E & _) _ IH]; [done|]. cbn. by rewrite E, IH.
Qed.

Lemma caps_are_next c l :
  caps_are c l -> next_cap_offset (capabilities c) = layout_end FIRST_CAPABILITY_OFFSET (places FIRST_CAPABILITY_OFFSET (map cap_len l)).
Proof. intros Hc. by rewrite next_cap_offset_layout, (caps_are_places c l). Qed.

Section construction.
Context {G V Q K : Type} `{InterruptSourceGroup G K} `{Vm K} `{QueueT Q K} `{VirtioDevice V G Q K}.
#[local] Abbreviation Dev := (VirtioPciDevice G V Q).
#[local] Abbreviation St := (Dev * K)%type.

Lemma vp_add_cap_spec cap (s : St) l :
  caps_are (vp_configuration s.1) l ->
  wp (vp_add_cap cap) (fun r s' => match r with
    | Ok offset => exists c', s' = (vput_configuration c' s.1, s.2) /\ caps_are c' (l ++ [cap]) /\
                     offset = next_cap_offset (capabilities (vp_configuration s.1))
    | Err _ => True end) s.
Proof.
  intros Hc. apply wp_map_err, wp_zoom. eapply wp_mono; [by apply add_capability_are|].
  intros [o|e] c'; [|done]. intros [Hc' Ho]. eauto.
Qed.

(** The capabilities of a device with [n] vectors. *)
Definition base_caps : list VirtioCapability :=
  [BoxCap (VirtioPciCap_new CapCommon 0 0 56); BoxCap (VirtioPciCap_new CapIsr 0 0x2000 1);
   BoxCap (VirtioPciCap_new CapDevice 0 0x4000 0x1000); BoxNotify (VirtioPciNotifyCap_new CapNotify 0 0x6000 0x1000 4)].
Definition msix_caps (n : Z) : list VirtioCapability :=
  if 0 <? n then [BoxMsix (mkMsixCap (capability_id_value MSIX) 0 (n - 1) 0x8000 0x48000)] else [].
Definition shm_cap (e : nat * VirtioSharedMemory) : VirtioCapability :=
  BoxCap64 (VirtioPciCap64_new CapSharedMemory VIRTIO_SHM_BAR_INDEX (as_u8 (Z.of_nat e.1)) (shm_offset e.2) (shm_len e.2)).
Definition shm_caps (regions : list VirtioSharedMemory) : list VirtioCapability := map shm_cap (imap pair regions).

(** The parts of the device that the set up of the BARs leaves alone. *)
Definition runtime (d : Dev) :=
  (vp_queues d, vp_common_config d, vp_device_activated d, vp_ioevent_registered d, vp_interrupt_status d,
   vp_msix_state d, vp_intr_mgr d, vp_msix_num d, vp_has_ctrl_queue d).

Lemma MsixCap_new_base n c : MsixCap_new 0 n 0x8000 0 0x48000 = Ret c -> 0 < n ->
  c = mkMsixCap (capability_id_value MSIX) 0 (n - 1) 0x8000 0x48000.
Proof.
  unfold MsixCap_new. case_match; [|done]. intros (m & Em & [= <-])%outcome_bind_Ret ?. unfold usub in Em. f_equal.
  destruct (1 <=? n) eqn:E1; zbool; [|lia]. by injection Em as <-.
Qed.


Lemma add_pci_capabilities_spec (s : St) :
  caps_are (vp_configuration s.1) [] -> 0 <= vp_msix_num s.1 ->
  wp (add_pci_capabilities 0) (fun r s' => match r with
    | Ok _ => s'.2 = s.2 /\ caps_are (vp_configuration s'.1) (base_caps ++ msix_caps (vp_msix_num s.1)) /\
              runtime s'.1 = runtime s.1 /\ vp_settings_bar s'.1 = 0 /\ vp_shm_regions s'.1 = vp_shm_regions s.1 /\
              (0 < vp_msix_num s.1 -> vp_msix_cap_reg_idx s'.1 = 0x21)
    | Err _ => True end) s.
Proof.
  intros Hc Hn. unfold add_pci_capabilities, vp, vp_upd. wp_steps.
  eapply wp_mono; [by apply vp_add_cap_spec|]. intros [o1|e] s1; [|done]. intros (c1 & -> & Hc1 & _). wp_steps.
  eapply wp_mono; [by apply vp_add_cap_spec|]. intros [o2|e] s2; [|done]. intros (c2 & -> & Hc2 & _). wp_steps.
  eapply wp_mono; [by apply vp_add_cap_spec|]. intros [o3|e] s3; [|done]. intros (c3 & -> & Hc3 & _). wp_steps.
  eapply wp_mono; [by apply vp_add_cap_spec|]. intros [o4|e] s4; [|done]. intros (c4 & -> & Hc4 & _). wp_steps.
  cbn [fst snd app] in *. change (vp_msix_num (vput_configuration _ _)) with (vp_msix_num s.1).
  unfold msix_caps. destruct (Z.ltb_spec 0 (vp_msix_num s.1)).
  - wp_steps. apply wp_lift. intros mc Emc. apply MsixCap_new_base in Emc; [subst mc|done]. wp_steps.
    eapply wp_mono; [by apply vp_add_cap_spec|]. intros [o5|e] s5; [|done]. intros (c5 & -> & Hc5 & Ho5). wp_steps.
    split_and!; try done. intros _. cbn [fst]. change (o5 = next_cap_offset (capabilities c4)) in Ho5.
    rewrite (caps_are_next _ _ Hc4) in Ho5. by subst o5.
  - wp_steps. split_and!; try done. lia.
Qed.

Lemma add_shm_spec l (s : St) caps :
  caps_are (vp_configuration s.1) caps ->
  wp (add_shm_capabilities l) (fun r s' => match r with
    | Ok _ => s'.2 = s.2 /\ caps_are (vp_configuration s'.1) (caps ++ shm_caps l) /\
              runtime s'.1 = runtime s.1 /\ vp_settings_bar s'.1 = vp_settings_bar s.1 /\
              vp_msix_cap_reg_idx s'.1 = vp_msix_cap_reg_idx s.1
    | Err _ => True end) s.
Proof.
  unfold add_shm_capabilities, shm_caps. generalize (imap pair l). clear l. intros l.
  revert s caps. induction l as [|[i r] l IH]; intros s caps Hc; cbn [for_each map].
  { wp_steps. by rewrite app_nil_r. }
  wp_steps. eapply wp_mono; [by apply vp_add_cap_spec|]. intros [o|e] s1; [|done]. intros (c1 & -> & Hc1 & _). wp_steps.
  eapply wp_mono; [by apply IH|]. intros [[]|e] s2; [|done]. by rewrite <- app_assoc.
Qed.

(** What the virtio device may return for its shared memory. *)
Definition shm_sane (l : VirtioSharedMemoryList) : Prop :=
  in_u64 (guest_addr l) /\ in_u64 (shm_list_len l) /\ 16 <= shm_list_len l /\
  Forall (fun r => in_u64 (shm_offset r) /\ in_u64 (shm_len r)) (region_list l).

Definition shm_caps_of (o : option VirtioSharedMemoryList) : list VirtioCapability :=
  match o with Some l => shm_caps (region_list l) | None => [] end.

Lemma add_bar_are r c l :
  caps_are c l -> bar_request r ->
  wp (add_device_bar r) (fun res c' => match res with Ok _ => caps_are c' l | Err _ => True end) c.
Proof.
  intros [Hb Hl] Hr res c' Hrun. pose proof Hrun as E. apply (add_device_bar_spec r c Hr) in E. destruct res; [|done].
  destruct E as (-> & k & Hf). split; [by eapply built_bar|]. unfold with_bar, with_upper. by destruct (c_bar_type r).
Qed.

(** A device whose BARs and capabilities are in place. *)
Record set_up (d0 d : Dev) : Prop := {
  su_caps : caps_are (vp_configuration d) (base_caps ++ msix_caps (vp_msix_num d) ++ shm_caps_of (vp_shm_regions d));
  su_runtime : runtime d = runtime d0;
  su_bar : vp_settings_bar d = 0;
  su_msix : 0 < vp_msix_num d -> vp_msix_cap_reg_idx d = 0x21;
  su_shm l : vp_shm_regions d = Some l -> shm_sane l;
}.

Lemma alloc_bars_spec (s : St) :
  caps_are (vp_configuration s.1) [] -> 0 <= vp_msix_num s.1 -> vp_shm_regions s.1 = None ->
  (forall base size, vp_setting_bar_res s.1 = MmioAddressRange base size -> in_u64 base) ->
  (forall res v k l v' k', dev_set_resource (Q:=Q) (G:=G) res v k = (Ok (Some l), v', k') -> shm_sane l) ->
  wp alloc_bars (fun r s' => r = Ok tt -> set_up s.1 s'.1) s.
Proof.
  intros Hc Hn Hs Hb Hsane. unfold alloc_bars, vp, vp_upd. wp_steps.
  destruct (vp_setting_bar_res s.1) as [?|base size| | | | |] eqn:Er; wp_steps; try done.
  apply wp_lift. intros b1 [= <-]. wp_steps. apply wp_lift. intros b2 Eb2. wp_steps. apply wp_map_err, wp_zoom.
  assert (bar_request b2) as Hr2.
  { specialize (Hb _ _ eq_refl). by destruct (vp_use_64bit_bar s.1); injection Eb2 as <-; repeat split; cbn in *; try ulia. }
  eapply wp_mono; [by apply add_bar_are|]. intros [i|e] c1; [|done]. intros Hc1. wp_steps.
  eapply wp_mono; [apply add_pci_capabilities_spec; done|]. cbn [fst snd]. intros [[]|e] s2; [|done]. cbn [fst snd].
  intros (Es2 & Hc2 & Hr & Hsb & Hshm & Hmx). wp_steps. apply wp_map_err.
  intros r s3 Hdev. unfold vp_on_device in Hdev. destruct (dev_set_resource _ _ _) as [[rd v3] k3] eqn:Ed.
  injection Hdev as <- <-. assert (vp_msix_num s2.1 = vp_msix_num s.1) as Hnum.
  { unfold runtime in Hr. by injection Hr. }
  change (vp_msix_num (vput_configuration c1 s.1)) with (vp_msix_num s.1) in *.
  change (runtime (vput_configuration c1 s.1)) with (runtime s.1) in Hr.
  destruct rd as [[l|]|e]; [| |by intros].
  - apply Hsane in Ed. pose proof Ed as (Hga & Hlen & H16 & _). wp_steps. apply wp_lift. intros b3 [= <-]. wp_steps. apply wp_map_err, wp_zoom.
    cbn [fst snd]. eapply wp_mono; [apply add_bar_are; [exact Hc2|repeat split; cbn; try ulia]|].
    intros [i3|e] c3; [|done]. intros Hc3. wp_steps.
    eapply wp_mono; [by apply add_shm_spec|]. cbn [fst snd]. intros [[]|e] s4; [|done].
    intros (_ & Hc4 & Hr4 & Hsb4 & Hmx4). wp_steps. intros _. cbn [fst].
    change (runtime (vput_configuration c3 (vput_device v3 s2.1))) with (runtime s2.1) in Hr4.
    assert (vp_msix_num s4.1 = vp_msix_num s.1) as Hnum4 by (unfold runtime in Hr4; injection Hr4; congruence).
    split; cbn [vput_bar_regions vput_shm_regions vp_configuration vp_msix_num vp_shm_regions vp_settings_bar vp_msix_cap_reg_idx].
    + rewrite Hnum4. by rewrite app_assoc.
    + change (runtime s4.1 = runtime s.1). congruence.
    + by rewrite Hsb4.
    + rewrite Hnum4, Hmx4. done.
    + by intros ? [= <-].
  - wp_steps. intros _. cbn [fst]. change (vp_shm_regions (vput_configuration c1 s.1)) with (vp_shm_regions s.1) in Hshm.
    split; cbn [vput_bar_regions vput_device vp_configuration vp_msix_num vp_shm_regions vp_settings_bar vp_msix_cap_reg_idx].
    + rewrite Hnum, Hshm, Hs. by rewrite app_nil_r.
    + exact Hr.
    + done.
    + by rewrite Hnum.
    + congruence.
Qed.

Lemma create_queues_from_length sizes idx k :
  wp (create_queues_from (G:=G) (Q:=Q) sizes idx) (fun r _ => match r with Ok qs => length qs = length sizes | Err _ => True end) k.
Proof.
  revert idx k. induction sizes as [|size sizes IH]; intros idx k; cbn [create_queues_from]; [by wp_steps|].
  intros r k' Hrun. destruct (eventfd_new k) as [[fd|e] k1]; [|by injection Hrun as <- <-].
  destruct (q_new size) as [q|]; [|by injection Hrun as <- <-].
  revert r k' Hrun. apply wp_bind. eapply wp_mono; [apply IH|]. intros [qs|e] k2 Hqs; [|done]. wp_steps. cbn. by rewrite Hqs.
Qed.

Lemma create_queues_length (v : V) k :
  wp (create_queues v) (fun r _ => match r with
    | Ok (qs, ctrl) => length qs = (length (queue_max_sizes (Q:=Q) (G:=G) (K:=K) v) + Nat.b2n ctrl)%nat
    | Err _ => True end) k.
Proof.
  unfold create_queues. apply wp_bind. eapply wp_mono; [apply create_queues_from_length|]. intros [qs|e] k1 Hqs; [|done].
  wp_steps. rewrite Hqs. case_match; cbn [Nat.b2n]; [by rewrite length_app|lia].
Qed.

(** A device that was just made. *)
Record fresh (n : Z) (resource : DeviceResources) (bar : Resource) (d : Dev) : Prop := {
  fr_caps : caps_are (vp_configuration d) [];
  fr_num : vp_msix_num d = n;
  fr_max : n <= MAX_MSIX_VECTORS_PER_DEVICE;
  fr_table : vp_msix_state d = mkMsixState (repeat MsixTableEntry_default (Z.to_nat n)) false false;
  fr_shm : vp_shm_regions d = None;
  fr_bar : vp_setting_bar_res d = bar;
  fr_common : vp_common_config d = mkCommonConfig 0 0 0 0 0 VIRTQ_MSI_NO_VECTOR (repeat VIRTQ_MSI_NO_VECTOR (length (vp_queues d)));
  fr_intr : exists k1 im k2 k3, DIM_new resource (DIM_empty, k1) = Ret (Ok tt, (im, k2)) /\
              set_working_mode PciMsixIrq (im, k2) = Ret (Ok tt, (vp_intr_mgr d, k3));
  fr_inactive : vp_device_activated d = false /\ vp_ioevent_registered d = false /\ vp_interrupt_status d = 0;
}.

Lemma as_u16_range x : 0 <= as_u16 x <= u16_max.
Proof. unfold as_u16. pose proof (Z.mod_pos_bound x (2 ^ 16)). ulia. Qed.

Lemma MsixState_new_ok n s : MsixState_new n = Ret s ->
  n <= MAX_MSIX_VECTORS_PER_DEVICE /\ s = mkMsixState (repeat MsixTableEntry_default (Z.to_nat n)) false false.
Proof. unfold MsixState_new. destruct (Z.leb_spec n 2048); [|done]. by intros [= <-]. Qed.

Lemma vp_new_fresh resource dev_id (v : V) wide bar k :
  wp (vp_new resource dev_id v wide bar) (fun r _ => match r with
    | Ok d => exists base size, get_pci_msix_irqs resource = Some (base, size) /\ fresh (as_u16 size) resource bar d /\
        (length (vp_queues d) <= S (length (queue_max_sizes (Q:=Q) (G:=G) (K:=K) v)))%nat
    | Err _ => True end) k.
Proof.
  unfold vp_new. wp_steps. apply wp_map_err. eapply wp_mono; [apply create_queues_length|]. intros [[qs ctrl]|e] k1 Hqs; [|done].
  destruct (get_pci_msix_irqs resource) as [[base size]|]; wp_steps; [|done].
  apply wp_lift. intros mx Emx. wp_steps.
  intros r1 k2 Him. destruct (DIM_new resource (DIM_empty, k1)) as [[[[]|e] [im1 k3]]|] eqn:Enew; [|by injection Him as <- <-|done].
  destruct (set_working_mode PciMsixIrq (im1, k3)) as [[[[]|e] [im k4]]|] eqn:Emode; [|by injection Him as <- <-|done].
  injection Him as <- <-. wp_steps. apply wp_lift. intros id Eid. wp_steps.
  destruct (device_class _) as [class subclass]. wp_steps. apply wp_lift. intros [c|e] Ec; wp_steps; [|done].
  exists base, size. split; [done|]. split; [|cbn; rewrite Hqs; destruct ctrl; cbn; lia]. split; cbn [vp_configuration vp_msix_num vp_msix_state vp_shm_regions vp_setting_bar_res
    vp_common_config vp_queues vp_device_activated vp_ioevent_registered vp_interrupt_status vp_intr_mgr]; try done.
  - split; [eapply built_new; [| |exact Ec]; ulia|].
    unfold PciConfiguration_new in Ec. cbn in Ec. by injection Ec as <-.
  - by apply MsixState_new_ok in Emx as [? _].
  - by apply MsixState_new_ok in Emx as [_ ?].
  - by rewrite Hqs.
  - by eexists _, _, _, _.
Qed.
End construction.

(** * Properties of the virtio PCI transport

    What the driver finds in the configuration space is what the BAR serves;
    which accesses to the BAR make the device model panic; and what an
    activation that fails, and a reset, leave behind. *)

(** ** The structures in the BAR *)

Section structures.
Context {G V Q K : Type} `{InterruptSourceGroup G K} `{Vm K} `{QueueT Q K} `{VirtioDevice V G Q K}.
#[local] Abbreviation Dev := (VirtioPciDevice G V Q).
#[local] Abbreviation St := (Dev * K)%type.

(** What a driver expects of a read in a virtio structure of some type. *)
Definition serve_read (ty offset : Z) (data : list Z) : eff St False (list Z) :=
  d ← vp id;
  if ty =? capability_type_value CapCommon then
    lift_outcome (cc_read (K:=K) (vp_common_config d) (vp_queues d) (vp_device d) offset data)
  else if ty =? capability_type_value CapIsr then
    match data with
    | [] => mret data
    | _ :: rest => _ ← vp_upd (vput_interrupt_status 0); mret (as_u8 (vp_interrupt_status d) :: rest)
    end
  else if ty =? capability_type_value CapDevice then
    let '(data', v) := dev_read_config (Q:=Q) (G:=G) (K:=K) offset data (vp_device d) in
    _ ← vp_upd (vput_device v);
    mret data'
  else mret data.

Definition shm_structures (o : option VirtioSharedMemoryList) : list Structure :=
  match o with
  | Some l => map (fun '(i, r) => VirtioStructure 8 2 (as_u8 (Z.of_nat i)) (shm_offset r) (shm_len r)) (imap pair (region_list l))
  | None => []
  end.

Definition expected_structures (d : Dev) : list Structure :=
  [VirtioStructure 1 0 0 0 56; VirtioStructure 3 0 0 0x2000 1; VirtioStructure 4 0 0 0x4000 0x1000;
   VirtioStructure 2 0 0 0x6000 0x1000]
  ++ (if 0 <? vp_msix_num d then [MsixStructure (vp_msix_num d - 1) 0x8000 0x48000] else [])
  ++ shm_structures (vp_shm_regions d).

Lemma msix_structure n :
  0 < n <= u16_max ->
  structure_of (BoxMsix (mkMsixCap (capability_id_value MSIX) 0 (n - 1) 0x8000 0x48000)) = MsixStructure (n - 1) 0x8000 0x48000.
Proof.
  intros Hn. unfold structure_of, parse_structure. cbn [cap_u8 cap_u16 cap_u32 virtio_capability].
  change (vcap_read_u8 _ 0) with (capability_id_value MSIX). cbn [capability_id_value Z.eqb Pos.eqb].
  rewrite (word_of_bytes _ 2 (n - 1)) by (done || ulia). done.
Qed.

Lemma halves x : in_u64 x -> as_u32 x + 2 ^ 32 * as_u32 (Z.shiftr x 32) = x.
Proof. intros Hx. rewrite Z.shiftr_div_pow2 by lia. unfold as_u32. Z.div_mod_to_equations. ulia. Qed.

Lemma shm_structure i r :
  in_u64 (shm_offset r) -> in_u64 (shm_len r) ->
  structure_of (shm_cap (i, r)) = VirtioStructure 8 2 (as_u8 (Z.of_nat i)) (shm_offset r) (shm_len r).
Proof.
  intros Ho Hl. unfold structure_of, parse_structure. cbn [cap_u8 cap_u16 cap_u32 virtio_capability].
  change (vcap_read_u8 _ 0) with (capability_id_value VendorSpecific).
  change (vcap_read_u8 _ 3) with (capability_type_value CapSharedMemory). rewrite !Z.eqb_refl.
  rewrite (dword_of_bytes _ 8 (as_u32 (shm_offset r))) by (done || apply as_u32_u32).
  rewrite (dword_of_bytes _ 12 (as_u32 (shm_len r))) by (done || apply as_u32_u32).
  rewrite (dword_of_bytes _ 16 (as_u32 (Z.shiftr (shm_offset r) 32))) by (done || apply as_u32_u32).
  rewrite (dword_of_bytes _ 20 (as_u32 (Z.shiftr (shm_len r) 32))) by (done || apply as_u32_u32).
  by rewrite !halves.
Qed.

Lemma caps_shaped n o : Forall (fun cap => cap_in_bytes cap /\ shaped cap) (base_caps ++ msix_caps n ++ shm_caps_of o).
Proof.
  rewrite !Forall_app. split_and!.
  - repeat (apply Forall_cons; split; [split; [repeat split; cbn; lia|done]|]). constructor.
  - unfold msix_caps. case_match; [|constructor]. apply Forall_cons. split; [|constructor]. repeat split; cbn; lia.
  - destruct o as [l|]; [|constructor]. cbn. unfold shm_caps. rewrite Forall_map. apply Forall_forall. intros [i r] _.
    pose proof (Z.mod_pos_bound (Z.of_nat i) (2 ^ 8)). repeat split; cbn; unfold as_u8; lia.
Qed.

Lemma caps_expected (d : Dev) :
  0 <= vp_msix_num d <= u16_max -> (forall l, vp_shm_regions d = Some l -> shm_sane l) ->
  map structure_of (base_caps ++ msix_caps (vp_msix_num d) ++ shm_caps_of (vp_shm_regions d)) = expected_structures d.
Proof.
  intros Hn Hshm. unfold expected_structures. rewrite !map_app. apply (f_equal2 app); [by vm_compute|]. apply (f_equal2 app).
  - unfold msix_caps. destruct (Z.ltb_spec 0 (vp_msix_num d)); [|done]. cbn [map]. by rewrite msix_structure by lia.
  - destruct (vp_shm_regions d) as [l|]; [|done]. destruct (Hshm l eq_refl) as (_ & _ & _ & Hr). cbn. unfold shm_caps.
    rewrite map_map. apply map_ext_in. intros [i r] Hin. apply list_elem_of_In, elem_of_lookup_imap in Hin as (j & x & [= -> ->] & Hj).
    rewrite Forall_lookup in Hr. destruct (Hr _ _ Hj). by apply shm_structure.
Qed.

Lemma structures_set_up d0 (d : Dev) :
  set_up d0 d -> 0 <= vp_msix_num d <= u16_max ->
  driver_structures (vp_configuration d) = rev (expected_structures d).
Proof.
  intros [Hc _ _ _ Hshm] Hn. pose proof Hc as [Hb Hl]. rewrite structures_read.
  - f_equal. rewrite <- caps_expected by done. clear - Hl. induction Hl as [|[[b n] cap'] cap es caps (_ & nx & _ & Ec) _ IH]; [done|].
    cbn [map]. rewrite IH. f_equal. cbn in Ec. subst cap'. apply linked_structure.
  - by apply built_ok.
  - by apply built_chain.
  - pose proof (caps_shaped (vp_msix_num d) (vp_shm_regions d)) as Hs. clear - Hl Hs.
    induction Hl as [|[[b n] cap'] cap es caps Hlc _ IH]; [done|]. apply Forall_cons in Hs as [[H1 H2] Hs].
    constructor; [|by apply IH]. by apply (linked_readable _ cap) in Hlc.
Qed.

Lemma region_in start size x : start <= x < start + size -> in_region start size x = true.
Proof. intros. unfold in_region. apply andb_true_iff. split; [apply Z.leb_le|apply Z.ltb_lt]; lia. Qed.
Lemma region_out start size x : x < start \/ start + size <= x -> in_region start size x = false.
Proof. intros. unfold in_region. apply andb_false_iff. destruct (Z.leb_spec start x); [right; apply Z.ltb_ge; lia|by left]. Qed.

(** The arm of the dispatch that an offset selects. *)
Ltac dispatch x :=
  first [ rewrite (proj2 (Z.ltb_lt x (COMMON_CONFIG_BAR_OFFSET + COMMON_CONFIG_SIZE))) by lia
        | rewrite (proj2 (Z.ltb_ge x (COMMON_CONFIG_BAR_OFFSET + COMMON_CONFIG_SIZE))) by lia ];
  repeat first [ rewrite region_in by lia | rewrite region_out by lia ].

Lemma elem_of_rev {A} (x : A) l : x ∈ rev l -> x ∈ l.
Proof. rewrite !list_elem_of_In. apply in_rev. Qed.

Lemma virtio_structure_served (d : Dev) ty id offset len o data s :
  VirtioStructure ty 0 id offset len ∈ expected_structures d -> 0 <= o < len ->
  read_bar (offset + o) data s = serve_read ty o data s.
Proof.
  unfold expected_structures. rewrite !elem_of_app. intros [Hin|[Hin|Hin]] Ho.
  - unfold read_bar, serve_read, vp. rewrite !run_gets.
    repeat (apply elem_of_cons in Hin as [[= -> -> -> ->]|Hin]; [|]); [..|by apply elem_of_nil in Hin];
      match goal with |- context [in_region _ _ ?x] => dispatch x; cbn [capability_type_value Z.eqb Pos.eqb] end;
      try match goal with |- context [?a + o - ?b] => replace (a + o - b) with o by lia end; done.
  - exfalso. case_match; [|by apply elem_of_nil in Hin]. by apply list_elem_of_singleton in Hin.
  - exfalso. unfold shm_structures in Hin. destruct (vp_shm_regions d); [|by apply elem_of_nil in Hin].
    by apply list_elem_of_fmap in Hin as ([i r] & ? & _).
Qed.

Lemma msix_expected (d : Dev) control table pba :
  MsixStructure control table pba ∈ expected_structures d -> control = vp_msix_num d - 1 /\ table = 0x8000 /\ pba = 0x48000.
Proof.
  unfold expected_structures. rewrite !elem_of_app. intros [Hin|[Hin|Hin]].
  - by repeat (apply elem_of_cons in Hin as [?|Hin]; [done|]); apply elem_of_nil in Hin.
  - case_match; [|by apply elem_of_nil in Hin]. apply list_elem_of_singleton in Hin. by injection Hin as -> -> ->.
  - unfold shm_structures in Hin. destruct (vp_shm_regions d); [|by apply elem_of_nil in Hin].
    by apply list_elem_of_fmap in Hin as ([i r] & ? & _).
Qed.

Lemma msix_entry_read (d : Dev) k i o data :
  0 <= i < Z.of_nat (length (table_entries (vp_msix_state d))) -> i < 2048 -> 0 <= o < 16 -> o + Z.of_nat (length data) <= 16 ->
  (length data <= 8)%nat ->
  exists entry, at_index (table_entries (vp_msix_state d)) i = Some entry /\
    read_bar (E:=False) (0x8000 + 16 * i + o) data (d, k) =
      Ret (Ok (take (length data) (drop (Z.to_nat o) (entry_bytes entry))), (d, k)).
Proof.
  intros Hi Hmax Ho Hl H8. pose proof (at_index_ok _ i MsixTableEntry_default Hi) as Ee.
  set (e := nth _ _ _) in Ee.
  exists e. split; [done|]. unfold read_bar, vp. rewrite run_gets. dispatch (0x8000 + 16 * i + o). cbn [fst id].
  unfold read_table, lift_outcome. replace (0x8000 + 16 * i + o - 0x8000) with (o + i * 16) by lia.
  rewrite Z.div_add, Z.mod_add, (Z.div_small o), (Z.mod_small o), Z.add_0_l by lia.
  destruct (Z.leb_spec (Z.of_nat (length data)) 8); [|lia]. cbn [negb].
  destruct (Z.leb_spec (o + Z.of_nat (length data)) 16); [|lia]. rewrite Ee. done.
Qed.

(** C6: After the construction of a device and of its BARs, the driver that
    follows the capability list and reads the capabilities finds exactly the
    common, ISR, device and notification structures, the MSI-X capability when
    the device has vectors, and one structure for every shared memory region, the
    last one first.  And what it finds is true of the BAR: a read at an offset
    inside a virtio structure of BAR 0 is served by that structure, and a read of
    at most eight bytes inside an entry of the MSI-X table returns bytes of the
    entry. *)
Theorem advertised_structures_served resource dev_id (v : V) wide base size k d0 k0 (d : Dev) k1 :
  in_u64 base ->
  (forall res v k l v' k', dev_set_resource (Q:=Q) (G:=G) res v k = (Ok (Some l), v', k') -> shm_sane l) ->
  vp_new resource dev_id v wide (MmioAddressRange base size) k = Ret (Ok d0, k0) ->
  alloc_bars (d0, k0) = Ret (Ok tt, (d, k1)) ->
  driver_structures (vp_configuration d) = rev (expected_structures d) /\
  (forall ty id offset len o data s, VirtioStructure ty 0 id offset len ∈ driver_structures (vp_configuration d) ->
     0 <= o < len -> read_bar (offset + o) data s = serve_read ty o data s) /\
  (forall control table pba i o data, MsixStructure control table pba ∈ driver_structures (vp_configuration d) ->
     0 <= i <= control -> 0 <= o < 16 -> o + Z.of_nat (length data) <= 16 -> (length data <= 8)%nat ->
     exists entry, at_index (table_entries (vp_msix_state d)) i = Some entry /\
       read_bar (E:=False) (table + 16 * i + o) data (d, k1) =
         Ret (Ok (take (length data) (drop (Z.to_nat o) (entry_bytes entry))), (d, k1))).
Proof.
  intros Hb Hsane Hnew Halloc. apply vp_new_fresh in Hnew as (b & n & Hirq & Hf & _).
  pose proof Hf as [Hc Hnum Hmax Ht Hs Hbar _ _ _]. pose proof (as_u16_range n) as Hrange.
  assert (set_up d0 d) as Hsu.
  { apply (alloc_bars_spec (d0, k0)) in Halloc; [by apply Halloc|done|cbn; lia|done| |done].
    intros ? ?. cbn. rewrite Hbar. by intros [= <- <-]. }
  pose proof (su_runtime _ _ Hsu) as Hrt. unfold runtime in Hrt. injection Hrt as _ _ _ _ _ Hms _ Hnum' _.
  rewrite (structures_set_up d0 d Hsu) by lia. split; [done|]. split.
  - intros ty id offset len o data s Hin Ho. apply elem_of_rev in Hin. by eapply virtio_structure_served.
  - intros control table pba i o data Hin Hi Ho Hl H8. apply elem_of_rev in Hin.
    apply msix_expected in Hin as (-> & -> & ->). apply msix_entry_read; try lia.
    rewrite Hms, Ht. cbn [table_entries]. rewrite repeat_length. lia.
Qed.
End structures.
