(* ===== verification/VirtioPciTotal.v ===== *)
(** * The virtio PCI transport: which accesses return

    The invariant of a device whose driver runs: the interrupt manager has the
    group of the MSI-X vectors, the table and the registers have the sizes that
    the construction gave them, and the BAR lies below the top of the address
    space.  Every access keeps it, and the accesses that panic are those of
    [bad_access]. *)
From S2P Require Import Prelude Bits IntervalTree DeviceResources Effects InterruptManager MmioData MmioTransport MmioTotal PciBus PciConfig PciConfigFacts PciConfigBuild PciBars PciMsi PciCommonConfig VirtioPci VirtioPciProps.

(** ** The interrupt manager *)

Section dim.
Context {G K : Type} `{InterruptSourceGroup G K} (n : Z).
#[local] Abbreviation T := (DeviceInterruptManager G * K)%type.

Record pci_dim (d : DeviceInterruptManager G) : Prop := {
  pd_group : exists g, group_at d PciMsixIrq g /\ group_len g = n;
  pd_len : n <= Z.of_nat (length (msi_config d));
  pd_legacy : idx_of d LegacyIrqMode = NO_GROUP;
  pd_mode : dim_mode d = Disabled \/ dim_mode d = PciMsixIrq;
  pd_current : dim_mode d = PciMsixIrq -> current_idx d = idx_of d PciMsixIrq;
  pd_active : activated d = true -> dim_mode d = PciMsixIrq;
}.

#[local] Abbreviation ok := (fun t : T => pci_dim t.1).

Lemma pci_dim_group d : pci_dim d -> dim_mode d = PciMsixIrq ->
  exists g, at_index (intr_groups d) (current_idx d) = Some g /\ group_len g = n /\ is_Some (get_configs d PciMsixIrq).
Proof.
  intros [(g & Hg & Hn) Hl _ _ Hc _] Hm. rewrite Hc by done. exists g. split; [done|]. split; [done|].
  unfold get_configs. unfold group_at in Hg. rewrite Hg, Hn, (proj2 (Z.leb_le _ _)) by done. eauto.
Qed.

Lemma pci_working_mode m : m = Disabled \/ m = PciMsixIrq -> always ok (set_working_mode m).
Proof.
  intros Hm [d k] Hok. cbn in Hok. unfold set_working_mode, mbind, eff_bind, dim, gets, upd, modify. cbn.
  destruct (activated d) eqn:Ea; [by exists (Err EINVAL), (d, k)|].
  destruct (bool_decide (m <> dim_mode d)); [|by exists (Ok tt), (d, k)].
  destruct (_ && _ && _ && _); [by exists (Err EINVAL), (d, k)|].
  case_bool_decide as Hd; eexists _, _; (split; [done|]); cbn.
  - destruct Hok as [? ? ? _ _ _]. destruct Hm as [->| ->]; [done|]. split; cbn; auto.
  - destruct Hok as [? ? ? _ _ _]. destruct Hm as [->| ->]; [|done]. split; cbn; auto; congruence.
Qed.

Lemma pci_sys_call {A} (g : K -> result errno A * K) : always ok (sys_call g).
Proof. intros [d k] Hok. unfold sys_call. cbn. destruct (g k) as [r k']. by exists r, (d, k'). Qed.

(** [enable] returns, and when it succeeds the manager is active. *)
Lemma pci_enable t : ok t -> exists r t', enable t = Ret (r, t') /\ ok t' /\ (r = Ok tt -> activated t'.1 = true).
Proof.
  destruct t as [d k]. cbn. intros Hok. unfold enable, mbind, eff_bind at 1, dim, gets. cbn.
  destruct (activated d) eqn:Ea; [by exists (Ok tt), (d, k)|]. unfold eff_bind at 1.
  rewrite (pd_legacy d Hok), Z.eqb_refl, andb_false_r. cbn. case_bool_decide as Hd; [by exists (Err EINVAL), (d, k)|].
  destruct (pd_mode d Hok) as [|Hm]; [done|]. destruct (pci_dim_group d Hok Hm) as (g & Hg & _ & l & Hl).
  rewrite Hg, Hm, Hl. cbn. unfold eff_bind, sys_call, upd, modify. cbn.
  destruct (group_enable g l k) as [[[]|e] k1]; eexists _, _; (split; [done|]); cbn; (split; [|done]); [|done].
  destruct Hok. by split.
Qed.

(** [get_group] gives the group exactly when the manager is active. *)
Lemma pci_get_group t : ok t ->
  exists o, get_group t = Ret (Ok o, t) /\ (if activated t.1 then exists g, o = Some g /\ group_len g = n else o = None).
Proof.
  destruct t as [d k]. cbn. intros Hok. unfold get_group, mbind, eff_bind, dim, gets. cbn.
  destruct (activated d) eqn:Ea; cbn; [|by exists None].
  pose proof (pd_active d Hok Ea) as Hm. rewrite bool_decide_eq_false_2 by (rewrite Hm; done).
  destruct (pci_dim_group d Hok Hm) as (g & Hg & Hn & _). rewrite Hg. cbn. eauto.
Qed.

Lemma pci_reset_dim : always ok (reset_dim (G:=G) (K:=K)).
Proof.
  intros [d k] Hok. cbn in Hok. unfold reset_dim. unfold mbind at 1, eff_bind at 1, dim, gets. cbn.
  destruct (activated d) eqn:Ea.
  - destruct (pci_dim_group d Hok (pd_active d Hok Ea)) as (g & Hg & _).
    unfold mbind, eff_bind at 1, upd, modify. unfold eff_bind at 1. cbn. unfold eff_bind at 1. rewrite Hg. cbn.
    unfold sys_call. cbn. destruct (group_disable g k) as [[[]|e] k1].
    + apply (pci_working_mode Disabled); [by left|]. cbn. destruct Hok. by split.
    + eexists _, _. split; [done|]. cbn. destruct Hok. by split.
  - apply (pci_working_mode Disabled); [by left|done].
Qed.

Lemma pci_update i : 0 <= i -> always ok (update i).
Proof.
  intros Hi [d k] Hok. cbn in Hok. unfold update, mbind, eff_bind, dim, gets. cbn.
  destruct (activated d) eqn:Ea; cbn; [|by exists (Err EINVAL), (d, k)]. pose proof (pd_active d Hok Ea) as Hm. rewrite Hm.
  destruct (pci_dim_group d Hok Hm) as (g & Hg & _). rewrite Hg. cbn.
  destruct (_ || _) eqn:E; [by exists (Err EINVAL), (d, k)|].
  apply orb_false_iff in E as [_ E%Z.leb_gt]. rewrite (at_index_ok _ i LegacyIrqConfig) by lia. cbn.
  unfold sys_call. cbn. destruct (group_update _ _ _ k) as [r k1]. by exists r, (d, k1).
Qed.

Lemma pci_update_msi i f : always ok (update_msi (G:=G) (K:=K) i f).
Proof.
  intros [d k] Hok. cbn in Hok. unfold update_msi, mbind, eff_bind, dim, gets. cbn.
  destruct (at_index _ _) as [[|c]|]; [by exists (Err EINVAL), (d, k)| |by exists (Err EINVAL), (d, k)].
  eexists _, _. split; [done|]. cbn. destruct Hok as [? Hl ? ? ? ?]. split; try done. cbn. by rewrite length_insert.
Qed.

Lemma pci_set_message i e : always ok (set_message (G:=G) (K:=K) i e).
Proof. repeat (apply always_bind; [apply pci_update_msi|intros _]). apply pci_update_msi. Qed.

Lemma pci_mask_if p f (g : G) l : always ok (mask_if p f g l).
Proof. apply always_for_each. intros [i e] _. case_match; [apply pci_sys_call|apply always_ret]. Qed.

(** A method on the group of the manager. *)
Lemma pci_with_group {A} (t : T) (f : G -> eff T errno A) :
  ok t ->
  if activated t.1 then exists g, group_len g = n /\ (o ← get_group; group ← expect o; f group) t = f g t
  else (o ← get_group; group ← expect o; f group) t = Panic.
Proof.
  intros Hd. destruct (pci_get_group t Hd) as (o & E & Ho). rewrite !(run_ok_bind _ _ _ _ _ E).
  destruct (activated t.1); [destruct Ho as (g & -> & Hn); by exists g|by subst o].
Qed.
End dim.

(** ** Methods that panic exactly in some states *)

Definition exact {S E A} (P : S -> Prop) (bad : S -> bool) (m : eff S E A) : Prop :=
  forall s, P s -> if bad s then m s = Panic else exists r s', m s = Ret (r, s') /\ P s'.

(** ** The state of MSI-X *)

Section msix.
Context {G K : Type} `{InterruptSourceGroup G K} (n : Z).
#[local] Abbreviation T := (MsixState * (DeviceInterruptManager G * K))%type.

Definition msix_inv (t : T) : Prop := pci_dim n t.2.1 /\ Z.of_nat (length (table_entries t.1)) = n.

Lemma mgr_always {A} (m : eff (DeviceInterruptManager G * K) errno A) :
  always (fun t => pci_dim n t.1) m -> always msix_inv (mgr m).
Proof. intros Hm. apply always_zoom. intros [s t] [Hd Hl]. destruct (Hm t Hd) as (r & t' & E & Ht). by exists r, t'. Qed.

(** A method on the group of the manager. *)
Lemma mgr_with_group {A} (t : T) (f : G -> eff T errno A) :
  msix_inv t ->
  if activated t.2.1 then exists g, group_len g = n /\ (o ← mgr get_group; group ← expect o; f group) t = f g t
  else (o ← mgr get_group; group ← expect o; f group) t = Panic.
Proof.
  intros [Hd _]. destruct (pci_get_group n t.2 Hd) as (o & E & Ho).
  assert (mgr get_group t = Ret (Ok o, t)) as Eg by (unfold mgr, zoom; rewrite E; by destruct t).
  rewrite !(run_ok_bind _ _ _ _ _ Eg). destruct (activated t.2.1); [destruct Ho as (g & -> & Hn); by exists g|by subst o].
Qed.

(** [set_msg_ctl] with MSI-X on, before and after, needs the group when the mask
    of the function changes. *)
Definition bad_control (reg : Z) (s : MsixState) (d : DeviceInterruptManager G) : bool :=
  let new_masked := negb (Z.land reg FUNCTION_MASK_MASK =? 0) in
  let new_enabled := negb (Z.land reg MSIX_ENABLE_MASK =? 0) in
  msix_enabled s && new_enabled && negb (eqb (msix_masked s) new_masked) && negb (activated d).

Lemma turn_on_always (l : list MsixTableEntry) new_masked :
  always (fun t => pci_dim n t.1)
    (_ ← reset_dim;
     _ ← set_working_mode PciMsixIrq;
     _ ← for_each (fun '(idx, vector) => set_message idx vector) (indexed l);
     _ ← enable;
     o ← get_group;
     group ← expect o;
     mask_if (fun vector => new_masked || entry_masked vector) group_mask group l).
Proof.
  apply always_bind; [apply pci_reset_dim|intros _]. apply always_bind; [apply pci_working_mode; by right|intros _].
  apply always_bind; [apply always_for_each; intros [i e] _; apply pci_set_message|intros _].
  intros t Ht. destruct (pci_enable n t Ht) as (r & t1 & E & Ht1 & Ha). destruct r as [[]|e].
  - rewrite (run_ok_bind _ _ _ _ _ E). pose proof (pci_with_group n t1 (fun g => mask_if (fun vector => new_masked || entry_masked vector) group_mask g l) Ht1) as Hg.
    rewrite (Ha eq_refl) in Hg. destruct Hg as (g & _ & ->). by apply pci_mask_if.
  - rewrite (run_err_bind _ _ _ _ _ E). eauto.
Qed.

Lemma group_then_modify (f : G -> eff (DeviceInterruptManager G * K) errno unit) (h : T -> T) :
  (forall g, always (fun t => pci_dim n t.1) (f g)) -> (forall t, msix_inv t -> msix_inv (h t)) ->
  exact msix_inv (fun t => negb (activated t.2.1)) (_ ← mgr (o ← get_group; group ← expect o; f group); modify h).
Proof.
  intros Hf Hh t Ht. pose proof (pci_with_group n t.2 f (proj1 Ht)) as Hg. destruct (activated t.2.1); cbn [negb].
  - destruct Hg as (g & _ & Eg). apply (always_bind msix_inv (mgr (f g)) (fun _ => modify h)) in Ht.
    + destruct Ht as (r & t' & E & Ht). exists r, t'. split; [|done]. rewrite <- E. unfold mbind, eff_bind, mgr, zoom in *.
      by rewrite Eg.
    + by apply mgr_always.
    + intros _. by apply always_modify.
  - apply run_panic_bind. unfold mgr, zoom. by rewrite Hg.
Qed.

Lemma set_msg_ctl_exact reg : exact msix_inv (fun t => bad_control reg t.1 t.2.1) (set_msg_ctl reg).
Proof.
  intros t Ht. unfold set_msg_ctl. rewrite run_gets. unfold bad_control.
  set (nm := negb (Z.land reg FUNCTION_MASK_MASK =? 0)). set (ne := negb (Z.land reg MSIX_ENABLE_MASK =? 0)). cbv zeta.
  assert (forall (m : eff (DeviceInterruptManager G * K) errno unit),
    always (fun t => pci_dim n t.1) m ->
    always msix_inv (_ ← mgr m; modify (fun t => (mkMsixState (table_entries t.1) nm ne, t.2)))) as Hseq.
  { intros m Hm. apply always_bind; [by apply mgr_always|intros _]. by apply always_modify. }
  destruct (msix_enabled t.1) eqn:Ee, ne; cbn [andb eqb].
  - destruct (eqb (msix_masked t.1) nm) eqn:Em; cbn [negb andb]; [by exists (Ok tt), t|].
    apply group_then_modify; [|done|done]. intros g. repeat case_match; [apply pci_mask_if..|apply always_ret].
  - apply Hseq; [apply pci_reset_dim|done].
  - apply Hseq; [apply turn_on_always|done].
  - destruct (eqb (msix_masked t.1) nm); [by exists (Ok tt), t|]. apply Hseq; [apply always_ret|done].
Qed.

(** [write_table]: the bytes have to lie inside one entry of the table, and a
    change of the mask bit needs the group. *)
Definition bad_table_write (offset : Z) (data : list Z) (s : MsixState) (d : DeviceInterruptManager G) : bool :=
  let index := offset / 16 in
  let modulo := offset mod 16 in
  let len := Z.of_nat (length data) in
  negb ((len <=? 8) && (modulo + len <=? 0x10)) || (n <=? index) ||
  (msix_enabled s && (0xc <=? modulo) && negb (msix_masked s) && negb (activated d)).

Definition bad_table_read (offset : Z) (data : list Z) : bool :=
  let len := Z.of_nat (length data) in
  negb (len <=? 8) || ((offset mod 16 + len <=? 16) && (n <=? offset / 16)).

Lemma group_tail_exact (p : bool) (m : G -> eff T errno unit) :
  (forall g, always msix_inv (m g)) ->
  exact msix_inv (fun t => p && negb (activated t.2.1)) (if p then o ← mgr get_group; group ← expect o; m group else mret tt).
Proof.
  intros Hm t Ht. destruct p; cbn [andb]; [|by exists (Ok tt), t]. pose proof (mgr_with_group t m Ht) as Hg.
  destruct (activated t.2.1); cbn [negb]; [|done]. destruct Hg as (g & _ & ->). by apply Hm.
Qed.

Lemma update_active i (t : DeviceInterruptManager G * K) u t' : update i t = Ret (Ok u, t') -> activated t'.1 = true.
Proof.
  intros Hu. enough (wp (update i) (fun r t' => r = Ok u -> activated t'.1 = true) t) as Hw by by apply (Hw _ _ Hu).
  unfold update, dim. wp_steps. change (id t.1) with t.1. destruct (activated t.1) eqn:Ea; cbn [negb]; [|by wp_steps].
  destruct (dim_mode t.1); try by wp_steps.
  all: wp_steps; apply wp_expect; intros g _; wp_if; [by wp_steps|]; wp_steps; apply wp_expect; intros c _.
  all: intros r t2; unfold sys_call; destruct (group_update _ _ _ _); by intros [= <- <-].
Qed.

Lemma write_table_exact offset data :
  0 <= offset -> exact msix_inv (fun t => bad_table_write offset data t.1 t.2.1) (write_table offset data).
Proof.
  intros Ho t Ht. unfold write_table, bad_table_write. cbv zeta.
  destruct ((_ <=? 8) && _) eqn:El; cbn [negb orb]; [|done]. rewrite run_gets.
  pose proof (Z.div_pos offset 16 Ho ltac:(lia)) as Hi. destruct Ht as [Hd Hn].
  destruct (Z.leb_spec n (offset / 16)); cbn [orb].
  { unfold at_index. destruct (Z.ltb_spec (offset / 16) (Z.of_nat (length (table_entries t.1)))); [lia|done]. }
  rewrite (at_index_ok _ _ MsixTableEntry_default) by lia. set (old := nth _ _ _). change (expect (Some old) ≫= ?k) with (k old).
  cbv beta. set (new := entry_of_bytes _). set (h := fun t0 : T => _).
  assert (msix_inv (h t)) as Ht1 by (split; [done|]; cbn; by rewrite length_insert).
  change ((modify h ≫= ?k) t) with (k tt (h t)). cbv beta. change (activated t.2.1) with (activated (h t).2.1).
  destruct (msix_enabled t.1); cbn [andb]; [|by exists (Ok tt), (h t)].
  generalize (h t), Ht1. clear - Hi Hd. clearbody old new. intros t1 Ht1.
  match goal with |- context [(if _ then _ else mret tt) ≫= (fun _ => if ?q then ?m1 ≫= ?k1 else mret tt)] =>
    assert (exact msix_inv (fun t => q && negb (activated t.2.1)) (if q then m1 ≫= k1 else mret tt)) as Htail end.
  { apply group_tail_exact. intros g. repeat case_match; [apply mgr_always, pci_sys_call..|apply always_ret]. }
  destruct (Z.ltb_spec (offset mod 16) 12), (Z.leb_spec 12 (offset mod 16)); try lia; cbn [andb].
  - destruct (mgr_always (_ ← set_message (offset / 16) new; update (offset / 16))) with t1 as (r & t2 & E & Ht2); [|done|].
    { apply always_bind; [apply pci_set_message|intros _; by apply pci_update]. }
    destruct r as [[]|e]; [|rewrite (run_err_bind _ _ _ _ _ E); eauto].
    rewrite (run_ok_bind _ _ _ _ _ E). specialize (Htail t2 Ht2). assert (activated t2.2.1 = true) as Ha.
    { unfold mgr, zoom in E. destruct ((set_message (offset / 16) new ≫= fun _ => update (offset / 16)) t1.2) as [[r t3]|] eqn:E1; [|done]. injection E as -> <-.
      apply bind_inv in E1 as [(e & _ & [=])|(u & t4 & _ & E2)]. by apply update_active in E2. }
    cbv beta in Htail. rewrite Ha, andb_false_r in Htail. done.
  - rewrite !(run_ok_bind (mret tt) _ t1 tt t1 eq_refl). specialize (Htail t1 Ht1).
    destruct (Z.leb_spec 12 (offset mod 16 + Z.of_nat (length data))); [|lia]. exact Htail.
Qed.

(** [read_pba] reads the pending bits of vectors that the group has. *)
Definition bad_pba_read (data : list Z) (s : MsixState) (d : DeviceInterruptManager G) : bool :=
  negb (Z.of_nat (length data) <=? 8) || (msix_enabled s && negb (activated d)).

Lemma pba_loop_always entries (g : G) offset m idx data :
  0 <= idx -> m = 0%nat \/ idx + Z.of_nat m <= Z.of_nat (length entries) ->
  always (fun t : DeviceInterruptManager G * K => pci_dim n t.1) (pba_loop entries g offset idx m data).
Proof.
  revert idx data. induction m as [|m IH]; intros idx data Hi Hl; cbn [pba_loop]; [apply always_ret|].
  rewrite (at_index_ok _ _ MsixTableEntry_default) by lia. apply always_bind; [apply always_ret|intros e].
  apply always_bind; [case_match; [apply pci_sys_call|apply always_ret]|intros p]. apply IH; lia.
Qed.

Lemma read_pba_exact offset data :
  0 <= offset < 0x800 -> exact msix_inv (fun t => bad_pba_read data t.1 t.2.1) (read_pba offset data).
Proof.
  intros Ho t Ht. unfold read_pba, bad_pba_read. destruct (Z.leb_spec (Z.of_nat (length data)) 8); cbn [negb orb]; [|done].
  rewrite run_gets. destruct (msix_enabled t.1); cbn [andb]; [|by eexists _, _].
  match goal with |- context [expect _ ≫= ?f] => pose proof (mgr_with_group t f Ht) as Hg end.
  destruct (activated t.2.1); cbn [negb]; [|done]. destruct Hg as (g & Hgl & ->).
  rewrite as_u32_id by ulia. unfold umul. destruct (Z.leb_spec (offset * 8) u32_max); [|ulia].
  change ((lift_outcome (Ret ?a) ≫= ?k) t) with (k a t). cbv beta. rewrite uadd_Ret by ulia.
  change ((lift_outcome (Ret ?a) ≫= ?k) t) with (k a t). cbv beta. apply mgr_always; [|done]. apply pba_loop_always; [lia|]. destruct Ht as [_ Hn]. rewrite Hn, Hgl.
  destruct (Z.min_spec (offset * 8 + Z.of_nat (length data) * 8) n); lia.
Qed.
End msix.

(** ** The common configuration *)

Section common.
Context {G V Q K : Type} `{QueueT Q K} `{VirtioDevice V G Q K} (nq : nat).
#[local] Abbreviation T := (VirtioPciCommonConfig * list (VirtioQueueConfig G Q) * V)%type.

Definition common_inv (t : T) : Prop :=
  length (cc_msix_queues t.1.1) = nq /\ length t.1.2 = nq /\ 0 <= cc_queue_select t.1.1.

(** An access of two bytes to the vector of a queue that is not there. *)
Definition bad_common (offset : Z) (data : list Z) (c : VirtioPciCommonConfig) : bool :=
  negb (Nat.leb (length data) 8) ||
  (Nat.eqb (length data) 2 && (offset =? 0x1a) && (Z.of_nat (length (cc_msix_queues c)) <=? cc_queue_select c)).

Lemma cc_queue_always f : always common_inv (cc_with_queue_mut f).
Proof.
  apply always_modify. intros [[c qs] v] (H1 & H2 & H3). cbn in *. split; [done|]. split; [|done].
  cbn. case_match; [by rewrite length_insert|done].
Qed.
Lemma cc_upd_always f : (forall c, 0 <= cc_queue_select (f c) \/ cc_queue_select (f c) = cc_queue_select c) ->
  (forall c, length (cc_msix_queues (f c)) = length (cc_msix_queues c)) -> always common_inv (cc_upd (G:=G) (V:=V) (Q:=Q) f).
Proof.
  intros Hs Hl. apply always_modify. intros [[c qs] v] (H1 & H2 & H3). cbn in *. split; [cbn; by rewrite Hl|].
  split; [done|]. cbn. destruct (Hs c); lia.
Qed.

Lemma write_byte_always offset v : always common_inv (write_common_config_byte (G:=G) (V:=V) (Q:=Q) offset v).
Proof. unfold write_common_config_byte. case_match; [apply cc_upd_always; auto|apply always_ret]. Qed.

Lemma write_word_exact offset v :
  0 <= v ->
  exact common_inv (fun t => (offset =? 0x1a) && (Z.of_nat nq <=? cc_queue_select t.1.1)) (write_common_config_word (K:=K) offset v).
Proof.
  intros Hv t Ht. unfold write_common_config_word. destruct (Z.eqb_spec offset 0x1a) as [->|Hne]; cbn [andb].
  - change (0x1a =? 0x10) with false. change (0x1a =? 0x16) with false. change (0x1a =? 0x18) with false. cbn iota.
    destruct Ht as (H1 & H2 & H3). rewrite run_gets.
    destruct (Z.leb_spec (Z.of_nat nq) (cc_queue_select t.1.1)).
    + unfold at_index. destruct (Z.ltb_spec (cc_queue_select t.1.1) (Z.of_nat (length (cc_msix_queues t.1.1)))); [lia|done].
    + rewrite (at_index_ok _ _ 0) by lia. eexists _, _. split; [done|]. destruct t as [[c qs] q]. cbn in *.
      split; [cbn; by rewrite length_insert|done].
  - repeat case_match; try (by apply cc_queue_always); try (by exists (Ok tt), t);
      apply cc_upd_always; auto.
Qed.

Lemma write_dword_always offset v : always common_inv (write_common_config_dword (K:=K) offset v).
Proof.
  unfold write_common_config_dword. repeat case_match; try apply cc_queue_always; try apply always_ret; try (apply cc_upd_always; auto).
  apply always_modify. intros [[c qs] q] Hc. done.
Qed.
Lemma write_qword_always offset v : always common_inv (write_common_config_qword (V:=V) (G:=G) (K:=K) offset v).
Proof. unfold write_common_config_qword. repeat case_match; try apply cc_queue_always; apply always_ret. Qed.

Lemma cc_write_exact offset data :
  Forall (fun b => 0 <= b < 256) data -> exact common_inv (fun t => bad_common offset data t.1.1) (cc_write (K:=K) offset data).
Proof.
  intros Hd t Ht. pose proof (le_read_bound data Hd) as Hv. unfold cc_write, bad_common.
  destruct (Nat.leb (length data) 8); cbn [negb orb]; [|done].
  destruct (length data) as [|[|[|[|[|[|[|[|[|]]]]]]]]]; cbn [Nat.eqb andb]; try by exists (Ok tt), t.
  - by apply write_byte_always.
  - rewrite (proj1 Ht). exact (write_word_exact offset (le_read data) (proj1 Hv) t Ht).
  - by apply write_dword_always.
  - by apply write_qword_always.
Qed.

Lemma cc_read_exact c qs v offset data :
  common_inv (c, qs, v) ->
  if bad_common offset data c then cc_read (K:=K) c qs v offset data = Panic
  else exists data', cc_read (K:=K) c qs v offset data = Ret data'.
Proof.
  intros (H1 & H2 & H3). cbn in *. unfold cc_read, bad_common.
  destruct (Nat.leb (length data) 8); cbn [negb orb]; [|done].
  destruct (length data) as [|[|[|[|[|[|[|[|[|]]]]]]]]]; cbn [Nat.eqb andb]; try by eexists.
  unfold read_common_config_word. destruct (Z.eqb_spec offset 0x1a) as [->|Hne]; cbn [andb].
  - change (0x1a =? 0x10) with false. change (0x1a =? 0x12) with false. change (0x1a =? 0x16) with false.
    change (0x1a =? 0x18) with false. cbn iota. destruct (Z.leb_spec (Z.of_nat (length (cc_msix_queues c))) (cc_queue_select c)).
    + unfold at_index. destruct (Z.ltb_spec (cc_queue_select c) (Z.of_nat (length (cc_msix_queues c)))); [lia|done].
    + rewrite (at_index_ok _ _ 0) by lia. by eexists.
  - repeat case_match; by eexists.
Qed.
End common.

(** ** Writes to the configuration space beyond the header *)

Section config.
Context {C : Type} {PC : PciCapability C} (h : PciHeaderType) (bs : list PciBarState).
#[local] Abbreviation T := (PciConfiguration C * option PciBusContent)%type.

(** The parts that such a write leaves. *)
Definition config_inv (t : T) : Prop := header_type t.1 = h /\ bars t.1 = bs /\ length (writable_bits t.1) = 64%nat.

Lemma cap_write_always offset f : always config_inv (cap_write offset f).
Proof.
  unfold cap_write, cfg, upd_cfg. apply always_bind; [apply always_gets|intros caps]. case_match; [|apply always_ret].
  apply always_bind; [by apply always_modify|intros _; apply always_ret].
Qed.
Lemma merge_always i m v : always config_inv (upd_cfg (merge_reg i m v)).
Proof. by apply always_modify. Qed.

Lemma aligned_offset offset : 0x40 <= offset < 256 -> 0x40 <= Z.land offset (unot u64_max 0x3) < 256.
Proof.
  intros Ho. replace (Z.land offset (unot u64_max 0x3)) with (Z.shiftl (Z.shiftr offset 2) 2).
  - rewrite Z.shiftl_mul_pow2, Z.shiftr_div_pow2 by lia. Z.div_mod_to_equations. lia.
  - rewrite <- Z.ldiff_ones_r by lia. zbits i. rewrite Z.ldiff_spec. change 0x3 with (2 ^ 2 - 1).
    rewrite testbit_max by lia. rewrite Z.testbit_ones_nonneg by lia.
    destruct (Z.ltb_spec i 64); [by destruct (Z.testbit offset i), (Z.ltb_spec i 2)|].
    rewrite (testbit_high offset 8) by lia. done.
Qed.

Lemma write_u32_always offset v : 0x40 <= offset < 256 -> always config_inv (write_u32 offset v).
Proof.
  intros Ho s Hs. unfold write_u32, cfg. rewrite run_gets. cbn [id].
  assert (16 <= Z.shiftr offset 2 < 64) as Hr by (rewrite Z.shiftr_div_pow2 by lia; change (2 ^ 2) with 4; Z.div_mod_to_equations; lia).
  rewrite (at_index_ok _ _ 0) by (destruct Hs as (_ & _ & ->); lia). set (mask := nth _ _ _).
  rewrite (run_ok_bind (expect (Some mask)) _ s mask s eq_refl).
  destruct (_ || _); [by exists (Ok false), s|].
  rewrite !(proj2 (Z.eqb_neq (Z.shiftr offset 2) _)) by lia. cbn [orb]. rewrite (proj2 (Z.ltb_ge _ 16)) by lia.
  rewrite andb_false_r. cbn [andb].
  apply (always_bind config_inv (cap_write_u32 offset v)); [apply cap_write_always| |done].
  intros []; [apply always_ret|]. apply always_bind; [apply merge_always|intros _; apply always_ret].
Qed.

Lemma write_config_always offset data : 0x40 <= offset < 256 -> always config_inv (write_config offset data).
Proof.
  intros Ho. assert (always config_inv (write_u16 (C:=C) offset (le_read data))) as H16.
  { unfold write_u16. case_match; [apply always_ret|]. apply always_bind; [apply cap_write_always|intros []; [apply always_ret|]].
    apply always_bind; [apply always_gets|intros c]. apply write_u32_always. by apply aligned_offset. }
  assert (always config_inv (write_u8 (C:=C) offset (nth 0 data 0))) as H8.
  { unfold write_u8. case_match; [apply always_ret|]. apply always_bind; [apply cap_write_always|intros []; [apply always_ret|]].
    apply always_bind; [apply always_gets|intros c]. apply write_u32_always. by apply aligned_offset. }
  unfold write_config. repeat case_match; try apply always_ret; (apply always_bind; [|intros _; apply always_ret]); auto.
  by apply write_u32_always.
Qed.
End config.

(** ** The device *)

Section device.
Context {G V Q K : Type} `{InterruptSourceGroup G K} `{Vm K} `{QueueT Q K} `{VirtioDevice V G Q K} (n : Z) (nq : nat).
#[local] Abbreviation Dev := (VirtioPciDevice G V Q).
#[local] Abbreviation St := (Dev * K)%type.

Record pci_inv (s : St) : Prop := {
  pi_dim : pci_dim n (vp_intr_mgr s.1);
  pi_table : Z.of_nat (length (table_entries (vp_msix_state s.1))) = n;
  pi_common : common_inv nq (vp_common_config s.1, vp_queues s.1, vp_device s.1);
  pi_base : exists b, config_bar_addr s.1 = Ret b /\ b + NOTIFICATION_BAR_OFFSET + 4 * Z.of_nat nq <= u64_max;
  pi_config : length (writable_bits (vp_configuration s.1)) = 64%nat;
  pi_cap : vp_msix_cap_reg_idx s.1 = 0x21;
}.

Lemma vp_sys_always {A} (f : K -> result errno A * K) : always pci_inv (vp_sys f).
Proof. intros [d k] Hs. unfold vp_sys. cbn. destruct (f k) as [r k']. exists r, (d, k'). split; [done|]. by destruct Hs. Qed.
Lemma vp_on_device_always {E A} (f : V -> K -> result E A * V * K) : always pci_inv (vp_on_device f).
Proof.
  intros [d k] Hs. unfold vp_on_device. cbn. destruct (f _ _) as [[r v] k']. eexists _, _. split; [done|]. destruct Hs. by split.
Qed.
Lemma vp_intr_always {A} (m : eff (DeviceInterruptManager G * K) errno A) :
  always (fun t => pci_dim n t.1) m -> always pci_inv (vp_intr m).
Proof.
  intros Hm. apply always_zoom. intros [d k] Hs. destruct (Hm (vp_intr_mgr d, k)) as (r & t & E & Ht); [apply Hs|].
  exists r, t. split; [done|]. destruct Hs. by split.
Qed.
Lemma vp_msix_exact {A} bad (m : eff (MsixState * (DeviceInterruptManager G * K)) errno A) :
  exact (msix_inv n) bad m ->
  exact pci_inv (fun s => bad (vp_msix_state s.1, (vp_intr_mgr s.1, s.2))) (vp_msix m).
Proof.
  intros Hm [d k] Hs. specialize (Hm (vp_msix_state d, (vp_intr_mgr d, k))). unfold vp_msix, zoom. cbn in *.
  destruct (bad _); [rewrite Hm; [done|by split; apply Hs]|].
  destruct Hm as (r & t & E & Ht); [by split; apply Hs|]. rewrite E. eexists _, _. split; [done|].
  destruct Ht, Hs. by split.
Qed.
Lemma exact_ignore {E E' A} bad (m : eff St E A) : exact pci_inv bad m -> exact pci_inv bad (vp_ignore (E':=E') m).
Proof.
  intros Hm s Hs. specialize (Hm s Hs). unfold vp_ignore. destruct (bad s).
  - apply run_panic_bind. unfold attempt. by rewrite Hm.
  - destruct Hm as (r & s' & E1 & Hs'). exists (Ok tt), s'. split; [|done].
    by rewrite (run_ok_bind _ _ _ _ _ (run_attempt _ _ _ _ E1)).
Qed.

Lemma notify_addr_ok b i : b + NOTIFICATION_BAR_OFFSET + 4 * Z.of_nat nq <= u64_max -> (i < nq)%nat ->
  notify_addr b i = Ret (b + NOTIFICATION_BAR_OFFSET + Z.of_nat i * NOTIFY_OFF_MULTIPLIER).
Proof. intros Hb Hi. unfold notify_addr. rewrite uadd_Ret by lia. cbn. by rewrite uadd_Ret by lia. Qed.

(** A loop over the queues with their notification addresses. *)
Lemma queue_loop_always {E} (s : St) b (f : Z -> VirtioQueueConfig G Q -> eff St E unit) :
  pci_inv s -> b + NOTIFICATION_BAR_OFFSET + 4 * Z.of_nat nq <= u64_max -> (forall a q, always pci_inv (f a q)) ->
  always pci_inv (for_each (fun '(i, q) => addr ← lift_outcome (notify_addr b i); f addr q) (imap pair (vp_queues s.1))).
Proof.
  intros Hs Hb Hf. apply always_for_each. intros [i q] Hin%imap_pair_lookup%lookup_lt_Some.
  destruct (pi_common s Hs) as (_ & Hq & _). cbn in Hq. rewrite notify_addr_ok by lia.
  apply always_bind; [|intros a; apply Hf]. intros t Ht. by eexists _, _.
Qed.

Lemma register_always : always pci_inv vp_register_ioevent.
Proof.
  intros s Hs. unfold vp_register_ioevent, vp. rewrite run_gets. destruct (pi_base s Hs) as (b & Eb & Hb). cbn [id]. rewrite Eb.
  rewrite (run_ok_bind (lift_outcome (Ret b)) _ s b s eq_refl). apply always_bind; [| |done].
  - apply queue_loop_always; [done..|]. intros. apply vp_sys_always.
  - intros _. apply always_modify. intros t []. by split.
Qed.

Lemma unregister_always {E} : always pci_inv (vp_unregister_ioevent (E:=E)).
Proof.
  intros s Hs. unfold vp_unregister_ioevent, vp. rewrite run_gets. destruct (pi_base s Hs) as (b & Eb & Hb). cbn [id].
  destruct (vp_ioevent_registered s.1); [|by exists (Ok tt), s]. rewrite Eb.
  rewrite (run_ok_bind (lift_outcome (Ret b)) _ s b s eq_refl). apply always_bind; [| |done].
  - apply queue_loop_always; [done..|]. intros. unfold vp_ignore. apply always_bind; [apply always_attempt, vp_sys_always|].
    intros. apply always_ret.
  - intros _. apply always_modify. intros t []. by split.
Qed.

Lemma vp_enable_always : always pci_inv (vp_intr (enable (G:=G) (K:=K))).
Proof. apply vp_intr_always. intros t Ht. destruct (pci_enable n t Ht) as (r & t' & E & Ht' & _). eauto. Qed.
Lemma vp_get_group_always : always pci_inv (vp_intr (get_group (G:=G) (K:=K))).
Proof. apply vp_intr_always. intros t Ht. destruct (pci_get_group n t Ht) as (o & E & _). eauto. Qed.

Lemma activate_always : always pci_inv vp_activate.
Proof.
  unfold vp_activate, vp, vp_upd. apply always_bind; [apply always_gets|intros s].
  case_match; [apply always_ret|]. case_match; [apply always_throw|].
  apply always_bind; [apply always_map_err, register_always|intros _].
  apply always_bind; [apply always_map_err, vp_enable_always|intros _].
  apply always_bind; [apply always_gets|intros d]. apply always_bind; [apply always_map_err, vp_get_group_always|intros [g|]];
    [|apply always_throw]. destruct (if vp_has_ctrl_queue d then _ else _) as [qs ctrl].
  apply always_bind; [apply vp_on_device_always|intros _]. apply always_modify. intros t []. by split.
Qed.

Lemma upd_cc_always {E} f :
  (forall c, cc_msix_queues (f c) = cc_msix_queues c) -> (forall c, 0 <= cc_queue_select c -> 0 <= cc_queue_select (f c)) ->
  always pci_inv (vp_upd_cc (E:=E) f).
Proof.
  intros Hm Hs. apply always_modify. intros [d k] [? ? (Hc1 & Hc2 & Hc3) ? ? ?]. split; try done.
  cbn in *. split_and!; cbn; [by rewrite Hm|done|by apply Hs].
Qed.

Lemma try_activate_always {E} : always pci_inv (try_activate (E:=E)).
Proof.
  unfold try_activate, vp. apply always_bind; [apply always_gets|intros d]. case_match; [|apply always_ret].
  apply always_bind; [apply always_attempt, activate_always|intros []]; [apply always_ret|by apply upd_cc_always].
Qed.

Lemma try_reset_always {E} : always pci_inv (try_reset (E:=E)).
Proof.
  unfold try_reset, vp, vp_upd. apply always_bind; [apply always_gets|intros d]. case_match; [|apply always_ret].
  apply always_bind; [apply always_attempt, vp_on_device_always|intros []]; [|by apply upd_cc_always].
  apply always_bind; [apply always_modify; intros t []; by split|intros _].
  apply always_bind; [|intros _; apply always_bind; [apply unregister_always|intros _; by apply upd_cc_always]].
  apply always_modify. intros t [? ? (Hc1 & Hc2 & Hc3) ? ? ?]. split; try done. split_and!; cbn in *; try done. by rewrite length_map.
Qed.

(** ** The accesses of the guest *)

Inductive PciAccess := ReadAccess (offset : Z) (data : list Z) | WriteAccess (offset : Z) (data : list Z)
| ConfigAccess (offset : Z) (data : list Z).

Definition run_access (a : PciAccess) : eff (St * option PciBusContent) False unit :=
  match a with
  | ReadAccess offset data => zoom fst (fun s t => (s, t.2)) (_ ← read_bar offset data; mret tt)
  | WriteAccess offset data => zoom fst (fun s t => (s, t.2)) (write_bar offset data)
  | ConfigAccess offset data => vp_write_config offset data
  end.

(** The accesses to the BAR, and those to the configuration space beyond its
    header: a write to the header can move the BAR. *)
Definition guest_access (a : PciAccess) : Prop :=
  match a with
  | ReadAccess offset data | WriteAccess offset data => 0 <= offset /\ Forall (fun b => 0 <= b < 256) data
  | ConfigAccess offset data => 0x40 <= offset < 256 /\ Forall (fun b => 0 <= b < 256) data
  end.

(** The accesses that panic. *)
Definition bad_access (a : PciAccess) (d : Dev) : bool :=
  let ms := vp_msix_state d in
  let vectors := Z.of_nat (length (table_entries ms)) in
  match a with
  | ReadAccess offset data =>
      if offset <? COMMON_CONFIG_SIZE then bad_common offset data (vp_common_config d)
      else if in_region MSIX_TABLE_BAR_OFFSET MSIX_TABLE_SIZE offset then
        bad_table_read vectors (offset - MSIX_TABLE_BAR_OFFSET) data
      else if in_region MSIX_PBA_BAR_OFFSET MSIX_PBA_SIZE offset then bad_pba_read data ms (vp_intr_mgr d)
      else false
  | WriteAccess offset data =>
      if offset <? COMMON_CONFIG_SIZE then bad_common offset data (vp_common_config d)
      else if in_region MSIX_TABLE_BAR_OFFSET MSIX_TABLE_SIZE offset then
        bad_table_write vectors (offset - MSIX_TABLE_BAR_OFFSET) data ms (vp_intr_mgr d)
      else false
  | ConfigAccess offset data =>
      if (offset =? 0x86) && Nat.eqb (length data) 2 then bad_control (le_read data) ms (vp_intr_mgr d)
      else if (offset =? 0x84) && Nat.eqb (length data) 4 then
        bad_control (as_u16 (Z.shiftr (le_read data) 16)) ms (vp_intr_mgr d)
      else false
  end.

Lemma read_table_exact ms offset data :
  0 <= offset ->
  if bad_table_read (Z.of_nat (length (table_entries ms))) offset data then read_table ms offset data = Panic
  else exists data', read_table ms offset data = Ret data'.
Proof.
  intros Ho. unfold read_table, bad_table_read. pose proof (Z.div_pos offset 16 Ho ltac:(lia)).
  destruct (Z.leb_spec (Z.of_nat (length data)) 8); cbn [negb orb]; [|done].
  destruct (offset mod 16 + Z.of_nat (length data) <=? 16); cbn [andb]; [|by eexists].
  destruct (Z.leb_spec (Z.of_nat (length (table_entries ms))) (offset / 16)).
  - unfold at_index. destruct (Z.ltb_spec (offset / 16) (Z.of_nat (length (table_entries ms)))); [lia|done].
  - rewrite (at_index_ok _ _ MsixTableEntry_default) by lia. by eexists.
Qed.

Lemma in_region_inv start size x : in_region start size x = true -> start <= x < start + size.
Proof. unfold in_region. intros [?%Z.leb_le ?%Z.ltb_lt]%andb_true_iff. done. Qed.

Lemma read_bar_exact {E} offset data :
  0 <= offset -> exact pci_inv (fun s => bad_access (ReadAccess offset data) s.1) (read_bar (E:=E) offset data).
Proof.
  intros Ho s Hs. unfold read_bar, vp, bad_access. rewrite run_gets. cbn [id]. rewrite Z.add_0_l, Z.sub_0_r.
  destruct (Z.ltb_spec offset 56).
  { pose proof (cc_read_exact nq _ _ _ offset data (pi_common s Hs)) as Hc. unfold lift_outcome.
    destruct (bad_common _ _ _); [by rewrite Hc|]. destruct Hc as [data' ->]. eauto. }
  destruct (in_region 0x2000 _ _) eqn:E1.
  { apply in_region_inv in E1. rewrite !region_out by lia. destruct data; eexists _, _; (split; [done|]); [done|].
    destruct Hs. by split. }
  destruct (in_region 0x4000 _ _) eqn:E2.
  { apply in_region_inv in E2. rewrite !region_out by lia. destruct (dev_read_config _ _ _) as [data' v].
    eexists _, _. split; [done|]. destruct Hs. by split. }
  destruct (in_region 0x6000 _ _) eqn:E3.
  { apply in_region_inv in E3. rewrite !region_out by lia. by eexists _, _. }
  destruct (in_region 0x8000 _ _) eqn:E4.
  { apply in_region_inv in E4. pose proof (read_table_exact (vp_msix_state s.1) (offset - 0x8000) data ltac:(lia)) as Ht.
    unfold lift_outcome. destruct (bad_table_read _ _ _); [by rewrite Ht|]. destruct Ht as [data' ->]. eauto. }
  destruct (in_region 0x48000 _ _) eqn:E5; [|by eexists _, _]. apply in_region_inv in E5.
  pose proof (vp_msix_exact _ _ (read_pba_exact n (offset - 0x48000) data ltac:(lia)) s Hs) as Hp. cbn [fst snd] in Hp.
  destruct (bad_pba_read _ _ _); [apply run_panic_bind; unfold attempt; by rewrite Hp|].
  destruct Hp as (r & s' & Er & Hs'). rewrite (run_ok_bind _ _ _ _ _ (run_attempt _ _ _ _ Er)). by eexists _, _.
Qed.

Lemma write_region_exact {E} offset data :
  0 <= offset -> Forall (fun b => 0 <= b < 256) data ->
  exact pci_inv (fun s => bad_access (WriteAccess offset data) s.1) (write_region (E:=E) offset data).
Proof.
  intros Ho Hd s Hs. unfold write_region, vp, bad_access. rewrite run_gets. cbn [id]. rewrite Z.add_0_l, Z.sub_0_r.
  destruct (Z.ltb_spec offset 56).
  { pose proof (cc_write_exact nq offset data Hd _ (pi_common s Hs)) as Hc. cbn [fst] in Hc.
    destruct (bad_common _ _ _); [by rewrite Hc|]. destruct Hc as (r & [[c qs] v] & -> & Hc). eexists _, _. split; [done|].
    destruct Hs. by split. }
  destruct (in_region 0x2000 _ _) eqn:E1.
  { apply in_region_inv in E1. rewrite !region_out by lia. destruct data; eexists _, _; (split; [done|]); [done|].
    destruct Hs. by split. }
  destruct (in_region 0x4000 _ _) eqn:E2.
  { apply in_region_inv in E2. rewrite !region_out by lia. eexists _, _. split; [done|]. destruct Hs. by split. }
  destruct (in_region 0x6000 _ _) eqn:E3.
  { apply in_region_inv in E3. rewrite !region_out by lia. by eexists _, _. }
  destruct (in_region 0x8000 _ _) eqn:E4; [|by eexists _, _]. apply in_region_inv in E4.
  rewrite (pi_table s Hs).
  exact (exact_ignore _ _ (vp_msix_exact _ _ (write_table_exact n (offset - 0x8000) data ltac:(lia))) s Hs).
Qed.

Lemma write_bar_exact {E} offset data :
  0 <= offset -> Forall (fun b => 0 <= b < 256) data ->
  exact pci_inv (fun s => bad_access (WriteAccess offset data) s.1) (write_bar (E:=E) offset data).
Proof.
  intros Ho Hd s Hs. pose proof (write_region_exact (E:=E) offset data Ho Hd s Hs) as Hr. cbv beta in Hr. unfold write_bar.
  destruct (bad_access _ _); [by apply run_panic_bind|]. destruct Hr as (r & s1 & E1 & Hs1).
  destruct r as [[]|e]; [rewrite (run_ok_bind _ _ _ _ _ E1)|rewrite (run_err_bind _ _ _ _ _ E1); eauto].
  apply always_bind; [apply try_activate_always|intros _; apply try_reset_always|done].
Qed.

Lemma control_exact {E} offset data :
  0x40 <= offset < 256 ->
  exact pci_inv (fun s => bad_access (ConfigAccess offset data) s.1) (msix_control_write (E:=E) offset data).
Proof.
  intros Ho s Hs. unfold msix_control_write, vp, bad_access. rewrite run_gets. cbn [id]. rewrite (pi_cap s Hs).
  change (0x21 =? 0) with false. cbn iota. pose proof (Z.div_mod offset 4) as Hdm. pose proof (Z.mod_pos_bound offset 4) as Hmb.
  rewrite (Z.shiftr_div_pow2 offset 2) by lia. change 0x3 with (Z.ones 2). rewrite (Z.land_ones offset 2) by lia.
  change (2 ^ 2) with 4. assert ((offset =? 0x86) = (0x21 =? offset / 4) && (offset mod 4 =? 2)) as ->.
  { destruct (Z.eqb_spec offset 0x86), (Z.eqb_spec 0x21 (offset / 4)), (Z.eqb_spec (offset mod 4) 2); try done; lia. }
  assert ((offset =? 0x84) = (0x21 =? offset / 4) && (offset mod 4 =? 0)) as ->.
  { destruct (Z.eqb_spec offset 0x84), (Z.eqb_spec 0x21 (offset / 4)), (Z.eqb_spec (offset mod 4) 0); try done; lia. }
  destruct (0x21 =? offset / 4); cbn [andb]; [|by exists (Ok tt), s].
  destruct ((offset mod 4 =? 2) && _); [exact (exact_ignore _ _ (vp_msix_exact _ _ (set_msg_ctl_exact n _)) s Hs)|].
  destruct ((offset mod 4 =? 0) && _); [exact (exact_ignore _ _ (vp_msix_exact _ _ (set_msg_ctl_exact n _)) s Hs)|].
  by exists (Ok tt), s.
Qed.

(** One access, with the bus of the device. *)
Lemma run_access_exact a :
  guest_access a -> exact (fun t => pci_inv t.1) (fun t => bad_access a t.1.1) (run_access a).
Proof.
  intros Ha [s bus] Hs. cbn [fst snd] in *. destruct a as [offset data|offset data|offset data]; destruct Ha as [Ho Hd]; cbn [run_access].
  - pose proof (read_bar_exact (E:=False) offset data Ho s Hs) as Hr. cbv beta in Hr. unfold zoom. cbn [fst snd].
    destruct (bad_access _ _); [by rewrite (run_panic_bind _ _ _ Hr)|]. destruct Hr as ([l|e] & s' & E1 & Hs'); [|done].
    rewrite (run_ok_bind _ _ _ _ _ E1). by eexists _, _.
  - pose proof (write_bar_exact (E:=False) offset data Ho Hd s Hs) as Hr. cbv beta in Hr. unfold zoom. cbn [fst snd].
    destruct (bad_access _ _); [by rewrite Hr|]. destruct Hr as (r & s' & -> & Hs'). by eexists _, _.
  - pose proof (control_exact (E:=False) offset data Ho s Hs) as Hr. cbv beta in Hr. unfold vp_write_config.
    destruct (bad_access _ _); [apply run_panic_bind; unfold zoom; cbn [fst]; by rewrite Hr|].
    destruct Hr as ([[]|e] & s' & E1 & Hs'); [|done].
    rewrite (run_ok_bind _ _ _ tt (s', bus)) by (unfold zoom; cbn [fst snd]; by rewrite E1).
    destruct (write_config_always (header_type (vp_configuration s'.1)) (bars (vp_configuration s'.1)) offset data Ho
      (vp_configuration s'.1, bus)) as (r & [c' bus'] & E2 & Hh & Hb & Hw); [split_and!; try done; apply Hs'|].
    rewrite (run_ok_bind _ _ _ r ((vput_configuration c' s'.1, s'.2), bus')).
    2:{ apply run_attempt. unfold vp_config_space, zoom. cbn [fst snd]. by rewrite E2. }
    eexists _, _. split; [done|]. cbn [fst] in *. destruct Hs' as [? ? ? (b & Eb & Hle) ? ?]. split; try done.
    exists b. split; [|done]. rewrite <- Eb. unfold config_bar_addr, get_device_bar_addr, bar_type, bar_addr, bar. cbn. by rewrite Hh, Hb.
Qed.

Lemma run_accesses_inv l t r t' :
  Forall guest_access l -> pci_inv t.1 -> for_each run_access l t = Ret (r, t') -> pci_inv t'.1.
Proof.
  intros Hl. revert t. induction Hl as [|a l Ha _ IH]; intros t Ht; cbn [for_each]; [by intros [= _ <-]|].
  pose proof (run_access_exact a Ha t Ht) as Hx. cbv beta in Hx. intros Hrun.
  destruct (bad_access a t.1.1); [by rewrite (run_panic_bind _ _ _ Hx) in Hrun|].
  destruct Hx as ([[]|e] & t1 & E1 & Ht1); [|done]. rewrite (run_ok_bind _ _ _ _ _ E1) in Hrun. by eapply IH.
Qed.
End device.

(** ** The device after its construction *)

(** What an interrupt manager promises of a group that it makes. *)
Class GroupLaws (G K : Type) `{InterruptSourceGroup G K} :=
  created_len ty base count k g k' : create_group ty base count k = (Ok g, k') -> group_len g = count.

Section initial.
Context {G V Q K : Type} `{InterruptSourceGroup G K} `{Vm K} `{QueueT Q K} `{VirtioDevice V G Q K} {GL : GroupLaws G K}.
#[local] Abbreviation Dev := (VirtioPciDevice G V Q).
#[local] Abbreviation St := (Dev * K)%type.

Lemma add_group_idx m ty base count (t t' : DeviceInterruptManager G * K) u m' :
  add_group m ty base count t = Ret (Ok u, t') -> m' <> m -> idx_of t'.1 m' = idx_of t.1 m'.
Proof.
  intros [(e & _ & [=])|(g & t1 & Hc & Hu)]%bind_inv Hne. destruct t as [d k]. unfold sys_call in Hc. cbn in Hc.
  destruct (create_group _ _ _ k) as [r k1]. injection Hc as -> <-. injection Hu as _ <-. cbn [fst].
  unfold idx_of. cbn. rewrite nth_insert_ne by (intros E; by apply Hne, mode_index_inj).
  destruct ty; [done|]. unfold resize_msi_config_space. by case_match.
Qed.

Lemma add_group_idx_maybe m (o : option (Z * Z)) (t t' : DeviceInterruptManager G * K) u m' :
  (match o with Some (base, size) => add_group m MsiIrqSource base size | None => mret tt end) t = Ret (Ok u, t') ->
  m' <> m -> idx_of t'.1 m' = idx_of t.1 m'.
Proof. destruct o as [[base size]|]; [apply add_group_idx|]. by intros [= _ <-]. Qed.

Lemma add_group_len m base count (t t' : DeviceInterruptManager G * K) u :
  length (mode2idx t.1) = 5%nat -> add_group m MsiIrqSource base count t = Ret (Ok u, t') ->
  exists g, group_at t'.1 m g /\ group_len g = count /\ count <= Z.of_nat (length (msi_config t'.1)).
Proof.
  intros H5 [(e & _ & [=])|(g & t1 & Hc & Hu)]%bind_inv. destruct t as [d k]. unfold sys_call in Hc. cbn in Hc.
  destruct (create_group _ _ _ k) as [r k1] eqn:Ec. injection Hc as -> <-. apply created_len in Ec as El. injection Hu as _ <-.
  exists g. split; [|split; [done|]]; cbn.
  - pose proof (mode_index_lt m). unfold group_at, idx_of. cbn. unfold resize_msi_config_space. rewrite nth_insert_eq.
    + case_match; apply at_index_last.
    + case_match; cbn in *; lia.
  - rewrite <- El. apply (resize_grows (group_len g) d).
Qed.

Lemma DIM_new_pci resource k base size im k' :
  get_legacy_irq resource = None -> get_pci_msix_irqs resource = Some (base, size) ->
  DIM_new resource (DIM_empty, k) = Ret (Ok tt, (im, k')) -> pci_dim size im /\ dim_mode im = Disabled.
Proof.
  intros Hleg Hirq. unfold DIM_new. rewrite Hleg, Hirq.
  assert (Hf0 : fine 0 (DIM_empty (G:=G))) by (split_and!; done).
  intros [(e & _ & [=])|(u1 & [d1 k1] & [= <- <- <-] & Hb)]%bind_inv.
  apply bind_inv in Hb as [(e & _ & [=])|(u2 & [d2 k2] & H2' & Hb)].
  destruct (add_group_maybe 0 GenericMsiIrq MsiIrqSource _ (DIM_empty, k) _ _ ltac:(done) ltac:(lia) Hf0 H2') as (Hf2 & _ & _).
  pose proof (add_group_idx_maybe _ _ _ _ _ LegacyIrqMode H2' ltac:(done)) as I2.
  apply bind_inv in Hb as [(e & _ & [=])|(u3 & [d3 k3] & H3' & Hb)].
  destruct (add_group_maybe 1 PciMsiIrq MsiIrqSource _ _ _ _ ltac:(done) ltac:(lia) Hf2 H3') as (Hf3 & _ & _).
  pose proof (add_group_idx_maybe _ _ _ _ _ LegacyIrqMode H3' ltac:(done)) as I3.
  pose proof (add_group_idx _ _ _ _ _ _ _ LegacyIrqMode Hb ltac:(done)) as I4.
  destruct (add_group_has 2 PciMsixIrq MsiIrqSource _ _ _ _ _ ltac:(done) ltac:(lia) Hf3 Hb) as ((_ & Hm & Ha & _) & _).
  destruct (add_group_len _ _ _ _ _ _ (proj1 Hf3) Hb) as (g & Hg & Hn & Hl). cbn [fst] in *.
  split; [|done]. split; [by exists g|done| |by left|congruence|congruence].
  by rewrite I4, I3, I2.
Qed.

Lemma set_msix_mode n (d d' : DeviceInterruptManager G) (k k' : K) :
  pci_dim n d -> set_working_mode PciMsixIrq (d, k) = Ret (Ok tt, (d', k')) -> pci_dim n d'.
Proof.
  intros Hd E. destruct (pci_working_mode n PciMsixIrq (or_intror eq_refl) (d, k) Hd) as (r & t & E' & Ht).
  rewrite E in E'. by injection E' as <- <-.
Qed.

(** The address of the BAR of the structures. *)
Definition base_ok (c : PciConfiguration VirtioCapability) : Prop :=
  exists b, get_device_bar_addr c 0 = Ret b /\ b + CAPABILITY_BAR_SIZE - 1 <= u64_max.
Definition low_bars (s : St) := (header_type (vp_configuration s.1), bar (vp_configuration s.1) 0, bar (vp_configuration s.1) 1).

Lemma land_mem_mask x : 0 <= x < 2 ^ 32 -> Z.land x BAR_MEM_ADDR_MASK <= x.
Proof.
  intros Hx. replace (Z.land x BAR_MEM_ADDR_MASK) with (Z.ldiff x (Z.ones 4)).
  - rewrite Z.ldiff_ones_r by lia. rewrite Z.shiftl_mul_pow2, Z.shiftr_div_pow2 by lia. Z.div_mod_to_equations. lia.
  - zbits i. rewrite Z.ldiff_spec, Z.testbit_ones_nonneg by lia. change BAR_MEM_ADDR_MASK with (2 ^ 32 - 2 ^ 4).
    rewrite testbit_pow2_mask by lia. destruct (Z.ltb_spec i 32).
    + by destruct (Z.testbit x i), (Z.ltb_spec i 4), (Z.leb_spec 4 i); try lia.
    + by rewrite (testbit_high x 32) by lia.
Qed.

Lemma common_bar_base r c :
  cfg_ok c -> (exists k, bar_fits r k c) -> c_bar_idx r = 0 -> (c_bar_type r = Memory32BitRegion \/ c_bar_type r = Memory64BitRegion) ->
  in_u64 (c_addr r) -> c_addr r + CAPABILITY_BAR_SIZE - 1 <= u64_max -> base_ok (with_bar r c).
Proof.
  intros Hok [k Hf] Hi Ht Ha Hle. pose proof (ok_sized c Hok) as Hsz.
  assert (b_addr (lower_state r) = Z.land (as_u32 (c_addr r)) BAR_MEM_ADDR_MASK) as Elow.
  { unfold lower_state, bar_value, bar_flags. cbn [b_addr]. destruct Ht as [-> | ->]; cbn [fst snd];
      rewrite Z.land_lor_distr_l, land_idem; destruct (c_prefetchable r); by rewrite Z.lor_0_r. }
  pose proof (as_u32_u32 (c_addr r)) as Hu. pose proof (land_mem_mask (as_u32 (c_addr r)) ltac:(ulia)) as Hm.
  assert (as_u32 (c_addr r) <= c_addr r) by (apply Z.mod_le; ulia).
  unfold base_ok, get_device_bar_addr, with_bar, with_upper, bar_type, bar_addr.
  rewrite Hi. destruct Ht as [Et|Et]; rewrite Et.
  - rewrite place_bar by (auto; lia). rewrite bool_decide_false by (cbn; rewrite (ok_header _ Hok); auto). cbn. rewrite Et.
    eexists. split; [done|]. change (Z.land (bar_value r) (bar_flags r).1) with (b_addr (lower_state r)). rewrite Elow. lia.
  - assert (sized (place (0 + 1) (as_u32 (Z.shiftr (c_addr r) 32)) 0xffffffff (upper_state r) c)) as Hsz' by (by apply place_sized).
    rewrite !place_bar by (auto; lia). rewrite bool_decide_false by (cbn; rewrite (ok_header _ Hok); auto). cbn. rewrite Et.
    eexists. split; [done|]. change (Z.land (bar_value r) (bar_flags r).1) with (b_addr (lower_state r)).
    rewrite Elow, Z.lor_comm, lor_shiftl_add by (try lia; pose proof (Z.land_nonneg (as_u32 (c_addr r)) BAR_MEM_ADDR_MASK); ulia).
    pose proof (halves (c_addr r) Ha). change (0 + 1) with 1. cbn [Z.eqb Pos.eqb b_addr upper_state]. lia.
Qed.

(** The rest of the set up leaves that BAR alone. *)
Lemma low_bars_base s s' : same low_bars s s' -> base_ok (vp_configuration s.1) -> base_ok (vp_configuration s'.1).
Proof.
  unfold same, low_bars. intros [= Eh E0 E1] (b & Eb & Hb). exists b. split; [|done]. rewrite <- Eb.
  unfold get_device_bar_addr, bar_type, bar_addr. change (0 + 1) with 1. by rewrite Eh, E0, E1.
Qed.

Lemma add_cap_low cap : keeps (same low_bars) (vp_add_cap cap).
Proof.
  apply keeps_map_err, keeps_zoom. intros s r c'. revert r c'.
  change (wp (add_capability cap) (fun _ c' => same low_bars s (vput_configuration c' s.1, s.2)) (vp_configuration s.1)).
  unfold add_capability. wp_if; [by wp_steps|]. wp_steps. destruct (checked_add _ _ _); [|by wp_steps].
  wp_if; by wp_steps.
Qed.
Lemma vp_upd_low {E} f : (forall d, vp_configuration (f d) = vp_configuration d) -> keeps (same low_bars) (vp_upd (E:=E) f).
Proof. intros Hf. apply same_modify. intros s. unfold low_bars. cbn. by rewrite Hf. Qed.
Lemma lift_low {E A} (o : outcome A) : keeps (same low_bars) (lift_outcome (E:=E) o).
Proof. intros s r s'. unfold lift_outcome. destruct o; [|done]. by intros [= _ <-]. Qed.
Lemma lift_ret_low {E A B} (o : outcome A) a (k : A -> eff St E B) :
  o = Ret a -> keeps (same low_bars) (k a) -> keeps (same low_bars) (lift_outcome o ≫= k).
Proof. intros -> Hk s r s' Hs. by apply (Hk s r s'). Qed.
Lemma on_device_low {E A} (f : V -> K -> result E A * V * K) : keeps (same low_bars) (vp_on_device f).
Proof. intros s r s'. unfold vp_on_device. destruct (f _ _) as [[? ?] ?]. by intros [= _ <-]. Qed.
#[local] Hint Resolve add_cap_low lift_low on_device_low : eff.
#[local] Hint Extern 2 (keeps (same low_bars) (vp_upd _)) => (apply vp_upd_low; reflexivity) : eff.

Lemma add_caps_low bar : keeps (same low_bars) (add_pci_capabilities bar).
Proof. unfold add_pci_capabilities, vp. eff_walk. Qed.
Lemma add_shm_low l : keeps (same low_bars) (add_shm_capabilities l).
Proof. unfold add_shm_capabilities. eff_walk. Qed.
#[local] Hint Resolve add_caps_low add_shm_low : eff.

Lemma bar_insert (c : PciConfiguration VirtioCapability) i b j : 0 <= i -> 0 <= j -> i <> j -> bar (set_bar i b c) j = bar c j.
Proof. intros Hi Hj Hne. unfold bar, set_bar. cbn [bars]. rewrite !nth_lookup, list_lookup_insert_ne; [done|]. lia. Qed.

Lemma shm_bar_low r : c_bar_idx r = 2 -> keeps (same low_bars) (vp_config (add_device_bar r)).
Proof.
  intros Hr. apply keeps_zoom. intros s res c'. revert res c'.
  change (wp (add_device_bar r) (fun _ c' => same low_bars s (vput_configuration c' s.1, s.2)) (vp_configuration s.1)).
  unfold add_device_bar. wp_steps. do 4 (wp_if; [by wp_steps|]). destruct (checked_add _ _ _) as [ea|]; [|by wp_steps]. wp_steps.
  eapply wp_mono with (P := fun _ c' => (header_type c', bar c' 0, bar c' 1) = low_bars s).
  - unfold check_bar_type. rewrite Hr. destruct (c_bar_type r); repeat (wp_if; [by wp_steps|]); try by wp_steps.
    wp_steps. wp_if; [by wp_steps|]. wp_steps. by rewrite !bar_insert by lia.
  - intros [[]|e] c1 H1c; [|exact H1c]. destruct (bar_flags r) as [mask flags]. wp_steps. rewrite Hr.
    unfold same, low_bars. cbn [fst vp_configuration vput_configuration]. by rewrite !bar_insert by lia.
Qed.

Lemma alloc_bars_base (s : St) base size :
  cfg_ok (vp_configuration s.1) -> vp_setting_bar_res s.1 = MmioAddressRange base size ->
  0 <= base -> base + CAPABILITY_BAR_SIZE - 1 <= u64_max ->
  wp alloc_bars (fun r s' => r = Ok tt -> base_ok (vp_configuration s'.1)) s.
Proof.
  intros Hok Er Hb Hle. unfold alloc_bars, vp. wp_steps. rewrite Er. wp_steps.
  apply wp_lift. intros b1 [= <-]. wp_steps. apply wp_lift. intros b2 Eb2. wp_steps. apply wp_map_err, wp_zoom.
  assert (bar_request b2 /\ c_bar_idx b2 = 0 /\ c_addr b2 = base /\
    (c_bar_type b2 = Memory32BitRegion \/ c_bar_type b2 = Memory64BitRegion)) as (Hr2 & Hi & Ha & Ht).
  { destruct (vp_use_64bit_bar s.1); injection Eb2 as <-; split_and!; try done; cbn; auto; repeat split; cbn; ulia. }
  eapply wp_mono; [by apply add_device_bar_spec|]. intros [i|e] c1; [|done]. intros [-> Hf].
  set (s1 := (vput_configuration (with_bar b2 (vp_configuration s.1)) s.1, s.2)).
  assert (base_ok (vp_configuration s1.1)) as Hb1 by (apply common_bar_base; rewrite ?Ha; auto; ulia).
  match goal with |- wp ?m _ _ => eapply (wp_mono m (fun _ s' => same low_bars s1 s')) end.
  - apply wp_keeps. apply same_bind; [auto with eff|intros _]. apply same_bind; [auto with eff|intros res].
    apply same_bind; [auto with eff|intros o].
    apply same_bind; [|intros _; auto with eff]. destruct o as [l|]; [|auto with eff].
    eapply lift_ret_low; [reflexivity|]. apply same_bind; [apply keeps_map_err; by apply shm_bar_low|intros _]. eff_walk.
  - intros r s' Hlow _. by eapply low_bars_base.
Qed.

Lemma initial_set_up resource dev_id (v : V) wide base size irq_base vectors k d0 k0 (d : Dev) k1 :
  get_pci_msix_irqs resource = Some (irq_base, vectors) -> 0 < vectors <= u16_max ->
  0 <= base -> base + CAPABILITY_BAR_SIZE - 1 <= u64_max ->
  (forall res v k l v' k', dev_set_resource (Q:=Q) (G:=G) res v k = (Ok (Some l), v', k') -> shm_sane l) ->
  vp_new resource dev_id v wide (MmioAddressRange base size) k = Ret (Ok d0, k0) ->
  alloc_bars (d0, k0) = Ret (Ok tt, (d, k1)) ->
  fresh vectors resource (MmioAddressRange base size) d0 /\ set_up d0 d.
Proof.
  intros Hirq Hv Hb Hle Hsane Hnew Halloc. apply vp_new_fresh in Hnew as (b & n & Hirq' & Hf & _).
  rewrite Hirq in Hirq'. injection Hirq' as <- <-. rewrite as_u16_id in Hf by ulia. split; [done|].
  pose proof Hf as [Hc Hnum Hmax Ht Hs Hbar _ _ _].
  apply (alloc_bars_spec (d0, k0)) in Halloc; [by apply Halloc|done|cbn; lia|done| |done].
  intros ? ?. cbn. rewrite Hbar. intros [= <- <-]. ulia.
Qed.

Lemma initial_inactive resource dev_id (v : V) wide base size irq_base vectors k d0 k0 (d : Dev) k1 :
  get_pci_msix_irqs resource = Some (irq_base, vectors) -> 0 < vectors <= u16_max ->
  0 <= base -> base + CAPABILITY_BAR_SIZE - 1 <= u64_max ->
  (forall res v k l v' k', dev_set_resource (Q:=Q) (G:=G) res v k = (Ok (Some l), v', k') -> shm_sane l) ->
  vp_new resource dev_id v wide (MmioAddressRange base size) k = Ret (Ok d0, k0) ->
  alloc_bars (d0, k0) = Ret (Ok tt, (d, k1)) ->
  vp_device_activated d = false.
Proof.
  intros Hirq Hv Hb Hle Hsane Hnew Halloc.
  destruct (initial_set_up _ _ _ _ _ _ _ _ _ _ _ _ _ Hirq Hv Hb Hle Hsane Hnew Halloc) as [Hf [_ Hrt _ _ _]].
  destruct (fr_inactive _ _ _ _ Hf) as [Ha _]. unfold runtime in Hrt. injection Hrt. congruence.
Qed.

Lemma initial_inv resource dev_id (v : V) wide base size irq_base vectors k d0 k0 (d : Dev) k1 :
  get_legacy_irq resource = None -> get_pci_msix_irqs resource = Some (irq_base, vectors) -> 0 < vectors <= u16_max ->
  0 <= base -> base + CAPABILITY_BAR_SIZE - 1 <= u64_max -> (length (queue_max_sizes (Q:=Q) (G:=G) (K:=K) v) < 1024)%nat ->
  (forall res v k l v' k', dev_set_resource (Q:=Q) (G:=G) res v k = (Ok (Some l), v', k') -> shm_sane l) ->
  vp_new resource dev_id v wide (MmioAddressRange base size) k = Ret (Ok d0, k0) ->
  alloc_bars (d0, k0) = Ret (Ok tt, (d, k1)) ->
  pci_inv vectors (length (vp_queues d0)) (d, k1).
Proof.
  intros Hleg Hirq Hv Hb Hle Hq Hsane Hnew Halloc.
  destruct (initial_set_up _ _ _ _ _ _ _ _ _ _ _ _ _ Hirq Hv Hb Hle Hsane Hnew Halloc) as [Hf [Hcaps Hrt Hsb Hmx _]].
  apply vp_new_fresh in Hnew as (_ & _ & _ & _ & Hql).
  pose proof Hf as [Hc Hnum Hmax Ht Hs Hbar Hcc (k2 & im & k3 & k4 & Enew & Emode) _].
  assert (base_ok (vp_configuration d)) as (ba & Eba & Hba).
  { apply (alloc_bars_base (d0, k0) base size) in Halloc; [by apply Halloc|apply built_ok, Hc|done..]. }
  unfold runtime in Hrt. injection Hrt as Eq Ecc _ _ _ Ems Eim En _.
  destruct (DIM_new_pci _ _ _ _ _ _ Hleg Hirq Enew) as [Hdim _].
  split; cbn [fst].
  - rewrite Eim. by eapply set_msix_mode.
  - rewrite Ems, Ht. cbn. rewrite repeat_length. lia.
  - rewrite Ecc, Eq, Hcc. split_and!; cbn; [by rewrite repeat_length|done|lia].
  - exists ba. unfold config_bar_addr. rewrite Hsb. split; [done|]. lia.
  - apply built_ok, Hcaps.
  - apply Hmx. lia.
Qed.

(** C5: In every state that a device reaches from its construction through
    accesses of the guest to its BAR and to its configuration space beyond the
    header, an access panics exactly when [bad_access] says so.  These are accesses
    of more than eight bytes to the common configuration, the MSI-X table or the
    pending bits; an access of two bytes to the vector of a queue that does not
    exist; an access to the table beyond its last entry and a write that crosses
    two entries; and accesses that need the interrupt group while MSI-X is on and
    the group is not, which a failed disable leaves behind.  All other accesses
    return. *)
Theorem pci_panics_exactly resource dev_id (v : V) wide base size irq_base vectors k d0 k0 (d : Dev) k1 bus accesses r t a :
  get_legacy_irq resource = None -> get_pci_msix_irqs resource = Some (irq_base, vectors) -> 0 < vectors <= u16_max ->
  0 <= base -> base + CAPABILITY_BAR_SIZE - 1 <= u64_max -> (length (queue_max_sizes (Q:=Q) (G:=G) (K:=K) v) < 1024)%nat ->
  (forall res v k l v' k', dev_set_resource (Q:=Q) (G:=G) res v k = (Ok (Some l), v', k') -> shm_sane l) ->
  vp_new resource dev_id v wide (MmioAddressRange base size) k = Ret (Ok d0, k0) ->
  alloc_bars (d0, k0) = Ret (Ok tt, (d, k1)) ->
  Forall guest_access accesses -> for_each run_access accesses ((d, k1), bus) = Ret (r, t) -> guest_access a ->
  run_access a t = Panic <-> bad_access a t.1.1 = true.
Proof.
  intros Hleg Hirq Hv Hb Hle Hq Hsane Hnew Halloc Hall Hrun Ha.
  pose proof (initial_inv _ _ _ _ _ _ _ _ _ _ _ _ _ Hleg Hirq Hv Hb Hle Hq Hsane Hnew Halloc) as Hinv.
  apply (run_accesses_inv _ _ _ ((d, k1), bus) _ _ Hall Hinv) in Hrun. pose proof (run_access_exact _ _ a Ha t Hrun) as Hx. cbv beta in Hx.
  destruct (bad_access a t.1.1); [done|]. destruct Hx as (r' & t' & -> & _). done.
Qed.
End initial.
