(* ===== verification/VirtioPciIoevents.v ===== *)
(** * The virtio PCI transport: ioevents

    The activation binds the event file of every queue to its notification
    address in KVM, and the reset takes the bindings out again.  This file
    follows the bindings through every sequence of accesses of the guest. *)
From S2P Require Import Prelude Bits IntervalTree DeviceResources Effects InterruptManager MmioData MmioTransport MmioTotal PciBus PciConfig PciConfigFacts PciConfigBuild PciBars PciMsi PciCommonConfig VirtioPci VirtioPciProps VirtioPciTotal.

(** What KVM documents of ioevents: a registration that succeeds adds one, a
    registration at an address and match that is taken fails, a failure changes
    nothing, and the removal takes out what it names. *)
Class IoeventLaws (K : Type) `{Vm K} := {
  kvm_ioevents : K -> list (eventfd * Z * DataMatch);
  ioevent_added fd a m k u k' :
    register_ioevent fd a m k = (Ok u, k') -> kvm_ioevents k' = (fd, a, m) :: kvm_ioevents k;
  ioevent_refused fd a m k e k' : register_ioevent fd a m k = (Err e, k') -> kvm_ioevents k' = kvm_ioevents k;
  ioevent_taken fd fd' a m k u k' :
    register_ioevent fd a m k = (Ok u, k') -> (fd', a, m) ∉ kvm_ioevents k;
  ioevent_removed fd a m k r k' :
    unregister_ioevent fd a m k = (r, k') -> kvm_ioevents k' = filter (fun e => e <> (fd, a, m)) (kvm_ioevents k);
}.

(** The interrupts and the virtio device have no part in the ioevents of the
    transport. *)
Class IoeventFrame (G V Q K : Type) `{IoeventLaws K} `{InterruptSourceGroup G K} `{VirtioDevice V G Q K} := {
  frame_enable (g : G) c k : kvm_ioevents (group_enable g c k).2 = kvm_ioevents k;
  frame_disable (g : G) k : kvm_ioevents (group_disable g k).2 = kvm_ioevents k;
  frame_update (g : G) i c k : kvm_ioevents (group_update g i c k).2 = kvm_ioevents k;
  frame_mask (g : G) i k : kvm_ioevents (group_mask g i k).2 = kvm_ioevents k;
  frame_unmask (g : G) i k : kvm_ioevents (group_unmask g i k).2 = kvm_ioevents k;
  frame_pending (g : G) i k : kvm_ioevents (group_pending g i k).2 = kvm_ioevents k;
  frame_activate (config : VirtioDeviceConfig G Q) (v : V) k : kvm_ioevents (dev_activate config v k).2 = kvm_ioevents k;
  frame_reset (v : V) k : kvm_ioevents (dev_reset (G:=G) (Q:=Q) v k).2 = kvm_ioevents k;
}.

Section ioevents.
Context {G V Q K : Type} `{HG : InterruptSourceGroup G K} `{HV : Vm K} `{HL : !IoeventLaws K} `{HQ : QueueT Q K}
  `{HD : VirtioDevice V G Q K} {HF : IoeventFrame G V Q K}.
#[local] Abbreviation Dev := (VirtioPciDevice G V Q).
#[local] Abbreviation St := (Dev * K)%type.

(** *** Interrupts *)

#[local] Abbreviation dview := (fun t : DeviceInterruptManager G * K => kvm_ioevents t.2).

Lemma sys_call_view {A} (f : K -> result errno A * K) :
  (forall k, kvm_ioevents (f k).2 = kvm_ioevents k) -> keeps (same dview) (sys_call (G:=G) f).
Proof.
  intros Hf [d k] r t'. unfold sys_call. cbn. pose proof (Hf k) as Hk. destruct (f k) as [r' k']. by intros [= _ <-].
Qed.
Lemma upd_view f : keeps (same dview) (upd (G:=G) (K:=K) f).
Proof. by apply same_modify. Qed.
Lemma dim_view {A} (f : DeviceInterruptManager G -> A) : keeps (same dview) (dim (K:=K) f).
Proof. apply same_gets. Qed.
#[local] Hint Resolve upd_view dim_view : eff.
#[local] Hint Extern 2 (keeps (same dview) (sys_call _)) =>
  (apply sys_call_view; intros; first [apply frame_enable | apply frame_disable | apply frame_update | apply frame_mask | apply frame_unmask]) : eff.

Lemma set_working_mode_view m : keeps (same dview) (set_working_mode (G:=G) (K:=K) m).
Proof. unfold set_working_mode. eff_walk. Qed.
#[local] Hint Resolve set_working_mode_view : eff.
Lemma enable_view : keeps (same dview) (enable (G:=G) (K:=K)).
Proof. unfold enable. eff_walk. Qed.
Lemma reset_dim_view : keeps (same dview) (reset_dim (G:=G) (K:=K)).
Proof. unfold reset_dim. eff_walk. Qed.
Lemma get_group_view : keeps (same dview) (get_group (G:=G) (K:=K)).
Proof. unfold get_group. eff_walk. Qed.
Lemma update_view i : keeps (same dview) (update (G:=G) (K:=K) i).
Proof. unfold update. eff_walk. Qed.
Lemma update_msi_view i f : keeps (same dview) (update_msi (G:=G) (K:=K) i f).
Proof. unfold update_msi. eff_walk. Qed.
#[local] Hint Resolve enable_view reset_dim_view get_group_view update_view update_msi_view : eff.
Lemma set_message_view i e : keeps (same dview) (set_message (G:=G) (K:=K) i e).
Proof. unfold set_message, set_msi_high_address, set_msi_low_address, set_msi_data. eff_walk. Qed.
#[local] Hint Resolve set_message_view : eff.
Lemma mask_if_view p (f : G -> Z -> K -> result errno unit * K) g l :
  (forall i k, kvm_ioevents (f g i k).2 = kvm_ioevents k) -> keeps (same dview) (mask_if p f g l).
Proof. intros Hf. unfold mask_if. eff_walk. apply sys_call_view. intros. apply Hf. Qed.
#[local] Hint Extern 2 (keeps (same dview) (mask_if _ _ _ _)) =>
  (apply mask_if_view; intros; first [apply frame_mask | apply frame_unmask]) : eff.

#[local] Abbreviation mview := (fun t : MsixState * (DeviceInterruptManager G * K) => kvm_ioevents t.2.2).

Lemma mgr_view {A} (m : eff (DeviceInterruptManager G * K) errno A) : keeps (same dview) m -> keeps (same mview) (mgr m).
Proof. intros Hm. apply keeps_zoom. intros s r t E. by apply (Hm s.2 r t). Qed.
Lemma msix_modify_view f : (forall t, (f t).2 = t.2) -> keeps (same mview) (modify (E:=errno) f).
Proof. intros Hf. apply same_modify. intros t. by rewrite Hf. Qed.
Lemma lift_mview {A} (o : outcome A) : keeps (same mview) (lift_outcome (E:=errno) o).
Proof. intros s r s'. unfold lift_outcome. destruct o; [|done]. by intros [= _ <-]. Qed.
#[local] Hint Resolve mgr_view lift_mview : eff.
#[local] Hint Extern 2 (keeps (same mview) (modify _)) => (apply msix_modify_view; reflexivity) : eff.
#[local] Hint Extern 3 (keeps (same mview) (mgr _)) => (apply mgr_view; eff_walk) : eff.

Lemma set_msg_ctl_view reg : keeps (same mview) (set_msg_ctl (G:=G) (K:=K) reg).
Proof. unfold set_msg_ctl. eff_walk. Qed.
Lemma write_table_view offset data : keeps (same mview) (write_table (G:=G) (K:=K) offset data).
Proof. unfold write_table. eff_walk. Qed.
Lemma pba_loop_view entries (g : G) offset idx n data : keeps (same dview) (pba_loop entries g offset idx n data).
Proof.
  revert idx data. induction n as [|n IH]; intros idx data; cbn [pba_loop]; eff_walk. apply sys_call_view. intros k.
  pose proof (frame_pending g idx k) as Hp. by destruct (group_pending g idx k).
Qed.
#[local] Hint Resolve pba_loop_view : eff.
Lemma read_pba_view offset data : keeps (same mview) (read_pba (G:=G) (K:=K) offset data).
Proof. unfold read_pba. eff_walk. Qed.

(** *** Accesses that touch no ioevent *)

Definition io_view (s : St) :=
  (map q_eventfd (vp_queues s.1), config_bar_addr s.1, vp_device_activated s.1, vp_ioevent_registered s.1, kvm_ioevents s.2).

Lemma vp_msix_view {A} (m : eff (MsixState * (DeviceInterruptManager G * K)) errno A) :
  keeps (same mview) m -> keeps (same io_view) (vp_msix m).
Proof.
  intros Hm. apply keeps_zoom. intros s r t E. apply Hm in E. unfold same, io_view in *. cbn in *. by rewrite E.
Qed.
Lemma vp_intr_view {A} (m : eff (DeviceInterruptManager G * K) errno A) : keeps (same dview) m -> keeps (same io_view) (vp_intr m).
Proof.
  intros Hm. apply keeps_zoom. intros s r t E. apply Hm in E. unfold same, io_view in *. cbn in *. by rewrite E.
Qed.
Lemma vp_on_device_view {E A} (f : V -> K -> result E A * V * K) :
  (forall v k, kvm_ioevents (f v k).2 = kvm_ioevents k) -> keeps (same io_view) (vp_on_device f).
Proof.
  intros Hf s r s'. unfold vp_on_device. pose proof (Hf (vp_device s.1) s.2) as Hk. destruct (f _ _) as [[r' v] k'].
  intros [= _ <-]. unfold same, io_view. cbn in *. by rewrite Hk.
Qed.
Lemma vp_upd_view {E} f : (forall d k, io_view (f d, k) = io_view (d, k)) -> keeps (same io_view) (vp_upd (E:=E) f).
Proof. intros Hf. apply same_modify. intros [d k]. apply Hf. Qed.
Lemma lift_view {E A} (o : outcome A) : keeps (same io_view) (lift_outcome (E:=E) o).
Proof. intros s r s'. unfold lift_outcome. destruct o; [|done]. by intros [= _ <-]. Qed.
Lemma vp_ignore_view {E E' A} (m : eff St E A) : keeps (same io_view) m -> keeps (same io_view) (vp_ignore (E':=E') m).
Proof. intros Hm. unfold vp_ignore. eff_walk. Qed.
#[local] Hint Resolve vp_msix_view vp_intr_view lift_view vp_ignore_view set_msg_ctl_view write_table_view read_pba_view : eff.
#[local] Hint Extern 2 (keeps (same io_view) (vp_upd _)) => (apply vp_upd_view; reflexivity) : eff.

Lemma upd_cc_view {E} f : keeps (same io_view) (vp_upd_cc (E:=E) f).
Proof. apply vp_upd_view. done. Qed.
#[local] Hint Resolve upd_cc_view : eff.

Lemma read_bar_view {E} offset data : keeps (same io_view) (read_bar (E:=E) offset data).
Proof. unfold read_bar, vp. eff_walk. Qed.

Lemma insert_fds (qs : list (VirtioQueueConfig G Q)) i q q' :
  at_index qs i = Some q -> q_eventfd q' = q_eventfd q -> map q_eventfd (<[Z.to_nat i := q']> qs) = map q_eventfd qs.
Proof.
  unfold at_index. case_match; [|done]. intros Hi Hf. rewrite (list_fmap_insert q_eventfd). apply list_insert_id.
  rewrite Hf. by rewrite list_lookup_fmap, Hi.
Qed.

(** The writes to the common configuration keep the event files. *)
#[local] Abbreviation cview := (fun t : VirtioPciCommonConfig * list (VirtioQueueConfig G Q) * V => map q_eventfd t.1.2).
Lemma cc_queue_view f : keeps (same cview) (cc_with_queue_mut f).
Proof.
  apply same_modify. intros [[c qs] v]. cbn. destruct (at_index qs (cc_queue_select c)) eqn:E; [|done]. by eapply insert_fds.
Qed.
Lemma cc_upd_view f : keeps (same cview) (cc_upd f).
Proof. apply same_modify. by intros [[c qs] v]. Qed.
#[local] Hint Resolve cc_queue_view cc_upd_view : eff.
Lemma cc_write_view offset data : keeps (same cview) (cc_write (K:=K) offset data).
Proof.
  unfold cc_write, write_common_config_byte, write_common_config_word, write_common_config_dword, write_common_config_qword.
  eff_walk. apply same_modify. by intros [[c qs] v].
Qed.

Lemma write_region_view {E} offset data : keeps (same io_view) (write_region (E:=E) offset data).
Proof.
  intros s. change (wp (write_region (E:=E) offset data) (fun _ => same io_view s) s). unfold write_region, vp, vp_upd. wp_steps.
  change (id s.1) with s.1. wp_if.
  - destruct (cc_write _ _ _) as [[r [[c qs] v]]|] eqn:Ec; wp_steps. apply cc_write_view in Ec. unfold same, io_view in *.
    cbn in *. by rewrite Ec.
  - apply wp_keeps. eff_walk; by apply same_modify.
Qed.

Lemma control_view {E} offset data : keeps (same io_view) (msix_control_write (E:=E) offset data).
Proof. unfold msix_control_write, vp. eff_walk. Qed.

(** ** The ioevents of the queues *)

Definition event (b : Z) (i : nat) (fd : eventfd) : eventfd * Z * DataMatch :=
  (fd, b + NOTIFICATION_BAR_OFFSET + Z.of_nat i * NOTIFY_OFF_MULTIPLIER, NoDatamatch).
Definition events (b : Z) (fds : list eventfd) : list (eventfd * Z * DataMatch) := imap (event b) fds.

Lemma queue_events b (qs : list (VirtioQueueConfig G Q)) :
  map (fun '(i, q) => event b i (q_eventfd q)) (imap pair qs) = events b (map q_eventfd qs).
Proof.
  apply list_eq. intros i. unfold events. rewrite list_lookup_imap, !list_lookup_fmap, list_lookup_imap. by destruct (qs !! i).
Qed.

Lemma notify_addr_inv b i a : notify_addr b i = Ret a -> a = b + NOTIFICATION_BAR_OFFSET + Z.of_nat i * NOTIFY_OFF_MULTIPLIER.
Proof. unfold notify_addr. intros (nb & E1 & E2)%outcome_bind_Ret. unfold uadd in *. repeat case_match; congruence. Qed.

#[local] Abbreviation qevent b := (fun '(i, q) => event b i (q_eventfd (q : VirtioQueueConfig G Q))).

Lemma register_loop b l (s : St) :
  wp (for_each (fun '(i, q) => addr ← lift_outcome (notify_addr b i);
                               vp_sys (register_ioevent (q_eventfd q) addr NoDatamatch)) l)
    (fun r s' => s'.1 = s.1 /\
       match r with
       | Ok _ => kvm_ioevents s'.2 = rev (map (qevent b) l) ++ kvm_ioevents s.2 /\
                 forall i q fd, (i, q) ∈ l -> event b i fd ∉ kvm_ioevents s.2
       | Err _ => exists l1 l2, l = l1 ++ l2 /\ kvm_ioevents s'.2 = rev (map (qevent b) l1) ++ kvm_ioevents s.2
       end) s.
Proof.
  revert s. induction l as [|[i q] l IH]; intros s; cbn [for_each map rev].
  { wp_steps. split; [done|]. split; [done|]. by intros i q fd ?%elem_of_nil. }
  wp_steps. apply wp_lift. intros a ->%notify_addr_inv. intros r s1 Hr. unfold vp_sys in Hr.
  destruct (register_ioevent _ _ _ s.2) as [[u|e] k'] eqn:Er; injection Hr as <- <-.
  - pose proof (ioevent_added _ _ _ _ _ _ Er) as Ea. eapply wp_mono; [apply IH|]. cbn [fst snd]. rewrite Ea.
    intros [u'|e] s2 [Es Hl]; (split; [done|]).
    + destruct Hl as [El Hn]. split; [rewrite <- app_assoc; exact El|]. intros j q' fd [[= -> ->]|He]%elem_of_cons.
      * eapply (ioevent_taken _ _ _ _ _ _ _ Er).
      * apply (Hn _ _ fd) in He. set_solver.
    + destruct Hl as (l1 & l2 & -> & El). exists ((i, q) :: l1), l2. split; [done|]. cbn. rewrite <- app_assoc. exact El.
  - apply ioevent_refused in Er. split; [done|]. exists [], ((i, q) :: l). split; [done|]. exact Er.
Qed.

Lemma filter_all {A} (P : A -> Prop) `{!forall x, Decision (P x)} l : Forall P l -> filter P l = l.
Proof. induction 1 as [|x l Hx _ IH]; [done|]. by rewrite filter_cons_True, IH. Qed.
Lemma filter_none {A} (P : A -> Prop) `{!forall x, Decision (P x)} l : Forall (fun x => ~ P x) l -> filter P l = [].
Proof. induction 1 as [|x l Hx _ IH]; [done|]. by rewrite filter_cons_False. Qed.

Lemma unregister_loop {E} b l (s : St) :
  wp (for_each (fun '(i, q) => addr ← lift_outcome (notify_addr b i);
                               vp_ignore (E':=E) (vp_sys (unregister_ioevent (q_eventfd q) addr NoDatamatch))) l)
    (fun r s' => r = Ok tt /\ s'.1 = s.1 /\
                 kvm_ioevents s'.2 = filter (fun e => e ∉ map (qevent b) l) (kvm_ioevents s.2)) s.
Proof.
  revert s. induction l as [|[i q] l IH]; intros s; cbn [for_each map].
  { wp_steps. split; [done|]. split; [done|]. symmetry. apply filter_all, Forall_forall. intros ? _. apply not_elem_of_nil. }
  unfold vp_ignore in *. wp_steps. apply wp_lift. intros a ->%notify_addr_inv. wp_steps.
  intros r s1 Hr. unfold vp_sys in Hr. destruct (unregister_ioevent _ _ _ s.2) as [r' k'] eqn:Er. injection Hr as <- <-. wp_steps.
  pose proof (ioevent_removed _ _ _ _ _ _ Er) as Ea.
  eapply wp_mono; [apply IH|]. cbn [fst snd]. rewrite Ea. intros r2 s2 (-> & Es & El). split; [done|]. split; [done|].
  rewrite El, list_filter_filter. apply list_filter_iff. intros e. rewrite not_elem_of_cons. tauto.
Qed.

(** ** The invariant *)

Section invariant.
Context (fds : list eventfd) (b : Z) (init : list (eventfd * Z * DataMatch)).

(** Active, with the ioevents of the queues on top of those that were there. *)
Definition bound (s : St) : Prop :=
  vp_device_activated s.1 = true /\ vp_ioevent_registered s.1 = true /\
  kvm_ioevents s.2 = rev (events b fds) ++ init /\ (forall e, e ∈ events b fds -> e ∉ init).
Definition unbound (s : St) : Prop := vp_device_activated s.1 = false /\ kvm_ioevents s.2 = init.
(** Inactive, with the notification address of the first queue taken. *)
Definition stuck (s : St) : Prop :=
  vp_device_activated s.1 = false /\ fds <> [] /\ exists fd, event b 0 fd ∈ kvm_ioevents s.2.

Record io_inv (s : St) : Prop := {
  io_fds : map q_eventfd (vp_queues s.1) = fds;
  io_base : config_bar_addr s.1 = Ret b;
  io_case : bound s \/ unbound s \/ stuck s;
}.

Lemma io_inv_view s s' : same io_view s s' -> io_inv s -> io_inv s'.
Proof.
  unfold same, io_view. intros [= E1 E2 E3 E4 E5] [H1 H2 H3]. split; [congruence..|].
  unfold bound, unbound, stuck in *. by rewrite E3, E4, E5.
Qed.
Lemma stuck_view s s' : same io_view s s' -> io_inv s -> stuck s -> io_inv s' /\ stuck s'.
Proof.
  intros Hv Hi Hs. split; [by eapply io_inv_view|]. unfold same, io_view in Hv. injection Hv as E1 E2 E3 E4 E5.
  unfold stuck in *. by rewrite E3, E5.
Qed.

(** The registration of all queues. *)
Lemma register_io s :
  io_inv s -> vp_device_activated s.1 = false ->
  wp vp_register_ioevent (fun r s' =>
    map q_eventfd (vp_queues s'.1) = fds /\ config_bar_addr s'.1 = Ret b /\ vp_device_activated s'.1 = false /\
    (stuck s -> (exists e, r = Err e) /\ stuck s') /\
    (unbound s -> match r with
       | Ok _ => vp_ioevent_registered s'.1 = true /\ kvm_ioevents s'.2 = rev (events b fds) ++ init /\
                 (forall e, e ∈ events b fds -> e ∉ init)
       | Err _ => unbound s' \/ stuck s'
       end)) s.
Proof.
  intros [H1 H2 H3] Ha. unfold vp_register_ioevent, vp, vp_upd. wp_steps. change (id s.1) with s.1. rewrite H2.
  apply wp_lift. intros ? [= <-]. wp_steps. eapply wp_mono; [apply register_loop|].
  intros [u|e] s1 [E1 Hl].
  - destruct Hl as [El Hn]. rewrite queue_events, H1 in El. wp_steps. cbn [fst snd]. rewrite E1. split_and!; try done.
    + intros (_ & Hne & fd & Hin). exfalso. rewrite <- H1 in Hne. destruct (vp_queues s.1) as [|q qs]; [done|].
      apply (Hn 0%nat q fd); [left|done].
    + intros [_ Ei]. rewrite Ei in *. split_and!; try done. intros e (i & q & -> & Hi)%elem_of_lookup_imap.
      rewrite <- H1, list_lookup_fmap in Hi. destruct (vp_queues s.1 !! i) as [q'|] eqn:Eq; [|done].
      apply (Hn i q'). apply elem_of_lookup_imap. eauto.
  - destruct Hl as (l1 & l2 & El & Ek). rewrite E1. split_and!; try done.
    + intros (_ & Hne & fd & Hin). split; [eauto|]. split; [by rewrite E1|]. split; [done|]. exists fd. rewrite Ek. set_solver.
    + intros [_ Ei]. destruct l1 as [|[i q] l1]; [left; split; [by rewrite E1|]; by rewrite Ek, Ei|].
      right. split; [by rewrite E1|]. destruct (vp_queues s.1) as [|q0 qs] eqn:Eq; [done|]. cbn in El. injection El as <- <- _.
      split; [by rewrite <- H1|]. exists (q_eventfd q0). rewrite Ek. cbn. set_solver.
Qed.

(** Between the registration and the activation of the device. *)
Definition registered (s : St) : Prop :=
  map q_eventfd (vp_queues s.1) = fds /\ config_bar_addr s.1 = Ret b /\ vp_device_activated s.1 = false /\
  vp_ioevent_registered s.1 = true /\ kvm_ioevents s.2 = rev (events b fds) ++ init /\
  (forall e, e ∈ events b fds -> e ∉ init).

Lemma registered_view s s' : same io_view s s' -> registered s -> registered s'.
Proof. unfold same, io_view. intros [= E1 E2 E3 E4 E5] (H1 & H2 & H3 & H4 & H5 & H6). split_and!; [congruence..|done]. Qed.

Lemma registered_inv s : registered s -> io_inv s.
Proof.
  intros (H1 & H2 & H3 & H4 & H5 & H6). split; [done..|]. right. unfold unbound, stuck.
  destruct fds as [|fd l]; [by left|right]. split; [done|]. split; [done|]. exists fd. rewrite H5. cbn. set_solver.
Qed.

Lemma start_io :
  forall s, registered s ->
  wp (_ ← map_err ActivateIOError (vp_intr enable); d ← vp id; o ← map_err ActivateIOError (vp_intr get_group);
      match o with
      | None => throw ActivateVirtioPci
      | Some group =>
          let qs := vp_queue_configs group (vp_queues d) in
          let '(qs, ctrl_queue) := if vp_has_ctrl_queue d then (removelast qs, last qs) else (qs, None) in
          let config := mkDeviceConfig (vp_device_resource d) qs ctrl_queue (MsixNotifier group None) (vp_shm_regions d) in
          _ ← vp_on_device (dev_activate config);
          vp_upd (vput_device_activated true)
      end) (fun _ => io_inv) s.
Proof.
  intros s Hs. unfold vp, vp_upd. wp_steps. apply wp_map_err. eapply wp_mono; [apply wp_keeps, vp_intr_view, enable_view|].
  intros [[]|e] s1 H1; cbn beta iota; apply (registered_view _ _ H1) in Hs; [|by apply registered_inv]. wp_steps. apply wp_map_err.
  eapply wp_mono; [apply wp_keeps, vp_intr_view, get_group_view|].
  intros [[g|]|e] s2 H2; cbn beta iota; apply (registered_view _ _ H2) in Hs; [| |by apply registered_inv]; [|wp_steps; by apply registered_inv].
  cbv zeta. destruct (if vp_has_ctrl_queue _ then _ else _) as [qs ctrl]. wp_steps.
  eapply wp_mono; [apply wp_keeps, vp_on_device_view; intros; apply frame_activate|].
  intros [[]|e] s3 H3; cbn beta iota; apply (registered_view _ _ H3) in Hs; [|by apply registered_inv]. wp_steps.
  destruct Hs as (? & ? & ? & ? & ? & ?). split; [done..|]. by left.
Qed.

Lemma activate_io s :
  io_inv s -> vp_device_activated s.1 = false ->
  wp vp_activate (fun _ s' => io_inv s' /\ (stuck s -> stuck s')) s.
Proof.
  intros Hi Ha. pose proof Hi as [H1 H2 H3]. unfold vp_activate, vp, vp_upd. wp_steps. change (id s) with s. rewrite Ha.
  wp_if; [wp_steps; done|]. apply wp_bind, wp_map_err. eapply wp_mono; [by apply register_io|].
  intros r s1 (F1 & F2 & F3 & Fs & Fu). assert (unbound s \/ stuck s) as Hcase.
  { destruct H3 as [[Hb _]|H3]; [congruence|done]. }
  destruct r as [[]|e].
  2:{ split; [|intros Hs; by apply Fs]. split; [done..|]. right. destruct Hcase as [Hu|Hs]; [by apply Fu|right; by apply Fs]. }
  assert (~ stuck s) as Hns by (intros Hs; by destruct (Fs Hs) as [[e [=]] _]).
  destruct Hcase as [Hu|Hs]; [|done]. destruct (Fu Hu) as (G1 & G2 & G3).
  eapply wp_mono; [apply start_io; by split_and!|]. intros r s' Hs'. by split.
Qed.

Lemma upd_cc_io {E} f s : io_inv s -> wp (vp_upd_cc (E:=E) f) (fun _ s' => io_inv s' /\ (stuck s -> stuck s')) s.
Proof.
  intros Hi. eapply wp_mono; [apply wp_keeps, upd_cc_view|]. intros r s' Hv. cbn beta in Hv.
  split; [by eapply io_inv_view|]. intros Hs. by eapply stuck_view.
Qed.

Lemma try_activate_io {E} s : io_inv s -> wp (try_activate (E:=E)) (fun _ s' => io_inv s' /\ (stuck s -> stuck s')) s.
Proof.
  intros Hi. unfold try_activate, vp. wp_steps. change (id s.1) with s.1. wp_if; [|by wp_steps].
  assert (vp_device_activated s.1 = false) as Ha.
  { unfold needs_activation in E0. by destruct (vp_device_activated s.1). }
  wp_steps. eapply wp_mono; [by apply activate_io|]. intros [[]|e] s1 [H1 H2]; [by wp_steps|].
  eapply wp_mono; [by apply upd_cc_io|]. intros r s2 [H3 H4]. split; [done|auto].
Qed.

(** The removal brings back what was there before. *)
Lemma bound_filter l : l = rev (events b fds) ++ init -> (forall e, e ∈ events b fds -> e ∉ init) ->
  filter (fun e => e ∉ events b fds) l = init.
Proof.
  intros -> Hn. rewrite filter_app, filter_none, filter_all; [done|..]; apply Forall_forall; intros e He.
  - intros Hin. by apply (Hn e).
  - apply elem_of_rev in He. by intros [].
Qed.

Lemma unregister_io {E} s :
  map q_eventfd (vp_queues s.1) = fds -> config_bar_addr s.1 = Ret b -> vp_ioevent_registered s.1 = true ->
  vp_device_activated s.1 = false -> kvm_ioevents s.2 = rev (events b fds) ++ init -> (forall e, e ∈ events b fds -> e ∉ init) ->
  wp (vp_unregister_ioevent (E:=E)) (fun r s' => io_inv s' /\ unbound s') s.
Proof.
  intros H1 H2 H3 H4 H5 H6. unfold vp_unregister_ioevent, vp, vp_upd. wp_steps. change (id s.1) with s.1. rewrite H3, H2.
  wp_steps. apply wp_lift. intros ? [= <-]. wp_steps. eapply wp_mono; [apply unregister_loop|].
  intros r s1 (-> & E1 & El). rewrite queue_events, H1, (bound_filter _ H5 H6) in El. wp_steps. cbn [fst snd]. rewrite E1.
  assert (unbound (vput_ioevent_registered false s.1, s1.2)) as Hu by done. split; [|done]. split; [done..|]. by right; left.
Qed.

Lemma try_reset_io {E} s : io_inv s -> wp (try_reset (E:=E)) (fun _ s' => io_inv s' /\ (stuck s -> stuck s')) s.
Proof.
  intros Hi. unfold try_reset, vp, vp_upd. wp_steps. change (id s.1) with s.1. wp_if; [|by wp_steps].
  apply andb_prop in E0 as [Ha _].
  assert (bound s) as (_ & B1 & B2 & B3) by (destruct (io_case _ Hi) as [?|[[? _]|[? _]]]; congruence).
  assert (~ stuck s) as Hns by (intros [? _]; congruence).
  wp_steps. eapply wp_mono; [apply wp_keeps, vp_on_device_view; intros; apply frame_reset|].
  intros r s1 Hv. cbn beta in Hv. destruct r as [[]|e].
  2:{ eapply wp_mono; [apply upd_cc_io; by eapply io_inv_view|]. intros r s2 [H3 _]. by split. }
  unfold same, io_view in Hv. injection Hv as E1 E2 E3 E4 E5. pose proof Hi as [H1 H2 _].
  wp_steps. eapply wp_mono; [apply unregister_io|]; cbn [fst snd]; try done.
  - rewrite <- H1, <- E1. cbn. rewrite map_map. by apply map_ext.
  - rewrite <- H2, <- E2. done.
  - by rewrite <- B1, <- E4.
  - by rewrite <- B2, <- E5.
  - intros [[]|e'] s2 [Hs2 _]; [|by split]. eapply wp_mono; [by apply upd_cc_io|]. intros r s3 [H3 _]. by split.
Qed.

(** ** The accesses of the guest *)

Lemma write_bar_io {E} offset data s :
  io_inv s -> wp (write_bar (E:=E) offset data) (fun _ s' => io_inv s' /\ (stuck s -> stuck s')) s.
Proof.
  intros Hi. unfold write_bar. apply wp_bind. eapply wp_mono; [apply wp_keeps, write_region_view|].
  intros r s1 Hv. cbn beta in Hv. assert (io_inv s1 /\ (stuck s -> stuck s1)) as [Hi1 Hs1].
  { split; [by eapply io_inv_view|]. intros Hs. by eapply stuck_view. }
  destruct r as [[]|e]; [|done]. apply wp_bind. eapply wp_mono; [by apply try_activate_io|].
  intros [[]|e] s2 [Hi2 Hs2]; [|split; [done|auto]]. eapply wp_mono; [by apply try_reset_io|].
  intros r s3 [Hi3 Hs3]. split; [done|auto].
Qed.

Context (n : Z) (nq : nat).

Lemma config_space_io {E} offset data t :
  0x40 <= offset < 256 -> length (writable_bits (vp_configuration t.1.1)) = 64%nat ->
  wp (E:=E) (attempt (vp_config_space (write_config offset data))) (fun _ t' => same io_view t.1 t'.1) t.
Proof.
  intros Ho Hw. apply wp_attempt, wp_zoom. intros r [c' bus'] E1.
  destruct (write_config_always (header_type (vp_configuration t.1.1)) (bars (vp_configuration t.1.1)) offset data Ho
    (vp_configuration t.1.1, t.2)) as (r2 & t2 & E2 & Hh & Hb & _); [done|].
  rewrite E2 in E1. injection E1 as <- ->. unfold same, io_view. cbn in *.
  unfold config_bar_addr, get_device_bar_addr, bar_type, bar_addr, bar. cbn. by rewrite Hh, Hb.
Qed.

Lemma run_access_io a t :
  guest_access a -> pci_inv n nq t.1 -> io_inv t.1 ->
  wp (run_access a) (fun _ t' => io_inv t'.1 /\ (stuck t.1 -> stuck t'.1)) t.
Proof.
  intros Ha Hp Hi. destruct a as [offset data|offset data|offset data]; cbn [run_access].
  - apply wp_zoom. cbn [fst]. apply wp_bind. eapply wp_mono; [apply wp_keeps, read_bar_view|]. intros [l|e] s1 Hv; [|done]. wp_steps.
    cbn [fst]. cbn beta in Hv. split; [by eapply io_inv_view|]. intros Hs. by eapply stuck_view.
  - apply wp_zoom. cbn [fst]. eapply wp_mono; [by apply write_bar_io|]. done.
  - unfold vp_write_config. destruct Ha as [Ho Hd]. apply wp_bind, wp_zoom. cbn [fst snd].
    intros r s1 E1. pose proof E1 as Hv%control_view. pose proof (control_exact (E:=False) _ _ offset data Ho t.1 Hp) as Hx.
    cbv beta in Hx. destruct (bad_access _ _); [congruence|]. destruct Hx as (r1 & s1' & E1' & Hp1).
    rewrite E1 in E1'. injection E1' as <- <-. destruct r as [[]|e]; [|done]. apply wp_bind.
    eapply wp_mono; [apply config_space_io; [done|apply Hp1]|]. intros r2 t2 Hv2. cbn [fst] in Hv2.
    assert (same io_view t.1 t2.1) as Hvt by (unfold same in *; congruence).
    assert (io_inv t2.1 /\ (stuck t.1 -> stuck t2.1)) as Hdone.
    { split; [by eapply io_inv_view|]. intros Hs. by eapply stuck_view. }
    destruct r2; [by wp_steps|done].
Qed.

Lemma run_accesses_io l t r t' :
  Forall guest_access l -> pci_inv n nq t.1 -> io_inv t.1 -> for_each run_access l t = Ret (r, t') ->
  io_inv t'.1 /\ (stuck t.1 -> stuck t'.1).
Proof.
  intros Hl. revert t. induction Hl as [|a l Ha _ IH]; intros t Hp Hi; cbn [for_each]; [by intros [= _ <-]|].
  intros [([] & _)|([] & t1 & E1 & E2)]%bind_inv.
  destruct (run_access_io _ _ Ha Hp Hi _ _ E1) as [Hi1 Hs1]. pose proof (run_access_exact _ _ a Ha t Hp) as Hx. cbv beta in Hx.
  destruct (bad_access _ _); [congruence|]. destruct Hx as (r1 & t1' & E1' & Hp1). rewrite E1 in E1'. injection E1' as <- <-.
  destruct (IH t1 Hp1 Hi1 E2) as [Hi2 Hs2]. split; [done|auto].
Qed.
End invariant.

End ioevents.
