(* ===== verification/VirtioPciDemo.v ===== *)
(** * A concrete virtio PCI device

    A device with two queues, three vectors and a region of shared memory, whose
    first activation fails on demand, for the witnesses of the properties of the
    virtio PCI transport. *)
From S2P Require Import Prelude DeviceResources Effects InterruptManager MmioData MmioTransport MmioDemo PciBus PciConfig PciMsi PciCommonConfig VirtioPci VirtioPciProps VirtioPciTotal VirtioPciIoevents.

Record DemoPciDevice := mkDemoPci { fail_next : bool; activations : nat }.

Definition demo_shm : VirtioSharedMemoryList := mkShmList 0x7f0000000000 0x200000000 0x10000 [mkShm 0 0x10000].

#[global] Instance demo_pci_device : VirtioDevice DemoPciDevice (InterruptSourceType * Z) DemoQueue DemoVm := {|
  device_type _ := 2;
  queue_max_sizes _ := [256; 256];
  ctrl_queue_max_sizes _ := 0;
  get_avail_features _ _ := 0;
  dev_set_acked_features _ _ v := v;
  dev_read_config _ data v := (data, v);
  dev_write_config _ _ v := v;
  dev_activate _ v k :=
    if fail_next v then (Err InternalError, mkDemoPci false (activations v), k)
    else (Ok tt, mkDemoPci false (S (activations v)), k);
  dev_reset v k := (Ok tt, v, k);
  dev_remove v k := (v, k);
  dev_set_resource _ v k := (Ok (Some demo_shm), v, k);
|}.

#[global] Instance demo_group_laws : GroupLaws (InterruptSourceType * Z) DemoVm.
Proof. intros ty base count k g k' E. cbn in E. by injection E as <- _. Qed.

#[global] Program Instance demo_ioevent_laws : IoeventLaws DemoVm := {| kvm_ioevents := ioevents |}.
Next Obligation. intros fd a m k u k' Hr. cbn in Hr. repeat case_match; by simplify_eq. Qed.
Next Obligation. intros fd a m k e k' Hr. cbn in Hr. repeat case_match; by simplify_eq. Qed.
Next Obligation.
  intros fd fd' a m k u k' Hr Hin. cbn in Hr. case_match eqn:E; [done|]. apply not_true_iff_false in E. apply E, existsb_exists.
  exists (fd', a, m). split; [by apply list_elem_of_In|]. by apply bool_decide_true.
Qed.
Next Obligation.
  intros fd a m k r k' Hr. cbn in Hr. case_match eqn:E; simplify_eq; [done|]. apply bool_decide_eq_false in E.
  symmetry. apply filter_all, Forall_forall. by intros e He ->.
Qed.

#[global] Instance demo_ioevent_frame : IoeventFrame (InterruptSourceType * Z) DemoPciDevice DemoQueue DemoVm.
Proof. split; intros; cbn; try done. by case_match. Qed.

Lemma demo_shm_sane (res : DeviceResources) (v : DemoPciDevice) (k : DemoVm) l v' k' :
  dev_set_resource (Q:=DemoQueue) (G:=InterruptSourceType * Z) res v k = (Ok (Some l), v', k') -> shm_sane l.
Proof. cbn. intros [= <- <- <-]. split_and!; cbn; try done. by repeat constructor. Qed.

Definition demo_pci_resources : DeviceResources := mkDeviceResources [MsiIrq PciMsix 24 3].

#[local] Abbreviation DemoDev := (VirtioPciDevice (InterruptSourceType * Z) DemoPciDevice DemoQueue).

Definition new_demo (v : DemoPciDevice) :=
  vp_new demo_pci_resources 1 v true (MmioAddressRange 0x140000000 0x80000) (mkDemoVm [] 0 8).

(** The device and the state of KVM that a method returns. *)
Ltac returned x :=
  let y := eval vm_compute in x in
  lazymatch y with Ret (Ok tt, ?s) => exact s | Ret (Ok ?d, ?k) => exact (d, k) end.

(** A device that works, and one whose first activation fails: as constructed,
    and with their BARs. *)
Definition demo_new0 : DemoDev * DemoVm := ltac:(returned (new_demo (mkDemoPci false 0))).
Definition demo_ready : DemoDev * DemoVm := ltac:(returned (alloc_bars demo_new0)).
Definition demo_failing0 : DemoDev * DemoVm := ltac:(returned (new_demo (mkDemoPci true 0))).
Definition demo_failing : DemoDev * DemoVm := ltac:(returned (alloc_bars demo_failing0)).

(** The driver brings the device up, resets it, and brings it up again. *)
Definition set_status (v : Z) : PciAccess := WriteAccess 0x14 [v].
Definition demo_queues : list PciAccess :=
  [WriteAccess 0x16 [0; 0]; WriteAccess 0x1c [1; 0]; WriteAccess 0x16 [1; 0]; WriteAccess 0x1c [1; 0]].
Definition demo_start : list PciAccess := [set_status 1; set_status 3; set_status 11] ++ demo_queues ++ [set_status 15].
Definition demo_restart : list PciAccess := set_status 0 :: demo_start.

Lemma demo_accesses_guest : Forall guest_access (demo_start ++ demo_restart).
Proof.
  cbn. repeat (apply Forall_cons; split; [split; [ulia|]; repeat (apply Forall_cons; split; [ulia|]); by constructor|]). by constructor.
Qed.

Lemma demo_start_guest : Forall guest_access demo_start.
Proof. pose proof demo_accesses_guest as Hg. apply Forall_app in Hg. apply Hg. Qed.

(** The state of a running device, and of one whose activation failed. *)
Definition demo_running : DemoDev * DemoVm * option PciBusContent :=
  ltac:(returned (for_each run_access demo_start (demo_ready, None))).
Definition demo_failed : DemoDev * DemoVm * option PciBusContent :=
  ltac:(returned (for_each run_access demo_start (demo_failing, None))).

Lemma demo_new0_eq : new_demo (mkDemoPci false 0) = Ret (Ok demo_new0.1, demo_new0.2).
Proof. vm_compute. reflexivity. Qed.
Lemma demo_ready_eq : alloc_bars (demo_new0.1, demo_new0.2) = Ret (Ok tt, (demo_ready.1, demo_ready.2)).
Proof. vm_compute. reflexivity. Qed.
Lemma demo_failing0_eq : new_demo (mkDemoPci true 0) = Ret (Ok demo_failing0.1, demo_failing0.2).
Proof. vm_compute. reflexivity. Qed.
Lemma demo_failing_eq : alloc_bars (demo_failing0.1, demo_failing0.2) = Ret (Ok tt, (demo_failing.1, demo_failing.2)).
Proof. vm_compute. reflexivity. Qed.
Lemma demo_running_eq : for_each run_access demo_start ((demo_ready.1, demo_ready.2), None) = Ret (Ok tt, demo_running).
Proof. vm_compute. reflexivity. Qed.
Lemma demo_failed_eq : for_each run_access demo_start ((demo_failing.1, demo_failing.2), None) = Ret (Ok tt, demo_failed).
Proof. vm_compute. reflexivity. Qed.

(** ** Witnesses *)

Lemma advertised_structures_served_witness :
  driver_structures (vp_configuration demo_ready.1) = rev (expected_structures demo_ready.1) /\
  length (expected_structures demo_ready.1) = 6%nat.
Proof.
  split; [|vm_compute; reflexivity].
  apply (advertised_structures_served demo_pci_resources 1 (mkDemoPci false 0) true 0x140000000 0x80000
    (mkDemoVm [] 0 8) demo_new0.1 demo_new0.2 demo_ready.1 demo_ready.2); [ulia|exact demo_shm_sane|exact demo_new0_eq|exact demo_ready_eq].
Defined.

(** A read beyond the MSI-X table of a running device, and one of its last entry. *)
Lemma pci_panics_exactly_witness :
  run_access (ReadAccess 0x8030 [0; 0; 0; 0]) demo_running = Panic /\
  run_access (ReadAccess 0x8020 [0; 0; 0; 0]) demo_running <> Panic.
Proof.
  assert (forall a, guest_access a -> run_access a demo_running = Panic <-> bad_access a demo_running.1.1 = true) as Hx.
  { intros a. apply (pci_panics_exactly demo_pci_resources 1 (mkDemoPci false 0) true 0x140000000 0x80000 24 3 (mkDemoVm [] 0 8)
      demo_new0.1 demo_new0.2 demo_ready.1 demo_ready.2 None demo_start (Ok tt) demo_running a);
      [reflexivity|reflexivity|ulia|ulia|ulia|cbn; lia|exact demo_shm_sane|exact demo_new0_eq|exact demo_ready_eq
      |exact demo_start_guest|exact demo_running_eq]. }
  assert (forall o, 0 <= o -> guest_access (ReadAccess o [0; 0; 0; 0])) as Hg.
  { intros o Ho. split; [done|]. repeat (apply Forall_cons; split; [lia|]). by constructor. }
  split.
  - apply Hx; [apply Hg; lia|vm_compute; reflexivity].
  - rewrite Hx; [vm_compute; discriminate|apply Hg; lia].
Defined.


(** ** A moved BAR *)

(** A bus with the addresses before and after the move. *)
Definition moving_bus : PciBusContent :=
  match assign_resources (mkDeviceResources [MmioAddressRange 0x100000000 0x200000000]) PciBusContent_new with
  | Ret (_, s) => s
  | Panic => PciBusContent_new
  end.

(** The accesses to the registers of the BAR are left out of [guest_access] for
    this reason: the guest moves the BAR of a running device and resets the device,
    and the reset looks for the ioevents at the new addresses.  The device is
    inactive, and KVM keeps the ioevents at the old addresses.  After the same move a
    device that failed can be activated. *)
Theorem bar_move_strands_ioevents :
  exists t, for_each run_access [ConfigAccess 0x14 [2; 0; 0; 0]; set_status 0] (demo_running.1, Some moving_bus) =
      Ret (Ok tt, t) /\
    vp_device_activated t.1.1 = false /\ config_bar_addr t.1.1 <> config_bar_addr demo_running.1.1 /\
    kvm_ioevents t.1.2 = kvm_ioevents demo_running.1.2 /\ length (kvm_ioevents t.1.2) = 2%nat /\
    exists t', for_each run_access (ConfigAccess 0x14 [2; 0; 0; 0] :: demo_start) (demo_failed.1, Some moving_bus) =
        Ret (Ok tt, t') /\
      vp_device_activated demo_failed.1.1 = false /\ vp_device_activated t'.1.1 = true.
Proof.
  eexists. split; [vm_compute; reflexivity|]. split_and!; [by vm_compute..|].
  eexists. split; [vm_compute; reflexivity|]. by split; vm_compute.
Qed.
