(* ===== verification/AddressSpace.v ===== *)
(** * Guest physical address space

    Model of src/dragonball/dbs_address_space: regions and how they are created
    (region.rs, memory/mod.rs), the layout (layout.rs), and the address space with
    its lookups and the insertion of regions at run time (address_space.rs).
    Additions and assertions are those of a debug build.  Memory files are a
    parameter ([MemFiles]). *)
From stdpp Require Import sorting.
From S2P Require Import Prelude Effects InterruptManager.

Abbreviation MAP_SHARED := 0x1.
Abbreviation MAP_PRIVATE := 0x2.
Abbreviation MAP_ANONYMOUS := 0x20.
Abbreviation MAP_POPULATE := 0x8000.
Abbreviation PROT_READ_WRITE := 0x3.

Inductive AddressSpaceRegionType := DefaultMemory | DeviceMemory | DAXMemory.
#[global] Instance AddressSpaceRegionType_eq_dec : EqDecision AddressSpaceRegionType.
Proof. solve_decision. Defined.

Record AddressSpaceRegion := mkRegion {
  ty : AddressSpaceRegionType;
  base : Z;
  size : Z;
  host_numa_node_id : option Z;
  file_offset : option (Z * Z);
  perm_flags : Z;
  prot_flags : Z;
  is_hugepage : bool;
  is_hotplug : bool;
  is_anon : bool;
}.

Inductive AddressSpaceError :=
| InvalidRegionType | InvalidAddressRange (base size : Z) | InvalidMemorySourceType (s : string) | CreateMemFd (e : errno)
| OpenFile (e : errno) | CreateDir (e : errno) | SetFileSize (e : errno) | UnlinkFile (e : errno).

(** ** Regions *)

Definition region_new (ty : AddressSpaceRegionType) (base size : Z) : AddressSpaceRegion :=
  mkRegion ty base size None None MAP_SHARED PROT_READ_WRITE false false false.

Definition set_host_numa_node_id (v : option Z) (r : AddressSpaceRegion) : AddressSpaceRegion :=
  mkRegion (ty r) (base r) (size r) v (file_offset r) (perm_flags r) (prot_flags r) (is_hugepage r) (is_hotplug r) (is_anon r).
Definition set_file_offset (v : option (Z * Z)) (r : AddressSpaceRegion) : AddressSpaceRegion :=
  mkRegion (ty r) (base r) (size r) (host_numa_node_id r) v (perm_flags r) (prot_flags r) (is_hugepage r) (is_hotplug r) (is_anon r).
Definition set_perm_flags (v : Z) (r : AddressSpaceRegion) : AddressSpaceRegion :=
  mkRegion (ty r) (base r) (size r) (host_numa_node_id r) (file_offset r) v (prot_flags r) (is_hugepage r) (is_hotplug r) (is_anon r).
Definition set_prot_flags (v : Z) (r : AddressSpaceRegion) : AddressSpaceRegion :=
  mkRegion (ty r) (base r) (size r) (host_numa_node_id r) (file_offset r) (perm_flags r) v (is_hugepage r) (is_hotplug r) (is_anon r).
Definition set_hugepage (r : AddressSpaceRegion) : AddressSpaceRegion :=
  mkRegion (ty r) (base r) (size r) (host_numa_node_id r) (file_offset r) (perm_flags r) (prot_flags r) true (is_hotplug r) (is_anon r).
Definition set_hotplug (r : AddressSpaceRegion) : AddressSpaceRegion :=
  mkRegion (ty r) (base r) (size r) (host_numa_node_id r) (file_offset r) (perm_flags r) (prot_flags r) (is_hugepage r) true (is_anon r).
Definition set_anonpage (r : AddressSpaceRegion) : AddressSpaceRegion :=
  mkRegion (ty r) (base r) (size r) (host_numa_node_id r) (file_offset r) (perm_flags r) (prot_flags r) (is_hugepage r) (is_hotplug r) true.

Definition region_build (ty : AddressSpaceRegionType) (base size : Z) (numa : option Z) (file : option (Z * Z)) (perm prot : Z)
    (hotplug : bool) : AddressSpaceRegion :=
  let region := region_new ty base size in
  let region := set_prot_flags prot (set_perm_flags perm (set_file_offset file (set_host_numa_node_id numa region))) in
  if hotplug then set_hotplug region else region.

(** Inclusive; [debug_assert] panics on an empty region and on overflow. *)
Definition region_last_addr (r : AddressSpaceRegion) : outcome Z :=
  if (0 <? size r) && (base r + size r <=? u64_max) then Ret (base r + size r - 1) else Panic.

Definition region_is_valid (r : AddressSpaceRegion) : bool :=
  (0 <? size r) && match checked_add u64_max (base r) (size r) with Some _ => true | None => false end.

Definition intersect_with (r other : AddressSpaceRegion) : bool :=
  match checked_add u64_max (base r) (size r), checked_add u64_max (base other) (size other) with
  | Some end1, Some end2 => negb ((end1 <=? base other) || (end2 <=? base r))
  | _, _ => true
  end.

(** ** Memory for regions *)

Inductive MemorySourceType := FileOnHugeTlbFs | MmapAnonymous | MmapAnonymousHugeTlbFs | MemFdShared | MemFdOnHugeTlbFs.

Definition source_is_hugepage (t : MemorySourceType) : bool :=
  match t with FileOnHugeTlbFs | MmapAnonymousHugeTlbFs | MemFdOnHugeTlbFs => true | _ => false end.
Definition source_is_mmap_anonymous (t : MemorySourceType) : bool :=
  match t with MmapAnonymous | MmapAnonymousHugeTlbFs => true | _ => false end.

Definition source_from_str (s : string) : option MemorySourceType :=
  if String.eqb s "hugetlbfs" then Some FileOnHugeTlbFs
  else if String.eqb s "memfd" || String.eqb s "shmem" then Some MemFdShared
  else if String.eqb s "hugememfd" || String.eqb s "hugeshmem" then Some MemFdOnHugeTlbFs
  else if String.eqb s "anon" || String.eqb s "mmap" then Some MmapAnonymous
  else if String.eqb s "hugeanon" || String.eqb s "hugemmap" then Some MmapAnonymousHugeTlbFs
  else None.

(** The files of the host: [memfd_create], [set_len] of a file, the directories
    above a path, opening, and unlinking. *)
Class MemFiles (Ho : Type) := {
  memfd_create : string -> Ho -> result errno Z * Ho;
  file_set_len : Z -> Z -> Ho -> result errno unit * Ho;
  create_parent_dirs : string -> Ho -> result errno unit * Ho;
  open_truncated : string -> Ho -> result errno Z * Ho;
  unlink_file : string -> Ho -> result errno unit * Ho;
}.

(** A call of the host. *)
Definition call {S Ho E A} (get : S -> Ho) (put : Ho -> S -> S) (err : errno -> E) (f : Ho -> result errno A * Ho) : eff S E A := fun s =>
  let '(r, h) := f (get s) in
  Ret (match r with Ok a => Ok a | Err e => Err (err e) end, put h s).

Section create.
Context {Ho : Type} `{HF : MemFiles Ho}.
#[local] Abbreviation file_eff := (eff Ho AddressSpaceError).
#[local] Abbreviation file_call err f := (call (E := AddressSpaceError) id (fun h _ => h) err f : file_eff _).

Definition create_memory_region (base size : Z) (numa : option Z) (mem_type mem_file_path : string) (mem_prealloc : bool) (prot : Z)
    (hotplug : bool) : file_eff AddressSpaceRegion :=
  let perm := if mem_prealloc then Z.lor MAP_SHARED MAP_POPULATE else MAP_SHARED in
  match source_from_str mem_type with
  | None => throw (InvalidMemorySourceType mem_type)
  | Some source =>
      reg ← match source with
            | MemFdShared | MemFdOnHugeTlbFs =>
                let name := match source with MemFdShared => "shmem" | _ => "hugeshmem" end in
                fd ← file_call CreateMemFd (memfd_create name);
                _ ← file_call SetFileSize (file_set_len fd size);
                mret (region_build DefaultMemory base size numa (Some (fd, 0)) perm prot hotplug)
            | MmapAnonymous | MmapAnonymousHugeTlbFs =>
                let perm := Z.lor MAP_PRIVATE MAP_ANONYMOUS in
                let perm := if mem_prealloc then Z.lor perm MAP_POPULATE else perm in
                mret (region_build DefaultMemory base size numa None perm prot hotplug)
            | FileOnHugeTlbFs =>
                _ ← file_call CreateDir (create_parent_dirs mem_file_path);
                fd ← file_call OpenFile (open_truncated mem_file_path);
                _ ← file_call UnlinkFile (unlink_file mem_file_path);
                _ ← file_call SetFileSize (file_set_len fd size);
                mret (region_build DefaultMemory base size numa (Some (fd, 0)) perm prot hotplug)
            end;
      let reg := if source_is_hugepage source then set_hugepage reg else reg in
      let reg := if source_is_mmap_anonymous source then set_anonpage reg else reg in
      mret reg
  end.

Definition create_default_memory_region (base size : Z) (numa : option Z) (mem_type mem_file_path : string) (mem_prealloc hotplug : bool)
    : file_eff AddressSpaceRegion :=
  create_memory_region base size numa mem_type mem_file_path mem_prealloc PROT_READ_WRITE hotplug.
End create.

Definition create_device_region (base size : Z) : AddressSpaceRegion := region_build DeviceMemory base size None None 0 0 false.

(** ** Layout *)

Record AddressSpaceLayout := mkLayout { phys_end : Z; mem_start : Z; mem_end : Z; usable_end : Z }.

(** [USABLE_END] comes from /proc/meminfo. *)
Definition layout_new (USABLE_END phys_end mem_start mem_end : Z) : AddressSpaceLayout :=
  mkLayout phys_end mem_start mem_end USABLE_END.

Definition is_region_valid (l : AddressSpaceLayout) (r : AddressSpaceRegion) : bool :=
  match checked_add u64_max (base r) (size r) with
  | None => false
  | Some region_end =>
      match ty r with
      | DefaultMemory => negb ((base r <? mem_start l) || (mem_end l <? region_end))
      | DeviceMemory | DAXMemory => negb ((base r <? mem_end l) || (phys_end l <? region_end))
      end
  end.

(** ** The address space *)

(** [sort_unstable_by_key] of the standard library leaves the order of regions
    with the same base open. *)
Class UnstableSort := sort_by_base : list AddressSpaceRegion -> list AddressSpaceRegion.
Class UnstableSortLaws `{UnstableSort} := {
  sort_perm l : sort_by_base l ≡ₚ l;
  sort_sorted l : StronglySorted (fun a b => base a <= base b) (sort_by_base l);
}.

Record AddressSpaceBase := mkBase { regions : list AddressSpaceRegion; space_layout : AddressSpaceLayout }.

(** Whether some region intersects the one before it. *)
Fixpoint neighbours_intersect (l : list AddressSpaceRegion) : bool :=
  match l with
  | a :: (b :: _) as l' => intersect_with b a || neighbours_intersect l'
  | _ => false
  end.

Section space.
Context `{HS : UnstableSort}.

Definition from_regions (l : list AddressSpaceRegion) (layout : AddressSpaceLayout) : outcome AddressSpaceBase :=
  let l := sort_by_base l in
  if negb (forallb (is_region_valid layout) l) then Panic
  else if neighbours_intersect l then Panic
  else Ret (mkBase l layout).

Definition base_insert_region (r : AddressSpaceRegion) (b : AddressSpaceBase) : result AddressSpaceError AddressSpaceBase :=
  if negb (is_region_valid (space_layout b) r) then Err (InvalidAddressRange (base r) (size r))
  else if existsb (fun q => intersect_with q r) (regions b) then Err (InvalidAddressRange (base r) (size r))
  else Ok (mkBase (regions b ++ [r]) (space_layout b)).

Definition walk_regions {S} (cb : AddressSpaceRegion -> eff S AddressSpaceError unit) (b : AddressSpaceBase) : eff S AddressSpaceError unit :=
  for_each cb (regions b).

(** The highest address in use, DAX windows apart. *)
Definition space_last_addr (b : AddressSpaceBase) : outcome Z :=
  foldl (fun acc r =>
           last_addr ← acc;
           if bool_decide (ty r = DAXMemory) then Ret last_addr else
           last ← region_last_addr r;
           Ret (if last_addr <? last then last else last_addr))
    (Ret (mem_start (space_layout b))) (regions b).

(** The first region that satisfies [p] and holds the address, the end of each
    region that is tried being computed. *)
Fixpoint find_region (p : AddressSpaceRegion -> bool) (addr : Z) (l : list AddressSpaceRegion) : outcome (option AddressSpaceRegion) :=
  match l with
  | [] => Ret None
  | r :: l' =>
      if p r && (base r <=? addr) then
        e ← uadd u64_max (base r) (size r);
        if addr <? e then Ret (Some r) else find_region p addr l'
      else find_region p addr l'
  end.

Definition is_dax_region (addr : Z) (b : AddressSpaceBase) : outcome bool :=
  o ← find_region (fun r => bool_decide (ty r = DAXMemory)) addr (regions b);
  Ret (match o with Some _ => true | None => false end).

Definition space_prot_flags (addr : Z) (b : AddressSpaceBase) : outcome (result AddressSpaceError Z) :=
  o ← find_region (fun _ => true) addr (regions b);
  Ret (match o with Some r => Ok (prot_flags r) | None => Err InvalidRegionType end).

Definition numa_node_id (gpa : Z) (b : AddressSpaceBase) : outcome (option Z) :=
  o ← find_region (fun _ => true) gpa (regions b);
  Ret (match o with Some r => host_numa_node_id r | None => None end).

(** [AddressSpace::insert_region] before it swaps the state: the new state is
    made from a copy of the one that was loaded. *)
Definition insert_prepare (r : AddressSpaceRegion) (loaded : AddressSpaceBase) : outcome (result AddressSpaceError AddressSpaceBase) :=
  b ← from_regions (regions loaded) (space_layout loaded);
  Ret (base_insert_region r b).

Definition insert_region (r : AddressSpaceRegion) (state : AddressSpaceBase) : outcome (result AddressSpaceError unit * AddressSpaceBase) :=
  res ← insert_prepare r state;
  Ret (match res with Ok b => (Ok tt, b) | Err e => (Err e, state) end).
End space.

(** ** NUMA nodes *)

Record NumaNodeInfo := mkNumaNodeInfo { info_base : Z; info_size : Z }.
Record NumaNode := mkNumaNode { region_infos : list NumaNodeInfo; vcpu_ids : list Z }.

Definition NumaNode_new : NumaNode := mkNumaNode [] [].
Definition add_info (i : NumaNodeInfo) (n : NumaNode) : NumaNode := mkNumaNode (region_infos n ++ [i]) (vcpu_ids n).
Definition add_vcpu_ids (ids : list Z) (n : NumaNode) : NumaNode := mkNumaNode (region_infos n) (vcpu_ids n ++ ids).
