(* ===== verification/AddressSpaceProps.v ===== *)
(** * The address space: facts and properties

    Regions as intervals: the pairwise test of neighbours after sorting decides
    whether non-empty regions are disjoint, and a search finds the region that
    holds an address.  The properties on lookups and insertions follow. *)
From stdpp Require Import sorting.
From S2P Require Import Prelude Effects InterruptManager AddressSpace.

Definition region_ok (r : AddressSpaceRegion) : Prop := 0 <= base r /\ 0 < size r /\ base r + size r <= u64_max.
Definition contains (r : AddressSpaceRegion) (a : Z) : Prop := base r <= a < base r + size r.
Definition apart (r q : AddressSpaceRegion) : Prop := base r + size r <= base q \/ base q + size q <= base r.
Definition all_apart (l : list AddressSpaceRegion) : Prop := ForallOrdPairs apart l.

#[global] Instance apart_sym : Symmetric apart.
Proof. intros r q [H|H]; [by right|by left]. Qed.

#[global] Instance contains_dec r a : Decision (contains r a).
Proof. unfold contains. apply _. Defined.

#[global] Instance all_apart_perm : Proper (Permutation ==> iff) all_apart.
Proof.
  assert (forall l l', l ≡ₚ l' -> all_apart l -> all_apart l') as Hp; [|intros l l' E; split; by apply Hp].
  unfold all_apart. induction 1 as [|r l l' E IH|r q l|l1 l2 l3 E1 IH1 E2 IH2]; intros Ha; [done|..].
  - inversion Ha; subst. constructor; [by rewrite <- E|by apply IH].
  - inversion Ha as [|? ? H1 H2]; subst. inversion H2 as [|? ? H3 H4]; subst. apply Forall_cons in H1 as [H1 H1'].
    constructor; [constructor; [by symmetry|done]|by constructor].
  - by apply IH2, IH1.
Qed.

Lemma all_apart_cons r l : all_apart (r :: l) <-> Forall (apart r) l /\ all_apart l.
Proof. split; [by inversion 1|]. intros [H1 H2]. by constructor. Qed.

Lemma intersect_with_eq r q : region_ok r -> region_ok q -> intersect_with r q = false <-> apart r q.
Proof.
  intros (H1 & H2 & H3) (H4 & H5 & H6). unfold intersect_with, checked_add, apart.
  destruct (Z.leb_spec (base r + size r) u64_max); [|lia]. destruct (Z.leb_spec (base q + size q) u64_max); [|lia].
  rewrite negb_false_iff, orb_true_iff, !Z.leb_le. done.
Qed.

(** Sorted by base, it is enough to look at neighbours. *)
Lemma neighbours_eq l :
  Forall region_ok l -> StronglySorted (fun a b => base a <= base b) l -> neighbours_intersect l = false <-> all_apart l.
Proof.
  induction l as [|r l IH]; intros Hok Hs; [by split; [constructor|]|]. apply Forall_cons in Hok as [Hr Hok].
  apply StronglySorted_inv in Hs as [Hs Hle]. specialize (IH Hok Hs). rewrite all_apart_cons.
  destruct l as [|q l]; [cbn; split; [by repeat constructor|done]|].
  cbn [neighbours_intersect]. rewrite orb_false_iff. apply Forall_cons in Hok as [Hq Hok]. rewrite (intersect_with_eq q r) by done.
  change (match l with [] => false | b :: _ => intersect_with b q || neighbours_intersect l end) with (neighbours_intersect (q :: l)).
  rewrite IH. apply Forall_cons in Hle as [Hrq Hle]. split.
  - intros [Ha Hall]. split; [|done]. apply Forall_cons. split; [by symmetry|].
    apply StronglySorted_inv in Hs as [_ Hs]. apply Forall_forall. intros x Hx. left.
    rewrite Forall_forall in Hs. specialize (Hs x Hx). destruct Ha as [Ha|Ha]; destruct Hr, Hq; lia.
  - intros [Hf Hall]. split; [|done]. apply Forall_cons in Hf as [Hf _]. by symmetry.
Qed.

(** ** The invariant of an address space *)

Record space_ok (b : AddressSpaceBase) : Prop := {
  sp_regions : Forall region_ok (regions b);
  sp_valid : Forall (fun r => is_region_valid (space_layout b) r = true) (regions b);
  sp_apart : all_apart (regions b);
}.

#[global] Instance region_ok_dec r : Decision (region_ok r).
Proof. unfold region_ok. apply _. Defined.

(** ** Lookups *)

Lemma find_region_spec p addr l :
  Forall region_ok l ->
  exists o, find_region p addr l = Ret o /\
    match o with
    | Some r => r ∈ l /\ p r = true /\ contains r addr
    | None => Forall (fun r => p r = true -> ~ contains r addr) l
    end.
Proof.
  induction l as [|r l IH]; intros Hok; cbn [find_region]; [by exists None|]. apply Forall_cons in Hok as [Hr Hok].
  destruct (IH Hok) as (o & E & Ho). rewrite E. unfold contains in *. destruct (p r) eqn:Ep; cbn [andb].
  - destruct (Z.leb_spec (base r) addr).
    + rewrite uadd_Ret by apply Hr. cbn [mbind outcome_bind]. destruct (Z.ltb_spec addr (base r + size r)).
      * exists (Some r). split; [done|]. split_and!; [left|done|lia|lia].
      * exists o. split; [done|]. destruct o; [destruct Ho; by split; [right|]|]. constructor; [lia|done].
    + exists o. split; [done|]. destruct o; [destruct Ho; by split; [right|]|]. constructor; [lia|done].
  - exists o. split; [done|]. destruct o; [destruct Ho; by split; [right|]|]. constructor; [by rewrite Ep|done].
Qed.

Lemma apart_unique l r q a : all_apart l -> r ∈ l -> q ∈ l -> contains r a -> contains q a -> r = q.
Proof.
  unfold contains. induction l as [|x l IH]; intros Ha Hr Hq Hra Hqa; [by apply not_elem_of_nil in Hr|].
  apply all_apart_cons in Ha as [Hx Ha]. rewrite Forall_forall in Hx.
  apply elem_of_cons in Hr as [->|Hr]; apply elem_of_cons in Hq as [->|Hq]; [done|destruct (Hx q Hq); lia|destruct (Hx r Hr); lia|by apply IH].
Qed.

(** ** Construction and insertion *)

Section space.
Context `{HS : UnstableSort} `{!UnstableSortLaws}.

Lemma sort_ok l : Forall region_ok l -> Forall region_ok (sort_by_base l).
Proof. by rewrite sort_perm. Qed.

(** [from_regions] accepts exactly the regions that fit the layout and are
    apart. *)
Lemma from_regions_spec l layout :
  Forall region_ok l ->
  (from_regions l layout = Ret (mkBase (sort_by_base l) layout) /\ space_ok (mkBase (sort_by_base l) layout)) \/
  (from_regions l layout = Panic /\ ~ (Forall (fun r => is_region_valid layout r = true) l /\ all_apart l)).
Proof.
  intros Hok. unfold from_regions. destruct (forallb (is_region_valid layout) (sort_by_base l)) eqn:Ev; cbn [negb].
  - assert (Forall (fun r => is_region_valid layout r = true) (sort_by_base l)) as Hv.
    { apply Forall_forall. intros r Hr%list_elem_of_In. rewrite forallb_forall in Ev. by apply Ev. }
    pose proof (neighbours_eq _ (sort_ok l Hok) (sort_sorted l)) as Hn.
    destruct (neighbours_intersect (sort_by_base l)).
    + right. split; [done|]. intros [_ Ha]. rewrite <- (sort_perm l) in Ha. by apply Hn in Ha.
    + left. split; [done|]. split; cbn; [by apply sort_ok|done|by apply Hn].
  - right. split; [done|]. intros [Hv _]. apply not_true_iff_false in Ev. apply Ev, forallb_forall. intros r Hr%list_elem_of_In.
    rewrite sort_perm in Hr. rewrite Forall_forall in Hv. by apply Hv.
Qed.

Lemma from_regions_again b : space_ok b -> from_regions (regions b) (space_layout b) = Ret (mkBase (sort_by_base (regions b)) (space_layout b)).
Proof. intros [H1 H2 H3]. destruct (from_regions_spec (regions b) (space_layout b) H1) as [[E _]|[_ []]]; done. Qed.

(** A region can be inserted when it fits the layout and is apart from the
    others. *)
Definition insertable (b : AddressSpaceBase) (r : AddressSpaceRegion) : Prop :=
  is_region_valid (space_layout b) r = true /\ Forall (apart r) (regions b).

Lemma insert_region_eq r b :
  space_ok b -> region_ok r ->
  (insertable b r /\ exists b', insert_region r b = Ret (Ok tt, b') /\ regions b' ≡ₚ r :: regions b /\
     space_layout b' = space_layout b /\ space_ok b') \/
  (~ insertable b r /\ insert_region r b = Ret (Err (InvalidAddressRange (base r) (size r)), b)).
Proof.
  intros Hb Hr. pose proof Hb as [H1 H2 H3]. unfold insert_region, insert_prepare. rewrite from_regions_again by done. cbn [mbind outcome_bind].
  unfold base_insert_region. cbn [space_layout regions]. unfold insertable.
  destruct (is_region_valid (space_layout b) r) eqn:Ev; cbn [negb]; [|right; split; [by intros [? _]|done]].
  destruct (existsb (fun q => intersect_with q r) (sort_by_base (regions b))) eqn:Ee.
  - right. split; [|done]. intros [_ Ha]. apply existsb_exists in Ee as (q & Hq%list_elem_of_In & Ei). rewrite sort_perm in Hq.
    rewrite Forall_forall in Ha, H1. specialize (Ha q Hq). apply not_false_iff_true in Ei. apply Ei, intersect_with_eq; [by apply H1|done|by symmetry].
  - assert (Forall (apart r) (regions b)) as Ha.
    { apply Forall_forall. intros q Hq. symmetry. rewrite Forall_forall in H1. apply intersect_with_eq; [by apply H1|done|].
      destruct (intersect_with q r) eqn:Ei; [|done]. apply not_true_iff_false in Ee. exfalso. apply Ee, existsb_exists.
      exists q. split; [|done]. apply list_elem_of_In. by rewrite sort_perm. }
    left. split; [done|]. eexists. split; [done|]. cbn.
    assert (sort_by_base (regions b) ++ [r] ≡ₚ r :: regions b) as Hp by (rewrite sort_perm; symmetry; apply Permutation_cons_append).
    split; [done|]. split; [done|]. split; cbn; rewrite Hp; [by constructor|by constructor|by apply all_apart_cons].
Qed.
End space.

(** * Properties of the address space

    Lookups answer for the one region that holds an address, insertion accepts
    exactly the regions that fit, and what is not guarded against: empty regions
    and two insertions at once. *)

Section props.
Context `{HS : UnstableSort} `{!UnstableSortLaws}.

(** The address spaces made of non-empty regions, with regions inserted later. *)
Inductive space_reach : AddressSpaceBase -> Prop :=
  | reach_new l layout b : Forall region_ok l -> from_regions l layout = Ret b -> space_reach b
  | reach_insert r b res b' : space_reach b -> region_ok r -> insert_region r b = Ret (res, b') -> space_reach b'.

Lemma space_reach_ok b : space_reach b -> space_ok b.
Proof.
  induction 1 as [l layout b Hl E|r b res b' Hb IH Hr E].
  - destruct (from_regions_spec l layout Hl) as [[E' Hok]|[E' _]]; rewrite E' in E; [|done]. by injection E as <-.
  - destruct (insert_region_eq r b IH Hr) as [(_ & b1 & E1 & _ & _ & Hok)|[_ E1]]; rewrite E1 in E; by injection E as _ <-.
Qed.

(** C12: In every address space made of non-empty regions an address is in at most
    one region, and the lookups answer for that one: the protection flags and the
    NUMA node are those of the region that holds the address, the address is in a
    DAX window exactly if that region is one, and an address in no region is an
    error, no node and no DAX window. *)
Theorem lookups_exact b addr :
  space_reach b ->
  exists o : option AddressSpaceRegion,
    match o with
    | Some r => r ∈ regions b /\ contains r addr /\ forall q, q ∈ regions b -> contains q addr -> q = r
    | None => forall q, q ∈ regions b -> ~ contains q addr
    end /\
    space_prot_flags addr b = Ret (match o with Some r => Ok (prot_flags r) | None => Err InvalidRegionType end) /\
    numa_node_id addr b = Ret (o ≫= host_numa_node_id) /\
    is_dax_region addr b = Ret (match o with Some r => bool_decide (ty r = DAXMemory) | None => false end).
Proof.
  intros Hb%space_reach_ok. pose proof Hb as [H1 H2 H3].
  destruct (find_region_spec (fun _ => true) addr (regions b) H1) as (o & E & Ho).
  destruct (find_region_spec (fun r => bool_decide (ty r = DAXMemory)) addr (regions b) H1) as (o' & E' & Ho').
  exists o. unfold space_prot_flags, numa_node_id, is_dax_region. rewrite E, E'. cbn [mbind outcome_bind option_bind].
  split; [|split; [done|split; [by destruct o|]]].
  - destruct o as [r|]; [|intros q Hq; rewrite Forall_forall in Ho; by apply Ho]. destruct Ho as (Hr & _ & Hc). split_and!; [done..|].
    intros q Hq Hqc. by eapply apart_unique.
  - f_equal. destruct o as [r|], o' as [r'|]; try done.
    + destruct Ho as (Hr & _ & Hc), Ho' as (Hr' & Ht & Hc'). by rewrite (apart_unique _ r r' addr H3 Hr Hr' Hc Hc').
    + destruct Ho as (Hr & _ & Hc). rewrite Forall_forall in Ho'. specialize (Ho' r Hr). destruct (bool_decide (ty r = DAXMemory)); [|done].
      by destruct Ho'.
    + destruct Ho' as (Hr' & _ & Hc'). rewrite Forall_forall in Ho. by destruct (Ho r' Hr').
Qed.

(** C20: Inserting a non-empty region succeeds exactly when it fits the layout and
    overlaps none of the regions; then it is added and the space is again one in
    which lookups are exact, and otherwise the call fails and nothing changes.
    It never panics. *)
Theorem insert_region_spec b r :
  space_reach b -> region_ok r ->
  exists b', space_reach b' /\
    if decide (is_region_valid (space_layout b) r = true /\ Forall (apart r) (regions b))
    then insert_region r b = Ret (Ok tt, b') /\ regions b' ≡ₚ r :: regions b /\ space_layout b' = space_layout b
    else insert_region r b = Ret (Err (InvalidAddressRange (base r) (size r)), b') /\ b' = b.
Proof.
  intros Hb Hr. destruct (insert_region_eq r b (space_reach_ok b Hb) Hr) as [(Hi & b' & E & Hp & Hl & _)|[Hi E]].
  - exists b'. split; [by eapply reach_insert|]. by rewrite decide_True.
  - exists b. split; [done|]. by rewrite decide_False.
Qed.
End props.

(** ** Two insertions at once *)

(** A clone of an address space inserts a region in two steps: it makes a new
    state from the one it loads, and swaps it in. *)
Inductive inserter := Inserting (r : AddressSpaceRegion) | Prepared (b : AddressSpaceBase) | Inserted (res : result AddressSpaceError unit).

Inductive insert_step `{UnstableSort} : AddressSpaceBase -> inserter -> AddressSpaceBase -> inserter -> Prop :=
  | step_load r b new : insert_prepare r b = Ret (Ok new) -> insert_step b (Inserting r) b (Prepared new)
  | step_fail r b e : insert_prepare r b = Ret (Err e) -> insert_step b (Inserting r) b (Inserted (Err e))
  | step_swap b new : insert_step b (Prepared new) new (Inserted (Ok tt)).

(** Steps of two clones of one address space in any order. *)
Inductive insert_steps `{UnstableSort} : AddressSpaceBase * inserter * inserter -> AddressSpaceBase * inserter * inserter -> Prop :=
  | steps_done s : insert_steps s s
  | steps_first b t u b' t' s : insert_step b t b' t' -> insert_steps (b', t', u) s -> insert_steps (b, t, u) s
  | steps_second b t u b' u' s : insert_step b u b' u' -> insert_steps (b', t, u') s -> insert_steps (b, t, u) s.

(** A sort that keeps the order of regions with the same base. *)
Definition base_le (a b : AddressSpaceRegion) : Prop := base a <= base b.
#[local] Instance base_le_dec : RelDecision base_le.
Proof. intros a b. unfold base_le. apply _. Defined.
#[local] Instance merge_sort_by_base : UnstableSort := merge_sort base_le.
#[local] Instance base_le_trans : Transitive base_le.
Proof. intros a b c. unfold base_le. lia. Qed.
#[local] Instance base_le_total : Total base_le.
Proof. intros a b. unfold base_le. lia. Qed.
#[local] Instance merge_sort_laws : UnstableSortLaws.
Proof. split; [intros l; apply merge_sort_Permutation|intros l; apply (StronglySorted_merge_sort base_le)]. Qed.

Definition demo_layout : AddressSpaceLayout := layout_new 0 (2 ^ 46 - 1) 0 (2 ^ 45 - 1).
Definition demo_region (b n : Z) : AddressSpaceRegion := region_new DefaultMemory b n.
Definition demo_space : AddressSpaceBase := mkBase [demo_region 0 4096] demo_layout.

Lemma demo_space_reach : space_reach demo_space.
Proof. apply (reach_new [demo_region 0 4096] demo_layout); [by repeat constructor|vm_compute; reflexivity]. Qed.

Lemma lookups_exact_witness : space_prot_flags 100 demo_space = Ret (Ok PROT_READ_WRITE).
Proof.
  destruct (lookups_exact demo_space 100 demo_space_reach) as (o & Ho & E & _). rewrite E. destruct o as [r|].
  - destruct Ho as (Hr & _). apply list_elem_of_singleton in Hr as ->. reflexivity.
  - exfalso. apply (Ho (demo_region 0 4096)); [left|]. vm_compute. split; [discriminate|reflexivity].
Defined.

Lemma insert_region_spec_witness : exists b', insert_region (demo_region 8192 4096) demo_space = Ret (Ok tt, b').
Proof.
  destruct (insert_region_spec demo_space (demo_region 8192 4096) demo_space_reach) as (b' & _ & Hb); [vm_compute; repeat split; discriminate|].
  rewrite decide_True in Hb; [exists b'; apply Hb|]. split; [reflexivity|]. apply Forall_singleton. right. vm_compute. discriminate.
Defined.

(** Two clones of an address space that insert at the same time can lose a
    region: both insertions succeed, and the region of one of them is in no state
    afterwards, because each swaps in a copy of the state it loaded. *)
Theorem concurrent_insert_lost :
  exists r q b', insert_steps (demo_space, Inserting r, Inserting q) (b', Inserted (Ok tt), Inserted (Ok tt)) /\
    region_ok r /\ region_ok q /\ apart r q /\ r ∉ regions b'.
Proof.
  exists (demo_region 8192 4096), (demo_region 16384 4096). eexists. split.
  - eapply steps_first; [apply step_load; vm_compute; reflexivity|]. eapply steps_second; [apply step_load; vm_compute; reflexivity|].
    eapply steps_first; [apply step_swap|]. eapply steps_second; [apply step_swap|]. apply steps_done.
  - split; [vm_compute; repeat split; discriminate|]. split; [vm_compute; repeat split; discriminate|].
    split; [left; vm_compute; discriminate|]. intros Hr. repeat (apply elem_of_cons in Hr as [Hr|Hr]; [discriminate|]). by apply not_elem_of_nil in Hr.
Qed.

(** An empty region can hide an overlap: between two regions that overlap, an
    empty region at the base of the first makes every pair of neighbours pass the
    test, so that [from_regions] accepts them and an address is in two regions
    with different protection. *)
Theorem empty_region_hides_overlap :
  exists l b r q, from_regions l demo_layout = Ret b /\ r ∈ regions b /\ q ∈ regions b /\ contains r 100 /\ contains q 100 /\
    prot_flags r <> prot_flags q.
Proof.
  exists [demo_region 0 4096; demo_region 0 0; set_prot_flags 1 (demo_region 64 64)]. eexists. exists (demo_region 0 4096), (set_prot_flags 1 (demo_region 64 64)).
  split; [vm_compute; reflexivity|]. split; [left|]. split; [right; right; left|]. split; [vm_compute; split; [discriminate|reflexivity]|].
  split; [vm_compute; split; [discriminate|reflexivity]|]. vm_compute. discriminate.
Qed.
