(* ===== verification/AddressSpaceMgr.v ===== *)
(** * The address space manager

    Model of src/dragonball/src/address_space_manager.rs: the memory of the guest
    is laid out around the MMIO hole, mapped into the process, given to KVM, and
    recorded per NUMA node; and of the region factory of
    src/dragonball/src/device_manager/mem_dev_mgr.rs, which does the same for
    memory that is plugged later.  Mappings, advice, threads, KVM and the guest
    memory of vm-memory are parameters ([VmmHost], [GuestMemoryOps]); messages of
    the log are left out. *)
From stdpp Require Import strings pretty gmap.
From S2P Require Import Prelude Effects InterruptManager IntervalTree DeviceResources ResourceManager AddressSpace.

Abbreviation MAX_PRE_ALLOC_THREAD := 16.
Abbreviation PRE_ALLOC_GRANULARITY := 32.
Abbreviation MINIMAL_SPLIT_SPACE := 0x8000000.
Abbreviation PAGE_SIZE := 4096.
Abbreviation PAGE_SHIFT := 12.

Inductive AddressManagerError :=
| InvalidOperation | AMInvalidAddressRange (base size : Z) | NoAvailableMemAddress | NoAvailableKvmSlot | TypeInvalid (s : string)
| DupFd (e : errno) | CreateGuestMemory (e : errno) | MmapGuestMemory (e : errno) | KvmSetMemorySlot (e : errno) | Madvise (e : errno)
| JoinFail | GuestMemoryNotInitialized | CreateAddressSpaceRegion (e : AddressSpaceError).

Record NumaRegionInfo := mkNumaRegionInfo {
  nri_size : Z;
  nri_host_numa_node_id : option Z;
  nri_guest_numa_node_id : option Z;
  nri_vcpu_ids : list Z;
}.

(** ** Parameters *)

Record AddressSpaceMgrBuilder := mkBuilder {
  mem_type : string;
  mem_file : string;
  mem_index : Z;
  mem_suffix : bool;
  mem_prealloc : bool;
  dirty_page_logging : bool;
  vmfd : option Z;
}.

Definition builder_new (mem_type mem_file : string) : result AddressManagerError AddressSpaceMgrBuilder :=
  if String.eqb mem_type "" then Err (TypeInvalid mem_type) else Ok (mkBuilder mem_type mem_file 0 true false false None).

Definition toggle_file_suffix (enabled : bool) (b : AddressSpaceMgrBuilder) : AddressSpaceMgrBuilder :=
  mkBuilder (mem_type b) (mem_file b) (mem_index b) enabled (mem_prealloc b) (dirty_page_logging b) (vmfd b).
Definition toggle_prealloc (prealloc : bool) (b : AddressSpaceMgrBuilder) : AddressSpaceMgrBuilder :=
  mkBuilder (mem_type b) (mem_file b) (mem_index b) (mem_suffix b) prealloc (dirty_page_logging b) (vmfd b).
Definition toggle_dirty_page_logging (logging : bool) (b : AddressSpaceMgrBuilder) : AddressSpaceMgrBuilder :=
  mkBuilder (mem_type b) (mem_file b) (mem_index b) (mem_suffix b) (mem_prealloc b) logging (vmfd b).
Definition set_kvm_vm_fd (fd : Z) (b : AddressSpaceMgrBuilder) : option Z * AddressSpaceMgrBuilder :=
  (vmfd b, mkBuilder (mem_type b) (mem_file b) (mem_index b) (mem_suffix b) (mem_prealloc b) (dirty_page_logging b) (Some fd)).

Definition get_next_mem_file (b : AddressSpaceMgrBuilder) : outcome (string * AddressSpaceMgrBuilder) :=
  if mem_suffix b then
    next ← uadd u32_max (mem_index b) 1;
    Ret (String.append (mem_file b) (pretty (Z.to_N (mem_index b))),
         mkBuilder (mem_type b) (mem_file b) next (mem_suffix b) (mem_prealloc b) (dirty_page_logging b) (vmfd b))
  else Ret (mem_file b, b).

(** ** The host *)

(** [dup], mapping memory (its address), advice, [mbind], a thread that touches
    pages (its handle), joining it, and [set_user_memory_region]. *)
Inductive advice := MADV_DONTFORK | MADV_HUGEPAGE.
Class VmmHost (Ho : Type) := {
  dup_fd : Z -> Ho -> result errno Z * Ho;
  mmap_build : option (Z * Z) -> Z -> Z -> Z -> Ho -> result errno Z * Ho;
  madvise : Z -> Z -> advice -> Ho -> result errno unit * Ho;
  mbind : Z -> Z -> Z -> Ho -> Ho;
  spawn_prealloc : Z -> Z -> Z -> Ho -> result errno Z * Ho;
  join_thread : Z -> Ho -> result errno unit * Ho;
  set_user_memory_region : Z -> Z -> Z -> Z -> Ho -> result errno unit * Ho;
}.

(** The regions of vm-memory and their collection: [GuestRegionMmap::new] of a
    mapping, its size and a guest address, the host address of a region, and
    [GuestMemoryMmap]. *)
Class GuestMemoryOps (R G : Type) := {
  guest_region_new : Z -> Z -> Z -> result errno R;
  region_host_address : R -> option Z;
  guest_memory_new : G;
  guest_memory_insert : R -> G -> result errno G;
}.

(** ** Preallocation *)

(** The pages that thread [n] of [threads] touches, and the address of the first. *)
Definition prealloc_range (addr npage threads n : Z) : outcome (Z * Z * Z) :=
  let per_npage := npage / threads in
  let start_npage := per_npage * n in
  let end_npage := if n =? threads - 1 then npage else per_npage * (n + 1) in
  per_addr ← uadd u64_max addr (start_npage * PAGE_SIZE);
  Ret (start_npage, end_npage, per_addr).

Definition prealloc_threads (size : Z) : Z :=
  let touch_thread := Z.shiftr size PRE_ALLOC_GRANULARITY + 1 in
  if MAX_PRE_ALLOC_THREAD <? touch_thread then MAX_PRE_ALLOC_THREAD else touch_thread.

Definition prealloc_ranges (addr size : Z) : outcome (list (Z * Z * Z)) :=
  let npage := Z.shiftr size PAGE_SHIFT in
  let threads := prealloc_threads size in
  mapM (fun n => prealloc_range addr npage threads (Z.of_nat n)) (seq 0 (Z.to_nat threads)).

(** ** The manager *)

Section manager.
Context {Ho R G : Type} `{HF : MemFiles Ho} `{HV : VmmHost Ho} `{HG : GuestMemoryOps R G} `{HS : UnstableSort}.

Record AddressSpaceMgr := mkMgr {
  address_space : option AddressSpaceBase;
  vm_as : option G;
  base_to_slot : gmap Z Z;
  prealloc_handlers : list Z;
  prealloc_exit : bool;
  numa_nodes : gmap Z NumaNode;
}.

Definition mgr_default : AddressSpaceMgr := mkMgr None None ∅ [] false ∅.
Definition is_initialized (m : AddressSpaceMgr) : bool := match address_space m with Some _ => true | None => false end.

(** The manager, the parameters, the resource manager and the host. *)
Record AsmWorld := mkAsm { w_mgr : AddressSpaceMgr; w_param : AddressSpaceMgrBuilder; w_rm : ResourceManager; w_ho : Ho }.
#[local] Abbreviation asm_eff := (eff AsmWorld AddressManagerError).

Definition put_mgr (m : AddressSpaceMgr) (w : AsmWorld) : AsmWorld := mkAsm m (w_param w) (w_rm w) (w_ho w).
Definition put_param (p : AddressSpaceMgrBuilder) (w : AsmWorld) : AsmWorld := mkAsm (w_mgr w) p (w_rm w) (w_ho w).
Definition put_rm (rm : ResourceManager) (w : AsmWorld) : AsmWorld := mkAsm (w_mgr w) (w_param w) rm (w_ho w).
Definition put_ho (h : Ho) (w : AsmWorld) : AsmWorld := mkAsm (w_mgr w) (w_param w) (w_rm w) h.

Definition put_slots (b : gmap Z Z) (m : AddressSpaceMgr) : AddressSpaceMgr :=
  mkMgr (address_space m) (vm_as m) b (prealloc_handlers m) (prealloc_exit m) (numa_nodes m).
Definition put_handlers (l : list Z) (m : AddressSpaceMgr) : AddressSpaceMgr :=
  mkMgr (address_space m) (vm_as m) (base_to_slot m) l (prealloc_exit m) (numa_nodes m).
Definition put_exit (e : bool) (m : AddressSpaceMgr) : AddressSpaceMgr :=
  mkMgr (address_space m) (vm_as m) (base_to_slot m) (prealloc_handlers m) e (numa_nodes m).
Definition put_nodes (n : gmap Z NumaNode) (m : AddressSpaceMgr) : AddressSpaceMgr :=
  mkMgr (address_space m) (vm_as m) (base_to_slot m) (prealloc_handlers m) (prealloc_exit m) n.
Definition put_spaces (s : AddressSpaceBase) (g : G) (m : AddressSpaceMgr) : AddressSpaceMgr :=
  mkMgr (Some s) (Some g) (base_to_slot m) (prealloc_handlers m) (prealloc_exit m) (numa_nodes m).

#[local] Abbreviation host_call err f := (call (E := AddressManagerError) w_ho put_ho err f : asm_eff _).

(** A method of the resource manager. *)
Definition on_rm {A} (f : ResourceManager -> outcome (A * ResourceManager)) : asm_eff A := fun w =>
  '(a, rm) ← f (w_rm w); Ret (Ok a, put_rm rm w).

Definition insert_into_numa_nodes (region : AddressSpaceRegion) (guest_numa_node_id : Z) (vcpus : list Z) : asm_eff unit :=
  modify (fun w =>
    let node := default NumaNode_new (numa_nodes (w_mgr w) !! guest_numa_node_id) in
    let node := add_vcpu_ids vcpus (add_info (mkNumaNodeInfo (base region) (size region)) node) in
    put_mgr (put_nodes (<[guest_numa_node_id := node]> (numa_nodes (w_mgr w))) (w_mgr w)) w).

(** The end of the region is computed for the log message. *)
Definition asm_create_region (start_addr size_bytes : Z) (info : NumaRegionInfo) : asm_eff AddressSpaceRegion :=
  p ← gets w_param;
  '(mem_file_path, p) ← lift_outcome (get_next_mem_file p);
  _ ← modify (put_param p);
  region ← zoom w_ho put_ho (map_err CreateAddressSpaceRegion
             (create_default_memory_region start_addr size_bytes (nri_host_numa_node_id info) (mem_type p) mem_file_path (mem_prealloc p) false));
  _ ← insert_into_numa_nodes region (default 0 (nri_guest_numa_node_id info)) (nri_vcpu_ids info);
  _end ← lift_outcome (uadd u64_max start_addr size_bytes);
  mret region.

Definition map_to_kvm (reg : AddressSpaceRegion) (mmap_reg : R) : asm_eff unit :=
  slot ← on_rm (fun rm => allocate_kvm_mem_slot rm 1 None);
  match slot with
  | None => throw NoAvailableKvmSlot
  | Some slot =>
      p ← gets w_param;
      _ ← match vmfd p with
          | Some _ =>
              match region_host_address mmap_reg with
              | None => throw InvalidOperation
              | Some host_addr => host_call KvmSetMemorySlot (set_user_memory_region slot (base reg) (size reg) host_addr)
              end
          | None => mret tt
          end;
      modify (fun w => put_mgr (put_slots (<[base reg := slot]> (base_to_slot (w_mgr w))) (w_mgr w)) w)
  end.

Definition configure_anon_mem (addr len : Z) : asm_eff unit := host_call Madvise (madvise addr len MADV_DONTFORK).

(** [1_u64.checked_shl] fails from 64 on; [mbind] may fail. *)
Definition configure_numa (addr len node_id : Z) : asm_eff unit :=
  if 64 <=? node_id then throw InvalidOperation
  else modify (fun w => put_ho (mbind addr len (Z.shiftl 1 node_id) (w_ho w)) w).

Definition configure_thp_and_prealloc (region : AddressSpaceRegion) (addr len : Z) : asm_eff unit :=
  _ ← host_call Madvise (madvise addr len MADV_HUGEPAGE);
  if 0 <? Z.land (perm_flags region) MAP_POPULATE then
    ranges ← lift_outcome (prealloc_ranges addr len);
    for_each (fun '(start_npage, end_npage, per_addr) =>
      handler ← attempt (E' := AddressManagerError) (host_call Madvise (spawn_prealloc start_npage end_npage per_addr));
      match handler with
      | Err _ => mret tt
      | Ok h => modify (fun w => put_mgr (put_handlers (prealloc_handlers (w_mgr w) ++ [h]) (w_mgr w)) w)
      end) ranges
  else mret tt.

(** On a 64-bit host, where [usize] is 64 bits wide. *)
Definition create_mmap_region (region : AddressSpaceRegion) : asm_eff R :=
  if u64_max <? size region then throw (AMInvalidAddressRange (base region) (size region)) else
  if bool_decide (ty region = DeviceMemory) then throw InvalidOperation else
  file ← match file_offset region with
         | Some (fd, start) => fd ← host_call DupFd (dup_fd fd); mret (Some (fd, start))
         | None => mret None
         end;
  let perm := if negb (Z.land (perm_flags region) MAP_POPULATE =? 0) && is_hugepage region
              then Z.ldiff (perm_flags region) MAP_POPULATE else perm_flags region in
  addr ← host_call MmapGuestMemory (mmap_build file (size region) PROT_READ_WRITE perm);
  _ ← (if is_anon region then configure_anon_mem addr (size region) else mret tt);
  _ ← match host_numa_node_id region with
      | Some node_id => configure_numa addr (size region) node_id
      | None => mret tt
      end;
  _ ← (if is_hugepage region then configure_thp_and_prealloc region addr (size region) else mret tt);
  match guest_region_new addr (size region) (base region) with
  | Ok r => mret r
  | Err e => throw (CreateGuestMemory e)
  end.

(** [checked_shl(20)] of a 64-bit size: the bits that leave the word are lost. *)
Definition mib_to_bytes (size : Z) : Z := Z.shiftl size 20 mod 2 ^ 64.

Definition checked_or {A} (o : option A) : asm_eff A := match o with Some a => mret a | None => throw InvalidOperation end.

(** A region of [size] bytes that would meet the MMIO hole: a part below it,
    unless that would be small, and a part above. *)
Definition create_split_region (start_addr size : Z) (info : NumaRegionInfo) : asm_eff (list AddressSpaceRegion * Z) :=
  below_size ← checked_or (if start_addr <=? MMIO_LOW_START then Some (MMIO_LOW_START - start_addr) else None);
  '(below_size, below) ← (if below_size <? MINIMAL_SPLIT_SPACE then mret (0, [])
                          else region ← asm_create_region start_addr below_size info; mret (below_size, [region]));
  let above_start := MMIO_LOW_END + 1 in
  above_size ← checked_or (if below_size <=? size then Some (size - below_size) else None);
  region ← asm_create_region above_start above_size info;
  next ← checked_or (checked_add u64_max above_start above_size);
  mret (below ++ [region], next).

(** One region of the configuration from [start_addr] on: the regions and the next
    address. *)
Definition create_numa_region (start_addr : Z) (info : NumaRegionInfo) : asm_eff (list AddressSpaceRegion * Z) :=
  let size := mib_to_bytes (nri_size info) in
  clear ← (if MMIO_LOW_END <? start_addr then mret true else
           e ← lift_outcome (uadd u64_max start_addr size); mret (e <=? MMIO_LOW_START));
  if (clear : bool) then
    region ← asm_create_region start_addr size info;
    next ← checked_or (checked_add u64_max start_addr size);
    mret ([region], next)
  else create_split_region start_addr size info.

Fixpoint create_numa_regions (start_addr : Z) (infos : list NumaRegionInfo) : asm_eff (list AddressSpaceRegion) :=
  match infos with
  | [] => mret []
  | info :: infos' =>
      '(regs, next) ← create_numa_region start_addr info;
      rest ← create_numa_regions next infos';
      mret (regs ++ rest)
  end.

(** Addresses, a mapping and a KVM slot for a region. *)
Definition add_guest_memory (reg : AddressSpaceRegion) (vm_memory : G) : asm_eff G :=
  last_addr ← lift_outcome (region_last_addr reg);
  let constraint := with_max (with_min (Constraint_new (size reg)) (base reg)) last_addr in
  key ← on_rm (fun rm => allocate_mem_address rm constraint);
  match key with
  | None => throw NoAvailableMemAddress
  | Some _ =>
      mmap_reg ← create_mmap_region reg;
      match guest_memory_insert mmap_reg vm_memory with
      | Err e => throw (CreateGuestMemory e)
      | Ok vm_memory => _ ← map_to_kvm reg mmap_reg; mret vm_memory
      end
  end.

Fixpoint add_guest_memories (regs : list AddressSpaceRegion) (vm_memory : G) : asm_eff G :=
  match regs with
  | [] => mret vm_memory
  | reg :: regs' => vm_memory ← add_guest_memory reg vm_memory; add_guest_memories regs' vm_memory
  end.

(** The address space of a virtual machine with the given end of physical
    addresses; [USABLE_END] is the memory of the host. *)
Definition create_address_space (GUEST_PHYS_END USABLE_END : Z) (infos : list NumaRegionInfo) : asm_eff unit :=
  regs ← create_numa_regions GUEST_MEM_START infos;
  vm_memory ← add_guest_memories regs guest_memory_new;
  let layout := layout_new USABLE_END GUEST_PHYS_END GUEST_MEM_START (GUEST_MEM_END GUEST_PHYS_END) in
  space ← lift_outcome (from_regions regs layout);
  modify (fun w => put_mgr (put_spaces space vm_memory (w_mgr w)) w).

(** [AddressSpaceMgrBuilder::build]: the manager, with the resources and the host
    afterwards. *)
Definition builder_build (GUEST_PHYS_END USABLE_END : Z) (rm : ResourceManager) (infos : list NumaRegionInfo) (h : Ho)
    (b : AddressSpaceMgrBuilder) : outcome (result AddressManagerError AddressSpaceMgr * (ResourceManager * Ho)) :=
  '(r, w) ← create_address_space GUEST_PHYS_END USABLE_END infos (mkAsm mgr_default b rm h);
  Ret (match r with Ok _ => Ok (w_mgr w) | Err e => Err e end, (w_rm w, w_ho w)).

Definition get_layout (m : AddressSpaceMgr) : result AddressManagerError AddressSpaceLayout :=
  match address_space m with Some s => Ok (space_layout s) | None => Err GuestMemoryNotInitialized end.

(** The threads are joined from the last one on, up to the first failure. *)
Fixpoint join_all (handlers : list Z) : asm_eff unit :=
  match handlers with
  | [] => mret tt
  | h :: rest =>
      _ ← modify (fun w => put_mgr (put_handlers (rev rest) (w_mgr w)) w);
      host_call (fun _ => JoinFail) (join_thread h) ≫= fun _ => join_all rest
  end.

Definition wait_prealloc (stop : bool) : asm_eff unit :=
  _ ← (if stop then modify (fun w => put_mgr (put_exit true (w_mgr w)) w) else mret tt);
  handlers ← gets (fun w => prealloc_handlers (w_mgr w));
  join_all (rev handlers).
End manager.

Arguments AddressSpaceMgr : clear implicits.
Arguments AsmWorld : clear implicits.
