(* ===== verification/AddressSpaceMgrFacts.v ===== *)
(** * Facts about the address space manager

    The regions of a virtual machine are laid out in order around the MMIO hole,
    each with its addresses and its KVM slot taken from the resource manager. *)
From stdpp Require Import strings pretty gmap sorting.
From S2P Require Import Prelude Effects InterruptManager IntervalTree IntervalTreeFacts IntervalTreeAlloc DeviceResources ResourceManager ResourceManagerFacts ResourceManagerGrants.
From S2P Require Import AddressSpace AddressSpaceProps AddressSpaceMgr.

(** A mapping lies in the lower half of the address space of the process. *)
Class VmmHostLaws (Ho : Type) `{VmmHost Ho} := {
  mmap_build_addr file len prot perm h a h' : mmap_build file len prot perm h = (Ok a, h') -> 0 <= a /\ a + len <= 2 ^ 63;
}.

(** ** Layout of the regions *)

Definition clear_of_hole (r : AddressSpaceRegion) : Prop := base r + size r <= MMIO_LOW_START \/ MMIO_LOW_END < base r.

(** The regions follow one another from [s] to [e], outside the MMIO hole. *)
Fixpoint laid_out (s e : Z) (l : list AddressSpaceRegion) : Prop :=
  match l with
  | [] => s <= e
  | r :: l' => region_ok r /\ ty r = DefaultMemory /\ s <= base r /\ clear_of_hole r /\ laid_out (base r + size r) e l'
  end.

Definition total_size (l : list AddressSpaceRegion) : Z := foldr (fun r acc => size r + acc) 0 l.

Lemma laid_out_app s m e l1 l2 : laid_out s m l1 -> laid_out m e l2 -> laid_out s e (l1 ++ l2).
Proof.
  revert s. induction l1 as [|r l1 IH]; intros s; cbn.
  - intros Hsm H2. destruct l2 as [|q l2]; cbn in *; [lia|]. destruct H2 as (Hr & Ht & Hq & H2). split_and!; [done..|lia|apply H2|apply H2].
  - intros (Hr & Ht & Hs & Hc & Hl) H2. split_and!; [done..|]. by apply IH.
Qed.

Lemma total_size_app l1 l2 : total_size (l1 ++ l2) = total_size l1 + total_size l2.
Proof. unfold total_size. induction l1 as [|r l1 IH]; cbn; [done|]. rewrite IH. lia. Qed.

Lemma total_size_perm l l' : l ≡ₚ l' -> total_size l = total_size l'.
Proof. unfold total_size. induction 1 as [|r l l' _ IH|r q l|l1 l2 l3 _ IH1 _ IH2]; cbn; lia. Qed.

Lemma laid_out_above s e l : laid_out s e l -> Forall (fun r => s <= base r) l.
Proof.
  revert s. induction l as [|r l IH]; intros s; [by constructor|]. cbn. intros ((_ & Hz & _) & _ & Hs & _ & Hl). constructor; [done|].
  apply IH in Hl. eapply Forall_impl; [exact Hl|]. cbn. lia.
Qed.

Lemma laid_out_end s e l : laid_out s e l -> s <= e.
Proof. revert s. induction l as [|r l IH]; intros s; cbn; [done|]. intros ((_ & Hz & _) & _ & Hs & _ & Hl). apply IH in Hl. lia. Qed.

Lemma laid_out_below s e l : laid_out s e l -> Forall (fun r => base r + size r <= e) l.
Proof.
  revert s. induction l as [|r l IH]; intros s; [by constructor|]. cbn. intros (_ & _ & _ & _ & Hl).
  constructor; [by eapply laid_out_end|by eapply IH].
Qed.

Lemma laid_out_regions s e l :
  laid_out s e l -> Forall region_ok l /\ Forall (fun r => ty r = DefaultMemory) l /\ Forall clear_of_hole l /\ all_apart l.
Proof.
  revert s. induction l as [|r l IH]; intros s; cbn; [intros _; split_and!; by constructor|].
  intros (Hr & Ht & Hs & Hc & Hl). destruct (IH _ Hl) as (H1 & H2 & H3 & H4). split_and!; [by constructor..|].
  apply all_apart_cons. split; [|done]. apply laid_out_above in Hl. eapply Forall_impl; [exact Hl|]. intros q Hq. by left.
Qed.

(** Where the next region may start. *)
Definition start_ok (s : Z) : Prop := 0 <= s /\ (s <= MMIO_LOW_START \/ MMIO_LOW_END < s).

Section facts.
Context {Ho R G : Type} `{HF : MemFiles Ho} `{HV : VmmHost Ho} `{!VmmHostLaws Ho} `{HG : GuestMemoryOps R G} `{HS : UnstableSort} `{!UnstableSortLaws}.
#[local] Abbreviation world := (AsmWorld Ho G).

Lemma twp_call {S E A} (get : S -> Ho) put (err : errno -> E) (f : Ho -> result errno A * Ho) Q s :
  (forall r h, f (get s) = (r, h) -> Q (match r with Ok a => Ok a | Err e => Err (err e) end) (put h s)) -> twp (call get put err f) Q s.
Proof. intros HQ. unfold twp, call. destruct (f (get s)) as [r h] eqn:Er. eexists _, _. split; [done|]. by apply HQ. Qed.

(** ** New regions *)

Definition region_is (b n : Z) (numa : option Z) (reg : AddressSpaceRegion) : Prop :=
  base reg = b /\ size reg = n /\ ty reg = DefaultMemory /\ host_numa_node_id reg = numa.

Lemma create_region_shape b n numa t file pre hotplug (h : Ho) :
  twp (create_default_memory_region b n numa t file pre hotplug)
    (fun r _ => match r with Ok reg => region_is b n numa reg | Err _ => True end) h.
Proof.
  unfold create_default_memory_region, create_memory_region. destruct (source_from_str t) as [source|]; [|by twp_steps].
  twp_step. apply (twp_mono _ (fun r _ => match r with Ok reg => region_is b n numa reg | Err _ => True end)).
  - destruct source; repeat first [twp_step | apply twp_call; intros [] ? _ | by destruct hotplug].
  - intros [reg|e] s' Hr; [|done]. twp_steps. by destruct (source_is_hugepage source), (source_is_mmap_anonymous source).
Qed.

(** What laying out regions leaves alone. *)
Definition unlaid (w : world) := (w_rm w, put_nodes ∅ (w_mgr w), vmfd (w_param w)).
Definition index_room (k : Z) (w : world) : Prop := 0 <= mem_index (w_param w) /\ mem_index (w_param w) + k <= u32_max.

Lemma asm_create_region_spec b n info k (w : world) :
  index_room (k + 1) w -> 0 <= k -> 0 <= b + n <= u64_max ->
  twp (asm_create_region b n info) (fun r w' => unlaid w' = unlaid w /\ index_room k w' /\
    match r with Ok reg => region_is b n (nri_host_numa_node_id info) reg | Err _ => True end) w.
Proof.
  intros Hi Hk Hbn. unfold asm_create_region. twp_steps. 
  assert (exists path p', get_next_mem_file (w_param w) = Ret (path, p') /\ vmfd p' = vmfd (w_param w) /\ index_room k (put_param p' w)) as (path & p' & Ep & Hv & Hi').
  { unfold get_next_mem_file. destruct Hi as [Hi0 Hi1]. destruct (mem_suffix (w_param w)).
    - rewrite uadd_Ret by lia. eexists _, _. split; [done|]. split; [done|]. unfold index_room. cbn. lia.
    - eexists _, _. split; [done|]. split; [done|]. unfold index_room. cbn. lia. }
  eapply twp_lift; [exact Ep|]. cbv beta iota. twp_steps.
  eapply twp_mono; [apply create_region_shape|]. intros [reg|e] h Hr.
  - unfold insert_into_numa_nodes. twp_steps. eapply twp_lift; [apply uadd_Ret; lia|]. twp_steps. split; [|split; [exact Hi'|done]]. unfold unlaid. cbn. by rewrite Hv.
  - split; [|split; [exact Hi'|done]]. unfold unlaid. cbn. by rewrite Hv.
Qed.

Lemma region_is_ok b n numa reg : region_is b n numa reg -> 0 <= b -> 0 < n -> b + n <= u64_max -> region_ok reg.
Proof. intros (Hb & Hn & _) **. unfold region_ok. lia. Qed.

(** ** One region of the configuration *)

Definition info_bytes (info : NumaRegionInfo) : Z := nri_size info * 2 ^ 20.

Lemma mib_to_bytes_eq info : 0 <= nri_size info -> info_bytes info < 2 ^ 64 -> mib_to_bytes (nri_size info) = info_bytes info.
Proof. intros H1 H2. unfold mib_to_bytes, info_bytes in *. rewrite Z.shiftl_mul_pow2 by lia. apply Z.mod_small. lia. Qed.

(** Where [n] bytes from [s] on end: memory that would meet the MMIO hole is
    continued above it. *)
Definition next_start (s n : Z) : Z :=
  if (MMIO_LOW_END <? s) || (s + n <=? MMIO_LOW_START) then s + n
  else MMIO_LOW_END + 1 + (n - (if MMIO_LOW_START - s <? MINIMAL_SPLIT_SPACE then 0 else MMIO_LOW_START - s)).

Definition memory_end (s : Z) (infos : list NumaRegionInfo) : Z := foldl (fun s i => next_start s (info_bytes i)) s infos.

(** What laying out from [s] to [e] achieves. *)
Definition laid (bytes s : Z) (r : result AddressManagerError (list AddressSpaceRegion * Z)) : Prop :=
  match r with
  | Ok (regs, next) => laid_out s next regs /\ start_ok next /\ total_size regs = bytes /\
      Z.max next (2 ^ 32) <= Z.max s (2 ^ 32) + bytes /\ next = next_start s bytes /\ Exists (fun r => base r + size r = next) regs
  | Err _ => True
  end.

Lemma one_region_laid b n numa reg e :
  region_is b n numa reg -> region_ok reg -> clear_of_hole reg -> b + n <= e -> laid_out b e [reg].
Proof. intros (Hb & Hn & Ht & _) Hok Hc He. cbn. split_and!; [done..|lia|done|lia]. Qed.

Lemma index_weaken k k' (w : world) : index_room k w -> k' <= k -> index_room k' w.
Proof. unfold index_room. lia. Qed.

Lemma create_split_region_spec s n info k (w : world) :
  0 <= s <= MMIO_LOW_START -> MMIO_LOW_START < s + n -> 2 ^ 32 + n <= 2 ^ 62 -> index_room (k + 2) w -> 0 <= k ->
  twp (create_split_region s n info) (fun r w' => unlaid w' = unlaid w /\ index_room k w' /\ laid n s r) w.
Proof.
  intros Hs Hsn Hmax Hi Hk. unfold create_split_region.
  assert (MMIO_LOW_START = 0xC0000000) as EL by reflexivity. assert (MMIO_LOW_END = 0xFFFFFFFF) as EH by reflexivity.
  destruct (Z.leb_spec s MMIO_LOW_START); [|lia]. cbn [checked_or]. twp_steps.
  set (below := MMIO_LOW_START - s) in *.
  apply (twp_mono _ (fun r w' => unlaid w' = unlaid w /\ index_room (k + 1) w' /\
    match r with
    | Ok (b, l) => laid_out s MMIO_LOW_START l /\ total_size l = b /\ b = (if below <? MINIMAL_SPLIT_SPACE then 0 else below)
    | Err _ => True
    end)).
  { destruct (Z.ltb_spec below MINIMAL_SPLIT_SPACE).
    - twp_steps. split; [done|]. split; [by eapply index_weaken; [done|lia]|]. cbn. lia.
    - twp_steps. eapply twp_mono; [apply (asm_create_region_spec s below info (k + 1)); [by replace (k + 1 + 1) with (k + 2) by lia|lia|ulia]|].
      intros [reg|e] w1 (Hu & Hi1 & Hr); [|done]. twp_steps. split; [done|]. split; [done|].
      assert (region_ok reg) as Hok by (eapply region_is_ok; [done|lia|lia|ulia]). pose proof Hr as (Hb & Hsz & _).
      split; [apply (one_region_laid s below (nri_host_numa_node_id info)); try done; [left; lia|lia]|]. cbn. lia. }
  intros [[b l]|e] w1 (Hu & Hi1 & Hb); [|split; [done|split; [by eapply index_weaken; [done|lia]|done]]].
  destruct Hb as (Hl & Htot & Ebs). assert (b = 0 \/ b = below) as Hbs by (subst b; destruct (below <? _); auto). twp_steps. destruct (Z.leb_spec b n); [|lia]. cbn [checked_or]. twp_steps.
  eapply twp_mono; [apply (asm_create_region_spec (MMIO_LOW_END + 1) (n - b) info k); [done|done|ulia]|].
  intros [reg|e] w2 (Hu2 & Hi2 & Hr); [|split; [congruence|done]].
  unfold checked_or, checked_add. destruct (Z.leb_spec (MMIO_LOW_END + 1 + (n - b)) u64_max); [|ulia]. twp_steps.
  split; [congruence|]. split; [done|]. assert (region_ok reg) as Hok by (eapply region_is_ok; [done|lia|lia|ulia]).
  pose proof Hr as (Hb & Hsz & _). unfold laid. split.
  - eapply laid_out_app; [exact Hl|]. cbn. destruct Hr as (_ & _ & Ht & _). split_and!; [done..|lia|right; lia|lia].
  - rewrite total_size_app. split; [unfold start_ok; lia|]. split; [cbn; lia|]. split; [lia|]. split.
    + unfold next_start. destruct (Z.ltb_spec MMIO_LOW_END s); [lia|]. destruct (Z.leb_spec (s + n) MMIO_LOW_START); [lia|]. cbn. by rewrite Ebs.
    + apply Exists_app. right. constructor. lia.
Qed.

Lemma create_numa_region_spec s info k (w : world) :
  start_ok s -> 0 < nri_size info -> Z.max s (2 ^ 32) + info_bytes info <= 2 ^ 62 -> index_room (k + 2) w -> 0 <= k ->
  twp (create_numa_region s info) (fun r w' => unlaid w' = unlaid w /\ index_room k w' /\ laid (info_bytes info) s r) w.
Proof.
  intros [Hs0 Hs] Hn Hmax Hi Hk. unfold create_numa_region. assert (0 < info_bytes info) as Hpos by (unfold info_bytes; lia).
  rewrite mib_to_bytes_eq by lia. set (n := info_bytes info) in *. clearbody n.
  assert (MMIO_LOW_START = 0xC0000000) as EL by reflexivity. assert (MMIO_LOW_END = 0xFFFFFFFF) as EH by reflexivity.
  set (clear := (MMIO_LOW_END <? s) || (s + n <=? MMIO_LOW_START)). twp_step.
  apply (twp_mono _ (fun r w' => r = Ok clear /\ w' = w)).
  { subst clear. destruct (Z.ltb_spec MMIO_LOW_END s); cbn [orb]; [by twp_steps|]. twp_steps.
    eapply twp_lift; [apply uadd_Ret; ulia|]. by twp_steps. }
  intros r w' [-> ->]. subst clear.
  destruct ((MMIO_LOW_END <? s) || (s + n <=? MMIO_LOW_START)) eqn:Ec.
  - apply orb_true_iff in Ec as Hc. rewrite Z.ltb_lt, Z.leb_le in Hc. twp_steps.
    eapply twp_mono; [apply (asm_create_region_spec s n info (k + 1)); [by replace (k + 1 + 1) with (k + 2) by lia|lia|ulia]|].
    intros [reg|e] w1 (Hu & Hi1 & Hr); [|split; [done|split; [by eapply index_weaken; [done|lia]|done]]].
    unfold checked_or, checked_add. destruct (Z.leb_spec (s + n) u64_max); [|ulia]. twp_steps.
    split; [done|]. split; [by eapply index_weaken; [done|lia]|].
    assert (region_ok reg) as Hok by (eapply region_is_ok; [done|lia|lia|ulia]). pose proof Hr as (Hb & Hsz & _).
    unfold laid. split; [apply (one_region_laid s n (nri_host_numa_node_id info)); try done; unfold clear_of_hole; lia|].
    split; [unfold start_ok; lia|]. split; [cbn; lia|]. split; [lia|]. split; [unfold next_start; by rewrite Ec|constructor; lia].
  - apply orb_false_iff in Ec as [E1%Z.ltb_ge E2%Z.leb_gt]. apply create_split_region_spec; try done; lia.
Qed.

(** ** All regions *)

Definition total_bytes (infos : list NumaRegionInfo) : Z := foldr (fun i acc => info_bytes i + acc) 0 infos.

Lemma total_bytes_nonneg infos : Forall (fun i => 0 < nri_size i) infos -> 0 <= total_bytes infos.
Proof. unfold total_bytes, info_bytes. induction 1 as [|i l Hi _ IH]; cbn [foldr]; lia. Qed.

Lemma create_numa_regions_spec infos s (w : world) :
  start_ok s -> Forall (fun i => 0 < nri_size i) infos -> Z.max s (2 ^ 32) + total_bytes infos <= 2 ^ 62 ->
  index_room (2 * Z.of_nat (length infos)) w ->
  twp (create_numa_regions s infos) (fun r w' => unlaid w' = unlaid w /\
    match r with
    | Ok regs => laid_out s (memory_end s infos) regs /\ total_size regs = total_bytes infos /\
        (infos = [] \/ Exists (fun r => base r + size r = memory_end s infos) regs)
    | Err _ => True
    end) w.
Proof.
  revert s w. induction infos as [|info infos IH]; intros s w Hs Hpos Hmax Hi; cbn [create_numa_regions].
  { twp_steps. split; [done|]. cbn. split_and!; [lia|done|by left]. }
  apply Forall_cons in Hpos as [Hp Hpos]. pose proof (total_bytes_nonneg infos Hpos) as Hnn. cbn [total_bytes foldr] in Hmax. fold (total_bytes infos) in Hmax.
  twp_step. eapply twp_mono; [apply (create_numa_region_spec s info (2 * Z.of_nat (length infos))); [done|done|lia| |lia]|].
  { cbn [length] in Hi. eapply index_weaken; [done|lia]. }
  intros [[regs next]|e] w1 (Hu & Hi1 & Hl); [|done]. destruct Hl as (Hl & Hst & Ht & Hm & En & Hend). twp_step.
  eapply twp_mono; [apply (IH next w1); [done|done|lia|done]|]. intros [rest|e] w2 (Hu2 & Hr); [|split; [congruence|done]].
  twp_steps. split; [congruence|]. destruct Hr as (Hl2 & Ht2 & He).
  assert (memory_end s (info :: infos) = memory_end next infos) as Ee by (unfold memory_end; cbn [foldl]; by rewrite En). rewrite Ee.
  split; [by eapply laid_out_app|]. rewrite total_size_app, Ht, Ht2. split; [done|]. right. apply Exists_app.
  destruct He as [-> |He]; [by left|by right].
Qed.

(** ** Mapping *)

(** What mapping a region leaves alone. *)
Definition unmapped (w : world) :=
  (w_rm w, w_param w, address_space (w_mgr w), base_to_slot (w_mgr w), numa_nodes (w_mgr w)).

Lemma mapM_Ret {A B} (f : A -> outcome B) l : (forall a, a ∈ l -> exists b, f a = Ret b) -> exists bs, mapM f l = Ret bs.
Proof.
  induction l as [|a l IH]; intros Hf; [by eexists|]. cbn. destruct (Hf a) as [b ->]; [left|]. cbn.
  destruct IH as [bs ->]; [intros; apply Hf; by right|]. by eexists.
Qed.

Lemma prealloc_threads_bound len : 0 <= len -> 1 <= prealloc_threads len <= 16.
Proof. intros Hl. unfold prealloc_threads. pose proof (Z.shiftr_nonneg len 32). destruct (Z.ltb_spec 16 (Z.shiftr len 32 + 1)); lia. Qed.

Lemma prealloc_ranges_Ret addr len : 0 <= len -> 0 <= addr -> addr + len <= 2 ^ 63 -> exists l, prealloc_ranges addr len = Ret l.
Proof.
  intros Hl Ha Hm. apply mapM_Ret. intros n Hn%elem_of_seq. pose proof (prealloc_threads_bound len Hl) as Ht.
  unfold prealloc_range. rewrite uadd_Ret; [by eexists|]. rewrite Z.shiftr_div_pow2 by lia. change (2 ^ 12) with PAGE_SIZE.
  set (t := prealloc_threads len) in *. pose proof (Z.div_mod len PAGE_SIZE). pose proof (Z.mod_pos_bound len PAGE_SIZE).
  set (np := len / PAGE_SIZE) in *. assert (0 <= np) by (apply Z.div_pos; lia). pose proof (Z.div_mod np t). pose proof (Z.mod_pos_bound np t).
  assert (0 <= np / t) by (apply Z.div_pos; lia). assert (np / t * Z.of_nat n <= np / t * t) by (apply Z.mul_le_mono_nonneg_l; lia). ulia.
Qed.

Lemma twp_for_each {S E A} (P : S -> Prop) (f : A -> eff S E unit) l s :
  P s -> (forall a s, P s -> twp (f a) (fun _ => P) s) -> twp (for_each f l) (fun _ => P) s.
Proof.
  intros Hs Hf. revert s Hs. induction l as [|a l IH]; intros s Hs; cbn [for_each]; [by apply twp_ret|]. apply twp_bind.
  eapply twp_mono; [by apply Hf|]. intros [[]|e] s' Hs'; [by apply IH|done].
Qed.

Lemma thp_spec region addr len (w : world) :
  0 <= len -> 0 <= addr -> addr + len <= 2 ^ 63 ->
  twp (configure_thp_and_prealloc region addr len) (fun _ w' => unmapped w' = unmapped w) w.
Proof.
  intros Hl Ha Hm. unfold configure_thp_and_prealloc. twp_step. apply twp_call. intros [[]|e] h _; [|done].
  case_match; [|by twp_steps]. twp_step. destruct (prealloc_ranges_Ret addr len Hl Ha Hm) as [ranges Er].
  eapply twp_lift; [exact Er|]. apply twp_for_each; [done|]. intros [[st en] pa] w1 Hw. twp_steps. apply twp_call.
  intros [hd|e] h1 _; by twp_steps.
Qed.

Lemma create_mmap_region_spec reg (w : world) :
  region_ok reg -> twp (create_mmap_region reg) (fun _ w' => unmapped w' = unmapped w) w.
Proof.
  intros (Hb & Hs & Hm). unfold create_mmap_region. case_match; [by twp_steps|]. case_match; [by twp_steps|]. twp_step.
  apply (twp_mono _ (fun _ w' => unmapped w' = unmapped w)).
  { destruct (file_offset reg) as [[fd st]|]; [|by twp_steps]. twp_steps. apply twp_call. intros [fd'|e] h _; by twp_steps. }
  intros [file|e] w1 Hw1; [|done]. twp_step. apply twp_call. intros [addr|e] h Ea; [|done]. apply mmap_build_addr in Ea as [Ha Ham].
  twp_step. apply (twp_mono _ (fun _ w' => unmapped w' = unmapped w)).
  { unfold configure_anon_mem. case_match; [|by twp_steps]. apply twp_call. by intros [[]|e] h1 _. }
  intros [[]|e] w2 Hw2; [|done]. twp_step. apply (twp_mono _ (fun _ w' => unmapped w' = unmapped w)).
  { unfold configure_numa. repeat case_match; by twp_steps. }
  intros [[]|e] w3 Hw3; [|done]. twp_step. apply (twp_mono _ (fun _ w' => unmapped w' = unmapped w)).
  { case_match; [|by twp_steps]. eapply twp_mono; [by apply thp_spec; [lia|..]|]. intros; congruence. }
  intros [[]|e] w4 Hw4; [|done]. case_match; by twp_steps.
Qed.

(** ** Addresses and slots *)

Context (GUEST_PHYS_END : Z).
Hypothesis phys_end_width : 2 ^ 36 - 1 <= GUEST_PHYS_END <= 2 ^ 63 - 1.
#[local] Abbreviation MEM_END := (GUEST_MEM_END GUEST_PHYS_END).
#[local] Abbreviation rm_ok := (rm_ok GUEST_PHYS_END).

Definition region_range (r : AddressSpaceRegion) : Range := mkRange (base r) (base r + size r - 1).

Lemma allocate_region_address rm reg :
  rm_ok rm -> region_ok reg ->
  exists o rm', allocate_mem_address rm (with_max (with_min (Constraint_new (size reg)) (base reg)) (base reg + size reg - 1)) = Ret (o, rm') /\
    rm_ok rm' /\ match o with
                 | None => rm' = rm
                 | Some _ => base reg + size reg - 1 <= MEM_END /\ grants rm rm' KMem (region_range reg)
                 end.
Proof.
  intros Hrm (Hb & Hs & Hm). unfold allocate_mem_address.
  destruct (take_ok GUEST_PHYS_END phys_end_width rm KMem (with_max (with_min (Constraint_new (size reg)) (base reg)) (base reg + size reg - 1)))
    as (o & p & E & Hok & Hopt); [done|split_and!; cbn; ulia|].
  cbn in E. rewrite E. cbn. eexists _, _. split; [done|]. split; [done|]. destruct o as [[a b]|]; cbn; [|done].
  destruct Hopt as (Hmeet & _ & Hhi & Hgr). destruct Hmeet as (_ & Hmx & Hmn & Hmx' & _). cbn in *.
  split; [lia|]. unfold region_range. by replace (base reg) with a by lia; replace (a + size reg - 1) with b by lia.
Qed.

Lemma allocate_slot rm :
  rm_ok rm ->
  exists o rm', allocate_kvm_mem_slot rm 1 None = Ret (o, rm') /\ rm_ok rm' /\
    match o with None => rm' = rm | Some slot => grants rm rm' KSlot (mkRange slot slot) end.
Proof.
  intros Hrm. unfold allocate_kvm_mem_slot.
  destruct (take_ok GUEST_PHYS_END phys_end_width rm KSlot (Constraint_new 1)) as (o & p & E & Hok & Hopt); [done|split_and!; cbn; ulia|].
  change (allocate_update (kvm_mem_slot_pool rm) (Constraint_new 1) = Ret (o, p)) in E. rewrite E.
  cbn [mbind outcome_bind]. eexists _, _. split; [done|]. split; [done|]. destruct o as [[a b]|]; cbn [option_map]; [|done].
  destruct Hopt as (Hmeet & Hlo & Hhi & Hgr). destruct Hmeet as (_ & Hmx & _). cbn in Hmx, Hlo, Hhi. cbn [r_min].
  rewrite as_u32_small by ulia. by replace b with a in Hgr by lia.
Qed.

(** The slots that are recorded are taken, and no two regions share one. *)
Record slots_ok (w : world) : Prop := {
  so_held b slot : base_to_slot (w_mgr w) !! b = Some slot -> held_at (w_rm w) (KSlot, mkRange slot slot);
  so_inj b b' slot : base_to_slot (w_mgr w) !! b = Some slot -> base_to_slot (w_mgr w) !! b' = Some slot -> b = b';
}.

(** What adding memory to a machine keeps: everything that is taken stays taken,
    recorded regions stay recorded. *)
Record adds (w w' : world) : Prop := {
  ad_rm : rm_ok (w_rm w) -> rm_ok (w_rm w');
  ad_held c : held_at (w_rm w) c -> held_at (w_rm w') c;
  ad_slots : slots_ok w -> rm_ok (w_rm w) -> slots_ok w';
  ad_recorded b : is_Some (base_to_slot (w_mgr w) !! b) -> is_Some (base_to_slot (w_mgr w') !! b);
  ad_space : address_space (w_mgr w') = address_space (w_mgr w);
}.

Lemma adds_refl w : adds w w.
Proof. by split. Qed.
Lemma adds_trans w1 w2 w3 : adds w1 w2 -> adds w2 w3 -> adds w1 w3.
Proof. intros [A1 A2 A3 A4 A5] [B1 B2 B3 B4 B5]. split; eauto. congruence. Qed.

Lemma adds_same (w w' : world) :
  w_rm w' = w_rm w -> base_to_slot (w_mgr w') = base_to_slot (w_mgr w) -> address_space (w_mgr w') = address_space (w_mgr w) -> adds w w'.
Proof. intros E1 E2 E3. split; rewrite ?E1, ?E2; try done. intros [H1 H2] _. split; rewrite ?E1, ?E2; done. Qed.

(** A grant of addresses changes no slot. *)
Lemma adds_grant (w : world) rm' r : rm_ok rm' -> grants (w_rm w) rm' KMem r -> adds w (put_rm rm' w).
Proof.
  intros Hrm Hg. split; cbn; try done.
  - intros c Hc. eapply grants_held; [done|by right].
  - intros [H1 H2] _. split; [|done]. intros b slot E. eapply grants_held; [done|right; by eapply H1].
Qed.

(** A new slot for a region. *)
Lemma adds_slot (w : world) rm' slot b :
  rm_ok rm' -> grants (w_rm w) rm' KSlot (mkRange slot slot) ->
  adds w (put_mgr (put_slots (<[b := slot]> (base_to_slot (w_mgr w))) (w_mgr w)) (put_rm rm' w)).
Proof.
  intros Hrm Hg.
  assert (rm_ok (w_rm w) -> ~ held_at (w_rm w) (KSlot, mkRange slot slot)) as Hnew.
  { intros Hok Hh. assert (inside slot (mkRange slot slot) = true) as Hin by (apply inside_spec; cbn; lia).
    destruct (held_not_free GUEST_PHYS_END (w_rm w) KSlot _ slot Hok Hh Hin) as (d & Hd & Es).
    assert (covered [(KSlot, mkRange slot slot)] KSlot slot = true) as Hc by (cbn; by rewrite Hin).
    pose proof (grants_free _ _ _ _ KSlot slot Hg Hc) as Hf. rewrite Hf in Es. by injection Es as <-. }
  split; cbn; try done.
  - intros c Hc. eapply grants_held; [done|by right].
  - intros [H1 H2] Hok. specialize (Hnew Hok). split; cbn.
    + intros b' s' [[-> ->]|[_ E]]%lookup_insert_Some; (eapply grants_held; [done|]); [by left|right; by eapply H1].
    + intros b1 b2 s' [[E1 E1']|[_ E1]]%lookup_insert_Some [[E2 E2']|[_ E2]]%lookup_insert_Some; subst; try done.
      * by apply H1 in E2.
      * by apply H1 in E1.
      * by eapply H2.
  - intros b' Hb'. apply lookup_insert_is_Some'. by right.
Qed.

(** ** Adding memory *)

Lemma map_to_kvm_spec reg (mr : R) (w : world) :
  rm_ok (w_rm w) ->
  twp (map_to_kvm reg mr) (fun r w' => rm_ok (w_rm w') /\ match r with
    | Ok _ => adds w w' /\ is_Some (base_to_slot (w_mgr w') !! base reg)
    | Err _ => True
    end) w.
Proof.
  intros Hrm. unfold map_to_kvm. twp_step. destruct (allocate_slot (w_rm w) Hrm) as (o & rm' & E & Hok & Hopt).
  exists (Ok o), (put_rm rm' w). split; [unfold on_rm; by rewrite E|]. destruct o as [slot|]; [|by twp_steps].
  twp_step. apply twp_gets. cbv beta.
  twp_step. apply (twp_mono _ (fun _ w' => exists h, w' = put_ho h (put_rm rm' w))).
  { destruct (vmfd (w_param (put_rm rm' w))); [|twp_steps; exists (w_ho w); by destruct w].
    destruct (region_host_address mr) as [a|]; [|twp_steps; exists (w_ho w); by destruct w].
    apply twp_call. intros r h _. by exists h. }
  intros [[]|e] w' [h ->]; [|done]. twp_steps. cbn. split; [done|]. split; [|by rewrite lookup_insert_eq].
  eapply adds_trans; [by apply (adds_slot w rm' slot (base reg))|]. by apply adds_same.
Qed.

(** A region with memory: its addresses are taken and its slot is recorded. *)
Definition has_memory (w : world) (reg : AddressSpaceRegion) : Prop :=
  base reg + size reg - 1 <= MEM_END /\ held_at (w_rm w) (KMem, region_range reg) /\ is_Some (base_to_slot (w_mgr w) !! base reg).

Lemma adds_memory w w' reg : adds w w' -> has_memory w reg -> has_memory w' reg.
Proof. intros [A1 A2 A3 A4 A5] (H1 & H2 & H3). split_and!; auto. Qed.

Lemma add_guest_memory_spec reg g (w : world) :
  rm_ok (w_rm w) -> region_ok reg ->
  twp (add_guest_memory reg g) (fun r w' => rm_ok (w_rm w') /\ match r with Ok _ => adds w w' /\ has_memory w' reg | Err _ => True end) w.
Proof.
  intros Hrm Hr. pose proof Hr as (Hb & Hs & Hm). unfold add_guest_memory. twp_step.
  eapply (twp_lift _ (base reg + size reg - 1)).
  { unfold region_last_addr. destruct (Z.ltb_spec 0 (size reg)); [|lia]. by destruct (Z.leb_spec (base reg + size reg) u64_max); [|lia]. }
  twp_step. destruct (allocate_region_address (w_rm w) reg Hrm Hr) as (o & rm' & E & Hok & Hopt).
  exists (Ok o), (put_rm rm' w). split; [unfold on_rm; by rewrite E|]. destruct o as [key|]; [|by twp_steps]. destruct Hopt as [Hend Hg].
  twp_step. eapply twp_mono; [by apply create_mmap_region_spec|]. intros r w1 Hw1.
  assert (w_rm w1 = rm' /\ base_to_slot (w_mgr w1) = base_to_slot (w_mgr w) /\ address_space (w_mgr w1) = address_space (w_mgr w)) as (E1 & E2 & E3)
    by (by injection Hw1).
  assert (rm_ok (w_rm w1)) as Hok1 by (by rewrite E1). destruct r as [mr|e]; [|done].
  destruct (guest_memory_insert mr g) as [g'|e]; [|by twp_steps]. twp_step.
  eapply twp_mono; [by apply (map_to_kvm_spec reg mr w1)|]. intros [[]|e] w2 [Hok2 H2]; [|done]. destruct H2 as [Ha Hsl].
  twp_steps. split; [done|].
  assert (adds w w1) as Ha1. { eapply adds_trans; [by apply (adds_grant w rm' (region_range reg))|by apply adds_same]. }
  split; [by eapply adds_trans|]. split; [done|]. split; [|done]. apply (ad_held w1 w2 Ha). rewrite E1. eapply grants_held; [done|by left].
Qed.

Lemma add_guest_memories_spec regs g (w : world) :
  rm_ok (w_rm w) -> Forall region_ok regs ->
  twp (add_guest_memories regs g) (fun r w' => rm_ok (w_rm w') /\ match r with
    | Ok _ => adds w w' /\ Forall (has_memory w') regs
    | Err _ => True
    end) w.
Proof.
  intros Hrm Hregs. revert g w Hrm. induction Hregs as [|reg regs Hr _ IH]; intros g w Hrm; cbn [add_guest_memories].
  { twp_steps. split; [done|]. split; [apply adds_refl|constructor]. }
  twp_step. eapply twp_mono; [by apply add_guest_memory_spec|]. intros [g1|e] w1 [Hok1 H1]; [|done]. destruct H1 as [Ha1 Hm1].
  eapply twp_mono; [by apply IH|]. intros [g2|e] w2 [Hok2 H2]; [|done]. destruct H2 as [Ha2 Hm2].
  split; [done|]. split; [by eapply adds_trans|]. constructor; [by eapply adds_memory|done].
Qed.
End facts.
