(* ===== verification/VirtioDeviceInfo.v ===== *)
(** * What virtio devices share

    Model of [VirtioDeviceInfo] in src/dragonball/dbs_virtio_devices/src/device.rs:
    the features and the configuration space of a device.  Guest memory (crate
    vm_memory) and the queues over it (crate virtio_queue) are parameters: the
    classes at the end say what the devices use of them. *)
From S2P Require Import Prelude Bits InterruptManager.

Inductive ConfigError := InvalidOffset (offset : Z) | PlusOverflow (offset len : Z) | InvalidOffsetPlusDataLen (n : Z).

Record VirtioDeviceInfo := mkDeviceInfo {
  avail_features : Z;
  acked_features : Z;
  queue_sizes : list Z;
  config_space : list Z;
}.

Definition VirtioDeviceInfo_new (avail : Z) (sizes config : list Z) : VirtioDeviceInfo := mkDeviceInfo avail 0 sizes config.

Definition info_get_avail_features (page : Z) (i : VirtioDeviceInfo) : Z :=
  if page =? 0 then as_u32 (avail_features i)
  else if page =? 1 then as_u32 (Z.shiftr (avail_features i) 32)
  else 0.

Definition info_set_acked_features (page value : Z) (i : VirtioDeviceInfo) : VirtioDeviceInfo :=
  let v := if page =? 0 then value else if page =? 1 then Z.shiftl value 32 else 0 in
  let unrequested := Z.land v (unot u64_max (avail_features i)) in
  let v := if unrequested =? 0 then v else Z.land v (unot u64_max unrequested) in
  mkDeviceInfo (avail_features i) (Z.lor (acked_features i) v) (queue_sizes i) (config_space i).

(** The bytes of [data] after the [source] is written over their start. *)
Definition overwrite (data source : list Z) : list Z :=
  take (length data) source ++ drop (length source) data.

(** The slice [from..to] of a vector. *)
Definition slice (l : list Z) (from to : Z) : list Z := take (Z.to_nat (to - from)) (drop (Z.to_nat from) l).

Definition info_read_config (offset : Z) (data : list Z) (i : VirtioDeviceInfo) : result ConfigError (list Z) :=
  let config_len := Z.of_nat (length (config_space i)) in
  if config_len <=? offset then Err (InvalidOffset offset) else
  match checked_add u64_max offset (Z.of_nat (length data)) with
  | Some e => Ok (overwrite data (slice (config_space i) offset (Z.min e config_len)))
  | None => Ok data
  end.

Definition info_write_config (offset : Z) (data : list Z) (i : VirtioDeviceInfo) : result ConfigError VirtioDeviceInfo :=
  let data_len := Z.of_nat (length data) in
  let config_len := Z.of_nat (length (config_space i)) in
  if config_len <=? offset then Err (InvalidOffset offset) else
  match checked_add u64_max offset data_len with
  | None => Err (PlusOverflow offset data_len)
  | Some e =>
      if config_len <? e then Err (InvalidOffsetPlusDataLen e)
      else Ok (mkDeviceInfo (avail_features i) (acked_features i) (queue_sizes i)
                 (take (Z.to_nat offset) (config_space i) ++ data ++ drop (Z.to_nat e) (config_space i)))
  end.

(** [check_queue_sizes]: whether [n] queues are what the device has. *)
Definition check_queue_sizes (n : nat) (i : VirtioDeviceInfo) : bool :=
  negb (Nat.eqb n 0) && Nat.eqb n (length (queue_sizes i)).

(** ** Guest memory and queues *)

(** [read_obj] and [write_obj] of [Bytes]: the bytes of an object at an address. *)
Class GuestMem (M : Type) := {
  mem_read : Z -> nat -> M -> result errno (list Z);
  mem_write : Z -> list Z -> M -> result errno unit * M;
}.

(** A descriptor of a chain. *)
Record Desc := mkDesc { d_addr : Z; d_len : Z; d_write_only : bool }.

(** A queue with its iterator over the available chains, and the chains.  Both
    read guest memory when they advance.  [vq_left] and [ch_left] count what is
    left: an iterator ends at the index that it read at the start, and a chain
    has at most as many descriptors as the queue. *)
Class VirtQueue (Q Ch M : Type) := {
  vq_iter : Q -> M -> result errno Q;
  vq_next : Q -> M -> option (Ch * Q);
  vq_left : Q -> nat;
  ch_head : Ch -> Z;
  ch_next : Ch -> M -> option (Desc * Ch);
  ch_left : Ch -> nat;
  vq_add_used : Z -> Z -> Q -> M -> result errno unit * (Q * M);
}.

Class VirtQueueLaws (Q Ch M : Type) `{VirtQueue Q Ch M} := {
  vq_next_left q m c q' : vq_next q m = Some (c, q') -> (vq_left q' < vq_left q)%nat;
  ch_next_left c m d c' : ch_next c m = Some (d, c') -> (ch_left c' < ch_left c)%nat;
}.

(** ** Features and configuration space *)

(** The features that are acknowledged were offered. *)
Definition features_ok (i : VirtioDeviceInfo) : Prop := Z.land (acked_features i) (unot u64_max (avail_features i)) = 0.

Lemma set_acked_ok page value i : in_u32 value -> features_ok i -> features_ok (info_set_acked_features page value i).
Proof.
  unfold features_ok, info_set_acked_features. intros Hv Hi. cbn. set (v := if page =? 0 then _ else _).
  assert (0 <= v < 2 ^ 64) as Hv64.
  { subst v. repeat case_match; [ulia| |lia]. rewrite Z.shiftl_mul_pow2 by lia. ulia. }
  rewrite Z.land_lor_distr_l, Hi, Z.lor_0_l. apply Z.bits_inj'. intros n Hn. rewrite Z.bits_0.
  case_match eqn:E; [apply Z.eqb_eq in E; by rewrite E, Z.bits_0|].
  rewrite !Z.land_spec, !testbit_unot64, Z.land_spec, testbit_unot64 by done.
  destruct (Z.testbit v n) eqn:Eb; [|done]. destruct (Z.ltb_spec n 64); [by destruct (Z.testbit (avail_features i) n)|].
  by rewrite (testbit_high v 64) in Eb.
Qed.

(** What is written to the configuration space is read back. *)
Lemma write_read_config offset data buffer i i' :
  0 <= offset -> info_write_config offset data i = Ok i' -> length buffer = length data -> data <> [] ->
  info_read_config offset buffer i' = Ok data.
Proof.
  intros Ho. unfold info_write_config, checked_add. destruct (Z.leb_spec (Z.of_nat (length (config_space i))) offset); [done|].
  destruct (Z.leb_spec (offset + Z.of_nat (length data)) u64_max) as [Hmax|]; [|done].
  destruct (Z.ltb_spec (Z.of_nat (length (config_space i))) (offset + Z.of_nat (length data))) as [|He]; [done|].
  intros [= <-] Hl Hd. unfold info_read_config, checked_add. cbn [config_space]. rewrite Hl.
  set (space := take _ _ ++ _ ++ _). assert (length space = length (config_space i)) as ->.
  { subst space. rewrite !length_app, length_take, length_drop. lia. }
  destruct (Z.leb_spec (Z.of_nat (length (config_space i))) offset); [lia|].
  destruct (Z.leb_spec (offset + Z.of_nat (length data)) u64_max); [|lia].
  rewrite Z.min_l by lia. unfold slice. replace (offset + Z.of_nat (length data) - offset) with (Z.of_nat (length data)) by lia.
  rewrite Nat2Z.id. subst space. rewrite drop_app_length' by (rewrite length_take; lia). rewrite take_app_length.
  unfold overwrite. rewrite take_ge, drop_ge, app_nil_r by lia. done.
Qed.
