(* ===== verification/VirtioMem.v ===== *)
(** * The virtio-mem device

    Model of src/dragonball/dbs_virtio_devices/src/mem.rs: a region of guest
    memory in blocks of 4 MiB that the guest plugs and unplugs on request of the
    host.  The device and the handler of its queue share the configuration and
    the table of map regions, parts of 2 GiB that get host memory when they
    become usable; both are fields of one state here.  Host memory, the event
    files and the interrupts are a parameter ([MemHost]). *)
From S2P Require Import Prelude DeviceResources Effects InterruptManager MmioData VirtioDeviceInfo.

Abbreviation VIRTIO_MEM_DEFAULT_BLOCK_SIZE := 0x400000.
Abbreviation VIRTIO_MEM_DEFAULT_BLOCK_ALIGNMENT := 0x8000000.
Abbreviation VIRTIO_MEM_MAP_REGION_SHIFT := 31.
Abbreviation VIRTIO_MEM_MAP_REGION_SIZE := 0x80000000.
Abbreviation VIRTIO_MEM_MAP_REGION_MASK := 0x7fffffff.
Abbreviation MAX_MEMORY_BLOCK_SIZE := 0x80000000.
Abbreviation BOOT_MEM_SIZE_FOR_LARGE_BLOCK := 0x1000000000.
Abbreviation QUEUE_SIZE := 128.
Abbreviation VIRTIO_MEM_RESP_ACK := 0.
Abbreviation VIRTIO_MEM_RESP_NACK := 1.
Abbreviation VIRTIO_MEM_RESP_ERROR := 3.
Abbreviation VIRTIO_MEM_STATE_PLUGGED := 0.
Abbreviation VIRTIO_MEM_STATE_UNPLUGGED := 1.
Abbreviation VIRTIO_MEM_STATE_MIXED := 2.
Abbreviation VIRTIO_MEM_REQ_PLUG := 0.
Abbreviation VIRTIO_MEM_REQ_UNPLUG := 1.
Abbreviation VIRTIO_MEM_REQ_UNPLUG_ALL := 2.
Abbreviation VIRTIO_MEM_REQ_STATE := 3.
Abbreviation VIRTIO_MEM_F_ACPI_PXM := 0.
Abbreviation VIRTIO_F_VERSION_1 := 32.

Inductive MemError :=
| GuestMemoryError (e : errno) | UnexpectedWriteOnlyDescriptor | UnexpectedReadOnlyDescriptor | DescriptorChainTooShort
| DescriptorLengthTooSmall | InvalidRequest | RsizeUsabeRegionFail.

(** The errors of lib.rs that the device answers with. *)
Inductive MemDeviceError :=
| MemInvalidInput | MemInvalidResource | MemIOError (e : errno) | VirtioMemError (e : MemError) | MemNewMmapRegion (e : errno)
| MemMadvise (e : errno) | MemSetUserMemoryRegion (e : errno) | MemInsertMmap (e : errno).

(** A request and the configuration; the padding of both is left out. *)
Record VirtioMemReq := mkMemReq { req_type : Z; req_addr : Z; nb_blocks : Z }.
Record VirtioMemConfig := mkMemConfig {
  block_size : Z;
  node_id : Z;
  mem_addr : Z;
  region_size : Z;
  usable_region_size : Z;
  plugged_size : Z;
  requested_size : Z;
}.

Definition put_usable (v : Z) (c : VirtioMemConfig) : VirtioMemConfig :=
  mkMemConfig (block_size c) (node_id c) (mem_addr c) (region_size c) v (plugged_size c) (requested_size c).
Definition put_plugged (v : Z) (c : VirtioMemConfig) : VirtioMemConfig :=
  mkMemConfig (block_size c) (node_id c) (mem_addr c) (region_size c) (usable_region_size c) v (requested_size c).
Definition put_requested (v : Z) (c : VirtioMemConfig) : VirtioMemConfig :=
  mkMemConfig (block_size c) (node_id c) (mem_addr c) (region_size c) (usable_region_size c) (plugged_size c) v.
Definition put_mem_addr (v : Z) (c : VirtioMemConfig) : VirtioMemConfig :=
  mkMemConfig (block_size c) (node_id c) v (region_size c) (usable_region_size c) (plugged_size c) (requested_size c).

(** [as_slice] of the packed structure. *)
Definition mem_config_bytes (c : VirtioMemConfig) : list Z :=
  le_write 8 (block_size c) ++ le_write 2 (node_id c) ++ repeat 0 6 ++ le_write 8 (mem_addr c) ++ le_write 8 (region_size c)
  ++ le_write 8 (usable_region_size c) ++ le_write 8 (plugged_size c) ++ le_write 8 (requested_size c).

(** The bytes of a request of 24 bytes, and of a response of 10 bytes. *)
Definition mem_req_of_bytes (l : list Z) : VirtioMemReq :=
  mkMemReq (le_read (take 2 l)) (le_read (take 8 (drop 8 l))) (le_read (take 2 (drop 16 l))).
Definition mem_resp_bytes (resp_type state : Z) : list Z := le_write 2 resp_type ++ repeat 0 6 ++ le_write 2 state.

(** The table of map regions: the KVM slot, and the host and guest address when
    the region has memory. *)
Abbreviation MapRegions := (list (Z * option (Z * Z))).

(** The host: [create_region] of [MemRegionFactory] with the host address that
    [get_host_address] answers for the new region, [madvise(MADV_REMOVE)] and
    [fallocate64] (whether they succeed), event files and interrupts. *)
Class MemHost (H : Type) := {
  create_region : Z -> Z -> Z -> H -> result MemDeviceError (option Z) * H;
  madvise_remove : Z -> Z -> H -> bool * H;
  punch_hole : Z -> Z -> Z -> H -> bool * H;
  notify_change : H -> result errno unit * H;
  consume_event : nat -> H -> result errno Z * H;
  notify_queue : nat -> H -> result errno unit * H;
}.

(** [a << k] on 64 bits, and a division. *)
Definition shl64 (a k : Z) : Z := Z.shiftl a k mod 2 ^ 64.
Definition udiv (a b : Z) : outcome Z := if b =? 0 then Panic else Ret (a / b).

(** ** [MemTool] *)

Definition virtio_mem_valid_range (config : VirtioMemConfig) (addr size : Z) : outcome bool :=
  if negb (addr mod block_size config =? 0) || negb (size mod block_size config =? 0) then Ret false else
  match checked_add u64_max addr size with
  | None => Ret false
  | Some e =>
      if size =? 0 then Ret false
      else if addr <? mem_addr config then Ret false
      else
        usable_end ← uadd u64_max (mem_addr config) (usable_region_size config);
        Ret ((addr <? usable_end) && (e <=? usable_end))
  end.

Definition virtio_mem_check_bitmap (bit_index nb : nat) (mem_state : list bool) (plug : bool) : bool :=
  forallb (Bool.eqb plug) (take nb (drop bit_index mem_state)).

Definition virtio_mem_set_bitmap (bit_index nb : nat) (mem_state : list bool) (plug : bool) : list bool :=
  take bit_index mem_state ++ map (fun _ => plug) (take nb (drop bit_index mem_state)) ++ drop (bit_index + nb) mem_state.

Record StateChangeRequest := mkStateChange {
  sc_config : VirtioMemConfig;
  sc_addr : Z;
  sc_size : Z;
  sc_nb_blocks : Z;
  sc_multi_region : bool;
  sc_map_regions : MapRegions;
  sc_host_fd : option Z;
  sc_plug : bool;
}.

Definition StateChangeRequest_new (r : VirtioMemReq) (config : VirtioMemConfig) (multi_region : bool)
    (map_regions : MapRegions) (host_fd : option Z) (plug : bool) : outcome StateChangeRequest :=
  size ← umul u64_max (nb_blocks r) (block_size config);
  Ret (mkStateChange config (req_addr r) size (nb_blocks r) multi_region map_regions host_fd plug).

(** The host address of the blocks of a request, [None] for an error. *)
Definition request_host_addr (r : StateChangeRequest) (offset : Z) : outcome (option Z) :=
  if sc_multi_region r then
    let map_region_index := Z.shiftr offset VIRTIO_MEM_MAP_REGION_SHIFT in
    e ← uadd u64_max offset (sc_size r);
    e ← usub e 1;
    if negb (Z.shiftr e VIRTIO_MEM_MAP_REGION_SHIFT =? map_region_index) then Ret None else
    match at_index (sc_map_regions r) map_region_index with
    | Some (_, Some (host, _)) =>
        h ← uadd u64_max (Z.land offset VIRTIO_MEM_MAP_REGION_MASK) host;
        Ret (Some h)
    | _ => Ret None
    end
  else
    region ← unwrap (at_index (sc_map_regions r) 0);
    match region with
    | (_, Some (host, _)) => h ← uadd u64_max host offset; Ret (Some h)
    | _ => Ret None
    end.

Section device.
Context {H : Type} `{HH : MemHost H}.

(** A request changes the bitmap and the host. *)
#[local] Abbreviation req_eff := (eff (list bool * H) False).

Definition on_host {S E A} (get : S -> H) (put : H -> S -> S) (f : H -> A * H) : eff S E A := fun s =>
  let '(a, h) := f (get s) in Ret (Ok a, put h s).

(** The blocks go back to the host: a hole in the file, if there is one, and the
    pages. *)
Definition release_blocks (r : StateChangeRequest) (offset host_addr : Z) : req_eff bool :=
  punched ← match sc_host_fd r with
            | Some fd => on_host snd (fun h s => (s.1, h)) (punch_hole fd offset (sc_size r))
            | None => mret true
            end;
  if negb (punched : bool) then mret false else
  on_host snd (fun h s => (s.1, h)) (madvise_remove host_addr (sc_size r)).

Definition virtio_mem_state_change_request (r : StateChangeRequest) : req_eff Z :=
  let config := sc_config r in
  too_much ← (if sc_plug r then
                total ← lift_outcome (uadd u64_max (plugged_size config) (sc_size r));
                mret (requested_size config <? total)
              else mret false);
  if (too_much : bool) then mret VIRTIO_MEM_RESP_NACK else
  valid ← lift_outcome (virtio_mem_valid_range config (sc_addr r) (sc_size r));
  if negb (valid : bool) then mret VIRTIO_MEM_RESP_ERROR else
  offset ← lift_outcome (usub (sc_addr r) (mem_addr config));
  bit_index ← lift_outcome (udiv offset (block_size config));
  mem_state ← gets fst;
  if negb (virtio_mem_check_bitmap (Z.to_nat bit_index) (Z.to_nat (sc_nb_blocks r)) mem_state (negb (sc_plug r)))
  then mret VIRTIO_MEM_RESP_ERROR else
  host_addr ← lift_outcome (request_host_addr r offset);
  match host_addr with
  | None => mret VIRTIO_MEM_RESP_ERROR
  | Some host_addr =>
      released ← (if sc_plug r then mret true else release_blocks r offset host_addr);
      if negb (released : bool) then mret VIRTIO_MEM_RESP_ERROR else
      _ ← modify (fun s => (virtio_mem_set_bitmap (Z.to_nat bit_index) (Z.to_nat (sc_nb_blocks r)) s.1 (sc_plug r), s.2));
      mret VIRTIO_MEM_RESP_ACK
  end.

(** The loop of [virtio_mem_unplug_all] over the blocks [xs]. *)
Fixpoint unplug_blocks (config : VirtioMemConfig) (multi_region : bool) (map_regions : MapRegions) (host_fd : option Z)
    (xs : list nat) : req_eff Z :=
  match xs with
  | [] => mret VIRTIO_MEM_RESP_ACK
  | x :: xs' =>
      mem_state ← gets fst;
      plugged ← expect (mem_state !! x);
      if (plugged : bool) then
        offset ← lift_outcome (umul u64_max (Z.of_nat x) (block_size config));
        addr ← lift_outcome (uadd u64_max (mem_addr config) offset);
        resp_type ← virtio_mem_state_change_request
                      (mkStateChange config addr (block_size config) 1 multi_region map_regions host_fd false);
        if negb (resp_type =? VIRTIO_MEM_RESP_ACK) then mret resp_type else
        _ ← modify (fun s => (<[x := false]> s.1, s.2));
        unplug_blocks config multi_region map_regions host_fd xs'
      else unplug_blocks config multi_region map_regions host_fd xs'
  end.

Definition virtio_mem_unplug_all (config : VirtioMemConfig) (multi_region : bool) (map_regions : MapRegions)
    (host_fd : option Z) : req_eff Z :=
  blocks ← lift_outcome (udiv (region_size config) (block_size config));
  unplug_blocks config multi_region map_regions host_fd (seq 0 (Z.to_nat blocks)).

(** The type of the response and the state of the blocks. *)
Definition virtio_mem_state_request (config : VirtioMemConfig) (addr nb : Z) (mem_state : list bool) : outcome (Z * Z) :=
  size ← umul u64_max nb (block_size config);
  valid ← virtio_mem_valid_range config addr size;
  offset ← usub addr (mem_addr config);
  bit_index ← udiv offset (block_size config);
  let check := virtio_mem_check_bitmap (Z.to_nat bit_index) (Z.to_nat nb) mem_state in
  Ret (if (valid : bool) then VIRTIO_MEM_RESP_ACK else VIRTIO_MEM_RESP_ERROR,
       if check true then VIRTIO_MEM_STATE_PLUGGED
       else if check false then VIRTIO_MEM_STATE_UNPLUGGED
       else VIRTIO_MEM_STATE_MIXED).

(** The first index in [first..first + n] without memory. *)
Fixpoint first_unmapped (map_regions : MapRegions) (first n : nat) : outcome (option nat) :=
  match n with
  | O => Ret None
  | S n' =>
      region ← unwrap (map_regions !! first);
      match snd region with None => Ret (Some first) | Some _ => first_unmapped map_regions (S first) n' end
  end.

(** The [n] regions from [first] on get memory at [host_addr] and [guest_addr]. *)
Fixpoint set_mapped (first n : nat) (host_addr guest_addr : Z) (map_regions : MapRegions) : outcome MapRegions :=
  match n with
  | O => Ret map_regions
  | S n' =>
      region ← unwrap (map_regions !! first);
      host' ← uadd u64_max host_addr VIRTIO_MEM_MAP_REGION_SIZE;
      guest' ← uadd u64_max guest_addr VIRTIO_MEM_MAP_REGION_SIZE;
      set_mapped (S first) n' host' guest' (<[first := (fst region, Some (host_addr, guest_addr))]> map_regions)
  end.

(** The configuration, the map regions and the host. *)
#[local] Abbreviation Shared := (VirtioMemConfig * MapRegions * H)%type.

(** The length of the map regions [first..last] together. *)
Definition map_region_len (config : VirtioMemConfig) (regions first last : Z) : outcome Z :=
  let whole := shl64 (last - first) VIRTIO_MEM_MAP_REGION_SHIFT in
  rest ← (if last + 1 =? regions then usub (region_size config) (shl64 last VIRTIO_MEM_MAP_REGION_SHIFT)
          else Ret VIRTIO_MEM_MAP_REGION_SIZE);
  uadd u64_max whole rest.

(** Memory for the regions that become usable. *)
Definition map_new_regions (newsize : Z) : eff Shared MemDeviceError unit :=
  s ← gets id;
  let '(config, map_regions, _) := s in
  let len := Z.of_nat (length map_regions) in
  let clamp i := if len <=? i then usub len 1 else Ret i in
  first_index ← lift_outcome (clamp (Z.shiftr (usable_region_size config) VIRTIO_MEM_MAP_REGION_SHIFT));
  last_index ← lift_outcome (clamp (Z.shiftr newsize VIRTIO_MEM_MAP_REGION_SHIFT));
  unmapped ← lift_outcome (first_unmapped map_regions (Z.to_nat first_index) (Z.to_nat (last_index + 1 - first_index)));
  match unmapped with
  | None => mret tt
  | Some first =>
      guest_addr ← lift_outcome (uadd u64_max (mem_addr config) (shl64 (Z.of_nat first) VIRTIO_MEM_MAP_REGION_SHIFT));
      region_len ← lift_outcome (map_region_len config len (Z.of_nat first) last_index);
      region ← expect (map_regions !! first);
      created ← on_host snd (fun h s => (s.1, h)) (create_region guest_addr region_len (fst region));
      match created with
      | Err e => throw e
      | Ok None => throw (VirtioMemError RsizeUsabeRegionFail)
      | Ok (Some host_addr) =>
          map_regions' ← lift_outcome (set_mapped first (Z.to_nat (last_index + 1 - Z.of_nat first)) host_addr guest_addr map_regions);
          modify (fun s => (s.1.1, map_regions', s.2))
      end
  end.

(** [map_regions] and [factory] are given when [multi_region] is set. *)
Definition virtio_mem_resize_usable_region (can_shrink : bool) (alignment : Z) (multi_region : bool)
    : eff Shared MemDeviceError unit :=
  config ← gets (fun s => s.1.1);
  extent ← lift_outcome (umul u64_max 2 alignment);
  wanted ← lift_outcome (uadd u64_max (requested_size config) extent);
  mask ← lift_outcome (usub (block_size config) 1);
  let newsize := Z.land (Z.min (region_size config) wanted) (unot u64_max mask) in
  let newsize := if requested_size config =? 0 then 0 else newsize in
  _ ← (if (usable_region_size config <? newsize) && multi_region then map_new_regions newsize else mret tt);
  if (newsize <? usable_region_size config) && negb can_shrink then mret tt else
  modify (fun s => (put_usable newsize s.1.1, s.1.2, s.2)).

(** ** The handler of the queue *)

Context {Q Ch M : Type} `{HM : GuestMem M} `{HQ : VirtQueue Q Ch M}.

(** [Request::parse]: the request and the address for the response. *)
Definition Request_parse (c : Ch) (m : M) : result MemError (VirtioMemReq * Z) :=
  match ch_next c m with
  | None => Err DescriptorChainTooShort
  | Some (avail_desc, c) =>
      if d_write_only avail_desc then Err UnexpectedWriteOnlyDescriptor
      else if negb (d_len avail_desc =? 24) then Err InvalidRequest
      else match mem_read (d_addr avail_desc) 24 m with
           | Err e => Err (GuestMemoryError e)
           | Ok bytes =>
               match ch_next c m with
               | None => Err DescriptorChainTooShort
               | Some (status_desc, _) =>
                   if negb (d_write_only status_desc) then Err UnexpectedReadOnlyDescriptor
                   else if d_len status_desc <? 10 then Err DescriptorLengthTooSmall
                   else Ok (mem_req_of_bytes bytes, d_addr status_desc)
               end
           end
  end.

(** The handler; its bitmap [mem_state] is the field [w_bits] below. *)
Record MemEpollHandler := mkMemHandler { h_queues : list Q; h_multi_region : bool; h_host_fd : option Z }.

Record MemWorld := mkMemWorld { w_config : VirtioMemConfig; w_regions : MapRegions; w_host : H; w_bits : list bool; w_mem : M }.
#[local] Abbreviation mem_eff := (eff MemWorld False).

Definition put_w_config (c : VirtioMemConfig) (w : MemWorld) : MemWorld := mkMemWorld c (w_regions w) (w_host w) (w_bits w) (w_mem w).
Definition put_w_mem (m : M) (w : MemWorld) : MemWorld := mkMemWorld (w_config w) (w_regions w) (w_host w) (w_bits w) m.
Definition put_w_host (h : H) (w : MemWorld) : MemWorld := mkMemWorld (w_config w) (w_regions w) h (w_bits w) (w_mem w).

(** A method of [MemTool] on the bitmap and the host. *)
Definition on_bits {A} (m : eff (list bool * H) False A) : mem_eff A :=
  zoom (fun w => (w_bits w, w_host w)) (fun t w => mkMemWorld (w_config w) (w_regions w) t.2 t.1 (w_mem w)) m.

(** The number of bytes written to the response. *)
Definition send_response (status_addr resp_type state : Z) : mem_eff Z := fun w =>
  let '(r, m) := mem_write status_addr (mem_resp_bytes resp_type state) (w_mem w) in
  Ret (Ok (match r with Ok _ => 10 | Err _ => 0 end), put_w_mem m w).

(** A plug or unplug request. *)
Definition process_state_change (multi_region : bool) (host_fd : option Z) (r : VirtioMemReq) (plug : bool) : mem_eff Z :=
  w ← gets id;
  request ← lift_outcome (StateChangeRequest_new r (w_config w) multi_region (w_regions w) host_fd plug);
  resp_type ← on_bits (virtio_mem_state_change_request request);
  _ ← (if resp_type =? VIRTIO_MEM_RESP_ACK then
         let config := w_config w in
         plugged ← lift_outcome (if plug then uadd u64_max (plugged_size config) (sc_size request)
                                 else usub (plugged_size config) (sc_size request));
         modify (fun w => put_w_config (put_plugged plugged (w_config w)) w)
       else mret tt);
  mret resp_type.

(** One request of the queue, with the length for the used ring. *)
Definition process_request (multi_region : bool) (host_fd : option Z) (p : result MemError (VirtioMemReq * Z)) : mem_eff Z :=
  match p with
  | Err _ => mret 0
  | Ok (r, status_addr) =>
      if req_type r =? VIRTIO_MEM_REQ_PLUG then
        resp_type ← process_state_change multi_region host_fd r true;
        send_response status_addr resp_type 0
      else if req_type r =? VIRTIO_MEM_REQ_UNPLUG then
        resp_type ← process_state_change multi_region host_fd r false;
        send_response status_addr resp_type 0
      else if req_type r =? VIRTIO_MEM_REQ_UNPLUG_ALL then
        w ← gets id;
        resp_type ← on_bits (virtio_mem_unplug_all (w_config w) multi_region (w_regions w) host_fd);
        _ ← (if resp_type =? VIRTIO_MEM_RESP_ACK then modify (fun w => put_w_config (put_plugged 0 (w_config w)) w) else mret tt);
        send_response status_addr resp_type 0
      else if req_type r =? VIRTIO_MEM_REQ_STATE then
        w ← gets id;
        '(resp_type, resp_state) ← lift_outcome (virtio_mem_state_request (w_config w) (req_addr r) (nb_blocks r) (w_bits w));
        send_response status_addr resp_type resp_state
      else mret 0
  end.

(** The requests of the queue one after another; [fuel] bounds the iterator. *)
Fixpoint process_requests (fuel : nat) (multi_region : bool) (host_fd : option Z) (q : Q) (used : list (Z * Z))
    : mem_eff (Q * list (Z * Z)) :=
  match fuel with
  | O => panic
  | S fuel' =>
      w ← gets id;
      match vq_next q (w_mem w) with
      | None => mret (q, used)
      | Some (c, q) =>
          len ← process_request multi_region host_fd (Request_parse c (w_mem w));
          process_requests fuel' multi_region host_fd q (used ++ [(ch_head c, len)])
      end
  end.

(** [VirtioQueueConfig::add_used] panics when the queue refuses the index. *)
Fixpoint add_used_all (used : list (Z * Z)) (q : Q) : mem_eff Q :=
  match used with
  | [] => mret q
  | (index, len) :: used' =>
      w ← gets id;
      match vq_add_used index len q (w_mem w) with
      | (Ok _, (q, m)) => _ ← modify (put_w_mem m); add_used_all used' q
      | (Err _, _) => panic
      end
  end.

(** [process_queue]: the queue afterwards and whether it had requests. *)
Definition process_queue (multi_region : bool) (host_fd : option Z) (q : Q) : mem_eff (Q * bool) :=
  w ← gets id;
  match vq_iter q (w_mem w) with
  | Err _ => mret (q, false)
  | Ok q =>
      '(q, used) ← process_requests (S (vq_left q)) multi_region host_fd q [];
      q ← add_used_all used q;
      mret (q, match used with [] => false | _ => true end)
  end.

(** [MutEventSubscriber::process] for the event of queue [idx]. *)
Definition process_event (idx : nat) (handler : MemEpollHandler) : mem_eff MemEpollHandler :=
  match h_queues handler !! idx with
  | None => mret handler
  | Some q =>
      consumed ← on_host w_host put_w_host (consume_event idx);
      match consumed with
      | Err _ => mret handler
      | Ok _ =>
          '(q, any) ← process_queue (h_multi_region handler) (h_host_fd handler) q;
          _ ← (if any : bool then on_host w_host put_w_host (notify_queue idx) else mret (Ok tt));
          mret (mkMemHandler (<[idx := q]> (h_queues handler)) (h_multi_region handler) (h_host_fd handler))
      end
  end.

(** ** The device *)

Definition get_map_regions_num (size : Z) : Z :=
  Z.shiftr size VIRTIO_MEM_MAP_REGION_SHIFT + Z.b2z (0 <? Z.land size VIRTIO_MEM_MAP_REGION_MASK).

(** The device without what it shares with the handler.  [subscribed] is the
    handler that the event manager has. *)
Record Mem := mkMem {
  mem_info : VirtioDeviceInfo;
  capacity : Z;
  mem_host_fd : option Z;
  mem_alignment : Z;
  mem_state_map : option (list bool);
  mem_multi_region : bool;
  subscribed : option MemEpollHandler;
}.

(** The halving of the block size until it divides the memory, from 2 GiB to
    128 MiB. *)
Fixpoint probe_block_size (n : nat) (boot_mem_byte bz : Z) : Z :=
  match n with
  | O => bz
  | S n' =>
      if VIRTIO_MEM_DEFAULT_BLOCK_ALIGNMENT <? bz then
        if Z.land boot_mem_byte (bz - 1) =? 0 then bz else probe_block_size n' boot_mem_byte (Z.shiftr bz 1)
      else bz
  end.

Definition block_alignment (boot_mem_byte : Z) : Z :=
  if boot_mem_byte <? BOOT_MEM_SIZE_FOR_LARGE_BLOCK then VIRTIO_MEM_DEFAULT_BLOCK_ALIGNMENT
  else probe_block_size 5 boot_mem_byte MAX_MEMORY_BLOCK_SIZE.

Definition mib (n : Z) : outcome Z := k ← umul u64_max n 1024; umul u64_max k 1024.

(** [Mem::new]: the device and its configuration. *)
Definition Mem_new (capacity_mib requested_size_mib : Z) (multi_region : bool) (numa_node_id : option Z) (boot_mem_byte : Z)
    : outcome (result MemDeviceError (Mem * VirtioMemConfig)) :=
  let alignment := block_alignment boot_mem_byte in
  cap ← mib capacity_mib;
  usable_extent ← umul u64_max 2 alignment;
  cap ← uadd u64_max cap usable_extent;
  cap ← usub cap 1;
  let cap := Z.land cap (unot u64_max (usable_extent - 1)) in
  requested ← mib requested_size_mib;
  if (cap =? 0) || (cap <? requested) || negb (requested mod VIRTIO_MEM_DEFAULT_BLOCK_SIZE =? 0) then Ret (Err MemInvalidInput) else
  let config := mkMemConfig VIRTIO_MEM_DEFAULT_BLOCK_SIZE (default 0 numa_node_id) 0 cap 0 0 requested in
  let features := Z.shiftl 1 VIRTIO_F_VERSION_1 in
  let features := match numa_node_id with Some _ => Z.lor features (Z.shiftl 1 VIRTIO_MEM_F_ACPI_PXM) | None => features end in
  let multi_region := multi_region && (VIRTIO_MEM_MAP_REGION_SIZE <? cap) in
  Ret (Ok (mkMem (VirtioDeviceInfo_new features [QUEUE_SIZE] (mem_config_bytes config)) cap None alignment None multi_region None,
           config)).

#[local] Abbreviation sys_eff := (eff (Mem * MemWorld) MemDeviceError).

(** A method on the configuration, the map regions and the host. *)
Definition on_shared {A} (m : eff (VirtioMemConfig * MapRegions * H) MemDeviceError A) : sys_eff A :=
  zoom (fun s => (w_config s.2, w_regions s.2, w_host s.2))
    (fun t s => (s.1, mkMemWorld t.1.1 t.1.2 t.2 (w_bits s.2) (w_mem s.2))) m.

Definition set_requested_size (requested_size_mb : Z) : sys_eff unit :=
  requested ← lift_outcome (mib requested_size_mb);
  d ← gets fst;
  if (capacity d <? requested) || negb (requested mod VIRTIO_MEM_DEFAULT_BLOCK_SIZE =? 0) then throw MemInvalidInput else
  _ ← modify (fun s => (s.1, put_w_config (put_requested requested (w_config s.2)) s.2));
  _ ← on_shared (virtio_mem_resize_usable_region false (mem_alignment d) (mem_multi_region d));
  notified ← on_host (fun s => w_host s.2) (fun h s => (s.1, put_w_host h s.2)) notify_change;
  match notified with Err e => throw (MemIOError e) | Ok _ => mret tt end.

Definition mem_read_config (offset : Z) (data : list Z) (config : VirtioMemConfig) : list Z :=
  let space := mem_config_bytes config in
  let config_len := Z.of_nat (length space) in
  if config_len <=? offset then data else
  match checked_add u64_max offset (Z.of_nat (length data)) with
  | Some e => overwrite data (slice space offset (Z.min e config_len))
  | None => data
  end.

(** The slots that the device needs. *)
Definition slot_num (d : Mem) (config : VirtioMemConfig) : Z :=
  if mem_multi_region d then get_map_regions_num (region_size config) else 1.

(** The transports activate a device once and again only after a reset that
    succeeds, which this device does not implement: there is one handler at most. *)
Definition mem_activate (queues : list Q) (s : Mem * MemWorld) : outcome (result ActivateError unit * (Mem * MemWorld)) :=
  let '(d, w) := s in
  if negb (Nat.eqb (length queues) 1) || negb (check_queue_sizes (length queues) (mem_info d)) then Ret (Err InvalidParam, s) else
  if negb (Z.of_nat (length (w_regions w)) =? slot_num d (w_config w)) then Ret (Err InternalError, s) else
  blocks ← udiv (region_size (w_config w)) (block_size (w_config w));
  let bits := default (repeat false (Z.to_nat blocks)) (mem_state_map d) in
  Ret (Ok tt,
       (mkMem (mem_info d) (capacity d) (mem_host_fd d) (mem_alignment d) None (mem_multi_region d)
          (Some (mkMemHandler queues (mem_multi_region d) (mem_host_fd d))),
        mkMemWorld (w_config w) (w_regions w) (w_host w) bits (w_mem w))).

Definition mem_remove (d : Mem) : Mem :=
  mkMem (mem_info d) (capacity d) (mem_host_fd d) (mem_alignment d) (mem_state_map d) (mem_multi_region d) None.

Definition mem_get_resource_requirements (use_generic_irq : bool) (d : Mem) (config : VirtioMemConfig) : list ResourceConstraint :=
  [RC_LegacyIrq None]
  ++ (if use_generic_irq then [RC_GenericIrq (as_u32 (Z.of_nat (length (queue_sizes (mem_info d)) + 1)))] else [])
  ++ [RC_MemAddress None (mem_alignment d) (region_size config)]
  ++ repeat (RC_KvmMemSlot None 1) (Z.to_nat (slot_num d config)).

(** The table of map regions when there is none yet: empty entries for the slots,
    or one region with memory. *)
Definition set_map_regions (multi_region : bool) (slots : list Z) : eff (VirtioMemConfig * MapRegions * H) MemDeviceError unit :=
  s ← gets id;
  let '(config, map_regions, _) := s in
  match map_regions with
  | _ :: _ => mret tt
  | [] =>
      if multi_region then modify (fun s => (s.1.1, map (fun slot => (slot, None)) slots, s.2)) else
      slot ← expect (slots !! 0%nat);
      created ← on_host snd (fun h s => (s.1, h)) (create_region (mem_addr config) (region_size config) slot);
      match created with
      | Err e => throw e
      | Ok o =>
          host_addr ← expect o;
          modify (fun s => (s.1.1, [(slot, Some (host_addr, mem_addr config))], s.2))
      end
  end.

Definition mem_set_resource (resource : DeviceResources) : sys_eff unit :=
  s ← gets id;
  let '(d, w) := s in
  let mem_res := get_mem_address_ranges resource in
  let slot_res := get_kvm_mem_slots resource in
  match mem_res with
  | [] => throw MemInvalidResource
  | (base, size) :: _ =>
      if negb (Z.of_nat (length slot_res) =? slot_num d (w_config w)) || negb (Nat.eqb (length mem_res) 1)
         || negb (size =? region_size (w_config w))
      then throw MemInvalidResource else
      _ ← modify (fun s => (s.1, put_w_config (put_mem_addr base (w_config s.2)) s.2));
      _ ← on_shared (set_map_regions (mem_multi_region d) slot_res);
      on_shared (virtio_mem_resize_usable_region false (mem_alignment d) (mem_multi_region d))
  end.

(** The event of queue [idx] reaches the handler that is subscribed. *)
Definition mem_event (idx : nat) (s : Mem * MemWorld) : outcome (Mem * MemWorld) :=
  let '(d, w) := s in
  match subscribed d with
  | None => Ret s
  | Some handler =>
      match process_event idx handler w with
      | Ret (Ok handler, w) =>
          Ret (mkMem (mem_info d) (capacity d) (mem_host_fd d) (mem_alignment d) (mem_state_map d) (mem_multi_region d)
                 (Some handler), w)
      | Ret (Err e, _) => match e with end
      | Panic => Panic
      end
  end.
End device.

Arguments Mem : clear implicits.
Arguments MemWorld : clear implicits.
Arguments MemEpollHandler : clear implicits.
