(* ===== verification/MemFactory.v ===== *)
(** * The region factory of memory devices

    Model of the [MemoryRegionFactory] of
    src/dragonball/src/device_manager/mem_dev_mgr.rs, with which a virtio-mem
    device gets host memory: a region is created, mapped, given to KVM, and added
    to the guest memory and to the address space of the virtual machine. *)
From stdpp Require Import strings pretty gmap.
From S2P Require Import Prelude Effects InterruptManager IntervalTree DeviceResources ResourceManager MmioData VirtioDeviceInfo VirtioMem AddressSpace AddressSpaceMgr.

Section factory.
Context {Ho R G : Type} `{HF : MemFiles Ho} `{HV : VmmHost Ho} `{HG : GuestMemoryOps R G} `{HS : UnstableSort}.

(** What stays the same: the names of the device and of the virtual machine, the
    memory configuration, and the host node. *)
Record MemoryRegionFactory := mkFactory {
  f_mem_id : string;
  f_instance_id : string;
  f_mem_type : string;
  f_mem_file_path : string;
  f_host_numa_node_id : option Z;
}.

(** What it changes. *)
Record FactoryWorld := mkFactoryWorld { f_vm_as : G; f_space : AddressSpaceBase; f_host : Ho }.
#[local] Abbreviation fac_eff := (eff FactoryWorld MemDeviceError).

Definition put_f_host (h : Ho) (w : FactoryWorld) : FactoryWorld := mkFactoryWorld (f_vm_as w) (f_space w) h.
#[local] Abbreviation fac_call err f := (call (E := MemDeviceError) f_host put_f_host err f : fac_eff _).

Definition mem_file_name (f : MemoryRegionFactory) : string :=
  String.append (f_mem_file_path f)
    (String.append "/virtiomem_" (String.append (f_instance_id f) (String.append "_" (f_mem_id f)))).

Definition factory_configure_thp (addr len : Z) : fac_eff unit := fac_call MemMadvise (madvise addr len MADV_HUGEPAGE).

Definition factory_configure_numa (addr len node_id : Z) : fac_eff unit :=
  if 64 <=? node_id then throw MemInvalidInput
  else modify (fun w => put_f_host (mbind addr len (Z.shiftl 1 node_id) (f_host w)) w).

Definition factory_map_to_kvm (slot : Z) (reg : AddressSpaceRegion) (addr : Z) : fac_eff unit :=
  fac_call MemSetUserMemoryRegion (set_user_memory_region slot (base reg) (size reg) addr).

Definition factory_create_region (f : MemoryRegionFactory) (guest_addr region_len kvm_slot : Z) : fac_eff R :=
  region ← zoom f_host put_f_host (map_err (fun _ => MemIOError EOTHER)
             (create_default_memory_region guest_addr region_len (f_host_numa_node_id f) (f_mem_type f) (mem_file_name f) false true));
  addr ← fac_call MemNewMmapRegion (mmap_build (file_offset region) region_len (prot_flags region) (perm_flags region));
  _ ← (if String.eqb (f_mem_type f) "hugeanon" || String.eqb (f_mem_type f) "hugeshmem" then factory_configure_thp addr region_len
       else mret tt);
  _ ← match f_host_numa_node_id f with
      | Some node_id => factory_configure_numa addr region_len node_id
      | None => mret tt
      end;
  _ ← factory_map_to_kvm kvm_slot region addr;
  match guest_region_new addr region_len guest_addr with
  | Err e => throw (MemInsertMmap e)
  | Ok memory_region =>
      w ← gets id;
      match guest_memory_insert memory_region (f_vm_as w) with
      | Err e => throw (MemInsertMmap e)
      | Ok vm_as =>
          _ ← modify (fun w => mkFactoryWorld vm_as (f_space w) (f_host w));
          '(res, space) ← lift_outcome (insert_region region (f_space w));
          match res with
          | Ok _ => _ ← modify (fun w => mkFactoryWorld (f_vm_as w) space (f_host w)); mret memory_region
          | Err _ => throw (MemIOError EOTHER)
          end
      end
  end.
End factory.

Arguments FactoryWorld : clear implicits.
