(* ===== verification/AddressSpaceMgrProps.v ===== *)
(** * Properties of the address space manager

    The memory of a virtual machine, its addresses and its KVM slots agree after
    construction, addresses handed out later can be inserted, and a region that
    cannot be plugged. *)
From stdpp Require Import strings pretty gmap sorting.
From S2P Require Import Prelude Effects InterruptManager IntervalTree IntervalTreeFacts IntervalTreeAlloc DeviceResources ResourceManager ResourceManagerFacts ResourceManagerGrants.
From S2P Require Import MmioData VirtioDeviceInfo VirtioMem AddressSpace AddressSpaceProps AddressSpaceMgr AddressSpaceMgrFacts MemFactory.

Section props.
Context {Ho R G : Type} `{HF : MemFiles Ho} `{HV : VmmHost Ho} `{!VmmHostLaws Ho} `{HG : GuestMemoryOps R G} `{HS : UnstableSort} `{!UnstableSortLaws}.
Context (GUEST_PHYS_END USABLE_END : Z).
Hypothesis phys_end_width : 2 ^ 36 - 1 <= GUEST_PHYS_END <= 2 ^ 63 - 1.
#[local] Abbreviation MEM_END := (GUEST_MEM_END GUEST_PHYS_END).
#[local] Abbreviation rm_ok := (rm_ok GUEST_PHYS_END).
#[local] Abbreviation machine_layout := (layout_new USABLE_END GUEST_PHYS_END GUEST_MEM_START MEM_END).

Lemma memory_valid reg :
  region_ok reg -> ty reg = DefaultMemory -> base reg + size reg <= MEM_END -> is_region_valid machine_layout reg = true.
Proof.
  intros (Hb & Hs & Hm) Ht He. unfold is_region_valid, checked_add. rewrite Ht. cbn [layout_new mem_start mem_end].
  destruct (Z.leb_spec (base reg + size reg) u64_max); [|lia]. change GUEST_MEM_START with 0.
  destruct (Z.ltb_spec (base reg) 0); [lia|]. by destruct (Z.ltb_spec MEM_END (base reg + size reg)); [lia|].
Qed.

(** What construction does. *)
Lemma create_address_space_spec infos (w : AsmWorld Ho G) :
  rm_ok (w_rm w) -> base_to_slot (w_mgr w) = ∅ -> Forall (fun i => 0 < nri_size i) infos ->
  2 ^ 32 + total_bytes infos <= 2 ^ 62 -> memory_end 0 infos <> MEM_END + 1 -> index_room (2 * Z.of_nat (length infos)) w ->
  twp (create_address_space GUEST_PHYS_END USABLE_END infos) (fun r w' => rm_ok (w_rm w') /\ match r with
    | Ok _ => exists b, address_space (w_mgr w') = Some b /\ space_layout b = machine_layout /\ space_ok b /\
        total_size (regions b) = total_bytes infos /\ slots_ok w' /\
        forall reg, reg ∈ regions b -> ty reg = DefaultMemory /\ clear_of_hole reg /\ has_memory GUEST_PHYS_END w' reg
    | Err _ => True
    end) w.
Proof.
  intros Hrm Hslots Hpos Hfit Hend Hi.
  unfold create_address_space. change GUEST_MEM_START with 0. twp_step.
  eapply twp_mono; [apply create_numa_regions_spec; [by split; [|left]|done|lia|done]|].
  intros r w1 [Hu Hr]. assert (w_rm w1 = w_rm w /\ base_to_slot (w_mgr w1) = ∅) as [Erm Esl].
  { unfold unlaid in Hu. split; [congruence|]. rewrite <- Hslots. by injection Hu. }
  destruct r as [regs|e]; [|by rewrite Erm]. destruct Hr as (Hl & Ht & He).
  destruct (laid_out_regions _ _ _ Hl) as (H1 & H2 & H3 & H4). pose proof (laid_out_below _ _ _ Hl) as H5.
  twp_step. eapply twp_mono; [apply (add_guest_memories_spec GUEST_PHYS_END phys_end_width); [by rewrite Erm|done]|].
  intros [g|er] w2 [Hok2 Hm2]; [|done]. destruct Hm2 as [Ha Hmem].
  assert (from_regions regs (layout_new USABLE_END GUEST_PHYS_END 0 MEM_END) = Ret (mkBase (sort_by_base regs) machine_layout) /\
          space_ok (mkBase (sort_by_base regs) machine_layout)) as [Ef Hsp].
  { destruct (from_regions_spec regs machine_layout H1) as [?|[_ []]]; [done|]. split; [|done].
    apply Forall_forall. intros reg Hreg. rewrite !Forall_forall in *. apply memory_valid; auto. specialize (H5 reg Hreg). cbn in H5.
    destruct He as [-> |(q & Hq & Eq)%Exists_exists]; [|destruct (Hmem q Hq) as [Hme _]; lia].
    cbn in *. destruct regs; [by apply elem_of_nil in Hreg|]. destruct (H1 _ Hreg) as (Hb0 & Hs0 & _). lia. }
  twp_step. eapply twp_lift; [exact Ef|]. twp_steps. split; [done|]. eexists. split; [done|]. cbn [regions space_layout w_mgr put_mgr put_spaces].
  split; [done|]. split; [done|]. split; [rewrite <- Ht; by apply total_size_perm, sort_perm|]. split.
  - assert (slots_ok w2) as [S1 S2]; [|by split].
    apply (ad_slots _ _ _ Ha); [|by rewrite Erm]. split; rewrite Esl; intros *; by rewrite lookup_empty.
  - intros reg Hreg. rewrite sort_perm in Hreg. rewrite !Forall_forall in *. split_and!; [by apply H2|by apply H3|by apply Hmem].
Qed.

(** C9: The creation of the address space of a virtual machine returns for every
    configuration of non-empty NUMA regions, of at most 2^62 - 2^32 bytes together,
    while the memory index does not overflow, unless the memory ends exactly with
    the last guest memory address (when it panics, see [full_guest_memory_panics]).
    When it succeeds, the address space consists of non-overlapping memory regions
    that avoid the MMIO hole and hold together exactly the configured memory; the addresses of each region are taken in the resource
    manager, and each region has a KVM slot of its own. *)
Theorem guest_memory_laid_out infos (w : AsmWorld Ho G) :
  rm_ok (w_rm w) -> base_to_slot (w_mgr w) = ∅ -> Forall (fun i => 0 < nri_size i) infos ->
  2 ^ 32 + total_bytes infos <= 2 ^ 62 -> memory_end 0 infos <> MEM_END + 1 -> index_room (2 * Z.of_nat (length infos)) w ->
  exists r w', create_address_space GUEST_PHYS_END USABLE_END infos w = Ret (r, w') /\ rm_ok (w_rm w') /\
    match r with
    | Ok _ => exists b, address_space (w_mgr w') = Some b /\ space_layout b = machine_layout /\ space_ok b /\
        total_size (regions b) = total_bytes infos /\ slots_ok w' /\
        forall reg, reg ∈ regions b -> ty reg = DefaultMemory /\ clear_of_hole reg /\ has_memory GUEST_PHYS_END w' reg
    | Err _ => True
    end.
Proof. apply create_address_space_spec. Qed.

(** C31: Memory addresses that the resource manager hands out later can be inserted
    into the address space: when the addresses of all its regions are taken, a
    memory region at a newly allocated address that ends below the last guest
    memory address is accepted, and the addresses of all regions are taken
    again. *)
Theorem allocated_memory_insertable rm b c a rm' reg :
  rm_ok rm -> space_ok b -> space_layout b = machine_layout ->
  Forall (fun r => held_at rm (KMem, region_range r)) (regions b) ->
  c_ok c -> allocate_mem_address rm c = Ret (Some a, rm') ->
  base reg = a -> size reg = c_size c -> ty reg = DefaultMemory -> a + c_size c <= MEM_END ->
  exists b', insert_region reg b = Ret (Ok tt, b') /\ regions b' ≡ₚ reg :: regions b /\ space_ok b' /\ rm_ok rm' /\
    Forall (fun r => held_at rm' (KMem, region_range r)) (regions b').
Proof.
  intros Hrm Hb Hlay Hheld Hc Ea Hbase Hsize Hty Hend. unfold allocate_mem_address in Ea. pose proof (mem_end_bound GUEST_PHYS_END phys_end_width) as Hme.
  destruct (take_ok GUEST_PHYS_END phys_end_width rm KMem c Hrm Hc) as (o & p & E & Hok & Hopt).
  change (it_allocate (mem_pool rm) c = Ret (o, p)) in E. rewrite E in Ea. cbn [mbind outcome_bind] in Ea.
  destruct o as [[ra rb]|]; [|done]. injection Ea as Ea <-. destruct Hopt as ((Hpos & Hmx & _) & Hlo & Hhi & Hg). cbn in Hmx, Hlo, Hhi, Ea.
  assert (region_range reg = mkRange ra rb) as Er by (unfold region_range; f_equal; lia).
  assert (region_ok reg) as Hr by (unfold region_ok; ulia).
  assert (Forall (apart reg) (regions b)) as Hap.
  { apply Forall_forall. intros q Hq. rewrite Forall_forall in Hheld. pose proof (sp_regions _ Hb) as Hrs. rewrite Forall_forall in Hrs.
    destruct (Hrs q Hq) as (Hq1 & Hq2 & Hq3). unfold apart.
    destruct (decide (base reg + size reg <= base q \/ base q + size q <= base reg)) as [|Hn]; [done|]. exfalso.
    set (x := Z.max (base reg) (base q)). assert (inside x (region_range q) = true) as Hin by (apply inside_spec; cbn; lia).
    destruct (held_not_free GUEST_PHYS_END rm KMem (region_range q) x Hrm (Hheld q Hq) Hin) as (dd & Hd & Es).
    assert (covered [(KMem, mkRange ra rb)] KMem x = true) as Hcov.
    { cbn. rewrite orb_false_r. rewrite bool_decide_true by done. apply inside_spec. cbn. lia. }
    pose proof (grants_free _ _ _ _ KMem x Hg Hcov) as Hf. rewrite Hf in Es. by injection Es as <-. }
  destruct (insert_region_eq reg b Hb Hr) as [(_ & b' & Ei & Hp & Hl' & Hsp)|[Hni _]].
  - exists b'. split_and!; [done..|]. rewrite Hp. constructor; [rewrite Er; eapply grants_held; [done|by left]|].
    eapply Forall_impl; [exact Hheld|]. intros q Hq. eapply grants_held; [done|by right].
  - exfalso. apply Hni. split; [|done]. rewrite Hlay. apply memory_valid; [done|done|lia].
Qed.
End props.

(** ** Plugged memory *)

Section factory.
Context {Ho R G : Type} `{HF : MemFiles Ho} `{HV : VmmHost Ho} `{HG : GuestMemoryOps R G} `{HS : UnstableSort} `{!UnstableSortLaws}.

(** The guest memory and the address space, without the host. *)
Definition machine_memory (w : FactoryWorld Ho G) : G * AddressSpaceBase := (f_vm_as w, f_space w).

(** Memory for a virtio-mem device is added to the guest memory and to the
    address space together, or, when a step fails, to neither, with one exception:
    a region that the address space refuses is already in the guest memory, and
    known to KVM, when the call fails.  The call never panics. *)
Theorem factory_outcomes f addr len slot (w : FactoryWorld Ho G) :
  space_ok (f_space w) -> 0 <= addr -> 0 < len -> addr + len <= u64_max ->
  exists r w', factory_create_region f addr len slot w = Ret (r, w') /\ space_ok (f_space w') /\
    match r with
    | Ok mr => guest_memory_insert mr (f_vm_as w) = Ok (f_vm_as w') /\
        exists reg, base reg = addr /\ size reg = len /\ insertable (f_space w) reg /\ regions (f_space w') ≡ₚ reg :: regions (f_space w)
    | Err e => machine_memory w' = machine_memory w \/
        (f_space w' = f_space w /\ exists mr reg, guest_memory_insert mr (f_vm_as w) = Ok (f_vm_as w') /\
           base reg = addr /\ size reg = len /\ ~ insertable (f_space w) reg)
    end.
Proof.
  intros Hsp Ha Hlen Hm.
  change (twp (factory_create_region f addr len slot) (fun r w' => space_ok (f_space w') /\ match r with
    | Ok mr => guest_memory_insert mr (f_vm_as w) = Ok (f_vm_as w') /\
        exists reg, base reg = addr /\ size reg = len /\ insertable (f_space w) reg /\ regions (f_space w') ≡ₚ reg :: regions (f_space w)
    | Err e => machine_memory w' = machine_memory w \/
        (f_space w' = f_space w /\ exists mr reg, guest_memory_insert mr (f_vm_as w) = Ok (f_vm_as w') /\
           base reg = addr /\ size reg = len /\ ~ insertable (f_space w) reg) end) w).
  unfold factory_create_region. twp_steps. eapply twp_mono; [apply create_region_shape|].
  intros [reg|e] h Hr; [|split; [done|by left]]. destruct Hr as (Eb & Es & Et & _).
  assert (region_ok reg) as Hrok by (unfold region_ok; lia).
  twp_step. apply twp_call. intros [a|e] h1 _; [|split; [done|by left]].
  twp_step. apply (twp_mono _ (fun _ w' => machine_memory w' = machine_memory w)).
  { unfold factory_configure_thp. case_match; [apply twp_call; by intros [[]|e] h2 _|by twp_steps]. }
  intros [[]|e] w2 Hw2; [|split; [by injection Hw2 as _ ->|by left]].
  twp_step. apply (twp_mono _ (fun _ w' => machine_memory w' = machine_memory w)).
  { unfold factory_configure_numa. repeat case_match; by twp_steps. }
  intros [[]|e] w3 Hw3; [|split; [by injection Hw3 as _ ->|by left]].
  twp_step. apply (twp_mono _ (fun _ w' => machine_memory w' = machine_memory w)).
  { unfold factory_map_to_kvm. apply twp_call. by intros [[]|e] h4 _. }
  intros [[]|e] w4 Hw4; [|split; [by injection Hw4 as _ ->|by left]]. injection Hw4 as Eg Esp.
  destruct (guest_region_new a len addr) as [mr|e].
  2:{ twp_steps. split; [by rewrite Esp|]. left. unfold machine_memory. by rewrite Eg, Esp. }
  twp_steps. unfold id. rewrite Eg. destruct (guest_memory_insert mr (f_vm_as w)) as [g|e] eqn:Eins.
  2:{ twp_steps. split; [by rewrite Esp|]. left. unfold machine_memory. by rewrite Eg, Esp. }
  twp_steps. destruct (insert_region_eq reg (f_space w4)) as [(Hi & b' & Ei & Hp & _ & Hok')|[Hni Ei]]; [by rewrite Esp|done|..].
  - eapply (twp_lift _ _ _ _ Ei). cbv beta iota. twp_steps. split; [done|]. cbn. split; [done|]. exists reg. rewrite Esp in Hi, Hp. done.
  - eapply (twp_lift _ _ _ _ Ei). cbv beta iota. twp_steps. cbn. split; [by rewrite Esp|]. right. split; [done|]. exists mr, reg. rewrite Esp in Hni. done.
Qed.
End factory.

(** ** A machine *)

(** A host on which everything succeeds, with mappings at one address. *)
#[local] Instance demo_mem_files : MemFiles unit := {
  memfd_create name h := (Ok 3, h);
  file_set_len fd n h := (Ok tt, h);
  create_parent_dirs path h := (Ok tt, h);
  open_truncated path h := (Ok 3, h);
  unlink_file path h := (Ok tt, h);
}.
#[local] Instance demo_vmm_host : VmmHost unit := {
  dup_fd fd h := (Ok 4, h);
  mmap_build file len prot perm h := if (0 <=? len) && (len <=? 2 ^ 62) then (Ok (2 ^ 40), h) else (Err EOTHER, h);
  madvise a n adv h := (Ok tt, h);
  mbind a n mask h := h;
  spawn_prealloc a b c h := (Ok 0, h);
  join_thread t h := (Ok tt, h);
  set_user_memory_region slot gpa n hva h := (Ok tt, h);
}.
#[local] Instance demo_vmm_laws : VmmHostLaws unit.
Proof.
  split. intros file len prot perm h a h'. cbn. destruct (Z.leb_spec 0 len), (Z.leb_spec len (2 ^ 62)); cbn; try done.
  intros [= <- <-]. lia.
Qed.
#[local] Instance demo_guest_memory : GuestMemoryOps (Z * Z) (list (Z * Z)) := {
  guest_region_new a n b := Ok (b, n);
  region_host_address r := Some (2 ^ 40);
  guest_memory_new := [];
  guest_memory_insert r g := Ok (r :: g);
}.
#[local] Existing Instance merge_sort_by_base.
#[local] Existing Instance merge_sort_laws.

Definition demo_phys_end : Z := 2 ^ 46 - 1.
Definition demo_rm : ResourceManager :=
  ltac:(let y := eval vm_compute in (ResourceManager_new demo_phys_end None) in lazymatch y with Ret ?m => exact m end).
Definition demo_machine : AsmWorld unit (list (Z * Z)) := mkAsm mgr_default (mkBuilder "shmem" "" 0 true false false (Some 5)) demo_rm tt.
Definition demo_numa (mib : Z) : NumaRegionInfo := mkNumaRegionInfo mib None (Some 0) [0].

Lemma demo_rm_ok : rm_ok demo_phys_end demo_rm.
Proof.
  destruct (new_ok demo_phys_end ltac:(unfold demo_phys_end; lia) None) as (m & E & Hok & _); [vm_compute; split; discriminate|].
  assert (Ret m = Ret demo_rm) as [= <-]; [|done]. rewrite <- E. vm_compute. reflexivity.
Qed.

Lemma guest_memory_laid_out_witness :
  exists r w', create_address_space demo_phys_end 0 [demo_numa 2048; demo_numa 4096] demo_machine = Ret (r, w') /\ rm_ok demo_phys_end (w_rm w').
Proof.
  destruct (guest_memory_laid_out demo_phys_end 0 ltac:(unfold demo_phys_end; lia) [demo_numa 2048; demo_numa 4096] demo_machine)
    as (r & w' & E & Hok & _); [exact demo_rm_ok|reflexivity|by repeat constructor|vm_compute; discriminate|vm_compute; discriminate|vm_compute; split; discriminate|].
  exists r, w'. split; [exact E|exact Hok].
Defined.

(** The machine after that, and memory for a device. *)
Definition demo_booted : AsmWorld unit (list (Z * Z)) :=
  ltac:(let y := eval vm_compute in (create_address_space demo_phys_end 0 [demo_numa 2048; demo_numa 4096] demo_machine) in
        lazymatch y with Ret (Ok tt, ?w) => exact w end).
Definition demo_booted_space : AddressSpaceBase :=
  ltac:(let y := eval vm_compute in (address_space (w_mgr demo_booted)) in lazymatch y with Some ?b => exact b end).

Lemma demo_booted_ok :
  rm_ok demo_phys_end (w_rm demo_booted) /\ space_ok demo_booted_space /\
  Forall (fun r => held_at (w_rm demo_booted) (KMem, region_range r)) (regions demo_booted_space).
Proof.
  destruct (create_address_space_spec demo_phys_end 0 ltac:(unfold demo_phys_end; lia) [demo_numa 2048; demo_numa 4096] demo_machine)
    as (r & w' & E & Hok & Hr); [exact demo_rm_ok|reflexivity|by repeat constructor|vm_compute; discriminate|vm_compute; discriminate|vm_compute; split; discriminate|].
  assert (Ret (r, w') = Ret (Ok tt, demo_booted)) as [= -> ->] by (rewrite <- E; vm_compute; reflexivity).
  destruct Hr as (b & Eb & _ & Hsp & _ & _ & Hm). assert (Some b = Some demo_booted_space) as [= ->] by (rewrite <- Eb; vm_compute; reflexivity).
  split_and!; [done..|]. apply Forall_forall. intros reg Hreg. by apply Hm.
Qed.

(** One GiB for a device, aligned to 128 MiB. *)
Definition demo_constraint : Constraint := with_align (Constraint_new (2 ^ 30)) (2 ^ 27).
Definition demo_granted : Z * ResourceManager :=
  ltac:(let y := eval vm_compute in (allocate_mem_address (w_rm demo_booted) demo_constraint) in
        lazymatch y with Ret (Some ?a, ?m) => exact (a, m) end).

Lemma allocated_memory_insertable_witness :
  exists b', insert_region (region_new DefaultMemory demo_granted.1 (2 ^ 30)) demo_booted_space = Ret (Ok tt, b').
Proof.
  destruct demo_booted_ok as (Hrm & Hsp & Hheld).
  destruct (allocated_memory_insertable demo_phys_end 0 ltac:(unfold demo_phys_end; lia) (w_rm demo_booted) demo_booted_space demo_constraint
              demo_granted.1 demo_granted.2 (region_new DefaultMemory demo_granted.1 (2 ^ 30))) as (b' & E & _);
    [exact Hrm|exact Hsp|vm_compute; reflexivity|exact Hheld|vm_compute; repeat split; discriminate|vm_compute; reflexivity
    |reflexivity|reflexivity|reflexivity|vm_compute; discriminate|].
  exists b'. exact E.
Defined.

Definition demo_factory : MemoryRegionFactory := mkFactory "mem0" "vm" "shmem" "" None.

Lemma factory_outcomes_witness :
  exists r w', factory_create_region demo_factory demo_granted.1 (2 ^ 30) 9 (mkFactoryWorld [] demo_booted_space tt) = Ret (r, w').
Proof.
  destruct demo_booted_ok as (_ & Hsp & _).
  destruct (factory_outcomes demo_factory demo_granted.1 (2 ^ 30) 9 (mkFactoryWorld [] demo_booted_space tt)) as (r & w' & E & _);
    [exact Hsp|vm_compute; discriminate|lia|vm_compute; discriminate|]. exists r, w'. exact E.
Defined.

(** Memory that reaches the last guest memory address is accepted by the
    resource manager but not by the layout, whose end is exclusive: creating the
    address space of a machine with 46 physical address bits and all of the
    guest memory panics, while one MiB less succeeds. *)
Theorem full_guest_memory_panics :
  create_address_space demo_phys_end 0 [demo_numa 33553408] demo_machine = Panic /\
  exists w', create_address_space demo_phys_end 0 [demo_numa 33553407] demo_machine = Ret (Ok tt, w').
Proof. split; [vm_compute; reflexivity|]. eexists. vm_compute. reflexivity. Qed.
