(* ===== verification/VirtioMemFacts.v ===== *)
(** * Facts about the virtio-mem device

    The bitmap as a set of blocks, the geometry of the region, the invariant of
    the device with its map regions, and the growth of the usable part. *)
From S2P Require Import Prelude Bits DeviceResources Effects InterruptManager MmioData VirtioDeviceInfo VirtioMem.

Abbreviation BS := VIRTIO_MEM_DEFAULT_BLOCK_SIZE.
Abbreviation RS := VIRTIO_MEM_MAP_REGION_SIZE.

(** ** Bitmaps *)

(** The blocks that are plugged. *)
Definition plugged_set (bits : list bool) : gset nat := list_to_set (filter (fun i => bits !! i = Some true) (seq 0 (length bits))).

(** The blocks [i..i + n]. *)
Definition block_range (i n : nat) : gset nat := list_to_set (seq i n).

Lemma elem_of_plugged bits i : i ∈ plugged_set bits <-> bits !! i = Some true.
Proof.
  unfold plugged_set. rewrite elem_of_list_to_set, list_elem_of_filter, elem_of_seq. split; [by intros [? _]|].
  intros Hi. split; [done|]. apply lookup_lt_Some in Hi. lia.
Qed.

Lemma elem_of_range i n j : j ∈ block_range i n <-> (i <= j < i + n)%nat.
Proof. unfold block_range. by rewrite elem_of_list_to_set, elem_of_seq. Qed.

Lemma size_range i n : size (block_range i n) = n.
Proof. unfold block_range. rewrite size_list_to_set by apply NoDup_seq. apply length_seq. Qed.

Lemma check_bitmap_true bits i n b :
  (i + n <= length bits)%nat -> virtio_mem_check_bitmap i n bits b = true <-> take n (drop i bits) = replicate n b.
Proof.
  intros Hl. unfold virtio_mem_check_bitmap. rewrite forallb_forall. split.
  - intros Hf. apply list_eq. intros j. destruct (decide (j < n)%nat) as [Hj|Hj].
    + rewrite lookup_replicate_2 by done. destruct (take n (drop i bits) !! j) as [c|] eqn:Ec.
      * apply list_elem_of_lookup_2, list_elem_of_In, Hf in Ec. by apply eqb_prop in Ec as <-.
      * apply lookup_ge_None in Ec. rewrite length_take, length_drop in Ec. lia.
    + rewrite !lookup_ge_None_2; [done| |]; rewrite ?length_replicate, ?length_take; lia.
  - intros -> c Hc. apply list_elem_of_In, elem_of_replicate in Hc as [-> _]. apply eqb_reflx.
Qed.

Lemma check_bitmap_iff bits i n b :
  (i + n <= length bits)%nat ->
  virtio_mem_check_bitmap i n bits b = true <-> forall j, (i <= j < i + n)%nat -> bits !! j = Some b.
Proof.
  intros Hl. rewrite check_bitmap_true by done. split.
  - intros E j Hj. rewrite <- (lookup_replicate_2 n b (j - i)) by lia. rewrite <- E, lookup_take, lookup_drop.
    rewrite decide_True by lia. f_equal. lia.
  - intros Hf. apply list_eq. intros j. rewrite lookup_take, lookup_drop. destruct (decide (j < n)%nat).
    + rewrite lookup_replicate_2 by done. apply Hf. lia.
    + symmetry. apply lookup_ge_None_2. rewrite length_replicate. lia.
Qed.

Lemma set_bitmap_length bits i n b : length (virtio_mem_set_bitmap i n bits b) = length bits.
Proof. unfold virtio_mem_set_bitmap. rewrite !length_app, length_map, !length_take, !length_drop. lia. Qed.

Lemma set_bitmap_lookup bits i n b j :
  virtio_mem_set_bitmap i n bits b !! j = if decide (i <= j < i + n)%nat then (fun _ => b) <$> bits !! j else bits !! j.
Proof.
  unfold virtio_mem_set_bitmap. destruct (decide (j < i)%nat) as [H1|H1].
  - rewrite decide_False by lia. destruct (decide (j < length bits)%nat).
    + rewrite lookup_app_l by (rewrite length_take; lia). by rewrite lookup_take, decide_True.
    + rewrite (lookup_ge_None_2 bits) by lia. apply lookup_ge_None_2.
      rewrite !length_app, length_map, !length_take, !length_drop. lia.
  - destruct (decide (i <= length bits)%nat) as [Hi|Hi].
    2:{ rewrite (lookup_ge_None_2 bits) by lia. rewrite lookup_ge_None_2 by (rewrite !length_app, length_map, !length_take, !length_drop; lia).
        by case_decide. }
    rewrite lookup_app_r by (rewrite length_take; lia). rewrite length_take, Nat.min_l by done.
    destruct (decide (j < i + n)%nat) as [H2|H2].
    + rewrite decide_True by lia. destruct (bits !! j) as [c|] eqn:Ej; cbn.
      * rewrite lookup_app_l by (apply lookup_lt_Some in Ej; rewrite length_map, length_take, length_drop; lia).
        rewrite list_lookup_fmap, lookup_take, decide_True, lookup_drop by lia. replace (i + (j - i))%nat with j by lia. by rewrite Ej.
      * apply lookup_ge_None in Ej. apply lookup_ge_None_2. rewrite length_app, length_map, length_take, !length_drop. lia.
    + rewrite decide_False by lia. destruct (decide (i + n <= length bits)%nat).
      * rewrite lookup_app_r by (rewrite length_map, length_take, length_drop; lia).
        rewrite length_map, length_take, length_drop, Nat.min_l, lookup_drop by lia. f_equal. lia.
      * rewrite (lookup_ge_None_2 bits) by lia. apply lookup_ge_None_2. rewrite length_app, length_map, length_take, !length_drop. lia.
Qed.

(** A request moves exactly its blocks. *)
Lemma set_bitmap_plugged bits i n b :
  (i + n <= length bits)%nat ->
  plugged_set (virtio_mem_set_bitmap i n bits b) = if b then plugged_set bits ∪ block_range i n else plugged_set bits ∖ block_range i n.
Proof.
  intros Hl. apply set_eq. intros j. rewrite elem_of_plugged, set_bitmap_lookup.
  assert (j ∈ (if b then plugged_set bits ∪ block_range i n else plugged_set bits ∖ block_range i n) <->
          if b then bits !! j = Some true \/ (i <= j < i + n)%nat else bits !! j = Some true /\ ~ (i <= j < i + n)%nat) as ->.
  { destruct b; rewrite ?elem_of_union, ?elem_of_difference, elem_of_plugged, elem_of_range; done. }
  case_decide as Hd.
  - destruct (lookup_lt_is_Some_2 bits j) as [c Ec]; [lia|]. rewrite Ec. cbn. destruct b; naive_solver.
  - destruct b; naive_solver.
Qed.

Lemma clear_plugged bits x : plugged_set (<[x := false]> bits) = plugged_set bits ∖ {[x]}.
Proof.
  apply set_eq. intros j. rewrite elem_of_difference, !elem_of_plugged, elem_of_singleton. destruct (decide (j = x)) as [->|Hj].
  - split; [|by intros [_ []]]. intros Hx. pose proof (lookup_lt_Some _ _ _ Hx) as Hl. rewrite length_insert in Hl.
    by rewrite list_lookup_insert_eq in Hx.
  - rewrite list_lookup_insert_ne by done. naive_solver.
Qed.

(** ** The geometry of the region *)

Record geometry (cap alignment : Z) (c : VirtioMemConfig) : Prop := {
  g_block : block_size c = BS;
  g_cap : region_size c = cap;
  g_region : 0 < cap /\ cap mod BS = 0;
  g_addr : 0 <= mem_addr c /\ mem_addr c mod BS = 0 /\ mem_addr c + cap <= 2 ^ 62;
  g_usable : 0 <= usable_region_size c <= cap /\ usable_region_size c mod BS = 0;
  g_requested : 0 <= requested_size c <= cap /\ requested_size c mod BS = 0;
  g_align : 0 <= alignment <= 2 ^ 31 /\ alignment mod BS = 0;
}.

(** The map regions: one that has memory, or a table in which the first [m] have
    memory, each 2 GiB after the one before, and these cover the usable part. *)
Definition mapped (multi : bool) (c : VirtioMemConfig) (rs : MapRegions) : Prop :=
  if multi then
    Z.of_nat (length rs) = get_map_regions_num (region_size c) /\
    exists m : nat, usable_region_size c <= Z.of_nat m * RS /\
      forall i, match rs !! i with
                | Some (_, Some (h, g)) => (i < m)%nat /\ 0 <= h <= 2 ^ 63 /\ g = mem_addr c + Z.of_nat i * RS
                | Some (_, None) => (m <= i)%nat
                | None => True
                end
  else exists slot h, rs = [(slot, Some (h, mem_addr c))] /\ 0 <= h <= 2 ^ 63.

(** The blocks of a request lie in the usable part. *)
Definition in_usable (c : VirtioMemConfig) (addr size : Z) : Prop :=
  addr mod BS = 0 /\ size mod BS = 0 /\ 0 < size /\ mem_addr c <= addr /\ addr + size <= mem_addr c + usable_region_size c.

#[global] Instance in_usable_dec c addr size : Decision (in_usable c addr size).
Proof. unfold in_usable. apply _. Defined.

Section facts.
Context (cap alignment : Z).
#[local] Abbreviation geo := (geometry cap alignment).

Lemma valid_range_eq c addr size :
  geo c -> in_u64 addr -> in_u64 size -> virtio_mem_valid_range c addr size = Ret (bool_decide (in_usable c addr size)).
Proof.
  intros [Hb Hc Hr Ha Hu Hq Hal] Haddr Hsize. unfold virtio_mem_valid_range, checked_add. rewrite Hb.
  destruct (Z.eqb_spec (addr mod BS) 0) as [E1|E1]; cbn [negb orb].
  2:{ rewrite bool_decide_false; [done|]. by intros [? _]. }
  destruct (Z.eqb_spec (size mod BS) 0) as [E2|E2]; cbn [negb orb].
  2:{ rewrite bool_decide_false; [done|]. by intros (_ & ? & _). }
  destruct (Z.leb_spec (addr + size) u64_max) as [E3|E3].
  2:{ rewrite bool_decide_false; [done|]. intros (_ & _ & _ & _ & ?). ulia. }
  destruct (Z.eqb_spec size 0) as [E4|E4].
  { rewrite bool_decide_false; [done|]. intros (_ & _ & ? & _). lia. }
  destruct (Z.ltb_spec addr (mem_addr c)) as [E5|E5].
  { rewrite bool_decide_false; [done|]. intros (_ & _ & _ & ? & _). lia. }
  rewrite uadd_Ret by ulia. cbn. f_equal. symmetry.
  destruct (Z.leb_spec (addr + size) (mem_addr c + usable_region_size c)).
  - rewrite bool_decide_true; [|unfold in_usable; ulia]. rewrite andb_true_r. symmetry. apply Z.ltb_lt. ulia.
  - rewrite andb_false_r, bool_decide_false; [done|]. intros (_ & _ & _ & _ & ?). lia.
Qed.

(** The block numbers of a request in the usable part. *)
Lemma usable_blocks c addr n :
  geo c -> in_usable c addr (n * BS) ->
  let i := (addr - mem_addr c) / BS in
  0 <= i /\ 0 < n /\ addr = mem_addr c + i * BS /\ (i + n) * BS <= usable_region_size c.
Proof.
  intros [Hb Hc Hr Ha Hu Hq Hal] (E1 & E2 & E3 & E4 & E5). cbv zeta.
  assert (addr - mem_addr c = (addr - mem_addr c) / BS * BS) as Hi.
  { pose proof (Z.div_mod addr BS). pose proof (Z.div_mod (mem_addr c) BS). Z.div_mod_to_equations. lia. }
  assert (0 <= (addr - mem_addr c) / BS) by (apply Z.div_pos; lia). lia.
Qed.

Lemma usable_in_bitmap c (bits : list bool) i n :
  geo c -> Z.of_nat (length bits) = cap / BS -> 0 <= i -> 0 < n -> (i + n) * BS <= usable_region_size c ->
  (Z.to_nat i + Z.to_nat n <= length bits)%nat.
Proof.
  intros [Hb Hc Hr Ha Hu Hq Hal] Hl Hi Hn Hle. pose proof (Z.div_mod cap BS). assert (i + n <= cap / BS); [|lia].
  apply Z.div_le_lower_bound; lia.
Qed.

Definition same_map_region (offset size : Z) : bool :=
  Z.shiftr (offset + size - 1) VIRTIO_MEM_MAP_REGION_SHIFT =? Z.shiftr offset VIRTIO_MEM_MAP_REGION_SHIFT.

Lemma shiftr31 x : 0 <= x -> Z.shiftr x 31 = x / RS.
Proof. intros. by rewrite Z.shiftr_div_pow2. Qed.

Lemma run_on_host {H S E A B} (get : S -> H) put (f : H -> A * H) (k : A -> eff S E B) s :
  (on_host get put f ≫= k) s = k (f (get s)).1 (put (f (get s)).2 s).
Proof. unfold on_host, mbind, eff_bind. by destruct (f (get s)). Qed.
Lemma run_lift {S E A B} (a : A) (k : A -> eff S E B) s : (lift_outcome (Ret a) ≫= k) s = k a s.
Proof. done. Qed.

(** The usable part has memory. *)
Lemma host_addr_eq r multi c offset :
  geo c -> mapped multi c (sc_map_regions r) -> sc_multi_region r = multi ->
  0 <= offset -> 0 < sc_size r -> offset + sc_size r <= usable_region_size c ->
  exists h, request_host_addr r offset = Ret (if multi && negb (same_map_region offset (sc_size r)) then None else Some h).
Proof.
  intros Hg Hm Hmr Ho Hs Hle. pose proof Hg as [Hb Hc Hr Ha Hu Hq Hal]. unfold request_host_addr. rewrite Hmr.
  unfold mapped in Hm. destruct multi; cbn [andb].
  - destruct Hm as (Hlen & m & Hcov & Hm). rewrite uadd_Ret by ulia. cbn. rewrite usub_Ret by lia. cbn.
    unfold same_map_region. destruct (_ =? _) eqn:E; cbn; [|by exists 0]. rewrite !shiftr31 by lia.
    assert (0 <= offset / RS) by (apply Z.div_pos; lia).
    assert (offset / RS < Z.of_nat m) as Hlt by (apply Z.div_lt_upper_bound; lia).
    assert (offset / RS < Z.of_nat (length (sc_map_regions r))) as Hin.
    { rewrite Hlen. unfold get_map_regions_num. rewrite shiftr31 by lia. change VIRTIO_MEM_MAP_REGION_MASK with (Z.ones 31).
      rewrite Z.land_ones by lia. change (2 ^ 31) with RS. apply Z.div_lt_upper_bound; [lia|].
      pose proof (Z.div_mod (region_size c) RS). pose proof (Z.mod_pos_bound (region_size c) RS).
      destruct (Z.ltb_spec 0 (region_size c mod RS)); cbn [Z.b2z]; lia. }
    unfold at_index. destruct (Z.ltb_spec (offset / RS) (Z.of_nat (length (sc_map_regions r)))); [|lia].
    destruct (lookup_lt_is_Some_2 (sc_map_regions r) (Z.to_nat (offset / RS))) as [[slot o] Eo]; [lia|].
    specialize (Hm (Z.to_nat (offset / RS))). rewrite Eo in Hm |- *. destruct o as [[h g]|]; [|lia].
    change VIRTIO_MEM_MAP_REGION_MASK with (Z.ones 31). rewrite Z.land_ones by lia.
    pose proof (Z.mod_pos_bound offset (2 ^ 31)). rewrite uadd_Ret by ulia. by eexists.
  - destruct Hm as (slot & h & -> & Hh). change (at_index _ 0) with (Some (slot, Some (h, mem_addr c))).
    unfold unwrap, mbind, outcome_bind. rewrite uadd_Ret by ulia. by eexists.
Qed.

(** ** Requests *)

(** The first block of a request, and the answer that the set of plugged blocks
    asks for. *)
Definition block_of (c : VirtioMemConfig) (addr : Z) : nat := Z.to_nat ((addr - mem_addr c) / BS).

Definition blocks_free (blocks : gset nat) (i n : nat) (plug : bool) : Prop :=
  if plug then block_range i n ## blocks else block_range i n ⊆ blocks.
#[global] Instance blocks_free_dec blocks i n plug : Decision (blocks_free blocks i n plug).
Proof. unfold blocks_free. destruct plug; apply _. Defined.

Definition expected_response (multi : bool) (c : VirtioMemConfig) (blocks : gset nat) (addr n : Z) (plug : bool) : Z :=
  if plug && (requested_size c <? plugged_size c + n * BS) then VIRTIO_MEM_RESP_NACK
  else if bool_decide (in_usable c addr (n * BS)) && bool_decide (blocks_free blocks (block_of c addr) (Z.to_nat n) plug)
          && negb (multi && negb (same_map_region (addr - mem_addr c) (n * BS)))
       then VIRTIO_MEM_RESP_ACK
  else VIRTIO_MEM_RESP_ERROR.

Lemma check_bitmap_free bits i n plug :
  (i + n <= length bits)%nat ->
  virtio_mem_check_bitmap i n bits (negb plug) = bool_decide (blocks_free (plugged_set bits) i n plug).
Proof.
  intros Hl.
  symmetry. destruct (virtio_mem_check_bitmap i n bits (negb plug)) eqn:E.
  - apply bool_decide_true. rewrite check_bitmap_iff in E by done. destruct plug; cbn in *.
    + intros j Hj%elem_of_range Hp%elem_of_plugged. by rewrite E in Hp.
    + intros j Hj%elem_of_range. apply elem_of_plugged. by apply E.
  - apply bool_decide_false. intros Hf. apply not_true_iff_false in E. apply E, check_bitmap_iff; [done|]. intros j Hj.
    destruct (lookup_lt_is_Some_2 bits j) as [c Ec]; [lia|]. apply elem_of_range in Hj. destruct plug; cbn in *.
    + destruct c; [|done]. apply elem_of_plugged in Ec. set_solver.
    + apply Hf, elem_of_plugged in Hj. done.
Qed.

Context {H : Type} `{HH : MemHost H}.

(** Whether the host takes the blocks back, and its state afterwards. *)
Definition released (r : StateChangeRequest) (offset host_addr : Z) (h : H) : bool * H :=
  match sc_host_fd r with
  | Some fd => let '(b, h) := punch_hole fd offset (sc_size r) h in
               if b then madvise_remove host_addr (sc_size r) h else (false, h)
  | None => madvise_remove host_addr (sc_size r) h
  end.

Lemma release_eq r offset host_addr bits h :
  release_blocks r offset host_addr (bits, h) =
    Ret (Ok (released r offset host_addr h).1, (bits, (released r offset host_addr h).2)).
Proof.
  unfold release_blocks, released, on_host. destruct (sc_host_fd r) as [fd|].
  - unfold mbind, eff_bind. cbn [snd fst]. destruct (punch_hole fd offset (sc_size r) h) as [[] h1]; cbn; [|done].
    by destruct (madvise_remove _ _ h1).
  - unfold mbind, eff_bind. cbn. by destruct (madvise_remove _ _ h).
Qed.

(** A request answers what is expected, or with an error when the host does not
    take the blocks back; the blocks move exactly when it is acknowledged. *)
Lemma state_change_eq r multi c bits h n :
  geo c -> mapped multi c (sc_map_regions r) -> sc_multi_region r = multi -> sc_config r = c ->
  in_u64 (sc_addr r) -> 0 <= n <= u16_max -> sc_nb_blocks r = n -> sc_size r = n * BS ->
  0 <= plugged_size c <= cap -> Z.of_nat (length bits) = cap / BS ->
  let expected := expected_response multi c (plugged_set bits) (sc_addr r) n (sc_plug r) in
  let i := block_of c (sc_addr r) in
  exists ok h', virtio_mem_state_change_request r (bits, h) =
      Ret (Ok (if (expected =? VIRTIO_MEM_RESP_ACK) && negb ok then VIRTIO_MEM_RESP_ERROR else expected),
           (if (expected =? VIRTIO_MEM_RESP_ACK) && ok then virtio_mem_set_bitmap i (Z.to_nat n) bits (sc_plug r) else bits, h')) /\
    (expected = VIRTIO_MEM_RESP_ACK -> (i + Z.to_nat n <= length bits)%nat /\
       if sc_plug r then ok = true /\ h' = h
       else exists host_addr, (ok, h') = released r (sc_addr r - mem_addr c) host_addr h).
Proof.
  intros Hg Hm Hmr Hcfg Haddr Hn Hnb Hsz Hp Hl. cbv zeta. pose proof Hg as [Hb Hc Hr Ha Hu Hq Hal].
  unfold virtio_mem_state_change_request. rewrite Hcfg, Hsz, Hnb. unfold expected_response.
  assert (in_u64 (n * BS)) as Hn64 by ulia.
  set (over := sc_plug r && (requested_size c <? plugged_size c + n * BS)).
  rewrite (run_ok_bind _ _ _ over (bits, h)).
  2:{ subst over. destruct (sc_plug r); [|done]. by rewrite uadd_Ret by ulia. }
  destruct over; [by exists true, h|]. rewrite (valid_range_eq c _ _ Hg Haddr Hn64).
  rewrite run_lift.
  destruct (decide (in_usable c (sc_addr r) (n * BS))) as [Hin|Hin].
  2:{ rewrite !(bool_decide_false (in_usable _ _ _)) by done. by exists true, h. }
  rewrite !(bool_decide_true (in_usable _ _ _)) by done. cbn [negb andb].
  pose proof (usable_blocks c _ n Hg Hin) as (Hi & Hn0 & Hadr & Hle). pose proof (usable_in_bitmap c bits _ n Hg Hl Hi Hn0 Hle) as Hbl.
  rewrite usub_Ret by (destruct Hin; lia). rewrite run_lift.
  unfold udiv. cbv beta. rewrite Hb. change (BS =? 0) with false. cbn iota. rewrite run_lift.
  cbv beta. rewrite run_gets. cbn [fst]. rewrite check_bitmap_free by done. fold (block_of c (sc_addr r)).
  destruct (bool_decide (blocks_free _ _ _ _)); cbn [negb andb]; [|by exists true, h].
  destruct (host_addr_eq r multi c (sc_addr r - mem_addr c) Hg Hm Hmr) as [a Ea]; [lia..|]. rewrite Ea, Hsz.
  rewrite run_lift.
  clear Ea. destruct (multi && negb (same_map_region (sc_addr r - mem_addr c) (n * BS))); cbn [negb]; [by exists true, h|]. change (0 =? 0) with true. cbn [andb].
  destruct (sc_plug r).
  - exists true, h. done.
  - exists (released r (sc_addr r - mem_addr c) a h).1, (released r (sc_addr r - mem_addr c) a h).2.
    rewrite (run_ok_bind _ _ _ _ _ (release_eq r _ a bits h)).
    destruct (released r (sc_addr r - mem_addr c) a h) as [[] h1] eqn:Er; (split; [done|]); intros _; (split; [done|]); by exists a.
Qed.
End facts.

(** * The usable part of the virtio-mem region

    A new requested size extends the usable part, and with several map regions
    the part that becomes usable gets memory. *)

(** The host places memory in the lower half of its address space. *)
Class MemHostLaws (H : Type) `{MemHost H} := {
  create_region_addr a n slot h p h' : create_region a n slot h = (Ok (Some p), h') -> 0 <= p /\ p + n <= 2 ^ 62;
}.

(** ** The table of map regions *)

(** The first [m] entries have memory. *)
Definition prefix_mapped (m : nat) (base : Z) (rs : MapRegions) : Prop :=
  forall i, match rs !! i with
            | Some (_, Some (h, g)) => (i < m)%nat /\ 0 <= h <= 2 ^ 63 /\ g = base + Z.of_nat i * RS
            | Some (_, None) => (m <= i)%nat
            | None => True
            end.

Lemma first_unmapped_eq m base rs first n :
  prefix_mapped m base rs -> (first <= m)%nat -> (first + n <= length rs)%nat ->
  first_unmapped rs first n = Ret (if decide (first + n <= m)%nat then None else Some m).
Proof.
  revert first. induction n as [|n IH]; intros first Hm Hf Hl; cbn [first_unmapped].
  { by rewrite decide_True by lia. }
  destruct (lookup_lt_is_Some_2 rs first) as [[slot o] Eo]; [lia|]. rewrite Eo. cbn [unwrap mbind outcome_bind snd].
  specialize (Hm first) as Hmf. rewrite Eo in Hmf. destruct o as [[h g]|].
  - rewrite IH by (done || lia). by replace (S first + n)%nat with (first + S n)%nat by lia.
  - rewrite decide_False by lia. by replace m with first by lia.
Qed.

Lemma set_mapped_eq n first h g rs :
  0 <= h -> 0 <= g -> h + Z.of_nat n * RS <= u64_max -> g + Z.of_nat n * RS <= u64_max -> (first + n <= length rs)%nat ->
  exists rs', set_mapped first n h g rs = Ret rs' /\ length rs' = length rs /\
    forall i, rs' !! i = if decide (first <= i < first + n)%nat
                         then (fun e => (e.1, Some (h + Z.of_nat (i - first) * RS, g + Z.of_nat (i - first) * RS))) <$> rs !! i
                         else rs !! i.
Proof.
  revert first h g rs. induction n as [|n IH]; intros first h g rs Hh Hg Hhn Hgn Hl; cbn [set_mapped].
  { exists rs. split_and!; [done..|]. intros i. by rewrite decide_False by lia. }
  destruct (lookup_lt_is_Some_2 rs first) as [e Ee]; [lia|]. rewrite Ee. cbn [unwrap mbind outcome_bind].
  rewrite !uadd_Ret by lia. cbn [mbind outcome_bind].
  destruct (IH (S first) (h + RS) (g + RS) (<[first := (fst e, Some (h, g))]> rs)) as (rs' & -> & Hlen & Hrs); [lia..| |].
  { rewrite length_insert. lia. }
  exists rs'. split_and!; [done|by rewrite Hlen, length_insert|]. intros i. rewrite Hrs. destruct (decide (i = first)) as [->|Hne].
  - rewrite decide_False, decide_True by lia. rewrite list_lookup_insert_eq, Ee by lia. cbn. by rewrite Nat.sub_diag, !Z.add_0_r.
  - rewrite list_lookup_insert_ne by done. destruct (decide (S first <= i < S first + n)%nat) as [Hi|Hi].
    + rewrite decide_True by lia. destruct (rs !! i); cbn; [|done].
      replace (Z.of_nat (i - first)) with (Z.of_nat (i - S first) + 1) by lia. do 4 f_equal; lia.
    + by rewrite decide_False by lia.
Qed.

Lemma shl64_31 a : 0 <= a -> a * RS < 2 ^ 64 -> shl64 a 31 = a * RS.
Proof. intros H1 H2. unfold shl64. rewrite Z.shiftl_mul_pow2 by lia. apply Z.mod_small. split; [|done]. apply Z.mul_nonneg_nonneg; lia. Qed.

(** As many map regions as it takes to hold the capacity. *)
Lemma map_regions_num_spec size : 0 < size -> 1 <= get_map_regions_num size /\ size <= get_map_regions_num size * RS /\ (get_map_regions_num size - 1) * RS < size.
Proof.
  intros Hs. unfold get_map_regions_num. rewrite shiftr31 by lia. change VIRTIO_MEM_MAP_REGION_MASK with (Z.ones 31).
  rewrite Z.land_ones by lia. change (2 ^ 31) with RS. pose proof (Z.div_mod size RS). pose proof (Z.mod_pos_bound size RS).
  assert (0 <= size / RS) by (apply Z.div_pos; lia).
  destruct (Z.ltb_spec 0 (size mod RS)); cbn [Z.b2z]; lia.
Qed.

(** ** New memory *)

Section resize.
Context (cap alignment : Z).
#[local] Abbreviation geo := (geometry cap alignment).
Context {H : Type} `{HH : MemHost H} `{!MemHostLaws H}.

(** The index of the region that holds [size], clamped to the table. *)
Definition region_index (len size : Z) : Z := Z.min (size / RS) (len - 1).

Lemma region_len_eq c len first last :
  geo c -> len = get_map_regions_num cap -> 0 <= first <= last -> last < len ->
  exists n, map_region_len c len first last = Ret n /\ (last - first) * RS <= n.
Proof.
  intros [Hb Hc Hr Ha Hu Hq Hal] Hlen Hf Hl. destruct (map_regions_num_spec cap (proj1 Hr)) as (H1 & H2 & H3). rewrite <- Hlen in *.
  unfold map_region_len. change VIRTIO_MEM_MAP_REGION_SHIFT with 31. rewrite !shl64_31 by lia.
  destruct (Z.eqb_spec (last + 1) len) as [E|E].
  - rewrite Hc, usub_Ret by lia. cbn [mbind outcome_bind]. rewrite uadd_Ret by ulia. eexists. split; [done|]. lia.
  - cbn [mbind outcome_bind]. rewrite uadd_Ret by ulia. eexists. split; [done|]. lia.
Qed.

Lemma region_index_spec len size :
  1 <= len -> 0 <= size <= len * RS ->
  let i := region_index len size in 0 <= i < len /\ i * RS <= size <= (i + 1) * RS.
Proof.
  intros Hl Hs. cbv zeta. unfold region_index. pose proof (Z.div_mod size RS). pose proof (Z.mod_pos_bound size RS).
  assert (0 <= size / RS) by (apply Z.div_pos; lia). lia.
Qed.

Lemma region_index_mono len s1 s2 : s1 <= s2 -> region_index len s1 <= region_index len s2.
Proof. intros Hs. unfold region_index. assert (s1 / RS <= s2 / RS) by (apply Z.div_le_mono; lia). lia. Qed.

(** The entries from [m] to [last] get memory. *)
Lemma prefix_extended m last base p n rs rs' :
  prefix_mapped m base rs -> 0 <= p -> p + n <= 2 ^ 62 -> (last - Z.of_nat m) * RS <= n -> Z.of_nat m <= last ->
  (forall i, rs' !! i = if decide (m <= i < m + Z.to_nat (last + 1 - Z.of_nat m))%nat
                        then (fun e => (e.1, Some (p + Z.of_nat (i - m) * RS, base + Z.of_nat m * RS + Z.of_nat (i - m) * RS))) <$> rs !! i
                        else rs !! i) ->
  prefix_mapped (Z.to_nat (last + 1)) base rs'.
Proof.
  intros Hm Hp Hn Hlast Hml Hrs i. rewrite Hrs. specialize (Hm i). case_decide as Hi; destruct (rs !! i) as [[slot o]|]; cbn; try done.
  - split_and!; lia.
  - destruct o as [[h g]|]; lia.
Qed.

(** What the host answered. *)
Definition refused (e : MemDeviceError) (res : result MemDeviceError (option Z)) : Prop :=
  res = Err e \/ res = Ok None /\ e = VirtioMemError RsizeUsabeRegionFail.

(** The request for memory of the regions from [first] on. *)
Lemma map_new_regions_spec c rs m newsize (h : H) :
  geo c -> Z.of_nat (length rs) = get_map_regions_num cap -> prefix_mapped m (mem_addr c) rs ->
  usable_region_size c <= Z.of_nat m * RS -> usable_region_size c < newsize <= cap ->
  exists r rs' h', map_new_regions newsize (c, rs, h) = Ret (r, (c, rs', h')) /\
    match r with
    | Ok _ => length rs' = length rs /\ exists m', newsize <= Z.of_nat m' * RS /\ prefix_mapped m' (mem_addr c) rs'
    | Err e => rs' = rs /\ exists n slot, refused e (create_region (mem_addr c + Z.of_nat m * RS) n slot h).1
    end.
Proof.
  intros Hg Hlen Hm Hcov Hns. pose proof Hg as [Hb Hc Hr Ha Hu Hq Hal].
  destruct (map_regions_num_spec cap (proj1 Hr)) as (H1 & H2 & H3). rewrite <- Hlen in H1, H2, H3.
  destruct (region_index_spec (Z.of_nat (length rs)) (usable_region_size c)) as (Hf & Hfu); [lia..|].
  destruct (region_index_spec (Z.of_nat (length rs)) newsize) as (Hla & Hlu); [lia..|].
  pose proof (region_index_mono (Z.of_nat (length rs)) (usable_region_size c) newsize) as Hmono.
  assert (forall size, 0 <= size -> (if Z.of_nat (length rs) <=? size / RS then usub (Z.of_nat (length rs)) 1 else Ret (size / RS))
            = Ret (region_index (Z.of_nat (length rs)) size)) as Hclamp.
  { intros size Hsz. unfold region_index. destruct (Z.leb_spec (Z.of_nat (length rs)) (size / RS)); [rewrite usub_Ret by lia|]; f_equal; lia. }
  unfold map_new_regions. rewrite run_gets. unfold id. change VIRTIO_MEM_MAP_REGION_SHIFT with 31.
  rewrite !shiftr31, !Hclamp by lia. rewrite run_lift. cbv beta. rewrite run_lift. cbv beta.
  set (first := region_index _ (usable_region_size c)) in *. set (last := region_index _ newsize) in *. clearbody first last.
  rewrite (first_unmapped_eq m (mem_addr c)) by (done || lia). rewrite run_lift. cbv beta. case_decide as Hd.
  { exists (Ok tt), rs, h. split_and!; [done..|]. exists m. split; [lia|done]. }
  rewrite shl64_31, uadd_Ret, run_lift by ulia. cbv beta.
  destruct (region_len_eq c _ (Z.of_nat m) last Hg Hlen) as (n & -> & Hn); [lia..|]. rewrite run_lift. cbv beta.
  destruct (lookup_lt_is_Some_2 rs m) as [[slot o] Eo]; [lia|]. rewrite Eo. change ((expect (Some ?b) ≫= ?k) ?s) with (k b s). cbv beta. cbn [fst].
  unfold on_host. unfold mbind at 1. unfold eff_bind at 1. cbn [snd fst].
  destruct (create_region (mem_addr c + Z.of_nat m * RS) n slot h) as [[[p|]|e] h1] eqn:Ecr; cbn [fst snd].
  - destruct (create_region_addr _ _ _ _ _ _ Ecr) as [Hp Hpn].
    destruct (set_mapped_eq (Z.to_nat (last + 1 - Z.of_nat m)) m p (mem_addr c + Z.of_nat m * RS) rs) as (rs' & -> & Hl' & Hrs'); [ulia..|].
    exists (Ok tt), rs', h1. split; [done|]. split; [done|]. exists (Z.to_nat (last + 1)). split; [lia|].
    eapply prefix_extended; [done..| |done]. lia.
  - exists (Err (VirtioMemError RsizeUsabeRegionFail)), rs, h1. split; [done|]. split; [done|]. exists n, slot. rewrite Ecr. by right.
  - exists (Err e), rs, h1. split; [done|]. split; [done|]. exists n, slot. rewrite Ecr. by left.
Qed.

(** ** The usable part *)

(** The size that the usable part grows to. *)
Definition wanted_usable (c : VirtioMemConfig) : Z :=
  if requested_size c =? 0 then 0 else Z.min cap (requested_size c + 2 * alignment).
Definition grown_usable (c : VirtioMemConfig) : Z := Z.max (usable_region_size c) (wanted_usable c).

Lemma wanted_usable_spec c : geo c -> requested_size c <= wanted_usable c <= cap /\ wanted_usable c mod BS = 0.
Proof.
  intros [Hb Hc Hr Ha Hu Hq Hal]. unfold wanted_usable. destruct (Z.eqb_spec (requested_size c) 0) as [E|E]; [by split; [lia|]|].
  split; [lia|]. destruct (Z.min_spec cap (requested_size c + 2 * alignment)) as [[_ ->]|[_ ->]]; [by apply Hr|].
  rewrite Z.add_mod, Z.mul_mod by done. destruct Hq as [_ ->], Hal as [_ ->]. done.
Qed.

Lemma geometry_put_usable n c : geo c -> 0 <= n <= cap -> n mod BS = 0 -> geo (put_usable n c).
Proof. intros [] ? ?. by split. Qed.

Lemma wanted_usable_eq c :
  geo c ->
  (if requested_size c =? 0 then 0
   else Z.land (Z.min (region_size c) (requested_size c + 2 * alignment)) (unot u64_max (BS - 1))) = wanted_usable c.
Proof.
  intros Hg. destruct (wanted_usable_spec c Hg) as [Hw Hmod]. unfold wanted_usable in *. pose proof Hg as [Hb Hc Hr Ha Hu Hq Hal].
  destruct (Z.eqb_spec (requested_size c) 0); [done|]. rewrite Hc. change BS with (2 ^ 22).
  rewrite land_unot_align by (done || ulia). change (2 ^ 22) with BS. rewrite (Z.div_mod (Z.min _ _) BS) at 2 by done. lia.
Qed.

(** What [mapped] says of the usable part when it grows. *)
Lemma mapped_put_usable multi n c rs rs' :
  mapped multi c rs -> n <= usable_region_size c \/ multi = false -> rs' = rs -> mapped multi (put_usable n c) rs'.
Proof.
  intros Hm Hn ->. unfold mapped in *. destruct multi; [|done]. destruct Hn as [Hn|]; [|done]. destruct Hm as (Hl & m & Hc & Hm).
  split; [done|]. exists m. split; [cbn; lia|done].
Qed.

Lemma resize_spec multi c rs (h : H) :
  geo c -> mapped multi c rs ->
  exists r c' rs' h', virtio_mem_resize_usable_region false alignment multi (c, rs, h) = Ret (r, (c', rs', h')) /\
    geo c' /\ mapped multi c' rs' /\
    match r with
    | Ok _ => c' = put_usable (grown_usable c) c
    | Err e => c' = c /\ rs' = rs /\ multi = true /\ usable_region_size c < wanted_usable c /\
               exists a n slot, refused e (create_region a n slot h).1
    end.
Proof.
  intros Hg Hm. pose proof Hg as [Hb Hc Hr Ha Hu Hq Hal]. destruct (wanted_usable_spec c Hg) as [Hw Hmod].
  unfold virtio_mem_resize_usable_region. rewrite run_gets. cbn [fst].
  rewrite umul_Ret, run_lift by ulia. cbv beta. rewrite uadd_Ret, run_lift by ulia. cbv beta. rewrite Hb, usub_Ret, run_lift by done. cbv beta.
  rewrite wanted_usable_eq by done. unfold grown_usable.
  destruct (Z.ltb_spec (usable_region_size c) (wanted_usable c)) as [Hgrow|Hgrow]; cbn [andb].
  - rewrite Z.max_r by lia. destruct (Z.ltb_spec (wanted_usable c) (usable_region_size c)); [lia|]. cbn [andb]. destruct multi.
    + destruct Hm as (Hlen & m & Hcov & Hm). rewrite Hc in Hlen.
      destruct (map_new_regions_spec c rs m (wanted_usable c) h) as (r & rs' & h' & E & Hres); [done..|lia|].
      destruct r as [[]|e].
      * rewrite (run_ok_bind _ _ _ _ _ E). destruct Hres as (Hl' & m' & Hcov' & Hm').
        eexists (Ok tt), _, rs', h'. split; [done|]. split; [apply geometry_put_usable; [done|lia|done]|]. split; [|done].
        split; [cbn; rewrite Hl', Hc; done|]. by exists m'.
      * rewrite (run_err_bind _ _ _ _ _ E). destruct Hres as (-> & n & slot & Href).
        eexists (Err e), c, rs, h'. split_and!; try done; [|by eexists _, n, slot].
        split; [by rewrite Hc|]. by exists m.
    + eexists (Ok tt), _, rs, h. split; [done|]. split; [apply geometry_put_usable; [done|lia|done]|]. split; [|done].
      eapply mapped_put_usable; [done|by right|done].
  - rewrite Z.max_l by lia. destruct (Z.ltb_spec (wanted_usable c) (usable_region_size c)) as [Hlt|Hge]; cbn [andb negb].
    + eexists (Ok tt), c, rs, h. split_and!; try done. by destruct c.
    + replace (wanted_usable c) with (usable_region_size c) by lia. eexists (Ok tt), _, rs, h. split; [done|].
      split; [apply geometry_put_usable; [done|lia|by apply Hu]|]. split; [|done].
      apply (mapped_put_usable _ (usable_region_size c) c rs); [done| |done]. by left.
Qed.
End resize.
