(* ===== verification/VirtioMemSpec.v ===== *)
(** * What the virtio-mem device promises to the guest

    The abstract device is the configuration together with the set of plugged
    blocks, and a request is a step of it.  The handler implements this: its
    bitmap stands for the set. *)
From S2P Require Import Prelude Bits DeviceResources Effects InterruptManager MmioData VirtioDeviceInfo VirtioMem VirtioMemFacts.

(** The bytes that guest memory answers are as many as asked for, and bytes. *)
Class GuestMemLaws (M : Type) `{GuestMem M} := {
  mem_read_bytes a n m l : mem_read a n m = Ok l -> length l = n /\ Forall (fun b => 0 <= b < 256) l;
}.

(** The host takes memory back whenever it is asked to. *)
Definition host_yields (H : Type) `{MemHost H} : Prop :=
  (forall a n h, (madvise_remove a n h).1 = true) /\ (forall fd o n h, (punch_hole fd o n h).1 = true).

Abbreviation MemView := (VirtioMemConfig * gset nat)%type.

Definition plug_of (r : VirtioMemReq) : option bool :=
  if req_type r =? VIRTIO_MEM_REQ_PLUG then Some true
  else if req_type r =? VIRTIO_MEM_REQ_UNPLUG then Some false else None.

(** The blocks of a request, the answer it deserves, and the device after it. *)
Definition request_blocks (s : MemView) (r : VirtioMemReq) : gset nat :=
  block_range (block_of s.1 (req_addr r)) (Z.to_nat (nb_blocks r)).
Definition answer (multi : bool) (s : MemView) (r : VirtioMemReq) (plug : bool) : Z :=
  expected_response multi s.1 s.2 (req_addr r) (nb_blocks r) plug.
Definition moved (s : MemView) (r : VirtioMemReq) (plug : bool) : MemView :=
  if plug then (put_plugged (plugged_size s.1 + nb_blocks r * BS) s.1, s.2 ∪ request_blocks s r)
  else (put_plugged (plugged_size s.1 - nb_blocks r * BS) s.1, s.2 ∖ request_blocks s r).
Definition blocks_state (blocks range : gset nat) : Z :=
  if decide (range ⊆ blocks) then VIRTIO_MEM_STATE_PLUGGED
  else if decide (range ## blocks) then VIRTIO_MEM_STATE_UNPLUGGED
  else VIRTIO_MEM_STATE_MIXED.

(** A request, the type and the state of its response, and the device after it.
    [yields]: the host takes memory back whenever it is asked to. *)
Inductive mem_step (yields : Prop) (multi : bool) (s : MemView) (r : VirtioMemReq) : Z -> Z -> MemView -> Prop :=
  | step_denied plug :
      plug_of r = Some plug -> answer multi s r plug <> VIRTIO_MEM_RESP_ACK ->
      mem_step yields multi s r (answer multi s r plug) 0 s
  | step_moved plug :
      plug_of r = Some plug -> answer multi s r plug = VIRTIO_MEM_RESP_ACK ->
      mem_step yields multi s r VIRTIO_MEM_RESP_ACK 0 (moved s r plug)
  | step_refused :
      plug_of r = Some false -> answer multi s r false = VIRTIO_MEM_RESP_ACK -> ~ yields ->
      mem_step yields multi s r VIRTIO_MEM_RESP_ERROR 0 s
  | step_unplug_all :
      req_type r = VIRTIO_MEM_REQ_UNPLUG_ALL ->
      mem_step yields multi s r VIRTIO_MEM_RESP_ACK 0 (put_plugged 0 s.1, ∅)
  | step_unplug_all_refused blocks :
      req_type r = VIRTIO_MEM_REQ_UNPLUG_ALL -> blocks ⊆ s.2 -> blocks <> ∅ -> ~ yields ->
      mem_step yields multi s r VIRTIO_MEM_RESP_ERROR 0 (s.1, blocks)
  | step_state st :
      req_type r = VIRTIO_MEM_REQ_STATE -> mem_addr s.1 <= req_addr r ->
      (in_usable s.1 (req_addr r) (nb_blocks r * BS) -> st = blocks_state s.2 (request_blocks s r)) ->
      mem_step yields multi s r
        (if decide (in_usable s.1 (req_addr r) (nb_blocks r * BS)) then VIRTIO_MEM_RESP_ACK else VIRTIO_MEM_RESP_ERROR) st s.

(** The requests that the handler answers, and the one that it does not survive:
    a question about an address below the region. *)
Definition known_request (r : VirtioMemReq) : Prop := 0 <= req_type r <= 3.
Definition request_in_range (r : VirtioMemReq) : Prop := in_u64 (req_addr r) /\ 0 <= nb_blocks r <= u16_max.
Definition below_region (c : VirtioMemConfig) (r : VirtioMemReq) : Prop :=
  req_type r = VIRTIO_MEM_REQ_STATE /\ req_addr r < mem_addr c.

(** ** The invariant of the abstract device *)

Section spec.
Context (cap alignment : Z) (yields : Prop) (multi : bool).

Record view_ok (s : MemView) : Prop := {
  vo_geo : geometry cap alignment s.1;
  vo_usable : forall j, j ∈ s.2 -> (Z.of_nat j + 1) * BS <= usable_region_size s.1;
  vo_plugged : Z.of_nat (size s.2) * BS <= plugged_size s.1 <= cap /\ plugged_size s.1 mod BS = 0;
  vo_exact : yields -> plugged_size s.1 = Z.of_nat (size s.2) * BS;
}.

Lemma geometry_put_plugged n c : geometry cap alignment c -> geometry cap alignment (put_plugged n c).
Proof. by intros []. Qed.

Lemma answer_ack s r plug :
  view_ok s -> answer multi s r plug = VIRTIO_MEM_RESP_ACK ->
  in_usable s.1 (req_addr r) (nb_blocks r * BS) /\ blocks_free s.2 (block_of s.1 (req_addr r)) (Z.to_nat (nb_blocks r)) plug /\
  (plug = true -> plugged_size s.1 + nb_blocks r * BS <= requested_size s.1).
Proof.
  intros Hok. unfold answer, expected_response. destruct (plug && _) eqn:E1; [done|].
  destruct (decide (in_usable s.1 (req_addr r) (nb_blocks r * BS))) as [Hu|Hu]; [|by rewrite (bool_decide_false (in_usable _ _ _))].
  destruct (decide (blocks_free s.2 (block_of s.1 (req_addr r)) (Z.to_nat (nb_blocks r)) plug)) as [Hf|Hf].
  2:{ rewrite (bool_decide_false (blocks_free _ _ _ _)) by done. by rewrite andb_false_r. }
  intros _. split_and!; [done..|]. intros ->. apply Z.ltb_ge in E1. done.
Qed.

(** Every step keeps the plugged blocks in the usable part and the account of
    them from falling short. *)
Lemma moved_ok s r plug : view_ok s -> answer multi s r plug = VIRTIO_MEM_RESP_ACK -> view_ok (moved s r plug).
Proof.
  intros Hok Hack. destruct (answer_ack _ _ _ Hok Hack) as (Hu & Hf & Hq). destruct Hok as [Hg Husb Hp Hx].
  destruct (usable_blocks cap alignment _ _ _ Hg Hu) as (Hi & Hn & Ha & Hle). pose proof (g_requested _ _ _ Hg) as [[_ Hrq] _].
  unfold moved, request_blocks, blocks_free in *. destruct plug; split; cbn [fst snd plugged_size put_plugged usable_region_size].
  - by apply geometry_put_plugged.
  - intros j [Hj|Hj%elem_of_range]%elem_of_union; [by apply Husb|]. unfold block_of in Hj. nia.
  - rewrite size_union, size_range by done. specialize (Hq eq_refl). split; [lia|]. Z.div_mod_to_equations. lia.
  - intros Hy. specialize (Hx Hy). rewrite size_union, size_range by done. lia.
  - by apply geometry_put_plugged.
  - intros j [Hj _]%elem_of_difference. by apply Husb.
  - rewrite size_difference, size_range by done. apply subseteq_size in Hf. rewrite size_range in Hf.
    split; [lia|]. Z.div_mod_to_equations. lia.
  - intros Hy. specialize (Hx Hy). rewrite size_difference, size_range by done. apply subseteq_size in Hf.
    rewrite size_range in Hf. lia.
Qed.

Lemma mem_step_ok s r resp st s' : mem_step yields multi s r resp st s' -> view_ok s -> view_ok s'.
Proof.
  intros Hs Hok. destruct Hs as [| | | |blocks Ht Hsub Hne Hny|]; try done.
  - by apply moved_ok.
  - destruct Hok as [Hg Hu Hp Hx]. split; cbn; [by apply geometry_put_plugged|set_solver|..].
    + pose proof (g_region _ _ _ Hg). rewrite size_empty. by split; [lia|].
    + intros _. by rewrite size_empty.
  - destruct Hok as [Hg Hu Hp Hx]. split; cbn [fst snd] in *; [done|..].
    + intros j Hj. apply Hu, Hsub, Hj.
    + apply subseteq_size in Hsub. lia.
    + done.
Qed.
End spec.

(** ** The handler implements it *)

Section handler.
Context (cap alignment : Z) (multi : bool).
Context {H Q Ch M : Type} `{HH : MemHost H} `{HM : GuestMem M} `{HQ : VirtQueue Q Ch M}.
#[local] Abbreviation world := (MemWorld H M).
#[local] Abbreviation yields := (host_yields H).

Definition view (w : world) : MemView := (w_config w, plugged_set (w_bits w)).

Record world_ok (w : world) : Prop := {
  wo_view : view_ok cap alignment yields (view w);
  wo_map : mapped multi (w_config w) (w_regions w);
  wo_bits : Z.of_nat (length (w_bits w)) = cap / BS;
}.

Lemma mapped_put_plugged n c rs : mapped multi c rs -> mapped multi (put_plugged n c) rs.
Proof. by unfold mapped. Qed.

(** *** Plug and unplug *)

Lemma released_yields r offset a (h : H) : yields -> (released r offset a h).1 = true.
Proof.
  intros [H1 H2]. unfold released. destruct (sc_host_fd r) as [fd|]; [|apply H1].
  specialize (H2 fd offset (sc_size r) h). destruct (punch_hole _ _ _ h) as [b h1]; cbn in H2; subst. apply H1.
Qed.

(** One request on the bitmap: what it answers and the blocks afterwards. *)
Lemma state_change_sim c rs fd r plug bits (h : H) :
  geometry cap alignment c -> 0 <= plugged_size c <= cap -> mapped multi c rs -> Z.of_nat (length bits) = cap / BS ->
  request_in_range r ->
  let s := (c, plugged_set bits) in
  exists resp bits' h',
    virtio_mem_state_change_request (mkStateChange c (req_addr r) (nb_blocks r * BS) (nb_blocks r) multi rs fd plug) (bits, h) =
      Ret (Ok resp, (bits', h')) /\ length bits' = length bits /\
    ((resp = answer multi s r plug /\ plugged_set bits' = if resp =? VIRTIO_MEM_RESP_ACK then (moved s r plug).2 else s.2) \/
     (answer multi s r plug = VIRTIO_MEM_RESP_ACK /\ resp = VIRTIO_MEM_RESP_ERROR /\ plug = false /\ bits' = bits /\ ~ yields)).
Proof.
  intros Hg Hp Hm Hl [Ha Hn]. cbv zeta.
  destruct (state_change_eq cap alignment (mkStateChange c (req_addr r) (nb_blocks r * BS) (nb_blocks r) multi rs fd plug)
              multi c bits h (nb_blocks r)) as (ok & h' & -> & Hack); [done..|].
  cbn [sc_addr sc_plug] in *. change (expected_response multi c (plugged_set bits) (req_addr r) (nb_blocks r) plug) with (answer multi (c, plugged_set bits) r plug) in *.
  destruct (Z.eqb_spec (answer multi (c, plugged_set bits) r plug) VIRTIO_MEM_RESP_ACK) as [E|E]; cbn [andb].
  - destruct (Hack E) as [Hlen Hrel]. destruct ok; cbn [negb].
    + eexists _, _, _. split; [done|]. split; [apply set_bitmap_length|]. left. split; [done|]. rewrite E. cbn.
      rewrite set_bitmap_plugged by done. by destruct plug.
    + eexists _, _, _. split; [done|]. split; [done|]. right. destruct plug; [by destruct Hrel|].
      destruct Hrel as [a Hrel]. split_and!; [done..|]. intros Hy. pose proof (released_yields (mkStateChange c (req_addr r) (nb_blocks r * BS) (nb_blocks r) multi rs fd false) (req_addr r - mem_addr c) a h Hy) as Hr.
      by rewrite <- Hrel in Hr.
  - eexists _, _, _. split; [done|]. split; [done|]. left. split; [done|]. by rewrite (proj2 (Z.eqb_neq _ _) E).
Qed.

Lemma change_request_eq r c rs fd plug :
  geometry cap alignment c -> request_in_range r ->
  StateChangeRequest_new r c multi rs fd plug = Ret (mkStateChange c (req_addr r) (nb_blocks r * BS) (nb_blocks r) multi rs fd plug).
Proof. intros Hg [Ha Hn]. unfold StateChangeRequest_new. rewrite (g_block _ _ _ Hg), umul_Ret by ulia. done. Qed.

Lemma run_on_bits {A} (m : eff (list bool * H) False A) (w : world) r bits h :
  m (w_bits w, w_host w) = Ret (r, (bits, h)) -> on_bits m w = Ret (r, mkMemWorld (w_config w) (w_regions w) h bits (w_mem w)).
Proof. intros E. unfold on_bits. by rewrite (run_zoom _ _ _ _ _ _ E). Qed.

Lemma process_state_change_sim fd r plug w :
  world_ok w -> request_in_range r -> plug_of r = Some plug ->
  exists resp w', process_state_change multi fd r plug w = Ret (Ok resp, w') /\
    mem_step yields multi (view w) r resp 0 (view w') /\ w_regions w' = w_regions w /\ w_mem w' = w_mem w /\
    length (w_bits w') = length (w_bits w).
Proof.
  intros [Hv Hm Hl] Hr Hpl. pose proof Hv as [Hg Hu Hp Hx]. cbn [fst snd view] in *. pose proof Hr as [Ha Hn].
  unfold process_state_change. rewrite run_gets. unfold id. rewrite (change_request_eq _ _ _ _ _ Hg Hr), run_lift.
  destruct (state_change_sim (w_config w) (w_regions w) fd r plug (w_bits w) (w_host w))
    as (resp & bits' & h' & E & Hlen & Hres); [done|lia|done..|].
  cbv beta. rewrite (run_ok_bind _ _ _ _ _ (run_on_bits _ _ _ _ _ E)). cbn [w_config sc_size].
  destruct Hres as [[-> Hset]|(Hack & -> & -> & -> & Hny)].
  2:{ eexists _, _. split; [done|]. cbn [w_regions w_mem w_bits]. split_and!; [|done..]. by apply step_refused. }
  fold (view w) in *. destruct (Z.eqb_spec (answer multi (view w) r plug) VIRTIO_MEM_RESP_ACK) as [Eack|Eack].
  2:{ eexists _, _. split; [done|]. cbn [w_regions w_mem w_bits]. split_and!; [|done..].
      assert (view (mkMemWorld (w_config w) (w_regions w) h' bits' (w_mem w)) = view w) as ->; [|by apply step_denied].
      unfold view. cbn [w_config w_bits]. by rewrite Hset. }
  destruct (answer_ack _ _ _ _ _ _ _ Hv Eack) as (Hus & Hf & Hq). pose proof (g_requested _ _ _ Hg) as [[_ Hrq] _]. rewrite Eack in *.
  assert ((if plug then uadd u64_max (plugged_size (w_config w)) (nb_blocks r * BS) else usub (plugged_size (w_config w)) (nb_blocks r * BS))
          = Ret (plugged_size (moved (view w) r plug).1)) as ->.
  { destruct plug; cbn [moved fst plugged_size put_plugged view].
    - apply uadd_Ret. specialize (Hq eq_refl). cbn in Hq. pose proof (g_addr _ _ _ Hg). ulia.
    - apply usub_Ret. apply subseteq_size in Hf. rewrite size_range in Hf. cbn in Hf. lia. }
  eexists _, _. split; [done|]. cbn [w_regions w_mem w_bits]. split_and!; [|done..].
  match goal with |- mem_step _ _ _ _ _ _ ?v => assert (v = moved (view w) r plug) as -> end; [|by apply step_moved].
  unfold view at 1. cbn [put_w_config w_config w_bits]. rewrite Hset. by destruct plug.
Qed.

(** *** Unplug everything *)

(** One block of the usable part can always be asked back. *)
Lemma single_block_ack c blocks x :
  geometry cap alignment c -> x ∈ blocks -> (Z.of_nat x + 1) * BS <= usable_region_size c ->
  answer multi (c, blocks) (mkMemReq VIRTIO_MEM_REQ_UNPLUG (mem_addr c + Z.of_nat x * BS) 1) false = VIRTIO_MEM_RESP_ACK.
Proof.
  intros Hg Hx Hu. pose proof Hg as [Hb Hc Hr Ha Hus Hq Hal]. unfold answer, expected_response. cbn [fst snd req_addr nb_blocks andb].
  unfold block_of. replace (mem_addr c + Z.of_nat x * BS - mem_addr c) with (Z.of_nat x * BS) by lia.
  rewrite Z.div_mul, Nat2Z.id by done.
  rewrite (bool_decide_true (in_usable _ _ _)), (bool_decide_true (blocks_free _ _ _ _)).
  - unfold same_map_region. rewrite !shiftr31 by lia. cbn [andb].
    replace (_ / RS) with (Z.of_nat x * BS / RS) at 1; [by rewrite Z.eqb_refl, andb_false_r|].
    change RS with (BS * 512). rewrite <- !Z.div_div by lia. f_equal. rewrite Z.div_mul by lia.
    apply (Z.div_unique _ _ _ (BS - 1)); lia.
  - cbn. intros j Hj%elem_of_range. by replace j with x by lia.
  - unfold in_usable. rewrite Z.mul_1_l. split_and!; [|done|lia..]. rewrite Z.add_mod, Z.mod_mul by lia.
    by destruct Ha as (_ & -> & _).
Qed.

Lemma single_block_moved c blocks x :
  (moved (c, blocks) (mkMemReq VIRTIO_MEM_REQ_UNPLUG (mem_addr c + Z.of_nat x * BS) 1) false).2 = blocks ∖ {[x]}.
Proof.
  cbn. unfold request_blocks, block_of. cbn [fst req_addr nb_blocks].
  replace (mem_addr c + Z.of_nat x * BS - mem_addr c) with (Z.of_nat x * BS) by lia. rewrite Z.div_mul, Nat2Z.id by done.
  change (block_range x (Z.to_nat 1)) with ({[x]} ∪ ∅ : gset nat). set_solver.
Qed.

Lemma unplug_blocks_sim c rs fd xs bits (h : H) :
  geometry cap alignment c -> 0 <= plugged_size c <= cap -> mapped multi c rs -> Z.of_nat (length bits) = cap / BS ->
  (forall j, j ∈ plugged_set bits -> (Z.of_nat j + 1) * BS <= usable_region_size c) ->
  Forall (fun x => (x < length bits)%nat) xs ->
  exists resp bits' h', unplug_blocks c multi rs fd xs (bits, h) = Ret (Ok resp, (bits', h')) /\
    length bits' = length bits /\
    ((resp = VIRTIO_MEM_RESP_ACK /\ plugged_set bits' = plugged_set bits ∖ list_to_set xs) \/
     (resp = VIRTIO_MEM_RESP_ERROR /\ plugged_set bits' ⊆ plugged_set bits /\ plugged_set bits' <> ∅ /\ ~ yields)).
Proof.
  intros Hg Hp Hm Hl Hu Hxs. pose proof Hg as [Hb Hc Hr Ha Hus Hq Hal]. revert bits h Hl Hu Hxs.
  induction xs as [|x xs IH]; intros bits h Hl Hu Hxs.
  { exists VIRTIO_MEM_RESP_ACK, bits, h. split_and!; [done..|]. left. split; [done|]. set_solver. }
  apply Forall_cons in Hxs as [Hx Hxs]. cbn [unplug_blocks]. rewrite run_gets. cbn [fst].
  destruct (lookup_lt_is_Some_2 bits x Hx) as [b Eb]. rewrite Eb. change ((expect (Some b) ≫= ?k) ?s) with (k b s). cbv beta.
  destruct b.
  2:{ destruct (IH bits h Hl Hu Hxs) as (resp & bits' & h' & -> & Hlen & Hres). exists resp, bits', h'. split_and!; [done..|].
      destruct Hres as [[-> ->]|Hres]; [left|by right]. split; [done|]. cbn. apply set_eq. intros j.
      rewrite !elem_of_difference, elem_of_union, elem_of_singleton. split; [|tauto]. intros [Hj Hn]. split; [done|].
      intros [->|]; [|done]. apply elem_of_plugged in Hj. congruence. }
  pose proof (proj2 (elem_of_plugged bits x) Eb) as Hxp. pose proof (Hu x Hxp) as Hxu.
  rewrite Hb, umul_Ret, run_lift by ulia. cbv beta. rewrite uadd_Ret, run_lift by ulia. cbv beta.
  set (r := mkMemReq VIRTIO_MEM_REQ_UNPLUG (mem_addr c + Z.of_nat x * BS) 1).
  pose proof (single_block_ack c (plugged_set bits) x Hg Hxp Hxu) as Hack. fold r in Hack.
  destruct (state_change_sim c rs fd r false bits h) as (resp & bits1 & h1 & E & Hlen1 & Hres); [done..|split; cbn; ulia|].
  change (mkStateChange c _ _ _ multi rs fd false) with (mkStateChange c (req_addr r) (nb_blocks r * BS) (nb_blocks r) multi rs fd false).
  rewrite (run_ok_bind _ _ _ _ _ E).
  destruct Hres as [[-> Hset]|(_ & -> & _ & -> & Hny)].
  2:{ eexists _, _, _. split_and!; [done..|]. right. split_and!; [done..| |done]. set_solver. }
  rewrite Hack in *. cbn [negb Z.eqb]. change ((modify ?f ≫= ?k) ?s) with (k tt (f s)). cbv beta. cbn [fst snd].
  assert (plugged_set (<[x := false]> bits1) = plugged_set bits ∖ {[x]}) as Hset'.
  { rewrite clear_plugged, Hset. subst r. rewrite single_block_moved. set_solver. }
  destruct (IH (<[x := false]> bits1) h1) as (resp & bits' & h' & -> & Hlen & Hres).
  { by rewrite length_insert, Hlen1. }
  { rewrite Hset'. intros j [Hj _]%elem_of_difference. by apply Hu. }
  { by rewrite length_insert, Hlen1. }
  exists resp, bits', h'. rewrite length_insert, Hlen1 in Hlen. rewrite Hset' in Hres. split_and!; [done..|].
  destruct Hres as [[-> ->]|(-> & Hs & Hne & Hny)]; [left|right]; split_and!; try done; set_solver.
Qed.

Lemma unplug_all_sim fd (w : world) :
  world_ok w ->
  exists resp bits' h', virtio_mem_unplug_all (w_config w) multi (w_regions w) fd (w_bits w, w_host w) = Ret (Ok resp, (bits', h')) /\
    length bits' = length (w_bits w) /\
    ((resp = VIRTIO_MEM_RESP_ACK /\ plugged_set bits' = ∅) \/
     (resp = VIRTIO_MEM_RESP_ERROR /\ plugged_set bits' ⊆ plugged_set (w_bits w) /\ plugged_set bits' <> ∅ /\ ~ yields)).
Proof.
  intros [[Hg Hu Hp Hx] Hm Hl]. cbn [fst snd view] in *. unfold virtio_mem_unplug_all, udiv.
  rewrite (g_block _ _ _ Hg), (g_cap _ _ _ Hg), <- Hl. change (BS =? 0) with false. cbv iota. rewrite run_lift. cbv beta.
  rewrite Nat2Z.id.
  destruct (unplug_blocks_sim (w_config w) (w_regions w) fd (seq 0 (length (w_bits w))) (w_bits w) (w_host w))
    as (resp & bits' & h' & E & Hlen & Hres); [done|lia|done..| |].
  { apply Forall_forall. intros x Hx'%elem_of_seq. lia. }
  exists resp, bits', h'. split_and!; [done..|]. destruct Hres as [[-> ->]|Hres]; [left|by right]. split; [done|].
  apply set_eq. intros j. rewrite elem_of_difference, elem_of_list_to_set, elem_of_seq. split; [|set_solver].
  intros [Hj%elem_of_plugged%lookup_lt_Some Hn]. lia.
Qed.

(** *** The state of blocks *)

Lemma state_request_sim r (w : world) :
  world_ok w -> request_in_range r -> mem_addr (w_config w) <= req_addr r ->
  exists st, virtio_mem_state_request (w_config w) (req_addr r) (nb_blocks r) (w_bits w) =
      Ret (if decide (in_usable (w_config w) (req_addr r) (nb_blocks r * BS)) then VIRTIO_MEM_RESP_ACK else VIRTIO_MEM_RESP_ERROR, st) /\
    (in_usable (w_config w) (req_addr r) (nb_blocks r * BS) -> st = blocks_state (plugged_set (w_bits w)) (request_blocks (view w) r)).
Proof.
  intros [[Hg Hu Hp Hx] Hm Hl] [Ha Hn] Hle. cbn [fst snd view] in *. unfold virtio_mem_state_request.
  rewrite (g_block _ _ _ Hg), umul_Ret by ulia. cbn [mbind outcome_bind].
  rewrite (valid_range_eq cap alignment) by (done || ulia). cbn [mbind outcome_bind]. rewrite usub_Ret by done. cbn [mbind outcome_bind].
  change (BS =? 0) with false. cbn [mbind outcome_bind udiv Z.eqb].
  eexists. split; [by case_bool_decide; case_decide|]. intros Hus.
  destruct (usable_blocks cap alignment _ _ _ Hg Hus) as (Hi & Hn0 & Hadr & Hub).
  pose proof (usable_in_bitmap cap alignment _ _ _ _ Hg Hl Hi Hn0 Hub) as Hbl.
  unfold blocks_state, request_blocks. cbn [fst view].
  pose proof (check_bitmap_free _ _ _ false Hbl) as E1. pose proof (check_bitmap_free _ _ _ true Hbl) as E2.
  cbn [negb] in E1, E2. rewrite E1, E2. cbn [blocks_free]. unfold block_of.
  by repeat case_bool_decide; repeat case_decide.
Qed.

(** *** A request *)

Lemma send_response_eq sa resp st (w : world) :
  exists len, send_response sa resp st w = Ret (Ok len, put_w_mem (mem_write sa (mem_resp_bytes resp st) (w_mem w)).2 w).
Proof. unfold send_response. destruct (mem_write _ _ _) as [res m]. by eexists. Qed.

(** A request of a type that is not in the protocol. *)
Lemma unknown_request_ignored fd r sa (w : world) :
  ~ known_request r -> process_request multi fd (Ok (r, sa)) w = Ret (Ok 0, w).
Proof.
  unfold known_request, process_request. intros Hk.
  by rewrite !(proj2 (Z.eqb_neq _ _)) by (intros E; apply Hk; rewrite E; vm_compute; split; discriminate).
Qed.

(** A request that the handler knows takes the step of the abstract device and
    sends the answer. *)
Lemma process_request_sim fd r sa (w : world) :
  world_ok w -> request_in_range r -> known_request r -> ~ below_region (w_config w) r ->
  exists len resp st w', process_request multi fd (Ok (r, sa)) w = Ret (Ok len, w') /\
    mem_step yields multi (view w) r resp st (view w') /\
    w_mem w' = (mem_write sa (mem_resp_bytes resp st) (w_mem w)).2 /\
    w_regions w' = w_regions w /\ length (w_bits w') = length (w_bits w).
Proof.
  intros Hok Hr Hk Hb. unfold process_request.
  destruct (Z.eqb_spec (req_type r) VIRTIO_MEM_REQ_PLUG) as [Et|Et];
    [|destruct (Z.eqb_spec (req_type r) VIRTIO_MEM_REQ_UNPLUG) as [Et'|Et'];
      [|destruct (Z.eqb_spec (req_type r) VIRTIO_MEM_REQ_UNPLUG_ALL) as [Et2|Et2];
        [|destruct (Z.eqb_spec (req_type r) VIRTIO_MEM_REQ_STATE) as [Et3|Et3]; [|unfold known_request in Hk; lia]]]].
  - assert (plug_of r = Some true) as Hpl by (unfold plug_of; by rewrite Et).
    destruct (process_state_change_sim fd r true w Hok Hr Hpl) as (resp & w1 & E & Hs & Hreg & Hmem & Hlen).
    rewrite (run_ok_bind _ _ _ _ _ E). destruct (send_response_eq sa resp 0 w1) as [len ->]. rewrite Hmem.
    by eexists len, resp, 0, _.
  - assert (plug_of r = Some false) as Hpl by (unfold plug_of; by rewrite Et').
    destruct (process_state_change_sim fd r false w Hok Hr Hpl) as (resp & w1 & E & Hs & Hreg & Hmem & Hlen).
    rewrite (run_ok_bind _ _ _ _ _ E). destruct (send_response_eq sa resp 0 w1) as [len ->]. rewrite Hmem.
    by eexists len, resp, 0, _.
  - rewrite run_gets. unfold id. destruct (unplug_all_sim fd w Hok) as (resp & bits' & h' & E & Hlen & Hres).
    rewrite (run_ok_bind _ _ _ _ _ (run_on_bits _ _ _ _ _ E)).
    destruct Hres as [[-> Hset]|(-> & Hsub & Hne & Hny)].
    + cbn [Z.eqb]. change ((modify ?f ≫= ?k) ?s) with (k tt (f s)). cbv beta.
      match goal with |- context [send_response ?a ?b ?c ?d] => destruct (send_response_eq a b c d) as [len ->] end.
      eexists len, _, 0, _. split; [done|]. split_and!; [|done..]. unfold view at 2.
      cbn [put_w_mem put_w_config w_config w_bits]. rewrite Hset. by apply (step_unplug_all _ _ (view w)).
    + cbn [Z.eqb]. erewrite run_ok_bind by reflexivity.
      match goal with |- context [send_response ?a ?b ?c ?d] => destruct (send_response_eq a b c d) as [len ->] end.
      eexists len, _, 0, _. split; [done|]. split_and!; [|done..].
      by apply (step_unplug_all_refused _ _ (view w)).
  - rewrite run_gets. unfold id. assert (mem_addr (w_config w) <= req_addr r) as Hle by (unfold below_region in Hb; lia).
    destruct (state_request_sim r w Hok Hr Hle) as (st & -> & Hst). rewrite run_lift.
    match goal with |- context [send_response ?a ?b ?c ?d] => destruct (send_response_eq a b c d) as [len ->] end.
    eexists len, _, st, _. split; [done|]. split_and!; [|done..]. by apply (step_state _ _ (view w)).
Qed.
End handler.
