(* ===== verification/VirtioMemDevice.v ===== *)
(** * The virtio-mem device over time

    The invariant of the device holds from activation on, through requests of the
    guest and new sizes from the host. *)
From S2P Require Import Prelude Bits DeviceResources Effects InterruptManager MmioData VirtioDeviceInfo VirtioMem VirtioMemFacts VirtioMemSpec.

Section device.
Context {H Q Ch M : Type} `{HH : MemHost H} `{!MemHostLaws H} `{HM : GuestMem M} `{!GuestMemLaws M} `{HQ : VirtQueue Q Ch M} `{!VirtQueueLaws Q Ch M}.
#[local] Abbreviation world := (MemWorld H M).
#[local] Abbreviation yields := (host_yields H).

Section requests.
Context (cap alignment : Z) (multi : bool).
#[local] Abbreviation ok := (world_ok cap alignment multi).

(** ** Requests of the guest *)

(** What a request leaves alone. *)
Definition limits (w : world) := (put_plugged 0 (w_config w), w_regions w).

Lemma step_limits s r resp st s' : mem_step yields multi s r resp st s' -> put_plugged 0 s'.1 = put_plugged 0 s.1.
Proof. destruct 1 as [| | | | |]; try done. unfold moved. by destruct plug. Qed.

Lemma step_world_ok (w w' : world) r resp st :
  mem_step yields multi (view w) r resp st (view w') -> w_regions w' = w_regions w -> length (w_bits w') = length (w_bits w) ->
  ok w -> ok w' /\ limits w' = limits w.
Proof.
  intros Hs Hreg Hlen [Hv Hm Hl]. pose proof (step_limits _ _ _ _ _ Hs) as Hlim. cbn [fst view] in Hlim. split.
  - split; [by eapply mem_step_ok| |congruence]. rewrite Hreg.
    unfold mapped in *. assert (region_size (w_config w') = region_size (w_config w) /\
      usable_region_size (w_config w') = usable_region_size (w_config w) /\ mem_addr (w_config w') = mem_addr (w_config w)) as (-> & -> & ->);
      [|done]. by injection Hlim.
  - unfold limits. by rewrite Hlim, Hreg.
Qed.

Lemma mem_req_in_range l : length l = 24%nat -> Forall (fun b => 0 <= b < 256) l -> request_in_range (mem_req_of_bytes l).
Proof.
  intros Hl Hb. unfold request_in_range. cbn.
  pose proof (le_read_bound (take 8 (drop 8 l)) (Forall_take _ _ _ (Forall_drop _ _ _ Hb))) as H1.
  pose proof (le_read_bound (take 2 (drop 16 l)) (Forall_take _ _ _ (Forall_drop _ _ _ Hb))) as H2.
  rewrite length_take, length_drop, Hl in H1, H2. cbn in H1, H2. ulia.
Qed.

Lemma Request_parse_in_range c m r sa : Request_parse c m = Ok (r, sa) -> request_in_range r.
Proof.
  unfold Request_parse. repeat (case_match; try done). intros [= <- <-].
  match goal with E : mem_read _ _ _ = Ok _ |- _ => apply mem_read_bytes in E as [? ?] end. by apply mem_req_in_range.
Qed.

(** A request panics when it asks for the state of blocks below the region, and
    only then. *)
Lemma below_region_panics fd r sa (w : world) :
  ok w -> request_in_range r -> below_region (w_config w) r -> process_request multi fd (Ok (r, sa)) w = Panic.
Proof.
  intros [[Hg _ _ _] _ _] [Ha Hn] [Ht Hlt]. cbn in Hg. unfold process_request. rewrite Ht. cbn [Z.eqb Pos.eqb].
  rewrite run_gets. unfold id, virtio_mem_state_request. rewrite (g_block _ _ _ Hg), umul_Ret by ulia. cbn [mbind outcome_bind].
  rewrite (valid_range_eq cap alignment) by (done || ulia). cbn [mbind outcome_bind].
  unfold usub. destruct (Z.leb_spec (mem_addr (w_config w)) (req_addr r)); [lia|done].
Qed.

Definition invariant (w w' : world) : Prop := ok w -> ok w' /\ limits w' = limits w.

Lemma invariant_refl w : invariant w w.
Proof. by intros ?. Qed.
Lemma invariant_trans w1 w2 w3 : invariant w1 w2 -> invariant w2 w3 -> invariant w1 w3.
Proof. intros H1 H2 Hw. destruct (H1 Hw) as [Hw2 E2]. destruct (H2 Hw2) as [Hw3 E3]. split; [done|congruence]. Qed.

Lemma process_request_keeps fd p : (forall r sa, p = Ok (r, sa) -> request_in_range r) -> keeps invariant (process_request multi fd p).
Proof.
  intros Hp w res w' E Hw. destruct p as [[r sa]|e]; [|injection E as _ <-; by apply invariant_refl].
  specialize (Hp r sa eq_refl). destruct (decide (0 <= req_type r <= 3)) as [Hk|Hk].
  - destruct (decide (req_type r = VIRTIO_MEM_REQ_STATE /\ req_addr r < mem_addr (w_config w))) as [Hb|Hb].
    { by rewrite (below_region_panics fd r sa w) in E. }
    destruct (process_request_sim cap alignment multi fd r sa w Hw Hp Hk Hb) as (len & resp & st & w1 & E1 & Hs & _ & Hreg & Hlen).
    rewrite E1 in E. injection E as _ <-. by eapply step_world_ok.
  - unfold process_request in E. rewrite !(proj2 (Z.eqb_neq (req_type r) _)) in E by lia. injection E as _ <-. by apply invariant_refl.
Qed.

Lemma invariant_mem m (w : world) : invariant w (put_w_mem m w).
Proof. by intros []. Qed.
Lemma invariant_host h (w : world) : invariant w (put_w_host h w).
Proof. by intros []. Qed.

Ltac inv_bind := apply keeps_bind; [apply invariant_trans| |].

Lemma process_requests_keeps fuel fd q used : keeps invariant (process_requests fuel multi fd q used).
Proof.
  revert q used. induction fuel as [|fuel IH]; intros q used; [apply keeps_panic|]. cbn [process_requests].
  inv_bind; [apply keeps_gets, invariant_refl|]. intros w. case_match; [|apply keeps_ret, invariant_refl]. case_match.
  inv_bind; [|intros len; apply IH]. apply process_request_keeps. intros r sa. apply Request_parse_in_range.
Qed.

Lemma add_used_all_keeps used q : keeps invariant (add_used_all (H := H) used q).
Proof.
  revert q. induction used as [|[index len] used IH]; intros q; [apply keeps_ret, invariant_refl|]. cbn [add_used_all].
  inv_bind; [apply keeps_gets, invariant_refl|]. intros w. repeat case_match; [|apply keeps_panic].
  inv_bind; [apply keeps_modify, invariant_mem|]. intros _. apply IH.
Qed.

Lemma on_host_keeps {A} (f : H -> A * H) : keeps invariant (on_host w_host put_w_host f : eff world False A).
Proof. intros w r w'. unfold on_host. destruct (f (w_host w)) as [a h]. intros [= _ <-]. apply invariant_host. Qed.

Lemma process_event_keeps idx handler :
  h_multi_region handler = multi -> keeps invariant (process_event idx handler).
Proof.
  intros Hmul. unfold process_event, process_queue. rewrite Hmul. case_match; [|apply keeps_ret, invariant_refl].
  inv_bind; [apply on_host_keeps|]. intros consumed. case_match; [|apply keeps_ret, invariant_refl].
  inv_bind; [|intros [q1 any]; inv_bind; [case_match; [apply on_host_keeps|apply keeps_ret, invariant_refl]|intros _; apply keeps_ret, invariant_refl]].
  inv_bind; [apply keeps_gets, invariant_refl|]. intros w. case_match; [|apply keeps_ret, invariant_refl].
  inv_bind; [apply process_requests_keeps|]. intros [q' used].
  inv_bind; [apply add_used_all_keeps|]. intros q2. apply keeps_ret, invariant_refl.
Qed.

Lemma process_event_handler idx handler (w w' : world) handler' :
  process_event idx handler w = Ret (Ok handler', w') ->
  h_multi_region handler' = h_multi_region handler /\ h_host_fd handler' = h_host_fd handler.
Proof.
  unfold process_event. case_match; [|by intros [= <- _]]. intros E. apply bind_inv in E as [(e & _ & [=])|(a & w1 & _ & E)].
  case_match; [|by injection E as <- _]. apply bind_inv in E as [(e & _ & [=])|([q2 any] & w2 & _ & E)].
  apply bind_inv in E as [(e & _ & [=])|(u & w3 & _ & E)]. by injection E as <- _.
Qed.

(** ** Events return *)

(** Guest memory satisfies [P] whatever the device writes to it, and then the
    requests in it ask only for the state of blocks at or above [base]. *)
Record asks_above (P : M -> Prop) (base : Z) : Prop := {
  aa_request (c : Ch) m r sa : P m -> Request_parse c m = Ok (r, sa) -> req_type r = VIRTIO_MEM_REQ_STATE -> base <= req_addr r;
  aa_write a bytes m : P m -> P (mem_write a bytes m).2;
}.
(** The queue takes back every chain. *)
Definition takes_back : Prop := forall index len (q : Q) (m : M), (vq_add_used index len q m).1 = Ok tt.

Section returns.
Context (P : M -> Prop).

Lemma process_request_returns fd c (w : world) :
  ok w -> asks_above P (mem_addr (w_config w)) -> P (w_mem w) ->
  exists len w', process_request multi fd (Request_parse c (w_mem w)) w = Ret (Ok len, w') /\ P (w_mem w').
Proof.
  intros Hw [Ha Hwr] HP. destruct (Request_parse c (w_mem w)) as [[r sa]|e] eqn:Ep; [|by eexists _, w].
  pose proof (Request_parse_in_range _ _ _ _ Ep) as Hr. specialize (Ha _ _ _ _ HP Ep). destruct (decide (0 <= req_type r <= 3)) as [Hk|Hk].
  - assert (~ below_region (w_config w) r) as Hb by (unfold below_region; lia).
    destruct (process_request_sim cap alignment multi fd r sa w Hw Hr Hk Hb) as (len & resp & st & w1 & E1 & _ & Hm & _).
    exists len, w1. split; [done|]. rewrite Hm. by apply Hwr.
  - unfold process_request. rewrite !(proj2 (Z.eqb_neq (req_type r) _)) by lia. by eexists _, w.
Qed.

Lemma process_requests_returns fuel fd q used (w : world) :
  ok w -> asks_above P (mem_addr (w_config w)) -> P (w_mem w) -> (vq_left q < fuel)%nat ->
  exists q' used' w', process_requests fuel multi fd q used w = Ret (Ok (q', used'), w') /\ ok w'.
Proof.
  revert q used w. induction fuel as [|fuel IH]; intros q used w Hw Ha HP Hf; [lia|]. cbn [process_requests]. rewrite run_gets. unfold id.
  destruct (vq_next q (w_mem w)) as [[c q1]|] eqn:En; [|by eexists _, _, w]. apply vq_next_left in En.
  destruct (process_request_returns fd c w Hw Ha HP) as (len & w1 & E1 & HP1). rewrite (run_ok_bind _ _ _ _ _ E1).
  assert (invariant w w1) as Hinv by (eapply process_request_keeps; [|done]; intros r sa; apply Request_parse_in_range).
  destruct (Hinv Hw) as [Hw1 Hlim]. apply IH; [done| |done|lia].
  assert (mem_addr (w_config w1) = mem_addr (w_config w)) as ->; [|done]. by injection Hlim.
Qed.

Lemma add_used_all_returns used q (w : world) : takes_back -> exists q' w', add_used_all (H := H) used q w = Ret (Ok q', w').
Proof.
  intros Ht. revert q w. induction used as [|[index len] used IH]; intros q w; [by eexists _, w|]. cbn [add_used_all]. rewrite run_gets. unfold id.
  specialize (Ht index len q (w_mem w)). destruct (vq_add_used _ _ _ _) as [[[]|e] [q1 m1]]; [|done]. cbn in Ht. apply IH.
Qed.

Lemma process_queue_returns fd q (w : world) :
  ok w -> asks_above P (mem_addr (w_config w)) -> P (w_mem w) -> takes_back ->
  exists q' any w', process_queue multi fd q w = Ret (Ok (q', any), w').
Proof.
  intros Hw Ha HP Ht. unfold process_queue. rewrite run_gets. unfold id. destruct (vq_iter q (w_mem w)) as [q1|]; [|by eexists _, _, w].
  destruct (process_requests_returns (S (vq_left q1)) fd q1 [] w Hw Ha HP) as (q2 & used & w2 & E2 & Hw2); [lia|].
  rewrite (run_ok_bind _ _ _ _ _ E2). destruct (add_used_all_returns used q2 w2 Ht) as (q3 & w3 & E3).
  rewrite (run_ok_bind _ _ _ _ _ E3). by eexists _, _, w3.
Qed.

Lemma process_event_returns idx handler (w : world) :
  h_multi_region handler = multi -> ok w -> asks_above P (mem_addr (w_config w)) -> P (w_mem w) -> takes_back ->
  exists handler' w', process_event idx handler w = Ret (Ok handler', w').
Proof.
  intros Hmul Hw Ha HP Ht. unfold process_event. rewrite Hmul. destruct (h_queues handler !! idx) as [q|]; [|by eexists _, w].
  rewrite run_on_host. destruct (consume_event idx (w_host w)) as [[z|e] h1]; cbn [fst snd]; [|by eexists _, _].
  destruct (process_queue_returns (h_host_fd handler) q (put_w_host h1 w)) as (q' & any & w1 & E1); [by apply invariant_host|done..|].
  rewrite (run_ok_bind _ _ _ _ _ E1). destruct any; [rewrite run_on_host|]; by eexists _, _.
Qed.
End returns.

(** ** Enough room *)

(** A block that is usable and not plugged, while less is plugged than requested. *)
Lemma free_block s :
  view_ok cap alignment yields s -> plugged_size s.1 < requested_size s.1 <= usable_region_size s.1 ->
  exists x, (x ∉ s.2) /\ (Z.of_nat x + 1) * BS <= usable_region_size s.1.
Proof.
  intros [Hg Hu [Hp Hpm] Hx] Hreq. pose proof (g_usable _ _ _ Hg) as [Hus Hum]. pose proof (g_requested _ _ _ Hg) as [Hrs Hrm].
  set (k := usable_region_size s.1 / BS). assert (usable_region_size s.1 = k * BS) as Ek by (subst k; Z.div_mod_to_equations; lia).
  destruct (decide (set_Forall (fun x => x ∈ s.2) (block_range 0 (Z.to_nat k)))) as [Hall|Hall].
  - assert (block_range 0 (Z.to_nat k) ⊆ s.2) as Hsub%subseteq_size by exact Hall. rewrite size_range in Hsub. lia.
  - apply not_set_Forall_Exists in Hall as (x & Hx1%elem_of_range & Hx2); [|apply _]. exists x. split; [done|]. lia.
Qed.

Definition plug_block (c : VirtioMemConfig) (x : nat) : VirtioMemReq :=
  mkMemReq VIRTIO_MEM_REQ_PLUG (mem_addr c + Z.of_nat x * BS) 1.

Lemma single_block_plug s x :
  view_ok cap alignment yields s -> x ∉ s.2 -> (Z.of_nat x + 1) * BS <= usable_region_size s.1 ->
  plugged_size s.1 < requested_size s.1 -> answer multi s (plug_block s.1 x) true = VIRTIO_MEM_RESP_ACK.
Proof.
  intros Hv Hx Hu Hlt. pose proof Hv as [Hg _ [Hp Hpm] _]. pose proof Hg as [Hb Hc Hr Ha Hus [Hq Hqm] Hal].
  pose proof (single_block_ack cap alignment multi s.1 (s.2 ∪ {[x]}) x Hg) as Hun.
  unfold answer, expected_response, plug_block in *. cbn [fst snd req_addr nb_blocks andb] in *.
  destruct (Z.ltb_spec (requested_size s.1) (plugged_size s.1 + 1 * BS)) as [Hover|_]; [Z.div_mod_to_equations; lia|].
  unfold block_of in *. replace (mem_addr s.1 + Z.of_nat x * BS - mem_addr s.1) with (Z.of_nat x * BS) in * by lia.
  rewrite Z.div_mul, Nat2Z.id in * by done. rewrite (bool_decide_true (blocks_free s.2 _ _ _)).
  - assert (x ∈ s.2 ∪ {[x]}) as Hin by (by apply elem_of_union_r, elem_of_singleton_2). specialize (Hun Hin Hu). clear -Hun.
    destruct (bool_decide (in_usable s.1 _ _)); [|discriminate]. cbn [andb] in *.
    destruct (bool_decide (blocks_free (s.2 ∪ _) _ _ _)); [exact Hun|discriminate].
  - cbn. intros j Hj%elem_of_range. by replace j with x by lia.
Qed.

(** A block more, as long as less is plugged than requested. *)
Lemma plug_one fd (w : world) :
  ok w -> plugged_size (w_config w) < requested_size (w_config w) <= usable_region_size (w_config w) ->
  exists x w', process_state_change multi fd (plug_block (w_config w) x) true w = Ret (Ok VIRTIO_MEM_RESP_ACK, w') /\
    ok w' /\ limits w' = limits w /\ plugged_size (w_config w') = plugged_size (w_config w) + BS /\
    (x ∉ plugged_set (w_bits w)) /\ plugged_set (w_bits w') = plugged_set (w_bits w) ∪ {[x]}.
Proof.
  intros Hw Hreq. pose proof Hw as [Hv Hm Hl]. destruct (free_block _ Hv Hreq) as (x & Hx & Hu). cbn [fst snd view] in Hx, Hu.
  pose proof (single_block_plug _ x Hv Hx Hu) as Hack. cbn [fst view] in Hack. specialize (Hack ltac:(lia)).
  pose proof (vo_geo _ _ _ _ Hv) as Hg. cbn in Hg. pose proof Hg as [_ _ _ Ha Hus _ _].
  assert (request_in_range (plug_block (w_config w) x)) as Hr by (split; cbn; ulia).
  destruct (process_state_change_sim cap alignment multi fd (plug_block (w_config w) x) true w Hw Hr eq_refl)
    as (resp & w' & E & Hs & Hreg & Hmem & Hlen).
  destruct (step_world_ok w w' _ _ _ Hs Hreg Hlen Hw) as [Hw' Hlim].
  assert (resp = VIRTIO_MEM_RESP_ACK /\ view w' = moved (view w) (plug_block (w_config w) x) true) as [-> Hmv].
  { inversion Hs as [plug Hp Hne|plug Hp Ha'|Hp|Ht|b Ht|st Ht]; subst; try (cbn in Ht; discriminate);
      try (cbn in Hp; discriminate); injection Hp as <-; [done|]. done. }
  exists x, w'. split; [done|]. split; [done|]. split; [done|]. injection Hmv as Hc Hb. rewrite Hc, Hb. split; [cbn; lia|]. split; [done|].
  f_equal. apply set_eq. intros y. unfold request_blocks, block_of, plug_block. cbn [fst view req_addr nb_blocks].
  replace (mem_addr (w_config w) + Z.of_nat x * BS - mem_addr (w_config w)) with (Z.of_nat x * BS) by lia.
  rewrite Z.div_mul, Nat2Z.id by done. rewrite elem_of_range, elem_of_singleton. lia.
Qed.
End requests.

(** ** New sizes from the host *)

#[local] Abbreviation system := (Mem Q * MemWorld H M)%type.

Record sys_ok (s : system) : Prop := {
  so_world : world_ok (capacity s.1) (mem_alignment s.1) (mem_multi_region s.1) s.2;
  so_handler : match subscribed s.1 with Some h => h_multi_region h = mem_multi_region s.1 | None => True end;
}.

Lemma run_on_shared {A} (m : eff (VirtioMemConfig * MapRegions * H) MemDeviceError A) (s : system) r c rs h :
  m (w_config s.2, w_regions s.2, w_host s.2) = Ret (r, (c, rs, h)) ->
  on_shared m s = Ret (r, (s.1, mkMemWorld c rs h (w_bits s.2) (w_mem s.2))).
Proof. intros E. unfold on_shared. by rewrite (run_zoom _ _ _ _ _ _ E). Qed.

Lemma mapped_put_requested multi n c rs : mapped multi c rs -> mapped multi (put_requested n c) rs.
Proof. by unfold mapped. Qed.

(** The sizes that are accepted. *)
Definition size_accepted (d : Mem Q) (n : Z) : bool := (n <=? capacity d) && (n mod BS =? 0).

(** A size that is refused changes nothing; one that is accepted is recorded, and
    then the usable part grows to hold it, or the host has no memory for it. *)
Lemma set_requested_spec mb n (s : system) :
  sys_ok s -> mib mb = Ret n -> 0 <= n ->
  exists r w', set_requested_size mb s = Ret (r, (s.1, w')) /\ sys_ok (s.1, w') /\
    w_bits w' = w_bits s.2 /\ w_mem w' = w_mem s.2 /\ plugged_size (w_config w') = plugged_size (w_config s.2) /\
    let c := put_requested n (w_config s.2) in
    if size_accepted s.1 n then
      (w_config w' = put_usable (grown_usable (capacity s.1) (mem_alignment s.1) c) c /\ (r = Ok tt \/ exists e, r = Err (MemIOError e))) \/
      (w_config w' = c /\ mem_multi_region s.1 = true /\ usable_region_size c < wanted_usable (capacity s.1) (mem_alignment s.1) c /\
       exists e a len slot, r = Err e /\ refused e (create_region a len slot (w_host s.2)).1)
    else r = Err MemInvalidInput /\ w' = s.2.
Proof.
  destruct s as [d w]. intros [[[Hg Hu Hp Hx] Hm Hl] Hh] Emib Hn. cbn [fst snd view] in *.
  unfold set_requested_size. rewrite Emib, run_lift. rewrite run_gets. cbn [fst]. unfold size_accepted.
  rewrite (Z.ltb_antisym n). destruct (Z.leb_spec n (capacity d)) as [Hle|Hle]; cbn [negb orb andb].
  2:{ by exists (Err MemInvalidInput), w. }
  destruct (Z.eqb_spec (n mod BS) 0) as [Hmod|Hmod]; cbn [negb]; [|by exists (Err MemInvalidInput), w].
  change ((modify ?f ≫= ?k) ?s) with (k tt (f s)). cbv beta. cbn [fst snd].
  set (c := put_requested n (w_config w)).
  assert (geometry (capacity d) (mem_alignment d) c) as Hgc by (destruct Hg; by split).
  destruct (resize_spec (capacity d) (mem_alignment d) (mem_multi_region d) c (w_regions w) (w_host w) Hgc) as (r & c' & rs' & h' & E & Hg' & Hm' & Hres);
    [by apply mapped_put_requested|].
  assert (usable_region_size c <= usable_region_size c' /\ plugged_size c' = plugged_size (w_config w)) as [Hge Hpl].
  { destruct r; [subst c'; cbn; unfold grown_usable; split; [cbn; lia|done]|by destruct Hres as (-> & _)]. }
  assert (forall h m, sys_ok (d, mkMemWorld c' rs' h (w_bits w) m)) as Hok'.
  { intros h m. split; [|done]. split; cbn; [|done..]. split; cbn; [done| |by rewrite Hpl..].
    intros j Hj. specialize (Hu j Hj). cbn in Hge. lia. }
  pose proof (run_on_shared _ (d, put_w_config c w) _ _ _ _ E) as E'. cbn [fst snd put_w_config w_bits w_mem] in E'. cbv zeta.
  destruct r as [[]|e].
  - rewrite (run_ok_bind _ _ _ _ _ E'). unfold on_host. unfold mbind, eff_bind. cbn [snd w_host].
    destruct (notify_change h') as [[[]|e] h2]; cbn; (eexists _, _; split; [done|]); cbn; (split; [apply Hok'|]);
      split_and!; try done; left; split; [done|by left|done|right; by eexists].
  - rewrite (run_err_bind _ _ _ _ _ E'). exists (Err e). eexists. split; [done|]. cbn. split; [apply Hok'|]. split_and!; try done.
    right. destruct Hres as (-> & -> & Hmul & Hlt & a & len & slot & Href). split_and!; try done. by exists e, a, len, slot.
Qed.

(** ** The way to the first request *)

Lemma block_alignment_pow2 boot : exists k, 27 <= k <= 31 /\ block_alignment boot = 2 ^ k.
Proof.
  unfold block_alignment. case_match; [by exists 27|].
  assert (forall n k, 27 <= k <= 31 -> k - 27 <= Z.of_nat n -> exists k', 27 <= k' <= 31 /\ probe_block_size n boot (2 ^ k) = 2 ^ k') as Hp.
  { induction n as [|n IH]; intros k Hk Hn; cbn [probe_block_size]; [by exists k|].
    destruct (Z.ltb_spec VIRTIO_MEM_DEFAULT_BLOCK_ALIGNMENT (2 ^ k)) as [Hlt|]; [|by exists k]. case_match; [by exists k|].
    assert (k <> 27) by (intros ->; done).
    replace (Z.shiftr (2 ^ k) 1) with (2 ^ (k - 1)); [apply IH; lia|].
    rewrite Z.shiftr_div_pow2, Z.pow_sub_r by lia. done. }
  apply (Hp 5%nat 31); lia.
Qed.

Lemma mib_nonneg a n : 0 <= a -> mib a = Ret n -> 0 <= n <= u64_max.
Proof. unfold mib, umul. intros Ha. case_match; [|done]. cbn. case_match; [|done]. intros [= <-]. lia. Qed.

(** A new device: its capacity is a multiple of twice the alignment. *)
Lemma Mem_new_spec cap_mib req_mib multi numa boot (d : Mem Q) c :
  0 <= cap_mib -> 0 <= req_mib -> Mem_new cap_mib req_mib multi numa boot = Ret (Ok (d, c)) ->
  block_size c = BS /\ region_size c = capacity d /\ 0 < capacity d /\ (2 * mem_alignment d | capacity d) /\
  0 <= requested_size c <= capacity d /\ requested_size c mod BS = 0 /\ usable_region_size c = 0 /\ plugged_size c = 0 /\
  (exists k, 27 <= k <= 31 /\ mem_alignment d = 2 ^ k) /\ mem_state_map d = None /\ subscribed d = None.
Proof.
  intros Hc Hr. unfold Mem_new. destruct (block_alignment_pow2 boot) as (k & Hk & ->).
  destruct (mib cap_mib) as [n|] eqn:En; [|done]. apply mib_nonneg in En; [|done]. cbn [mbind outcome_bind].
  assert (2 ^ k <= 2 ^ 31) by (apply Z.pow_le_mono_r; lia). assert (0 < 2 ^ k) by (apply Z.pow_pos_nonneg; lia).
  rewrite umul_Ret by ulia. cbn [mbind outcome_bind]. unfold uadd. destruct (Z.leb_spec (n + 2 * 2 ^ k) u64_max); [|done]. cbn [mbind outcome_bind]. rewrite usub_Ret by lia.
  cbn [mbind outcome_bind]. destruct (mib req_mib) as [q|] eqn:Eq; [|done]. apply mib_nonneg in Eq; [|done]. cbn [mbind outcome_bind].
  replace (2 * 2 ^ k) with (2 ^ (k + 1)) in * by (rewrite Z.pow_add_r by lia; lia).
  rewrite land_unot_align by (lia || ulia). set (cap := 2 ^ (k + 1) * _).
  destruct (Z.eqb_spec cap 0) as [|Hcap0]; [done|]. destruct (Z.ltb_spec cap q) as [|Hq]; [done|].
  destruct (Z.eqb_spec (q mod BS) 0) as [Hqm|]; [|done]. intros [= <- <-]. cbn.
  assert (0 <= cap) by (apply Z.mul_nonneg_nonneg; [lia|apply Z.div_pos; lia]).
  split_and!; try done; try lia; [|by exists k]. replace (2 * 2 ^ k) with (2 ^ (k + 1)) by (rewrite Z.pow_add_r by lia; lia). apply Z.divide_factor_l.
Qed.

Lemma pow2_mod_block k : 27 <= k -> (BS | 2 ^ k).
Proof. intros Hk. change BS with (2 ^ 22). exists (2 ^ (k - 22)). rewrite <- Z.pow_add_r by lia. f_equal. lia. Qed.

(** The address that the device gets: aligned as it asked for, and in the address
    space. *)
Definition resource_fits (d : Mem Q) (res : DeviceResources) : Prop :=
  forall base size, (base, size) ∈ get_mem_address_ranges res -> 0 <= base /\ (mem_alignment d | base) /\ base + size <= 2 ^ 62.

Lemma set_map_regions_spec (multi : bool) (slots : list Z) c (h : H) c' rs' h' :
  Z.of_nat (length slots) = (if multi then get_map_regions_num (region_size c) else 1) -> usable_region_size c = 0 ->
  set_map_regions multi slots (c, [], h) = Ret (Ok tt, (c', rs', h')) -> 0 <= region_size c -> c' = c /\ mapped multi c rs'.
Proof.
  intros Hl Hu E Hrs. unfold set_map_regions in E. rewrite run_gets in E. unfold id in E. destruct multi.
  - injection E as <- <- <-. split; [done|]. split; [by rewrite length_map|]. exists O. rewrite Hu. split; [lia|].
    intros i. rewrite list_lookup_fmap. destruct (slots !! i); cbn; [lia|done].
  - destruct slots as [|slot slots]; [done|]. unfold on_host, mbind, eff_bind in E. cbn in E.
    destruct (create_region _ _ _ _) as [[[p|]|e] h1] eqn:Ec; cbn in E; try done.
    injection E as <- <- <-. split; [done|]. apply create_region_addr in Ec. exists slot, p. split; [done|]. lia.
Qed.

(** The geometry once the device has its address. *)
Lemma new_geometry cap_mib req_mib multi numa boot (d : Mem Q) c base :
  0 <= cap_mib -> 0 <= req_mib -> Mem_new cap_mib req_mib multi numa boot = Ret (Ok (d, c)) ->
  0 <= base -> (mem_alignment d | base) -> base + capacity d <= 2 ^ 62 ->
  geometry (capacity d) (mem_alignment d) (put_mem_addr base c).
Proof.
  intros Hc Hr E Hb Hal Hfit.
  destruct (Mem_new_spec _ _ _ _ _ _ _ Hc Hr E) as (H1 & H2 & H3 & H4 & H5 & H6 & H7 & H8 & (k & Hk & Ek) & _).
  assert (BS | mem_alignment d) as Hd by (rewrite Ek; apply pow2_mod_block; lia).
  assert (2 ^ k <= 2 ^ 31) by (apply Z.pow_le_mono_r; lia). assert (0 < 2 ^ k) by (apply Z.pow_pos_nonneg; lia).
  split; cbn; [done|done|..]; (split; [lia|]) || idtac.
  - apply Z.mod_divide; [done|]. etransitivity; [exact Hd|]. etransitivity; [|exact H4]. by exists 2.
  - split; [|done]. apply Z.mod_divide; [done|]. by etransitivity.
  - by rewrite H7.
  - done.
  - by apply Z.mod_divide.
Qed.

Lemma set_resource_spec cap_mib req_mib multi numa boot (d : Mem Q) c res (h : H) bits (m : M) s' :
  0 <= cap_mib -> 0 <= req_mib -> Mem_new cap_mib req_mib multi numa boot = Ret (Ok (d, c)) -> resource_fits d res ->
  mem_set_resource res (d, mkMemWorld c [] h bits m) = Ret (Ok tt, s') ->
  s'.1 = d /\ geometry (capacity d) (mem_alignment d) (w_config s'.2) /\
  mapped (mem_multi_region d) (w_config s'.2) (w_regions s'.2) /\
  requested_size (w_config s'.2) = requested_size c /\ requested_size c <= usable_region_size (w_config s'.2) /\
  plugged_size (w_config s'.2) = 0.
Proof.
  intros Hc Hr E Hfit. destruct (Mem_new_spec _ _ _ _ _ _ _ Hc Hr E) as (H1 & H2 & H3 & H4 & H5 & H6 & H7 & H8 & _).
  unfold mem_set_resource. rewrite run_gets. unfold id. destruct (get_mem_address_ranges res) as [|[base size] rest] eqn:Er; [done|].
  destruct (negb _ || _ || _) eqn:Eb; [done|]. apply orb_false_iff in Eb as [Eb Es%negb_false_iff%Z.eqb_eq].
  apply orb_false_iff in Eb as [El%negb_false_iff%Z.eqb_eq _]. cbn in Es, El.
  change ((modify ?f ≫= ?k) ?s) with (k tt (f s)). cbv beta. cbn [fst snd w_config put_w_config].
  destruct (Hfit base size) as (Hb & Hal & Hle); [rewrite Er; left|]. rewrite Es, H2 in Hle.
  pose proof (new_geometry _ _ _ _ _ _ _ _ Hc Hr E Hb Hal Hle) as Hg.
  intros E1. apply bind_inv in E1 as [(e & _ & [=])|([] & s1 & E1 & E2)].
  unfold on_shared, zoom in E1. cbn in E1.
  destruct (set_map_regions _ _ _) as [[r [[c1 rs1] h1]]|] eqn:Em; [|done]. injection E1 as -> <-.
  apply set_map_regions_spec in Em as [-> Hm]; [|by cbn|by cbn|cbn; lia].
  destruct (resize_spec _ _ (mem_multi_region d) _ rs1 h1 Hg Hm) as (r & c' & rs' & h' & E3 & Hg' & Hm' & Hres).
  erewrite run_on_shared in E2 by exact E3. injection E2 as -> <-. cbn. split_and!; try done; subst c'; [done| |done].
  cbn. destruct (wanted_usable_spec _ _ _ Hg) as [Hw _]. unfold grown_usable. cbn in *. lia.
Qed.

Lemma mem_activate_ok queues (s s' : system) :
  mem_activate queues s = Ret (Ok tt, s') -> mem_state_map s.1 = None ->
  geometry (capacity s.1) (mem_alignment s.1) (w_config s.2) -> mapped (mem_multi_region s.1) (w_config s.2) (w_regions s.2) ->
  plugged_size (w_config s.2) = 0 ->
  sys_ok s' /\ w_config s'.2 = w_config s.2 /\ plugged_set (w_bits s'.2) = ∅ /\
  capacity s'.1 = capacity s.1 /\ mem_alignment s'.1 = mem_alignment s.1.
Proof.
  destruct s as [d w]. unfold mem_activate, udiv. cbn [fst snd]. intros E Hst Hg Hm Hp.
  destruct (negb _ || _); [done|]. destruct (negb _); [done|]. rewrite (g_block _ _ _ Hg) in E. cbn in E. injection E as <-. rewrite Hst. cbn.
  assert (plugged_set (repeat false (Z.to_nat (region_size (w_config w) / BS))) = ∅) as Hnone.
  { apply set_eq. intros j. rewrite elem_of_plugged. split; [|set_solver]. intros Hj%list_elem_of_lookup_2%list_elem_of_In%repeat_spec. done. }
  pose proof (g_region _ _ _ Hg). rewrite (g_cap _ _ _ Hg) in Hnone |- *.
  split_and!; try done. split; [|done]. split; cbn [fst snd w_config w_bits w_regions]; [|done|].
  - split; cbn [view fst snd w_config w_bits]; rewrite ?Hnone, ?size_empty; [done|set_solver| |lia].
    rewrite Hp. split; [cbn; lia|done].
  - rewrite repeat_length. assert (0 <= capacity d / BS) by (apply Z.div_pos; lia). cbn. lia.
Qed.

(** ** Everything that happens to the device *)

(** The guest notifies queue [idx], the host asks for a new size in MiB, or the
    device is taken away from the event manager. *)
Inductive mem_action := Kick (idx : nat) | NewSize (mb : Z) | Remove.

Definition run_action (a : mem_action) (s : system) : outcome system :=
  match a with
  | Kick idx => mem_event idx s
  | NewSize mb => '(_, s) ← set_requested_size mb s; Ret s
  | Remove => Ret (mem_remove s.1, s.2)
  end.

Fixpoint run_actions (l : list mem_action) (s : system) : outcome system :=
  match l with
  | [] => Ret s
  | a :: l' => s ← run_action a s; run_actions l' s
  end.

Definition action_in_range (a : mem_action) : Prop := match a with NewSize mb => 0 <= mb | _ => True end.

Lemma run_action_ok a (s s' : system) : action_in_range a -> run_action a s = Ret s' -> sys_ok s -> sys_ok s' /\ capacity s'.1 = capacity s.1.
Proof.
  destruct s as [d w]. intros Ha E Hok. destruct a as [idx|mb|]; cbn in E.
  - destruct (subscribed d) as [handler|] eqn:Es; [|by injection E as <-].
    destruct (process_event idx handler w) as [[[handler'|[]] w']|] eqn:Ep; [|done]. injection E as <-.
    destruct Hok as [Hw Hh]. cbn in Hw, Hh. rewrite Es in Hh. split; [|done]. split; cbn.
    + by apply (process_event_keeps (capacity d) (mem_alignment d) (mem_multi_region d) idx handler Hh w _ _ Ep).
    + apply process_event_handler in Ep as [-> _]. done.
  - destruct (mib mb) as [n|] eqn:En; [|unfold set_requested_size in E; by rewrite En in E].
    pose proof (mib_nonneg mb n Ha En) as Hn.
    destruct (set_requested_spec mb n (d, w) Hok En) as (r & w' & E1 & Hok' & _); [lia|]. rewrite E1 in E. by injection E as <-.
  - injection E as <-. split; [|done]. by destruct Hok.
Qed.

Lemma run_actions_ok l (s s' : system) :
  Forall action_in_range l -> run_actions l s = Ret s' -> sys_ok s -> sys_ok s' /\ capacity s'.1 = capacity s.1.
Proof.
  revert s. induction l as [|a l IH]; intros s Hl E Hs; cbn in E; [by injection E as <-|]. apply Forall_cons in Hl as [Ha Hl].
  destruct (run_action a s) as [s1|] eqn:E1; [|done]. destruct (run_action_ok _ _ _ Ha E1 Hs) as [Hs1 Hc1].
  destruct (IH s1 Hl E Hs1) as [Hs' Hc']. split; [done|congruence].
Qed.
End device.
