(* ===== verification/VirtioMemProps.v ===== *)
(** * Properties of the virtio-mem device

    Requests refine the set of plugged blocks; the plugged blocks stay usable and
    accounted for; the guest can plug all that is requested; and what is left
    behind by errors.  A small host, guest memory and queue serve as witnesses. *)
From S2P Require Import Prelude Bits DeviceResources Effects InterruptManager MmioData VirtioDeviceInfo VirtioMem VirtioMemFacts VirtioMemSpec VirtioMemDevice.

(** ** A host, a memory and a queue *)

(** The host gives memory at one address, takes back as many times as its state
    says, and its events succeed. *)
Record DemoMemHost := mkDemoMemHost { dh_release : nat; dh_create : bool }.

#[global] Instance DemoMemHost_host : MemHost DemoMemHost := {
  create_region a n slot h := if dh_create h && (0 <=? n) && (n <=? 2 ^ 61) then (Ok (Some (2 ^ 40)), h) else (Err (MemIOError EOTHER), h);
  madvise_remove a n h := match dh_release h with O => (false, h) | S k => (true, mkDemoMemHost k (dh_create h)) end;
  punch_hole fd o n h := (true, h);
  notify_change h := (Ok tt, h);
  consume_event idx h := (Ok 1, h);
  notify_queue idx h := (Ok tt, h);
}.

#[global] Instance DemoMemHost_laws : MemHostLaws DemoMemHost.
Proof.
  split. intros a n slot h p h'. cbn. destruct (dh_create h && (0 <=? n) && (n <=? 2 ^ 61)) eqn:E; [|done]. intros [= <- <-].
  apply andb_true_iff in E as [[_ E1%Z.leb_le]%andb_true_iff E2%Z.leb_le]. lia.
Qed.

(** Guest memory holds one object, the request; responses go elsewhere. *)
#[global] Instance demo_guest_mem : GuestMem (list Z) := {
  mem_read a n m := if (Nat.eqb (length m) n) && forallb (fun b => (0 <=? b) && (b <? 256)) m then Ok m else Err EOTHER;
  mem_write a bytes m := (Ok tt, m);
}.
#[global] Instance demo_guest_mem_laws : GuestMemLaws (list Z).
Proof.
  split. intros a n m l. cbn. destruct (Nat.eqb (length m) n && _) eqn:E; [|done]. intros [= <-].
  apply andb_true_iff in E as [E1%Nat.eqb_eq E2]. split; [done|]. apply Forall_forall. intros b Hb%list_elem_of_In.
  rewrite forallb_forall in E2. specialize (E2 b Hb). lia.
Qed.

(** A queue of chains that are all the same: the request and room for the
    response. *)
#[global] Instance demo_queue : VirtQueue nat nat (list Z) := {
  vq_iter q m := Ok q;
  vq_next q m := match q with O => None | S q' => Some (O, q') end;
  vq_left q := q;
  ch_head c := 0;
  ch_next c m := match c with O => Some (mkDesc 0 24 false, 1%nat) | 1%nat => Some (mkDesc 4096 10 true, 2%nat) | _ => None end;
  ch_left c := (2 - c)%nat;
  vq_add_used index len q m := (Ok tt, (q, m));
}.
#[global] Instance demo_queue_laws : VirtQueueLaws nat nat (list Z).
Proof.
  split.
  - intros [|q] m c q'; cbn; [done|]. intros [= <- <-]. lia.
  - intros [|[|c]] m d c'; cbn; [..|done]; intros [= <- <-]; lia.
Qed.

Abbreviation DemoMem := (Mem nat * MemWorld DemoMemHost (list Z))%type.

Ltac state_of_run x := let y := eval vm_compute in x in lazymatch y with Ret (Ok tt, ?s) => exact s | Ret ?s => exact s end.

(** A device of 256 MiB at 4 GiB, of which 64 MiB are requested. *)
Definition demo_new : Mem nat * VirtioMemConfig :=
  ltac:(let y := eval vm_compute in (Mem_new (Q := nat) 256 64 false None 0) in lazymatch y with Ret (Ok ?p) => exact p end).
Definition demo_resource : DeviceResources := mkDeviceResources [LegacyIrq 5; MemAddressRange (2 ^ 32) (256 * 2 ^ 20); KvmMemSlot 1].
Definition demo_request (ty addr nb : Z) : list Z := le_write 8 ty ++ le_write 8 addr ++ le_write 8 nb.
Definition demo_created (releases : nat) (request : list Z) : DemoMem :=
  (demo_new.1, mkMemWorld demo_new.2 [] (mkDemoMemHost releases true) [] request).
Definition demo_placed : DemoMem := ltac:(state_of_run (mem_set_resource demo_resource (demo_created 1 (demo_request 0 (2 ^ 32) 4)))).
Definition demo_active : DemoMem := ltac:(state_of_run (mem_activate [2%nat] demo_placed)).

Lemma demo_fits : resource_fits demo_new.1 demo_resource.
Proof. intros base size Hin. apply list_elem_of_singleton in Hin as [= -> ->]. split; [lia|]. split; [by exists 32|]. lia. Qed.

Lemma demo_active_ok : sys_ok demo_active.
Proof.
  destruct (set_resource_spec 256 64 false None 0 demo_new.1 demo_new.2 demo_resource (mkDemoMemHost 1 true) []
              (demo_request 0 (2 ^ 32) 4) demo_placed) as (E & Hg & Hm & _ & _ & Hp); [lia|lia|by vm_compute|exact demo_fits|by vm_compute|].
  apply (mem_activate_ok [2%nat] demo_placed demo_active); [by vm_compute|by vm_compute|..]; rewrite ?E; done.
Qed.

(** The demo device after the guest plugged 16 MiB, and a request. *)
Definition demo_plugged : DemoMem := ltac:(state_of_run (run_actions [Kick 0] demo_active)).
Definition demo_unplug : VirtioMemReq := mkMemReq VIRTIO_MEM_REQ_UNPLUG (2 ^ 32 + BS) 2.

Lemma demo_plugged_ok : sys_ok demo_plugged.
Proof. apply (run_actions_ok [Kick 0] demo_active demo_plugged); [by repeat constructor|by vm_compute|exact demo_active_ok]. Qed.

(** ** Requests *)

Section props.
Context {H Q Ch M : Type} `{HH : MemHost H} `{!MemHostLaws H} `{HM : GuestMem M} `{!GuestMemLaws M} `{HQ : VirtQueue Q Ch M} `{!VirtQueueLaws Q Ch M}.

(** C8: A request on the queue of the memory device takes the step of the
    abstract device, whose state is the configuration and the set of plugged
    blocks: the response that is written to guest memory and the blocks and the
    plugged size afterwards are those of the step, and the invariant is kept.
    A request of a type that is not in the protocol gets no response and changes
    nothing, and a question about the state of blocks below the region panics. *)
Theorem requests_refine_block_set cap alignment multi fd r sa (w : MemWorld H M) :
  world_ok cap alignment multi w -> request_in_range r ->
  (~ known_request r /\ process_request multi fd (Ok (r, sa)) w = Ret (Ok 0, w)) \/
  (below_region (w_config w) r /\ process_request multi fd (Ok (r, sa)) w = Panic) \/
  (known_request r /\ exists len resp st w', process_request multi fd (Ok (r, sa)) w = Ret (Ok len, w') /\
     mem_step (host_yields H) multi (view w) r resp st (view w') /\
     w_mem w' = (mem_write sa (mem_resp_bytes resp st) (w_mem w)).2 /\ world_ok cap alignment multi w').
Proof.
  intros Hw Hr. destruct (decide (0 <= req_type r <= 3)) as [Hk|Hk]; [right|left; split; [done|by apply unknown_request_ignored]].
  destruct (decide (req_type r = VIRTIO_MEM_REQ_STATE /\ req_addr r < mem_addr (w_config w))) as [Hb|Hb].
  - left. split; [done|]. by eapply below_region_panics.
  - right. destruct (process_request_sim cap alignment multi fd r sa w Hw Hr Hk Hb) as (len & resp & st & w' & E & Hs & Hm & Hreg & Hlen).
    split; [done|]. exists len, resp, st, w'. split_and!; [done..|]. by eapply step_world_ok.
Qed.

(** C11: Whatever the guest requests and whatever sizes the host asks for, the
    plugged blocks lie in the usable part of the region, the usable part within
    the capacity, and the plugged size, which is at most the capacity, counts at
    least the plugged blocks; it counts exactly them if the host takes memory
    back whenever it is asked to. *)
Theorem plugged_memory_usable cap_mib req_mib multi numa boot d c res (h : H) (m : M) (queues : list Q) s1 s2 l s :
  0 <= cap_mib -> 0 <= req_mib -> Mem_new cap_mib req_mib multi numa boot = Ret (Ok (d, c)) -> resource_fits d res ->
  mem_set_resource res (d, mkMemWorld c [] h [] m) = Ret (Ok tt, s1) -> mem_activate queues s1 = Ret (Ok tt, s2) ->
  Forall action_in_range l -> run_actions l s2 = Ret s ->
  let config := w_config s.2 in let blocks := plugged_set (w_bits s.2) in
  (forall x, x ∈ blocks -> (Z.of_nat x + 1) * BS <= usable_region_size config) /\ usable_region_size config <= capacity d /\
  Z.of_nat (size blocks) * BS <= plugged_size config <= capacity d /\
  (host_yields H -> plugged_size config = Z.of_nat (size blocks) * BS).
Proof.
  intros Hc Hr En Hfit Es Ea Hl El. cbv zeta.
  destruct (set_resource_spec _ _ _ _ _ _ _ _ _ _ _ _ Hc Hr En Hfit Es) as (<- & Hg & Hm & _ & _ & Hp).
  destruct (Mem_new_spec _ _ _ _ _ _ _ Hc Hr En) as (_ & _ & _ & _ & _ & _ & _ & _ & _ & Hst & _).
  destruct (mem_activate_ok _ _ _ Ea Hst Hg Hm Hp) as (Hs2 & _ & _ & Hcap & _).
  destruct (run_actions_ok l s2 s Hl El Hs2) as [[[[Hg' Hu [Hp' _] Hx] _ _] _] Hcap']. cbn [fst snd view] in *. rewrite Hcap', Hcap in *.
  split_and!; [done|apply Hg'|apply Hp'|apply Hp'|done].
Qed.

(** An event of the queue is handled to its end when the requests in guest
    memory do not ask for the state of blocks below the region and the queue
    takes its chains back. *)
Theorem mem_event_returns idx P (s : Mem Q * MemWorld H M) :
  sys_ok s -> asks_above P (mem_addr (w_config s.2)) -> P (w_mem s.2) -> takes_back -> exists s', mem_event idx s = Ret s'.
Proof.
  destruct s as [d w]. intros [Hw Hh] Ha HP Ht. cbn in *. destruct (subscribed d) as [handler|]; [|by eexists].
  destruct (process_event_returns _ _ _ P idx handler w Hh Hw Ha HP Ht) as (handler' & w' & ->). by eexists.
Qed.

(** ** Room for what is requested *)

(** Plug requests one after another, with their responses. *)
Fixpoint plug_all (multi : bool) (fd : option Z) (rs : list VirtioMemReq) : eff (MemWorld H M) False (list Z) :=
  match rs with
  | [] => mret []
  | r :: rs' => resp ← process_state_change multi fd r true; resps ← plug_all multi fd rs'; mret (resp :: resps)
  end.

(** C22: As long as the requested size is not above the usable size and the plugged
    size counts exactly the plugged blocks, the guest can plug all the memory that
    is requested: there are plug requests that are all acknowledged, after which
    the blocks that are plugged are as much memory as is requested, among them all
    that were plugged before.  (After a failed request to unplug everything the
    plugged size counts too much, see [failed_unplug_all_overcounts].) *)
Theorem requested_memory_can_be_plugged cap alignment multi fd (w : MemWorld H M) :
  world_ok cap alignment multi w -> plugged_size (w_config w) = Z.of_nat (size (plugged_set (w_bits w))) * BS ->
  plugged_size (w_config w) <= requested_size (w_config w) <= usable_region_size (w_config w) ->
  exists rs w', plug_all multi fd rs w = Ret (Ok (repeat VIRTIO_MEM_RESP_ACK (length rs)), w') /\
    Z.of_nat (size (plugged_set (w_bits w'))) * BS = requested_size (w_config w) /\
    plugged_size (w_config w') = requested_size (w_config w) /\ plugged_set (w_bits w) ⊆ plugged_set (w_bits w').
Proof.
  remember (Z.to_nat ((requested_size (w_config w) - plugged_size (w_config w)) / BS)) as n eqn:En. revert w En.
  induction n as [|n IH]; intros w En Hw Hexact Hreq; pose proof Hw as [[Hg _ [_ Hpm] _] _ _]; cbn [view fst] in Hg, Hpm;
    destruct (g_requested _ _ _ Hg) as [_ Hqm].
  - exists [], w. rewrite <- Hexact. split_and!; [done| | |done]; Z.div_mod_to_equations; lia.
  - destruct (plug_one cap alignment multi fd w Hw) as (x & w1 & E1 & Hw1 & Hlim & Hp1 & Hx & Hs1); [Z.div_mod_to_equations; lia|].
    assert (requested_size (w_config w1) = requested_size (w_config w) /\ usable_region_size (w_config w1) = usable_region_size (w_config w))
      as [Hr1 Hu1] by (by injection Hlim).
    assert (size (plugged_set (w_bits w1)) = S (size (plugged_set (w_bits w)))) as Hn1.
    { rewrite Hs1, size_union, size_singleton by (by apply disjoint_singleton_r). lia. }
    destruct (IH w1) as (rs & w' & E2 & Hb2 & Hp2 & Hs2); [rewrite Hr1, Hp1; Z.div_mod_to_equations; lia|done|rewrite Hp1, Hn1, Hexact; lia|rewrite Hr1, Hu1, Hp1; Z.div_mod_to_equations; lia|].
    exists (plug_block (w_config w) x :: rs), w'. cbn [plug_all]. rewrite (run_ok_bind _ _ _ _ _ E1), (run_ok_bind _ _ _ _ _ E2).
    split_and!; [done|congruence|congruence|]. rewrite Hs1 in Hs2. clear -Hs2. set_solver.
Qed.

(** C24: A new size that exceeds the capacity or is not a number of blocks is
    refused and changes nothing.  A size that is accepted is recorded even when
    the host then has no memory for the usable part: the error leaves the new
    requested size in the configuration, with the usable part as it was.
    Otherwise the usable part holds the requested size.  The plugged blocks do
    not change. *)
Theorem new_size_outcomes mb n (s : Mem Q * MemWorld H M) :
  sys_ok s -> mib mb = Ret n -> 0 <= n ->
  exists r w', set_requested_size mb s = Ret (r, (s.1, w')) /\ sys_ok (s.1, w') /\ w_bits w' = w_bits s.2 /\
    if size_accepted s.1 n then
      requested_size (w_config w') = n /\ usable_region_size (w_config s.2) <= usable_region_size (w_config w') /\
      (n <= usable_region_size (w_config w') \/
       usable_region_size (w_config w') = usable_region_size (w_config s.2) /\
       exists e a len slot, r = Err e /\ refused e (create_region a len slot (w_host s.2)).1)
    else r = Err MemInvalidInput /\ w' = s.2.
Proof.
  intros Hs Emib Hn. destruct (set_requested_spec mb n s Hs Emib Hn) as (r & w' & E & Hs' & Hb & _ & _ & Hres). cbv zeta in Hres.
  exists r, w'. split_and!; [done..|]. destruct (size_accepted s.1 n) eqn:Eacc; [|done].
  assert (geometry (capacity s.1) (mem_alignment s.1) (put_requested n (w_config s.2))) as Hg.
  { destruct Hs as [[[Hg _ _ _] _ _] _]. cbn in Hg. apply andb_true_iff in Eacc as [E1%Z.leb_le E2%Z.eqb_eq]. destruct Hg; by split. }
  destruct (wanted_usable_spec _ _ _ Hg) as [Hw _]. cbn in Hw.
  destruct Hres as [[-> _]|(-> & _ & _ & e & a & len & slot & -> & Href)]; cbn.
  - unfold grown_usable. cbn. split_and!; [done|lia|]. left. lia.
  - split_and!; [done..|]. right. split; [done|]. by exists e, a, len, slot.
Qed.
End props.

Lemma requests_refine_block_set_witness :
  exists len resp st w', process_request false None (Ok (demo_unplug, 4096)) demo_plugged.2 = Ret (Ok len, w') /\
     mem_step (host_yields DemoMemHost) false (view demo_plugged.2) demo_unplug resp st (view w').
Proof.
  destruct (requests_refine_block_set (256 * 2 ^ 20) (2 ^ 27) false None demo_unplug 4096 demo_plugged.2)
    as [[Hk _]|[[[Ht _] _]|(_ & len & resp & st & w' & E & Hs & _)]];
    [exact (so_world _ demo_plugged_ok)|vm_compute; repeat split; discriminate|destruct Hk; vm_compute; split; discriminate|discriminate|].
  by exists len, resp, st, w'.
Defined.

Lemma plugged_memory_usable_witness :
  Z.of_nat (size (plugged_set (w_bits demo_plugged.2))) * BS <= plugged_size (w_config demo_plugged.2) <= 256 * 2 ^ 20.
Proof.
  destruct (plugged_memory_usable 256 64 false None 0 demo_new.1 demo_new.2 demo_resource (mkDemoMemHost 1 true) (demo_request 0 (2 ^ 32) 4)
              [2%nat] demo_placed demo_active [Kick 0] demo_plugged) as (_ & _ & Hp & _);
    [lia|lia|vm_compute; reflexivity|exact demo_fits|vm_compute; reflexivity|vm_compute; reflexivity|by repeat constructor|vm_compute; reflexivity|].
  exact Hp.
Defined.

(** The request of the demo memory plugs blocks. *)
Lemma demo_asks_above : asks_above (Ch := nat) (fun m => m = demo_request 0 (2 ^ 32) 4) (2 ^ 32).
Proof.
  split; [|done]. intros c m r sa ->. unfold Request_parse. destruct c as [|[|c]]; cbn [ch_next demo_queue]; [|done..].
  vm_compute. intros [= <- <-]. done.
Qed.

Lemma mem_event_returns_witness : exists s', mem_event 0 demo_active = Ret s'.
Proof.
  apply (mem_event_returns 0 (fun m => m = demo_request 0 (2 ^ 32) 4) demo_active);
    [exact demo_active_ok|exact demo_asks_above|vm_compute; reflexivity|intros index len q m; reflexivity].
Defined.

Lemma requested_memory_can_be_plugged_witness :
  exists rs w', plug_all false None rs demo_plugged.2 = Ret (Ok (repeat VIRTIO_MEM_RESP_ACK (length rs)), w') /\
    Z.of_nat (size (plugged_set (w_bits w'))) * BS = 64 * 2 ^ 20.
Proof.
  destruct (requested_memory_can_be_plugged (256 * 2 ^ 20) (2 ^ 27) false None demo_plugged.2) as (rs & w' & E & Hp & _);
    [exact (so_world _ demo_plugged_ok)|vm_compute; reflexivity|vm_compute; split; discriminate|]. exists rs, w'. split; [exact E|exact Hp].
Defined.

Lemma new_size_outcomes_witness :
  exists r w', set_requested_size 128 demo_plugged = Ret (r, (demo_plugged.1, w')) /\ requested_size (w_config w') = 128 * 2 ^ 20.
Proof.
  destruct (new_size_outcomes 128 (128 * 2 ^ 20) demo_plugged) as (r & w' & E & _ & _ & Hr & _);
    [exact demo_plugged_ok|reflexivity|lia|]. exists r, w'. split; [exact E|exact Hr].
Defined.

(** The demo device with 16 MiB plugged and requested; the host takes back one
    block and then no more. *)
Definition demo_full : DemoMem := ltac:(state_of_run (run_actions [Kick 0; NewSize 16] demo_active)).

(** A request to unplug everything that fails half way leaves the plugged size
    as it was, although blocks are gone: a state can be reached in which the
    request answers with an error after one of four blocks went back to the host,
    the plugged size still says four, and a request to plug the block again is
    refused for exceeding the requested size. *)
Theorem failed_unplug_all_overcounts :
  exists w', process_request false None (Ok (mkMemReq VIRTIO_MEM_REQ_UNPLUG_ALL 0 0, 4096)) demo_full.2 = Ret (Ok 10, w') /\
    plugged_set (w_bits demo_full.2) = block_range 0 4 /\ plugged_set (w_bits w') = block_range 1 3 /\
    plugged_size (w_config w') = 4 * BS /\ requested_size (w_config w') = 4 * BS /\
    exists w'', process_state_change false None (plug_block (w_config w') 0) true w' = Ret (Ok VIRTIO_MEM_RESP_NACK, w'').
Proof.
  eexists. split; [vm_compute; reflexivity|].
  split_and!; try (vm_compute; reflexivity). eexists. vm_compute. reflexivity.
Qed.
